(* ===== verification/_CoqProject ===== *)
-Q . S2P
Prelude.v
External.v
Cells.v
Bits.v
Values.v
VmStack.v
VmGas.v
VmRegs.v
VmState.v
ArithOps.v
CmpOps.v
LogicOps.v
StackOps.v
TupleOps.v
ContOps.v
GasOps.v
CellOps.v
Dicts.v
DictOps.v
Models.v
SmcInfo.v
CurrencyOps.v
RandOps.v
CryptOps.v
SizeOps.v
ConfigOps.v
MessageOps.v
DebugOps.v
Dispatch.v
VmProc.v
Tokenizer.v
TokenizerSpec.v
TreeModels.v
Codepage.v
Run.v
GasLaws.v
Tracking.v
ModuleTracking.v
Instructions.v
Metering.v
Termination.v
DispatchLaws.v
RegTracking.v
ArithSpec.v
StackSpec.v
CodepageLaws.v
Reach.v
GasSpec.v
CellSpec.v
HashSpec.v
Serial.v
SerialSpec.v
SerialEnds.v
Dump.v
DumpOps.v
DumpSpec.v
Disasm.v
DisasmSpec.v
DisasmLinks.v
TreeSerial.v
ContSpec.v
Witnesses.v
ExecConfig.v
ExecUtil.v
ExecState.v
Phases.v
Compute.v
Action.v
ActionPhase.v
Transaction.v
ConfigSpec.v
FundFlow.v
SizeSpec.v
ActionFlow.v
ActionSpec.v
ActionList.v
ComputeSpec.v
TransactionSpec.v
ExecWitnesses.v
DisasmWitnesses.v
