(* ===== verification/Prelude.v ===== *)
(** * Tycho VM: a verification development (root file)

    The repository holds a virtual machine for TON smart contracts (vm/), the macro
    that generates its instruction tables (vm-proc/), the executor that runs
    transactions on it (executor/) and a disassembler of contracts (disasm/).  This
    library translates them into executable definitions and proves what makes them
    correct.

    ** The parts and how they interact

    The machine runs the code of a contract: [run] (vm/src/state.rs) steps until a
    continuation quits; a step looks an opcode up in the table (vm/src/dispatch.rs),
    which the instruction modules (vm/src/instr) fill through the patterns parsed by
    vm-proc; instructions work on the operand stack (vm/src/stack.rs), the control
    registers and continuations (vm/src/cont.rs) and pay from the gas consumer
    (vm/src/gas.rs).  RUNVM starts a child machine with part of the gas of its parent.
    The executor (executor/src/lib.rs) starts from the state of an account and runs the
    phases of a transaction (executor/src/tx, executor/src/phase): receiving, storage
    and credit, compute, which runs the machine, action, which carries out the actions
    the contract asked for, and bounce; then it commits the new state of the account.
    The disassembler (disasm/src/lib.rs) decodes code with the dump side of the same
    opcode table: each instruction has a text, which a tokenizer (disasm/src/tokenizer.rs)
    splits into a name and arguments, and the cells and slices it refers to become items.

    ** Files

    Shared.  This file: results, the error and state monad [MS] with its notations,
    integers of machine width, and the list lemmas and tactics all files use.
    External.v: the crates outside the repository as the class [CellLib] (cells, slices,
    hashes, sizes of big integers), with their documented behaviour as [CellLaws] and
    [BigIntLaws] and a concrete instance over bit trees.  Cells.v: slices and builders of
    the same crate ([SliceLib], [SliceLaws], instance [TreeSlices]).  Dicts.v: its
    dictionaries ([DictLib]), as programs over the cell context they are given.  Models.v:
    its blockchain models ([ModelLib], [ModelLaws]).  The instances are in
    TreeModels.v, and in TreeSerial.v those for serialization and disassembly.

    The machine.
    - Values.v: error.rs, the values of stack.rs and the continuations of cont.rs.
    - VmStack.v: [Stack]; VmGas.v: [GasConsumer], the limited consumer and library
      resolution (gas.rs); VmRegs.v: [ControlRegs]; VmState.v: the machine state with
      calls, returns, jumps, loops and exceptions (state.rs, cont.rs).
    - ArithOps.v, CmpOps.v, LogicOps.v, StackOps.v, TupleOps.v, ContOps.v, GasOps.v,
      CellOps.v, DictOps.v, CurrencyOps.v, RandOps.v, CryptOps.v, SizeOps.v, DebugOps.v,
      ConfigOps.v, MessageOps.v: the instructions, one definition [exec_*] per handler of
      the module of the same name.
    - Dispatch.v: the opcode table (dispatch.rs); VmProc.v: the pattern parser of
      vm-proc/src/lib.rs; Codepage.v: the attributes of the modules and code page 0.
    - Run.v: the builder, [step], [run_inner], [run] and [restore_parent].
    - SmcInfo.v: the context of a contract, smc_info.rs.
    - Serial.v: stacks, values, control data and continuations as cells, the Store and
      Load implementations of stack.rs and cont.rs.
    - Bits.v, ModuleTracking.v: lemmas on bit strings, and the interface of Tracking.v for
      the building blocks of the instructions that use other crates.

    The executor (executor/src).
    - ExecConfig.v: config.rs; ExecUtil.v: util.rs; ExecState.v: the state, start and
      commit of a transaction (lib.rs).
    - Phases.v: phase/receive.rs, storage.rs, credit.rs and bounce.rs; Compute.v:
      phase/compute.rs; Action.v and ActionPhase.v: phase/action.rs.
    - Transaction.v: tx/ordinary.rs, tx/ticktock.rs and the entry points of lib.rs.

    The disassembler.
    - Dump.v: the feature dump of dispatch.rs, with the visitor as the class [DumpOutput];
      DumpOps.v: the attributes fmt and dump_with of the instruction modules, in the order
      of Codepage.v.
    - Tokenizer.v: tokenizer.rs, after the texts and digits it needs.
    - Disasm.v: lib.rs and models.rs: the items, their links and the loops of
      [disasm_structured].

    Mutable Rust objects are explicit states: a method with [&mut self] is a computation
    in [MS S E], its [?] the bind, its early returns the branches; [Rc] values are
    immutable once shared ([make_mut] copies), so they are plain values.  [u32], [u64],
    [i64] and [u128] are [Z] with the wrap-around, saturation or check the source
    writes; amounts ([Tokens]) are 120-bit with checked arithmetic.  [unwrap] and
    [expect] are errors of their own (panics), so that their absence is a theorem.

    ** The theorems

    - Transactions (TransactionSpec.v, over FundFlow.v, ActionFlow.v, ActionSpec.v,
      ComputeSpec.v): value is conserved across every phase, outbound
      messages are numbered consecutively, the committed state has the status the phases
      left, the compute phase ends and is paid for, a failed action costs exactly its
      fine, and the rewrites of a message end.
    - Prices and statistics (ConfigSpec.v): the gas a balance buys is the
      greatest it can pay for; storage fees are a sum over seconds; the statistics of a
      cell tree count each distinct cell once.
    - The machine as a whole: no reachable state panics (RegTracking.v, Reach.v), every
      run ends within fuel linear in the gas (Metering.v, Termination.v),
      and [run] refines the transition system of Reach.v.  Tracking.v is the interface
      between control transfer and instructions: an invariant that the elementary
      operations respect is respected by every instruction (Instructions.v).
    - The opcode table (DispatchLaws.v, CodepageLaws.v): a partition of
      the opcode words, overlaps refused, arguments decoded as encoded.
    - Gas (GasLaws.v, GasSpec.v), control flow (ContSpec.v), arithmetic and comparison
      (ArithSpec.v), stack and tuples (StackSpec.v): what the operations
      compute on every input, errors included.
    - Instructions on data: records of fields (CellSpec.v), the size of trees (SizeSpec.v,
      over ConfigSpec.v), hashes of concatenations (HashSpec.v), and the list of actions
      from the instructions to the action phase (ActionList.v).
    - Serialization: SerialSpec.v is the calculus of writers, readers and round trips, and
      has the round trip of stacks and what does not come back; SerialEnds.v has that
      loading ends on any slice.  TreeSerial.v discharges the laws.
    - Disassembly: TokenizerSpec.v gives the grammar the tokenizer accepts; DumpSpec.v
      has that the dump table decodes what the code page runs, and that the tokenizer reads
      the texts of all instructions without references in the code; DisasmSpec.v that
      disassembly ends on every code, and DisasmLinks.v that the links of its result are
      to items of the right kind.
    - Witnesses.v, ExecWitnesses.v, DisasmWitnesses.v: the machine, the executor and the
      disassembler evaluated on concrete inputs, and every theorem with hypotheses applied
      to them.

    ** Fuel and bounds

    The loops of [run] have fuel; [run_terminates] gives [2 * gas_bound + 3] turns, because a
    turn spends gas or starts a child with gas of its parent.  The rewrites of a message
    have fuel 3, which is enough ([send_loop_ends]); the list of actions has the 255 of
    the source as fuel; cell statistics have the depth of the cell, which is enough
    ([add_cells_counts_distinct]).  The walk of CDATASIZE has [2 ^ 63] turns and one per
    cell on its stack: each further turn costs gas ([data_size_counts]).  Loading values
    and continuations has fuel for their nesting: [2 * n] for [n] levels
    ([stack_round_trip]), and there is enough for any slice ([loading_ends]).  The loop of
    the disassembler over its stack has fuel, and there is enough for any code
    ([disasm_ends]); the loop over the opcodes of an item has the bits of its slice, and
    those of the tokenizer the length of the text, which is enough
    ([tokenizer_accepts_grammar]).

    ** Not modelled

    - Logging, the debug writer and the formatting of values and errors, which no
      execution depends on, and the JSON output of the disassembler (serde).
    - Reference counting (saferc.rs): without effect on values.
    - The generation of Rust syntax by vm-proc, fuzz targets and bindings. *)

From stdpp Require Export base tactics list numbers option gmap.
From Stdlib Require Export ZArith Lia.

Open Scope Z_scope.

(** ** Results and the state-and-error monad

    Rust's [Result<T, E>] and code that mutates [&mut self] and may return early
    with an error.  A computation returns its result together with the state it
    leaves behind: as in the source, the mutations made before an early return
    stay visible after the error. *)

Inductive result (E A : Type) : Type :=
| Ok (a : A)
| Err (e : E).
Arguments Ok {E A} a.
Arguments Err {E A} e.

Definition MS (S E A : Type) : Type := S -> result E A * S.

Definition ret {S E A} (a : A) : MS S E A := fun s => (Ok a, s).
Definition raise {S E A} (e : E) : MS S E A := fun s => (Err e, s).
Definition bind {S E A B} (m : MS S E A) (k : A -> MS S E B) : MS S E B :=
  fun s => match m s with
           | (Ok a, s') => k a s'
           | (Err e, s') => (Err e, s')
           end.
Definition gets {S E A} (f : S -> A) : MS S E A := fun s => (Ok (f s), s).
Definition modify {S E} (f : S -> S) : MS S E unit := fun s => (Ok tt, f s).
Definition map_err {S E E' A} (f : E -> E') (m : MS S E A) : MS S E' A :=
  fun s => match m s with
           | (Ok a, s') => (Ok a, s')
           | (Err e, s') => (Err (f e), s')
           end.

(** [match m { Ok(x) => .., Err(e) => .. }] *)
Definition try_ms {S E A} (m : MS S E A) : MS S E (result E A) :=
  fun s => match m s with (r, s') => (Ok r, s') end.

(** Running a computation on a component of a larger state. *)
Definition zoom {S T E A} (get : S -> T) (set : T -> S -> S) (m : MS T E A) : MS S E A :=
  fun s => match m (get s) with (r, t) => (r, set t s) end.

Definition of_result {S E A} (r : result E A) : MS S E A := fun s => (r, s).
Definition of_option {S E A} (e : E) (o : option A) : MS S E A :=
  match o with Some a => ret a | None => raise e end.

Declare Scope vm_scope.
Delimit Scope vm_scope with vm.
Notation "'let*' x := m 'in' k" := (bind m (fun x => k))
  (at level 10, x pattern, m at level 100, k at level 200) : vm_scope.
Notation "'let?' x := m 'in' k" :=
  (match m with Ok x => k | Err e => Err e end)
  (at level 10, x pattern, m at level 100, k at level 200) : vm_scope.
Notation "m ;; k" := (bind m (fun _ => k))
  (at level 100, k at level 200, right associativity) : vm_scope.

(** [vm_ensure!(cond, error)] and [while]/[for] loops over a counter. *)
Definition ensure {S E} (c : bool) (e : E) : MS S E unit :=
  if c then ret tt else raise e.

(** A loop of at most [p] turns: [inl] goes on, [inr] has ended. *)
Fixpoint iter_pos {S E A B} (p : positive) (body : A -> MS S E (A + B)) (a : A) : MS S E (A + B) :=
  let again p r := match r with inl a => iter_pos p body a | inr b => ret (inr b) end in
  match p with
  | xH => body a
  | xO p => bind (iter_pos p body a) (again p)
  | xI p => bind (body a) (fun r => bind (again p r) (again p))
  end.

Fixpoint for_each {S E A} (l : list A) (body : A -> MS S E unit) : MS S E unit :=
  match l with
  | [] => ret tt
  | a :: l => bind (body a) (fun _ => for_each l body)
  end.

(** ** Machine integers *)

Definition U16_MAX : Z := 2 ^ 16 - 1.
Definition U32_MAX : Z := 2 ^ 32 - 1.
Definition U64_MAX : Z := 2 ^ 64 - 1.
Definition U128_MAX : Z := 2 ^ 128 - 1.
Definition I32_MIN : Z := - 2 ^ 31.
Definition I32_MAX : Z := 2 ^ 31 - 1.
Definition I64_MIN : Z := - 2 ^ 63.
Definition I64_MAX : Z := 2 ^ 63 - 1.
Definition ISIZE_MAX : Z := 2 ^ 63 - 1.

(** [as u8], [as u16], .. and [as i8], [as i16], ..: truncation to [w] bits. *)
Definition wrap_u (w z : Z) : Z := z mod 2 ^ w.
Definition wrap_s (w z : Z) : Z := (z + 2 ^ (w - 1)) mod 2 ^ w - 2 ^ (w - 1).

Definition clamp (lo hi z : Z) : Z := Z.max lo (Z.min hi z).
(** [i64::saturating_sub], [u64::saturating_add], .. *)
Definition sat_sub_i64 (a b : Z) : Z := clamp I64_MIN I64_MAX (a - b).
Definition sat_add_u64 (a b : Z) : Z := Z.min U64_MAX (a + b).
Definition sat_add_u128 (a b : Z) : Z := Z.min U128_MAX (a + b).
Definition sat_mul_u128 (a b : Z) : Z := Z.min U128_MAX (a * b).
Definition checked_sub_u (a b : Z) : option Z := if b <=? a then Some (a - b) else None.

(** [BigInt::to_u32], [to_u64], [to_i32], [to_i64]. *)
Definition to_range (lo hi z : Z) : option Z :=
  if (lo <=? z) && (z <=? hi) then Some z else None.
Definition to_u32 : Z -> option Z := to_range 0 U32_MAX.
Definition to_u64 : Z -> option Z := to_range 0 U64_MAX.
Definition to_i32 : Z -> option Z := to_range I32_MIN I32_MAX.
Definition to_i64 : Z -> option Z := to_range I64_MIN I64_MAX.

(** ** Automation *)

Create HintDb vm_monad.
#[export] Hint Unfold ret raise bind gets modify map_err try_ms zoom of_result
  of_option ensure : vm_monad.

Ltac vm_unfold := autounfold with vm_monad in *.

(** Turn boolean comparisons of the code into propositions. *)
Ltac zify_bool :=
  repeat match goal with
  | H : (_ && _) = true |- _ => apply andb_true_iff in H; destruct H
  | H : (_ || _) = false |- _ => apply orb_false_iff in H; destruct H
  | H : (_ && _) = false |- _ => apply andb_false_iff in H
  | H : (_ || _) = true |- _ => apply orb_true_iff in H
  | H : (_ <=? _) = true |- _ => apply Z.leb_le in H
  | H : (_ <=? _) = false |- _ => apply Z.leb_gt in H
  | H : (_ <? _) = true |- _ => apply Z.ltb_lt in H
  | H : (_ <? _) = false |- _ => apply Z.ltb_ge in H
  | H : (_ =? _) = true |- _ => apply Z.eqb_eq in H
  | H : (_ =? _) = false |- _ => apply Z.eqb_neq in H
  end.

(** Split on the boolean tests left in the goal. *)
Ltac case_bool :=
  match goal with
  | |- context [Z.leb ?a ?b] => destruct (Z.leb_spec a b)
  | |- context [Z.ltb ?a ?b] => destruct (Z.ltb_spec a b)
  | |- context [Z.eqb ?a ?b] => destruct (Z.eqb_spec a b)
  end.

Ltac unfold_widths :=
  unfold U16_MAX, U32_MAX, U64_MAX, U128_MAX, I32_MIN, I32_MAX, I64_MIN, I64_MAX,
    ISIZE_MAX in *.

(** ** Generic lemmas *)

Section Monad.
Context {S E A B : Type}.
Implicit Types (m : MS S E A) (k : A -> MS S E B).

Lemma bind_ok m k s a s' : m s = (Ok a, s') -> bind m k s = k a s'.
Proof. unfold bind. by intros ->. Qed.

Lemma bind_err m k s e s' : m s = (Err e, s') -> bind m k s = (Err e, s').
Proof. unfold bind. by intros ->. Qed.

Lemma ensure_true (e : E) (s : S) c : c = true -> ensure c e s = (Ok tt, s).
Proof. by intros ->. Qed.

Lemma ensure_false (e : E) (s : S) c : c = false -> ensure c e s = (Err e, s).
Proof. by intros ->. Qed.
End Monad.

(** Successful computations, taken apart. *)
Section Inversion.
Context {S E A B : Type}.

Lemma bind_inv (m : MS S E A) (k : A -> MS S E B) s b s'' :
  bind m k s = (Ok b, s'') -> exists a s', m s = (Ok a, s') /\ k a s' = (Ok b, s'').
Proof. unfold bind. destruct (m s) as [[a|e] s']; [eauto | discriminate]. Qed.

Lemma ensure_inv c (e : E) (s s' : S) u : ensure c e s = (Ok u, s') -> c = true /\ s' = s.
Proof. destruct c; [by intros [= _ <-] | discriminate]. Qed.

Lemma of_result_inv (r : result E A) (s s' : S) a : of_result r s = (Ok a, s') -> r = Ok a /\ s' = s.
Proof. by intros [= -> <-]. Qed.
End Inversion.

Lemma map_err_inv {S E E' A} (f : E -> E') (m : MS S E A) s a s' :
  map_err f m s = (Ok a, s') -> m s = (Ok a, s').
Proof. unfold map_err. destruct (m s) as [[] ?]; congruence. Qed.

(** A computation that relates the initial to the final state by [Rok] when it
    succeeds, with a value in [Q], and by [Rerr e] when it fails with [e]. *)
Definition tracks {S E A} (Rok : relation S) (Rerr : E -> relation S) (Q : A -> Prop)
    (m : MS S E A) : Prop :=
  forall s, match m s with
            | (Ok a, s') => Rok s s' /\ Q a
            | (Err e, s') => Rerr e s s'
            end.

(** Relations that compose along [bind]. *)
Class Tracking {S E : Type} (Rok : relation S) (Rerr : E -> relation S) : Prop := {
  tracking_preorder :: PreOrder Rok;
  tracking_err : forall e s1 s2 s3, Rok s1 s2 -> Rerr e s2 s3 -> Rerr e s1 s3
}.

Section Tracks.
Context {S E : Type} (Rok : relation S) (Rerr : E -> relation S) `{!Tracking Rok Rerr}.

#[local] Abbreviation tracks_in := (tracks Rok Rerr).

Lemma tracks_post {A} (Q Q' : A -> Prop) m :
  tracks_in Q m -> (forall a, Q a -> Q' a) -> tracks_in Q' m.
Proof. intros H HQ s. specialize (H s). destruct (m s) as [[] ?]; [|done]. naive_solver. Qed.

Lemma tracks_ret {A} (Q : A -> Prop) a : Q a -> tracks_in Q (ret (E:=E) a).
Proof. intros HQ s; cbn. split; [reflexivity | done]. Qed.

Lemma tracks_raise {A} (Q : A -> Prop) e : (forall s, Rerr e s s) -> tracks_in Q (raise e).
Proof. intros H s; apply H. Qed.

Lemma tracks_gets {A} (f : S -> A) : tracks_in (fun _ => True) (gets (E:=E) f).
Proof. intros s; cbn. split; [reflexivity | done]. Qed.

Lemma tracks_of_option {A} e (o : option A) :
  (o = None -> forall s, Rerr e s s) -> tracks_in (fun a => o = Some a) (of_option e o).
Proof. intros H s; destruct o; cbn; [split; [reflexivity|done] | by apply H]. Qed.

Lemma tracks_of_result {A} (r : result E A) :
  (forall e, r = Err e -> forall s, Rerr e s s) ->
  tracks_in (fun a => r = Ok a) (of_result r).
Proof. intros H s; destruct r; cbn; [split; [reflexivity|done] | by apply H]. Qed.

Lemma tracks_ensure c e : (c = false -> forall s, Rerr e s s) ->
  tracks_in (fun _ => c = true) (ensure c e).
Proof. intros H s; destruct c; cbn; [split; [reflexivity|done] | by apply H]. Qed.

Lemma tracks_bind {A B} (Q : A -> Prop) (Q' : B -> Prop) m k :
  tracks_in Q m -> (forall a, Q a -> tracks_in Q' (k a)) -> tracks_in Q' (bind m k).
Proof.
  intros Hm Hk s. unfold bind. specialize (Hm s).
  destruct (m s) as [[a|e] s']; [|done]. destruct Hm as [H1 Ha].
  specialize (Hk a Ha s'). destruct (k a s') as [[b|e] s''].
  - destruct Hk as [H2 Hb]. split; [|done]. etransitivity; [exact H1 | exact H2].
  - exact (tracking_err e _ _ _ H1 Hk).
Qed.

Lemma tracks_modify f : (forall s, Rok s (f s)) -> tracks_in (fun _ => True) (modify (E:=E) f).
Proof. intros Hf s; split; [apply Hf | done]. Qed.

Lemma tracks_map_err {E' A} (Rerr' : E' -> relation S) (f : E' -> E) (Q : A -> Prop)
    (m : MS S E' A) :
  tracks Rok Rerr' Q m -> (forall e s s', Rerr' e s s' -> Rerr (f e) s s') ->
  tracks_in Q (map_err f m).
Proof.
  intros Hm Hf s. unfold map_err. specialize (Hm s). destruct (m s) as [[] ?]; auto.
Qed.

Lemma tracks_zoom {A T} (Qok : relation T) (Qerr : E -> relation T) (Q : A -> Prop)
    (get : S -> T) set (m : MS T E A) :
  tracks Qok Qerr Q m ->
  (forall s t, Qok (get s) t -> Rok s (set t s)) ->
  (forall e s t, Qerr e (get s) t -> Rerr e s (set t s)) ->
  tracks_in Q (zoom get set m).
Proof.
  intros Hm Hok Herr s. unfold zoom. specialize (Hm (get s)).
  destruct (m (get s)) as [[] ?]; cbn in *; [|auto]. destruct Hm; auto.
Qed.

Lemma tracks_for_each {A} (l : list A) (body : A -> MS S E unit) :
  (forall a, tracks_in (fun _ => True) (body a)) -> tracks_in (fun _ => True) (for_each l body).
Proof.
  intros Hb. induction l as [|a l IH]; cbn; [by apply tracks_ret|].
  eapply tracks_bind; [apply Hb | auto].
Qed.
End Tracks.

Lemma to_range_Some lo hi z : lo <= z <= hi -> to_range lo hi z = Some z.
Proof. intros ?. unfold to_range. by repeat case_bool; try lia. Qed.

Lemma to_range_inv lo hi z z' : to_range lo hi z = Some z' -> z' = z /\ lo <= z <= hi.
Proof. unfold to_range. destruct (_ && _) eqn:?; [|done]. intros [= <-]. zify_bool; lia. Qed.

Lemma clamp_id lo hi z : lo <= z <= hi -> clamp lo hi z = z.
Proof. unfold clamp; lia. Qed.

Lemma wrap_s_id w z : 0 < w -> - 2 ^ (w - 1) <= z < 2 ^ (w - 1) -> wrap_s w z = z.
Proof.
  intros Hw Hz. unfold wrap_s.
  assert (2 ^ w = 2 * 2 ^ (w - 1)) as He.
  { rewrite <- Z.pow_succ_r by lia. f_equal; lia. }
  rewrite Z.mod_small; lia.
Qed.

Lemma wrap_s_range w z : 0 < w -> - 2 ^ (w - 1) <= wrap_s w z < 2 ^ (w - 1).
Proof.
  intros Hw. unfold wrap_s.
  assert (2 ^ w = 2 * 2 ^ (w - 1)) as He.
  { rewrite <- Z.pow_succ_r by lia. f_equal; lia. }
  pose proof (Z.mod_pos_bound (z + 2 ^ (w - 1)) (2 ^ w)). lia.
Qed.

Lemma checked_sub_u_Some a b : b <= a -> checked_sub_u a b = Some (a - b).
Proof. intros ?. unfold checked_sub_u. by case_bool; [|lia]. Qed.

Lemma checked_sub_u_None a b : a < b -> checked_sub_u a b = None.
Proof. intros ?. unfold checked_sub_u. by case_bool; [lia|]. Qed.

(** [(a << n) | d] appends the [n] bits of [d]. *)
Lemma lor_shiftl a n d : 0 <= n -> 0 <= d < 2 ^ n -> Z.lor (Z.shiftl a n) d = a * 2 ^ n + d.
Proof.
  intros Hn Hd. rewrite <- Z.shiftl_mul_pow2 by done.
  assert (Z.land (Z.shiftl a n) d = 0) as H0.
  { apply Z.bits_inj'. intros i Hi. rewrite Z.land_spec, Z.bits_0, Z.shiftl_spec by done.
    destruct (Z.lt_ge_cases i n); [by rewrite Z.testbit_neg_r by lia|].
    rewrite <- (Z.mod_small d (2 ^ n)) by done.
    rewrite Z.mod_pow2_bits_high by lia. apply andb_false_r. }
  rewrite Z.add_nocarry_lxor by done. by rewrite Z.lxor_lor.
Qed.
