(* ===== verification/External.v ===== *)
(** * The interface to [everscale_types] and [num_bigint]

    The VM keeps its data in cells of the crate [everscale_types], whose code is
    not part of the repository.  The crate is a parameter of the development:
    [CellLib] lists the types and operations the sources call, [CellLaws] and
    [BigIntLaws] the documented behaviour the theorems rely on.  [BigInt] itself is
    represented by [Z]; its extension trait ([bitsize], [has_correct_sign]) is a
    parameter too.  [TreeCells] is a concrete instance (bit strings and trees)
    used to evaluate the model on concrete inputs. *)

From S2P Require Import Prelude.

(** [everscale_types::error::Error], the variants the sources name. *)
Inductive Error :=
| CellUnderflow | CellOverflow | UnexpectedExoticCell | UnexpectedOrdinaryCell
| Cancelled | IntOverflow | InvalidTag | InvalidData | InvalidCell | OtherError.

#[export] Instance Error_eq_dec : EqDecision Error.
Proof. solve_decision. Defined.

(** [everscale_types::cell::CellType]. *)
Inductive CellType :=
| Ordinary | PrunedBranch | LibraryReference | MerkleProof | MerkleUpdate.

(** [everscale_types::cell::LoadMode]: a pair of flags. *)
Record LoadMode := mkLoadMode { use_gas : bool; resolve : bool }.
Definition LoadMode_Full : LoadMode := mkLoadMode true true.

Class CellLib := {
  Cell : Type;
  CellSliceRange : Type;
  CellBuilder : Type;
  HashBytes : Type;
  #[global] HashBytes_eq_dec :: EqDecision HashBytes;
  #[global] HashBytes_countable :: Countable HashBytes;

  (** [Cell::empty_cell], [Cell::default]. *)
  empty_cell : Cell;
  repr_hash : Cell -> HashBytes;
  cell_type : Cell -> CellType;
  level : Cell -> Z;
  repr_depth : Cell -> Z;
  reference_cloned : Cell -> Z -> option Cell;

  (** [CellSliceRange::full], [default] and its queries. *)
  range_default : CellSliceRange;
  range_full : Cell -> CellSliceRange;
  is_data_empty : CellSliceRange -> bool;
  is_refs_empty : CellSliceRange -> bool;
  size_bits : CellSliceRange -> Z;
  offset_refs : CellSliceRange -> Z;
  has_remaining : CellSliceRange -> Z -> Z -> bool;
  skip_first : CellSliceRange -> Z -> Z -> result Error CellSliceRange;

  (** [CellSlice::get_uint(offset, bits)], [load_bigint(bits, signed)],
      [get_reference_cloned(i)], [get_raw(8, .., 256)], each on
      [range.apply_allow_exotic(cell)]. *)
  get_uint : CellSliceRange -> Cell -> Z -> Z -> result Error Z;
  load_bigint : CellSliceRange -> Cell -> Z -> bool -> result Error (Z * CellSliceRange);
  get_reference_cloned : CellSliceRange -> Cell -> Z -> result Error Cell;
  get_library_hash : Cell -> result Error HashBytes;

  (** [BigIntExt::bitsize(signed)] and [has_correct_sign(signed)]. *)
  bitsize : bool -> Z -> Z;
  has_correct_sign : bool -> Z -> bool
}.

(** Integers of at most 2048 bits: every intermediate result of the VM is one. *)
Definition small_int (z : Z) : Prop := Z.abs z < 2 ^ 2048.

Class BigIntLaws `{CellLib} : Prop := {
  bitsize_signed : forall n z, small_int z -> 1 <= n ->
    bitsize true z <= n <-> - 2 ^ (n - 1) <= z < 2 ^ (n - 1);
  bitsize_unsigned : forall n z, small_int z -> 0 <= n -> 0 <= z ->
    bitsize false z <= n <-> z < 2 ^ n;
  bitsize_nonneg : forall s z, 0 <= bitsize s z;
  has_correct_sign_spec : forall s z,
    has_correct_sign s z = true <-> s = true \/ 0 <= z
}.

Class CellLaws `{CellLib} : Prop := {
  size_bits_nonneg : forall r, 0 <= size_bits r;
  is_data_empty_spec : forall r, is_data_empty r = true <-> size_bits r = 0;
  get_uint_ok : forall r c bits, 0 <= bits <= size_bits r -> bits <= 64 ->
    exists v, get_uint r c 0 bits = Ok v /\ 0 <= v < 2 ^ bits;
  skip_first_ok : forall r bits, 0 <= bits <= size_bits r ->
    exists r', skip_first r bits 0 = Ok r' /\ size_bits r' = size_bits r - bits
}.

(** [CellSliceParts] and its wrapper [OwnedCellSlice] of util.rs. *)
Record OwnedCellSlice `{CL : CellLib} := mkSlice { range : CellSliceRange; cell : Cell }.
Arguments mkSlice {CL} range cell.

Section OwnedCellSlice.
Context `{CL : CellLib}.

(** [OwnedCellSlice::new_allow_exotic]. *)
Definition new_allow_exotic (c : Cell) : OwnedCellSlice := mkSlice (range_full c) c.

(** [OwnedCellSlice::default], what [std::mem::take(&mut self.code)] leaves. *)
Definition slice_default : OwnedCellSlice := mkSlice range_default empty_cell.

(** [OwnedCellSlice::set_range]. *)
Definition set_range (r : CellSliceRange) (s : OwnedCellSlice) : OwnedCellSlice :=
  mkSlice r (cell s).
End OwnedCellSlice.

(** ** A concrete instance *)

Module TreeCells.
Inductive tcell := TCell (ty : CellType) (bits : list bool) (refs : list tcell).
Record trange := mkRange { bstart : Z; bend : Z; rstart : Z; rend : Z }.

Definition bits_of (c : tcell) := match c with TCell _ b _ => b end.
Definition refs_of (c : tcell) := match c with TCell _ _ r => r end.
Definition type_of (c : tcell) := match c with TCell t _ _ => t end.

Definition bits_val (l : list bool) : Z :=
  fold_left (fun acc (b : bool) => 2 * acc + (if b then 1 else 0)) l 0.

(** The first [n] bits of [z], most significant first. *)
Fixpoint to_bits (n : nat) (z : Z) : list bool :=
  match n with
  | O => []
  | S n => Z.testbit z (Z.of_nat n) :: to_bits n z
  end.

Fixpoint depth_of (c : tcell) : Z :=
  match c with
  | TCell _ _ rs =>
      match rs with
      | [] => 0
      | _ => 1 + fold_right Z.max 0 (map depth_of rs)
      end
  end.

(** An executable stand-in for the representation hash. *)
Fixpoint hash_of (c : tcell) : Z :=
  match c with
  | TCell _ bs rs =>
      fold_left (fun acc h => acc * 65599 + h) (map hash_of rs)
        (bits_val (true :: bs) * 31)
  end.

Definition bit_at (c : tcell) (i : Z) : bool := default false (bits_of c !! Z.to_nat i).
Definition sub_bits (r : trange) (c : tcell) (off n : Z) : list bool :=
  map (fun i => bit_at c (bstart r + off + Z.of_nat i)) (seq 0 (Z.to_nat n)).

Record tbuilder := mkTBuilder { tb_bits : list bool; tb_refs : list tcell; tb_exotic : bool }.

Definition t_bitsize (signed : bool) (z : Z) : Z :=
  if signed then (if 0 <=? z then Z.log2 (2 * z + 1) + 1 else Z.log2 (2 * (- z - 1) + 1) + 1)
  else (if z =? 0 then 0 else Z.log2 (Z.abs z) + 1).

#[export] Instance tree_cells : CellLib := {|
  Cell := tcell;
  CellSliceRange := trange;
  CellBuilder := tbuilder;
  HashBytes := Z;
  empty_cell := TCell Ordinary [] [];
  repr_hash := hash_of;
  cell_type := type_of;
  level := fun _ => 0;
  repr_depth := depth_of;
  reference_cloned := fun c i => refs_of c !! Z.to_nat i;
  range_default := mkRange 0 0 0 0;
  range_full := fun c => mkRange 0 (Z.of_nat (length (bits_of c))) 0
                           (Z.of_nat (length (refs_of c)));
  is_data_empty := fun r => bend r - bstart r <=? 0;
  is_refs_empty := fun r => rend r - rstart r <=? 0;
  size_bits := fun r => Z.max 0 (bend r - bstart r);
  offset_refs := rstart;
  has_remaining := fun r b n =>
    (b <=? Z.max 0 (bend r - bstart r)) && (n <=? Z.max 0 (rend r - rstart r));
  skip_first := fun r b n =>
    if (b <=? Z.max 0 (bend r - bstart r)) && (n <=? Z.max 0 (rend r - rstart r))
    then Ok (mkRange (bstart r + b) (bend r) (rstart r + n) (rend r))
    else Err CellUnderflow;
  get_uint := fun r c off n =>
    if off + n <=? Z.max 0 (bend r - bstart r)
    then Ok (wrap_u n (bits_val (sub_bits r c off n))) else Err CellUnderflow;
  load_bigint := fun r c n signed =>
    if n <=? Z.max 0 (bend r - bstart r)
    then Ok ((if signed then wrap_s n else wrap_u n) (bits_val (sub_bits r c 0 n)),
             mkRange (bstart r + n) (bend r) (rstart r) (rend r))
    else Err CellUnderflow;
  get_reference_cloned := fun r c i =>
    if i <? rend r - rstart r
    then match refs_of c !! Z.to_nat (rstart r + i) with
         | Some x => Ok x | None => Err CellUnderflow end
    else Err CellUnderflow;
  get_library_hash := fun c => Ok (bits_val (drop 8 (bits_of c)));
  bitsize := t_bitsize;
  has_correct_sign := fun s z => s || (0 <=? z)
|}.

Lemma log2_bound a n : 0 <= n -> 0 <= a -> Z.log2 (2 * a + 1) + 1 <= n + 1 <-> a < 2 ^ n.
Proof.
  intros Hn Ha.
  assert (Z.log2 (2 * a + 1) + 1 <= n + 1 <-> 2 * a + 1 < 2 ^ (n + 1)) as ->.
  { pose proof (Z.log2_lt_pow2 (2 * a + 1) (n + 1)). lia. }
  rewrite Z.pow_add_r by lia. lia.
Qed.

#[export] Instance tree_bigint_laws : BigIntLaws.
Proof.
  split.
  - intros n z _ Hn. cbn. unfold t_bitsize.
    pose proof (Z.pow_pos_nonneg 2 (n - 1)).
    case_bool; replace n with (n - 1 + 1) at 1 by lia; rewrite log2_bound by lia; lia.
  - intros n z _ Hn Hz. cbn. unfold t_bitsize. case_bool.
    { subst. split; [intros _; apply Z.pow_pos_nonneg; lia | lia]. }
    rewrite Z.abs_eq by lia. pose proof (Z.log2_lt_pow2 z n). lia.
  - intros s z. cbn. unfold t_bitsize. destruct s; case_bool; try lia.
    all: match goal with |- context [Z.log2 ?a] => pose proof (Z.log2_nonneg a) end; lia.
  - intros s z. cbn. rewrite orb_true_iff, Z.leb_le. done.
Qed.

#[export] Instance tree_cell_laws : CellLaws.
Proof.
  split.
  - intros r; cbn; lia.
  - intros r; cbn. rewrite Z.leb_le. lia.
  - intros r c bits Hb H64. cbn in *. case_bool; [|lia].
    eexists; split; [done|]. apply Z.mod_pos_bound, Z.pow_pos_nonneg; lia.
  - intros r bits Hb. cbn in *.
    repeat (case_bool; cbn; try lia); cbn; eexists; (split; [done|]); cbn; lia.
Qed.
End TreeCells.
