(* ===== verification/Cells.v ===== *)
(** * Slices and builders of cells

    The operations of [everscale_types] on cell slices and cell builders that the cell
    instructions and the executor call, as the class [SliceLib], and what is documented
    of them as [SliceLaws].  A slice is known by its bits, [slice_data], and its
    references; a builder by those of the slice over what it holds. *)

From S2P Require Import Prelude External.

Open Scope vm_scope.

Class SliceLib `{CL : CellLib} := {
  (** Cells: [references()], [bit_len()], [descriptor().level_mask().to_byte()],
      [hash(level)], [depth(level)], [all_zeros_ref()], [all_ones_ref()], and the array
      of a hash as a big-endian integer. *)
  references : Cell -> list Cell;
  bit_len : Cell -> Z;
  level_mask : Cell -> Z;
  cell_hash : Cell -> Z -> HashBytes;
  cell_depth : Cell -> Z -> Z;
  all_zeros : Cell;
  all_ones : Cell;
  hash_to_Z : HashBytes -> Z;

  (** [CellSliceRange]. *)
  size_refs : CellSliceRange -> Z;
  skip_last : CellSliceRange -> Z -> Z -> result Error CellSliceRange;
  only_first : CellSliceRange -> Z -> Z -> result Error CellSliceRange;
  only_last : CellSliceRange -> Z -> Z -> result Error CellSliceRange;
  get_prefix : CellSliceRange -> Z -> Z -> CellSliceRange;
  range_is_full : CellSliceRange -> Cell -> bool;

  (** [CellSlice], given by range and cell: [get_bit], [load_uint] of at most 64 bits,
      [load_raw] (the bytes, the last one padded with zeros), [load_reference_cloned],
      [references], the rest after everything was read, comparisons and prefixes. *)
  get_bit : OwnedCellSlice -> Z -> result Error bool;
  slice_load_uint : OwnedCellSlice -> Z -> result Error (Z * OwnedCellSlice);
  slice_load_raw : OwnedCellSlice -> Z -> result Error (list Z * OwnedCellSlice);
  slice_load_reference : OwnedCellSlice -> result Error (Cell * OwnedCellSlice);
  slice_references : OwnedCellSlice -> list Cell;
  slice_end : OwnedCellSlice -> OwnedCellSlice;
  lex_cmp : OwnedCellSlice -> OwnedCellSlice -> result Error comparison;
  is_data_prefix_of : OwnedCellSlice -> OwnedCellSlice -> result Error bool;
  is_data_suffix_of : OwnedCellSlice -> OwnedCellSlice -> result Error bool;
  count_leading : OwnedCellSlice -> bool -> result Error Z;
  count_trailing : OwnedCellSlice -> bool -> result Error Z;
  longest_common_data_prefix : OwnedCellSlice -> OwnedCellSlice -> OwnedCellSlice;
  strip_data_prefix : OwnedCellSlice -> OwnedCellSlice -> option OwnedCellSlice;
  (** [load_prefix]: the first bits and references, and the rest; [load_var_bigint]; and
      [Option::<Cell>::load_from]. *)
  load_prefix : OwnedCellSlice -> Z -> Z -> result Error (OwnedCellSlice * OwnedCellSlice);
  load_var_bigint : OwnedCellSlice -> Z -> bool -> result Error (Z * OwnedCellSlice);
  load_opt_cell : OwnedCellSlice -> result Error (option Cell * OwnedCellSlice);
  (** [SplitDepth::new], the length of an anycast prefix. *)
  split_depth_new : Z -> result Error Z;
  (** [CellSliceRange::apply] and [Cell::as_slice], which refuse some exotic cells. *)
  range_apply : CellSliceRange -> Cell -> result Error OwnedCellSlice;
  as_slice : Cell -> result Error OwnedCellSlice;

  (** [CellBuilder]. *)
  builder_new : CellBuilder;
  has_capacity : CellBuilder -> Z -> Z -> bool;
  builder_size_bits : CellBuilder -> Z;
  builder_size_refs : CellBuilder -> Z;
  spare_capacity_bits : CellBuilder -> Z;
  spare_capacity_refs : CellBuilder -> Z;
  builder_references : CellBuilder -> list Cell;
  set_exotic : bool -> CellBuilder -> CellBuilder;
  store_uint : CellBuilder -> Z -> Z -> result Error CellBuilder;
  store_raw : CellBuilder -> list Z -> Z -> result Error CellBuilder;
  store_zeros : CellBuilder -> Z -> result Error CellBuilder;
  store_ones : CellBuilder -> Z -> result Error CellBuilder;
  store_reference : CellBuilder -> Cell -> result Error CellBuilder;
  store_slice : CellBuilder -> OwnedCellSlice -> result Error CellBuilder;
  store_slice_data : CellBuilder -> OwnedCellSlice -> result Error CellBuilder;
  store_builder : CellBuilder -> CellBuilder -> result Error CellBuilder;
  store_bigint : CellBuilder -> Z -> Z -> bool -> result Error CellBuilder;
  store_bigint_truncate : CellBuilder -> Z -> Z -> bool -> result Error CellBuilder;
  store_var_bigint : CellBuilder -> Z -> Z -> bool -> result Error CellBuilder;
  (** [Option::<Cell>::store_into]. *)
  store_opt_cell : CellBuilder -> option Cell -> result Error CellBuilder;
  (** [build_ext(ctx)] hands the parts of the cell to [ctx.finalize_cell]; the empty
      context makes the cell. *)
  CellParts : Type;
  builder_parts : CellBuilder -> result Error CellParts;
  finalize_cell : CellParts -> result Error Cell;
  as_full_slice : CellBuilder -> OwnedCellSlice;
  (** The slice over the data alone, and the cell builder of a data builder. *)
  as_data_slice : CellBuilder -> OwnedCellSlice;

  (** [BigInt]: [to_signed_bytes_le] and the magnitude of [to_bytes_le]. *)
  to_signed_bytes_le : Z -> list Z;
  to_bytes_le : Z -> list Z
}.

Section Slices.
Context `{SL : SliceLib}.

(** A slice with its range changed, or the error. *)
Definition with_range (s : OwnedCellSlice) (r : result Error CellSliceRange)
    : result Error OwnedCellSlice :=
  match r with Ok r => Ok (set_range r s) | Err e => Err e end.

(** [CellSlice::skip_first], [skip_last], [get_prefix], [size_bits], [size_refs],
    [is_empty]. *)
Definition slice_skip_first (s : OwnedCellSlice) (b n : Z) : result Error OwnedCellSlice :=
  with_range s (skip_first (range s) b n).
Definition slice_skip_last (s : OwnedCellSlice) (b n : Z) : result Error OwnedCellSlice :=
  with_range s (skip_last (range s) b n).
Definition slice_get_prefix (s : OwnedCellSlice) (b n : Z) : OwnedCellSlice :=
  set_range (get_prefix (range s) b n) s.
Definition slice_bits (s : OwnedCellSlice) : Z := size_bits (range s).
Definition slice_size_refs (s : OwnedCellSlice) : Z := size_refs (range s).
Definition slice_is_empty (s : OwnedCellSlice) : bool :=
  is_data_empty (range s) && is_refs_empty (range s).

Definition load_bit (s : OwnedCellSlice) : result Error (bool * OwnedCellSlice) :=
  match slice_load_uint s 1 with Ok (v, s) => Ok (v =? 1, s) | Err e => Err e end.

(** [descriptor().is_exotic()], [is_merkle()], [is_library()]. *)
Definition is_exotic (c : Cell) : bool :=
  match cell_type c with Ordinary => false | _ => true end.
Definition is_merkle (t : CellType) : bool :=
  match t with MerkleProof | MerkleUpdate => true | _ => false end.
Definition is_library (c : Cell) : bool :=
  match cell_type c with LibraryReference => true | _ => false end.

(** [CellBuilder::build()] and [build_from(slice)]. *)
Definition builder_build (b : CellBuilder) : result Error Cell :=
  match builder_parts b with Ok p => finalize_cell p | Err e => Err e end.
Definition build_from_slice (s : OwnedCellSlice) : result Error Cell :=
  match store_slice builder_new s with Ok b => builder_build b | Err e => Err e end.

(** [BigInt::from_bytes_be(Sign::Plus, bytes)]. *)
Definition from_bytes_be (bytes : list Z) : Z :=
  fold_left (fun acc b => 256 * acc + b) bytes 0.

(** ** What a slice and a builder hold *)

Definition slice_data (s : OwnedCellSlice) : list bool :=
  map (fun i => match get_bit s (Z.of_nat i) with Ok b => b | Err _ => false end)
    (seq 0 (Z.to_nat (slice_bits s))).
Definition builder_data (b : CellBuilder) : list bool := slice_data (as_full_slice b).
Definition builder_refs (b : CellBuilder) : list Cell := slice_references (as_full_slice b).

(** A builder of an ordinary cell. *)
Definition plain (b : CellBuilder) : Prop := set_exotic false b = b.

(** The bits of bytes, most significant first. *)
Definition bytes_bits (bytes : list Z) : list bool := flat_map (TreeCells.to_bits 8) bytes.

(** Little-endian bytes: the value as an unsigned and as a two's complement integer. *)
Fixpoint le_value (bytes : list Z) : Z :=
  match bytes with [] => 0 | b :: bytes => b + 256 * le_value bytes end.
End Slices.

(** ** Documented behaviour *)

Section Laws.
Context `{SL : SliceLib}.

(** [b'] is [b] with [data] and [refs] appended. *)
Definition appended (b : CellBuilder) (data : list bool) (refs : list Cell) (b' : CellBuilder)
    : Prop :=
  builder_data b' = builder_data b ++ data /\ builder_refs b' = builder_refs b ++ refs /\
  (plain b -> plain b').

Class SliceLaws : Prop := {
  (** A cell has at most four references. *)
  references_length : forall c, (length (references c) <= 4)%nat;

  (** Ranges and what they select. *)
  skip_first_spec : forall s b n, 0 <= b <= slice_bits s -> 0 <= n <= Z.of_nat (length (slice_references s)) ->
    exists s', slice_skip_first s b n = Ok s' /\
      slice_data s' = drop (Z.to_nat b) (slice_data s) /\
      slice_references s' = drop (Z.to_nat n) (slice_references s);
  has_remaining_spec : forall s b n, 0 <= b -> 0 <= n ->
    has_remaining (range s) b n = true <->
    b <= slice_bits s /\ n <= Z.of_nat (length (slice_references s));
  size_refs_spec : forall s, slice_size_refs s = Z.of_nat (length (slice_references s));
  is_refs_empty_spec : forall r, is_refs_empty r = true <-> size_refs r = 0;
  load_bigint_spec : forall s n signed, 0 <= n <= slice_bits s ->
    exists r, load_bigint (range s) (cell s) n signed =
      Ok ((if signed then wrap_s n else wrap_u n) (TreeCells.bits_val (take (Z.to_nat n) (slice_data s))), r) /\
      skip_first (range s) n 0 = Ok r;
  slice_load_uint_spec : forall s n, 0 <= n <= slice_bits s -> n <= 64 ->
    exists s', slice_load_uint s n = Ok (TreeCells.bits_val (take (Z.to_nat n) (slice_data s)), s') /\
      slice_skip_first s n 0 = Ok s';
  slice_load_raw_spec : forall s n, 0 <= n <= slice_bits s ->
    exists bytes s', slice_load_raw s n = Ok (bytes, s') /\ slice_skip_first s n 0 = Ok s' /\
      bytes_bits bytes = take (Z.to_nat n) (slice_data s) ++ replicate (Z.to_nat ((- n) mod 8)) false /\
      Forall (fun b => 0 <= b < 256) bytes;
  load_reference_spec : forall s c l, slice_references s = c :: l ->
    exists s', slice_load_reference s = Ok (c, s') /\ slice_skip_first s 0 1 = Ok s' /\ cell s' = cell s;

  (** Builders: 1023 bits and four references. *)
  builder_new_spec : builder_data builder_new = [] /\ builder_refs builder_new = [] /\ plain builder_new;
  has_capacity_spec : forall b n k, 0 <= n -> 0 <= k ->
    has_capacity b n k = true <->
    Z.of_nat (length (builder_data b)) + n <= 1023 /\ Z.of_nat (length (builder_refs b)) + k <= 4;
  store_uint_spec : forall b v n, has_capacity b n 0 = true -> 0 <= n -> 0 <= v <= U64_MAX -> v < 2 ^ n ->
    exists b', store_uint b v n = Ok b' /\ appended b (TreeCells.to_bits (Z.to_nat n) v) [] b';
  store_raw_spec : forall b bytes n, has_capacity b n 0 = true -> 0 <= n <= 8 * Z.of_nat (length bytes) ->
    exists b', store_raw b bytes n = Ok b' /\ appended b (take (Z.to_nat n) (bytes_bits bytes)) [] b';
  store_reference_spec : forall b c, has_capacity b 0 1 = true ->
    exists b', store_reference b c = Ok b' /\ appended b [] [c] b';
  store_slice_spec : forall b s,
    has_capacity b (slice_bits s) (Z.of_nat (length (slice_references s))) = true ->
    exists b', store_slice b s = Ok b' /\ appended b (slice_data s) (slice_references s) b';
  as_data_slice_spec : forall b, slice_data (as_data_slice b) = builder_data b;
  builder_build_spec : forall b c, builder_build b = Ok c -> plain b ->
    cell_type c = Ordinary /\
    slice_data (new_allow_exotic c) = builder_data b /\
    slice_references (new_allow_exotic c) = builder_refs b;
  builder_build_shallow : forall b, plain b -> Forall (fun c => repr_depth c < 512) (builder_refs b) ->
    exists c, builder_build b = Ok c;
  builder_build_depth : forall b c n, builder_build b = Ok c -> plain b -> 0 <= n ->
    Forall (fun d => repr_depth d < n) (builder_refs b) -> repr_depth c <= n;

  (** Bytes of integers, the shortest that hold the sign. *)
  to_bytes_le_spec : forall z, small_int z -> 0 <= z -> le_value (to_bytes_le z) = z /\
    Forall (fun b => 0 <= b < 256) (to_bytes_le z) /\
    (forall n, 0 <= n -> z < 256 ^ n -> Z.of_nat (length (to_bytes_le z)) <= Z.max 1 n);
  to_signed_bytes_le_spec : forall z, small_int z ->
    let l := to_signed_bytes_le z in
    wrap_s (8 * Z.of_nat (length l)) (le_value l) = z /\
    Forall (fun b => 0 <= b < 256) l /\
    (forall n, 1 <= n -> - 2 ^ (8 * n - 1) <= z < 2 ^ (8 * n - 1) -> 0 < Z.of_nat (length l) <= n)
}.
End Laws.

(** ** A concrete instance: bit strings and trees *)

Module TreeSlices.
Import TreeCells.

Definition slice : Type := OwnedCellSlice (CL := tree_cells).
#[local] Abbreviation mk := (mkSlice (CL := tree_cells)).

Definition t_size (r : trange) : Z := Z.max 0 (bend r - bstart r).
Definition t_data (s : slice) : list bool := sub_bits (range s) (cell s) 0 (t_size (range s)).
Definition t_nrefs (r : trange) : Z := Z.max 0 (rend r - rstart r).
Definition t_refs (s : slice) : list tcell :=
  map (fun i => default (TCell Ordinary [] []) (refs_of (cell s) !! Z.to_nat (rstart (range s) + Z.of_nat i)))
    (seq 0 (Z.to_nat (t_nrefs (range s)))).

Definition t_get_bit (s : slice) (i : Z) : result Error bool :=
  if i <? t_size (range s) then Ok (bit_at (cell s) (bstart (range s) + i)) else Err CellUnderflow.
Definition t_skip (s : slice) (b n : Z) : result Error slice :=
  match skip_first (range s) b n with Ok r => Ok (mk r (cell s)) | Err e => Err e end.
Definition t_load_uint (s : slice) (n : Z) : result Error (Z * slice) :=
  match get_uint (range s) (cell s) 0 n, t_skip s n 0 with
  | Ok v, Ok s => Ok (v, s)
  | _, _ => Err CellUnderflow
  end.
Definition t_load_ref (s : slice) : result Error (tcell * slice) :=
  match t_refs s, t_skip s 0 1 with
  | c :: _, Ok s => Ok (c, s)
  | _, _ => Err CellUnderflow
  end.

(** Bits as bytes, the last one padded with zeros. *)
Fixpoint pack (fuel : nat) (l : list bool) : list Z :=
  match fuel, l with
  | S fuel, _ :: _ => bits_val (take 8 (l ++ replicate 8 false)) :: pack fuel (drop 8 l)
  | _, _ => []
  end.
Definition t_load_raw (s : slice) (n : Z) : result Error (list Z * slice) :=
  match t_skip s n 0 with
  | Ok s' => Ok (pack (Z.to_nat n) (take (Z.to_nat n) (t_data s)), s')
  | Err e => Err e
  end.

Definition t_range_last (r : trange) (b n : Z) : result Error trange :=
  if has_remaining r b n then Ok (mkRange (bstart r) (bend r - b) (rstart r) (rend r - n)) else Err CellUnderflow.
Definition t_prefix (r : trange) (b n : Z) : trange :=
  mkRange (bstart r) (Z.min (bend r) (bstart r + b)) (rstart r) (Z.min (rend r) (rstart r + n)).

Definition t_load_prefix (s : slice) (b n : Z) : result Error (slice * slice) :=
  match t_skip s b n with Ok s' => Ok (mk (t_prefix (range s) b n) (cell s), s') | Err e => Err e end.
Definition t_load_var (s : slice) (len_bits : Z) (signed : bool) : result Error (Z * slice) :=
  match t_load_uint s len_bits with
  | Ok (len, s) =>
      match load_bigint (range s) (cell s) (8 * len) signed with
      | Ok (z, r) => Ok (z, mk r (cell s))
      | Err e => Err e
      end
  | Err e => Err e
  end.
Definition t_load_opt (s : slice) : result Error (option tcell * slice) :=
  match t_load_uint s 1 with
  | Ok (0, s) => Ok (None, s)
  | Ok (_, s) => match t_load_ref s with Ok (c, s) => Ok (Some c, s) | Err e => Err e end
  | Err e => Err e
  end.

Fixpoint lex (a b : list bool) : comparison :=
  match a, b with
  | [], [] => Eq
  | [], _ => Lt
  | _, [] => Gt
  | x :: a, y :: b => if Bool.eqb x y then lex a b else if x then Gt else Lt
  end.
Fixpoint common (a b : list bool) : nat :=
  match a, b with
  | x :: a, y :: b => if Bool.eqb x y then S (common a b) else O
  | _, _ => O
  end.
Fixpoint leading (l : list bool) (x : bool) : nat :=
  match l with y :: l => if Bool.eqb x y then S (leading l x) else O | [] => O end.
Definition t_prefix_of (a b : slice) : bool := bool_decide (common (t_data a) (t_data b) = length (t_data a)).
Definition t_suffix_of (a b : slice) : bool :=
  bool_decide (common (reverse (t_data a)) (reverse (t_data b)) = length (t_data a)).
Definition t_bits_prefix (s : slice) (n : nat) : slice := mk (t_prefix (range s) (Z.of_nat n) 0) (cell s).

Definition t_capacity (b : tbuilder) (nbits nrefs : Z) : bool :=
  (Z.of_nat (length (tb_bits b)) + nbits <=? 1023) && (Z.of_nat (length (tb_refs b)) + nrefs <=? 4).
Definition t_store_bits (b : tbuilder) (l : list bool) (rs : list tcell) : result Error tbuilder :=
  if t_capacity b (Z.of_nat (length l)) (Z.of_nat (length rs))
  then Ok (mkTBuilder (tb_bits b ++ l) (tb_refs b ++ rs) (tb_exotic b)) else Err CellOverflow.
Definition t_full (b : tbuilder) : tcell := TCell Ordinary (tb_bits b) (tb_refs b).

(** The type of an exotic cell is its first byte. *)
Definition t_build (b : tbuilder) : result Error tcell :=
  if tb_exotic b then
    let t := bits_val (take 8 (tb_bits b)) in
    if t =? 1 then Ok (TCell PrunedBranch (tb_bits b) (tb_refs b))
    else if t =? 2 then Ok (TCell LibraryReference (tb_bits b) (tb_refs b))
    else if t =? 3 then Ok (TCell MerkleProof (tb_bits b) (tb_refs b))
    else if t =? 4 then Ok (TCell MerkleUpdate (tb_bits b) (tb_refs b))
    else Err InvalidTag
  else Ok (t_full b).

(** The [k] lowest bytes of an integer. *)
Definition low_bytes (k : nat) (z : Z) : list Z :=
  map (fun i => z / 256 ^ Z.of_nat i mod 256) (seq 0 k).
Definition t_bytes (z : Z) : list Z := low_bytes (Z.to_nat (Z.max 1 ((bitsize false (Z.abs z) + 7) / 8))) (Z.abs z).
Definition t_signed_bytes (z : Z) : list Z := low_bytes (Z.to_nat (Z.max 1 ((bitsize true z + 7) / 8))) z.

#[export] Instance tree_slices : SliceLib (CL := tree_cells) := {|
  references := fun c => take 4 (refs_of c);
  bit_len := fun c => Z.min 1023 (Z.of_nat (length (bits_of c)));
  level_mask := fun _ => 0;
  cell_hash := fun c _ => hash_of c;
  cell_depth := fun c _ => depth_of c;
  all_zeros := TCell Ordinary (replicate 1023 false) [];
  all_ones := TCell Ordinary (replicate 1023 true) [];
  hash_to_Z := id;
  size_refs := t_nrefs;
  skip_last := t_range_last;
  only_first := fun r b n => if has_remaining r b n then Ok (t_prefix r b n) else Err CellUnderflow;
  only_last := fun r b n =>
    if has_remaining r b n then Ok (mkRange (bend r - b) (bend r) (rend r - n) (rend r)) else Err CellUnderflow;
  get_prefix := t_prefix;
  range_is_full := fun r c =>
    (bstart r =? 0) && (rstart r =? 0) && (bend r =? Z.of_nat (length (bits_of c))) &&
    (rend r =? Z.of_nat (length (refs_of c)));
  get_bit := t_get_bit;
  slice_load_uint := t_load_uint;
  slice_load_raw := t_load_raw;
  slice_load_reference := t_load_ref;
  slice_references := t_refs;
  slice_end := fun s => let r := range s in mk (mkRange (bend r) (bend r) (rend r) (rend r)) (cell s);
  lex_cmp := fun a b => Ok (lex (t_data a) (t_data b));
  is_data_prefix_of := fun a b => Ok (t_prefix_of a b);
  is_data_suffix_of := fun a b => Ok (t_suffix_of a b);
  count_leading := fun s x => Ok (Z.of_nat (leading (t_data s) x));
  count_trailing := fun s x => Ok (Z.of_nat (leading (reverse (t_data s)) x));
  longest_common_data_prefix := fun a b => t_bits_prefix a (common (t_data a) (t_data b));
  strip_data_prefix := fun a p =>
    if t_prefix_of p a
    then match t_skip a (Z.of_nat (length (t_data p))) 0 with Ok s => Some s | Err _ => None end else None;
  load_prefix := t_load_prefix;
  load_var_bigint := t_load_var;
  load_opt_cell := t_load_opt;
  split_depth_new := fun n => if (1 <=? n) && (n <=? 30) then Ok n else Err IntOverflow;
  range_apply := fun r c => Ok (mk r c);
  as_slice := fun c => Ok (new_allow_exotic (CL := tree_cells) c);
  builder_new := mkTBuilder [] [] false;
  has_capacity := t_capacity;
  builder_size_bits := fun b => Z.of_nat (length (tb_bits b));
  builder_size_refs := fun b => Z.of_nat (length (tb_refs b));
  spare_capacity_bits := fun b => 1023 - Z.of_nat (length (tb_bits b));
  spare_capacity_refs := fun b => 4 - Z.of_nat (length (tb_refs b));
  builder_references := tb_refs;
  set_exotic := fun x b => mkTBuilder (tb_bits b) (tb_refs b) x;
  store_uint := fun b v n => t_store_bits b (to_bits (Z.to_nat n) v) [];
  store_raw := fun b l n => t_store_bits b (take (Z.to_nat n) (bytes_bits l)) [];
  store_zeros := fun b n => t_store_bits b (replicate (Z.to_nat n) false) [];
  store_ones := fun b n => t_store_bits b (replicate (Z.to_nat n) true) [];
  store_reference := fun b c => t_store_bits b [] [c];
  store_slice := fun b s => t_store_bits b (t_data s) (t_refs s);
  store_slice_data := fun b s => t_store_bits b (t_data s) [];
  store_builder := fun b b' => t_store_bits b (tb_bits b') (tb_refs b');
  store_bigint := fun b z n signed =>
    if bitsize signed z <=? n then t_store_bits b (to_bits (Z.to_nat n) z) [] else Err IntOverflow;
  store_bigint_truncate := fun b z n _ => t_store_bits b (to_bits (Z.to_nat n) z) [];
  store_var_bigint := fun b z len_bits signed =>
    let bytes := (bitsize signed z + 7) / 8 in
    if bytes <? 2 ^ len_bits
    then t_store_bits b (to_bits (Z.to_nat len_bits) bytes ++ to_bits (Z.to_nat (8 * bytes)) z) []
    else Err IntOverflow;
  store_opt_cell := fun b c =>
    match c with Some c => t_store_bits b [true] [c] | None => t_store_bits b [false] [] end;
  CellParts := tbuilder;
  builder_parts := Ok;
  finalize_cell := t_build;
  as_full_slice := fun b => new_allow_exotic (CL := tree_cells) (t_full b);
  as_data_slice := fun b => new_allow_exotic (CL := tree_cells) (TCell Ordinary (tb_bits b) []);
  to_signed_bytes_le := t_signed_bytes;
  to_bytes_le := t_bytes
|}.

(** ** The laws *)

Lemma drop_map_seq {A} (f : nat -> A) k n :
  drop k (map f (seq 0 n)) = map (fun i => f (k + i)%nat) (seq 0 (n - k)).
Proof.
  apply list_eq. intros i. rewrite lookup_drop, !list_lookup_fmap.
  destruct (decide (k + i < n)%nat).
  - rewrite !lookup_seq_lt by lia. done.
  - rewrite !lookup_seq_ge by lia. done.
Qed.
Lemma take_map_seq {A} (f : nat -> A) k n : (k <= n)%nat -> take k (map f (seq 0 n)) = map f (seq 0 k).
Proof.
  intros H. apply list_eq. intros i. rewrite !list_lookup_fmap. destruct (decide (i < k)%nat).
  - rewrite lookup_take_lt, list_lookup_fmap, !lookup_seq_lt by lia. done.
  - rewrite lookup_take_ge, lookup_seq_ge by lia. done.
Qed.

Lemma tree_slice_data (s : slice) : slice_data (SL := tree_slices) s = t_data s.
Proof.
  unfold slice_data, t_data, sub_bits, slice_bits. cbn [get_bit tree_slices size_bits tree_cells].
  apply map_ext_in. intros i Hi. apply in_seq in Hi. unfold t_get_bit, t_size in *.
  case_bool; [|lia]. f_equal. lia.
Qed.

Lemma full_data c : t_data (new_allow_exotic (CL := tree_cells) c) = bits_of c.
Proof.
  unfold t_data, sub_bits, t_size. cbn. apply list_eq. intros i. rewrite list_lookup_fmap.
  unfold bit_at. destruct (decide (i < length (bits_of c))%nat) as [Hi|Hi].
  - rewrite lookup_seq_lt by lia. cbn -[Z.add]. replace (Z.to_nat _) with i by lia.
    destruct (lookup_lt_is_Some_2 (bits_of c) i Hi) as [b Hb]. by rewrite Hb.
  - rewrite lookup_seq_ge by lia. cbn. symmetry. apply lookup_ge_None. lia.
Qed.
Lemma full_refs c : t_refs (new_allow_exotic (CL := tree_cells) c) = refs_of c.
Proof.
  unfold t_refs, t_nrefs. cbn. apply list_eq. intros i. rewrite list_lookup_fmap.
  destruct (decide (i < length (refs_of c))%nat) as [Hi|Hi].
  - rewrite lookup_seq_lt by lia. cbn -[Z.add]. replace (Z.to_nat _) with i by lia.
    destruct (lookup_lt_is_Some_2 (refs_of c) i Hi) as [b Hb]. by rewrite Hb.
  - rewrite lookup_seq_ge by lia. cbn. symmetry. apply lookup_ge_None. lia.
Qed.

Lemma t_refs_length s : length (t_refs s) = Z.to_nat (t_nrefs (range s)).
Proof. unfold t_refs. by rewrite length_map, length_seq. Qed.

Lemma to_bits_length n z : length (to_bits n z) = n.
Proof. induction n; cbn; congruence. Qed.

Lemma bits_val_range l n : length l = n -> 0 <= bits_val l < 2 ^ Z.of_nat n.
Proof.
  intros <-. induction l as [|b l IH] using rev_ind; [done|]. unfold bits_val in *.
  rewrite fold_left_app, length_app, Nat.add_1_r, Nat2Z.inj_succ, Z.pow_succ_r by lia. cbn [fold_left].
  destruct b; lia.
Qed.

Lemma bits_val_snoc l b : bits_val (l ++ [b]) = 2 * bits_val l + (if b : bool then 1 else 0).
Proof. unfold bits_val. by rewrite fold_left_app. Qed.

Lemma to_bits_snoc n z : to_bits (S n) z = to_bits n (Z.shiftr z 1) ++ [Z.testbit z 0].
Proof.
  induction n as [|n IH]; [done|]. remember (S n) as m. cbn [to_bits]. subst m. rewrite IH.
  cbn [to_bits app]. rewrite Z.shiftr_spec by lia. do 2 f_equal. lia.
Qed.

Lemma to_bits_val l n : length l = n -> to_bits n (bits_val l) = l.
Proof.
  intros <-. induction l as [|b l IH] using rev_ind; [done|].
  rewrite length_app, Nat.add_1_r, to_bits_snoc, bits_val_snoc.
  assert (Z.shiftr (2 * bits_val l + (if b then 1 else 0)) 1 = bits_val l) as ->.
  { rewrite Z.shiftr_div_pow2 by lia. change (2 ^ 1) with 2. Z.to_euclidean_division_equations. destruct b; lia. }
  rewrite IH. do 2 f_equal. rewrite Z.bit0_odd. rewrite Z.add_comm, Z.odd_add_mul_2. by destruct b.
Qed.

Lemma depth_nonneg c : 0 <= depth_of c.
Proof.
  assert (forall l, 0 <= fold_right Z.max 0 l) as H by (intros l; induction l; cbn; lia).
  destruct c as [t b [|c r]]; cbn [depth_of]; [done|]. specialize (H (map depth_of (c :: r))). lia.
Qed.

Lemma t_load_uint_ok (s : slice) n : 0 <= n <= slice_bits s ->
  exists s', t_load_uint s n = Ok (bits_val (take (Z.to_nat n) (slice_data (SL := tree_slices) s)), s') /\
    slice_skip_first s n 0 = Ok s'.
Proof.
  intros Hn. unfold slice_bits in Hn. cbn in *. unfold t_load_uint, t_skip. cbn.
  case_bool; [|lia]. destruct (_ && _) eqn:Hc; [|exfalso; zify_bool; lia].
  eexists. split; [|unfold slice_skip_first, with_range; cbn; by rewrite Hc].
  rewrite tree_slice_data. do 2 f_equal.
  unfold t_data, sub_bits. rewrite take_map_seq by (unfold t_size; lia).
  unfold wrap_u. apply Z.mod_small. replace (2 ^ n) with (2 ^ Z.of_nat (Z.to_nat n)) by (f_equal; lia).
  apply bits_val_range. by rewrite length_map, length_seq.
Qed.

Lemma low_bytes_S k z : low_bytes (S k) z = z mod 256 :: low_bytes k (z / 256).
Proof.
  unfold low_bytes. cbn [seq map]. f_equal; [by rewrite Z.pow_0_r, Z.div_1_r|].
  rewrite <- seq_shift, map_map. apply map_ext. intros i.
  rewrite Nat2Z.inj_succ, Z.pow_succ_r by lia. rewrite Z.div_div by lia. done.
Qed.
Lemma low_bytes_value k z : le_value (low_bytes k z) = z mod 256 ^ Z.of_nat k.
Proof.
  revert z. induction k as [|k IH]; intros z; [cbn; symmetry; apply Z.mod_1_r|].
  rewrite low_bytes_S. cbn [le_value]. rewrite IH, Nat2Z.inj_succ, Z.pow_succ_r by lia.
  rewrite (Z.rem_mul_r z) by lia. lia.
Qed.
Lemma low_bytes_range k z : Forall (fun b => 0 <= b < 256) (low_bytes k z).
Proof. apply Forall_map, Forall_true. intros i. apply Z.mod_pos_bound. lia. Qed.
Lemma low_bytes_length k z : length (low_bytes k z) = k.
Proof. unfold low_bytes. by rewrite length_map, length_seq. Qed.

Lemma pow_256 n : 0 <= n -> 256 ^ n = 2 ^ (8 * n).
Proof. intros H. rewrite Z.pow_mul_r by lia. done. Qed.

Lemma byte_count b n : b <= 8 * Z.max 1 ((b + 7) / 8) /\ (b <= 8 * n -> Z.max 1 ((b + 7) / 8) <= Z.max 1 n).
Proof. Z.to_euclidean_division_equations. lia. Qed.

Lemma bytes_bits_length l : length (bytes_bits l) = (8 * length l)%nat.
Proof.
  unfold bytes_bits. induction l as [|b l IH]; [done|]. cbn [flat_map].
  rewrite length_app, to_bits_length, IH. cbn [length]. lia.
Qed.

Lemma pack_range k l : Forall (fun b => 0 <= b < 256) (pack k l).
Proof.
  revert l. induction k as [|k IH]; intros [|b l]; try constructor; [|apply IH].
  set (x := take 8 _). assert (length x = 8%nat) as Hx.
  { unfold x. rewrite length_take, length_app, length_replicate. lia. }
  apply (bits_val_range x) in Hx. done.
Qed.

Lemma pack_bits k l : (length l <= 8 * k)%nat ->
  bytes_bits (pack k l) = l ++ replicate (Z.to_nat ((- Z.of_nat (length l)) mod 8)) false.
Proof.
  revert l. induction k as [|k IH]; intros [|b l'] Hk; try done; [cbn in Hk; lia|].
  set (l := b :: l') in *. change (pack (S k) l) with (bits_val (take 8 (l ++ replicate 8 false)) :: pack k (drop 8 l)).
  unfold bytes_bits in *. cbn [flat_map]. rewrite IH by (rewrite length_drop; lia).
  rewrite to_bits_val by (rewrite length_take, length_app, length_replicate; lia).
  rewrite length_drop. destruct (decide (length l < 8)%nat) as [Hl|Hl].
  - rewrite (drop_ge l) by lia. replace (length l - 8)%nat with O by lia. cbn [app].
    rewrite take_app, take_ge by lia. rewrite take_replicate, app_nil_r. f_equal. f_equal.
    assert (0 < length l)%nat by (cbn; lia). rewrite (Z.mod_opp_l_nz); [|lia|rewrite Z.mod_small; lia].
    rewrite Z.mod_small by lia. lia.
  - rewrite take_app_le by lia. rewrite app_assoc, take_drop. do 3 f_equal.
    replace (- Z.of_nat (length l)) with (- Z.of_nat (length l - 8) + (-1) * 8) by lia. by rewrite Z.mod_add.
Qed.

Lemma store_bits_ok b l rs :
  t_capacity b (Z.of_nat (length l)) (Z.of_nat (length rs)) = true ->
  exists b', t_store_bits b l rs = Ok b' /\ appended (SL := tree_slices) b l rs b'.
Proof.
  intros H. unfold t_store_bits. rewrite H. eexists. split; [done|].
  unfold appended, builder_data, builder_refs. rewrite !tree_slice_data. cbn.
  rewrite !full_data, !full_refs. cbn. split; [done|]. split; [done|].
  unfold plain. cbn. destruct b. by intros [= <-].
Qed.

#[export] Instance tree_slice_laws : SliceLaws (SL := tree_slices).
Proof.
  split.
  - intros c. cbn. rewrite length_take. lia.
  - intros s b n Hb Hn. unfold slice_skip_first, slice_bits in *. cbn in *.
    rewrite t_refs_length in Hn. unfold t_nrefs in Hn.
    destruct (_ && _) eqn:Hc; [|exfalso; zify_bool; lia].
    eexists. split; [done|]. rewrite !tree_slice_data. split.
    + unfold t_data, sub_bits, t_size. cbn. rewrite drop_map_seq.
      replace (Z.to_nat (0 `max` (bend (range s) - (bstart (range s) + b))))
        with (Z.to_nat (0 `max` (bend (range s) - bstart (range s))) - Z.to_nat b)%nat by lia.
      apply map_ext. intros i. f_equal. lia.
    + unfold t_refs, t_nrefs. cbn. rewrite drop_map_seq.
      replace (Z.to_nat (0 `max` (rend (range s) - (rstart (range s) + n))))
        with (Z.to_nat (0 `max` (rend (range s) - rstart (range s))) - Z.to_nat n)%nat by lia.
      apply map_ext. intros i. do 2 f_equal. lia.
  - intros s b n Hb Hn. unfold slice_bits. cbn. rewrite t_refs_length. unfold t_nrefs.
    rewrite andb_true_iff, !Z.leb_le. lia.
  - intros s. unfold slice_size_refs. cbn. rewrite t_refs_length. unfold t_nrefs. lia.
  - intros r. cbn. unfold t_nrefs. rewrite Z.leb_le. lia.
  - intros s n signed Hn. unfold slice_bits in Hn. cbn in *. case_bool; [|lia].
    destruct (0 <=? _) eqn:H0; [|zify_bool; lia]. cbn. eexists. rewrite tree_slice_data.
    unfold t_data, sub_bits. rewrite take_map_seq by (unfold t_size; lia).
    split; [reflexivity|]. by rewrite Z.add_0_r.
  - intros s n Hn _. by apply t_load_uint_ok.
  - intros s n Hn. unfold slice_bits in Hn. cbn in *. unfold t_load_raw, t_skip. cbn.
    destruct (_ && _) eqn:Hc; [|exfalso; zify_bool; lia].
    eexists _, _. split; [done|]. split; [unfold slice_skip_first, with_range; cbn; by rewrite Hc|].
    assert (length (take (Z.to_nat n) (t_data s)) = Z.to_nat n) as HL.
    { rewrite length_take. unfold t_data, sub_bits. rewrite length_map, length_seq. unfold t_size. lia. }
    rewrite tree_slice_data. split; [|apply pack_range].
    rewrite pack_bits by lia. by rewrite HL, Z2Nat.id by lia.
  - intros s c l Hl. cbn in *. unfold t_load_ref. rewrite Hl. unfold t_skip, slice_skip_first. cbn.
    assert (1 <= t_nrefs (range s)) as Hr.
    { assert (length (t_refs s) = S (length l)) as HL by (by rewrite Hl).
      rewrite t_refs_length in HL. lia. }
    unfold t_nrefs in Hr. destruct (_ && _) eqn:Hc; [|exfalso; zify_bool; lia].
    eexists. done.
  - done.
  - intros b n k Hn Hk. unfold builder_data, builder_refs. rewrite tree_slice_data.
    cbn. rewrite full_data, full_refs. unfold t_capacity. cbn.
    rewrite andb_true_iff, !Z.leb_le. lia.
  - intros b v n Hc Hn Hv Hv'. cbn in *. apply store_bits_ok. rewrite to_bits_length.
    rewrite Z2Nat.id by lia. done.
  - intros b l n Hc Hn. cbn in *. apply store_bits_ok. rewrite length_take, bytes_bits_length.
    replace (Z.of_nat (Z.to_nat n `min` (8 * length l))) with n by lia. done.
  - intros b c Hc. cbn in *. by apply store_bits_ok.
  - intros b s Hc. cbn in *. rewrite tree_slice_data. apply store_bits_ok. unfold slice_bits in Hc. cbn in Hc.
    replace (Z.of_nat (length (t_data s))) with (0 `max` (bend (range s) - bstart (range s))); [done|].
    unfold t_data, sub_bits, t_size. rewrite length_map, length_seq. lia.
  - intros b. unfold builder_data. rewrite !tree_slice_data. cbn. by rewrite !full_data.
  - intros b c Hb Hp. unfold builder_build, plain in *. cbn in *.
    unfold t_build in Hb. destruct b as [bits refs e]. injection Hp as <-. cbn in Hb. injection Hb as <-.
    rewrite tree_slice_data. unfold builder_data, builder_refs. rewrite tree_slice_data. done.
  - intros b Hp Hr. unfold builder_build, plain in *. cbn in *. destruct b as [bits refs e].
    injection Hp as <-. by eexists.
  - intros b c n Hb Hp Hn Hr. unfold builder_build, plain, builder_refs in *. cbn in *.
    destruct b as [bits refs e]. injection Hp as <-. cbn in *. injection Hb as <-.
    rewrite full_refs in Hr. cbn [refs_of t_full tb_refs tb_bits depth_of] in *.
    destruct refs as [|r0 rs]; [done|]. cut (fold_right Z.max 0 (map depth_of (r0 :: rs)) <= n - 1); [lia|].
    assert (0 < n) as H0 by (inversion Hr; pose proof (depth_nonneg r0); lia). clear Hn.
    induction Hr as [|x l Hx _ IH]; cbn; lia.
  - intros z Hs Hz. cbn. unfold t_bytes. rewrite Z.abs_eq by done. split; [|split].
    + rewrite low_bytes_value. apply Z.mod_small. split; [done|]. rewrite pow_256 by lia.
      apply (bitsize_unsigned (H := tree_cells)); [done|lia|done|].
      pose proof (byte_count (bitsize false z) 0). lia.
    + apply low_bytes_range.
    + intros n Hn Hlt. rewrite low_bytes_length. rewrite pow_256 in Hlt by lia.
      apply (bitsize_unsigned (H := tree_cells)) in Hlt; [|done|lia|done].
      pose proof (byte_count (bitsize false z) n). lia.
  - intros z Hs l. unfold l. cbn. unfold t_signed_bytes. rewrite low_bytes_length, low_bytes_value.
    set (k := Z.to_nat _). split; [|split].
    + assert (bitsize true z <= 8 * Z.of_nat k) as Hk
        by (pose proof (byte_count (bitsize true z) 0); unfold k; lia).
      apply (bitsize_signed (H := tree_cells)) in Hk; [|done|unfold k; lia].
      rewrite pow_256 by lia. unfold wrap_s.
      rewrite Zplus_mod_idemp_l. rewrite Z.mod_small; [lia|].
      assert (2 ^ (8 * Z.of_nat k) = 2 * 2 ^ (8 * Z.of_nat k - 1)) as ->; [|lia].
      rewrite <- Z.pow_succ_r by (unfold k; lia). f_equal. lia.
    + apply low_bytes_range.
    + intros n Hn Hr. apply (bitsize_signed (H := tree_cells)) in Hr; [|done|lia].
      pose proof (byte_count (bitsize true z) n). unfold k. lia.
Qed.
End TreeSlices.
