(* ===== verification/Bits.v ===== *)
(** * Bits and bytes

    The bits of integers and of byte sequences in either order: what the storing of
    integers into builders and their loading from slices rests on. *)

From S2P Require Import Prelude External Cells.
Import TreeCells TreeSlices.

Open Scope Z_scope.

Lemma bits_val_to_bits n z : bits_val (to_bits n z) = z mod 2 ^ Z.of_nat n.
Proof.
  revert z. induction n as [|n IH]; intros z; [symmetry; apply Z.mod_1_r|].
  rewrite to_bits_snoc, bits_val_snoc, IH, Z.shiftr_div_pow2 by lia. change (2 ^ 1) with 2.
  rewrite Nat2Z.inj_succ, Z.pow_succ_r by lia. rewrite Z.rem_mul_r by lia.
  rewrite Z.bit0_odd, Zmod_odd. destruct (Z.odd z); lia.
Qed.

Lemma bits_val_app l m : bits_val (l ++ m) = bits_val l * 2 ^ Z.of_nat (length m) + bits_val m.
Proof.
  induction m as [|b m IH] using rev_ind; [rewrite app_nil_r; cbn; lia|].
  rewrite app_assoc, !bits_val_snoc, IH, length_app, Nat.add_1_r, Nat2Z.inj_succ, Z.pow_succ_r by lia. lia.
Qed.

Lemma bits_val_zeros k : bits_val (replicate k false) = 0.
Proof. induction k as [|k IH]; [done|]. rewrite replicate_S_end, bits_val_snoc, IH. done. Qed.

Lemma to_bits_app a b x y : 0 <= y < 2 ^ Z.of_nat b ->
  to_bits (a + b) (x * 2 ^ Z.of_nat b + y) = to_bits a x ++ to_bits b y.
Proof.
  intros Hy. rewrite <- lor_shiftl by lia.
  induction a as [|a IH]; cbn [Nat.add to_bits app].
  - assert (forall k, (k <= b)%nat -> to_bits k (Z.lor (Z.shiftl x (Z.of_nat b)) y) = to_bits k y) as H; [|by apply H].
    induction k as [|k IH]; intros Hk; [done|]. cbn [to_bits]. rewrite IH by lia. f_equal.
    rewrite Z.lor_spec, Z.shiftl_spec_low by lia. done.
  - rewrite IH. f_equal. rewrite Z.lor_spec, Z.shiftl_spec by lia.
    rewrite <- (Z.mod_small y (2 ^ Z.of_nat b)) by done. rewrite Z.mod_pow2_bits_high by lia.
    rewrite orb_false_r. f_equal. lia.
Qed.

Lemma to_bits_mod n z w : (n <= w)%nat -> to_bits n (z mod 2 ^ Z.of_nat w) = to_bits n z.
Proof.
  intros H. induction n as [|n IH]; [done|]. cbn [to_bits]. rewrite IH by lia. f_equal.
  by rewrite Z.mod_pow2_bits_low by lia.
Qed.

Lemma take_to_bits n k z : take n (to_bits (n + k) z) = to_bits n (Z.shiftr z (Z.of_nat k)).
Proof.
  rewrite (Z.div_mod z (2 ^ Z.of_nat k)) at 1 by (apply Z.pow_nonzero; lia).
  rewrite Z.mul_comm, to_bits_app by (apply Z.mod_pos_bound, Z.pow_pos_nonneg; lia).
  rewrite Z.shiftr_div_pow2 by lia. rewrite take_app_le by (rewrite to_bits_length; lia).
  apply take_ge. by rewrite to_bits_length.
Qed.

(** ** Bytes *)

Lemma le_value_app l1 l2 : le_value (l1 ++ l2) = le_value l1 + 256 ^ Z.of_nat (length l1) * le_value l2.
Proof.
  induction l1 as [|b l1 IH]; cbn [app le_value length]; [cbn; lia|].
  rewrite IH, Nat2Z.inj_succ, Z.pow_succ_r by lia. lia.
Qed.

Lemma le_value_range l : Forall (fun b => 0 <= b < 256) l -> 0 <= le_value l < 256 ^ Z.of_nat (length l).
Proof.
  induction 1 as [|b l Hb Hl IH]; cbn [le_value length]; [cbn; lia|].
  rewrite Nat2Z.inj_succ, Z.pow_succ_r by lia. lia.
Qed.

(** The bits of big-endian bytes. *)
Lemma bytes_bits_reverse l : Forall (fun b => 0 <= b < 256) l ->
  bytes_bits (reverse l) = to_bits (8 * length l) (le_value l).
Proof.
  induction 1 as [|b l Hb Hl IH]; [done|]. rewrite reverse_cons. unfold bytes_bits in *.
  rewrite flat_map_app, IH. cbn [flat_map app length le_value]. rewrite app_nil_r.
  replace (8 * S (length l))%nat with (8 * length l + 8)%nat by lia.
  rewrite <- (to_bits_app (8 * length l) 8 (le_value l) b) by (cbn; lia). f_equal. cbn. lia.
Qed.

Lemma le_value_zeros m : le_value (replicate m 0) = 0.
Proof. induction m as [|m IH]; [done|]. cbn [replicate le_value]. lia. Qed.
Lemma le_value_ones m : le_value (replicate m 255) = 256 ^ Z.of_nat m - 1.
Proof.
  induction m as [|m IH]; [done|]. cbn [replicate le_value].
  rewrite IH, Nat2Z.inj_succ, Z.pow_succ_r by lia. lia.
Qed.

(** The top byte of a sequence decides the sign. *)
Lemma le_value_top l b : Forall (fun b => 0 <= b < 256) (l ++ [b]) ->
  (Z.shiftr b 7 = 0 <-> le_value (l ++ [b]) < 2 ^ (8 * Z.of_nat (length (l ++ [b])) - 1)) /\
  (Z.shiftr b 7 = 0 \/ Z.shiftr b 7 = 1).
Proof.
  intros H. apply Forall_app in H as [Hl Hb]. apply Forall_inv in Hb. cbn beta in Hb.
  rewrite Z.shiftr_div_pow2 by lia. change (2 ^ 7) with 128.
  pose proof (le_value_range l Hl) as Hr. rewrite le_value_app, length_app. cbn [le_value length].
  replace (8 * Z.of_nat (length l + 1) - 1) with (8 * Z.of_nat (length l) + 7) by lia.
  rewrite Z.pow_add_r by lia. rewrite pow_256 in * by lia. change (2 ^ 7) with 128.
  set (P := 2 ^ (8 * Z.of_nat (length l))) in *. clearbody P.
  assert (b = 128 * (b / 128) + b mod 128 /\ 0 <= b mod 128 < 128) as [E M]
    by (split; [by apply Z.div_mod|by apply Z.mod_pos_bound]).
  split; [|lia]. rewrite Z.mul_0_r, Z.add_0_r. destruct (Z.lt_ge_cases b 128) as [Hc|Hc].
  - assert (P * b <= P * 127) by (apply Z.mul_le_mono_nonneg_l; lia). split; lia.
  - assert (P * 128 <= P * b) by (apply Z.mul_le_mono_nonneg_l; lia). split; lia.
Qed.

(** Sign extension: two's complement bytes filled up to [k] with the byte of the sign. *)
Lemma sign_extend l z k : Forall (fun b => 0 <= b < 256) l -> (0 < length l <= k)%nat ->
  wrap_s (8 * Z.of_nat (length l)) (le_value l) = z ->
  let fill := match last l with Some first => Z.shiftr first 7 * 255 | None => 0 end in
  le_value (resize k fill l) = z mod 2 ^ (8 * Z.of_nat k) /\
  Forall (fun b => 0 <= b < 256) (resize k fill l) /\ length (resize k fill l) = k.
Proof.
  intros Hl Hk Hz fill. destruct l as [|b l _] using rev_ind; [cbn in Hk; lia|].
  pose proof (le_value_range _ Hl) as Hr. rewrite pow_256 in Hr by lia.
  destruct (le_value_top l b Hl) as [Htop Hcase].
  unfold fill. rewrite last_snoc. set (L := l ++ [b]) in *. clearbody L.
  set (n := Z.of_nat (length L)) in *.
  assert (2 ^ (8 * n) = 2 * 2 ^ (8 * n - 1)) as Hp.
  { rewrite <- Z.pow_succ_r by lia. f_equal. lia. }
  rewrite resize_ge by lia. set (m := (k - length L)%nat).
  assert (2 ^ (8 * Z.of_nat k) = 2 ^ (8 * n) * 256 ^ Z.of_nat m) as Hkm.
  { rewrite pow_256 by lia. rewrite <- Z.pow_add_r by lia. f_equal. lia. }
  assert (0 < 256 ^ Z.of_nat m) as Hm by (apply Z.pow_pos_nonneg; lia).
  rewrite le_value_app, length_app, length_replicate. fold n. rewrite pow_256 by lia.
  split; [|split; [|unfold m; lia]].
  - destruct Hcase as [H0|H1].
    + rewrite H0. change (0 * 255) with 0. rewrite le_value_zeros.
      assert (le_value L < 2 ^ (8 * n - 1)) as Hlt by (by apply Htop).
      assert (z = le_value L) as ->.
      { rewrite <- Hz. unfold wrap_s. rewrite Z.mod_small; lia. }
      rewrite Hkm, Z.mod_small; [lia|]. nia.
    + rewrite H1. change (1 * 255) with 255. rewrite le_value_ones.
      assert (~ le_value L < 2 ^ (8 * n - 1)) as Hge by (rewrite <- Htop; lia).
      assert (z = le_value L - 2 ^ (8 * n)) as ->.
      { rewrite <- Hz. unfold wrap_s.
        replace (le_value L + 2 ^ (8 * n - 1)) with (le_value L - 2 ^ (8 * n - 1) + 1 * 2 ^ (8 * n)) by lia.
        rewrite Z.mod_add, Z.mod_small; lia. }
      rewrite Hkm. apply Z.mod_unique with (q := -1); [left; nia|lia].
  - apply Forall_app. split; [done|]. apply Forall_replicate. destruct Hcase as [->| ->]; lia.
Qed.

Lemma zero_extend l z k : Forall (fun b => 0 <= b < 256) l -> (length l <= k)%nat -> le_value l = z ->
  le_value (resize k 0 l) = z mod 2 ^ (8 * Z.of_nat k) /\
  Forall (fun b => 0 <= b < 256) (resize k 0 l) /\ length (resize k 0 l) = k.
Proof.
  intros Hl Hk Hz. pose proof (le_value_range _ Hl) as Hr. rewrite pow_256 in Hr by lia.
  rewrite resize_ge by lia. rewrite le_value_app, length_app, length_replicate, le_value_zeros.
  split; [|split; [|lia]].
  - rewrite Z.mod_small; [lia|]. assert (2 ^ (8 * Z.of_nat (length l)) <= 2 ^ (8 * Z.of_nat k)); [|lia].
    apply Z.pow_le_mono_r; lia.
  - apply Forall_app. split; [done|]. apply Forall_replicate. lia.
Qed.
