(* ===== verification/Values.v ===== *)
(** * Errors, stack values and continuations

    error.rs, the value types of stack.rs and the continuation types of cont.rs.
    [SafeRc<T>] is a reference-counted pointer to an immutable value: every
    mutation goes through [SafeRc::make_mut], which copies a shared value first, so
    values are modelled as values. *)

From S2P Require Import Prelude External.

(** ** Value types and errors *)

Inductive StackValueType := TyNull | TyInt | TyCell | TySlice | TyBuilder | TyCont | TyTuple.

#[export] Instance StackValueType_eq_dec : EqDecision StackValueType.
Proof. solve_decision. Defined.

(** [VmError].  The decimal string [actual] of a range error is kept as the number
    it prints.  [Panic] is no variant of the source: it stands for a Rust panic (a
    failed [expect]), which would abort the VM. *)
Inductive VmError :=
| StackUnderflow (depth : Z)
| TooManyArguments (n : Z)
| IntegerOutOfRange (min max actual : Z)
| ControlRegisterOutOfRange (i : Z)
| ControlRegisterRedefined
| IntegerOverflow
| InvalidOpcode
| InvalidType (expected actual : StackValueType)
| OutOfGas
| CellError (e : Error)
| DictError
| Unknown
| Panic.

#[export] Instance VmError_eq_dec : EqDecision VmError.
Proof. solve_decision. Defined.

Inductive VmException :=
| ExcOk | ExcAlternative | ExcStackUnderflow | ExcStackOverflow | ExcIntOverflow
| ExcRangeCheck | ExcInvalidOpcode | ExcTypeCheck | ExcCellOverflow | ExcCellUnderflow
| ExcDictError | ExcUnknown | ExcFatal | ExcOutOfGas | ExcVirtError.

(** [exception as i32] *)
Definition exception_code (e : VmException) : Z :=
  match e with
  | ExcOk => 0 | ExcAlternative => 1 | ExcStackUnderflow => 2 | ExcStackOverflow => 3
  | ExcIntOverflow => 4 | ExcRangeCheck => 5 | ExcInvalidOpcode => 6 | ExcTypeCheck => 7
  | ExcCellOverflow => 8 | ExcCellUnderflow => 9 | ExcDictError => 10 | ExcUnknown => 11
  | ExcFatal => 12 | ExcOutOfGas => 13 | ExcVirtError => 14
  end.

(** [VmException::as_exit_code]: [!(self as i32)]. *)
Definition as_exit_code (e : VmException) : Z := Z.lnot (exception_code e).

Definition is_out_of_gas (e : VmError) : bool :=
  match e with
  | OutOfGas => true
  | CellError Cancelled => true
  | _ => false
  end.

Definition as_exception (e : VmError) : VmException :=
  match e with
  | StackUnderflow _ => ExcStackUnderflow
  | TooManyArguments _ => ExcStackOverflow
  | IntegerOutOfRange _ _ _ => ExcRangeCheck
  | ControlRegisterOutOfRange _ => ExcRangeCheck
  | ControlRegisterRedefined => ExcTypeCheck
  | IntegerOverflow => ExcIntOverflow
  | InvalidOpcode => ExcInvalidOpcode
  | InvalidType _ _ => ExcTypeCheck
  | OutOfGas => ExcOutOfGas
  | Unknown => ExcUnknown
  | CellError e =>
      match e with
      | CellUnderflow => ExcCellUnderflow
      | CellOverflow => ExcCellOverflow
      | UnexpectedExoticCell | UnexpectedOrdinaryCell => ExcVirtError
      | Cancelled => ExcOutOfGas
      | IntOverflow => ExcIntOverflow
      | _ => ExcFatal
      end
  | DictError => ExcDictError
  | Panic => ExcFatal
  end.

(** ** Values and continuations *)

(** [ControlRegs]: the arrays [c : [Option<RcCont>; 4]] and [d : [Option<Cell>; 2]]
    are spelled out; parameterised so that it can be used inside [cont]. *)
Record ControlRegsOf (K V C : Type) := mkRegs {
  c0 : option K; c1 : option K; c2 : option K; c3 : option K;
  d0 : option C; d1 : option C;
  c7 : option (list V)
}.
Arguments mkRegs {K V C}.
Arguments c0 {K V C}. Arguments c1 {K V C}. Arguments c2 {K V C}. Arguments c3 {K V C}.
Arguments d0 {K V C}. Arguments d1 {K V C}. Arguments c7 {K V C}.

(** [ControlData]; the [u16] count of arguments is an [N]. *)
Record ControlDataOf (K V C : Type) := mkData {
  nargs : option N;
  cd_stack : option (list V);
  save : ControlRegsOf K V C;
  cd_cp : option Z
}.
Arguments mkData {K V C}.
Arguments nargs {K V C}. Arguments cd_stack {K V C}.
Arguments save {K V C}. Arguments cd_cp {K V C}.

(** The implementors of [StackValue] ([value]) and of [Cont] ([cont]). *)
Inductive value `{CL : CellLib} :=
| VNull
| VNaN
| VInt (z : Z)
| VCell (c : Cell)
| VSlice (s : OwnedCellSlice)
| VBuilder (b : CellBuilder)
| VCont (c : cont)
| VTuple (l : list value)
with cont `{CL : CellLib} :=
| QuitCont (exit_code : Z)
| ExcQuitCont
| PushIntCont (v : Z) (next : cont)
| RepeatCont (count : Z) (body after : cont)
| AgainCont (body : cont)
| UntilCont (body after : cont)
| WhileCont (check_cond : bool) (cond body after : cont)
| ArgContExt (data : ControlDataOf cont value Cell) (ext : cont)
| OrdCont (data : ControlDataOf cont value Cell) (code : OwnedCellSlice).

Section Values.
Context `{CL : CellLib}.

Definition ControlRegs : Type := ControlRegsOf cont value Cell.
Definition ControlData : Type := ControlDataOf cont value Cell.
Definition Tuple : Type := list value.

(** [ControlRegs::default], [ControlData::default]. *)
Definition regs_default : ControlRegs := mkRegs None None None None None None None.
Definition data_default : ControlData := mkData None None regs_default None.

(** [StackValue::ty]. *)
Definition ty (v : value) : StackValueType :=
  match v with
  | VNull => TyNull
  | VNaN | VInt _ => TyInt
  | VCell _ => TyCell
  | VSlice _ => TySlice
  | VBuilder _ => TyBuilder
  | VCont _ => TyCont
  | VTuple _ => TyTuple
  end.

Definition is_null (v : value) : bool := bool_decide (ty v = TyNull).
Definition is_tuple (v : value) : bool := bool_decide (ty v = TyTuple).

Definition as_int (v : value) : option Z :=
  match v with VInt z => Some z | _ => None end.
Definition as_tuple (v : value) : option Tuple :=
  match v with VTuple l => Some l | _ => None end.

(** [rc_into_int] and its siblings: the default method fails with a type error;
    [NaN] overrides [rc_into_int] with an overflow. *)
Definition invalid_type (actual expected : StackValueType) : VmError :=
  InvalidType expected actual.

Definition into_int (v : value) : result VmError Z :=
  match v with
  | VInt z => Ok z
  | VNaN => Err IntegerOverflow
  | _ => Err (invalid_type (ty v) TyInt)
  end.
Definition into_cell (v : value) : result VmError Cell :=
  match v with VCell c => Ok c | _ => Err (invalid_type (ty v) TyCell) end.
Definition into_cell_slice (v : value) : result VmError OwnedCellSlice :=
  match v with VSlice s => Ok s | _ => Err (invalid_type (ty v) TySlice) end.
Definition into_cell_builder (v : value) : result VmError CellBuilder :=
  match v with VBuilder b => Ok b | _ => Err (invalid_type (ty v) TyBuilder) end.
Definition into_cont (v : value) : result VmError cont :=
  match v with VCont c => Ok c | _ => Err (invalid_type (ty v) TyCont) end.
Definition into_tuple (v : value) : result VmError Tuple :=
  match v with VTuple l => Ok l | _ => Err (invalid_type (ty v) TyTuple) end.

(** [as_tuple_range(min_len, max_len)]. *)
Definition in_len_range (min_len max_len : Z) (t : Tuple) : bool :=
  (min_len <=? Z.of_nat (length t)) && (Z.of_nat (length t) <=? max_len).

Definition as_tuple_range (v : value) (min_len max_len : Z) : option Tuple :=
  match as_tuple v with
  | Some t => if in_len_range min_len max_len t then Some t else None
  | None => None
  end.

Definition as_pair (v : value) : option (value * value) :=
  match as_tuple v with
  | Some [first; second] => Some (first, second)
  | _ => None
  end.

(** The [while !next.is_null()] loop of [as_list]. *)
Fixpoint list_tail_ok (next : value) : bool :=
  match next with
  | VNull => true
  | VTuple [_; tail] => list_tail_ok tail
  | _ => false
  end.

Definition as_list (v : value) : option (value * value) :=
  match as_pair v with
  | Some (head, tail) => if list_tail_ok tail then Some (head, tail) else None
  | None => None
  end.

(** [TupleExt::try_get] and [try_get_tuple_range]. *)
Definition try_get (t : Tuple) (index : Z) : result VmError value :=
  match t !! Z.to_nat index with
  | Some v => Ok v
  | None => Err (IntegerOutOfRange 0 (Z.of_nat (length t)) index)
  end.

Definition try_get_tuple_range (t : Tuple) (index min_len max_len : Z)
  : result VmError Tuple :=
  match try_get t index with
  | Err e => Err e
  | Ok v =>
      match as_tuple v with
      | None => Err (InvalidType TyTuple (ty v))
      | Some l =>
          if in_len_range min_len max_len l then Ok l
          else Err (InvalidType TyTuple TyNull)
      end
  end.

(** [Cont::get_control_data] and [get_control_data_mut]. *)
Definition get_control_data (c : cont) : option ControlData :=
  match c with
  | ArgContExt data _ => Some data
  | OrdCont data _ => Some data
  | _ => None
  end.

Definition set_control_data (data : ControlData) (c : cont) : cont :=
  match c with
  | ArgContExt _ ext => ArgContExt data ext
  | OrdCont _ code => OrdCont data code
  | c => c
  end.

(** [dyn Cont::has_c0]. *)
Definition has_c0 (c : cont) : bool :=
  match get_control_data c with
  | Some data => match c0 (save data) with Some _ => true | None => false end
  | None => false
  end.

(** [OrdCont::simple]. *)
Definition simple (code : OwnedCellSlice) (cp : Z) : cont :=
  OrdCont (mkData None None regs_default (Some cp)) code.

(** [ControlData::require_nargs]. *)
Definition require_nargs (data : ControlData) (copy : Z) : result VmError unit :=
  match nargs data with
  | Some n => if Z.of_N n <? copy then Err (StackUnderflow copy) else Ok tt
  | None => Ok tt
  end.

(** How many times a continuation can be replaced by the one its [jump] returns. *)
Fixpoint cont_depth (c : cont) : nat :=
  match c with
  | QuitCont _ | ExcQuitCont | OrdCont _ _ => 0
  | PushIntCont _ next => S (cont_depth next)
  | RepeatCont _ body after => S (Nat.max (cont_depth body) (cont_depth after))
  | AgainCont body => S (cont_depth body)
  | UntilCont body after => S (Nat.max (cont_depth body) (cont_depth after))
  | WhileCont _ cond body after =>
      S (Nat.max (cont_depth cond) (Nat.max (cont_depth body) (cont_depth after)))
  | ArgContExt _ ext => S (cont_depth ext)
  end.

Lemma set_get_control_data c data :
  get_control_data c = Some data -> set_control_data data c = c.
Proof. destruct c; cbn; try done; by intros [= ->]. Qed.

Lemma get_set_control_data c d d' :
  get_control_data c = Some d -> get_control_data (set_control_data d' c) = Some d'.
Proof. by destruct c. Qed.

Lemma cont_depth_set_data c d : cont_depth (set_control_data d c) = cont_depth c.
Proof. by destruct c. Qed.
End Values.
