(* ===== verification/VmStack.v ===== *)
(** * The operand stack (stack.rs)

    [Stack] is the vector [items], bottom first, as in the source; every primitive
    is a computation on it with the source's bound checks and errors.  Indices and
    lengths ([usize]) are kept in [Z].  The second half relates the primitives to an
    abstract stack, the list of values with the top first ([view]). *)

From S2P Require Import Prelude External Values.

Open Scope vm_scope.

Module Stack.
Section Ops.
Context `{CL : CellLib}.

Abbreviation Stack := (list value).
#[local] Abbreviation SM := (MS Stack VmError).

Definition MAX_DEPTH : Z := 16777215.

Definition make_bool (b : bool) : value := VInt (if b then -1 else 0).

Definition depth (s : Stack) : Z := Z.of_nat (length s).

Definition push_raw (item : value) : SM unit :=
  let* d := gets depth in
  ensure (d <? MAX_DEPTH) (StackUnderflow MAX_DEPTH) ;;
  modify (fun s => s ++ [item]).

Definition push (item : value) : SM unit := push_raw item.

Definition push_null : SM unit := push_raw VNull.
Definition push_nan : SM unit := push_raw VNaN.
Definition push_bool (b : bool) : SM unit := push_raw (make_bool b).
Definition push_zero : SM unit := push_raw (VInt 0).
Definition push_int (z : Z) : SM unit := push (VInt z).

Definition push_opt_raw (item : option value) : SM unit :=
  match item with
  | None => push_null
  | Some item => push_raw item
  end.

Definition push_raw_int (z : Z) (quiet : bool) : SM unit :=
  if bitsize true z <=? 257 then push_raw (VInt z)
  else if quiet then push_nan
  else raise IntegerOverflow.

(** [self.items[i]]: in range wherever the source indexes. *)
Definition at_ (s : Stack) (i : Z) : value := default VNull (s !! Z.to_nat i).

Definition push_nth (idx : Z) : SM unit :=
  let* d := gets depth in
  ensure (idx <? d) (StackUnderflow idx) ;;
  ensure (d + 1 <? MAX_DEPTH) (StackUnderflow MAX_DEPTH) ;;
  modify (fun s => s ++ [at_ s (d - idx - 1)]).

(** [self.items.extend(other.items.drain(new_other_len..))]; the state is the pair
    of the receiver and of [other]. *)
Definition move_from_stack (n : Z) : MS (Stack * Stack) VmError unit :=
  fun '(self, other) =>
    match checked_sub_u (depth other) n with
    | None => (Err (StackUnderflow n), (self, other))
    | Some new_len =>
        (Ok tt, (self ++ drop (Z.to_nat new_len) other, take (Z.to_nat new_len) other))
    end.

Definition split_top (n : Z) : SM Stack :=
  let* d := gets depth in
  let* new_depth := of_option (StackUnderflow n) (checked_sub_u d n) in
  let* res := gets (drop (Z.to_nat new_depth)) in
  modify (take (Z.to_nat new_depth)) ;;
  ret res.

Definition split_top_ext (n drop_n : Z) : SM Stack :=
  let* d := gets depth in
  let* new_depth := of_option (StackUnderflow (n + drop_n)) (checked_sub_u d (n + drop_n)) in
  let* res := gets (drop (Z.to_nat (new_depth + drop_n))) in
  modify (take (Z.to_nat new_depth)) ;;
  ret res.

Definition pop : SM value :=
  fun s => match last s with
           | None => (Err (StackUnderflow 0), s)
           | Some item => (Ok item, take (length s - 1) s)
           end.

Definition pop_int : SM Z :=
  let* v := pop in of_result (into_int v).

Definition pop_bool : SM bool :=
  let* z := pop_int in ret (negb (z =? 0)).

Definition pop_int_or_nan : SM (option Z) :=
  let* v := pop in
  if bool_decide (ty v = TyInt) && negb (bool_decide (is_Some (as_int v)))
  then ret None
  else let* z := of_result (into_int v) in ret (Some z).

(** The three range-checked pops differ in the width of the conversion. *)
Definition pop_range (conv : Z -> option Z) (min max : Z) : SM Z :=
  let* item := pop_int in
  match conv item with
  | Some item' =>
      if (min <=? item') && (item' <=? max) then ret item'
      else raise (IntegerOutOfRange min max item)
  | None => raise (IntegerOutOfRange min max item)
  end.

Definition pop_smallint_range (min max : Z) : SM Z := pop_range to_u32 min max.

(** [min as isize], [max as isize]: [u64::MAX] prints as [-1] in the error. *)
Definition pop_long_range (min max : Z) : SM Z :=
  let* item := pop_int in
  match to_u64 item with
  | Some item' =>
      if (min <=? item') && (item' <=? max) then ret item'
      else raise (IntegerOutOfRange (wrap_s 64 min) (wrap_s 64 max) item)
  | None => raise (IntegerOutOfRange (wrap_s 64 min) (wrap_s 64 max) item)
  end.

Definition pop_smallint_signed_range (min max : Z) : SM Z := pop_range to_i32 min max.

Definition pop_tuple : SM Tuple :=
  let* v := pop in of_result (into_tuple v).

Definition pop_tuple_range (min_len max_len : Z) : SM Tuple :=
  let* t := pop_tuple in
  ensure (in_len_range min_len max_len t) (InvalidType TyTuple TyTuple) ;;
  ret t.

Definition pop_opt_tuple_range (min_len max_len : Z) : SM (option Tuple) :=
  let* v := pop in
  if is_null v then ret None
  else
    let* t := of_result (into_tuple v) in
    ensure (in_len_range min_len max_len t) (InvalidType TyTuple TyTuple) ;;
    ret (Some t).

Definition pop_cont : SM cont := let* v := pop in of_result (into_cont v).
Definition pop_cs : SM OwnedCellSlice := let* v := pop in of_result (into_cell_slice v).
Definition pop_builder : SM CellBuilder := let* v := pop in of_result (into_cell_builder v).
Definition pop_cell : SM Cell := let* v := pop in of_result (into_cell v).

Definition pop_cell_opt : SM (option Cell) :=
  let* sv := pop in
  if is_null sv then ret None
  else let* c := of_result (into_cell sv) in ret (Some c).

Definition pop_many (n : Z) : SM unit :=
  let* d := gets depth in
  let* new_len := of_option (StackUnderflow n) (checked_sub_u d n) in
  modify (take (Z.to_nat new_len)).

Definition drop_bottom (n : Z) : SM unit :=
  let* d := gets depth in
  ensure (n <=? d) (StackUnderflow n) ;;
  modify (drop (Z.to_nat n)).

(** [slice::swap]. *)
Definition vec_swap (i j : Z) (s : Stack) : Stack :=
  <[Z.to_nat j := at_ s i]> (<[Z.to_nat i := at_ s j]> s).

Definition swap (lhs rhs : Z) : SM unit :=
  let* d := gets depth in
  ensure (lhs <? d) (StackUnderflow lhs) ;;
  ensure (rhs <? d) (StackUnderflow rhs) ;;
  modify (vec_swap (d - lhs - 1) (d - rhs - 1)).

(** [self.items[lo..hi].reverse()]. *)
Definition vec_reverse (lo hi : Z) (s : Stack) : Stack :=
  let lo := Z.to_nat lo in
  let hi := Z.to_nat hi in
  take lo s ++ reverse (drop lo (take hi s)) ++ drop hi s.

Definition reverse_range (offset n : Z) : SM unit :=
  let* d := gets depth in
  ensure (offset <? d) (StackUnderflow offset) ;;
  ensure (offset + n <=? d) (StackUnderflow (offset + n)) ;;
  modify (vec_reverse (d - offset - n) (d - offset)).

Definition fetch (idx : Z) : SM value :=
  let* d := gets depth in
  ensure (idx <? d) (StackUnderflow idx) ;;
  gets (fun s => at_ s (d - idx - 1)).

Definition get_exit_arg (s : Stack) : option Z :=
  match last s with
  | Some v => match as_int v with Some z => to_i32 z | None => None end
  | None => None
  end.

(** [self.items.drain(lo..hi)] of the instructions that drain directly. *)
Definition drain (lo hi : Z) (s : Stack) : Stack :=
  take (Z.to_nat lo) s ++ drop (Z.to_nat hi) s.
End Ops.
End Stack.

(** ** The abstract stack *)

Section View.
Context `{CL : CellLib}.

(** Top first. *)
Definition view (s : (list value)) : list value := reverse s.

Lemma view_inj s s' : view s = view s' -> s = s'.
Proof. unfold view. intros H. by rewrite <- (reverse_involutive s), H, reverse_involutive. Qed.

Lemma view_reverse l : view (reverse l) = l.
Proof. apply reverse_involutive. Qed.

Lemma depth_view s : Stack.depth s = Z.of_nat (length (view s)).
Proof. unfold view, Stack.depth. by rewrite length_reverse. Qed.

(** [of_view l] is the vector whose abstract stack is [l]. *)
Definition of_view (l : list value) : (list value) := reverse l.

Lemma of_view_cons v l : of_view (v :: l) = of_view l ++ [v].
Proof. unfold of_view. by rewrite reverse_cons. Qed.

Lemma depth_of_view l : Stack.depth (of_view l) = Z.of_nat (length l).
Proof. unfold of_view, Stack.depth. by rewrite length_reverse. Qed.

Lemma of_view_view s : of_view (view s) = s.
Proof. apply reverse_involutive. Qed.

Lemma at_of_view l i :
  0 <= i < Z.of_nat (length l) ->
  Stack.at_ (of_view l) (Z.of_nat (length l) - i - 1) = default VNull (l !! Z.to_nat i).
Proof.
  intros Hi. unfold Stack.at_, of_view.
  rewrite reverse_lookup by lia. do 2 f_equal. lia.
Qed.

Lemma take_of_view n l : (n <= length l)%nat ->
  take (length l - n) (of_view l) = of_view (drop n l).
Proof.
  intros. unfold of_view.
  rewrite <- (take_drop n l) at 2. rewrite reverse_app, take_app_le;
    [| rewrite length_reverse, length_drop; lia].
  rewrite take_ge; [done|]. rewrite length_reverse, length_drop; lia.
Qed.

Lemma drop_of_view n l : (n <= length l)%nat ->
  drop (length l - n) (of_view l) = of_view (take n l).
Proof.
  intros. unfold of_view.
  rewrite <- (take_drop n l) at 2. rewrite reverse_app, drop_app_ge;
    rewrite length_reverse, length_drop; [|lia].
  by rewrite Nat.sub_diag, drop_0.
Qed.
End View.

#[global] Arguments Stack.at_ {CL} s i : simpl never.
#[global] Arguments view {CL} s : simpl never.
#[global] Arguments of_view {CL} l : simpl never.

(** ** The primitives on the abstract stack *)

Section Primitives.
Context `{CL : CellLib}.
Implicit Types (l : list value) (v : value).

#[local] Abbreviation len l := (Z.of_nat (length l)).

(** Exchange of two elements of the abstract stack. *)
Definition lswap (i j : nat) l : list value :=
  match l !! i, l !! j with
  | Some a, Some b => <[i := b]> (<[j := a]> l)
  | _, _ => l
  end.

Lemma push_raw_ok v l : len l < Stack.MAX_DEPTH ->
  Stack.push_raw v (of_view l) = (Ok tt, of_view (v :: l)).
Proof.
  intros H. unfold Stack.push_raw, bind, gets, modify, ret. rewrite depth_of_view.
  rewrite ensure_true by (apply Z.ltb_lt; done). cbn. by rewrite of_view_cons.
Qed.

Lemma push_raw_full v l : Stack.MAX_DEPTH <= len l ->
  Stack.push_raw v (of_view l) = (Err (StackUnderflow Stack.MAX_DEPTH), of_view l).
Proof.
  intros H. unfold Stack.push_raw, bind, gets, modify, ret. rewrite depth_of_view.
  by rewrite ensure_false by (apply Z.ltb_ge; done).
Qed.

Lemma pop_ok v l : Stack.pop (of_view (v :: l)) = (Ok v, of_view l).
Proof.
  unfold Stack.pop. rewrite of_view_cons, last_snoc, length_app. cbn.
  rewrite Nat.add_sub, take_app_le, take_ge by lia. done.
Qed.

Lemma pop_empty : Stack.pop (of_view []) = (Err (StackUnderflow 0), of_view []).
Proof. done. Qed.

Lemma bind_pop_ok {A} (k : value -> MS (list value) VmError A) v l :
  bind Stack.pop k (of_view (v :: l)) = k v (of_view l).
Proof. unfold bind. by rewrite pop_ok. Qed.

Lemma pop_int_ok z l : Stack.pop_int (of_view (VInt z :: l)) = (Ok z, of_view l).
Proof. unfold Stack.pop_int. by rewrite bind_pop_ok. Qed.

Lemma pop_bool_ok z l :
  Stack.pop_bool (of_view (VInt z :: l)) = (Ok (negb (z =? 0)), of_view l).
Proof. unfold Stack.pop_bool. by rewrite (bind_ok _ _ _ _ _ (pop_int_ok _ _)). Qed.

Lemma pop_int_or_nan_int z l :
  Stack.pop_int_or_nan (of_view (VInt z :: l)) = (Ok (Some z), of_view l).
Proof. unfold Stack.pop_int_or_nan. by rewrite bind_pop_ok. Qed.

Lemma pop_int_or_nan_nan l :
  Stack.pop_int_or_nan (of_view (VNaN :: l)) = (Ok None, of_view l).
Proof. unfold Stack.pop_int_or_nan. by rewrite bind_pop_ok. Qed.

Lemma pop_cont_ok c l : Stack.pop_cont (of_view (VCont c :: l)) = (Ok c, of_view l).
Proof. unfold Stack.pop_cont. by rewrite bind_pop_ok. Qed.

Lemma pop_range_ok conv lo hi z l :
  conv z = Some z -> lo <= z <= hi ->
  Stack.pop_range conv lo hi (of_view (VInt z :: l)) = (Ok z, of_view l).
Proof.
  intros Hc Hz. unfold Stack.pop_range. rewrite (bind_ok _ _ _ _ _ (pop_int_ok _ _)), Hc.
  repeat (case_bool; [|lia]). done.
Qed.

Lemma pop_smallint_range_ok lo hi z l :
  0 <= lo -> hi <= U32_MAX -> lo <= z <= hi ->
  Stack.pop_smallint_range lo hi (of_view (VInt z :: l)) = (Ok z, of_view l).
Proof. intros. apply pop_range_ok; [apply to_range_Some|]; lia. Qed.

Lemma pop_tuple_range_ok lo hi t l :
  lo <= len t <= hi ->
  Stack.pop_tuple_range lo hi (of_view (VTuple t :: l)) = (Ok t, of_view l).
Proof.
  intros H. unfold Stack.pop_tuple_range, Stack.pop_tuple, bind. rewrite pop_ok. cbn.
  unfold in_len_range. repeat (case_bool; [|lia]). done.
Qed.

Lemma push_nth_ok idx l : 0 <= idx < len l -> len l + 1 < Stack.MAX_DEPTH ->
  Stack.push_nth idx (of_view l)
  = (Ok tt, of_view (default VNull (l !! Z.to_nat idx) :: l)).
Proof.
  intros Hi Hd. unfold Stack.push_nth, bind, gets, modify, ret. rewrite depth_of_view.
  rewrite !ensure_true by (apply Z.ltb_lt; lia). cbn.
  by rewrite at_of_view, of_view_cons by lia.
Qed.

Lemma pop_many_ok n l : 0 <= n <= len l ->
  Stack.pop_many n (of_view l) = (Ok tt, of_view (drop (Z.to_nat n) l)).
Proof.
  intros H. unfold Stack.pop_many, bind, gets, modify, ret. rewrite depth_of_view.
  rewrite checked_sub_u_Some by lia. cbn.
  rewrite <- take_of_view by lia. do 3 f_equal. lia.
Qed.

Lemma split_top_ok n l : 0 <= n <= len l ->
  Stack.split_top n (of_view l)
  = (Ok (of_view (take (Z.to_nat n) l)), of_view (drop (Z.to_nat n) l)).
Proof.
  intros H. unfold Stack.split_top, bind, gets, modify, ret. rewrite depth_of_view.
  rewrite checked_sub_u_Some by lia. cbn.
  replace (Z.to_nat (len l - n)) with (length l - Z.to_nat n)%nat by lia.
  by rewrite take_of_view, drop_of_view by lia.
Qed.

Lemma drop_bottom_ok n l : 0 <= n <= len l ->
  Stack.drop_bottom n (of_view l)
  = (Ok tt, of_view (take (length l - Z.to_nat n) l)).
Proof.
  intros H. unfold Stack.drop_bottom, bind, gets, modify, ret. rewrite depth_of_view.
  rewrite ensure_true by (apply Z.leb_le; lia). cbn.
  rewrite <- drop_of_view by lia. do 3 f_equal. lia.
Qed.

Lemma of_view_lookup l i : (i < length l)%nat ->
  of_view l !! (length l - i - 1)%nat = l !! i.
Proof. intros. unfold of_view. rewrite reverse_lookup by lia. f_equal. lia. Qed.

Lemma of_view_insert l i v : (i < length l)%nat ->
  <[(length l - i - 1)%nat := v]> (of_view l) = of_view (<[i := v]> l).
Proof.
  intros. apply list_eq. intros k. unfold of_view.
  destruct (decide (k < length l)%nat) as [Hk|Hk].
  - rewrite reverse_lookup by (rewrite length_insert; lia).
    destruct (decide (k = length l - i - 1)%nat) as [->|Hne].
    + rewrite list_lookup_insert_eq by (rewrite length_reverse; lia).
      rewrite length_insert. replace (length l - S (length l - i - 1))%nat with i by lia.
      by rewrite list_lookup_insert_eq.
    + rewrite list_lookup_insert_ne by done. rewrite length_insert.
      rewrite list_lookup_insert_ne by lia. by rewrite reverse_lookup.
  - rewrite !lookup_ge_None_2; [done| |]; rewrite ?length_insert, ?length_reverse,
      ?length_insert; lia.
Qed.

Lemma lswap_length i j l : length (lswap i j l) = length l.
Proof.
  unfold lswap. destruct (l !! i), (l !! j); rewrite ?length_insert; done.
Qed.

Lemma swap_ok i j l : 0 <= i < len l -> 0 <= j < len l ->
  Stack.swap i j (of_view l) = (Ok tt, of_view (lswap (Z.to_nat i) (Z.to_nat j) l)).
Proof.
  intros Hi Hj. unfold Stack.swap, bind, gets, modify, ret. rewrite depth_of_view.
  rewrite !ensure_true by (apply Z.ltb_lt; lia). cbn. do 2 f_equal.
  unfold Stack.vec_swap. rewrite !at_of_view by lia.
  unfold lswap.
  destruct (l !! Z.to_nat i) as [a|] eqn:Ha;
    [|apply lookup_ge_None in Ha; lia].
  destruct (l !! Z.to_nat j) as [b|] eqn:Hb;
    [|apply lookup_ge_None in Hb; lia]. cbn.
  replace (Z.to_nat (len l - i - 1)) with (length l - Z.to_nat i - 1)%nat by lia.
  replace (Z.to_nat (len l - j - 1)) with (length l - Z.to_nat j - 1)%nat by lia.
  rewrite of_view_insert by lia.
  replace (length l - Z.to_nat j - 1)%nat
    with (length (<[Z.to_nat i := b]> l) - Z.to_nat j - 1)%nat by (rewrite length_insert; lia).
  rewrite of_view_insert by (rewrite length_insert; lia). f_equal.
  destruct (decide (Z.to_nat i = Z.to_nat j)) as [He|Hne].
  - rewrite He in *. rewrite Ha in Hb. injection Hb as ->. done.
  - by rewrite list_insert_insert_ne.
Qed.

Lemma swap_underflow i j l : len l <= i \/ len l <= j ->
  exists e, Stack.swap i j (of_view l) = (Err (StackUnderflow e), of_view l).
Proof.
  intros H. unfold Stack.swap, bind, gets, modify, ret. rewrite depth_of_view.
  unfold ensure. case_bool; [|by eexists]. cbn. case_bool; [lia|by eexists].
Qed.

Lemma reverse_range_ok off n l : 0 <= off < len l -> 0 <= n -> off + n <= len l ->
  Stack.reverse_range off n (of_view l)
  = (Ok tt, of_view (take (Z.to_nat off) l ++
                     reverse (take (Z.to_nat n) (drop (Z.to_nat off) l)) ++
                     drop (Z.to_nat (off + n)) l)).
Proof.
  intros Ho Hn Hs. unfold Stack.reverse_range, bind, gets, modify, ret. rewrite depth_of_view.
  rewrite ensure_true by (apply Z.ltb_lt; lia).
  rewrite ensure_true by (apply Z.leb_le; lia). cbn. do 2 f_equal.
  unfold Stack.vec_reverse.
  replace (Z.to_nat (len l - off - n)) with (length l - Z.to_nat (off + n))%nat by lia.
  replace (Z.to_nat (len l - off)) with (length l - Z.to_nat off)%nat by lia.
  rewrite !take_of_view, drop_of_view by lia.
  replace (length l - Z.to_nat (off + n))%nat
    with (length (drop (Z.to_nat off) l) - Z.to_nat n)%nat by (rewrite length_drop; lia).
  rewrite drop_of_view by (rewrite length_drop; lia).
  unfold of_view. rewrite !reverse_app, reverse_involutive, <- app_assoc. done.
Qed.
End Primitives.
