(* ===== verification/VmGas.v ===== *)
(** * Gas accounting (gas.rs)

    [GasConsumer] with its interior-mutable counters as a state record, the gas
    operations as computations on it, library resolution while loading cells, the
    limited consumer, and the derivation and restoration of a child VM's gas.

    Gas amounts are [u64] and [gas_remaining] is [i64]; saturation is written out and
    the one plain [i64] addition (in [set_base]) wraps. *)

From S2P Require Import Prelude External Cells Values VmStack.

Open Scope vm_scope.

(** [GasParams]. *)
Record GasParams := mkGasParams { max : Z; limit : Z; credit : Z; price : Z }.

Module Gas.

Definition MAX_GAS : Z := I64_MAX.
Definition STUB_GAS_PRICE : Z := Z.shiftl 1000 16.

Definition unlimited : GasParams := mkGasParams MAX_GAS MAX_GAS 0 STUB_GAS_PRICE.
Definition getter : GasParams := mkGasParams 1000000 1000000 0 STUB_GAS_PRICE.

Definition BUILD_CELL_GAS : Z := 500.
Definition NEW_CELL_GAS : Z := 100.
Definition OLD_CELL_GAS : Z := 25.
Definition FREE_STACK_DEPTH : Z := 32.
Definition FREE_SIGNATURE_CHECKS : Z := 10.
Definition CHEAP_GET_BALANCE_CALLS : Z := 5.
Definition CHEAP_GET_BALANCE_GAS_THRESHOLD : Z := 200.
Definition FREE_NESTED_CONT_JUMP : Z := 8.
Definition STACK_VALUE_GAS_PRICE : Z := 1.
Definition TUPLE_ENTRY_GAS_PRICE : Z := 1.
Definition CHK_SGN_GAS_PRICE : Z := 4000.
Definition IMPLICIT_JMPREF_GAS_PRICE : Z := 10.
Definition IMPLICIT_RET_GAS_PRICE : Z := 5.
Definition EXCEPTION_GAS_PRICE : Z := 50.
Definition RUNVM_GAS_PRICE : Z := 40.

(** [truncate_gas]. *)
Definition truncate_gas (gas : Z) : Z := if gas <=? I64_MAX then gas else I64_MAX.

Section Gas.
Context `{CL : CellLib}.

(** [LibraryProvider::find]; [find_ref] returns the same cell by reference. *)
Definition LibraryProvider : Type := HashBytes -> result Error (option Cell).

Definition NoLibraries : LibraryProvider := fun _ => Ok None.

Definition OptionLibraries (this : option LibraryProvider) : LibraryProvider :=
  fun h => match this with
           | Some this => this h
           | None => Ok None
           end.

Definition PairLibraries (t1 t2 : LibraryProvider) : LibraryProvider :=
  fun h => match t1 h with
           | Err e => Err e
           | Ok (Some c) => Ok (Some c)
           | Ok None => t2 h
           end.

Definition TripleLibraries (t1 t2 t3 : LibraryProvider) : LibraryProvider :=
  fun h => match t1 h with
           | Err e => Err e
           | Ok (Some c) => Ok (Some c)
           | Ok None =>
               match t2 h with
               | Err e => Err e
               | Ok (Some c) => Ok (Some c)
               | Ok None => t3 h
               end
           end.

(** [Vec<Dict<HashBytes, SimpleLib>>]: the first dictionary that has the key. *)
Fixpoint VecLibraries (libs : list LibraryProvider) : LibraryProvider :=
  fun h => match libs with
           | [] => Ok None
           | lib :: libs =>
               match lib h with
               | Err e => Err e
               | Ok (Some c) => Ok (Some c)
               | Ok None => VecLibraries libs h
               end
           end.

Record GasConsumer := mkGas {
  gas_max : Z;
  gas_limit : Z;
  gas_credit : Z;
  gas_base : Z;
  gas_remaining : Z;
  gas_price : Z;
  loaded_cells : gset HashBytes;
  libraries : LibraryProvider;
  chksign_counter : Z;
  free_gas_consumed : Z;
  get_extra_balance_counter : Z;
  missing_library : option HashBytes
}.

Definition GM := MS GasConsumer Error.

Definition set_remaining (r : Z) (g : GasConsumer) : GasConsumer :=
  mkGas (gas_max g) (gas_limit g) (gas_credit g) (gas_base g) r (gas_price g)
    (loaded_cells g) (libraries g) (chksign_counter g) (free_gas_consumed g)
    (get_extra_balance_counter g) (missing_library g).

Definition set_counters (chk free ext : Z) (g : GasConsumer) : GasConsumer :=
  mkGas (gas_max g) (gas_limit g) (gas_credit g) (gas_base g) (gas_remaining g)
    (gas_price g) (loaded_cells g) (libraries g) chk free ext (missing_library g).

Definition set_loaded (l : gset HashBytes) (g : GasConsumer) : GasConsumer :=
  mkGas (gas_max g) (gas_limit g) (gas_credit g) (gas_base g) (gas_remaining g)
    (gas_price g) l (libraries g) (chksign_counter g) (free_gas_consumed g)
    (get_extra_balance_counter g) (missing_library g).

Definition put_missing (m : option HashBytes) (g : GasConsumer) : GasConsumer :=
  mkGas (gas_max g) (gas_limit g) (gas_credit g) (gas_base g) (gas_remaining g)
    (gas_price g) (loaded_cells g) (libraries g) (chksign_counter g)
    (free_gas_consumed g) (get_extra_balance_counter g) m.

Definition with_libraries (params : GasParams) (libs : LibraryProvider) : GasConsumer :=
  let gas_remaining := truncate_gas (sat_add_u64 (limit params) (credit params)) in
  mkGas (truncate_gas (max params)) (truncate_gas (limit params))
    (truncate_gas (credit params)) gas_remaining gas_remaining
    (if price params =? 0 then 1 else price params)
    ∅ libs 0 0 0 None.

Definition new (params : GasParams) : GasConsumer := with_libraries params NoLibraries.

(** [consumed]: [(base as i64).saturating_sub(remaining) as u64]. *)
Definition consumed (g : GasConsumer) : Z :=
  wrap_u 64 (sat_sub_i64 (gas_base g) (gas_remaining g)).

Definition set_base (base : Z) (g : GasConsumer) : GasConsumer :=
  let base := truncate_gas base in
  let diff := base - gas_base g in
  mkGas (gas_max g) (gas_limit g) (gas_credit g) base
    (wrap_s 64 (gas_remaining g + diff)) (gas_price g) (loaded_cells g) (libraries g)
    (chksign_counter g) (free_gas_consumed g) (get_extra_balance_counter g)
    (missing_library g).

Definition set_limit (limit : Z) (g : GasConsumer) : GasConsumer :=
  let limit := Z.min limit (gas_max g) in
  set_base limit
    (mkGas (gas_max g) limit 0 (gas_base g) (gas_remaining g) (gas_price g)
       (loaded_cells g) (libraries g) (chksign_counter g) (free_gas_consumed g)
       (get_extra_balance_counter g) (missing_library g)).

Definition try_consume (amount : Z) : GM unit :=
  fun g =>
    let remaining := sat_sub_i64 (gas_remaining g) (truncate_gas amount) in
    (if 0 <=? remaining then Ok tt else Err Cancelled, set_remaining remaining g).

Definition consume_free_gas (amount : Z) : GM unit :=
  modify (fun g =>
    set_counters (chksign_counter g)
      (truncate_gas (sat_add_u64 (free_gas_consumed g) amount))
      (get_extra_balance_counter g) g).

Definition try_consume_exception_gas : GM unit := try_consume EXCEPTION_GAS_PRICE.
Definition try_consume_implicit_jmpref_gas : GM unit := try_consume IMPLICIT_JMPREF_GAS_PRICE.
Definition try_consume_implicit_ret_gas : GM unit := try_consume IMPLICIT_RET_GAS_PRICE.

Definition try_consume_check_signature_gas : GM unit :=
  modify (fun g => set_counters (chksign_counter g + 1) (free_gas_consumed g)
                     (get_extra_balance_counter g) g) ;;
  let* n := gets chksign_counter in
  if FREE_SIGNATURE_CHECKS <? n then try_consume CHK_SGN_GAS_PRICE
  else consume_free_gas CHK_SGN_GAS_PRICE.

Definition try_consume_stack_depth_gas (depth : Z) : GM unit :=
  try_consume ((Z.max depth FREE_STACK_DEPTH - FREE_STACK_DEPTH) * STACK_VALUE_GAS_PRICE).

Definition try_consume_stack_gas (stack : option (list value)) : GM unit :=
  match stack with
  | Some stack => try_consume_stack_depth_gas (Stack.depth stack)
  | None => ret tt
  end.

Definition try_consume_tuple_gas (tuple_len : Z) : GM unit :=
  try_consume (tuple_len * TUPLE_ENTRY_GAS_PRICE).

(** One turn of the loop of [load_cell_impl]; [continue] is the next turn, reached
    only when [library_loaded] is false. *)
Definition load_cell_turn (consume : Z -> GM unit) (mode : LoadMode)
    (continue : Cell -> GM Cell) (library_loaded : bool) (cell : Cell) : GM Cell :=
  (if use_gas mode then
     let* is_new := gets (fun g => bool_decide (repr_hash cell ∉ loaded_cells g)) in
     modify (fun g => set_loaded ({[repr_hash cell]} ∪ loaded_cells g) g) ;;
     consume (if is_new then NEW_CELL_GAS else OLD_CELL_GAS)
   else ret tt) ;;
  if negb (resolve mode) then ret cell
  else
    match cell_type cell with
    | Ordinary => ret cell
    | LibraryReference =>
        if negb library_loaded then
          let* library_hash := of_result (get_library_hash cell) in
          let* libs := gets libraries in
          let* found := of_result (libs library_hash) in
          match found with
          | None =>
              modify (put_missing (Some library_hash)) ;;
              raise CellUnderflow
          | Some library_cell => continue library_cell
          end
        else raise CellUnderflow
    | _ => raise CellUnderflow
    end.

(** The loop runs at most twice: the second turn has [library_loaded] set. *)
Definition load_cell_impl (cell : Cell) (mode : LoadMode) : GM Cell :=
  load_cell_turn try_consume mode
    (load_cell_turn try_consume mode (fun _ => raise CellUnderflow) true) false cell.

Definition load_cell_as_slice (cell : Cell) (mode : LoadMode) : GM OwnedCellSlice :=
  let* cell := load_cell_impl cell mode in
  ret (new_allow_exotic cell).

(** ** [LimitedGasConsumer]: the main consumer and what may still be charged *)

Record LimitedGasConsumer := mkLimited { main_gas : GasConsumer; remaining : Z }.

Definition limited_try_consume (amount : Z) : MS LimitedGasConsumer Error unit :=
  fun l =>
    let amount := truncate_gas amount in
    let consumed := Z.min amount (remaining l) in
    match try_consume consumed (main_gas l) with
    | (Err e, g) => (Err e, mkLimited g (remaining l))
    | (Ok _, g) =>
        let remaining := remaining l - consumed in
        if remaining =? 0 then
          (Ok tt, mkLimited (consume_free_gas (amount - consumed) g).2 remaining)
        else (Ok tt, mkLimited g remaining)
    end.

(** [LimitedGasConsumer::load_cell_impl]: the loop of [load_cell_impl] with the other
    [try_consume]; the set of loaded cells and the libraries are those of the main consumer. *)
Definition on_main {A} (m : GM A) : MS LimitedGasConsumer Error A :=
  zoom main_gas (fun g l => mkLimited g (remaining l)) m.

Definition limited_load_turn (mode : LoadMode) (continue : Cell -> MS LimitedGasConsumer Error Cell)
    (library_loaded : bool) (cell : Cell) : MS LimitedGasConsumer Error Cell :=
  (if use_gas mode then
     let* is_new := on_main (gets (fun g => bool_decide (repr_hash cell ∉ loaded_cells g))) in
     on_main (modify (fun g => set_loaded ({[repr_hash cell]} ∪ loaded_cells g) g)) ;;
     limited_try_consume (if is_new then NEW_CELL_GAS else OLD_CELL_GAS)
   else ret tt) ;;
  if negb (resolve mode) then ret cell
  else
    match cell_type cell with
    | Ordinary => ret cell
    | LibraryReference =>
        if negb library_loaded then
          let* library_hash := of_result (get_library_hash cell) in
          let* libs := on_main (gets libraries) in
          let* found := of_result (libs library_hash) in
          match found with
          | None =>
              on_main (modify (put_missing (Some library_hash))) ;;
              raise CellUnderflow
          | Some library_cell => continue library_cell
          end
        else raise CellUnderflow
    | _ => raise CellUnderflow
    end.

Definition limited_load_cell (cell : Cell) (mode : LoadMode) : MS LimitedGasConsumer Error Cell :=
  limited_load_turn mode
    (limited_load_turn mode (fun _ => raise CellUnderflow) true) false cell.

(** [try_get_extra_balance_consumer]: the counter, then a limited consumer. *)
Definition try_get_extra_balance_consumer : GM (option Z) :=
  modify (fun g => set_counters (chksign_counter g) (free_gas_consumed g)
                     (get_extra_balance_counter g + 1) g) ;;
  let* n := gets get_extra_balance_counter in
  ret (if n <=? CHEAP_GET_BALANCE_CALLS then Some CHEAP_GET_BALANCE_GAS_THRESHOLD
       else None).

(** ** Child consumers *)

Record GasConsumerDeriveParams := mkDerive {
  derive_gas_max : Z; derive_gas_limit : Z; isolate : bool
}.

Inductive ParentGasConsumer :=
| Isolated (g : GasConsumer)
| Shared (g : GasConsumer).

Definition derive (params : GasConsumerDeriveParams) : MS GasConsumer VmError ParentGasConsumer :=
  if isolate params then
    let* free := gets free_gas_consumed in
    map_err CellError (try_consume free) ;;
    let* gas_remaining := gets gas_remaining in
    ensure (0 <=? gas_remaining) OutOfGas ;;
    modify (set_counters 0 0 0) ;;
    let* parent := gets id in
    let child := mkGasParams (Z.min (derive_gas_max params) gas_remaining)
                   (Z.min (derive_gas_limit params) gas_remaining) 0 (gas_price parent) in
    modify (fun _ => with_libraries child (libraries parent)) ;;
    ret (Isolated parent)
  else
    let* gas_remaining := gets gas_remaining in
    ensure (0 <=? gas_remaining) OutOfGas ;;
    let gas_max' := Z.min (derive_gas_max params) gas_remaining in
    let gas_limit' := Z.min (derive_gas_limit params) gas_remaining in
    let* parent := gets id in
    modify (fun g =>
      mkGas gas_max' gas_limit' 0 gas_limit' gas_limit' (gas_price g) (loaded_cells g)
        (libraries g) (chksign_counter g) (free_gas_consumed g)
        (get_extra_balance_counter g) (missing_library g)) ;;
    ret (Shared (set_loaded ∅ parent)).

Record RestoredGasConsumer := mkRestored { r_gas_consumed : Z; r_gas_limit : Z }.

Definition parent_consumer (p : ParentGasConsumer) : GasConsumer :=
  match p with Isolated g | Shared g => g end.

Definition restore (parent : ParentGasConsumer) : MS GasConsumer VmError RestoredGasConsumer :=
  fun self =>
    let meta := mkRestored (consumed self) (gas_limit self) in
    let merged :=
      match parent with
      | Shared p => set_loaded (loaded_cells self) p
      | Isolated p => p
      end in
    let merged :=
      match missing_library merged, missing_library self with
      | None, Some lib => put_missing (Some lib) merged
      | _, _ => merged
      end in
    (Ok meta, set_counters (chksign_counter self) (free_gas_consumed self)
                (get_extra_balance_counter self) merged).
End Gas.

(** ** Making cells: [impl CellContext for GasConsumer] *)

Section Build.
Context `{SL : SliceLib}.

Definition finalize_cell (parts : CellParts) : GM Cell :=
  try_consume BUILD_CELL_GAS ;;
  of_result (Cells.finalize_cell parts).

(** [builder.build_ext(&st.gas)]. *)
Definition build_ext (b : CellBuilder) : GM Cell :=
  let* parts := of_result (builder_parts b) in
  finalize_cell parts.
End Build.
End Gas.
