(* ===== verification/VmRegs.v ===== *)
(** * Control registers (cont.rs, [ControlRegs])

    The operations on the register page [c0..c3], [c4], [c5], [c7].  The arrays are
    indexed through [get_c]/[put_c] and [get_data]/[put_data]. *)

From S2P Require Import Prelude External Values.

Open Scope vm_scope.

Module Regs.
Section Regs.
Context `{CL : CellLib}.
Implicit Types (r : ControlRegs).

Definition CONT_REG_COUNT : Z := 4.
Definition DATA_REG_OFFSET : Z := 4.
Definition DATA_REG_COUNT : Z := 2.
(** [DATA_REG_RANGE.contains(&i)]. *)
Definition in_data_range (i : Z) : bool :=
  (DATA_REG_OFFSET <=? i) && (i <? DATA_REG_OFFSET + DATA_REG_COUNT).

(** [self.c[i]] and [self.d[i]]. *)
Definition get_c r (i : Z) : option cont :=
  match i with 0 => c0 r | 1 => c1 r | 2 => c2 r | 3 => c3 r | _ => None end.
Definition put_c (i : Z) (c : option cont) r : ControlRegs :=
  match i with
  | 0 => mkRegs c (c1 r) (c2 r) (c3 r) (d0 r) (d1 r) (c7 r)
  | 1 => mkRegs (c0 r) c (c2 r) (c3 r) (d0 r) (d1 r) (c7 r)
  | 2 => mkRegs (c0 r) (c1 r) c (c3 r) (d0 r) (d1 r) (c7 r)
  | 3 => mkRegs (c0 r) (c1 r) (c2 r) c (d0 r) (d1 r) (c7 r)
  | _ => r
  end.
Definition get_data r (i : Z) : option Cell :=
  match i with 0 => d0 r | 1 => d1 r | _ => None end.
Definition put_data (i : Z) (d : option Cell) r : ControlRegs :=
  match i with
  | 0 => mkRegs (c0 r) (c1 r) (c2 r) (c3 r) d (d1 r) (c7 r)
  | 1 => mkRegs (c0 r) (c1 r) (c2 r) (c3 r) (d0 r) d (c7 r)
  | _ => r
  end.
Definition put_c7 (t : option Tuple) r : ControlRegs :=
  mkRegs (c0 r) (c1 r) (c2 r) (c3 r) (d0 r) (d1 r) t.

Definition is_valid_idx (i : Z) : bool :=
  (i <? CONT_REG_COUNT) || in_data_range i || (i =? 7).

(** [merge_stack_value], [merge_cell_value]: the pointer comparison only saves a
    clone of an equal value. *)
Definition merge_value {A} (lhs rhs : option A) : option A :=
  match rhs with Some _ => rhs | None => lhs end.

Definition merge r (other : ControlRegs) : ControlRegs :=
  mkRegs (merge_value (c0 r) (c0 other)) (merge_value (c1 r) (c1 other))
    (merge_value (c2 r) (c2 other)) (merge_value (c3 r) (c3 other))
    (merge_value (d0 r) (d0 other)) (merge_value (d1 r) (d1 other))
    (merge_value (c7 r) (c7 other)).

Definition preclear_value {A B} (lhs : option A) (rhs : option B) : option A :=
  match rhs with Some _ => None | None => lhs end.

Definition preclear r (other : ControlRegs) : ControlRegs :=
  mkRegs (preclear_value (c0 r) (c0 other)) (preclear_value (c1 r) (c1 other))
    (preclear_value (c2 r) (c2 other)) (preclear_value (c3 r) (c3 other))
    (preclear_value (d0 r) (d0 other)) (preclear_value (d1 r) (d1 other))
    (preclear_value (c7 r) (c7 other)).

Definition set (i : Z) (v : value) : MS ControlRegs VmError unit :=
  if i <? CONT_REG_COUNT then
    let* c := of_result (into_cont v) in
    modify (put_c i (Some c))
  else if in_data_range i then
    let* c := of_result (into_cell v) in
    modify (put_data (i - DATA_REG_OFFSET) (Some c))
  else if i =? 7 then
    let* t := of_result (into_tuple v) in
    modify (put_c7 (Some t))
  else raise (ControlRegisterOutOfRange i).

(** [set_c], [set_d], [get_d] for other crates; [i.wrapping_sub(4)] on [usize]. *)
Definition set_c (i : Z) (c : cont) r : bool * ControlRegs :=
  if i <? CONT_REG_COUNT then (true, put_c i (Some c) r) else (false, r).
Definition set_d (i : Z) (c : Cell) r : bool * ControlRegs :=
  let i := wrap_u 64 (i - DATA_REG_OFFSET) in
  if i <? DATA_REG_COUNT then (true, put_data i (Some c) r) else (false, r).
Definition get_d (i : Z) r : option Cell :=
  let i := wrap_u 64 (i - DATA_REG_OFFSET) in
  if i <? DATA_REG_COUNT then get_data r i else None.

Definition get_as_stack_value (i : Z) r : option value :=
  if i <? CONT_REG_COUNT then option_map VCont (get_c r i)
  else if in_data_range i then option_map VCell (get_data r (i - DATA_REG_OFFSET))
  else if i =? 7 then option_map VTuple (c7 r)
  else None.

(** [define_c0], [define_c1], [define_c2]. *)
Definition define_c (i : Z) (c : option cont) r : ControlRegs :=
  match get_c r i with
  | None => put_c i c r
  | Some _ => r
  end.

Definition define (i : Z) (v : value) : MS ControlRegs VmError unit :=
  if i <? CONT_REG_COUNT then
    let* c := of_result (into_cont v) in
    let* old := gets (fun r => get_c r i) in
    ensure (negb (bool_decide (is_Some old))) ControlRegisterRedefined ;;
    modify (put_c i (Some c))
  else if in_data_range i then
    let* c := of_result (into_cell v) in
    let* old := gets (fun r => get_data r (i - DATA_REG_OFFSET)) in
    ensure (negb (bool_decide (is_Some old))) ControlRegisterRedefined ;;
    modify (put_data (i - DATA_REG_OFFSET) (Some c))
  else if i =? 7 then
    let* t := of_result (into_tuple v) in
    modify (fun r => match c7 r with None => put_c7 (Some t) r | Some _ => r end)
  else raise (ControlRegisterOutOfRange i).

Definition get_c7_params r : result VmError Tuple :=
  match c7 r with
  | None => Err (ControlRegisterOutOfRange 7)
  | Some c7 => try_get_tuple_range c7 0 0 255
  end.
End Regs.
End Regs.

Section Lemmas.
Context `{CL : CellLib}.
Implicit Types (r s : ControlRegs).

Lemma merge_default_r r : Regs.merge r regs_default = r.
Proof. by destruct r. Qed.

Lemma preclear_default_r r : Regs.preclear r regs_default = r.
Proof. by destruct r. Qed.

Lemma merge_assoc r s t :
  Regs.merge (Regs.merge r s) t = Regs.merge r (Regs.merge s t).
Proof. destruct r, s, t; unfold Regs.merge, Regs.merge_value; cbn; f_equal; by repeat case_match. Qed.

Lemma merge_preclear r s : Regs.merge (Regs.preclear r s) s = Regs.merge r s.
Proof.
  destruct r, s; unfold Regs.merge, Regs.preclear, Regs.merge_value, Regs.preclear_value;
    cbn; f_equal; by repeat case_match.
Qed.

Lemma get_put_c i c r : 0 <= i < 4 -> Regs.get_c (Regs.put_c i c r) i = c.
Proof.
  intros H. assert (i = 0 \/ i = 1 \/ i = 2 \/ i = 3) as [->|[->|[->| ->]]] by lia; done.
Qed.

Lemma get_put_c_ne i j c r : i <> j -> Regs.get_c (Regs.put_c i c r) j = Regs.get_c r j.
Proof.
  intros H. destruct i as [|[[]|[]|]|]; try done; destruct j as [|[[]|[]|]|]; done.
Qed.

(** A register that is set reads back, and a defined one keeps its first value. *)
Lemma set_get i v r r' : 0 <= i ->
  Regs.set i v r = (Ok tt, r') -> Regs.get_as_stack_value i r' = Some v.
Proof.
  intros Hi. unfold Regs.set, Regs.get_as_stack_value, bind, of_result, modify, raise.
  unfold Regs.CONT_REG_COUNT. destruct (Z.ltb_spec i 4).
  - destruct v; cbn; try done. intros [= <-]. by rewrite get_put_c by lia.
  - destruct (Regs.in_data_range i) eqn:Hd.
    + unfold Regs.in_data_range, Regs.DATA_REG_OFFSET, Regs.DATA_REG_COUNT in *.
      zify_bool. destruct v; cbn; try done. intros [= <-].
      assert (i = 4 \/ i = 5) as [-> | ->] by lia; done.
    + destruct (Z.eqb_spec i 7); [|done]. destruct v; cbn; try done. by intros [= <-].
Qed.
End Lemmas.
