(* ===== verification/VmState.v ===== *)
(** * The VM state and the transfer of control (state.rs, cont.rs)

    [VmState] with its stack, registers, gas and parent VM; calls, jumps, returns,
    loops and exceptions as computations on it.  The debug writer of the state is
    left out: it only receives text. *)

From S2P Require Import Prelude External Values VmStack VmGas VmRegs.

Open Scope vm_scope.

(** [VmVersion] (smc_info.rs); the ranges used are all of the form [n..]. *)
Inductive VmVersion := Everscale (version : Z) | Ton (version : Z).

Definition is_ton (v : VmVersion) (from : Z) : bool :=
  match v with Ton version => from <=? version | Everscale _ => false end.

(** [BehaviourModifiers]; the log mask of the feature [tracing] only selects output. *)
Record BehaviourModifiers := mkModifiers {
  stop_on_accept : bool;
  chksig_always_succeed : bool;
  signature_with_id : option Z
}.

(** [codepage(n)]: only code page 0 exists; a page is represented by its id. *)
Definition codepage (n : Z) : option Z := if n =? 0 then Some 0 else None.

(** [SaveCr]. *)
Definition SAVE_NONE : Z := 0.
Definition SAVE_C0 : Z := 1.
Definition SAVE_C1 : Z := 2.
Definition SAVE_C2 : Z := 4.
Definition SAVE_C0_C1 : Z := Z.lor SAVE_C0 SAVE_C1.
Definition SAVE_FULL : Z := Z.lor SAVE_C0_C1 SAVE_C2.
(** [mode.contains(flag)]. *)
Definition save_contains (mode flag : Z) : bool := Z.land mode flag =? flag.

Section State.
Context `{CL : CellLib}.

Record CommittedState := mkCommitted { c4 : Cell; c5 : Cell }.

(** [ParentVmState]. *)
Inductive ParentVmState := mkParent {
  p_code : OwnedCellSlice;
  p_stack : list value;
  p_cr : ControlRegs;
  p_committed_state : option CommittedState;
  p_steps : Z;
  p_quit0 : cont;
  p_quit1 : cont;
  p_gas : Gas.ParentGasConsumer;
  p_cp : Z;
  return_data : bool;
  return_actions : bool;
  return_gas : bool;
  return_values : option Z;
  p_parent : option ParentVmState
}.

(** [VmState]. *)
Record VmState := mkState {
  code : OwnedCellSlice;
  throw_on_code_access : bool;
  stack : list value;
  cr : ControlRegs;
  committed_state : option CommittedState;
  steps : Z;
  quit0 : cont;
  quit1 : cont;
  gas : Gas.GasConsumer;
  cp : Z;
  modifiers : BehaviourModifiers;
  version : VmVersion;
  parent : option ParentVmState
}.

Definition VM := MS VmState VmError.

Definition MAX_DATA_DEPTH : Z := 512.

(** Field updates. *)
Definition set_code_field (x : OwnedCellSlice) (s : VmState) : VmState :=
  mkState x (throw_on_code_access s) (stack s) (cr s) (committed_state s) (steps s)
    (quit0 s) (quit1 s) (gas s) (cp s) (modifiers s) (version s) (parent s).
Definition set_stack (x : list value) (s : VmState) : VmState :=
  mkState (code s) (throw_on_code_access s) x (cr s) (committed_state s) (steps s)
    (quit0 s) (quit1 s) (gas s) (cp s) (modifiers s) (version s) (parent s).
Definition set_cr (x : ControlRegs) (s : VmState) : VmState :=
  mkState (code s) (throw_on_code_access s) (stack s) x (committed_state s) (steps s)
    (quit0 s) (quit1 s) (gas s) (cp s) (modifiers s) (version s) (parent s).
Definition set_committed (x : option CommittedState) (s : VmState) : VmState :=
  mkState (code s) (throw_on_code_access s) (stack s) (cr s) x (steps s)
    (quit0 s) (quit1 s) (gas s) (cp s) (modifiers s) (version s) (parent s).
Definition set_steps (x : Z) (s : VmState) : VmState :=
  mkState (code s) (throw_on_code_access s) (stack s) (cr s) (committed_state s) x
    (quit0 s) (quit1 s) (gas s) (cp s) (modifiers s) (version s) (parent s).
Definition set_gas (x : Gas.GasConsumer) (s : VmState) : VmState :=
  mkState (code s) (throw_on_code_access s) (stack s) (cr s) (committed_state s) (steps s)
    (quit0 s) (quit1 s) x (cp s) (modifiers s) (version s) (parent s).
Definition set_cp (x : Z) (s : VmState) : VmState :=
  mkState (code s) (throw_on_code_access s) (stack s) (cr s) (committed_state s) (steps s)
    (quit0 s) (quit1 s) (gas s) x (modifiers s) (version s) (parent s).
Definition set_parent (x : option ParentVmState) (s : VmState) : VmState :=
  mkState (code s) (throw_on_code_access s) (stack s) (cr s) (committed_state s) (steps s)
    (quit0 s) (quit1 s) (gas s) (cp s) (modifiers s) (version s) x.

(** [SafeRc::make_mut(&mut st.stack)], [st.gas.f()?] and [st.cr.f()?]. *)
Definition on_stack {A} (m : MS (list value) VmError A) : VM A := zoom stack set_stack m.
Definition on_gas {A} (m : MS Gas.GasConsumer Error A) : VM A :=
  zoom gas set_gas (map_err CellError m).
Definition on_gas_vm {A} (m : MS Gas.GasConsumer VmError A) : VM A := zoom gas set_gas m.
Definition on_cr {A} (m : MS ControlRegs VmError A) : VM A := zoom cr set_cr m.

(** [std::mem::take(&mut self.code)], [self.take_stack()]. *)
Definition take_code : VM OwnedCellSlice :=
  let* c := gets code in modify (set_code_field slice_default) ;; ret c.
Definition take_stack : VM (list value) :=
  let* s := gets stack in modify (set_stack []) ;; ret s.

(** [code.range_mut().skip_first(bits, refs)], the result only asserted. *)
Definition code_skip (bits refs : Z) : VM unit :=
  modify (fun s =>
    match skip_first (range (code s)) bits refs with
    | Ok r => set_code_field (set_range r (code s)) s
    | Err _ => s
    end).

(** [cont_stack.move_from_stack(&mut st.stack, n)]: the extended stack. *)
Definition move_args (n : Z) (cont_stack : list value) : VM (list value) :=
  fun s => match Stack.move_from_stack n (cont_stack, stack s) with
           | (Err e, (_, rest)) => (Err e, set_stack rest s)
           | (Ok _, (moved, rest)) => (Ok moved, set_stack rest s)
           end.

Definition get_reg (i : Z) : VM (option cont) := gets (fun s => Regs.get_c (cr s) i).
Definition put_reg (i : Z) (c : option cont) : VM unit :=
  modify (fun s => set_cr (Regs.put_c i c (cr s)) s).

Definition try_commit : VM bool :=
  fun s =>
    match d0 (cr s), d1 (cr s) with
    | Some c4, Some c5 =>
        if (level c4 =? 0) && (level c5 =? 0) && (repr_depth c4 <=? MAX_DATA_DEPTH)
           && (repr_depth c5 <=? MAX_DATA_DEPTH)
        then (Ok true, set_committed (Some (mkCommitted c4 c5)) s)
        else (Ok false, s)
    | _, _ => (Ok false, s)
    end.

Definition force_commit : VM unit :=
  let* b := try_commit in
  ensure b (CellError CellOverflow).

Definition ref_to_cont (c : Cell) : VM cont :=
  let* code := on_gas (Gas.load_cell_as_slice c LoadMode_Full) in
  let* id := gets cp in
  ret (simple code id).

Definition require_ton (from : Z) : VM unit :=
  let* v := gets version in ensure (is_ton v from) InvalidOpcode.

(** Defining save-list entries of a continuation that may lack control data
    ([ArgContExt] is put around it then). *)
Definition with_save (f : ControlRegs -> ControlRegs) (c : cont) : cont :=
  match get_control_data c with
  | None => ArgContExt (mkData None None (f regs_default) None) c
  | Some data =>
      set_control_data (mkData (nargs data) (cd_stack data) (f (save data)) (cd_cp data)) c
  end.

Definition c1_envelope (c : cont) (save : bool) : VM cont :=
  let* regs := gets cr in
  let c := if save
           then with_save (fun r => Regs.define_c 1 (c1 regs) (Regs.define_c 0 (c0 regs) r)) c
           else c in
  put_reg 1 (Some c) ;;
  ret c.

Definition c1_envelope_if (cond : bool) (c : cont) (save : bool) : VM cont :=
  if cond then c1_envelope c save else ret c.

Definition c1_save_set : VM unit :=
  let* regs := gets cr in
  (match c0 regs with
   | Some c0 => put_reg 0 (Some (with_save (Regs.define_c 1 (c1 regs)) c0))
   | None => ret tt
   end) ;;
  let* new_c0 := get_reg 0 in
  put_reg 1 new_c0.

Definition extract_cc (mode : Z) (stack_copy nargs : option N) : VM cont :=
  let* depth := gets (fun s => Stack.depth (stack s)) in
  let* new_stack :=
    match stack_copy with
    | Some n =>
        let n := Z.of_N n in
        if n =? 0 then ret None
        else if negb (n =? depth) then
          let* stack := on_stack (Stack.split_top n) in
          on_gas (Gas.try_consume_stack_gas (Some stack)) ;;
          ret (Some stack)
        else let* stack := take_stack in ret (Some stack)
    | None => let* stack := take_stack in ret (Some stack)
    end in
  let* code := take_code in
  let* saved_stack := take_stack in
  let* id := gets cp in
  (match new_stack with
   | Some new_stack => modify (set_stack new_stack)
   | None => ret tt
   end) ;;
  let* saved0 :=
    (if save_contains mode SAVE_C0 then
       let* old := get_reg 0 in
       let* q := gets quit0 in
       put_reg 0 (Some q) ;; ret old
     else ret None) in
  let* saved1 :=
    (if save_contains mode SAVE_C1 then
       let* old := get_reg 1 in
       let* q := gets quit1 in
       put_reg 1 (Some q) ;; ret old
     else ret None) in
  let* saved2 :=
    (if save_contains mode SAVE_C2 then
       let* old := get_reg 2 in
       put_reg 2 None ;; ret old
     else ret None) in
  ret (OrdCont
         (mkData nargs (Some saved_stack)
            (mkRegs saved0 saved1 saved2 None None None None) (Some id))
         code).

Definition force_cp (n : Z) : VM unit :=
  let* page := of_option InvalidOpcode (codepage n) in
  modify (set_cp page).

(** [set_code]. *)
Definition set_code (code : OwnedCellSlice) (cp : Z) : VM unit :=
  modify (set_code_field code) ;;
  force_cp cp.

Definition adjust_cr (save : ControlRegs) : VM unit :=
  modify (fun s => set_cr (Regs.merge (cr s) save) s).
Definition preclear_cr (save : ControlRegs) : VM unit :=
  modify (fun s => set_cr (Regs.preclear (cr s) save) s).

Definition set_c0 (c : cont) : VM unit := put_reg 0 (Some c).

(** [Cont::jump] of each continuation: the next continuation, if any, and the
    exit code. *)
Definition cont_jump (self : cont) (exit_code : Z) : VM (option cont * Z) :=
  match self with
  | QuitCont code => ret (None, Z.lnot code)
  | ExcQuitCont =>
      let* r := try_ms (on_stack (Stack.pop_smallint_range 0 65535)) in
      let n := match r with Ok n => n | Err e => exception_code (as_exception e) end in
      ret (None, Z.lnot n)
  | PushIntCont v next =>
      on_stack (Stack.push_int v) ;;
      ret (Some next, exit_code)
  | RepeatCont count body after =>
      if count =? 0 then ret (Some after, exit_code)
      else if has_c0 body then ret (Some body, exit_code)
      else
        set_c0 (RepeatCont (count - 1) body after) ;;
        ret (Some body, exit_code)
  | AgainCont body =>
      (if negb (has_c0 body) then set_c0 (AgainCont body) else ret tt) ;;
      ret (Some body, exit_code)
  | UntilCont body after =>
      let* terminated := on_stack Stack.pop_bool in
      if terminated then ret (Some after, exit_code)
      else
        (if negb (has_c0 body) then set_c0 (UntilCont body after) else ret tt) ;;
        ret (Some body, exit_code)
  | WhileCont check_cond cond body after =>
      let* next :=
        (if check_cond then
           let* b := on_stack Stack.pop_bool in
           ret (if b then Some body else None)
         else ret (Some cond)) in
      match next with
      | None => ret (Some after, exit_code)
      | Some next =>
          (if negb (has_c0 next)
           then set_c0 (WhileCont (negb check_cond) cond body after) else ret tt) ;;
          ret (Some next, exit_code)
      end
  | ArgContExt data ext =>
      adjust_cr (save data) ;;
      (match cd_cp data with Some cp => force_cp cp | None => ret tt end) ;;
      ret (Some ext, exit_code)
  | OrdCont data code =>
      adjust_cr (save data) ;;
      let* cp := of_option InvalidOpcode (cd_cp data) in
      set_code code cp ;;
      ret (None, exit_code)
  end.

(** [pass_args.unwrap_or_default()]. *)
Definition or_zero (o : option N) : Z := Z.of_N (default 0%N o).

(** [data.stack.is_some() || data.nargs.is_some()]. *)
Definition needs_adjust (data : ControlData) : bool :=
  bool_decide (is_Some (cd_stack data)) || bool_decide (is_Some (nargs data)).

(** The argument checks [call_ext] and [adjust_jump_cont] share. *)
Definition check_args (data : ControlData) (pass_args : option N) (depth : Z) : VM unit :=
  ensure ((or_zero pass_args <=? depth) && (or_zero (nargs data) <=? depth))
    (StackUnderflow (Z.max (or_zero pass_args) (or_zero (nargs data)))) ;;
  match pass_args with
  | Some pass => ensure (or_zero (nargs data) <=? Z.of_N pass) (StackUnderflow (Z.of_N pass))
  | None => ret tt
  end.

(** [match &mut data.stack] of [adjust_jump_cont]. *)
Definition adjust_stack (cont_stack : option (list value)) (next_depth depth : Z)
  : VM unit :=
  match cont_stack with
  | Some ((_ :: _) as cont_stack) =>
      let* moved := move_args next_depth cont_stack in
      on_gas (Gas.try_consume_stack_gas (Some moved)) ;;
      modify (set_stack moved)
  | _ =>
      if next_depth <? depth then
        on_stack (Stack.drop_bottom (depth - next_depth)) ;;
        on_gas (Gas.try_consume_stack_depth_gas next_depth)
      else ret tt
  end.

(** [SafeRc::get_mut] only lets the source reuse the stack of an unshared
    continuation; the continuation returned is the given one in both cases. *)
Definition adjust_jump_cont (c : cont) (pass_args : option N) : VM cont :=
  let* depth := gets (fun s => Stack.depth (stack s)) in
  match get_control_data c with
  | Some data =>
      check_args data pass_args depth ;;
      preclear_cr (save data) ;;
      let next_depth := match nargs data with
                        | Some n => Z.of_N n
                        | None =>
                            match pass_args with Some pass => Z.of_N pass | None => depth end
                        end in
      adjust_stack (cd_stack data) next_depth depth ;;
      ret c
  | None =>
      match pass_args with
      | Some pass =>
          let pass := Z.of_N pass in
          let* depth_diff := of_option (StackUnderflow pass) (checked_sub_u depth pass) in
          (if 0 <? depth_diff then
             on_stack (Stack.drop_bottom depth_diff) ;;
             on_gas (Gas.try_consume_stack_depth_gas pass)
           else ret tt) ;;
          ret c
      | None => ret c
      end
  end.

(** The [while let] loop of [do_jump_to].  [fuel] bounds the number of turns; a
    continuation is replaced at most [cont_depth] times. *)
Fixpoint jump_loop (fuel : nat) (c : cont) (count : Z) (exit_code : Z)
  : VM (option Z) :=
  match fuel with
  | O => ret None
  | S fuel =>
      let* (next, exit_code) := cont_jump c exit_code in
      match next with
      | None => ret (Some exit_code)
      | Some next =>
          let count := count + 1 in
          (if Gas.FREE_NESTED_CONT_JUMP <? count then on_gas (Gas.try_consume 1)
           else ret tt) ;;
          let* next :=
            (match get_control_data next with
             | Some data =>
                 if needs_adjust data then adjust_jump_cont next None else ret next
             | None => ret next
             end) in
          jump_loop fuel next count exit_code
      end
  end.

Definition do_jump_to (c : cont) : VM Z :=
  let* r := jump_loop (S (cont_depth c)) c 0 0 in
  ret (default 0 r).

Definition jump_ext (c : cont) (pass_args : option N) : VM Z :=
  let* c := adjust_jump_cont c pass_args in
  do_jump_to c.

Definition jump (c : cont) : VM Z :=
  match get_control_data c with
  | Some data => if needs_adjust data then jump_ext c None else do_jump_to c
  | None => do_jump_to c
  end.

(** [match (pass_args, nargs)] of [call_ext]. *)
Definition copy_skip (pass_args nargs : option N) : option Z * Z :=
  match pass_args, nargs with
  | Some pass, Some copy => (Some (Z.of_N copy), Z.of_N pass - Z.of_N copy)
  | Some pass, None => (Some (Z.of_N pass), 0)
  | None, _ => (None, 0)
  end.

Definition call_ext (c : cont) (pass_args ret_args : option N) : VM Z :=
  let finish (new_stack : list value) (old_c0 : option cont) : VM Z :=
    let* code := take_code in
    let* id := gets cp in
    let* saved := gets stack in
    modify (set_stack new_stack) ;;
    put_reg 0 (Some (OrdCont (mkData ret_args (Some saved)
                                (Regs.put_c 0 old_c0 regs_default) (Some id)) code)) ;;
    do_jump_to c in
  match get_control_data c with
  | Some data =>
      match c0 (save data) with
      | Some _ => jump_ext c pass_args
      | None =>
          let* current_depth := gets (fun s => Stack.depth (stack s)) in
          check_args data pass_args current_depth ;;
          let* old_c0 := get_reg 0 in
          put_reg 0 None ;;
          preclear_cr (save data) ;;
          let '(copy, skip) := copy_skip pass_args (nargs data) in
          let* new_stack :=
            (match cd_stack data with
             | Some ((_ :: _) as new_stack) =>
                 let copy := default current_depth copy in
                 let* moved := move_args copy new_stack in
                 on_stack (Stack.pop_many skip) ;;
                 on_gas (Gas.try_consume_stack_gas (Some moved)) ;;
                 ret moved
             | _ =>
                 match copy with
                 | Some copy =>
                     let* new_stack := on_stack (Stack.split_top_ext copy skip) in
                     on_gas (Gas.try_consume_stack_gas (Some new_stack)) ;;
                     ret new_stack
                 | None => take_stack
                 end
             end) in
          finish new_stack old_c0
      end
  | None =>
      let* new_stack :=
        (match pass_args with
         | Some pass =>
             let* new_stack := on_stack (Stack.split_top (Z.of_N pass)) in
             on_gas (Gas.try_consume_stack_gas (Some new_stack)) ;;
             ret new_stack
         | None => take_stack
         end) in
      let* old_c0 := get_reg 0 in
      put_reg 0 None ;;
      finish new_stack old_c0
  end.

Definition call (c : cont) : VM Z :=
  let simple_call : VM Z :=
    let* code := take_code in
    let* id := gets cp in
    let* old_c0 := get_reg 0 in
    put_reg 0 (Some (OrdCont (mkData None None (Regs.put_c 0 old_c0 regs_default)
                                (Some id)) code)) ;;
    do_jump_to c in
  match get_control_data c with
  | Some data =>
      match c0 (save data) with
      | Some _ => jump c
      | None => if needs_adjust data then call_ext c None None else simple_call
      end
  | None => simple_call
  end.

Definition take_c0 : VM cont :=
  let* old := get_reg 0 in
  let* q := gets quit0 in
  put_reg 0 (Some q) ;;
  of_option InvalidOpcode old.

Definition take_c1 : VM cont :=
  let* old := get_reg 1 in
  let* q := gets quit1 in
  put_reg 1 (Some q) ;;
  of_option InvalidOpcode old.

(** [ret], [ret_ext], [ret_alt], [ret_alt_ext]. *)
Definition ret_ : VM Z := let* c := take_c0 in jump c.
Definition ret_ext (ret_args : option N) : VM Z := let* c := take_c0 in jump_ext c ret_args.
Definition ret_alt : VM Z := let* c := take_c1 in jump c.
Definition ret_alt_ext (ret_args : option N) : VM Z :=
  let* c := take_c1 in jump_ext c ret_args.

Definition repeat (body after : cont) (n : Z) : VM Z :=
  jump (if n =? 0 then after else RepeatCont n body after).

Definition until (body after : cont) : VM Z :=
  (if negb (has_c0 body) then put_reg 0 (Some (UntilCont body after)) else ret tt) ;;
  jump body.

Definition loop_while (cond body after : cont) : VM Z :=
  (if negb (has_c0 cond) then put_reg 0 (Some (WhileCont true cond body after))
   else ret tt) ;;
  jump cond.

Definition again (body : cont) : VM Z := jump (AgainCont body).

Definition throw_exception_with_arg (n : Z) (arg : value) : VM Z :=
  modify (set_stack [arg; VInt n]) ;;
  modify (set_code_field slice_default) ;;
  on_gas Gas.try_consume_exception_gas ;;
  let* c2 := get_reg 2 in
  let* c2 := of_option InvalidOpcode c2 in
  jump c2.

Definition throw_exception (n : Z) : VM Z := throw_exception_with_arg n (VInt 0).

(** No negation: an unhandled out-of-gas cannot be faked by the code. *)
Definition throw_out_of_gas : MS VmState VmError Z :=
  modify (fun s => set_stack [VInt (Gas.consumed (gas s))] s) ;;
  ret (exception_code ExcOutOfGas).
End State.
