(* ===== verification/ArithOps.v ===== *)
(** * Arithmetic instructions (instr/arithops.rs)

    The rounding division routines and every instruction of [ArithOps].  An operand
    decoded by the opcode pattern ([x], [y], [m], ..) is an argument, as in the
    source; Codepage.v decodes it. *)

From S2P Require Import Prelude External Values VmStack VmGas VmRegs VmState.

Open Scope vm_scope.

(** ** Rounding division *)

Inductive RoundMode := Floor | Nearest | Ceiling.

#[export] Instance RoundMode_eq_dec : EqDecision RoundMode.
Proof. solve_decision. Defined.

(** [RoundMode::from_args]. *)
Definition round_from_args (args : Z) : result VmError RoundMode :=
  if args =? 0 then Ok Floor
  else if args =? 1 then Ok Nearest
  else if args =? 2 then Ok Ceiling
  else Err InvalidOpcode.

(** [x.sign() == y.sign()]. *)
Definition same_sign (x y : Z) : bool := Z.sgn x =? Z.sgn y.

Definition nearest_rounding_required (r x y : Z) : bool :=
  if r =? 0 then false
  else
    match Z.compare (Z.abs (Z.shiftl r 1)) (Z.abs y) with
    | Gt => true
    | Eq => same_sign x y
    | Lt => false
    end.

Definition ceil_rounding_required (r y : Z) : bool := negb (r =? 0) && same_sign r y.

(** [div_floor] is [Z.div], [div_rem] is [Z.quot] with [Z.rem]. *)
Definition int_div (x y : Z) (m : RoundMode) : Z :=
  match m with
  | Floor => x / y
  | Nearest =>
      let q := Z.quot x y in
      let r := Z.rem x y in
      if nearest_rounding_required r x y
      then (if same_sign x y then q + 1 else q - 1) else q
  | Ceiling =>
      let q := Z.quot x y in
      let r := Z.rem x y in
      if ceil_rounding_required r y
      then (if same_sign x y then q + 1 else q - 1) else q
  end.

Definition int_mod (x y : Z) (m : RoundMode) : Z :=
  match m with
  | Floor => x mod y
  | Nearest =>
      let r := Z.rem x y in
      if nearest_rounding_required r x y
      then (if same_sign r y then r - y else r + y) else r
  | Ceiling =>
      let r := Z.rem x y in
      if ceil_rounding_required r y then r - y else r
  end.

Definition int_divmod (x y : Z) (m : RoundMode) : Z * Z :=
  match m with
  | Floor => (x / y, x mod y)
  | Nearest =>
      let q := Z.quot x y in
      let r := Z.rem x y in
      if nearest_rounding_required r x y
      then (if same_sign x y then q + 1 else q - 1, if same_sign r y then r - y else r + y)
      else (q, r)
  | Ceiling =>
      let q := Z.quot x y in
      let r := Z.rem x y in
      if ceil_rounding_required r y
      then (if same_sign x y then q + 1 else q - 1, r - y)
      else (q, r)
  end.

Definition int_rshift (x y : Z) (m : RoundMode) : Z :=
  match m with
  | Floor => Z.shiftr x y
  | Nearest | Ceiling => int_div x (Z.shiftl 1 y) m
  end.

Definition int_mod_pow2 (x y : Z) (m : RoundMode) : Z :=
  let pow2 := Z.shiftl 1 y in
  match m with
  | Floor => Z.land x (pow2 - 1)
  | Nearest | Ceiling => int_mod x pow2 m
  end.

Definition int_rshiftmod (x y : Z) (m : RoundMode) : Z * Z :=
  let pow2 := Z.shiftl 1 y in
  match m with
  | Floor => (Z.shiftr x y, Z.land x (pow2 - 1))
  | Nearest | Ceiling => int_divmod x pow2 m
  end.

Section Instructions.
Context `{CL : CellLib}.
#[local] Abbreviation SM := (MS (list value) VmError).

(** [ok!(..); Ok(0)] *)
Definition done_ {S A} (m : MS S VmError A) : MS S VmError Z := m ;; ret 0.

(** [_ if quiet => push_nan, _ => vm_bail!(IntegerOverflow)] *)
Definition nan_or_overflow (quiet : bool) (nans : SM unit) : SM unit :=
  if quiet then nans else raise IntegerOverflow.

Definition exec_push_tinyint4 (x : Z) : VM Z := done_ (on_stack (Stack.push_int x)).

Definition exec_push_int (args bits : Z) : VM Z :=
  let l := Z.land (wrap_u 16 args) 31 + 2 in
  let value_len := 3 + l * 8 in
  let* c := gets code in
  ensure (has_remaining (range c) (bits + value_len) 0) InvalidOpcode ;;
  code_skip bits 0 ;;
  let* cs := gets code in
  let* (int, r) := map_err CellError (of_result (load_bigint (range cs) (cell cs) value_len true)) in
  modify (set_code_field (set_range r cs)) ;;
  done_ (on_stack (Stack.push_int int)).

Definition exec_push_pow2 (x : Z) : VM Z := done_ (on_stack (Stack.push_int (Z.shiftl 1 x))).
Definition exec_push_nan : VM Z := done_ (on_stack Stack.push_nan).
Definition exec_push_pow2dec (x : Z) : VM Z :=
  done_ (on_stack (Stack.push_int (Z.shiftl 1 x - 1))).
Definition exec_push_negpow2 (x : Z) : VM Z :=
  done_ (on_stack (Stack.push_int (- Z.shiftl 1 x))).

Definition exec_add (quiet : bool) : VM Z :=
  done_ (on_stack (
    let* y := Stack.pop_int_or_nan in
    let* x := Stack.pop_int_or_nan in
    match x, y with
    | Some x, Some y => Stack.push_raw_int (x + y) quiet
    | _, _ => nan_or_overflow quiet Stack.push_nan
    end)).

Definition exec_sub (quiet : bool) : VM Z :=
  done_ (on_stack (
    let* y := Stack.pop_int_or_nan in
    let* x := Stack.pop_int_or_nan in
    match x, y with
    | Some x, Some y => Stack.push_raw_int (x - y) quiet
    | _, _ => nan_or_overflow quiet Stack.push_nan
    end)).

Definition exec_subr (quiet : bool) : VM Z :=
  done_ (on_stack (
    let* y := Stack.pop_int_or_nan in
    let* x := Stack.pop_int_or_nan in
    match x, y with
    | Some x, Some y => Stack.push_raw_int (y - x) quiet
    | _, _ => nan_or_overflow quiet Stack.push_nan
    end)).

Definition exec_negate (quiet : bool) : VM Z :=
  done_ (on_stack (
    let* x := Stack.pop_int_or_nan in
    match x with
    | Some x => Stack.push_raw_int (- x) quiet
    | None => nan_or_overflow quiet Stack.push_nan
    end)).

Definition exec_inc (quiet : bool) : VM Z :=
  done_ (on_stack (
    let* x := Stack.pop_int_or_nan in
    match x with
    | Some x => Stack.push_raw_int (x + 1) quiet
    | None => nan_or_overflow quiet Stack.push_nan
    end)).

Definition exec_dec (quiet : bool) : VM Z :=
  done_ (on_stack (
    let* x := Stack.pop_int_or_nan in
    match x with
    | Some x => Stack.push_raw_int (x - 1) quiet
    | None => nan_or_overflow quiet Stack.push_nan
    end)).

Definition exec_addint (y : Z) (quiet : bool) : VM Z :=
  done_ (on_stack (
    let* x := Stack.pop_int_or_nan in
    match x with
    | Some x => Stack.push_raw_int (x + y) quiet
    | None => nan_or_overflow quiet Stack.push_nan
    end)).

Definition exec_mulint (y : Z) (quiet : bool) : VM Z :=
  done_ (on_stack (
    let* x := Stack.pop_int_or_nan in
    match x with
    | Some x => Stack.push_raw_int (x * y) quiet
    | None => nan_or_overflow quiet Stack.push_nan
    end)).

Definition exec_mul (quiet : bool) : VM Z :=
  done_ (on_stack (
    let* y := Stack.pop_int_or_nan in
    let* x := Stack.pop_int_or_nan in
    match x, y with
    | Some x, Some y => Stack.push_raw_int (x * y) quiet
    | _, _ => nan_or_overflow quiet Stack.push_nan
    end)).

(** The local enums [Operation] of the division instructions. *)
Inductive Operation := OpDiv | OpMod | OpDivmod.

(** [match (m >> 2) & 0b11]: the operation and the flag [add]. *)
Definition decode_operation (m : Z) (ton4 : bool) : result VmError (Operation * bool) :=
  match Z.land (Z.shiftr m 2) 3 with
  | 0 => if ton4 then Ok (OpDivmod, true) else Err InvalidOpcode
  | 1 => Ok (OpDiv, false)
  | 2 => Ok (OpMod, false)
  | 3 => Ok (OpDivmod, false)
  | _ => Err InvalidOpcode
  end.

Definition two_nans : SM unit := Stack.push_nan ;; Stack.push_nan.

(** [push_nan] and, for the operations with two results, another one. *)
Definition op_nans (op : Operation) : SM unit :=
  Stack.push_nan ;;
  match op with OpDivmod => Stack.push_nan | _ => ret tt end.

(** [Some(w) => x += w, None if quiet => two NaNs, None => IntegerOverflow],
    where [add] is set. *)
Definition add_w (add : bool) (w : option Z) (quiet : bool) (x : Z)
    (k : Z -> SM unit) : SM unit :=
  if add then
    match w with
    | Some w => k (x + w)
    | None => nan_or_overflow quiet two_nans
    end
  else k x.

Definition pop_w (add : bool) : SM (option Z) :=
  if add then Stack.pop_int_or_nan else ret None.

Definition push_qr (qr : Z * Z) (quiet : bool) : SM unit :=
  Stack.push_raw_int (fst qr) quiet ;; Stack.push_raw_int (snd qr) quiet.

(** The arms of [match operation] for a divisor [y]. *)
Definition divide_push (op : Operation) (add : bool) (w : option Z) (x y : Z)
    (m : RoundMode) (quiet : bool) : SM unit :=
  match op with
  | OpDiv => Stack.push_raw_int (int_div x y m) quiet
  | OpMod => Stack.push_raw_int (int_mod x y m) quiet
  | OpDivmod => add_w add w quiet x (fun x => push_qr (int_divmod x y m) quiet)
  end.

(** The same for a shift by [y] bits. *)
Definition shift_push (op : Operation) (add : bool) (w : option Z) (x y : Z)
    (m : RoundMode) (quiet : bool) : SM unit :=
  match op with
  | OpDiv => Stack.push_raw_int (int_rshift x y m) quiet
  | OpMod => Stack.push_raw_int (int_mod_pow2 x y m) quiet
  | OpDivmod => add_w add w quiet x (fun x => push_qr (int_rshiftmod x y m) quiet)
  end.

Definition exec_divmod (m : Z) (quiet : bool) : VM Z :=
  let* round_mode := of_result (round_from_args (Z.land m 3)) in
  let* v := gets version in
  let* (op, add) := of_result (decode_operation m (is_ton v 4)) in
  done_ (on_stack (
    let* y := Stack.pop_int_or_nan in
    let* w := pop_w add in
    let* x := Stack.pop_int_or_nan in
    match x, y with
    | Some x, Some y =>
        if negb (y =? 0) then divide_push op add w x y round_mode quiet
        else nan_or_overflow quiet (op_nans op)
    | _, _ => nan_or_overflow quiet (op_nans op)
    end)).

(** The shift of [exec_shrmod] and [exec_mulshrmod]: immediate or popped, with the
    rounding mode reset for a shift by zero. *)
Definition imm_shift (imm : bool) (m : Z) : option Z * Z :=
  if imm then (Some (Z.land m 255 + 1), Z.shiftr m 8) else (None, m).

Definition pop_shift (y : option Z) : SM Z :=
  match y with
  | Some y => ret y
  | None => Stack.pop_smallint_range 0 256
  end.

Definition exec_shrmod (m : Z) (imm quiet : bool) : VM Z :=
  let (y, m) := imm_shift imm m in
  let* round_mode := of_result (round_from_args (Z.land m 3)) in
  let* v := gets version in
  let* (op, add) := of_result (decode_operation m (is_ton v 4)) in
  done_ (on_stack (
    let* y := pop_shift y in
    let round_mode := if y =? 0 then Floor else round_mode in
    let* w := pop_w add in
    let* x := Stack.pop_int_or_nan in
    match x with
    | Some x => shift_push op add w x y round_mode quiet
    | None => nan_or_overflow quiet (op_nans op)
    end)).

Definition exec_muldivmod (m : Z) (quiet : bool) : VM Z :=
  let* round_mode := of_result (round_from_args (Z.land m 3)) in
  let* v := gets version in
  let* (op, add) := of_result (decode_operation m (is_ton v 4)) in
  done_ (on_stack (
    let* z := Stack.pop_int_or_nan in
    let* w := pop_w add in
    let* y := Stack.pop_int_or_nan in
    let* x := Stack.pop_int_or_nan in
    match x, y, z with
    | Some x, Some y, Some z =>
        if negb (z =? 0) then divide_push op add w (x * y) z round_mode quiet
        else nan_or_overflow quiet (op_nans op)
    | _, _, _ => nan_or_overflow quiet (op_nans op)
    end)).

Definition exec_mulshrmod (m : Z) (imm quiet : bool) : VM Z :=
  let (z, m) := imm_shift imm m in
  let* round_mode := of_result (round_from_args (Z.land m 3)) in
  let* v := gets version in
  let* (op, add) := of_result (decode_operation m (is_ton v 4)) in
  done_ (on_stack (
    let* z := pop_shift z in
    let round_mode := if z =? 0 then Floor else round_mode in
    let* w := pop_w add in
    let* y := Stack.pop_int_or_nan in
    let* x := Stack.pop_int_or_nan in
    match x, y with
    | Some x, Some y => shift_push op add w (x * y) z round_mode quiet
    | _, _ => nan_or_overflow quiet (op_nans op)
    end)).

Definition exec_shldivmod (m : Z) (imm quiet : bool) : VM Z :=
  let (z, m) := imm_shift imm m in
  let* round_mode := of_result (round_from_args (Z.land m 3)) in
  let* v := gets version in
  let* (op, add) := of_result (decode_operation m (is_ton v 4)) in
  done_ (on_stack (
    let* z := pop_shift z in
    let* y := Stack.pop_int_or_nan in
    let* w := pop_w add in
    let* x := Stack.pop_int_or_nan in
    match x, y with
    | Some x, Some y =>
        if negb (y =? 0) then divide_push op add w (Z.shiftl x z) y round_mode quiet
        else nan_or_overflow quiet (op_nans op)
    | _, _ => nan_or_overflow quiet (op_nans op)
    end)).

Definition exec_minmax (mn mx q : bool) : VM Z :=
  done_ (on_stack (
    let* x := Stack.pop_int_or_nan in
    let* y := Stack.pop_int_or_nan in
    match x, y with
    | Some x, Some y =>
        let (x, y) := if y <? x then (y, x) else (x, y) in
        (if mn then Stack.push_raw (VInt x) else ret tt) ;;
        (if mx then Stack.push_raw (VInt y) else ret tt)
    | _, _ =>
        nan_or_overflow q
          ((if mn then Stack.push_nan else ret tt) ;;
           (if mx then Stack.push_nan else ret tt))
    end)).

Definition exec_abs (quiet : bool) : VM Z :=
  done_ (on_stack (
    let* x := Stack.pop_int_or_nan in
    match x with
    | Some x => Stack.push_raw_int (if x <? 0 then - x else x) quiet
    | None => nan_or_overflow quiet Stack.push_nan
    end)).
End Instructions.
