(* ===== verification/CmpOps.v ===== *)
(** * Comparison instructions (instr/cmpops.rs) *)

From S2P Require Import Prelude External Values VmStack VmGas VmRegs VmState ArithOps.

Open Scope vm_scope.

(** [cmp as i8]. *)
Definition ordering_code (c : comparison) : Z :=
  match c with Lt => -1 | Eq => 0 | Gt => 1 end.

Definition check_cmp (cmp : comparison) (mode : Z) : Z :=
  Z.land (Z.shiftr mode (4 + ordering_code cmp * 4)) 15 - 8.

Definition as_truncated_i64 (x : Z) : Z :=
  match to_i64 x with
  | Some x => x
  | None =>
      match Z.sgn x with
      | Z0 => 0
      | Zpos _ => I64_MAX
      | Zneg _ => I64_MIN
      end
  end.

(** The [mode] arguments of the opcodes. *)
Definition MODE_LESS : Z := 0x887.
Definition MODE_EQUAL : Z := 0x878.
Definition MODE_LEQ : Z := 0x877.
Definition MODE_GREATER : Z := 0x788.
Definition MODE_NEQ : Z := 0x787.
Definition MODE_GEQ : Z := 0x778.
Definition MODE_CMP : Z := 0x987.

Section Instructions.
Context `{CL : CellLib}.

Definition exec_sgn (quiet : bool) : VM Z :=
  done_ (on_stack (
    let* x := Stack.pop_int_or_nan in
    match x with
    | None =>
        ensure quiet IntegerOverflow ;;
        Stack.push_nan
    | Some x =>
        Stack.push_int (match Z.sgn x with Zneg _ => -1 | Z0 => 0 | Zpos _ => 1 end)
    end)).

Definition exec_cmp (mode : Z) (quiet : bool) : VM Z :=
  done_ (on_stack (
    let* y := Stack.pop_int_or_nan in
    let* x := Stack.pop_int_or_nan in
    match x, y with
    | Some x, Some y => Stack.push_int (check_cmp (x ?= y) mode)
    | _, _ => nan_or_overflow quiet Stack.push_nan
    end)).

Definition exec_cmp_int (y mode : Z) (quiet : bool) : VM Z :=
  done_ (on_stack (
    let* x := Stack.pop_int_or_nan in
    match x with
    | Some x => Stack.push_int (check_cmp (as_truncated_i64 x ?= y) mode)
    | None => nan_or_overflow quiet Stack.push_nan
    end)).

Definition exec_is_nan : VM Z :=
  done_ (on_stack (
    let* x := Stack.pop_int_or_nan in
    Stack.push_bool (match x with None => true | Some _ => false end))).

Definition exec_chk_nan : VM Z :=
  done_ (on_stack (
    let* int := Stack.pop_int in
    Stack.push_raw (VInt int))).
End Instructions.
