(* ===== verification/LogicOps.v ===== *)
(** * Shift and bitwise instructions (instr/logicops.rs) *)

From S2P Require Import Prelude External Values VmStack VmGas VmRegs VmState ArithOps.

Open Scope vm_scope.

Section Instructions.
Context `{CL : CellLib}.
#[local] Abbreviation SM := (MS (list value) VmError).

(** [match pop_int_or_nan { Some(x) => f(x), _ if quiet => push_nan, _ => bail }] *)
Definition unary_int (quiet : bool) (f : Z -> SM unit) : SM unit :=
  let* x := Stack.pop_int_or_nan in
  match x with
  | Some x => f x
  | None => nan_or_overflow quiet Stack.push_nan
  end.

Definition exec_lshift_tinyint8 (y : Z) (quiet : bool) : VM Z :=
  done_ (on_stack (unary_int quiet (fun x => Stack.push_raw_int (Z.shiftl x y) quiet))).

Definition exec_rshift_tinyint8 (y : Z) (quiet : bool) : VM Z :=
  done_ (on_stack (unary_int quiet (fun x => Stack.push_raw_int (Z.shiftr x y) quiet))).

Definition exec_lshift (quiet : bool) : VM Z :=
  done_ (on_stack (
    let* y := Stack.pop_smallint_range 0 1023 in
    unary_int quiet (fun x => Stack.push_raw_int (Z.shiftl x y) quiet))).

Definition exec_rshift (quiet : bool) : VM Z :=
  done_ (on_stack (
    let* y := Stack.pop_smallint_range 0 1023 in
    unary_int quiet (fun x => Stack.push_raw_int (Z.shiftr x y) quiet))).

Definition exec_pow2 (quiet : bool) : VM Z :=
  done_ (on_stack (
    let* y := Stack.pop_smallint_range 0 1023 in
    Stack.push_raw_int (Z.shiftl 1 y) quiet)).

Definition exec_and (quiet : bool) : VM Z :=
  done_ (on_stack (
    let* y := Stack.pop_int_or_nan in
    let* x := Stack.pop_int_or_nan in
    match x, y with
    | Some x, Some y => Stack.push_raw_int (Z.land x y) quiet
    | Some x, None | None, Some x =>
        if x =? 0 then Stack.push_zero else nan_or_overflow quiet Stack.push_nan
    | None, None => nan_or_overflow quiet Stack.push_nan
    end)).

Definition exec_or (quiet : bool) : VM Z :=
  done_ (on_stack (
    let* y := Stack.pop_int_or_nan in
    let* x := Stack.pop_int_or_nan in
    match x, y with
    | Some x, Some y => Stack.push_raw_int (Z.lor x y) quiet
    | Some x, None | None, Some x =>
        if (x <? 0) && (Z.abs x =? 1) then Stack.push_int (-1)
        else nan_or_overflow quiet Stack.push_nan
    | None, None => nan_or_overflow quiet Stack.push_nan
    end)).

Definition exec_xor (quiet : bool) : VM Z :=
  done_ (on_stack (
    let* y := Stack.pop_int_or_nan in
    let* x := Stack.pop_int_or_nan in
    match x, y with
    | Some x, Some y => Stack.push_raw_int (Z.lxor x y) quiet
    | _, _ => nan_or_overflow quiet Stack.push_nan
    end)).

Definition exec_not (quiet : bool) : VM Z :=
  done_ (on_stack (unary_int quiet (fun x => Stack.push_raw_int (Z.lnot x) quiet))).

(** [x.has_correct_sign(s) && x.bitsize(s) as u32 <= y] *)
Definition fits (s : bool) (y x : Z) : bool := has_correct_sign s x && (bitsize s x <=? y).

Definition exec_fits_tinyint8 (y : Z) (s quiet : bool) : VM Z :=
  done_ (on_stack (unary_int quiet (fun x =>
    if fits s y x then Stack.push_raw (VInt x)
    else nan_or_overflow quiet Stack.push_nan))).

Definition exec_fits (s quiet : bool) : VM Z :=
  done_ (on_stack (
    let* y := Stack.pop_smallint_range 0 1023 in
    unary_int quiet (fun x =>
      if fits s y x then Stack.push_raw (VInt x)
      else nan_or_overflow quiet Stack.push_nan))).

Definition exec_bitsize (s quiet : bool) : VM Z :=
  done_ (on_stack (unary_int quiet (fun x =>
    if negb (has_correct_sign s x) then
      ensure quiet (IntegerOutOfRange 0 ISIZE_MAX x) ;;
      Stack.push_nan
    else Stack.push_int (bitsize s x)))).
End Instructions.
