(* ===== verification/StackOps.v ===== *)
(** * Stack manipulation instructions (instr/stackops.rs) *)

From S2P Require Import Prelude External Values VmStack VmGas VmRegs VmState ArithOps.

Open Scope vm_scope.

Definition STACK_FEE_THRESHOLD : Z := 255.

Definition should_consume_gas (v : VmVersion) : bool := is_ton v 4.

Definition max_stack_size (v : VmVersion) : Z :=
  if should_consume_gas v then Stack.MAX_DEPTH else STACK_FEE_THRESHOLD.

Section Instructions.
Context `{CL : CellLib}.
Import Stack.
#[local] Abbreviation SM := (MS (list value) VmError).

Definition exec_nop : VM Z := ret 0.

Definition exec_swap : VM Z := done_ (on_stack (swap 0 1)).
Definition exec_xchg (i j : Z) : VM Z := done_ (on_stack (swap i j)).
Definition exec_dup : VM Z := done_ (on_stack (push_nth 0)).
Definition exec_over : VM Z := done_ (on_stack (push_nth 1)).
Definition exec_push (i : Z) : VM Z := done_ (on_stack (push_nth i)).
Definition exec_drop : VM Z := done_ (on_stack pop).
Definition exec_nip : VM Z := done_ (on_stack (swap 0 1 ;; pop)).
Definition exec_pop (i : Z) : VM Z := done_ (on_stack (swap 0 i ;; pop)).

Definition exec_xchg3 (i j k : Z) : VM Z :=
  done_ (on_stack (swap 2 i ;; swap 1 j ;; swap 0 k)).
Definition exec_xchg2 (i j : Z) : VM Z := done_ (on_stack (swap 1 i ;; swap 0 j)).
Definition exec_xcpu (i j : Z) : VM Z := done_ (on_stack (swap 0 i ;; push_nth j)).
Definition exec_puxc (i j : Z) : VM Z :=
  done_ (on_stack (push_nth i ;; swap 0 1 ;; swap 0 j)).
Definition exec_push2 (i j : Z) : VM Z :=
  done_ (on_stack (push_nth i ;; push_nth (1 + j))).
Definition exec_xc2pu (i j k : Z) : VM Z :=
  done_ (on_stack (swap 1 i ;; swap 0 j ;; push_nth k)).
Definition exec_xcpuxc (i j k : Z) : VM Z :=
  done_ (on_stack (swap 1 i ;; push_nth j ;; swap 0 1 ;; swap 0 k)).
Definition exec_xcpu2 (i j k : Z) : VM Z :=
  done_ (on_stack (swap 0 i ;; push_nth j ;; push_nth (1 + k))).
Definition exec_puxc2 (i j k : Z) : VM Z :=
  done_ (on_stack (push_nth i ;; swap 2 0 ;; swap 1 j ;; swap 0 k)).
Definition exec_puxcpu (i j k : Z) : VM Z :=
  done_ (on_stack (push_nth i ;; swap 0 1 ;; swap 0 j ;; push_nth k)).
Definition exec_pu2xc (i j k : Z) : VM Z :=
  done_ (on_stack (push_nth i ;; swap 1 0 ;; push_nth j ;; swap 1 0 ;; swap 0 k)).
Definition exec_push3 (i j k : Z) : VM Z :=
  done_ (on_stack (push_nth i ;; push_nth (1 + j) ;; push_nth (2 + k))).

(** The three reversals of [exec_blkswap] and [exec_blkswap_x]. *)
Definition blkswap (i j : Z) : SM unit :=
  reverse_range j i ;; reverse_range 0 j ;; reverse_range 0 (i + j).

Definition exec_blkswap (i j : Z) : VM Z := done_ (on_stack (blkswap i j)).

Definition exec_rot : VM Z := done_ (on_stack (swap 1 2 ;; swap 0 1)).
Definition exec_rotrev : VM Z := done_ (on_stack (swap 0 1 ;; swap 1 2)).
Definition exec_2swap : VM Z := done_ (on_stack (swap 1 3 ;; swap 0 2)).
Definition exec_2drop : VM Z := done_ (on_stack (pop ;; pop)).
Definition exec_2dup : VM Z := done_ (on_stack (push_nth 1 ;; push_nth 1)).
Definition exec_2over : VM Z := done_ (on_stack (push_nth 3 ;; push_nth 3)).

Definition exec_reverse (i j : Z) : VM Z := done_ (on_stack (reverse_range j i)).
Definition exec_blkdrop (i : Z) : VM Z := done_ (on_stack (pop_many i)).

(** [while i >= 1 { push_nth(j); i -= 1 }] *)
Fixpoint push_nth_times (n : nat) (j : Z) : SM unit :=
  match n with
  | O => ret tt
  | S n => push_nth j ;; push_nth_times n j
  end.

Definition exec_blkpush (i j : Z) : VM Z :=
  done_ (on_stack (push_nth_times (Z.to_nat i) j)).

(** [if let Some(diff) = n.checked_sub(STACK_FEE_THRESHOLD) { gas.try_consume(diff) }] *)
Definition stack_fee (n : Z) : VM unit :=
  match checked_sub_u n STACK_FEE_THRESHOLD with
  | Some diff => on_gas (Gas.try_consume diff)
  | None => ret tt
  end.

Definition pop_index : VM Z :=
  let* v := gets version in
  on_stack (pop_smallint_range 0 (max_stack_size v)).

Definition exec_pick : VM Z :=
  let* i := pop_index in
  done_ (on_stack (push_nth i)).

(** [while i >= 1 { swap(i, i - 1); i -= 1 }] *)
Fixpoint roll_loop (i : nat) : SM unit :=
  match i with
  | O => ret tt
  | S i' => swap (Z.of_nat i) (Z.of_nat i') ;; roll_loop i'
  end.

Definition exec_roll : VM Z :=
  let* i := pop_index in
  stack_fee i ;;
  done_ (on_stack (roll_loop (Z.to_nat i))).

(** [for i in 0..x { swap(i, i + 1) }] *)
Definition rollrev_loop (x : nat) : SM unit :=
  for_each (seq 0 x) (fun i => swap (Z.of_nat i) (Z.of_nat i + 1)).

Definition exec_rollrev : VM Z :=
  let* x := pop_index in
  stack_fee x ;;
  done_ (on_stack (rollrev_loop (Z.to_nat x))).

Definition exec_blkswap_x : VM Z :=
  let* y := pop_index in
  let* x := pop_index in
  (if (0 <? x) && (0 <? y) then
     let* v := gets version in
     (if should_consume_gas v then stack_fee (x + y) else ret tt) ;;
     on_stack (blkswap x y)
   else ret tt) ;;
  ret 0.

Definition exec_reverse_x : VM Z :=
  let* y := pop_index in
  let* x := pop_index in
  stack_fee x ;;
  done_ (on_stack (reverse_range y x)).

Definition exec_drop_x : VM Z :=
  let* x := pop_index in
  done_ (on_stack (pop_many x)).

Definition exec_tuck : VM Z := done_ (on_stack (swap 0 1 ;; push_nth 1)).

Definition exec_xchg_x : VM Z :=
  let* x := pop_index in
  done_ (on_stack (swap 0 x)).

Definition exec_depth : VM Z :=
  done_ (on_stack (let* d := gets depth in push_int d)).

Definition exec_chkdepth : VM Z :=
  let* x := pop_index in
  let* d := gets (fun st => depth (stack st)) in
  ensure (x <=? d) (StackUnderflow x) ;;
  ret 0.

Definition exec_onlytop_x : VM Z :=
  let* x := pop_index in
  let* depth := gets (fun st => depth (stack st)) in
  let* d := of_option (StackUnderflow x) (checked_sub_u depth x) in
  (if 0 <? d then
     stack_fee x ;;
     on_stack (modify (drain 0 d))
   else ret tt) ;;
  done_ (on_stack (modify (take (Z.to_nat x)))).

Definition exec_only_x : VM Z :=
  let* x := pop_index in
  let* depth := gets (fun st => depth (stack st)) in
  let* d := of_option (StackUnderflow x) (checked_sub_u depth x) in
  done_ (on_stack (modify (take (Z.to_nat d)))).

Definition exec_blkdrop2 (i j : Z) : VM Z :=
  let* depth := gets (fun st => depth (stack st)) in
  ensure (i + j <=? depth) (StackUnderflow (i + j)) ;;
  done_ (on_stack (modify (drain (depth - (i + j)) (depth - j)))).
End Instructions.
