(* ===== verification/TupleOps.v ===== *)
(** * Tuple instructions (instr/tupleops.rs) *)

From S2P Require Import Prelude External Values VmStack VmGas VmRegs VmState ArithOps.

Open Scope vm_scope.

Section Instructions.
Context `{CL : CellLib}.
Import Stack.

#[local] Abbreviation len l := (Z.of_nat (length l)).

Definition tuple_gas (n : Z) : VM unit := on_gas (Gas.try_consume_tuple_gas n).

(** [Vec::resize(n, null)] for a longer [n]; [tuple[i] = x]. *)
Definition resize (n : Z) (t : Tuple) : Tuple :=
  take (Z.to_nat n) t ++ replicate (Z.to_nat n - length t) VNull.
Definition set_item (i : Z) (x : value) (t : Tuple) : Tuple := <[Z.to_nat i := x]> t.

Definition index_error (i : Z) (t : Tuple) : VmError := IntegerOutOfRange 0 (len t) i.

Definition exec_push_null : VM Z := done_ (on_stack push_null).

Definition exec_is_null : VM Z :=
  done_ (on_stack (let* top := pop in push_bool (is_null top))).

Definition make_tuple_impl (n : Z) : VM Z :=
  let* d := gets (fun st => depth (stack st)) in
  let* offset := of_option (StackUnderflow n) (checked_sub_u d n) in
  let* items := gets (fun st =>
    take (Z.to_nat n) (drop (Z.to_nat offset) (stack st))) in
  on_stack (modify (drain offset (offset + n))) ;;
  tuple_gas (len items) ;;
  done_ (on_stack (push_raw (VTuple items))).

Definition tuple_index_impl (i : Z) : VM Z :=
  done_ (on_stack (
    let* tuple := pop_tuple_range 0 255 in
    ensure (i <? len tuple) (index_error i tuple) ;;
    push_raw (at_ tuple i))).

Definition tuple_index_quiet_impl (i : Z) : VM Z :=
  done_ (on_stack (
    let* t := pop_opt_tuple_range 0 255 in
    push_opt_raw (match t with Some t => t !! Z.to_nat i | None => None end))).

(** Both arms of [try_unwrap] push the same values. *)
Definition do_explode_tuple (tuple : Tuple) (n : Z) : VM unit :=
  on_stack (for_each (take (Z.to_nat n) tuple) push_raw) ;;
  tuple_gas n.

Definition untuple_impl (n : Z) : VM Z :=
  let* tuple := on_stack (pop_tuple_range n n) in
  done_ (do_explode_tuple tuple n).

Definition untuple_first_impl (n : Z) : VM Z :=
  let* tuple := on_stack (pop_tuple_range n 255) in
  done_ (do_explode_tuple tuple n).

Definition explode_tuple_impl (n : Z) : VM Z :=
  let* tuple := on_stack (pop_tuple_range 0 n) in
  let tuple_len := len tuple in
  do_explode_tuple tuple tuple_len ;;
  done_ (on_stack (push_int tuple_len)).

Definition tuple_set_index_impl (i : Z) : VM Z :=
  let* x := on_stack pop in
  let* tuple := on_stack (pop_tuple_range 0 255) in
  ensure (i <? len tuple) (index_error i tuple) ;;
  let tuple := set_item i x tuple in
  tuple_gas (len tuple) ;;
  done_ (on_stack (push_raw (VTuple tuple))).

(** The [match &mut tuple]: the number of updated items and the new tuple. *)
Definition set_index_quiet (tuple : option Tuple) (i : Z) (x : value)
  : Z * option Tuple :=
  match tuple with
  | None =>
      if is_null x then (0, None)
      else (i + 1, Some (set_item i x (replicate (Z.to_nat (i + 1)) VNull)))
  | Some items =>
      if i <? len items then (len items, Some (set_item i x items))
      else if is_null x then (0, Some items)
      else (i + 1, Some (set_item i x (resize (i + 1) items)))
  end.

Definition tuple_set_index_quiet_impl (i : Z) : VM Z :=
  let* x := on_stack pop in
  let* tuple := on_stack (pop_opt_tuple_range 0 255) in
  ensure (i <? 255) (IntegerOutOfRange 0 255 i) ;;
  let (updated_items, tuple) := set_index_quiet tuple i x in
  tuple_gas updated_items ;;
  done_ (on_stack (push_opt_raw (option_map VTuple tuple))).

Definition index_stack_value_as_tuple (v : value) (i : Z) : result VmError value :=
  match as_tuple_range v 0 255 with
  | None => Err (InvalidType TyTuple (ty v))
  | Some tuple =>
      match tuple !! Z.to_nat i with
      | None => Err (index_error i tuple)
      | Some v => Ok v
      end
  end.

Definition exec_mktuple (i : Z) : VM Z := make_tuple_impl i.
Definition exec_tuple_index (i : Z) : VM Z := tuple_index_impl i.
Definition exec_untuple (i : Z) : VM Z := untuple_impl i.
Definition exec_untuple_first (i : Z) : VM Z := untuple_first_impl i.
Definition exec_explode_tuple (i : Z) : VM Z := explode_tuple_impl i.
Definition exec_tuple_set_index (i : Z) : VM Z := tuple_set_index_impl i.
Definition exec_tuple_quiet_index (i : Z) : VM Z := tuple_index_quiet_impl i.
Definition exec_tuple_quiet_set_index (i : Z) : VM Z := tuple_set_index_quiet_impl i.

Definition exec_mktuple_var : VM Z :=
  let* n := on_stack (pop_smallint_range 0 255) in make_tuple_impl n.
Definition exec_tuple_index_var : VM Z :=
  let* i := on_stack (pop_smallint_range 0 254) in tuple_index_impl i.
Definition exec_untuple_var : VM Z :=
  let* n := on_stack (pop_smallint_range 0 255) in untuple_impl n.
Definition exec_untuple_first_var : VM Z :=
  let* n := on_stack (pop_smallint_range 0 255) in untuple_first_impl n.
Definition exec_explode_tuple_var : VM Z :=
  let* n := on_stack (pop_smallint_range 0 255) in explode_tuple_impl n.
Definition exec_tuple_set_index_var : VM Z :=
  let* i := on_stack (pop_smallint_range 0 254) in tuple_set_index_impl i.
Definition exec_tuple_quiet_index_var : VM Z :=
  let* i := on_stack (pop_smallint_range 0 254) in tuple_index_quiet_impl i.
Definition exec_tuple_quiet_set_index_var : VM Z :=
  let* i := on_stack (pop_smallint_range 0 254) in tuple_set_index_quiet_impl i.

Definition exec_tuple_length : VM Z :=
  done_ (on_stack (
    let* tuple := pop_tuple_range 0 255 in push_int (len tuple))).

Definition exec_tuple_length_quiet : VM Z :=
  done_ (on_stack (
    let* v := pop in
    match as_tuple v with
    | Some t => push_int (len t)
    | None => push_int (-1)
    end)).

Definition exec_is_tuple : VM Z :=
  done_ (on_stack (let* v := pop in push_bool (is_tuple v))).

(** [last().expect(..)]: the range check excludes the empty tuple. *)
Definition exec_tuple_last : VM Z :=
  done_ (on_stack (
    let* tuple := pop_tuple_range 1 255 in
    let* x := of_option Panic (last tuple) in
    push_raw x)).

Definition exec_tuple_push : VM Z :=
  let* x := on_stack pop in
  let* tuple := on_stack (pop_tuple_range 0 254) in
  let tuple := tuple ++ [x] in
  tuple_gas (len tuple) ;;
  done_ (on_stack (push_raw (VTuple tuple))).

Definition exec_tuple_pop : VM Z :=
  let* tuple := on_stack (pop_tuple_range 1 255) in
  let* x := of_option Panic (last tuple) in
  let tuple := take (length tuple - 1) tuple in
  tuple_gas (len tuple) ;;
  done_ (on_stack (push_raw (VTuple tuple) ;; push_raw x)).

(** [exec_zero_swap_if], [exec_null_swap_if] and their variants that push twice:
    [filler] is pushed [n] times and rotated under the top when [d] is set. *)
Definition swap_if (filler : MS (list value) VmError unit) (n : nat) (c d : bool) : VM Z :=
  done_ (on_stack (
    let* x := pop_int in
    (if negb (Bool.eqb (x =? 0) c) then
       for_each (replicate n tt) (fun _ => filler) ;;
       (if d then swap 0 (Z.of_nat n) else ret tt)
     else ret tt) ;;
    push_raw (VInt x))).

Definition exec_zero_swap_if (c d : bool) : VM Z := swap_if push_zero 1 c d.
Definition exec_zero_swap_if2 (c d : bool) : VM Z := swap_if push_zero 2 c d.
Definition exec_null_swap_if (c d : bool) : VM Z := swap_if push_null 1 c d.
Definition exec_null_swap_if2 (c d : bool) : VM Z := swap_if push_null 2 c d.

Definition exec_tuple_index2 (i j : Z) : VM Z :=
  done_ (on_stack (
    let* tuple := pop_tuple_range 0 255 in
    let* v := of_option (index_error i tuple) (tuple !! Z.to_nat i) in
    let* v := of_result (index_stack_value_as_tuple v j) in
    push_raw v)).

Definition exec_tuple_index3 (i j k : Z) : VM Z :=
  done_ (on_stack (
    let* tuple := pop_tuple_range 0 255 in
    let* v := of_option (index_error i tuple) (tuple !! Z.to_nat i) in
    let* v := of_result (index_stack_value_as_tuple v j) in
    let* v := of_result (index_stack_value_as_tuple v k) in
    push_raw v)).
End Instructions.
