(* ===== verification/ContOps.v ===== *)
(** * Control flow instructions (instr/contops.rs)

    Calls, jumps, conditions, loops, changes of continuations and control registers,
    exceptions, code pages and the start of a child VM. *)

From S2P Require Import Prelude External Values VmStack VmGas VmRegs VmState ArithOps.

Open Scope vm_scope.

(** [RunVmArgs]. *)
Definition same_c3 (x : Z) : bool := Z.testbit x 0.
Definition push_0 (x : Z) : bool := Z.testbit x 1.
Definition load_c4 (x : Z) : bool := Z.testbit x 2.
Definition load_gas (x : Z) : bool := Z.testbit x 3.
Definition load_c7 (x : Z) : bool := Z.testbit x 4.
Definition return_c5 (x : Z) : bool := Z.testbit x 5.
Definition load_hard_gas_limit (x : Z) : bool := Z.testbit x 6.
Definition isolate_gas (x : Z) : bool := Z.testbit x 7.
Definition ret_n (x : Z) : bool := Z.testbit x 8.

(** [ThrowAnyArgs]. *)
Definition has_param (x : Z) : bool := negb (Z.land x 1 =? 0).
Definition has_cond (x : Z) : bool := negb (Z.land x 6 =? 0).
Definition throw_cond (x : Z) : bool := negb (Z.land x 2 =? 0).

Inductive Compose := CAnd | COr | CBoth.
Inductive ThrowMode := Direct | Cond (cond : bool).

(** [n as u16] and [(n >= 0).then_some(n as u16)]. *)
Definition as_u16 (n : Z) : N := Z.to_N (wrap_u 16 n).
Definition then_some (n : Z) : option N := if 0 <=? n then Some (as_u16 n) else None.

Section Instructions.
Context `{CL : CellLib}.

Definition QUIT0 : cont := QuitCont 0.
Definition QUIT1 : cont := QuitCont 1.
Definition QUIT11 : cont := QuitCont 11.
Definition EXC_QUIT : cont := ExcQuitCont.

(** ** Control data of a continuation *)

(** [force_cdata]: the continuation that now carries control data. *)
Definition force_cdata (c : cont) : cont :=
  match get_control_data c with
  | Some _ => c
  | None => ArgContExt data_default c
  end.

(** [&mut ControlData] of a forced continuation. *)
Definition cdata (c : cont) : ControlData := default data_default (get_control_data c).
Definition put_save (r : ControlRegs) (c : cont) : cont :=
  let d := cdata c in set_control_data (mkData (nargs d) (cd_stack d) r (cd_cp d)) c.

(** [force_cdata(&mut cont).save.define(i, v)]. *)
Definition define_in (i : Z) (v : value) (c : cont) : result VmError unit * cont :=
  let c := force_cdata c in
  let (res, r) := Regs.define i v (save (cdata c)) in
  (res, put_save r c).

(** [force_cdata(&mut cont).save.define_c<i>(c)]. *)
Definition define_c_in (i : Z) (v : option cont) (c : cont) : cont :=
  let c := force_cdata c in put_save (Regs.define_c i v (save (cdata c))) c.

(** [st.cr.c[i].expect("c<i> should always be set")]. *)
Definition expect_reg (i : Z) : VM cont :=
  let* c := get_reg i in of_option Panic c.

Definition reg_value (i : Z) : VM value :=
  let* r := gets cr in ret (default VNull (Regs.get_as_stack_value i r)).

(** ** References in the code *)

Definition exec_cell_prefix (bits : Z) : VM Cell :=
  let* code_range := gets (fun st => range (code st)) in
  ensure (has_remaining code_range bits 1) InvalidOpcode ;;
  code_skip bits 0 ;;
  let* c := gets (fun st => cell (code st)) in
  let* ref := of_option (CellError CellUnderflow)
                (reference_cloned c (offset_refs code_range)) in
  code_skip 0 1 ;;
  ret ref.

Definition exec_ref_prefix (bits : Z) : VM cont :=
  let* c := exec_cell_prefix bits in
  ref_to_cont c.

Definition pop_cont : VM cont := on_stack Stack.pop_cont.
Definition pop_bool : VM bool := on_stack Stack.pop_bool.
Definition push_value (v : value) : VM unit := on_stack (Stack.push_raw v).
Definition pop_signed (lo hi : Z) : VM Z := on_stack (Stack.pop_smallint_signed_range lo hi).

(** ** Jumps and calls *)

Definition exec_execute : VM Z := let* c := pop_cont in call c.
Definition exec_jmpx : VM Z := let* c := pop_cont in jump c.
Definition exec_callx_args (p r : Z) : VM Z :=
  let* c := pop_cont in call_ext c (Some (as_u16 p)) (Some (as_u16 r)).
Definition exec_callx_args_p (p : Z) : VM Z :=
  let* c := pop_cont in call_ext c (Some (as_u16 p)) None.
Definition exec_jmpx_args (p : Z) : VM Z := let* c := pop_cont in jump_ext c (Some (as_u16 p)).
Definition exec_ret_args (r : Z) : VM Z := ret_ext (Some (as_u16 r)).
Definition exec_ret : VM Z := ret_.
Definition exec_ret_alt : VM Z := ret_alt.
Definition exec_ret_bool : VM Z := let* b := pop_bool in if b then ret_ else ret_alt.

Definition exec_callcc : VM Z :=
  let* c := pop_cont in
  let* cc := extract_cc SAVE_C0_C1 None None in
  push_value (VCont cc) ;;
  jump c.

Definition push_code : VM unit :=
  let* code := gets code in push_value (VSlice code).

Definition exec_jmpx_data : VM Z :=
  let* c := pop_cont in
  push_code ;;
  jump c.

Definition exec_callcc_args (p r : Z) : VM Z :=
  let* c := pop_cont in
  let* cc := extract_cc SAVE_C0_C1 (Some (as_u16 p)) (then_some r) in
  push_value (VCont cc) ;;
  jump c.

Definition exec_callx_varargs : VM Z :=
  let* r := pop_signed (-1) 254 in
  let* p := pop_signed (-1) 254 in
  let* c := pop_cont in
  call_ext c (then_some p) (then_some r).

Definition exec_ret_varargs : VM Z :=
  let* r := pop_signed (-1) 254 in ret_ext (then_some r).

Definition exec_jmpx_varargs : VM Z :=
  let* p := pop_signed (-1) 254 in
  let* c := pop_cont in
  jump_ext c (then_some p).

Definition exec_callcc_varargs : VM Z :=
  let* r := pop_signed (-1) 254 in
  let* p := pop_signed (-1) 254 in
  let* c := pop_cont in
  let* cc := extract_cc SAVE_C0_C1 (then_some p) (then_some r) in
  push_value (VCont cc) ;;
  jump c.

Definition exec_callref (args bits : Z) : VM Z :=
  let* c := exec_ref_prefix bits in call c.
Definition exec_jmpref (args bits : Z) : VM Z :=
  let* c := exec_ref_prefix bits in jump c.
Definition exec_jmpref_data (args bits : Z) : VM Z :=
  let* c := exec_ref_prefix bits in
  push_code ;;
  jump c.
Definition exec_ret_data : VM Z := push_code ;; ret_.

(** ** Conditions *)

Definition exec_ifret : VM Z := let* b := pop_bool in if b then ret_ else ret 0.
Definition exec_ifnotret : VM Z := let* b := pop_bool in if b then ret 0 else ret_.
Definition exec_if : VM Z :=
  let* c := pop_cont in let* b := pop_bool in if b then call c else ret 0.
Definition exec_ifnot : VM Z :=
  let* c := pop_cont in let* b := pop_bool in if b then ret 0 else call c.
Definition exec_if_jmp : VM Z :=
  let* c := pop_cont in let* b := pop_bool in if b then jump c else ret 0.
Definition exec_ifnot_jmp : VM Z :=
  let* c := pop_cont in let* b := pop_bool in if b then ret 0 else jump c.
Definition exec_if_else : VM Z :=
  let* cont0 := pop_cont in
  let* cont1 := pop_cont in
  let* b := pop_bool in
  call (if b then cont1 else cont0).

Definition exec_ifref (args bits : Z) : VM Z :=
  let* cell := exec_cell_prefix bits in
  let* b := pop_bool in
  if b then let* c := ref_to_cont cell in call c else ret 0.
Definition exec_ifnotref (args bits : Z) : VM Z :=
  let* cell := exec_cell_prefix bits in
  let* b := pop_bool in
  if b then ret 0 else let* c := ref_to_cont cell in call c.
Definition exec_ifjmpref (args bits : Z) : VM Z :=
  let* cell := exec_cell_prefix bits in
  let* b := pop_bool in
  if b then let* c := ref_to_cont cell in jump c else ret 0.
Definition exec_ifnotjmpref (args bits : Z) : VM Z :=
  let* cell := exec_cell_prefix bits in
  let* b := pop_bool in
  if b then ret 0 else let* c := ref_to_cont cell in jump c.

Definition exec_condsel : VM Z :=
  done_ (on_stack (
    let* y := Stack.pop in
    let* x := Stack.pop in
    let* cond := Stack.pop_bool in
    Stack.push_raw (if cond then x else y))).

Definition exec_condsel_chk : VM Z :=
  done_ (on_stack (
    let* y := Stack.pop in
    let* x := Stack.pop in
    ensure (bool_decide (ty x = ty y)) (InvalidType (ty x) (ty y)) ;;
    let* cond := Stack.pop_bool in
    Stack.push_raw (if cond then x else y))).

Definition exec_ifretalt : VM Z := let* b := pop_bool in if b then ret_alt else ret 0.
Definition exec_ifnotretalt : VM Z := let* b := pop_bool in if b then ret 0 else ret_alt.

Definition exec_ifelse_ref_impl (bits : Z) (ref_first : bool) : VM Z :=
  let* cell := exec_cell_prefix bits in
  let* c := pop_cont in
  let* b := pop_bool in
  let* c := (if Bool.eqb b ref_first then ref_to_cont cell else ret c) in
  call c.

Definition exec_ifrefelse (args bits : Z) : VM Z := exec_ifelse_ref_impl bits true.
Definition exec_ifelseref (args bits : Z) : VM Z := exec_ifelse_ref_impl bits false.

(** The second reference is read after the first one is skipped. *)
Definition exec_ifref_elseref (args bits : Z) : VM Z :=
  let load_ref : VM Cell :=
    let* c := gets code in
    let* ref := of_option (CellError CellUnderflow)
                  (reference_cloned (cell c) (offset_refs (range c))) in
    code_skip 0 1 ;;
    ret ref in
  let* code_range := gets (fun st => range (code st)) in
  ensure (has_remaining code_range bits 2) InvalidOpcode ;;
  code_skip bits 0 ;;
  let* cell1 := load_ref in
  let* cell0 := load_ref in
  let* b := pop_bool in
  let* c := ref_to_cont (if b then cell1 else cell0) in
  call c.

(** [value.bit(x)] of the popped integer, which is pushed back. *)
Definition peek_bit (x : Z) : VM bool :=
  on_stack (
    let* v := Stack.pop_int in
    Stack.push_raw (VInt v) ;;
    ret (Z.testbit v x)).

Definition exec_if_bit_jmp (n : bool) (x : Z) : VM Z :=
  let* c := pop_cont in
  let* bit := peek_bit x in
  if xorb bit n then jump c else ret 0.

Definition exec_if_bit_jmpref (args bits : Z) : VM Z :=
  let* cell := exec_cell_prefix bits in
  let negate := negb (Z.land args 0x20 =? 0) in
  let* bit := peek_bit (Z.land args 0x1f) in
  if xorb bit negate then let* c := ref_to_cont cell in jump c else ret 0.

(** ** Loops *)

(** [st.extract_cc(SaveCr::NONE, ..)] and [st.cr.c[0].clone()]. *)
Definition body_and_c0 : VM (cont * cont) :=
  let* body := extract_cc SAVE_NONE None None in
  let* c0 := get_reg 0 in
  let* c0 := of_option InvalidOpcode c0 in
  ret (body, c0).

Definition exec_repeat (brk : bool) : VM Z :=
  let* body := pop_cont in
  let* n := pop_signed I32_MIN I32_MAX in
  if n <=? 0 then ret 0
  else
    let* cc := extract_cc SAVE_C0 None None in
    let* after := c1_envelope_if brk cc true in
    repeat body after n.

Definition exec_repeat_end (brk : bool) : VM Z :=
  let* n := pop_signed I32_MIN I32_MAX in
  if n <=? 0 then ret_
  else
    let* (body, c0) := body_and_c0 in
    let* after := c1_envelope_if brk c0 true in
    repeat body after n.

Definition exec_until (brk : bool) : VM Z :=
  let* body := pop_cont in
  let* cc := extract_cc SAVE_C0 None None in
  let* after := c1_envelope_if brk cc true in
  until body after.

Definition exec_until_end (brk : bool) : VM Z :=
  let* (body, c0) := body_and_c0 in
  let* after := c1_envelope_if brk c0 true in
  until body after.

Definition exec_while (brk : bool) : VM Z :=
  let* body := pop_cont in
  let* cond := pop_cont in
  let* cc := extract_cc SAVE_C0 None None in
  let* after := c1_envelope_if brk cc true in
  loop_while cond body after.

Definition exec_while_end (brk : bool) : VM Z :=
  let* cond := pop_cont in
  let* (body, c0) := body_and_c0 in
  let* after := c1_envelope_if brk c0 true in
  loop_while cond body after.

Definition exec_again (brk : bool) : VM Z :=
  (if brk then
     let* cc := extract_cc SAVE_C0_C1 None None in
     put_reg 1 (Some cc)
   else ret tt) ;;
  let* body := pop_cont in
  again body.

Definition exec_again_end (brk : bool) : VM Z :=
  (if brk then c1_save_set else ret tt) ;;
  let* cc := extract_cc SAVE_NONE None None in
  again cc.

(** ** Arguments of continuations *)

Definition exec_setcontargs_common (copy more : Z) : VM unit :=
  let* c := pop_cont in
  let* c :=
    (if (0 <? copy) || (0 <=? more) then
       let c := force_cdata c in
       let data := cdata c in
       let* data :=
         (if 0 <? copy then
            of_result (require_nargs data copy) ;;
            let* args :=
              match cd_stack data with
              | Some cdata_stack => move_args copy cdata_stack
              | None => on_stack (Stack.split_top copy)
              end in
            on_gas (Gas.try_consume_stack_gas (Some args)) ;;
            ret (mkData (option_map (fun n => n - as_u16 copy)%N (nargs data)) (Some args)
                   (save data) (cd_cp data))
          else ret data) in
       let nargs :=
         if 0 <=? more then
           match nargs data with
           | Some n => Some (if more <? Z.of_N n then Z.to_N U16_MAX else n)
           | None => Some (as_u16 more)
           end
         else nargs data in
       ret (set_control_data (mkData nargs (cd_stack data) (save data) (cd_cp data)) c)
     else ret c) in
  push_value (VCont c).

Definition exec_setcontargs (r n : Z) : VM Z := done_ (exec_setcontargs_common r n).

(** [c0] is changed in place: it keeps what was done before an error. *)
Definition exec_return_args_common (count : Z) : VM unit :=
  let* depth := gets (fun st => Stack.depth (stack st)) in
  if count =? depth then ret tt
  else if depth <? count then raise (StackUnderflow count)
  else
    let copy := depth - count in
    let* new_stack := on_stack (Stack.split_top count) in
    let* alt_stack := gets stack in
    modify (set_stack new_stack) ;;
    let* c := expect_reg 0 in
    let c := force_cdata c in
    put_reg 0 (Some c) ;;
    let data := cdata c in
    of_result (require_nargs data copy) ;;
    let* args :=
      match cd_stack data with
      | Some cdata_stack =>
          match Stack.move_from_stack copy (cdata_stack, alt_stack) with
          | (Ok _, (moved, _)) => ret moved
          | (Err e, _) => raise e
          end
      | None => ret alt_stack
      end in
    put_reg 0 (Some (set_control_data
                       (mkData (nargs data) (Some args) (save data) (cd_cp data)) c)) ;;
    on_gas (Gas.try_consume_stack_gas (Some args)) ;;
    put_reg 0 (Some (set_control_data
                       (mkData (option_map (fun n => n - as_u16 copy)%N (nargs data))
                          (Some args) (save data) (cd_cp data)) c)).

Definition exec_return_args (p : Z) : VM Z := done_ (exec_return_args_common p).
Definition exec_return_varargs : VM Z :=
  let* count := on_stack (Stack.pop_smallint_range 0 255) in
  done_ (exec_return_args_common count).

Definition exec_setcont_varargs : VM Z :=
  let* more := pop_signed (-1) 255 in
  let* copy := on_stack (Stack.pop_smallint_range 0 255) in
  done_ (exec_setcontargs_common copy more).

Definition exec_setnum_varargs : VM Z :=
  let* more := pop_signed (-1) 255 in
  done_ (exec_setcontargs_common 0 more).

Definition exec_bless : VM Z :=
  let* code := on_stack Stack.pop_cs in
  let* id := gets cp in
  done_ (push_value (VCont (simple code id))).

Definition exec_bless_args_common (copy more : Z) : VM unit :=
  let* cs := on_stack Stack.pop_cs in
  let* new_stack := on_stack (Stack.split_top copy) in
  on_gas (Gas.try_consume_stack_gas (Some new_stack)) ;;
  let* id := gets cp in
  push_value (VCont (OrdCont (mkData (then_some more) (Some new_stack) regs_default
                                (Some id)) cs)).

Definition exec_bless_varargs : VM Z :=
  let* more := pop_signed (-1) 255 in
  let* copy := on_stack (Stack.pop_smallint_range 0 255) in
  done_ (exec_bless_args_common copy more).

Definition exec_bless_args (r n : Z) : VM Z := done_ (exec_bless_args_common r n).

(** ** Control registers *)

Definition valid_idx (i : Z) : VM unit := ensure (Regs.is_valid_idx i) InvalidOpcode.

Definition exec_push_ctr (i : Z) : VM Z :=
  valid_idx i ;;
  let* r := gets cr in
  done_ (on_stack (Stack.push_opt_raw (Regs.get_as_stack_value i r))).

Definition exec_pop_ctr (i : Z) : VM Z :=
  valid_idx i ;;
  let* v := on_stack Stack.pop in
  done_ (on_cr (Regs.set i v)).

(** [force_cdata(&mut st.cr.c[reg]).save.define(i, v)] in place. *)
Definition define_in_reg (reg : Z) (c : cont) (i : Z) (v : value) : VM unit :=
  let (res, c) := define_in i v c in
  put_reg reg (Some c) ;;
  of_result res.

Definition setcont_ctr (i : Z) : VM unit :=
  let* c := pop_cont in
  let* v := on_stack Stack.pop in
  let (res, c) := define_in i v c in
  of_result res ;;
  push_value (VCont c).

Definition exec_setcont_ctr (i : Z) : VM Z := valid_idx i ;; done_ (setcont_ctr i).

Definition exec_setret_ctr (i : Z) : VM Z :=
  valid_idx i ;;
  let* c := expect_reg 0 in
  let* v := on_stack Stack.pop in
  done_ (define_in_reg 0 c i v).

Definition exec_setalt_ctr (i : Z) : VM Z :=
  valid_idx i ;;
  let* c := expect_reg 1 in
  let* v := on_stack Stack.pop in
  done_ (define_in_reg 1 c i v).

Definition exec_popsave (i : Z) : VM Z :=
  valid_idx i ;;
  let* v := on_stack Stack.pop in
  let* c := expect_reg 0 in
  ensure ((0 <? i) || bool_decide (ty v = TyCont)) (InvalidType TyCont (ty v)) ;;
  let* prev := reg_value i in
  let c := (define_in i prev c).2 in
  (if i =? 0 then
     put_reg 0 (Some c) ;;
     on_cr (Regs.set i v)
   else
     on_cr (Regs.set i v) ;;
     put_reg 0 (Some c)) ;;
  ret 0.

Definition exec_savectr (i : Z) : VM Z :=
  valid_idx i ;;
  let* c := expect_reg 0 in
  let* v := reg_value i in
  let (res, c) := define_in i v c in
  of_result res ;;
  done_ (put_reg 0 (Some c)).

Definition exec_savealt_ctr (i : Z) : VM Z :=
  valid_idx i ;;
  let* c := expect_reg 1 in
  let* v := reg_value i in
  let (res, c) := define_in i v c in
  of_result res ;;
  done_ (put_reg 1 (Some c)).

Definition exec_saveboth_ctr (i : Z) : VM Z :=
  valid_idx i ;;
  let* c0 := expect_reg 0 in
  let* c1 := expect_reg 1 in
  let* v := reg_value i in
  put_reg 0 (Some (define_in i v c0).2) ;;
  done_ (put_reg 1 (Some (define_in i v c1).2)).

Definition exec_push_ctr_var : VM Z :=
  let* idx := on_stack (Stack.pop_smallint_range 0 16) in
  let* r := gets cr in
  let* v := of_option (ControlRegisterOutOfRange idx) (Regs.get_as_stack_value idx r) in
  done_ (push_value v).

Definition exec_pop_ctr_var : VM Z :=
  let* idx := on_stack (Stack.pop_smallint_range 0 16) in
  ensure (Regs.is_valid_idx idx) (ControlRegisterOutOfRange idx) ;;
  let* v := on_stack Stack.pop in
  done_ (on_cr (Regs.set idx v)).

Definition exec_setcont_ctr_var : VM Z :=
  let* idx := on_stack (Stack.pop_smallint_range 0 16) in
  ensure (Regs.is_valid_idx idx) (ControlRegisterOutOfRange idx) ;;
  done_ (setcont_ctr idx).

(** The loop [for i in 0..8] of [exec_setcont_ctr_many]. *)
Fixpoint define_many (x : Z) (l : list Z) (c : cont) : VM cont :=
  match l with
  | [] => ret c
  | i :: l =>
      if Z.land x (Z.shiftl 1 i) =? 0 then define_many x l c
      else
        let* r := gets cr in
        let* v := of_option (InvalidType TyCont TyNull) (Regs.get_as_stack_value i r) in
        let (res, c) := define_in i v c in
        of_result res ;;
        define_many x l c
  end.

Definition exec_setcont_ctr_many (x : option Z) : VM Z :=
  require_ton 9 ;;
  let* x := match x with
            | Some x => ret x
            | None => on_stack (Stack.pop_smallint_range 0 255)
            end in
  ensure (Z.land x (Z.shiftl 1 6) =? 0) (ControlRegisterOutOfRange 6) ;;
  let* c := pop_cont in
  let* c := define_many x [0; 1; 2; 3; 4; 5; 6; 7] c in
  done_ (push_value (VCont c)).

Definition exec_compos (op : Compose) : VM Z :=
  let* v := pop_cont in
  let* c := pop_cont in
  let c :=
    match op with
    | CAnd => define_c_in 0 (Some v) c
    | COr => define_c_in 1 (Some v) c
    | CBoth => define_c_in 1 (Some v) (define_c_in 0 (Some v) c)
    end in
  done_ (push_value (VCont c)).

Definition exec_atexit : VM Z :=
  let* c := pop_cont in
  let* c0 := get_reg 0 in
  done_ (put_reg 0 (Some (define_c_in 0 c0 c))).

Definition exec_atexit_alt : VM Z :=
  let* c := pop_cont in
  let* c1 := get_reg 1 in
  done_ (put_reg 1 (Some (define_c_in 1 c1 c))).

Definition exec_setexit_alt : VM Z :=
  let* c := pop_cont in
  let* c0 := get_reg 0 in
  let* c1 := get_reg 1 in
  done_ (put_reg 1 (Some (define_c_in 1 c1 (define_c_in 0 c0 c)))).

Definition exec_thenret : VM Z :=
  let* c := pop_cont in
  let* c0 := get_reg 0 in
  done_ (push_value (VCont (define_c_in 0 c0 c))).

Definition exec_thenret_alt : VM Z :=
  let* c := pop_cont in
  let* c1 := get_reg 1 in
  done_ (push_value (VCont (define_c_in 1 c1 c))).

Definition exec_invert : VM Z :=
  let* c0 := get_reg 0 in
  let* c1 := get_reg 1 in
  put_reg 0 c1 ;;
  done_ (put_reg 1 c0).

Definition exec_booleval : VM Z :=
  let* c := pop_cont in
  let* next := extract_cc SAVE_C0_C1 None None in
  put_reg 0 (Some (PushIntCont (-1) next)) ;;
  put_reg 1 (Some (PushIntCont 0 next)) ;;
  jump c.

Definition exec_samealt (save : bool) : VM Z :=
  let* c0 := expect_reg 0 in
  let* c1 := get_reg 1 in
  let c0 := if save then define_c_in 1 c1 c0 else c0 in
  put_reg 0 (Some c0) ;;
  done_ (put_reg 1 (Some c0)).

(** ** Dictionary jumps *)

Definition get_c3 : VM cont :=
  let* c3 := get_reg 3 in of_option (InvalidType TyCont TyNull) c3.

Definition exec_calldict_short (n : Z) : VM Z :=
  on_stack (Stack.push_int n) ;;
  let* c3 := get_c3 in
  call c3.

Definition exec_jmpdict (n : Z) : VM Z :=
  on_stack (Stack.push_int n) ;;
  let* c3 := get_c3 in
  jump c3.

Definition exec_preparedict (n : Z) : VM Z :=
  on_stack (Stack.push_int n) ;;
  let* c3 := get_reg 3 in
  done_ (push_value (match c3 with Some c3 => VCont c3 | None => VNull end)).

(** ** Exceptions *)

Definition exec_throw_fixed (n : Z) (mode : ThrowMode) : VM Z :=
  match mode with
  | Cond cond =>
      let* b := pop_bool in
      if negb (Bool.eqb b cond) then ret 0 else throw_exception n
  | Direct => throw_exception n
  end.

Definition exec_throw_arg_fixed (n : Z) (mode : ThrowMode) : VM Z :=
  let throw : VM Z := let* arg := on_stack Stack.pop in throw_exception_with_arg n arg in
  match mode with
  | Cond cond =>
      let* b := pop_bool in
      if negb (Bool.eqb b cond) then done_ (on_stack Stack.pop) else throw
  | Direct => throw
  end.

Definition exec_throw_any (x : Z) : VM Z :=
  let* cond := if has_cond x then pop_bool else ret (throw_cond x) in
  let* n := on_stack (Stack.pop_smallint_range 0 0xffff) in
  if negb (Bool.eqb cond (throw_cond x)) then
    (if has_param x then done_ (on_stack Stack.pop) else ret 0)
  else if has_param x then
    let* arg := on_stack Stack.pop in
    throw_exception_with_arg n arg
  else throw_exception n.

Definition exec_try_common (args : option (N * N)) : VM Z :=
  let* handler_cont := pop_cont in
  let* c := pop_cont in
  let* old_c2 := get_reg 2 in
  let* cc := extract_cc SAVE_FULL (option_map fst args) (option_map snd args) in
  let handler_cont := define_c_in 0 (Some cc) (define_c_in 2 old_c2 handler_cont) in
  put_reg 0 (Some cc) ;;
  put_reg 2 (Some handler_cont) ;;
  jump c.

Definition exec_try : VM Z := exec_try_common None.
Definition exec_tryargs (p r : Z) : VM Z := exec_try_common (Some (as_u16 p, as_u16 r)).

(** ** Code pages *)

Definition exec_set_cp_any : VM Z :=
  let* cp := pop_signed (-0x8000) 0x7fff in
  done_ (force_cp (wrap_u 16 (wrap_s 16 cp))).

Definition exec_set_cp (x : Z) : VM Z := done_ (force_cp (wrap_u 16 x)).

(** ** Child VM *)

(** The arguments popped by [exec_runvm_common]. *)
Record RunVmFrame := mkFrame {
  f_gas_max : Z; f_gas_limit : Z; f_c7 : Tuple; f_data : Cell;
  f_return_values : option Z; f_code : OwnedCellSlice; f_stack : list value
}.

Definition pop_runvm_args (args : Z) : MS (list value) VmError RunVmFrame :=
  let* gas_max := if load_hard_gas_limit args then Stack.pop_long_range 0 U64_MAX
                  else ret U64_MAX in
  let* gas_limit := if load_gas args then Stack.pop_long_range 0 U64_MAX
                    else ret U64_MAX in
  let gas_max := if load_hard_gas_limit args then Z.max gas_max gas_limit else gas_limit in
  let* child_c7 := if load_c7 args then Stack.pop_tuple else ret [] in
  let* child_data := if load_c4 args then Stack.pop_cell else ret empty_cell in
  let* return_values :=
    (if ret_n args
     then let* n := Stack.pop_smallint_range 0 (Z.shiftl 1 30) in ret (Some n)
     else ret None) in
  let* child_code := Stack.pop_cs in
  let* depth := gets Stack.depth in
  let* stack_size := Stack.pop_long_range 0 (Z.max 0 (depth - 1)) in
  let* child_stack := Stack.split_top stack_size in
  ret (mkFrame gas_max gas_limit child_c7 child_data return_values child_code child_stack).

(** The replacement of the state after the last possible error. *)
Definition enter_child (args : Z) (f : RunVmFrame) (parent_gas : Gas.ParentGasConsumer)
    (s : VmState) : VmState :=
  let child_stack := if same_c3 args && push_0 args then f_stack f ++ [VInt 0]
                     else f_stack f in
  let child_c3 := if same_c3 args then simple (f_code f) 0 else QUIT11 in
  let child_cr := mkRegs (Some QUIT0) (Some QUIT1) (Some EXC_QUIT) (Some child_c3)
                    (Some (f_data f)) (Some empty_cell) (Some (f_c7 f)) in
  let parent := mkParent (code s) (stack s) (cr s) (committed_state s) (steps s)
                  (quit0 s) (quit1 s) parent_gas (cp s) (load_c4 args)
                  (return_c5 args) (load_gas args) (f_return_values f) (parent s) in
  mkState (f_code f) (throw_on_code_access s) child_stack child_cr None 0 QUIT0 QUIT1
    (gas s) 0 (modifiers s) (version s) (Some parent).

Definition exec_runvm_common (args : Z) : VM Z :=
  ensure (args <? 512) (IntegerOutOfRange 0 511 args) ;;
  on_gas (Gas.try_consume Gas.RUNVM_GAS_PRICE) ;;
  let* f := on_stack (pop_runvm_args args) in
  on_gas (Gas.try_consume_stack_gas (Some (f_stack f))) ;;
  let* parent_gas := on_gas_vm (Gas.derive (Gas.mkDerive (f_gas_max f) (f_gas_limit f)
                                              (isolate_gas args))) in
  modify (enter_child args f parent_gas) ;;
  ret 0.

Definition exec_runvm (x : Z) : VM Z := exec_runvm_common x.
Definition exec_runvmx : VM Z :=
  let* x := on_stack (Stack.pop_smallint_range 0 0xfff) in
  exec_runvm_common x.
End Instructions.
