(* ===== verification/GasOps.v ===== *)
(** * Gas instructions (instr/gasops.rs) *)

From S2P Require Import Prelude External Values VmStack VmGas VmRegs VmState ArithOps.

Open Scope vm_scope.

Section Instructions.
Context `{CL : CellLib}.

(** [x.magnitude().to_i64().unwrap_or(i64::MAX)] of a positive [x]. *)
Definition positive_i64 (x : Z) : Z := default I64_MAX (to_i64 x).

(** [x <<= 16; x /= price]. *)
Definition gas_for_grams (x price : Z) : Z := Z.quot (Z.shiftl x 16) price.

Definition exec_set_gas (gas_limit : Z) : VM Z :=
  let* g := gets gas in
  ensure (Gas.consumed g <=? gas_limit) OutOfGas ;;
  modify (fun s => set_gas (Gas.set_limit gas_limit (gas s)) s) ;;
  let* m := gets modifiers in
  if stop_on_accept m then jump (QuitCont 0) else ret 0.

Definition exec_accept : VM Z := exec_set_gas I64_MAX.

Definition exec_set_gas_limit : VM Z :=
  let* x := on_stack Stack.pop_int in
  exec_set_gas (if 0 <? x then positive_i64 x else 0).

Definition exec_buy_gas : VM Z :=
  let* x := on_stack Stack.pop_int in
  let* g := gets gas in
  exec_set_gas (if 0 <? x then positive_i64 (gas_for_grams x (Gas.gas_price g)) else 0).

Definition exec_gram_to_gas : VM Z :=
  let* x := on_stack Stack.pop_int in
  let* g := gets gas in
  done_ (on_stack (
    if 0 <? x then Stack.push_int (positive_i64 (gas_for_grams x (Gas.gas_price g)))
    else Stack.push_zero)).

Definition exec_gas_to_gram : VM Z :=
  let* x := on_stack Stack.pop_int in
  let* g := gets gas in
  done_ (on_stack (Stack.push_raw_int (Z.shiftr (x * Gas.gas_price g) 16) false)).

Definition exec_gas_consumed : VM Z :=
  require_ton 4 ;;
  let* g := gets gas in
  done_ (on_stack (Stack.push_int (Gas.consumed g))).

Definition exec_commit : VM Z := done_ force_commit.
End Instructions.
