(* ===== verification/CellOps.v ===== *)
(** * Cell instructions (instr/cellops.rs)

    Constants from the code, comparison of slices, serialization into builders and
    deserialization from slices.  A slice popped from the stack and pushed back with
    another range keeps its cell, as in the source. *)

From S2P Require Import Prelude External Cells Values VmStack VmGas VmState ArithOps ContOps.

Open Scope vm_scope.

(** [LoadMode::UseGas]. *)
Definition LoadMode_UseGas : LoadMode := mkLoadMode true false.

(** ** The arguments of the instructions *)

Inductive PushRefMode := PushRefCell | PushRefSlice | PushRefCont.
Inductive SliceBoolUnaryOp := IsEmpty | NoBits | NoRefs | FirstBit.
Inductive SliceBinaryOp :=
| DataEq | IsPrefix | IsPrefixRev | IsProperPrefix | IsProperPrefixRev
| IsSuffix | IsSuffixRev | IsProperSuffix | IsProperSuffixRev.
Inductive SliceIntUnaryOp := Leading0 | Leading1 | Trailing0 | Trailing1.
Inductive CheckMode := CheckBits | CheckRefs | CheckBitRefs.
Inductive SliceRangeOp := CutFirst | SkipFirst | CutLast | SkipLast.
Inductive LevelOp := LevelHash | LevelDepth.

(** The packed flags [StoreIntArgs], [StoreLeIntArgs], [LoadIntArgs], [LoadLeIntArgs] and
    [LoadSliceArgs]: bit 0 is the lowest. *)
Definition flag (args mask : Z) : bool := negb (Z.land args mask =? 0).

Definition store_unsigned (args : Z) : bool := flag args 1.
Definition store_signed (args : Z) : bool := negb (store_unsigned args).
Definition store_reversed (args : Z) : bool := flag args 2.
Definition store_quiet (args : Z) : bool := flag args 4.
Definition from_sign (signed : bool) : Z := Z.b2z (negb signed).

Definition le_unsigned (args : Z) : bool := flag args 1.
Definition le_long (args : Z) : bool := flag args 2.
Definition le_prefetch (args : Z) : bool := flag args 4.
Definition le_quiet (args : Z) : bool := flag args 8.

Definition load_unsigned (args : Z) : bool := flag args 1.
Definition load_signed (args : Z) : bool := negb (load_unsigned args).
Definition load_prefetch (args : Z) : bool := flag args 2.
Definition load_quiet (args : Z) : bool := flag args 4.

Definition slice_prefetch (args : Z) : bool := flag args 1.
Definition slice_quiet (args : Z) : bool := flag args 2.

Section CellOps.
Context `{SL : SliceLib}.

#[local] Abbreviation SM := (MS (list value) VmError).

(** [?] on a result of the crate. *)
Definition cell_ok {S A} (r : result Error A) : MS S VmError A := map_err CellError (of_result r).

Definition underflow {S A} : MS S VmError A := raise (CellError CellUnderflow).
Definition overflow {S A} : MS S VmError A := raise (CellError CellOverflow).
Definition ensure_cell {S} (c : bool) (e : Error) : MS S VmError unit := ensure c (CellError e).

(** [cs.set_range(range)] before the slice is pushed back. *)
Definition push_range (cs : OwnedCellSlice) (r : CellSliceRange) : SM unit :=
  Stack.push_raw (VSlice (set_range r cs)).
Definition push_builder (b : CellBuilder) : SM unit := Stack.push_raw (VBuilder b).
Definition push_slice (cs : OwnedCellSlice) : SM unit := Stack.push_raw (VSlice cs).
Definition push_cell (c : Cell) : SM unit := Stack.push (VCell c).

(** [compute_depth]. *)
Definition compute_depth (refs : list Cell) : Z :=
  fold_left (fun depth c => Z.max depth (Z.min 65535 (repr_depth c + 1))) refs 0.

(** ** Constants in the code *)

(** The next [data_bits] and [refs] of the code after the opcode. *)
Definition code_const (bits data_bits refs : Z) : VM CellSliceRange :=
  let* r := gets (fun st => range (code st)) in
  ensure (has_remaining r (bits + data_bits) refs) InvalidOpcode ;;
  code_skip bits 0 ;;
  let* r := gets (fun st => range (code st)) in
  let slice_range := match only_first r data_bits refs with Ok r => r | Err _ => r end in
  code_skip data_bits refs ;;
  ret slice_range.

(** [remove_trailing] of util.rs. *)
Definition remove_trailing (slice : OwnedCellSlice) : result Error OwnedCellSlice :=
  let bits := slice_bits slice in
  if bits =? 0 then Ok slice
  else
    match count_trailing slice false with
    | Err e => Err e
    | Ok n => slice_skip_last slice (n + Z.b2z (negb (n =? bits))) 0
    end.

(** The constant without its tag and trailing zeros. *)
Definition trimmed (slice_range : CellSliceRange) : VM OwnedCellSlice :=
  let* c := gets (fun st => cell (code st)) in
  let* slice := cell_ok (range_apply slice_range c) in
  cell_ok (remove_trailing slice).

Definition exec_push_ref_common (bits : Z) (mode : PushRefMode) : VM Z :=
  let* c := exec_cell_prefix bits in
  (match mode with
   | PushRefCell => on_stack (push_cell c)
   | PushRefSlice =>
       let* cs := on_gas (Gas.load_cell_as_slice c LoadMode_Full) in
       on_stack (push_slice cs)
   | PushRefCont => let* k := ref_to_cont c in on_stack (Stack.push_raw (VCont k))
   end) ;;
  ret 0.
Definition exec_push_ref (args bits : Z) : VM Z := exec_push_ref_common bits PushRefCell.
Definition exec_push_ref_slice (args bits : Z) : VM Z := exec_push_ref_common bits PushRefSlice.
Definition exec_push_ref_cont (args bits : Z) : VM Z := exec_push_ref_common bits PushRefCont.

Definition exec_push_slice_common (bits data_bits refs : Z) : VM Z :=
  let* r := code_const bits data_bits refs in
  let* slice := trimmed r in
  let* c := gets (fun st => cell (code st)) in
  done_ (on_stack (push_slice (mkSlice (range slice) c))).
Definition exec_push_slice (args bits : Z) : VM Z :=
  exec_push_slice_common bits (Z.land args 0xf * 8 + 4) 0.
Definition exec_push_slice_r (args bits : Z) : VM Z :=
  exec_push_slice_common bits (Z.land args 0x1f * 8 + 1) (Z.land (Z.shiftr args 5) 3 + 1).
Definition exec_push_slice_r2 (args bits : Z) : VM Z :=
  exec_push_slice_common bits (Z.land args 0x7f * 8 + 6) (Z.land (Z.shiftr args 7) 7).

Definition exec_push_cont_common (bits data_bits refs : Z) : VM Z :=
  let* r := code_const bits data_bits refs in
  let* c := gets (fun st => cell (code st)) in
  let* id := gets cp in
  done_ (on_stack (Stack.push_raw (VCont (simple (mkSlice r c) id)))).
Definition exec_push_cont (args bits : Z) : VM Z :=
  exec_push_cont_common bits (Z.land args 0x7f * 8) (Z.land (Z.shiftr args 7) 3).
Definition exec_push_cont_simple (args bits : Z) : VM Z :=
  exec_push_cont_common bits (Z.land args 0xf * 8) 0.

(** ** Comparison of slices *)

Definition exec_slice_bool_unary_op (op : SliceBoolUnaryOp) : VM Z :=
  done_ (on_stack (
    let* cs := Stack.pop_cs in
    let r := range cs in
    Stack.push_bool
      match op with
      | IsEmpty => is_data_empty r && is_refs_empty r
      | NoBits => is_data_empty r
      | NoRefs => is_refs_empty r
      | FirstBit => match get_bit cs 0 with Ok b => b | Err _ => false end
      end)).

(** [Ordering as i8]. *)
Definition ordering_int (c : comparison) : Z := match c with Lt => -1 | Eq => 0 | Gt => 1 end.

Definition exec_slice_lex_cmp : VM Z :=
  done_ (on_stack (
    let* cs2 := Stack.pop_cs in
    let* cs1 := Stack.pop_cs in
    let* res := cell_ok (lex_cmp cs1 cs2) in
    Stack.push_int (ordering_int res))).

Definition is_proper (left right : OwnedCellSlice) : bool := slice_bits left <? slice_bits right.

(** [proper && slice.is_..(other)?]: the test is not made if [proper] fails. *)
Definition and_test (proper : bool) (test : result Error bool) : result Error bool :=
  if proper then test else Ok false.

Definition slice_bin_op (op : SliceBinaryOp) (s1 s2 : OwnedCellSlice) : result Error bool :=
  match op with
  | DataEq => match lex_cmp s1 s2 with Ok c => Ok (bool_decide (c = Eq)) | Err e => Err e end
  | IsPrefix => is_data_prefix_of s1 s2
  | IsPrefixRev => is_data_prefix_of s2 s1
  | IsProperPrefix => and_test (is_proper s1 s2) (is_data_prefix_of s1 s2)
  | IsProperPrefixRev => and_test (is_proper s2 s1) (is_data_prefix_of s2 s1)
  | IsSuffix => is_data_suffix_of s1 s2
  | IsSuffixRev => is_data_suffix_of s2 s1
  | IsProperSuffix => and_test (is_proper s1 s2) (is_data_suffix_of s1 s2)
  | IsProperSuffixRev => and_test (is_proper s2 s1) (is_data_suffix_of s2 s1)
  end.

Definition exec_slice_bin_op (op : SliceBinaryOp) : VM Z :=
  done_ (on_stack (
    let* cs2 := Stack.pop_cs in
    let* cs1 := Stack.pop_cs in
    let* res := cell_ok (slice_bin_op op cs1 cs2) in
    Stack.push_bool res)).

Definition exec_slice_int_unary_op (op : SliceIntUnaryOp) : VM Z :=
  done_ (on_stack (
    let* cs := Stack.pop_cs in
    let* res := cell_ok
      match op with
      | Leading0 => count_leading cs false
      | Leading1 => count_leading cs true
      | Trailing0 => count_trailing cs false
      | Trailing1 => count_trailing cs true
      end in
    Stack.push_int res)).

(** ** Serialization *)

Definition finish_store_overflow (arg1 arg2 : value) (quiet : bool) : SM Z :=
  if quiet then
    Stack.push_raw arg1 ;;
    Stack.push_raw arg2 ;;
    Stack.push_bool true ;;
    ret 0
  else overflow.

Definition finish_store_ok (builder : CellBuilder) (quiet : bool) : SM Z :=
  push_builder builder ;;
  (if quiet then Stack.push_bool false else ret tt) ;;
  ret 0.

Definition exec_new_builder : VM Z := done_ (on_stack (push_builder builder_new)).

Definition exec_builder_to_cell : VM Z :=
  let* builder := on_stack Stack.pop_builder in
  let* c := on_gas (Gas.build_ext builder) in
  done_ (on_stack (push_cell c)).

(** [Vec::resize] on the bytes of an integer, then big-endian. *)
Definition int_bytes (signed : bool) (int minimal_bytes : Z) : list Z :=
  let bytes := if signed then to_signed_bytes_le int else to_bytes_le int in
  let prefix :=
    if signed then match last bytes with Some first => Z.shiftr first 7 * 255 | None => 0 end else 0 in
  reverse (resize (Z.to_nat minimal_bytes) prefix bytes).

(** Storing an integer that fits: a [u64] directly, others as bytes shifted to the left
    of the last one. *)
Definition store_int (builder : CellBuilder) (x bits : Z) (signed : bool) : result Error CellBuilder :=
  match to_u64 x with
  | Some value => store_uint builder value bits
  | None =>
      let int := if bits mod 8 =? 0 then x else Z.shiftl x (8 - bits mod 8) in
      store_raw builder (int_bytes signed int ((bits + 7) / 8)) bits
  end.

Definition finish_store_fail (builder : CellBuilder) (x code args : Z) : SM Z :=
  (if store_reversed args then
     Stack.push_raw_int x true ;; push_builder builder
   else
     push_builder builder ;; Stack.push_raw_int x true) ;;
  Stack.push_int code ;;
  ret 0.

Definition exec_store_int_common (bits args : Z) : SM Z :=
  let* (builder, x) :=
    (if store_reversed args then
       let* x := Stack.pop_int in let* b := Stack.pop_builder in ret (b, x)
     else
       let* b := Stack.pop_builder in let* x := Stack.pop_int in ret (b, x)) in
  if negb (has_capacity builder bits 0) then
    if store_quiet args then finish_store_fail builder x (-1) args else overflow
  else
    let int_bits := bitsize (store_signed args) x in
    if bits <? int_bits then
      if store_quiet args then finish_store_fail builder x 1 args
      else raise (IntegerOutOfRange 0 bits int_bits)
    else
      let* builder := cell_ok (store_int builder x bits (store_signed args)) in
      finish_store_ok builder (store_quiet args).

Definition exec_store_int (x : Z) (signed : bool) : VM Z :=
  on_stack (exec_store_int_common x (from_sign signed)).
Definition exec_store_int_var (s : Z) : VM Z :=
  on_stack (
    let* bits := Stack.pop_smallint_range 0 (256 + Z.b2z (store_signed s)) in
    exec_store_int_common bits s).
Definition exec_store_int_fixed (s n : Z) : VM Z := on_stack (exec_store_int_common n s).

(** A reference to [c]; on overflow the operands go back in the order they came. *)
Definition store_ref_or (builder : CellBuilder) (c : Cell) (back : SM Z) (quiet : bool) : SM Z :=
  if negb (has_capacity builder 0 1) then back
  else
    let* builder := cell_ok (store_reference builder c) in
    finish_store_ok builder quiet.

Definition exec_store_ref (quiet : bool) : VM Z :=
  on_stack (
    let* builder := Stack.pop_builder in
    let* c := Stack.pop_cell in
    store_ref_or builder c (finish_store_overflow (VCell c) (VBuilder builder) quiet) quiet).
Definition exec_store_ref_rev (quiet : bool) : VM Z :=
  on_stack (
    let* c := Stack.pop_cell in
    let* builder := Stack.pop_builder in
    store_ref_or builder c (finish_store_overflow (VBuilder builder) (VCell c) quiet) quiet).

(** A cell made of another builder. *)
Definition store_child (builder child : CellBuilder) (back : SM Z) (quiet : bool) : VM Z :=
  if negb (has_capacity builder 0 1) then on_stack back
  else
    let* c := on_gas (Gas.build_ext child) in
    let* builder := cell_ok (store_reference builder c) in
    on_stack (finish_store_ok builder quiet).

Definition exec_store_builder_as_ref_rev (quiet : bool) : VM Z :=
  let* child := on_stack Stack.pop_builder in
  let* builder := on_stack Stack.pop_builder in
  store_child builder child (finish_store_overflow (VBuilder builder) (VBuilder child) quiet) quiet.
Definition exec_store_builder_as_ref (quiet : bool) : VM Z :=
  let* builder := on_stack Stack.pop_builder in
  let* child := on_stack Stack.pop_builder in
  store_child builder child (finish_store_overflow (VBuilder child) (VBuilder builder) quiet) quiet.

(** [OwnedCellSlice::fits_into]. *)
Definition fits_into (cs : OwnedCellSlice) (builder : CellBuilder) : bool :=
  has_capacity builder (slice_bits cs) (slice_size_refs cs).

Definition store_slice_or (builder : CellBuilder) (cs : OwnedCellSlice) (back : SM Z) (quiet : bool) : SM Z :=
  if negb (fits_into cs builder) then back
  else
    let* builder := cell_ok (store_slice builder cs) in
    finish_store_ok builder quiet.

Definition exec_store_slice (quiet : bool) : VM Z :=
  on_stack (
    let* builder := Stack.pop_builder in
    let* cs := Stack.pop_cs in
    store_slice_or builder cs (finish_store_overflow (VSlice cs) (VBuilder builder) quiet) quiet).
Definition exec_store_slice_rev (quiet : bool) : VM Z :=
  on_stack (
    let* cs := Stack.pop_cs in
    let* builder := Stack.pop_builder in
    store_slice_or builder cs (finish_store_overflow (VBuilder builder) (VSlice cs) quiet) quiet).

Definition store_builder_or (builder other : CellBuilder) (back : SM Z) (quiet : bool) : SM Z :=
  if negb (has_capacity builder (builder_size_bits other) (builder_size_refs other)) then back
  else
    let* builder := cell_ok (store_builder builder other) in
    finish_store_ok builder quiet.

Definition exec_store_builder (quiet : bool) : VM Z :=
  on_stack (
    let* builder := Stack.pop_builder in
    let* other := Stack.pop_builder in
    store_builder_or builder other (finish_store_overflow (VBuilder other) (VBuilder builder) quiet) quiet).
Definition exec_store_builder_rev (quiet : bool) : VM Z :=
  on_stack (
    let* other := Stack.pop_builder in
    let* builder := Stack.pop_builder in
    store_builder_or builder other (finish_store_overflow (VBuilder builder) (VBuilder other) quiet) quiet).

(** The next [n] references of the code into the builder. *)
Fixpoint store_code_refs (n : nat) (code : OwnedCellSlice) (builder : CellBuilder)
    : result Error (OwnedCellSlice * CellBuilder) :=
  match n with
  | O => Ok (code, builder)
  | S n =>
      match slice_load_reference code with
      | Err e => Err e
      | Ok (c, code) =>
          match store_reference builder c with
          | Err e => Err e
          | Ok builder => store_code_refs n code builder
          end
      end
  end.

Definition exec_store_const_ref (args bits : Z) : VM Z :=
  let refs := Z.land args 1 + 1 in
  let* r := gets (fun st => range (code st)) in
  ensure (has_remaining r bits refs) InvalidOpcode ;;
  code_skip bits 0 ;;
  let* builder := on_stack Stack.pop_builder in
  ensure_cell (has_capacity builder 0 refs) CellOverflow ;;
  let* code0 := gets code in
  let* (code, builder) := cell_ok (store_code_refs (Z.to_nat refs) code0 builder) in
  modify (set_code_field (set_range (range code) code0)) ;;
  done_ (on_stack (push_builder builder)).

(** [swap_bytes] of [k] bytes. *)
Fixpoint swap_bytes (k : nat) (v : Z) : Z :=
  match k with
  | O => 0
  | S k => Z.shiftl (Z.land v 0xff) (8 * Z.of_nat k) + swap_bytes k (Z.shiftr v 8)
  end.

(** The integer as [i32], [i64], [u32] or [u64], reinterpreted as unsigned. *)
Definition to_le_int (args x : Z) : option Z :=
  match le_unsigned args, le_long args with
  | false, false => option_map (wrap_u 32) (to_i32 x)
  | false, true => option_map (wrap_u 64) (to_i64 x)
  | true, false => to_u32 x
  | true, true => to_u64 x
  end.
Definition le_bits (args : Z) : Z := if le_long args then 64 else 32.
Definition le_swap (args v : Z) : Z := swap_bytes (if le_long args then 8 else 4) v.

(** The message of the range error is empty in the source; it is 0 here. *)
Definition exec_store_le_int (s : Z) : VM Z :=
  done_ (on_stack (
    let* builder := Stack.pop_builder in
    ensure_cell (has_capacity builder (le_bits s) 0) CellOverflow ;;
    let* x := Stack.pop_int in
    let* x := of_option (IntegerOutOfRange 0 (le_bits s) 0) (to_le_int s x) in
    let* builder := cell_ok (store_uint builder (le_swap s x) (le_bits s)) in
    push_builder builder)).

Definition exec_builder_to_special_cell : VM Z :=
  let* special := on_stack Stack.pop_bool in
  let* builder := on_stack Stack.pop_builder in
  let* c := on_gas (Gas.build_ext (set_exotic special builder)) in
  done_ (on_stack (push_cell c)).

Definition exec_builder_depth : VM Z :=
  done_ (on_stack (
    let* b := Stack.pop_builder in
    Stack.push_int (compute_depth (builder_references b)))).
Definition exec_builder_bits : VM Z :=
  done_ (on_stack (let* b := Stack.pop_builder in Stack.push_int (builder_size_bits b))).
Definition exec_builder_refs : VM Z :=
  done_ (on_stack (let* b := Stack.pop_builder in Stack.push_int (builder_size_refs b))).
Definition exec_builder_bits_refs : VM Z :=
  done_ (on_stack (
    let* b := Stack.pop_builder in
    Stack.push_int (builder_size_bits b) ;; Stack.push_int (builder_size_refs b))).
Definition exec_builder_rem_bits : VM Z :=
  done_ (on_stack (let* b := Stack.pop_builder in Stack.push_int (spare_capacity_bits b))).
Definition exec_builder_rem_refs : VM Z :=
  done_ (on_stack (let* b := Stack.pop_builder in Stack.push_int (spare_capacity_refs b))).
Definition exec_builder_rem_bits_refs : VM Z :=
  done_ (on_stack (
    let* b := Stack.pop_builder in
    Stack.push_int (spare_capacity_bits b) ;; Stack.push_int (spare_capacity_refs b))).

(** The verdict of a check: pushed, or an overflow if it fails. *)
Definition finish_check (fits quiet : bool) : SM unit :=
  if quiet then Stack.push_bool fits else ensure_cell fits CellOverflow.

Definition exec_builder_chk_bits (x : Z) (quiet : bool) : VM Z :=
  done_ (on_stack (
    let* b := Stack.pop_builder in
    finish_check (has_capacity b x 0) quiet)).

(** The numbers of bits and references to check. *)
Definition pop_check (mode : CheckMode) (max_refs : Z) : SM (Z * Z) :=
  match mode with
  | CheckBits => let* bits := Stack.pop_smallint_range 0 1023 in ret (bits, 0)
  | CheckRefs => let* refs := Stack.pop_smallint_range 0 max_refs in ret (0, refs)
  | CheckBitRefs =>
      let* refs := Stack.pop_smallint_range 0 max_refs in
      let* bits := Stack.pop_smallint_range 0 1023 in
      ret (bits, refs)
  end.

Definition exec_builder_chk_bits_refs (mode : CheckMode) (quiet : bool) : VM Z :=
  done_ (on_stack (
    let* (bits, refs) := pop_check mode 7 in
    let* b := Stack.pop_builder in
    finish_check (has_capacity b bits refs) quiet)).

(** The bit asked for, or popped. *)
Definition same_value (value : option bool) : SM bool :=
  match value with
  | Some value => ret value
  | None => let* n := Stack.pop_smallint_range 0 1 in ret (negb (n =? 0))
  end.

Definition exec_store_same (value : option bool) : VM Z :=
  done_ (on_stack (
    let* value := same_value value in
    let* bits := Stack.pop_smallint_range 0 1023 in
    let* b := Stack.pop_builder in
    ensure_cell (has_capacity b bits 0) CellOverflow ;;
    let* b := cell_ok (if value : bool then store_ones b bits else store_zeros b bits) in
    push_builder b)).

Definition exec_store_const_slice (args bits : Z) : VM Z :=
  let data_bits := Z.land args 7 * 8 + 2 in
  let refs := Z.land (Z.shiftr args 3) 3 in
  let* r := code_const bits data_bits refs in
  let* slice := trimmed r in
  done_ (on_stack (
    let* b := Stack.pop_builder in
    let* b := cell_ok (store_slice b slice) in
    push_builder b)).

(** ** Deserialization *)

Definition exec_cell_to_slice : VM Z :=
  let* c := on_stack Stack.pop_cell in
  let* cs := on_gas (Gas.load_cell_as_slice c LoadMode_Full) in
  done_ (on_stack (push_slice cs)).

Definition exec_slice_chk_empty : VM Z :=
  done_ (on_stack (
    let* cs := Stack.pop_cs in
    ensure_cell ((slice_bits cs =? 0) && (slice_size_refs cs =? 0)) CellUnderflow)).

(** What was read goes below the rest of the slice, which a prefetch leaves out; a
    quiet instruction reports success. *)
Definition finish_load (cs : OwnedCellSlice) (rest : CellSliceRange) (prefetch quiet : bool) : SM Z :=
  (if prefetch then ret tt else push_range cs rest) ;;
  (if quiet then Stack.push_bool true else ret tt) ;;
  ret 0.

(** A slice that is too short: an error, or the slice (unless prefetching) and [false]. *)
Definition finish_short (cs : OwnedCellSlice) (prefetch quiet : bool) : SM Z :=
  if negb quiet then underflow
  else
    (if prefetch then ret tt else push_slice cs) ;;
    Stack.push_bool false ;;
    ret 0.

Definition exec_load_int_common (bits args : Z) : SM Z :=
  let* cs := Stack.pop_cs in
  if negb (has_remaining (range cs) bits 0) then
    finish_short cs (load_prefetch args) (load_quiet args)
  else
    let* (int, rest) := cell_ok (load_bigint (range cs) (cell cs) bits (load_signed args)) in
    Stack.push_int int ;;
    finish_load cs rest (load_prefetch args) (load_quiet args).

Definition exec_load_int_fixed (x : Z) (signed : bool) : VM Z :=
  on_stack (exec_load_int_common x (from_sign signed)).
Definition exec_load_int_var (s : Z) : VM Z :=
  on_stack (
    let* bits := Stack.pop_smallint_range 0 (256 + Z.b2z (load_signed s)) in
    exec_load_int_common bits s).
Definition exec_load_int_fixed2 (s n : Z) : VM Z := on_stack (exec_load_int_common n s).

Definition exec_load_ref : VM Z :=
  done_ (on_stack (
    let* cs := Stack.pop_cs in
    ensure_cell (0 <? slice_size_refs cs) CellUnderflow ;;
    let* (c, rest) := cell_ok (slice_load_reference cs) in
    push_cell c ;;
    push_range cs (range rest))).

Definition exec_load_ref_rev_to_slice : VM Z :=
  let* cs := on_stack Stack.pop_cs in
  ensure_cell (0 <? slice_size_refs cs) CellUnderflow ;;
  let* (c, rest) := cell_ok (slice_load_reference cs) in
  let* child_cs := on_gas (Gas.load_cell_as_slice c LoadMode_Full) in
  done_ (on_stack (push_range cs (range rest) ;; push_slice child_cs)).

Definition exec_load_slice_common (bits args : Z) : SM Z :=
  let* cs := Stack.pop_cs in
  if negb (has_remaining (range cs) bits 0) then
    finish_short cs (slice_prefetch args) (slice_quiet args)
  else
    push_slice (set_range (get_prefix (range cs) bits 0) cs) ;;
    let rest := match skip_first (range cs) bits 0 with Ok r => r | Err _ => range cs end in
    finish_load cs rest (slice_prefetch args) (slice_quiet args).

Definition exec_load_slice_fixed (x : Z) : VM Z := on_stack (exec_load_slice_common x 0).
Definition exec_load_slice (s : Z) : VM Z :=
  on_stack (let* bits := Stack.pop_smallint_range 0 1023 in exec_load_slice_common bits s).
Definition exec_load_slice_fixed2 (s n : Z) : VM Z := on_stack (exec_load_slice_common n s).

(** [checked_shl(n).unwrap_or_default()] of a [u64]. *)
Definition shl_or_zero (v n : Z) : Z := if n <? 64 then wrap_u 64 (Z.shiftl v n) else 0.

(** The next [x] bits as an unsigned integer, missing ones as zeros, and the range after
    the bits read; [None] stands for NaN. *)
Definition preload_uint (cs : OwnedCellSlice) (x : Z) : result Error (option Z * CellSliceRange) :=
  let ld_bits := Z.min (slice_bits cs) x in
  if (0 <=? x) && (x <=? 64) then
    match slice_load_uint cs ld_bits with
    | Ok (value, rest) => Ok (Some (shl_or_zero value (x - ld_bits)), range rest)
    | Err e => Err e
    end
  else if (65 <=? x) && (x <=? 256) then
    let rshift := (8 - ld_bits mod 8) mod 8 in
    let lshift := x - ld_bits in
    match slice_load_raw cs ld_bits with
    | Ok (bytes, rest) =>
        let int := from_bytes_be bytes in
        Ok (Some (match rshift ?= lshift with
                  | Lt => Z.shiftl int (lshift - rshift)
                  | Gt => Z.shiftr int (rshift - lshift)
                  | Eq => int
                  end), range rest)
    | Err e => Err e
    end
  else Ok (None, range cs).

Definition exec_preload_uint_fixed_0e (x : Z) : VM Z :=
  done_ (on_stack (
    let* cs := Stack.pop_cs in
    let* (int, rest) := cell_ok (preload_uint cs x) in
    push_range cs rest ;;
    match int with Some int => Stack.push_int int | None => Stack.push_nan end)).

Definition range_op (op : SliceRangeOp) (r : CellSliceRange) (bits refs : Z)
    : result Error CellSliceRange :=
  match op with
  | CutFirst => only_first r bits refs
  | SkipFirst => skip_first r bits refs
  | CutLast => only_last r bits refs
  | SkipLast => skip_last r bits refs
  end.
(** A range operation whose result is only asserted. *)
Definition range_or (r : CellSliceRange) (res : result Error CellSliceRange) : CellSliceRange :=
  match res with Ok r => r | Err _ => r end.

Definition exec_slice_range_op (op : SliceRangeOp) : VM Z :=
  done_ (on_stack (
    let* bits := Stack.pop_smallint_range 0 1023 in
    let* cs := Stack.pop_cs in
    ensure_cell (has_remaining (range cs) bits 0) CellUnderflow ;;
    push_range cs (range_or (range cs) (range_op op (range cs) bits 0)))).
Definition exec_slice_full_range_op (op : SliceRangeOp) : VM Z :=
  done_ (on_stack (
    let* refs := Stack.pop_smallint_range 0 4 in
    let* bits := Stack.pop_smallint_range 0 1023 in
    let* cs := Stack.pop_cs in
    ensure_cell (has_remaining (range cs) bits refs) CellUnderflow ;;
    push_range cs (range_or (range cs) (range_op op (range cs) bits refs)))).

(** [skip_first] and then [only_first]. *)
Definition sub_range (r : CellSliceRange) (off_bits off_refs bits refs : Z) : CellSliceRange :=
  let r := range_or r (skip_first r off_bits off_refs) in
  range_or r (only_first r bits refs).

Definition exec_slice_substr : VM Z :=
  done_ (on_stack (
    let* len_bits := Stack.pop_smallint_range 0 1023 in
    let* offset_bits := Stack.pop_smallint_range 0 1023 in
    let* cs := Stack.pop_cs in
    ensure_cell (has_remaining (range cs) (offset_bits + len_bits) 0) CellUnderflow ;;
    push_range cs (sub_range (range cs) offset_bits 0 len_bits 0))).
Definition exec_subslice : VM Z :=
  done_ (on_stack (
    let* len_refs := Stack.pop_smallint_range 0 4 in
    let* len_bits := Stack.pop_smallint_range 0 1023 in
    let* offset_refs := Stack.pop_smallint_range 0 4 in
    let* offset_bits := Stack.pop_smallint_range 0 1023 in
    let* cs := Stack.pop_cs in
    ensure_cell (has_remaining (range cs) (offset_bits + len_bits) (offset_refs + len_refs))
      CellUnderflow ;;
    push_range cs (sub_range (range cs) offset_bits offset_refs len_bits len_refs))).

Definition exec_slice_begins_with_common (prefix : OwnedCellSlice) (quiet : bool) : SM Z :=
  let* cs := Stack.pop_cs in
  match strip_data_prefix cs prefix with
  | None =>
      if negb quiet then underflow
      else push_slice cs ;; Stack.push_bool false ;; ret 0
  | Some slice =>
      push_range cs (range slice) ;;
      (if quiet then Stack.push_bool true else ret tt) ;;
      ret 0
  end.
Definition exec_slice_begins_with (quiet : bool) : VM Z :=
  on_stack (let* target := Stack.pop_cs in exec_slice_begins_with_common target quiet).
Definition exec_slice_begins_with_const (args bits : Z) : VM Z :=
  let quiet := flag args 0x80 in
  let* r := code_const bits (Z.land args 0x7f * 8 + 3) 0 in
  let* slice := trimmed r in
  on_stack (exec_slice_begins_with_common slice quiet).

Definition exec_split (quiet : bool) : VM Z :=
  on_stack (
    let* refs := Stack.pop_smallint_range 0 4 in
    let* bits := Stack.pop_smallint_range 0 1023 in
    let* cs := Stack.pop_cs in
    if negb (has_remaining (range cs) bits refs) then
      if negb quiet then underflow
      else push_slice cs ;; Stack.push_bool false ;; ret 0
    else
      push_slice (set_range (get_prefix (range cs) bits refs) cs) ;;
      push_range cs (range_or (range cs) (skip_first (range cs) bits refs)) ;;
      (if quiet then Stack.push_bool true else ret tt) ;;
      ret 0).

Definition exec_cell_to_slice_maybe_special : VM Z :=
  let* c := on_stack Stack.pop_cell in
  let* cs := on_gas (Gas.load_cell_as_slice c LoadMode_UseGas) in
  done_ (on_stack (push_slice cs ;; Stack.push_bool (is_exotic c))).

(** [st.version.is_ton(..n)]. *)
Definition is_ton_before (v : VmVersion) (before : Z) : bool :=
  match v with Ton version => version <? before | Everscale _ => false end.

(** The cell the library reference [c] stands for, or the error of [handle_error]. *)
Definition find_library (c : Cell) : VM (result Error Cell) :=
  if negb (is_library c) then ret (Err CellUnderflow)
  else
    let* library_hash := cell_ok (get_library_hash c) in
    let* libs := gets (fun st => Gas.libraries (gas st)) in
    match libs library_hash with
    | Ok (Some lib) => ret (Ok lib)
    | Ok None =>
        on_gas (modify (Gas.put_missing (Some library_hash))) ;;
        ret (Err CellUnderflow)
    | Err e => ret (Err e)
    end.

(** The cell XLOAD leaves. *)
Definition special_cell (c : Cell) : VM (result Error Cell) :=
  let* v := gets version in
  if is_ton_before v 5 then ret (Ok c)
  else
    on_gas (Gas.load_cell_impl c LoadMode_UseGas) ;;
    if negb (is_exotic c) then ret (Ok c) else find_library c.

Definition exec_load_special_cell (quiet : bool) : VM Z :=
  let* c := on_stack Stack.pop_cell in
  let* found := special_cell c in
  match found with
  | Ok c =>
      done_ (on_stack (
        Stack.push_raw (VCell c) ;;
        if quiet then Stack.push_bool true else ret tt))
  | Err e =>
      if quiet then done_ (on_stack (Stack.push_bool false)) else raise (CellError e)
  end.

Definition exec_check_slice (mode : CheckMode) (quiet : bool) : VM Z :=
  done_ (on_stack (
    let* (bits, refs) := pop_check mode 4 in
    let* cs := Stack.pop_cs in
    finish_check (has_remaining (range cs) bits refs) quiet)).

Definition preload_ref (cs : OwnedCellSlice) (idx : Z) : SM unit :=
  let* c := cell_ok (get_reference_cloned (range cs) (cell cs) idx) in
  push_cell c.
Definition exec_preload_ref : VM Z :=
  done_ (on_stack (
    let* idx := Stack.pop_smallint_range 0 3 in
    let* cs := Stack.pop_cs in
    preload_ref cs idx)).
Definition exec_preload_ref_fixed (x : Z) : VM Z :=
  done_ (on_stack (let* cs := Stack.pop_cs in preload_ref cs x)).

Definition exec_slice_bits_refs (mode : CheckMode) : VM Z :=
  done_ (on_stack (
    let* cs := Stack.pop_cs in
    (match mode with CheckRefs => ret tt | _ => Stack.push_int (slice_bits cs) end) ;;
    match mode with CheckBits => ret tt | _ => Stack.push_int (slice_size_refs cs) end)).

(** The swapped bytes as the integer the flags ask for. *)
Definition of_le_int (args v : Z) : Z :=
  let v := le_swap args v in
  if le_unsigned args then v else wrap_s (le_bits args) v.

Definition exec_load_le_int (s : Z) : VM Z :=
  on_stack (
    let* cs := Stack.pop_cs in
    if negb (has_remaining (range cs) (le_bits s) 0) then
      finish_short cs (le_prefetch s) (le_quiet s)
    else
      let* (v, rest) := cell_ok (slice_load_uint cs (le_bits s)) in
      Stack.push_int (of_le_int s v) ;;
      finish_load cs (range rest) (le_prefetch s) (le_quiet s)).

Definition exec_load_same (value : option bool) : VM Z :=
  done_ (on_stack (
    let* value := same_value value in
    let* cs := Stack.pop_cs in
    let target := new_allow_exotic (if value : bool then all_ones else all_zeros) in
    let prefix := longest_common_data_prefix cs target in
    let rest := range_or (range cs) (skip_first (range cs) (slice_bits prefix) 0) in
    Stack.push_int (slice_bits prefix) ;;
    push_range cs rest)).

Definition exec_slice_depth : VM Z :=
  done_ (on_stack (
    let* cs := Stack.pop_cs in
    Stack.push_int (compute_depth (slice_references cs)))).
Definition exec_cell_depth : VM Z :=
  done_ (on_stack (
    let* c := Stack.pop_cell_opt in
    match c with
    | Some c => Stack.push_int (compute_depth (references c))
    | None => Stack.push_zero
    end)).
Definition exec_cell_level : VM Z :=
  done_ (on_stack (let* c := Stack.pop_cell in Stack.push_int (level c))).
Definition exec_cell_level_mask : VM Z :=
  done_ (on_stack (let* c := Stack.pop_cell in Stack.push_int (level_mask c))).

Definition exec_cell_level_op_common (level : Z) (op : LevelOp) : SM unit :=
  let* c := Stack.pop_cell in
  Stack.push_int
    match op with
    | LevelHash => hash_to_Z (cell_hash c level)
    | LevelDepth => cell_depth c level
    end.
Definition exec_cell_level_op (x : Z) (op : LevelOp) : VM Z :=
  done_ (on_stack (exec_cell_level_op_common x op)).
Definition exec_cell_level_op_var (op : LevelOp) : VM Z :=
  done_ (on_stack (
    let* x := Stack.pop_smallint_range 0 3 in
    exec_cell_level_op_common x op)).
End CellOps.
