(* ===== verification/Dicts.v ===== *)
(** * Dictionaries and cell contexts

    The dictionary functions of [everscale_types::dict].  They take a [CellContext], to
    which they hand every cell they load or make: a function is a program over these two
    requests, and the gas consumers of gas.rs interpret it.  A request that fails ends the
    program with its error, as [?] does throughout the crate. *)

From S2P Require Import Prelude External Cells Values VmStack VmGas.

Open Scope vm_scope.

(** [dict::SetMode] and [dict::DictBound]. *)
Inductive SetMode := ModeSet | ModeReplace | ModeAdd.
Inductive DictBound := BoundMin | BoundMax.

#[export] Instance SetMode_eq_dec : EqDecision SetMode.
Proof. solve_decision. Defined.

(** ** Programs over a cell context *)

Section Programs.
Context `{SL : SliceLib}.

(** Programs that only load cells, and programs that also make them. *)
Inductive LoadProg (A : Type) : Type :=
| LoadDone (r : result Error A)
| Load (c : Cell) (mode : LoadMode) (k : Cell -> LoadProg A).

Inductive CellProg (A : Type) : Type :=
| ProgDone (r : result Error A)
| ProgLoad (c : Cell) (mode : LoadMode) (k : Cell -> CellProg A)
| ProgMake (parts : CellParts) (k : Cell -> CellProg A).
End Programs.

Arguments LoadDone {CL A} r.
Arguments Load {CL A} c mode k.
Arguments ProgDone {CL SL A} r.
Arguments ProgLoad {CL SL A} c mode k.
Arguments ProgMake {CL SL A} parts k.

(** A value to be stored: [&dyn Store] of a slice, a builder or a cell. *)
Definition StoreValue `{CL : CellLib} : Type := CellBuilder -> result Error CellBuilder.

Class DictLib `{SL : SliceLib} := {
  (** [dict_get] and [dict_get_owned], the borrowed and the owned parts of the value. *)
  dict_get : option Cell -> Z -> OwnedCellSlice -> LoadProg (option OwnedCellSlice);
  (** [dict_find_owned(root, n, key, towards, inclusive, signed)]. *)
  dict_find_owned : option Cell -> Z -> OwnedCellSlice -> DictBound -> bool -> bool ->
    LoadProg (option (CellBuilder * OwnedCellSlice));
  dict_find_bound_owned : option Cell -> Z -> DictBound -> bool ->
    LoadProg (option (CellBuilder * OwnedCellSlice));
  (** The functions that take [&mut root] return the new root last; an error leaves the
      root as it was. *)
  dict_insert : option Cell -> OwnedCellSlice -> Z -> StoreValue -> SetMode ->
    CellProg (bool * option Cell);
  dict_insert_owned : option Cell -> OwnedCellSlice -> Z -> StoreValue -> SetMode ->
    CellProg (bool * option OwnedCellSlice * option Cell);
  dict_remove_owned : option Cell -> OwnedCellSlice -> Z -> bool ->
    CellProg (option OwnedCellSlice * option Cell);
  dict_remove_bound_owned : option Cell -> Z -> DictBound -> bool ->
    CellProg (option (CellBuilder * OwnedCellSlice) * option Cell)
}.

(** ** The gas consumers as contexts *)

Section Contexts.
Context `{SL : SliceLib}.

(** [impl CellContext for GasConsumer]. *)
Fixpoint load_gas {A} (p : LoadProg A) : Gas.GM A :=
  match p with
  | LoadDone r => of_result r
  | Load c mode k => let* c := Gas.load_cell_impl c mode in load_gas (k c)
  end.

Fixpoint with_gas {A} (p : CellProg A) : Gas.GM A :=
  match p with
  | ProgDone r => of_result r
  | ProgLoad c mode k => let* c := Gas.load_cell_impl c mode in with_gas (k c)
  | ProgMake parts k => let* c := Gas.finalize_cell parts in with_gas (k c)
  end.

(** [impl CellContext for LimitedGasConsumer]: it makes no cells. *)
Fixpoint load_limited {A} (p : LoadProg A) : MS Gas.LimitedGasConsumer Error A :=
  match p with
  | LoadDone r => of_result r
  | Load c mode k => let* c := Gas.limited_load_cell c mode in load_limited (k c)
  end.
End Contexts.
