(* ===== verification/DictOps.v ===== *)
(** * Dictionary instructions (instr/dictops.rs)

    The handlers pop the key, the root and the value, call the dictionary functions with
    the gas consumer as their context, and push what comes back. *)

From S2P Require Import Prelude External Cells Values VmStack VmGas VmState ArithOps CellOps Dicts.

Open Scope vm_scope.

(** ** The packed flags of the opcodes *)

(** [DictOpArgs]. *)
Definition dict_unsigned (s : Z) : bool := flag s 0x2.
Definition dict_signed (s : Z) : bool := negb (dict_unsigned s).
Definition dict_int (s : Z) : bool := flag s 0x4.
Definition dict_ref (s : Z) : bool := flag s 0x1.
Definition dict_max (s : Z) : bool := flag s 0x8.
Definition dict_rem (s : Z) : bool := flag s 0x10.

(** [ShortDictOpArgs]. *)
Definition short_unsigned (s : Z) : bool := flag s 0x1.
Definition short_signed (s : Z) : bool := negb (short_unsigned s).
Definition short_int (s : Z) : bool := flag s 0x2.

(** [DictGetNearArgs]. *)
Definition near_eq (s : Z) : bool := flag s 0x1.
Definition near_prev (s : Z) : bool := flag s 0x2.
Definition near_unsigned (s : Z) : bool := flag s 0x4.
Definition near_signed (s : Z) : bool := negb (near_unsigned s).
Definition near_int (s : Z) : bool := flag s 0x8.

(** [DictExecArgs]. *)
Definition dexec_unsigned (s : Z) : bool := flag s 0x1.
Definition dexec_signed (s : Z) : bool := negb (dexec_unsigned s).
Definition dexec_exec (s : Z) : bool := flag s 0x2.
Definition dexec_z (s : Z) : bool := flag s 0x4.

Section DictOps.
Context `{DL : DictLib}.

#[local] Abbreviation SM := (MS (list value) VmError).

(** ** Roots that are loaded and stored *)

Definition exec_stdict : VM Z :=
  done_ (on_stack (
    let* builder := Stack.pop_builder in
    let* c := Stack.pop_cell_opt in
    let* builder := cell_ok (store_opt_cell builder c) in
    push_builder builder)).

Definition exec_skip_dict : VM Z :=
  done_ (on_stack (
    let* cs := Stack.pop_cs in
    let* (bit, rest) := cell_ok (load_bit cs) in
    let* rest := (if bit : bool then cell_ok (slice_skip_first rest 0 1) else ret rest) in
    push_range cs (range rest))).

Definition exec_load_dict_slice (preload : bool) : VM Z :=
  done_ (on_stack (
    let* cs := Stack.pop_cs in
    let* bit := cell_ok (get_bit cs 0) in
    let* (dict_cs, rest) := cell_ok (load_prefix cs 1 (Z.b2z bit)) in
    push_range cs (range dict_cs) ;;
    if preload then ret tt else push_range cs (range rest))).

Definition push_opt_cell (c : option Cell) : SM unit := Stack.push_opt_raw (option_map VCell c).

Definition exec_load_dict (preload quiet : bool) : VM Z :=
  on_stack (
    let* cs := Stack.pop_cs in
    let has_dict :=
      match get_bit cs 0 with
      | Ok has_root => has_remaining (range cs) 1 (Z.b2z has_root)
      | Err _ => false
      end in
    if has_dict then
      let* (dict, rest) := cell_ok (load_opt_cell cs) in
      push_opt_cell dict ;;
      (if preload then ret tt else push_range cs (range rest)) ;;
      (if quiet then Stack.push_bool true else ret tt) ;;
      ret 0
    else if quiet then
      (if preload then ret tt else push_slice cs) ;;
      Stack.push_bool false ;;
      ret 0
    else underflow).

(** ** Keys and values *)

(** The key of an integer, or a prefix of a slice. *)
Definition int_key (int n : Z) (signed : bool) : SM OwnedCellSlice :=
  let* cb := cell_ok (store_bigint builder_new int n signed) in
  ret (as_data_slice cb).
Definition slice_key (n : Z) : SM OwnedCellSlice :=
  let* cs := Stack.pop_cs in
  let* (key, _) := cell_ok (load_prefix cs n 0) in
  ret key.

Definition pop_key (is_int signed : bool) (n : Z) : SM OwnedCellSlice :=
  if is_int then
    let* int := Stack.pop_int in
    int_key int n signed
  else slice_key n.

(** [!int.has_correct_sign(signed) || int.bitsize(signed) > n] *)
Definition out_of_key_range (int n : Z) (signed : bool) : bool :=
  negb (has_correct_sign signed int) || (n <? bitsize signed int).

(** The handlers that look for a key answer at once when no key of [n] bits is the
    integer; [None] is that answer. *)
Definition pop_key_opt (is_int signed : bool) (n : Z) : SM (option OwnedCellSlice) :=
  if is_int then
    let* int := Stack.pop_int in
    if out_of_key_range int n signed then ret None
    else let* key := int_key int n signed in ret (Some key)
  else let* key := slice_key n in ret (Some key).

(** The same for GET, which truncates. *)
Definition pop_key_truncated (is_int signed : bool) (n : Z) : SM (option OwnedCellSlice) :=
  if is_int then
    let* int := Stack.pop_int in
    if out_of_key_range int n signed then ret None
    else
      let* cb := cell_ok (store_bigint_truncate builder_new int n signed) in
      ret (Some (as_data_slice cb))
  else let* key := slice_key n in ret (Some key).

(** The value as something to be stored. *)
Definition pop_store_value (b is_ref : bool) : SM StoreValue :=
  let* value := Stack.pop in
  if b then
    let* cb := of_result (into_cell_builder value) in
    ret (fun builder => store_slice builder (as_full_slice cb))
  else if is_ref then
    let* c := of_result (into_cell value) in
    ret (fun builder => store_reference builder c)
  else
    let* cs := of_result (into_cell_slice value) in
    ret (fun builder => store_slice builder cs).

(** [to_value_ref] and [extract_value_ref]: a value that must be exactly one reference. *)
Definition to_value_ref (cs : OwnedCellSlice) : result VmError value :=
  if negb (slice_bits cs =? 0) || negb (slice_size_refs cs =? 1) then Err DictError
  else match slice_load_reference cs with
       | Ok (c, _) => Ok (VCell c)
       | Err e => Err (CellError e)
       end.
Definition extract_value_ref (cs : OwnedCellSlice) (is_ref : bool) : result VmError value :=
  if is_ref then to_value_ref cs else Ok (VSlice cs).

(** [opt.map(f).transpose()] *)
Definition transpose {A B E} (f : A -> result E B) (o : option A) : result E (option B) :=
  match o with
  | None => Ok None
  | Some a => match f a with Ok b => Ok (Some b) | Err e => Err e end
  end.

(** The width of the keys and the root, which every handler pops first. *)
Definition pop_dict (max_key_bits : Z) : SM (Z * option Cell) :=
  let* n := Stack.pop_smallint_range 0 max_key_bits in
  let* dict := Stack.pop_cell_opt in
  ret (n, dict).

(** ** Operations on one key *)

Definition exec_dict_get (s : Z) : VM Z :=
  let* (n, dict) := on_stack (pop_dict 1023) in
  let* key := on_stack (pop_key_truncated (dict_int s) (dict_signed s) n) in
  match key with
  | None => done_ (on_stack (Stack.push_bool false))
  | Some key =>
      let* value := on_gas (load_gas (dict_get dict n key)) in
      let* value := of_result (transpose (fun cs => extract_value_ref cs (dict_ref s)) value) in
      done_ (on_stack
        match value with
        | None => Stack.push_bool false
        | Some value => Stack.push_raw value ;; Stack.push_bool true
        end)
  end.

(** The result of the insertion is looked at: but for SET, any error of it, an out of gas
    among them, is the flag [false]. *)
Definition finish_dict_set (dict : option Cell) (mode : SetMode) (res : result Error (bool * option Cell))
    : SM Z :=
  push_opt_cell (match res with Ok (_, dict) => dict | Err _ => dict end) ;;
  (if bool_decide (mode = ModeSet) then let* _ := cell_ok res in ret tt
   else Stack.push_bool (match res with Ok _ => true | Err _ => false end)) ;;
  ret 0.

Definition exec_dict_set (s : Z) (b : bool) (mode : SetMode) : VM Z :=
  let* (n, dict) := on_stack (pop_dict 1023) in
  let* key := on_stack (pop_key (dict_int s) (dict_signed s) n) in
  let* value := on_stack (pop_store_value b (dict_ref s)) in
  let* res := on_gas (try_ms (with_gas (dict_insert dict key n value mode))) in
  on_stack (finish_dict_set dict mode res).

(** The old value and the flag that tells whether there was one. *)
Definition push_previous (prev : option value) (found : bool) : SM unit :=
  match prev with
  | Some prev => Stack.push_raw prev ;; Stack.push_bool found
  | None => Stack.push_bool (negb found)
  end.

Definition exec_dict_setget (s : Z) (b : bool) (mode : SetMode) : VM Z :=
  let* (n, dict) := on_stack (pop_dict 1023) in
  let* key := on_stack (pop_key (dict_int s) (dict_signed s) n) in
  let ok_f := negb (bool_decide (mode = ModeAdd)) in
  let* value := on_stack (pop_store_value b (dict_ref s)) in
  let* (_, prev, dict) := on_gas (with_gas (dict_insert_owned dict key n value mode)) in
  let* prev := of_result (transpose (fun p => extract_value_ref p (dict_ref s)) prev) in
  done_ (on_stack (push_opt_cell dict ;; push_previous prev ok_f)).

Definition exec_dict_delete (s : Z) : VM Z :=
  let* (n, dict) := on_stack (pop_dict 1023) in
  let* key := on_stack (pop_key_opt (short_int s) (short_signed s) n) in
  match key with
  | None => done_ (on_stack (push_opt_cell dict ;; Stack.push_bool false))
  | Some key =>
      let* (prev, dict) := on_gas (with_gas (dict_remove_owned dict key n true)) in
      done_ (on_stack (push_opt_cell dict ;; Stack.push_bool (bool_decide (is_Some prev))))
  end.

Definition exec_dict_deleteget (s : Z) : VM Z :=
  let* (n, dict) := on_stack (pop_dict 1023) in
  let* key := on_stack (pop_key_opt (dict_int s) (dict_signed s) n) in
  match key with
  | None => done_ (on_stack (push_opt_cell dict ;; Stack.push_bool false))
  | Some key =>
      let* (prev, dict) := on_gas (with_gas (dict_remove_owned dict key n false)) in
      let* prev := of_result (transpose (fun p => extract_value_ref p (dict_ref s)) prev) in
      done_ (on_stack (push_opt_cell dict ;; push_previous prev true))
  end.

Definition exec_dict_get_optref (s : Z) : VM Z :=
  let* (n, dict) := on_stack (pop_dict 1023) in
  let* key := on_stack (pop_key_opt (short_int s) (short_signed s) n) in
  match key with
  | None => done_ (on_stack Stack.push_null)
  | Some key =>
      let* value := on_gas (load_gas (dict_get dict n key)) in
      let* value := of_result (transpose to_value_ref value) in
      done_ (on_stack (Stack.push_opt_raw value))
  end.

Definition exec_dict_setget_optref (s : Z) : VM Z :=
  let* (n, dict) := on_stack (pop_dict 1023) in
  let* key := on_stack (pop_key (short_int s) (short_signed s) n) in
  let* value := on_stack Stack.pop_cell_opt in
  let* (prev, dict) :=
    match value with
    | Some c =>
        let* (_, prev, dict) :=
          on_gas (with_gas (dict_insert_owned dict key n (fun b => store_reference b c) ModeSet)) in
        ret (prev, dict)
    | None => on_gas (with_gas (dict_remove_owned dict key n false))
    end in
  let* prev := of_result (transpose (fun p => extract_value_ref p true) prev) in
  done_ (on_stack (push_opt_cell dict ;; Stack.push_opt_raw prev)).

(** ** The nearest key, the least and the greatest *)

Definition max_key_bits (is_int signed : bool) : Z := if is_int then 256 + Z.b2z signed else 1023.

(** The key that was found, as an integer or as a slice of a new cell. *)
Definition push_found_int (key : CellBuilder) (n : Z) (signed : bool) : SM unit :=
  let cs := as_data_slice key in
  let* (z, _) := cell_ok (load_bigint (range cs) (cell cs) n signed) in
  Stack.push_int z.
Definition push_found_slice (key : CellBuilder) : VM unit :=
  let* c := on_gas (Gas.build_ext key) in
  on_stack (push_slice (new_allow_exotic c)).

Definition opposite (b : DictBound) : DictBound :=
  match b with BoundMin => BoundMax | BoundMax => BoundMin end.

Definition find_near (s n : Z) (dict : option Cell) (dir : DictBound) (int : Z)
    : VM (option (CellBuilder * OwnedCellSlice)) :=
  let signed := near_signed s in
  if has_correct_sign signed int && (bitsize signed int <=? n) then
    let* key := on_stack (int_key int n signed) in
    on_gas (load_gas (dict_find_owned dict n key dir (near_eq s) signed))
  else if negb (Bool.eqb (int <? 0) (near_prev s)) then
    on_gas (load_gas (dict_find_bound_owned dict n (opposite dir) signed))
  else ret None.

Definition exec_dict_get_near (s : Z) : VM Z :=
  let* (n, dict) := on_stack (pop_dict (max_key_bits (near_int s) (near_signed s))) in
  let dir := if near_prev s then BoundMin else BoundMax in
  if near_int s then
    let* int := on_stack Stack.pop_int in
    let* nearest := find_near s n dict dir int in
    match nearest with
    | None => done_ (on_stack (Stack.push_bool false))
    | Some (key, value) =>
        done_ (on_stack (push_slice value ;; push_found_int key n (near_signed s) ;;
                         Stack.push_bool true))
    end
  else
    let* key := on_stack (slice_key n) in
    let* nearest := on_gas (load_gas (dict_find_owned dict n key dir (near_eq s) false)) in
    match nearest with
    | None => done_ (on_stack (Stack.push_bool false))
    | Some (key, value) =>
        on_stack (push_slice value) ;;
        push_found_slice key ;;
        done_ (on_stack (Stack.push_bool true))
    end.

(** The value at the bound is pushed, and its key returned. *)
Definition take_bound (s n : Z) (dict : option Cell) (bound : DictBound) : VM (option CellBuilder) :=
  let signed := dict_signed s in
  let push_value p :=
    match p with
    | None => ret None
    | Some (key, value) => on_stack (Stack.push_raw value) ;; ret (Some key)
    end in
  let extract (p : CellBuilder * OwnedCellSlice) :=
    match extract_value_ref p.2 (dict_ref s) with Ok v => Ok (p.1, v) | Err e => Err e end in
  if dict_rem s then
    let* (prev, dict) := on_gas (with_gas (dict_remove_bound_owned dict n bound signed)) in
    let* prev := of_result (transpose extract prev) in
    on_stack (push_opt_cell dict) ;;
    push_value prev
  else
    let* found := on_gas (load_gas (dict_find_bound_owned dict n bound signed)) in
    let* found := of_result (transpose extract found) in
    push_value found.

Definition exec_dict_get_min (s : Z) : VM Z :=
  let* (n, dict) := on_stack (pop_dict (max_key_bits (dict_int s) (dict_signed s))) in
  let bound := if dict_max s then BoundMax else BoundMin in
  let* key := take_bound s n dict bound in
  match key with
  | None => done_ (on_stack (Stack.push_bool false))
  | Some key =>
      (if dict_int s then on_stack (push_found_int key n (dict_signed s))
       else push_found_slice key) ;;
      done_ (on_stack (Stack.push_bool true))
  end.

(** ** Code in dictionaries *)

Definition exec_dict_get_exec (s : Z) : VM Z :=
  let* (n, dict) := on_stack (pop_dict 1023) in
  let* idx := on_stack Stack.pop_int in
  let signed := dexec_signed s in
  let not_found := if dexec_z s then done_ (on_stack (Stack.push_raw (VInt idx))) else ret 0 in
  if out_of_key_range idx n signed then not_found
  else
    let* key := on_stack (int_key idx n signed) in
    let* value := on_gas (load_gas (dict_get dict n key)) in
    match value with
    | None => not_found
    | Some value =>
        let* id := gets cp in
        let cont := simple value id in
        if dexec_exec s then call cont else jump cont
    end.

Definition exec_push_const_dict (args bits : Z) : VM Z :=
  let* r := gets (fun st => range (code st)) in
  ensure (has_remaining r bits 1) InvalidOpcode ;;
  code_skip (bits - 11) 0 ;;
  let* code0 := gets code in
  let* (slice, code) := cell_ok (load_prefix code0 1 1) in
  let* dict := cell_ok (get_reference_cloned (range slice) (cell slice) 0) in
  let* (n, code) := cell_ok (slice_load_uint code 10) in
  modify (set_code_field (set_range (range code) code0)) ;;
  done_ (on_stack (push_cell dict ;; Stack.push_int n)).
End DictOps.
