(* ===== verification/Models.v ===== *)
(** * The blockchain models of [everscale_types]

    The transaction executor works on the data model of the crate [everscale_types]:
    amounts, currency collections, addresses, messages, account states and the phases
    of a transaction.  The structures are records and inductive types with the fields
    and constructors the sources use; the operations whose code is in the crate are the
    parameters collected in [ModelLib], and [ModelLaws] states the documented behaviour
    of those the theorems rely on. *)

From S2P Require Import Prelude External Cells.

(** [Tokens::MAX], a variable-length integer of at most 15 bytes. *)
Definition TOKENS_MAX : Z := 2 ^ 120 - 1.

(** [AccountStatus], [AccountStatusChange], [TickTock], [ComputePhaseSkipReason]. *)
Inductive AccountStatus := StUninit | StFrozen | StActive | StNotExists.
Inductive AccountStatusChange := ScUnchanged | ScFrozen | ScDeleted.
Inductive TickTock := Tick | Tock.
Inductive MsgType := TypeInt | TypeExtIn | TypeExtOut.
Inductive ComputePhaseSkipReason := SkipNoState | SkipBadState | SkipNoGas | SkipSuspended.

#[export] Instance AccountStatus_eq_dec : EqDecision AccountStatus.
Proof. solve_decision. Defined.
#[export] Instance AccountStatusChange_eq_dec : EqDecision AccountStatusChange.
Proof. solve_decision. Defined.

(** [StorageUsed], [StorageUsedShort], [CellTreeStats], [StorageInfo]. *)
Record StorageUsed := mkUsed { used_cells : Z; used_bits : Z; used_public_cells : Z }.
Record StorageUsedShort := mkUsedShort { short_cells : Z; short_bits : Z }.
Record CellTreeStats := mkStats { bit_count : Z; cell_count : Z }.
Record StorageInfo := mkStorage { storage_used : StorageUsed; last_paid : Z; due_payment : option Z }.

(** [StoragePrices], [GasLimitsPrices], [SizeLimitsConfig]: configuration parameters
    18, 20 (21) and 43. *)
Record StoragePrices := mkStoragePrices {
  utime_since : Z; bit_price_ps : Z; cell_price_ps : Z; mc_bit_price_ps : Z; mc_cell_price_ps : Z
}.

Record GasLimitsPrices := mkGasPrices {
  gp_gas_price : Z; gp_gas_limit : Z; gp_special_gas_limit : Z; gp_gas_credit : Z;
  gp_freeze_due_limit : Z; gp_delete_due_limit : Z; gp_flat_gas_limit : Z; gp_flat_gas_price : Z
}.

Record SizeLimitsConfig := mkSizeLimits {
  max_msg_bits : Z; max_msg_cells : Z; max_library_cells : Z;
  max_acc_state_cells : Z; max_acc_state_bits : Z; max_acc_public_libraries : Z
}.

(** ** Types over the cells of the crate *)

Section Types.
Context `{CL : CellLib}.

(** [StdAddr] and [VarAddr]; an anycast prefix only matters by its presence. *)
Record StdAddr := mkStdAddr { std_anycast : option Z; std_workchain : Z; std_address : HashBytes }.
Record VarAddr := mkVarAddr {
  var_anycast : option Z; var_address_len : Z; var_workchain : Z; var_address : list Z
}.

(** [IntAddr]. *)
Inductive IntAddr := AddrStd (addr : StdAddr) | AddrVar (addr : VarAddr).

(** [SimpleLib] and [LibRef]. *)
Record SimpleLib := mkLib { lib_public : bool; lib_root : Cell }.
Inductive LibRef := LibCell (c : Cell) | LibHash (h : HashBytes).

#[export] Instance StdAddr_eq_dec : EqDecision StdAddr.
Proof. solve_decision. Defined.
#[export] Instance VarAddr_eq_dec : EqDecision VarAddr.
Proof. solve_decision. Defined.
#[export] Instance IntAddr_eq_dec : EqDecision IntAddr.
Proof. solve_decision. Defined.

(** [is_masterchain] of the addresses. *)
Definition is_masterchain (a : StdAddr) : bool := std_workchain a =? -1.
Definition int_is_masterchain (a : IntAddr) : bool :=
  match a with AddrStd a => is_masterchain a | AddrVar a => var_workchain a =? -1 end.
End Types.
Arguments StdAddr {CL}.
Arguments IntAddr {CL}.

(** [CurrencyCollection], over the type of the extra currencies. *)
Record CurrencyOf (X : Type) := mkCurrency { tokens : Z; other : X }.
Arguments mkCurrency {X} tokens other.
Arguments tokens {X} c.
Arguments other {X} c.

(** [StateInit], over the dictionary of libraries. *)
Record StateInitOf (C L : Type) := mkStateInit {
  split_depth : option Z; special : option (bool * bool);
  si_code : option C; si_data : option C; si_libraries : L
}.
Arguments mkStateInit {C L} split_depth special si_code si_data si_libraries.
Arguments split_depth {C L} s.
Arguments special {C L} s.
Arguments si_code {C L} s.
Arguments si_data {C L} s.
Arguments si_libraries {C L} s.

(** The headers of messages, [MsgInfo] and [RelaxedMsgInfo]: internal messages, whose
    source address is optional in the relaxed form, inbound and outbound external
    messages. *)
Record IntMsgOf (S A X : Type) := mkIntMsg {
  ihr_disabled : bool; im_bounce : bool; im_bounced : bool;
  im_src : S; im_dst : A; im_value : CurrencyOf X; im_ihr_fee : Z; im_fwd_fee : Z;
  im_created_lt : Z; im_created_at : Z
}.
Arguments mkIntMsg {S A X}.
Arguments ihr_disabled {S A X} i.
Arguments im_bounce {S A X} i.
Arguments im_bounced {S A X} i.
Arguments im_src {S A X} i.
Arguments im_dst {S A X} i.
Arguments im_value {S A X} i.
Arguments im_ihr_fee {S A X} i.
Arguments im_fwd_fee {S A X} i.
Arguments im_created_lt {S A X} i.
Arguments im_created_at {S A X} i.

(** An external message to (from) the outside; [E] is the type of external addresses. *)
Record ExtInMsgOf (A E : Type) := mkExtIn { ein_src : option E; ein_dst : A; ein_import_fee : Z }.
Arguments mkExtIn {A E}.
Arguments ein_dst {A E} e.
Record ExtOutMsgOf (S E : Type) := mkExtOut {
  eo_src : S; eo_dst : option E; eo_created_lt : Z; eo_created_at : Z
}.
Arguments mkExtOut {S E}.
Arguments eo_src {S E} e.
Arguments eo_dst {S E} e.
Arguments eo_created_lt {S E} e.
Arguments eo_created_at {S E} e.

Inductive MsgInfoOf (A E X : Type) :=
| MsgInt (info : IntMsgOf A A X)
| MsgExtIn (info : ExtInMsgOf A E)
| MsgExtOut (info : ExtOutMsgOf A E).
Arguments MsgInt {A E X} info.
Arguments MsgExtIn {A E X} info.
Arguments MsgExtOut {A E X} info.

Inductive RelaxedMsgInfoOf (A E X : Type) :=
| RelaxedInt (info : IntMsgOf (option A) A X)
| RelaxedExtOut (info : ExtOutMsgOf (option A) E).
Arguments RelaxedInt {A E X} info.
Arguments RelaxedExtOut {A E X} info.

(** [WorkchainFormat], [WorkchainDescription]. *)
Inductive WorkchainFormatOf (F : Type) := FormatBasic | FormatExtended (f : F).
Arguments FormatBasic {F}.
Arguments FormatExtended {F} f.
Record WorkchainDescriptionOf (F : Type) := mkWorkchain {
  accept_msgs : bool; wc_format : WorkchainFormatOf F
}.
Arguments mkWorkchain {F} accept_msgs wc_format.
Arguments accept_msgs {F} w.
Arguments wc_format {F} w.

(** [AccountState]. *)
Inductive AccountStateOf (S H : Type) := AccUninit | AccActive (s : S) | AccFrozen (h : H).
Arguments AccUninit {S H}.
Arguments AccActive {S H} s.
Arguments AccFrozen {S H} h.

(** [OutAction]: the mode flags are the raw byte. *)
Inductive OutActionOf (C L X : Type) :=
| SendMsg (mode : Z) (out_msg : C)
| SetCode (new_code : C)
| ReserveCurrency (mode : Z) (value : CurrencyOf X)
| ChangeLibrary (mode : Z) (lib : L).
Arguments SendMsg {C L X} mode out_msg.
Arguments SetCode {C L X} new_code.
Arguments ReserveCurrency {C L X} mode value.
Arguments ChangeLibrary {C L X} mode lib.

(** [MessageLayout], and [RelaxedMessage] with its body as a slice. *)
Record MessageLayout := mkLayout { init_to_cell : bool; body_to_cell : bool }.

Record RelaxedMessageOf (I S B : Type) := mkRelaxedMessage {
  rm_info : I; rm_init : option S; rm_body : B; rm_layout : option MessageLayout
}.
Arguments mkRelaxedMessage {I S B}.
Arguments rm_info {I S B} r.
Arguments rm_init {I S B} r.
Arguments rm_body {I S B} r.
Arguments rm_layout {I S B} r.

(** ** The parameters *)

Class ModelLib `{SL : SliceLib} := {
  (** [ExtraCurrencyCollection] and [Dict<HashBytes, SimpleLib>]. *)
  Extra : Type;
  StateLibs : Type;
  ExtAddr : Type;
  #[global] Cell_eq_dec :: EqDecision Cell;
  #[global] StateLibs_eq_dec :: EqDecision StateLibs;

  (** [Tokens]: [checked_add], [checked_sub], [saturating_add] and the operators [+=],
      [-=], which may panic or wrap out of range. *)
  tokens_checked_add : Z -> Z -> option Z;
  tokens_checked_sub : Z -> Z -> option Z;
  tokens_saturating_add : Z -> Z -> Z;
  tokens_add : Z -> Z -> Z;
  tokens_sub : Z -> Z -> Z;
  (** [VarUint56::saturating_add]. *)
  varuint56_saturating_add : Z -> Z -> Z;

  (** [CurrencyCollection]: [checked_add], [checked_sub] and [checked_clamp]; the
      [try_.._assign] methods are the same on the place. *)
  cc_checked_add : CurrencyOf Extra -> CurrencyOf Extra -> result Error (CurrencyOf Extra);
  cc_checked_sub : CurrencyOf Extra -> CurrencyOf Extra -> result Error (CurrencyOf Extra);
  cc_checked_clamp : CurrencyOf Extra -> CurrencyOf Extra -> result Error (CurrencyOf Extra);

  (** [ExtraCurrencyCollection]: [new], [checked_sub], [normalize], [is_empty],
      [as_dict().root()], [as_dict().iter()] and [as_dict_mut().remove()]. *)
  extra_new : Extra;
  extra_checked_sub : Extra -> Extra -> result Error Extra;
  extra_normalize : Extra -> result Error Extra;
  extra_is_empty : Extra -> bool;
  extra_is_zero : Extra -> bool;
  extra_root : Extra -> option Cell;
  extra_iter : Extra -> list (result Error (Z * Z));
  extra_remove : Extra -> Z -> result Error Extra;

  (** The dictionary of libraries. *)
  libs_new : StateLibs;
  libs_root : StateLibs -> option Cell;
  libs_get : StateLibs -> HashBytes -> result Error (option SimpleLib);
  libs_set : StateLibs -> HashBytes -> SimpleLib -> result Error StateLibs;
  libs_remove : StateLibs -> HashBytes -> result Error (StateLibs * option SimpleLib);
  libs_values : StateLibs -> list (result Error SimpleLib);

  (** [MsgForwardPrices], its field [cell_price] and the methods that split fees. *)
  MsgForwardPrices : Type;
  fp_cell_price : MsgForwardPrices -> Z;
  compute_fwd_fee : MsgForwardPrices -> CellTreeStats -> Z;
  get_first_part : MsgForwardPrices -> Z -> Z;
  fp_bit_price : MsgForwardPrices -> Z;
  fp_first_frac : MsgForwardPrices -> Z;
  fp_ihr_price_factor : MsgForwardPrices -> Z;
  (** [GasLimitsPrices::compute_gas_fee], [StoragePrices::compute_storage_fee]. *)
  compute_gas_fee : GasLimitsPrices -> Z -> Z;
  prices_storage_fee : StoragePrices -> bool -> Z -> CellTreeStats -> Z;

  (** [HashBytes]: [ZERO] and [HashBytes(array)]. *)
  hash_zero : HashBytes;
  hash_of_bytes : list Z -> HashBytes;

  (** [WorkchainFormatExtended::check_addr_len]. *)
  WorkchainFormatExtended : Type;
  check_addr_len : WorkchainFormatExtended -> Z -> bool;

  (** [BlockchainConfigParams]: [as_dict().root()], [as_dict().get(id)], the typed
      accessors the sources call, and the values of a [RawDict<32>] given by its root
      in the order of the keys. *)
  BlockchainConfigParams : Type;
  GlobalVersion : Type;
  config_root : BlockchainConfigParams -> option Cell;
  config_get : BlockchainConfigParams -> Z -> result Error (option Cell);
  get_storage_prices_root : BlockchainConfigParams -> result Error (option Cell);
  get_workchains : BlockchainConfigParams ->
    result Error (list (result Error (Z * WorkchainDescriptionOf WorkchainFormatExtended)));
  get_global_version : BlockchainConfigParams -> result Error GlobalVersion;
  get_fundamental_addresses : BlockchainConfigParams ->
    result Error (list (result Error HashBytes));
  values_owned : option Cell -> list (result Error OwnedCellSlice);
  load_storage_prices : OwnedCellSlice -> result Error StoragePrices;
  parse_burning : Cell -> result Error (option HashBytes);
  parse_gas_prices : Cell -> result Error GasLimitsPrices;
  parse_fwd_prices : Cell -> result Error MsgForwardPrices;
  parse_size_limits : Cell -> result Error SizeLimitsConfig;
  parse_i32 : Cell -> result Error Z;
  parse_u32 : Cell -> result Error Z;
  load_gas_prices : OwnedCellSlice -> result Error GasLimitsPrices;
  load_fwd_prices : OwnedCellSlice -> result Error MsgForwardPrices;
  load_size_limits : OwnedCellSlice -> result Error SizeLimitsConfig;

  (** [Load] and [Store] of the models. *)
  load_msg_info : OwnedCellSlice ->
    result Error (MsgInfoOf IntAddr ExtAddr Extra * OwnedCellSlice);
  parse_msg_info : Cell -> result Error (MsgInfoOf IntAddr ExtAddr Extra);
  load_msg_type : OwnedCellSlice -> result Error (MsgType * OwnedCellSlice);
  load_int_msg_info : OwnedCellSlice ->
    result Error (IntMsgOf IntAddr IntAddr Extra * OwnedCellSlice);
  load_relaxed_msg_info : OwnedCellSlice ->
    result Error (RelaxedMsgInfoOf IntAddr ExtAddr Extra * OwnedCellSlice);
  load_state_init : OwnedCellSlice ->
    result Error (StateInitOf Cell StateLibs * OwnedCellSlice);
  load_out_action : OwnedCellSlice ->
    result Error (OutActionOf Cell LibRef Extra * OwnedCellSlice);
  load_int_addr : OwnedCellSlice -> result Error (IntAddr * OwnedCellSlice);
  load_storage_info : OwnedCellSlice -> result Error (StorageInfo * OwnedCellSlice);
  load_currency : OwnedCellSlice -> result Error (CurrencyOf Extra * OwnedCellSlice);
  store_msg_info : CellBuilder -> MsgInfoOf IntAddr ExtAddr Extra -> result Error CellBuilder;
  store_relaxed_msg_info :
    CellBuilder -> RelaxedMsgInfoOf IntAddr ExtAddr Extra -> result Error CellBuilder;
  store_state_init : CellBuilder -> StateInitOf Cell StateLibs -> result Error CellBuilder;
  store_int_addr : CellBuilder -> IntAddr -> result Error CellBuilder;
  store_currency : CellBuilder -> CurrencyOf Extra -> result Error CellBuilder;
  store_account_state :
    CellBuilder -> AccountStateOf (StateInitOf Cell StateLibs) HashBytes -> result Error CellBuilder;
  store_storage_info : CellBuilder -> StorageInfo -> result Error CellBuilder;
  store_out_action :
    CellBuilder -> OutActionOf Cell LibRef Extra -> result Error CellBuilder;

  (** Messages built by contracts: [DynCell::parse::<RelaxedMessage>],
      [Lazy::from_raw], the sizes of their parts ([bit_len], [reference_count]; none for
      an amount that is too large), the statistics [StorageStat] collects of the cells
      below a slice, and [ExtraCurrencyCollection::from_raw]. *)
  parse_relaxed_message : Cell ->
    result Error (RelaxedMessageOf (RelaxedMsgInfoOf IntAddr ExtAddr Extra)
                    (StateInitOf Cell StateLibs) OwnedCellSlice);
  lazy_from_raw : Cell -> result Error Cell;
  int_addr_bit_len : IntAddr -> Z;
  ext_addr_len : ExtAddr -> Z;
  state_init_bit_len : StateInitOf Cell StateLibs -> Z;
  state_init_reference_count : StateInitOf Cell StateLibs -> Z;
  tokens_len : Z -> option Z;
  storage_stat_slice : Z -> OwnedCellSlice -> CellTreeStats;
  extra_from_root : option Cell -> Extra;

  (** [sha2::Sha256] of the concatenation of two hashes. *)
  sha256_pair : HashBytes -> HashBytes -> HashBytes
}.

Section Models.
Context `{ML : ModelLib}.

Definition CurrencyCollection : Type := CurrencyOf Extra.
Definition StateInit : Type := StateInitOf Cell StateLibs.
Definition IntMsgInfo : Type := IntMsgOf IntAddr IntAddr Extra.
Definition RelaxedIntMsgInfo : Type := IntMsgOf (option IntAddr) IntAddr Extra.
Definition ExtInMsgInfo : Type := ExtInMsgOf IntAddr ExtAddr.
Definition RelaxedExtOutMsgInfo : Type := ExtOutMsgOf (option IntAddr) ExtAddr.
Definition MsgInfo : Type := MsgInfoOf IntAddr ExtAddr Extra.
Definition RelaxedMsgInfo : Type := RelaxedMsgInfoOf IntAddr ExtAddr Extra.
Definition OutAction : Type := OutActionOf Cell LibRef Extra.
Definition RelaxedMessage : Type := RelaxedMessageOf RelaxedMsgInfo StateInit OwnedCellSlice.

(** [CurrencyCollection::ZERO], [is_zero]; [StateInit::default]. *)
Definition cc_zero : CurrencyCollection := mkCurrency 0 extra_new.
Definition cc_is_zero (c : CurrencyCollection) : bool := (tokens c =? 0) && extra_is_zero (other c).
Definition state_init_default : StateInit := mkStateInit None None None None libs_new.

Definition set_tokens (t : Z) (c : CurrencyCollection) : CurrencyCollection :=
  mkCurrency t (other c).
Definition set_other (x : Extra) (c : CurrencyCollection) : CurrencyCollection :=
  mkCurrency (tokens c) x.

(** [Tokens::try_add_assign] and [try_sub_assign]. *)
Definition tokens_try_add (a b : Z) : result Error Z :=
  match tokens_checked_add a b with Some c => Ok c | None => Err IntOverflow end.
Definition tokens_try_sub (a b : Z) : result Error Z :=
  match tokens_checked_sub a b with Some c => Ok c | None => Err IntOverflow end.

(** [try_add_assign_tokens] and [try_sub_assign_tokens]. *)
Definition cc_add_tokens (c : CurrencyCollection) (t : Z) : result Error CurrencyCollection :=
  match tokens_try_add (tokens c) t with Ok t => Ok (set_tokens t c) | Err e => Err e end.
Definition cc_sub_tokens (c : CurrencyCollection) (t : Z) : result Error CurrencyCollection :=
  match tokens_try_sub (tokens c) t with Ok t => Ok (set_tokens t c) | Err e => Err e end.

Definition AccountState : Type := AccountStateOf StateInit HashBytes.

(** [AccountState::status]. *)
Definition status (s : AccountState) : AccountStatus :=
  match s with AccUninit => StUninit | AccActive _ => StActive | AccFrozen _ => StFrozen end.

(** [Account]. *)
Record Account := mkAccount {
  acc_address : IntAddr; acc_storage_stat : StorageInfo; acc_last_trans_lt : Z;
  acc_balance : CurrencyCollection; acc_state : AccountState
}.

Definition WorkchainDescription : Type := WorkchainDescriptionOf WorkchainFormatExtended.

(** [BlockchainConfig]. *)
Record BlockchainConfig := mkBlockchainConfig {
  cfg_address : HashBytes; cfg_params : BlockchainConfigParams
}.

Definition build_from_state_init (s : StateInit) : result Error Cell :=
  match store_state_init builder_new s with Ok b => builder_build b | Err e => Err e end.
End Models.

(** ** Documented behaviour *)

(** [GasLimitsPrices::compute_gas_fee]: the flat price up to the flat limit and
    the price of each further unit, rounded up, beyond it. *)
Definition gas_fee_spec (p : GasLimitsPrices) (gas_used : Z) : Z :=
  if gas_used <? gp_flat_gas_limit p then gp_flat_gas_price p
  else gp_flat_gas_price p
       + (gp_gas_price p * (gas_used - gp_flat_gas_limit p) + 65535) / 65536.

Definition tokens_ok (t : Z) : Prop := 0 <= t <= TOKENS_MAX.

Class ModelLaws `{ML : ModelLib} : Prop := {
  checked_add_spec : forall a b, tokens_ok a -> tokens_ok b ->
    tokens_checked_add a b = if a + b <=? TOKENS_MAX then Some (a + b) else None;
  checked_sub_spec : forall a b, tokens_ok a -> tokens_ok b ->
    tokens_checked_sub a b = if b <=? a then Some (a - b) else None;
  saturating_add_spec : forall a b, tokens_ok a -> tokens_ok b ->
    tokens_saturating_add a b = Z.min TOKENS_MAX (a + b);
  tokens_add_spec : forall a b, tokens_ok a -> tokens_ok b -> a + b <= TOKENS_MAX ->
    tokens_add a b = a + b;
  tokens_sub_spec : forall a b, tokens_ok a -> tokens_ok b -> b <= a -> tokens_sub a b = a - b;

  cc_add_tokens_spec : forall a b c, cc_checked_add a b = Ok c ->
    tokens_checked_add (tokens a) (tokens b) = Some (tokens c);
  cc_sub_tokens_spec : forall a b c, cc_checked_sub a b = Ok c ->
    tokens_checked_sub (tokens a) (tokens b) = Some (tokens c);
  cc_clamp_tokens_spec : forall a b c, cc_checked_clamp a b = Ok c ->
    tokens c = Z.min (tokens a) (tokens b);
  extra_new_empty : extra_is_empty extra_new = true;

  fwd_fee_ok : forall p s, tokens_ok (compute_fwd_fee p s);
  first_part_ok : forall p f, tokens_ok f -> 0 <= get_first_part p f <= f;
  gas_fee_ok : forall p g, 0 <= gp_gas_price p <= U64_MAX -> 0 <= gp_flat_gas_limit p <= U64_MAX ->
    0 <= gp_flat_gas_price p <= U64_MAX -> 0 <= g <= U64_MAX ->
    compute_gas_fee p g = gas_fee_spec p g;

  (** Parsed amounts are in range: they have at most 15 bytes. *)
  parsed_msg_ok : forall s i rest, load_msg_info s = Ok (MsgInt i, rest) ->
    tokens_ok (tokens (im_value i)) /\ tokens_ok (im_ihr_fee i);
  parsed_relaxed_ok : forall s i rest, load_relaxed_msg_info s = Ok (RelaxedInt i, rest) ->
    tokens_ok (tokens (im_value i));
  parsed_action_ok : forall s mode v rest, load_out_action s = Ok (ReserveCurrency mode v, rest) ->
    tokens_ok (tokens v);

  (** A message that was parsed knows its layout; [first_frac] is a [u16]. *)
  parsed_layout : forall c m, parse_relaxed_message c = Ok m -> is_Some (rm_layout m);
  first_frac_range : forall p, 0 <= fp_first_frac p <= U16_MAX;

  references_depth : forall c c', c' ∈ references c -> 0 <= repr_depth c' < repr_depth c;
  bit_len_nonneg : forall c, 0 <= bit_len c <= 1023
}.

Section Actions.
Context `{ML : ModelLib}.

(** Actions in the list of actions: what can be stored on its own can be stored after the
    reference to the previous action, and is what is loaded again, to the last bit.  The
    flags of a library change share their byte with the tag of the library. *)
Definition action_mode_ok (a : OutAction) : Prop :=
  match a with
  | SendMsg mode _ | ReserveCurrency mode _ => 0 <= mode < 256
  | ChangeLibrary mode _ => 0 <= mode < 128
  | SetCode _ => True
  end.

Class ActionLaws : Prop := {
  store_action_spec : forall b b0 a, builder_data b = [] -> (length (builder_refs b) <= 1)%nat ->
    action_mode_ok a -> store_out_action builder_new a = Ok b0 ->
    exists b', store_out_action b a = Ok b' /\ appended b (builder_data b0) (builder_refs b0) b';
  load_action_spec : forall a b0 cs, action_mode_ok a -> store_out_action builder_new a = Ok b0 ->
    slice_data cs = builder_data b0 -> slice_references cs = builder_refs b0 ->
    exists rest, load_out_action cs = Ok (a, rest) /\ slice_is_empty rest = true
}.
End Actions.
