(* ===== verification/SmcInfo.v ===== *)
(** * Smart contract info (smc_info.rs)

    The layers of context of a contract ([SmcInfoBase] and its extensions for TVM 4, 6
    and 11), each writing its items after those of the layer below, the control register
    [c7] they build, the unpacked configuration and the unpacked inbound message.  An
    error of the builders is the panic of the [unwrap] on the address. *)

From S2P Require Import Prelude External Values VmStack VmState Cells Models.

Open Scope vm_scope.

Section SmcInfo.
Context `{ML : ModelLib}.

Definition MAGIC : Z := 0x076ef1ea.

(** The indices of the items of the tuple. *)
Definition ACTIONS_IDX : nat := 1.
Definition MSGS_SENT_IDX : nat := 2.
Definition UNIX_TIME_IDX : nat := 3.
Definition BLOCK_LT_IDX : nat := 4.
Definition TX_LT_IDX : nat := 5.
Definition RANDSEED_IDX : nat := 6.
Definition BALANCE_IDX : nat := 7.
Definition MYADDR_IDX : nat := 8.
Definition CONFIG_IDX : nat := 9.
Definition MYCODE_IDX : nat := 10.
Definition IN_MSG_VALUE_IDX : nat := 11.
Definition STORAGE_FEE_IDX : nat := 12.
Definition PREV_BLOCKS_IDX : nat := 13.
Definition PARSED_CONFIG_IDX : nat := 14.
Definition STORAGE_DEBT_IDX : nat := 15.
Definition PRECOMPILED_GAS_IDX : nat := 16.
Definition IN_MSG_PARAMS_IDX : nat := 17.

Record SmcInfoBase := mkSmcBase {
  now : Z; block_lt : Z; tx_lt : Z; rand_seed : HashBytes;
  account_balance : CurrencyCollection; smc_addr : IntAddr;
  smc_config : option BlockchainConfigParams
}.

Record SmcInfoTonV4 := mkSmcV4 {
  v4_base : SmcInfoBase; v4_code : option Cell; message_balance : CurrencyCollection;
  storage_fees : Z; prev_blocks_info : option Tuple
}.

Record SmcInfoTonV6 := mkSmcV6 {
  v6_base : SmcInfoTonV4; unpacked_config : option Tuple; v6_due_payment : Z
}.

Record SmcInfoTonV11 := mkSmcV11 { v11_base : SmcInfoTonV6; in_msg : option Tuple }.

(** [with_mixed_rand_seed]: a zero block seed is kept. *)
Definition mixed_rand_seed (block_seed account : HashBytes) : HashBytes :=
  if bool_decide (block_seed = hash_zero) then hash_zero else sha256_pair block_seed account.

Definition opt_cell_value (c : option Cell) : value :=
  match c with None => VNull | Some c => VCell c end.
Definition opt_tuple_value (t : option Tuple) : value :=
  match t with None => VNull | Some t => VTuple t end.

Definition balance_as_tuple (balance : CurrencyCollection) : Tuple :=
  [VInt (tokens balance); opt_cell_value (extra_root (other balance))].

Definition addr_slice (a : IntAddr) : result Error OwnedCellSlice :=
  match store_int_addr builder_new a with
  | Ok b => match builder_build b with Ok c => Ok (new_allow_exotic c) | Err e => Err e end
  | Err e => Err e
  end.

(** [write_items] of the four layers append to the same vector. *)
Definition base_items (i : SmcInfoBase) (items : Tuple) : result Error Tuple :=
  match addr_slice (smc_addr i) with
  | Err e => Err e
  | Ok addr =>
      Ok (items ++ [
        VInt MAGIC; VInt 0; VInt 0; VInt (now i); VInt (block_lt i); VInt (tx_lt i);
        VInt (hash_to_Z (rand_seed i)); VTuple (balance_as_tuple (account_balance i));
        VSlice addr;
        match smc_config i with
        | None => VNull
        | Some params => opt_cell_value (config_root params)
        end])
  end.

Definition v4_items (i : SmcInfoTonV4) (items : Tuple) : result Error Tuple :=
  match base_items (v4_base i) items with
  | Err e => Err e
  | Ok items =>
      Ok (items ++ [
        opt_cell_value (v4_code i); VTuple (balance_as_tuple (message_balance i));
        VInt (storage_fees i); opt_tuple_value (prev_blocks_info i)])
  end.

Definition v6_items (i : SmcInfoTonV6) (items : Tuple) : result Error Tuple :=
  match v4_items (v6_base i) items with
  | Err e => Err e
  | Ok items =>
      Ok (items ++ [opt_tuple_value (unpacked_config i); VInt (v6_due_payment i); VNull])
  end.

(** [addr_none_slice]: two zero bits. *)
Definition addr_none_slice : result Error OwnedCellSlice :=
  match store_uint builder_new 0 2 with
  | Ok b => match builder_build b with Ok c => Ok (new_allow_exotic c) | Err e => Err e end
  | Err e => Err e
  end.

(** [UnpackedInMsgSmcInfo::empty_msg_tuple]. *)
Definition empty_msg_tuple : result Error Tuple :=
  match addr_none_slice with
  | Err e => Err e
  | Ok none =>
      Ok [VInt 0; VInt 0; VSlice none; VInt 0; VInt 0; VInt 0; VInt 0; VInt 0; VNull; VNull]
  end.

Definition v11_items (i : SmcInfoTonV11) (items : Tuple) : result Error Tuple :=
  match v6_items (v11_base i) items with
  | Err e => Err e
  | Ok items =>
      match (match in_msg i with Some message => Ok message | None => empty_msg_tuple end) with
      | Ok message => Ok (items ++ [VTuple message])
      | Err e => Err e
      end
  end.

(** [build_c7] and [version] of the last layer. *)
Definition build_c7 (i : SmcInfoTonV11) : result Error Tuple :=
  match v11_items i [] with Ok t1 => Ok [VTuple t1] | Err e => Err e end.

Definition smc_version (i : SmcInfoTonV11) : VmVersion := Ton 11.

(** ** The unpacked configuration *)

Record UnpackedConfig := mkUnpacked {
  latest_storage_prices : option OwnedCellSlice;
  up_global_id : option Cell;
  up_mc_gas_prices : option Cell;
  up_gas_prices : option Cell;
  up_mc_fwd_prices : option Cell;
  up_fwd_prices : option Cell;
  up_size_limits_config : option Cell
}.

Definition slice_or_null (s : option OwnedCellSlice) : value :=
  match s with None => VNull | Some s => VSlice s end.

(** [UnpackedConfig::into_tuple], [as_tuple]. *)
Definition into_config_tuple (u : UnpackedConfig) : Tuple :=
  slice_or_null (latest_storage_prices u)
  :: map (fun c => slice_or_null (option_map new_allow_exotic c))
       [up_global_id u; up_mc_gas_prices u; up_gas_prices u; up_mc_fwd_prices u;
        up_fwd_prices u; up_size_limits_config u].

(** The loop of [find_storage_prices] over the values, newest first. *)
Fixpoint newest_prices (now : Z) (values : list (result Error OwnedCellSlice))
    : result Error (option OwnedCellSlice) :=
  match values with
  | [] => Ok None
  | Err e :: _ => Err e
  | Ok value :: values =>
      match slice_load_uint value 32 with
      | Err e => Err e
      | Ok (utime_since, _) => if now <? utime_since then newest_prices now values else Ok (Some value)
      end
  end.

Definition find_storage_prices (params : BlockchainConfigParams) (now : Z)
    : result Error (option OwnedCellSlice) :=
  match get_storage_prices_root params with
  | Err e => Err e
  | Ok root => newest_prices now (rev (values_owned root))
  end.

(** [unpack_config_partial]. *)
Definition unpack_config_partial (params : BlockchainConfigParams) (now : Z)
    : result Error UnpackedConfig :=
  match find_storage_prices params now with
  | Err e => Err e
  | Ok prices =>
      match config_get params 19, config_get params 20, config_get params 21,
            config_get params 24, config_get params 25, config_get params 43 with
      | Ok p19, Ok p20, Ok p21, Ok p24, Ok p25, Ok p43 =>
          Ok (mkUnpacked prices p19 p20 p21 p24 p25 p43)
      | Err e, _, _, _, _, _ | _, Err e, _, _, _, _ | _, _, Err e, _, _, _
      | _, _, _, Err e, _, _ | _, _, _, _, Err e, _ | _, _, _, _, _, Err e => Err e
      end
  end.

(** [unpack_config]: the same parameters read in the same order. *)
Definition unpack_config (params : BlockchainConfigParams) (now : Z) : result Error Tuple :=
  match unpack_config_partial params now with
  | Ok u => Ok (into_config_tuple u)
  | Err e => Err e
  end.

(** ** The inbound message *)

Record UnpackedInMsgSmcInfo := mkInMsgInfo {
  ui_bounce : bool; ui_bounced : bool; src_addr : OwnedCellSlice; fwd_fee : Z;
  created_lt : Z; created_at : Z; original_value : Z; remaining_value : CurrencyCollection;
  state_init : option Cell
}.

Definition into_msg_tuple (u : UnpackedInMsgSmcInfo) : Tuple :=
  [Stack.make_bool (ui_bounce u); Stack.make_bool (ui_bounced u); VSlice (src_addr u);
   VInt (fwd_fee u); VInt (created_lt u); VInt (created_at u); VInt (original_value u);
   VInt (tokens (remaining_value u)); opt_cell_value (extra_root (other (remaining_value u)));
   opt_cell_value (state_init u)].
End SmcInfo.
