(* ===== verification/CurrencyOps.v ===== *)
(** * Currency and address instructions (instr/currencyops.rs)

    Variable-length integers, and message addresses: skipping, parsing and rewriting with
    their anycast prefix. *)

From S2P Require Import Prelude External Cells Values VmStack VmGas VmState ArithOps CellOps.

Open Scope vm_scope.

Section CurrencyOps.
Context `{SL : SliceLib}.

#[local] Abbreviation SM := (MS (list value) VmError).

Definition exec_load_var_integer (len_bits : Z) (signed : bool) : VM Z :=
  done_ (on_stack (
    let* cs := Stack.pop_cs in
    let* (int, rest) := cell_ok (load_var_bigint cs len_bits signed) in
    Stack.push_int int ;;
    push_range cs (range rest))).

Definition exec_store_var_integer (len_bits : Z) (signed : bool) : VM Z :=
  done_ (on_stack (
    let* int := Stack.pop_int in
    let* builder := Stack.pop_builder in
    let* builder := cell_ok (store_var_bigint builder int len_bits signed) in
    push_builder builder)).

(** ** Addresses *)

(** [load_uint_leq] of util.rs: [32 - upper_bound.leading_zeros()] bits. *)
Definition load_uint_leq (cs : OwnedCellSlice) (upper_bound : Z)
    : result Error (Z * OwnedCellSlice) :=
  let bits := if upper_bound =? 0 then 0 else Z.log2 upper_bound + 1 in
  let? (res, cs) := slice_load_uint cs bits in
  if upper_bound <? res then Err IntOverflow else Ok (res, cs).

(** The number of bits of an anycast prefix. *)
Definition load_depth (cs : OwnedCellSlice) : result Error (Z * OwnedCellSlice) :=
  let? (n, cs) := load_uint_leq cs 30 in
  let? depth := split_depth_new n in
  Ok (depth, cs).

Definition skip_maybe_anycast (cs : OwnedCellSlice) (v : VmVersion) : result Error OwnedCellSlice :=
  let? (just, cs) := load_bit cs in
  if just : bool then
    if is_ton v 10 then Err InvalidCell
    else
      let? (depth, cs) := load_depth cs in
      slice_skip_first cs depth 0
  else Ok cs.

Definition skip_message_addr (cs : OwnedCellSlice) (v : VmVersion) : result Error OwnedCellSlice :=
  let? (tag, cs) := slice_load_uint cs 2 in
  match tag with
  | 0 => Ok cs
  | 1 =>
      let? (len, cs) := slice_load_uint cs 9 in
      slice_skip_first cs len 0
  | 2 =>
      let? cs := skip_maybe_anycast cs v in
      slice_skip_first cs (8 + 256) 0
  | 3 =>
      if is_ton v 10 then Err InvalidCell
      else
        let? cs := skip_maybe_anycast cs v in
        let? (len, cs) := slice_load_uint cs 9 in
        slice_skip_first cs (32 + len) 0
  | _ => Err InvalidData
  end.

Inductive AddrParts :=
| PartsNone
| PartsExt (addr : OwnedCellSlice)
| PartsStd (pfx : option OwnedCellSlice) (workchain : Z) (addr : OwnedCellSlice)
| PartsVar (pfx : option OwnedCellSlice) (workchain : Z) (addr : OwnedCellSlice).

Definition parse_maybe_anycast (cs : OwnedCellSlice) (v : VmVersion)
    : result Error (option OwnedCellSlice * OwnedCellSlice) :=
  let? (just, cs) := load_bit cs in
  if just : bool then
    if is_ton v 10 then Err InvalidCell
    else
      let? (depth, cs) := load_depth cs in
      let? (pfx, cs) := load_prefix cs depth 0 in
      Ok (Some pfx, cs)
  else Ok (None, cs).

Definition parse_message_addr (s : OwnedCellSlice) (v : VmVersion) : result Error AddrParts :=
  let? cs := range_apply (range s) (cell s) in
  let? (tag, cs) := slice_load_uint cs 2 in
  match tag with
  | 0 => Ok PartsNone
  | 1 =>
      let? (len, cs) := slice_load_uint cs 9 in
      let? (addr, cs) := load_prefix cs len 0 in
      Ok (PartsExt addr)
  | 2 =>
      let? (pfx, cs) := parse_maybe_anycast cs v in
      let? (workchain, cs) := slice_load_uint cs 8 in
      let? (addr, cs) := load_prefix cs 256 0 in
      Ok (PartsStd pfx (wrap_s 8 workchain) addr)
  | 3 =>
      if is_ton v 10 then Err InvalidCell
      else
        let? (pfx, cs) := parse_maybe_anycast cs v in
        let? (len, cs) := slice_load_uint cs 9 in
        let? (workchain, cs) := slice_load_uint cs 32 in
        let? (addr, cs) := load_prefix cs len 0 in
        Ok (PartsVar pfx (wrap_s 32 workchain) addr)
  | _ => Err InvalidData
  end.

Definition opt_slice_value (s : option OwnedCellSlice) : value :=
  match s with None => VNull | Some s => VSlice s end.

(** [AddrParts::into_tuple]. *)
Definition parts_tuple (p : AddrParts) : Tuple :=
  match p with
  | PartsNone => [VInt 0]
  | PartsExt addr => [VInt 1; VSlice addr]
  | PartsStd pfx workchain addr => [VInt 2; opt_slice_value pfx; VInt workchain; VSlice addr]
  | PartsVar pfx workchain addr => [VInt 3; opt_slice_value pfx; VInt workchain; VSlice addr]
  end.

Definition exec_load_message_addr (quiet : bool) : VM Z :=
  let* v := gets version in
  done_ (on_stack (
    let* cs := Stack.pop_cs in
    match skip_message_addr cs v with
    | Ok rest =>
        let* addr := cell_ok (slice_skip_last cs (slice_bits rest) (slice_size_refs rest)) in
        push_range cs (range addr) ;;
        push_range cs (range rest) ;;
        if quiet then Stack.push_bool true else ret tt
    | Err e =>
        if quiet then push_slice cs ;; Stack.push_bool false
        else raise (CellError e)
    end)).

Definition exec_parse_message_addr (quiet : bool) : VM Z :=
  let* v := gets version in
  done_ (on_stack (
    let* cs := Stack.pop_cs in
    match parse_message_addr cs v with
    | Ok parts =>
        Stack.push (VTuple (parts_tuple parts)) ;;
        if quiet then Stack.push_bool true else ret tt
    | Err e => if quiet then Stack.push_bool false else raise (CellError e)
    end)).

(** ** Rewriting *)

(** The prefix replaces the first bits: a new cell is paid for and loaded. *)
Definition rewrite_addr_var (addr : OwnedCellSlice) (pfx : option OwnedCellSlice)
    : Gas.GM OwnedCellSlice :=
  match pfx with
  | None => ret addr
  | Some pfx =>
      if slice_bits pfx =? slice_bits addr then ret pfx
      else
        let* cs := of_result (slice_skip_first addr (slice_bits pfx) 0) in
        let* cb := of_result (store_slice builder_new pfx) in
        let* cb := of_result (store_slice cb cs) in
        let* c := Gas.build_ext cb in
        let* c := Gas.load_cell_impl c LoadMode_UseGas in
        ret (new_allow_exotic c)
  end.

(** The bytes of the prefix over those of the address; its last bits share a byte. *)
Definition overlay (addr buffer : list Z) (pfx_len : Z) : list Z :=
  let bytes := Z.to_nat (pfx_len / 8) in
  let bits := pfx_len mod 8 in
  let addr := take bytes buffer ++ drop bytes addr in
  if bits =? 0 then addr
  else
    let b := Z.land (default 0 (addr !! bytes)) (Z.shiftl 1 (8 - bits) - 1) in
    <[bytes := Z.lor b (default 0 (buffer !! bytes))]> addr.

Definition rewrite_addr_std (addr : OwnedCellSlice) (pfx : option OwnedCellSlice) : result Error Z :=
  let? (addr, _) := slice_load_raw addr 256 in
  match pfx with
  | None => Ok (from_bytes_be addr)
  | Some pfx =>
      let? (buffer, _) := slice_load_raw pfx (slice_bits pfx) in
      Ok (from_bytes_be (overlay addr buffer (slice_bits pfx)))
  end.

(** Prefix, workchain and address of the parts that have them. *)
Definition rewrite_parts (p : result Error AddrParts)
    : result Error (option OwnedCellSlice * Z * OwnedCellSlice) :=
  match p with
  | Ok (PartsStd pfx workchain addr) | Ok (PartsVar pfx workchain addr) => Ok (pfx, workchain, addr)
  | Ok _ => Err CellUnderflow
  | Err e => Err e
  end.

Definition rewrite_addr_value (var : bool) (addr : OwnedCellSlice) (pfx : option OwnedCellSlice)
    : Gas.GM value :=
  if var then let* a := rewrite_addr_var addr pfx in ret (VSlice a)
  else let* a := of_result (rewrite_addr_std addr pfx) in ret (VInt a).

(** [handle_error]: the quiet instructions answer [false], whatever the error. *)
Definition rewrite_error (q : bool) (e : Error) : SM Z :=
  if q then Stack.push_bool false ;; ret 0 else raise (CellError e).

Definition exec_rewrite_message_addr (var q : bool) : VM Z :=
  let* v := gets version in
  let* cs := on_stack Stack.pop_cs in
  match rewrite_parts (parse_message_addr cs v) with
  | Err e => on_stack (rewrite_error q e)
  | Ok (pfx, workchain, addr) =>
      let* addr := on_gas (try_ms (rewrite_addr_value var addr pfx)) in
      on_stack
        match addr with
        | Err e => rewrite_error q e
        | Ok addr =>
            Stack.push_int workchain ;;
            Stack.push_raw addr ;;
            (if q then Stack.push_bool true else ret tt) ;;
            ret 0
        end
  end.
End CurrencyOps.
