(* ===== verification/RandOps.v ===== *)
(** * Random numbers (instr/randops.rs)

    The seed is an item of the contract information in [c7]; a number comes from the
    SHA-512 digest of the seed, whose first half is the next seed. *)

From S2P Require Import Prelude External Cells Values VmStack VmGas VmRegs VmState ArithOps CellOps.
From S2P Require Import Models SmcInfo.

Open Scope vm_scope.

(** The hash functions and the signatures of the crates [sha2], [blake2] and
    [everscale_crypto], on byte strings. *)
Class CryptoLib := {
  sha256 : list Z -> list Z;
  sha512 : list Z -> list Z;
  blake2b512 : list Z -> list Z;
  PublicKey : Type;
  pubkey_from_bytes : list Z -> option PublicKey;
  verify : PublicKey -> list Z -> list Z -> bool
}.

(** The digests have 32 and 64 bytes. *)
Class CryptoLaws `{CryptoLib} : Prop := {
  sha256_length : forall l, length (sha256 l) = 32%nat;
  sha512_length : forall l, length (sha512 l) = 64%nat;
  blake2b512_length : forall l, length (blake2b512 l) = 64%nat;
  sha256_bytes : forall l, Forall (fun b => 0 <= b < 256) (sha256 l);
  sha512_bytes : forall l, Forall (fun b => 0 <= b < 256) (sha512 l);
  blake2b512_bytes : forall l, Forall (fun b => 0 <= b < 256) (blake2b512 l)
}.

Section RandOps.
Context `{SL : SliceLib} `{CrL : CryptoLib}.

(** The magnitude as 32 big-endian bytes, the higher ones cut off: [truncate(32)],
    [reverse] and the copy to the end of a zeroed buffer. *)
Definition magnitude_bytes_be (int : Z) : list Z := reverse (take 32 (to_bytes_le int)).
Definition pad_32 (bytes : list Z) : list Z := replicate (32 - length bytes) 0 ++ bytes.

(** [to_bytes_be]. *)
Definition to_bytes_be (int : Z) : result VmError (list Z) :=
  if int <? 0 then Err (IntegerOutOfRange 0 ISIZE_MAX int) else Ok (magnitude_bytes_be int).

(** The tuple in [c7] and its first item, the contract information. *)
Definition c7_info (regs : ControlRegs) : result VmError (Tuple * Tuple) :=
  match c7 regs with
  | None => Err (ControlRegisterOutOfRange 7)
  | Some c7 =>
      match c7 with
      | [] => Err (InvalidType TyTuple TyNull)
      | t1v :: _ =>
          match as_tuple_range t1v 0 255 with
          | None => Err (InvalidType TyTuple (ty t1v))
          | Some t1 => Ok (c7, t1)
          end
      end
  end.

(** The seed as bytes. *)
Definition seed_bytes (t1 : Tuple) : result VmError (list Z) :=
  match t1 !! RANDSEED_IDX with
  | None => Err (InvalidType TyInt TyNull)
  | Some value =>
      match into_int value with
      | Ok int => match to_bytes_be int with Ok bytes => Ok (pad_32 bytes) | Err e => Err e end
      | Err e => Err e
      end
  end.

(** [c7[0] = t1v], and the gas for the two copied tuples. *)
Definition store_info (c7 t1v : Tuple) : VM unit :=
  let c7 := <[0%nat := VTuple t1v]> c7 in
  on_cr (modify (Regs.put_c7 (Some c7))) ;;
  on_gas (Gas.try_consume_tuple_gas (Z.of_nat (length t1v))) ;;
  on_gas (Gas.try_consume_tuple_gas (Z.of_nat (length c7))).

Definition generate_random_u256 : VM (list Z) :=
  let* regs := gets cr in
  let* (c7, t1) := of_result (c7_info regs) in
  let* seed := of_result (seed_bytes t1) in
  let hash := sha512 seed in
  store_info c7 (<[RANDSEED_IDX := VInt (from_bytes_be (take 32 hash))]> t1) ;;
  ret (drop 32 hash).

Definition exec_randu256 : VM Z :=
  let* random := generate_random_u256 in
  done_ (on_stack (Stack.push_int (from_bytes_be random))).

Definition exec_rand_int : VM Z :=
  let* int := on_stack Stack.pop_int in
  let* random := generate_random_u256 in
  done_ (on_stack (Stack.push_raw (VInt (Z.shiftr (int * from_bytes_be random) 256)))).

(** [BigInt::bits]. *)
Definition big_bits (z : Z) : Z := if z =? 0 then 0 else Z.log2 (Z.abs z) + 1.

(** ADDRAND mixes the new seed into the old one. *)
Definition mixed_seed (mix : bool) (t1 : Tuple) (int : Z) : result VmError Z :=
  if mix then
    let? seed := seed_bytes t1 in
    let? bytes := to_bytes_be int in
    Ok (from_bytes_be (sha256 (seed ++ pad_32 bytes)))
  else Ok int.

Definition exec_set_rand (mix : bool) : VM Z :=
  let* int := on_stack Stack.pop_int in
  ensure (negb ((int <? 0) || (256 <? big_bits int))) (IntegerOutOfRange 0 256 (big_bits int)) ;;
  let* regs := gets cr in
  let* (c7, t1) := of_result (c7_info regs) in
  let* int := of_result (mixed_seed mix t1 int) in
  let t1v := resize (Nat.max (length t1) (S RANDSEED_IDX)) VNull t1 in
  store_info c7 (<[RANDSEED_IDX := VInt int]> t1v) ;;
  ret 0.
End RandOps.
