(* ===== verification/CryptOps.v ===== *)
(** * Hashes and signatures (instr/cryptops.rs)

    HASHEXT reads its input from several slices and builders as one string of bits: the
    reader keeps the bits that do not fill a byte for the next one. *)

From S2P Require Import Prelude External Cells Values VmStack VmGas VmState ArithOps CellOps RandOps.

Open Scope vm_scope.

Inductive HashSource := HashCell | HashSlice.

Section CryptOps.
Context `{SL : SliceLib} `{CrL : CryptoLib}.

#[local] Abbreviation SM := (MS (list value) VmError).

Definition HASH_EXT_ENTRY_GAS_PRICE : Z := 1.

(** [CellBuilder::build_from_ext(slice, ctx)]. *)
Definition build_from_slice_ext (cs : OwnedCellSlice) : Gas.GM Cell :=
  let* b := of_result (store_slice builder_new cs) in
  Gas.build_ext b.

Definition exec_compute_hash (src : HashSource) : VM Z :=
  let* c :=
    match src with
    | HashCell => on_stack Stack.pop_cell
    | HashSlice =>
        let* cs := on_stack Stack.pop_cs in
        on_gas (build_from_slice_ext cs)
    end in
  done_ (on_stack (Stack.push_int (hash_to_Z (repr_hash c)))).

Definition exec_compute_sha256 : VM Z :=
  done_ (on_stack (
    let* cs := Stack.pop_cs in
    let data_bits := slice_bits cs in
    ensure_cell (data_bits mod 8 =? 0) CellUnderflow ;;
    let* (data, _) := cell_ok (slice_load_raw cs data_bits) in
    Stack.push_int (from_bytes_be (sha256 data)))).

(** ** HASHEXT *)

(** [HashInputReader] without its references to the stack and the gas. *)
Record HashInputReader := mkReader {
  count : Z; rev_order : bool; index : Z;
  total_bits : Z; gas_consumed : Z; rem_bits : Z; prev_byte : Z
}.

Definition get_data_slice (r : HashInputReader) (index : Z) (stack : list value)
    : result VmError OwnedCellSlice :=
  let index := if rev_order r then index else count r - 1 - index in
  match Stack.fetch index stack with
  | (Ok (VSlice s), _) => Ok s
  | (Ok (VBuilder b), _) => Ok (as_data_slice b)
  | (Ok v, _) => Err (InvalidType TySlice (ty v))
  | (Err e, _) => Err e
  end.

(** The fields that [load_bytes] sets. *)
Definition set_bits (total rem prev : Z) (r : HashInputReader) : HashInputReader :=
  mkReader (count r) (rev_order r) (index r) total (gas_consumed r) rem prev.

(** The rest of the slice into [buffer[1..]], after the byte [first] when there is one. *)
Definition load_rest (r : HashInputReader) (total : Z) (first : list Z) (data : OwnedCellSlice)
    : result Error (list Z * HashInputReader) :=
  let data_bits := slice_bits data in
  let? (bytes, _) := slice_load_raw data data_bits in
  let byte_len := Z.to_nat (data_bits / 8) in
  let rem := data_bits mod 8 in
  let prev := if rem =? 0 then 0 else default 0 (bytes !! byte_len) in
  Ok (first ++ take byte_len bytes, set_bits total rem prev r).

(** [load_bytes]: the bytes the slice completes. *)
Definition load_bytes (r : HashInputReader) (data : OwnedCellSlice)
    : result Error (list Z * HashInputReader) :=
  let data_bits := slice_bits data in
  let total := total_bits r + data_bits in
  if negb (rem_bits r =? 0) then
    let bits_to_align_prev := 8 - rem_bits r in
    if data_bits <? bits_to_align_prev then
      let shift := bits_to_align_prev - data_bits in
      let? (v, _) := slice_load_uint data data_bits in
      Ok ([], set_bits total (rem_bits r + data_bits) (Z.lor (prev_byte r) (Z.shiftl v shift)) r)
    else
      let? (v, data) := slice_load_uint data bits_to_align_prev in
      load_rest r total [Z.lor (prev_byte r) v] data
  else if (1 <=? data_bits) && (data_bits <? 8) then
    let? (v, _) := slice_load_uint data data_bits in
    Ok ([], set_bits total data_bits (Z.shiftl v (8 - data_bits)) r)
  else load_rest r total [] data.

(** [gas_consumed] and [index] after the entry is paid for. *)
Definition next_index (gas : Z) (r : HashInputReader) : HashInputReader :=
  mkReader (count r) (rev_order r) (index r + 1) (total_bits r) gas (rem_bits r) (prev_byte r).

(** [load_next]: the next bytes, [None] at the end; [n] entries are left. *)
Fixpoint load_next (bytes_per_gas_unit : Z) (n : nat) (r : HashInputReader)
    : VM (option (list Z) * HashInputReader) :=
  match n with
  | O =>
      ensure (rem_bits r =? 0) (CellError CellUnderflow) ;;
      ret (None, r)
  | S n =>
      let* st := gets stack in
      let* data := of_result (get_data_slice r (index r) st) in
      let* (bytes, r) := cell_ok (load_bytes r data) in
      let gas_total := (index r + 1) * HASH_EXT_ENTRY_GAS_PRICE + total_bits r / 8 / bytes_per_gas_unit in
      on_gas (Gas.try_consume (gas_total - gas_consumed r)) ;;
      let r := next_index gas_total r in
      match bytes with
      | [] => load_next bytes_per_gas_unit n r
      | _ => ret (Some bytes, r)
      end
  end.

(** [while let Some(bytes) = reader.load_next(..) { hasher.update(bytes) }]: the input of the
    digest.  Every turn but the last reads an entry. *)
Fixpoint hash_input (bytes_per_gas_unit : Z) (fuel : nat) (r : HashInputReader) (input : list Z)
    : VM (list Z) :=
  match fuel with
  | O => ret input
  | S fuel =>
      let* (bytes, r) := load_next bytes_per_gas_unit (Z.to_nat (count r - index r)) r in
      match bytes with
      | Some bytes => hash_input bytes_per_gas_unit fuel r (input ++ bytes)
      | None => ret input
      end
  end.

(** [define_compute_hash_ext!]: the bytes of a gas unit and the digest. *)
Definition hash_function (hash_id : Z) : option (Z * (list Z -> list Z)) :=
  match hash_id with
  | 0 => Some (33, sha256)
  | 1 => Some (16, sha512)
  | 2 => Some (19, blake2b512)
  | _ => None
  end.

Definition compute_hash_ext (hash_id count : Z) (rev_order : bool) : VM (list Z) :=
  match hash_function hash_id with
  | None => raise (IntegerOutOfRange 0 0 hash_id)
  | Some (bytes_per_gas_unit, digest) =>
      let reader := mkReader count rev_order 0 0 0 0 0 in
      let* input := hash_input bytes_per_gas_unit (S (Z.to_nat count)) reader [] in
      ret (digest input)
  end.

(** [hash.chunks(32)]. *)
Fixpoint chunks (fuel : nat) (l : list Z) : list (list Z) :=
  match fuel, l with
  | S fuel, _ :: _ => take 32 l :: chunks fuel (drop 32 l)
  | _, _ => []
  end.

Definition exec_hash_ext (p r : bool) (i : Z) : VM Z :=
  require_ton 4 ;;
  let* i := on_stack (if i =? 255 then Stack.pop_smallint_range 0 254 else ret i) in
  let* d := gets (fun st => Stack.depth (stack st)) in
  let* count := on_stack (Stack.pop_smallint_range 0 (Z.min U32_MAX (Z.max 0 (d - 1)))) in
  let* hash := compute_hash_ext i count r in
  on_stack (Stack.pop_many count) ;;
  done_ (on_stack (
    if p then
      let* cb := Stack.pop_builder in
      let* cb := cell_ok (store_raw cb hash (8 * Z.of_nat (length hash))) in
      push_builder cb
    else if Z.of_nat (length hash) <=? 32 then Stack.push_int (from_bytes_be hash)
    else Stack.push_raw (VTuple (map (fun c => VInt (from_bytes_be c)) (chunks (length hash) hash))))).

(** ** Signatures *)

(** [ToSign::write_to]: the signature id before the data. *)
Definition to_sign (signature_id : option Z) (data : list Z) : list Z :=
  match signature_id with
  | Some id => map (fun k => Z.shiftr (wrap_u 32 id) (8 * k) mod 256) [3; 2; 1; 0]
  | None => []
  end ++ data.

(** The signed data: the bytes of a slice, or of an integer. *)
Definition pop_signed_data (from_slice : bool) : SM (list Z) :=
  if from_slice then
    let* cs := Stack.pop_cs in
    let cs_bits := slice_bits cs in
    ensure_cell (cs_bits mod 8 =? 0) CellUnderflow ;;
    let* (data, _) := cell_ok (slice_load_raw cs cs_bits) in
    ret data
  else
    let* int := Stack.pop_int in
    ensure (0 <=? int) (IntegerOutOfRange 0 ISIZE_MAX int) ;;
    ret (pad_32 (magnitude_bytes_be int)).

(** [key_bytes.resize(32, 0)] on the magnitude. *)
Definition key_bytes (key_int : Z) : list Z := reverse (resize 32 0 (to_bytes_le key_int)).

Definition check_signature (signature_id : option Z) (key data signature : list Z) : bool :=
  match pubkey_from_bytes key with
  | None => false
  | Some pubkey => verify pubkey (to_sign signature_id data) signature
  end.

Definition exec_ed25519_check_signature (from_slice can_use_id : bool) : VM Z :=
  let* (key_int, data, signature) := on_stack (
    let* key_int := Stack.pop_int in
    let* signature_cs := Stack.pop_cs in
    let* data := pop_signed_data from_slice in
    let* (signature, _) := cell_ok (slice_load_raw signature_cs 512) in
    ensure (0 <=? key_int) (IntegerOutOfRange 0 ISIZE_MAX key_int) ;;
    ret (key_int, data, signature)) in
  on_gas Gas.try_consume_check_signature_gas ;;
  let* m := gets modifiers in
  let signature_id := if can_use_id : bool then signature_with_id m else None in
  let is_valid := check_signature signature_id (key_bytes key_int) data signature in
  done_ (on_stack (Stack.push_bool (is_valid || chksig_always_succeed m))).
End CryptOps.
