(* ===== verification/SizeOps.v ===== *)
(** * Sizes of cell trees (instr/sizeops.rs)

    CDATASIZE and SDATASIZE walk a tree of cells depth first, count every distinct cell
    once and pay for loading it.  The stack of reference iterators is the list of the
    references each one has left.  The loop has more fuel than 63 bits of gas can pay
    turns for ([data_size_counts]); without fuel it would fail with [OtherError]. *)

From S2P Require Import Prelude External Cells Values VmStack VmGas VmState ArithOps CellOps.

Open Scope vm_scope.

Section SizeOps.
Context `{SL : SliceLib}.

#[local] Abbreviation SM := (MS (list value) VmError).

(** [StorageStatExt] with its [CellTreeStatsExt]; the [u64] counters stay below the gas. *)
Record StorageStatExt := mkExt {
  ext_visited : gset HashBytes;
  ext_stack : list (list Cell);
  ext_bits : Z; ext_refs : Z; ext_cells : Z;
  ext_limit : Z
}.

(** [with_limit]. *)
Definition ext_with_limit (limit : Z) : StorageStatExt := mkExt ∅ [] 0 0 0 limit.

Definition set_iters (l : list (list Cell)) (st : StorageStatExt) : StorageStatExt :=
  mkExt (ext_visited st) l (ext_bits st) (ext_refs st) (ext_cells st) (ext_limit st).
Definition add_visited (c : Cell) (st : StorageStatExt) : StorageStatExt :=
  mkExt ({[repr_hash c]} ∪ ext_visited st) (ext_stack st) (ext_bits st) (ext_refs st)
    (ext_cells st) (ext_limit st).
Definition add_stats (bits refs cells : Z) (st : StorageStatExt) : StorageStatExt :=
  mkExt (ext_visited st) (ext_stack st) (ext_bits st + bits) (ext_refs st + refs)
    (ext_cells st + cells) (ext_limit st).
Definition ref_count (c : Cell) : Z := Z.of_nat (length (references c)).

(** One turn of the loops of [reduce_stack]: the last iterator yields a cell or is popped. *)
Definition reduce_turn (st : StorageStatExt)
    : Gas.GM (StorageStatExt + bool * StorageStatExt) :=
  match ext_stack st with
  | [] => ret (inr (true, st))
  | [] :: rest => ret (inl (set_iters rest st))
  | (c :: item) :: rest =>
      let st := set_iters (item :: rest) st in
      if bool_decide (repr_hash c ∈ ext_visited st) then ret (inl st)
      else
        let st := add_visited c st in
        if ext_limit st <=? ext_cells st then ret (inr (false, st))
        else
          let* c := Gas.load_cell_impl c LoadMode_UseGas in
          let next := references c in
          let st := add_stats (bit_len c) (ref_count c) 1 st in
          ret (inl (if 0 <? ref_count c then set_iters (next :: item :: rest) st else st))
  end.

(** Enough for any consumer ([reduce_stack_walks]). *)
Definition reduce_fuel (st : StorageStatExt) : positive :=
  Z.to_pos (2 ^ 63 + Z.of_nat (length (concat (ext_stack st)) + length (ext_stack st))).

Definition reduce_stack (st : StorageStatExt) : Gas.GM (bool * StorageStatExt) :=
  let* r := iter_pos (reduce_fuel st) reduce_turn st in
  match r with
  | inl _ => raise OtherError
  | inr r => ret r
  end.

Definition ext_add_cell (c : Cell) (st : StorageStatExt) : Gas.GM (bool * StorageStatExt) :=
  if bool_decide (repr_hash c ∈ ext_visited st) then ret (true, st)
  else
    let st := add_visited c st in
    if ext_limit st <=? ext_cells st then ret (false, st)
    else
      let* c := Gas.load_cell_impl c LoadMode_UseGas in
      let st := add_stats (bit_len c) (ref_count c) 1 st in
      reduce_stack (set_iters [references c] st).

Definition ext_add_slice (cs : OwnedCellSlice) (st : StorageStatExt)
    : Gas.GM (bool * StorageStatExt) :=
  let refs := slice_references cs in
  let st := add_stats (slice_bits cs) (Z.of_nat (length refs)) 0 st in
  reduce_stack (set_iters [refs] st).

Definition push_size (ok q : bool) (st : StorageStatExt) : SM Z :=
  (if ok then
     Stack.push_int (ext_cells st) ;;
     Stack.push_int (ext_bits st) ;;
     Stack.push_int (ext_refs st)
   else if q then ret tt else overflow) ;;
  (if q then Stack.push_bool ok else ret tt) ;;
  ret 0.

Definition exec_compute_data_size (is_slice q : bool) : VM Z :=
  let* bound := on_stack Stack.pop_int_or_nan in
  let* value :=
    (if is_slice : bool then let* cs := on_stack Stack.pop_cs in ret (inl cs)
     else let* c := on_stack Stack.pop_cell in ret (inr c)) in
  let* limit :=
    match bound with
    | Some bound => ensure (0 <=? bound) IntegerOverflow ;; ret (default U64_MAX (to_u64 bound))
    | None => raise IntegerOverflow
    end in
  let* (ok, st) := on_gas
    match value with
    | inl cs => ext_add_slice cs (ext_with_limit limit)
    | inr c => ext_add_cell c (ext_with_limit limit)
    end in
  on_stack (push_size ok q st).
End SizeOps.
