(* ===== verification/ConfigOps.v ===== *)
(** * Configuration instructions (instr/configops.rs)

    The parameters in [c7], the configuration dictionary and the prices unpacked from it,
    and the global variables. *)

From S2P Require Import Prelude External Cells Values VmStack VmGas VmRegs VmState ArithOps CellOps.
From S2P Require Import Dicts Models SmcInfo.

Open Scope vm_scope.

(** util.rs *)
Module VmUtil.
Definition shift_ceil_price (value : Z) : Z :=
  Z.shiftr value 16 + Z.b2z (negb (Z.land value 0xffff =? 0)).
End VmUtil.

Section ConfigOps.
Context `{ML : ModelLib} {DL : DictLib}.

#[local] Abbreviation SM := (MS (list value) VmError).

Definition CONFIG_KEY_BITS : Z := 32.

(** ** Items of tuples: [TupleExt::try_get_ref] *)

Section Items.
Context {A : Type} (conv : value -> result VmError A).
Definition try_get_ref (t : Tuple) (index : nat) : result VmError A :=
  match try_get t (Z.of_nat index) with Ok v => conv v | Err e => Err e end.
End Items.

(** [BigInt::from_dyn_ref]: a NaN has the wrong type here. *)
Definition int_ref (v : value) : result VmError Z :=
  match as_int v with Some z => Ok z | None => Err (InvalidType TyInt (ty v)) end.

Definition try_get_int : Tuple -> nat -> result VmError Z := try_get_ref int_ref.
Definition try_get_cell : Tuple -> nat -> result VmError Cell := try_get_ref into_cell.
Definition try_get_slice : Tuple -> nat -> result VmError OwnedCellSlice :=
  try_get_ref into_cell_slice.
Definition try_get_tuple : Tuple -> nat -> result VmError Tuple := try_get_ref into_tuple.

Definition get_c7_params : VM Tuple :=
  let* regs := gets cr in
  of_result (Regs.get_c7_params regs).

(** [balance.get(1).and_then(|v| v.as_cell())] *)
Definition item_cell (t : Tuple) (index : nat) : option Cell :=
  match t !! index with Some (VCell c) => Some c | _ => None end.

(** ** Parameters *)

Definition get_and_push_param (index : nat) : VM Z :=
  let* t := get_c7_params in
  let* param := of_result (try_get t (Z.of_nat index)) in
  done_ (on_stack (Stack.push_raw param)).

Definition get_and_push_in_msg_param (index : nat) : VM Z :=
  let* t1 := get_c7_params in
  let* in_msg_params := of_result (try_get_tuple t1 IN_MSG_PARAMS_IDX) in
  let* param := of_result (try_get in_msg_params (Z.of_nat index)) in
  done_ (on_stack (Stack.push_raw param)).

Definition exec_get_param (i : Z) : VM Z := get_and_push_param (Z.to_nat i).

Definition exec_get_config_dict : VM Z :=
  get_and_push_param CONFIG_IDX ;;
  done_ (on_stack (Stack.push_int CONFIG_KEY_BITS)).

(** [load_reference_cloned] of the value found. *)
Definition value_reference (value : option OwnedCellSlice) : result Error (option Cell) :=
  match value with
  | Some value =>
      match slice_load_reference value with Ok (c, _) => Ok (Some c) | Err e => Err e end
  | None => Ok None
  end.

Definition exec_get_config_param (opt : bool) : VM Z :=
  let* idx := on_stack Stack.pop_int in
  get_and_push_param CONFIG_IDX ;;
  let* dict := on_stack Stack.pop_cell_opt in
  let* builder := cell_ok (store_bigint builder_new idx CONFIG_KEY_BITS true) in
  let key := as_data_slice builder in
  let* value := on_gas (load_gas (dict_get dict CONFIG_KEY_BITS key)) in
  let* param := cell_ok (value_reference value) in
  done_ (on_stack (
    if opt then Stack.push_opt_raw (option_map VCell param)
    else
      match param with
      | Some c => Stack.push_raw (VCell c) ;; Stack.push_bool true
      | None => Stack.push_bool false
      end)).

Definition exec_get_prev_blocks_info (i : Z) : VM Z :=
  require_ton 4 ;;
  let* t1 := get_c7_params in
  let* t2 := of_result (try_get_tuple_range t1 (Z.of_nat PREV_BLOCKS_IDX) 0 255) in
  let* param := of_result (try_get t2 (Z.land i 3)) in
  done_ (on_stack (Stack.push_raw param)).

Definition get_parsed_config : VM Tuple :=
  let* t1 := get_c7_params in
  of_result (try_get_tuple_range t1 (Z.of_nat PARSED_CONFIG_IDX) 0 255).

(** [store_u32(id).unwrap()] on a new builder: the key of a parameter. *)
Definition config_key (id : Z) : VM OwnedCellSlice :=
  match store_uint builder_new id 32 with
  | Ok b => ret (as_data_slice b)
  | Err _ => raise Panic
  end.

(** The cell of a parameter, as [CellSlice::load_reference] of the dictionary value and
    [load_dyn_cell] give it; [none] is the error of a missing one. *)
Definition load_config_param (config_root : Cell) (id : Z) (none : VmError) : VM Cell :=
  let* key := config_key id in
  let* value := on_gas (load_gas (dict_get (Some config_root) CONFIG_KEY_BITS key)) in
  let* value := of_option none value in
  let* (param, _) := cell_ok (slice_load_reference value) in
  on_gas (Gas.load_cell_impl param LoadMode_Full).

Definition find_global_id : VM Z :=
  let* v := gets version in
  let* m := gets modifiers in
  match signature_with_id m with
  | Some global_id => ret global_id
  | None =>
      if is_ton v 6 then
        let* t2 := get_parsed_config in
        let* cs := of_result (try_get_slice t2 1) in
        let* (id, _) := cell_ok (slice_load_uint cs 32) in
        ret (wrap_s 32 id)
      else
        let* t1 := get_c7_params in
        let* config_root := of_result (try_get_cell t1 CONFIG_IDX) in
        let* param := load_config_param config_root 19 Unknown in
        let* id := cell_ok (parse_u32 param) in
        ret (wrap_s 32 id)
  end.

Definition exec_get_global_id : VM Z :=
  require_ton 4 ;;
  let* global_id := find_global_id in
  done_ (on_stack (Stack.push_int global_id)).

(** ** Prices *)

(** The item of the unpacked configuration for the masterchain or the other chains. *)
Definition config_item (is_masterchain : bool) (mc other : nat) : VM OwnedCellSlice :=
  let* t2 := get_parsed_config in
  of_result (try_get_slice t2 (if is_masterchain then mc else other)).
Definition gas_prices_item (is_masterchain : bool) : VM GasLimitsPrices :=
  let* cs := config_item is_masterchain 2 3 in
  cell_ok (load_gas_prices cs).
Definition fwd_prices_item (is_masterchain : bool) : VM MsgForwardPrices :=
  let* cs := config_item is_masterchain 4 5 in
  cell_ok (load_fwd_prices cs).

Definition pop_u64 : SM Z := Stack.pop_long_range 0 U64_MAX.

Definition exec_get_gas_fee : VM Z :=
  require_ton 6 ;;
  let* is_masterchain := on_stack Stack.pop_bool in
  let* gas := on_stack pop_u64 in
  let* config := gas_prices_item is_masterchain in
  done_ (on_stack (Stack.push_int (compute_gas_fee config gas))).

Definition exec_get_storage_fee : VM Z :=
  require_ton 6 ;;
  let* is_masterchain := on_stack Stack.pop_bool in
  let* delta := on_stack pop_u64 in
  let* bits := on_stack pop_u64 in
  let* cells := on_stack pop_u64 in
  let* t2 := get_parsed_config in
  match head t2 with
  | Some (VSlice cs) =>
      let* config := cell_ok (load_storage_prices cs) in
      done_ (on_stack (Stack.push_int
        (prices_storage_fee config is_masterchain delta (mkStats bits cells))))
  | _ => done_ (on_stack Stack.push_zero)
  end.

Definition exec_get_forward_fee : VM Z :=
  require_ton 6 ;;
  let* is_masterchain := on_stack Stack.pop_bool in
  let* bits := on_stack pop_u64 in
  let* cells := on_stack pop_u64 in
  let* config := fwd_prices_item is_masterchain in
  done_ (on_stack (Stack.push_int (compute_fwd_fee config (mkStats bits cells)))).

Definition exec_get_precompiled_gas : VM Z :=
  require_ton 6 ;;
  get_and_push_param PRECOMPILED_GAS_IDX.

(** The quotient is pushed as it is: nothing checks that it has 257 bits. *)
Definition exec_get_original_fwd_fee : VM Z :=
  require_ton 6 ;;
  let* is_masterchain := on_stack Stack.pop_bool in
  let* fwd_fee := on_stack Stack.pop_int in
  ensure (0 <=? fwd_fee) (IntegerOutOfRange 0 (wrap_s 64 U64_MAX) fwd_fee) ;;
  let* config := fwd_prices_item is_masterchain in
  let fwd_fee := Z.shiftl fwd_fee 16 in
  let fwd_fee := Z.quot fwd_fee (Z.shiftl 1 16 - fp_first_frac config) in
  done_ (on_stack (Stack.push_raw (VInt fwd_fee))).

Definition exec_get_gas_fee_simple : VM Z :=
  require_ton 6 ;;
  let* is_masterchain := on_stack Stack.pop_bool in
  let* gas := on_stack pop_u64 in
  let* config := gas_prices_item is_masterchain in
  done_ (on_stack (Stack.push_int (VmUtil.shift_ceil_price (gas * gp_gas_price config)))).

Definition exec_get_forward_fee_simple : VM Z :=
  require_ton 6 ;;
  let* is_masterchain := on_stack Stack.pop_bool in
  let* bits := on_stack pop_u64 in
  let* cells := on_stack pop_u64 in
  let* config := fwd_prices_item is_masterchain in
  let fee := VmUtil.shift_ceil_price
    (sat_add_u128 (cells * fp_cell_price config) (bits * fp_bit_price config)) in
  done_ (on_stack (Stack.push_int fee)).

(** ** Extra currencies *)

(** The gas consumer as a limited consumer with [threshold] gas to charge. *)
Definition cheaply {A} (threshold : Z) (m : MS Gas.LimitedGasConsumer Error A) : Gas.GM A :=
  fun g => match m (Gas.mkLimited g threshold) with (r, l) => (r, Gas.main_gas l) end.

Definition get_extra_balance {A} (p : LoadProg A) : Gas.GM A :=
  let* cheap_consumer := Gas.try_get_extra_balance_consumer in
  match cheap_consumer with
  | Some threshold => cheaply threshold (load_limited p)
  | None => load_gas p
  end.

(** [store_u32(id).ok()] leaves the builder as it is when it fails. *)
Definition currency_key (id : Z) : OwnedCellSlice :=
  as_data_slice (match store_uint builder_new id 32 with Ok b => b | Err _ => builder_new end).

Definition exec_get_extra_currency_balance : VM Z :=
  require_ton 10 ;;
  let* id := on_stack (Stack.pop_smallint_range 0 U32_MAX) in
  let* t1 := get_c7_params in
  let* balance := of_result (try_get_tuple_range t1 (Z.of_nat BALANCE_IDX) 0 255) in
  let extra_currency := item_cell balance 1 in
  let* value_opt := on_gas (get_extra_balance (dict_get extra_currency 32 (currency_key id))) in
  match value_opt with
  | Some value =>
      let* (result, _) := cell_ok (load_var_bigint value 5 false) in
      done_ (on_stack (Stack.push_int result))
  | None => done_ (on_stack Stack.push_zero)
  end.

(** ** Global variables *)

Definition get_global_common (index : Z) : VM Z :=
  let* t := gets (fun st => c7 (cr st)) in
  done_ (on_stack
    match t with
    | None => Stack.push_null
    | Some c7 => Stack.push_opt_raw (c7 !! Z.to_nat index)
    end).

(** The tuple with the item set, and the length to pay for. *)
Definition set_global (c7 : option Tuple) (index : nat) (v : value) : option Tuple * nat :=
  match c7 with
  | None =>
      if is_null v then (None, 0%nat)
      else (Some (<[index := v]> (replicate (S index) VNull)), S index)
  | Some c7 =>
      if bool_decide (length c7 <= index)%nat && is_null v then (Some c7, 0%nat)
      else
        let c7 := if bool_decide (length c7 <= index)%nat then resize (S index) VNull c7 else c7 in
        (Some (<[index := v]> c7), length c7)
  end.

Definition set_global_common (index : Z) : VM Z :=
  let* v := on_stack Stack.pop in
  ensure (index <? 255) (IntegerOutOfRange 0 255 index) ;;
  let* old := gets (fun st => c7 (cr st)) in
  let (c7, tuple_len_to_pay) := set_global old (Z.to_nat index) v in
  on_cr (modify (Regs.put_c7 c7)) ;;
  on_gas (Gas.try_consume_tuple_gas (Z.of_nat tuple_len_to_pay)) ;;
  ret 0.

Definition exec_get_global_var : VM Z :=
  let* args := on_stack (Stack.pop_smallint_range 0 254) in
  get_global_common args.
Definition exec_get_global (i : Z) : VM Z := get_global_common i.
Definition exec_set_global_var : VM Z :=
  let* args := on_stack (Stack.pop_smallint_range 0 254) in
  set_global_common args.
Definition exec_set_global (i : Z) : VM Z := set_global_common i.

Definition exec_get_param_long (i : Z) : VM Z :=
  require_ton 11 ;;
  get_and_push_param (Z.to_nat i).
Definition exec_get_in_msg_param (i : Z) : VM Z :=
  require_ton 11 ;;
  get_and_push_in_msg_param (Z.to_nat i).
End ConfigOps.
