(* ===== verification/MessageOps.v ===== *)
(** * Message instructions (instr/messageops.rs)

    They append actions to the list in [c5].  SENDMSG also works out the fee of the
    message: the size of its cells, the layout of its root and the prices of the
    configuration. *)

From S2P Require Import Prelude External Cells Values VmStack VmGas VmRegs VmState ArithOps CellOps.
From S2P Require Import Dicts Models SmcInfo CurrencyOps RandOps ConfigOps.

Open Scope vm_scope.

Section MessageOps.
Context `{ML : ModelLib} {DL : DictLib}.

#[local] Abbreviation SM := (MS (list value) VmError).

Definition ACTIONS_REG_IDX : Z := 5.
Definition ALL_BALANCE : Z := 128.
Definition WITH_REMAINING_BALANCE : Z := 64.
Definition DRY_RUN_BIT : Z := 1024.
Definition MAX_BIT_LEN : Z := 1023.
Definition MAX_REF_COUNT : Z := 4.

(** [CellBuilder::build_from_ext((c5, action), gas)]. *)
Definition build_action (c5 : Cell) (action : OutAction) : Gas.GM Cell :=
  let* b := of_result (store_reference builder_new c5) in
  let* b := of_result (store_out_action b action) in
  Gas.build_ext b.

Definition add_action (action : OutAction) : VM Z :=
  let* regs := gets cr in
  let* c5 := of_option (ControlRegisterOutOfRange ACTIONS_REG_IDX) (Regs.get_d ACTIONS_REG_IDX regs) in
  let* actions_head := on_gas (build_action c5 action) in
  on_cr (modify (fun r => (Regs.set_d ACTIONS_REG_IDX actions_head r).2)) ;;
  ret 0.

(** ** Raw actions *)

Definition send_raw (mode : Z) (c : Cell) : VM Z :=
  let* out_msg := cell_ok (lazy_from_raw c) in
  add_action (SendMsg mode out_msg).

Definition exec_send_message_raw : VM Z :=
  let* mode := on_stack (Stack.pop_smallint_range 0 255) in
  let* c := on_stack Stack.pop_cell in
  send_raw mode c.

Definition bigint_to_tokens (int : Z) : result VmError Z :=
  if (0 <=? int) && (int <=? TOKENS_MAX) then Ok int
  else Err (IntegerOutOfRange 0 (wrap_s 64 TOKENS_MAX) int).

Definition exec_reserve_raw (x : bool) : VM Z :=
  let* v := gets version in
  let* mode := on_stack (Stack.pop_smallint_range 0 (if is_ton v 4 then 31 else 15)) in
  let* other := (if x then on_stack Stack.pop_cell_opt else ret None) in
  let* int := on_stack Stack.pop_int in
  let* tokens := of_result (bigint_to_tokens int) in
  add_action (ReserveCurrency mode (mkCurrency tokens (extra_from_root other))).

Definition exec_set_code : VM Z :=
  let* code := on_stack Stack.pop_cell in
  add_action (SetCode code).

Definition pop_change_library_mode (v : VmVersion) : SM Z :=
  if is_ton v 4 then
    let* mode := Stack.pop_smallint_range 0 31 in
    ensure (Z.land mode 15 <=? 2) (IntegerOutOfRange 0 31 mode) ;;
    ret mode
  else Stack.pop_smallint_range 0 2.

Definition exec_set_lib_code : VM Z :=
  let* v := gets version in
  let* mode := on_stack (pop_change_library_mode v) in
  let* code := on_stack Stack.pop_cell in
  add_action (ChangeLibrary mode (LibCell code)).

Definition exec_change_lib : VM Z :=
  let* v := gets version in
  let* mode := on_stack (pop_change_library_mode v) in
  let* int := on_stack Stack.pop_int in
  ensure (0 <=? int) (IntegerOutOfRange 0 ISIZE_MAX int) ;;
  let hash := hash_of_bytes (pad_32 (magnitude_bytes_be int)) in
  add_action (ChangeLibrary mode (LibHash hash)).

(** ** SENDMSG: the mode and the address *)

Definition pop_send_msg_mode_ext : SM (Z * bool) :=
  let* raw_mode := Stack.pop_smallint_range 0 2047 in
  let send := Z.land raw_mode DRY_RUN_BIT =? 0 in
  let raw_mode := Z.land raw_mode (Z.lnot DRY_RUN_BIT) in
  ensure (raw_mode <? 256) (IntegerOutOfRange 0 255 raw_mode) ;;
  ret (raw_mode, send).

(** The workchain after the tag, the kind and the anycast prefix of an address; a
    length of nine bits comes before it in an address of variable length. *)
Definition load_workchain (is_var : bool) (cs : OwnedCellSlice) : result Error Z :=
  if is_var then
    let? cs := slice_skip_first cs 9 0 in
    let? (w, _) := slice_load_uint cs 32 in
    Ok (wrap_s 32 w)
  else
    let? (w, _) := slice_load_uint cs 8 in
    Ok (wrap_s 8 w).

Definition parse_addr_tail (cs : OwnedCellSlice) : result Error Z :=
  let? (is_var, cs) := load_bit cs in
  let? (anycast, cs) := load_bit cs in
  let? cs := (if anycast : bool then let? (depth, cs) := load_depth cs in slice_skip_first cs depth 0
              else Ok cs) in
  load_workchain is_var cs.

Definition parse_addr_workchain (addr : OwnedCellSlice) : result VmError Z :=
  match load_bit addr with
  | Err e => Err (CellError e)
  | Ok (false, _) => Err (IntegerOutOfRange 1 1 0)
  | Ok (true, cs) => match parse_addr_tail cs with Ok w => Ok w | Err e => Err (CellError e) end
  end.

(** ** Amounts *)

Definition tokens_bit_len (v : Z) : result VmError Z :=
  match tokens_len v with Some bits => Ok bits | None => Err IntegerOverflow end.
Definition tokens_mul_frac (v frac : Z) : Z := Z.shiftr (sat_mul_u128 v frac) 16.
Definition ext_addr_bit_len (addr : option ExtAddr) : Z :=
  match addr with Some addr => 2 + ext_addr_len addr | None => 2 end.

(** What the handler reads off the message and the contract information. *)
Record MsgContext := mkMsgContext {
  ctx_version : VmVersion;
  ctx_mode : Z;
  ctx_msg : RelaxedMessage;
  ctx_cell : Cell;
  ctx_params : Tuple;
  ctx_config : option Tuple;
  my_addr : OwnedCellSlice;
  on_masterchain : bool
}.

(** [msg.info] when it is the header of an internal message. *)
Definition int_info (m : RelaxedMessage) : option RelaxedIntMsgInfo :=
  match rm_info m with RelaxedInt info => Some info | RelaxedExtOut _ => None end.

Definition get_prices (c : MsgContext) : VM MsgForwardPrices :=
  match ctx_config c with
  | Some t2 =>
      let* cs := of_result (try_get_slice t2 (if on_masterchain c then 4 else 5)) in
      cell_ok (load_fwd_prices cs)
  | None =>
      let* config_root := of_result (try_get_cell (ctx_params c) CONFIG_IDX) in
      let* param := load_config_param config_root (if on_masterchain c then 24 else 25) Unknown in
      cell_ok (parse_fwd_prices param)
  end.

Definition get_max_cells (c : MsgContext) : VM Z :=
  match ctx_config c with
  | Some t2 =>
      let* cs := of_result (try_get_slice t2 6) in
      let* limits := cell_ok (load_size_limits cs) in
      ret (max_msg_cells limits)
  | None => ret (Z.shiftl 1 13)
  end.

(** [skip_first(..).ok()] *)
Definition skip_ok (cs : OwnedCellSlice) (b n : Z) : OwnedCellSlice :=
  match slice_skip_first cs b n with Ok cs => cs | Err _ => cs end.

(** The cells below the root, without the dictionary of the extra currencies. *)
Definition message_stats (c : MsgContext) (has_extra : bool) (max_cells : Z) : VM CellTreeStats :=
  let* cs := cell_ok (as_slice (ctx_cell c)) in
  let cs := skip_ok cs (slice_bits cs) 0 in
  let cs := if is_ton (ctx_version c) 10 && has_extra then skip_ok cs 0 1 else cs in
  ret (storage_stat_slice max_cells cs).

(** The amount an internal message will carry, and whether it has extra currencies. *)
Definition outgoing_value (c : MsgContext) (value : Z) (has_extra : bool)
    : result VmError (Z * bool) :=
  let before_10 := is_ton_before (ctx_version c) 10 in
  let second t := bool_decide (is_Some (item_cell t 1)) in
  match int_info (ctx_msg c) with
  | None => Ok (value, has_extra)
  | Some _ =>
      if flag (ctx_mode c) ALL_BALANCE then
        let? balance := try_get_tuple (ctx_params c) BALANCE_IDX in
        let? int := try_get_int balance 0 in
        let? value := bigint_to_tokens int in
        Ok (value, if before_10 then second balance else has_extra)
      else if flag (ctx_mode c) WITH_REMAINING_BALANCE then
        let? balance := try_get_tuple (ctx_params c) IN_MSG_VALUE_IDX in
        let? int := try_get_int balance 0 in
        let? msg_value := bigint_to_tokens int in
        match tokens_try_add value msg_value with
        | Ok value => Ok (value, if before_10 then has_extra || second balance else has_extra)
        | Err e => Err (CellError e)
        end
      else Ok (value, has_extra)
  end.

(** ** The layout of the root and the fees *)

(** [update_fees]: the forwarding and the hypercube fee, at least those of the user. *)
Definition compute_fees (c : MsgContext) (prices : MsgForwardPrices) (stats : CellTreeStats) : Z * Z :=
  let fwd_fee_short := compute_fwd_fee prices stats in
  let info := int_info (ctx_msg c) in
  let user_fwd_fee := match info with Some i => im_fwd_fee i | None => 0 end in
  let user_ihr_fee := match info with Some i => im_ihr_fee i | None => 0 end in
  let no_ihr := match info with Some i => ihr_disabled i | None => true end in
  (Z.max fwd_fee_short user_fwd_fee,
   if no_ihr then 0
   else Z.max (tokens_mul_frac fwd_fee_short (fp_ihr_price_factor prices)) user_ihr_fee).

Definition info_bits (c : MsgContext) (prices : MsgForwardPrices) (value : Z) (fees : Z * Z)
    : result VmError Z :=
  let (fwd_fee, ihr_fee) := fees in
  let addr_bits := size_bits (range (my_addr c)) in
  match rm_info (ctx_msg c) with
  | RelaxedExtOut info => Ok (2 + addr_bits + ext_addr_bit_len (eo_dst info) + 64 + 32)
  | RelaxedInt info =>
      let fwd_fee_first := tokens_mul_frac fwd_fee (fp_first_frac prices) in
      let? value_bits := tokens_bit_len value in
      let? fwd_bits := tokens_bit_len (tokens_sub fwd_fee fwd_fee_first) in
      let? ihr_bits := tokens_bit_len ihr_fee in
      Ok (4 + addr_bits + int_addr_bit_len (im_dst info) + value_bits + 1 + fwd_bits + ihr_bits + 64 + 32)
  end.

(** [compute_msg_root_bits] *)
Definition root_bits (c : MsgContext) (prices : MsgForwardPrices) (value : Z)
    (layout : MessageLayout) (fees : Z * Z) : result VmError Z :=
  let? bits := info_bits c prices value fees in
  let init_bits :=
    match rm_init (ctx_msg c) with
    | Some init => 1 + (if init_to_cell layout then 0 else state_init_bit_len init)
    | None => 0
    end in
  let body_bits := if body_to_cell layout then 0 else slice_bits (rm_body (ctx_msg c)) in
  Ok (bits + 1 + init_bits + 1 + body_bits).

(** [compute_msg_root_refs] *)
Definition root_refs (c : MsgContext) (has_extra : bool) (layout : MessageLayout) : Z :=
  match rm_info (ctx_msg c) with RelaxedExtOut _ => 0 | RelaxedInt _ => Z.b2z has_extra end
  + match rm_init (ctx_msg c) with
    | Some init => if init_to_cell layout then 1 else state_init_reference_count init
    | None => 0
    end
  + (if body_to_cell layout then 1 else slice_size_refs (rm_body (ctx_msg c))).

(** The root has no room for its parts in this layout. *)
Definition overfull (c : MsgContext) (prices : MsgForwardPrices) (value : Z) (has_extra : bool)
    (layout : MessageLayout) (fees : Z * Z) : result VmError bool :=
  let? bits := root_bits c prices value layout fees in
  Ok ((MAX_BIT_LEN <? bits) || (MAX_REF_COUNT <? root_refs c has_extra layout)).

Definition add_part (stats : CellTreeStats) (bits : Z) : CellTreeStats :=
  mkStats (bit_count stats + bits) (cell_count stats + 1).

(** The state init moves to a cell of its own, then the body, when there is no room. *)
Definition place_init (c : MsgContext) (prices : MsgForwardPrices) (value : Z) (has_extra : bool)
    (layout : MessageLayout) (stats : CellTreeStats) : result VmError (MessageLayout * CellTreeStats) :=
  match rm_init (ctx_msg c) with
  | Some init =>
      if init_to_cell layout then Ok (layout, stats)
      else
        let? full := overfull c prices value has_extra layout (compute_fees c prices stats) in
        if full : bool
        then Ok (mkLayout true (body_to_cell layout), add_part stats (state_init_bit_len init))
        else Ok (layout, stats)
  | None => Ok (layout, stats)
  end.

Definition place_body (c : MsgContext) (prices : MsgForwardPrices) (value : Z) (has_extra : bool)
    (layout : MessageLayout) (stats : CellTreeStats) : result VmError CellTreeStats :=
  if body_to_cell layout then Ok stats
  else
    let? full := overfull c prices value has_extra layout (compute_fees c prices stats) in
    if full : bool then Ok (add_part stats (slice_bits (rm_body (ctx_msg c)))) else Ok stats.

(** The total fee in the final layout. *)
Definition message_fee (c : MsgContext) (prices : MsgForwardPrices) (value : Z) (has_extra : bool)
    (layout : MessageLayout) (stats : CellTreeStats) : result VmError Z :=
  let? (layout, stats) := place_init c prices value has_extra layout stats in
  let? stats := place_body c prices value has_extra layout stats in
  let (fwd_fee, ihr_fee) := compute_fees c prices stats in
  Ok (sat_add_u128 fwd_fee ihr_fee).

(** ** The handler *)

Definition message_context (mode : Z) (msg_cell : Cell) (msg : RelaxedMessage) : VM MsgContext :=
  let* v := gets version in
  let* t1 := get_c7_params in
  let* t2 :=
    (if is_ton v 6 then
       let* t2 := of_result (try_get_tuple_range t1 (Z.of_nat PARSED_CONFIG_IDX) 0 255) in ret (Some t2)
     else ret None) in
  let* my_addr := of_result (try_get_slice t1 MYADDR_IDX) in
  let* my_workchain := of_result (parse_addr_workchain my_addr) in
  let to_masterchain :=
    match int_info msg with Some info => int_is_masterchain (im_dst info) | None => false end in
  ret (mkMsgContext v mode msg msg_cell t1 t2 my_addr ((my_workchain =? -1) || to_masterchain)).

Definition message_value (m : RelaxedMessage) : Z :=
  match int_info m with Some info => tokens (im_value info) | None => 0 end.
Definition message_has_extra (m : RelaxedMessage) : bool :=
  match int_info m with Some info => negb (extra_is_empty (other (im_value info))) | None => false end.

Definition exec_send_message : VM Z :=
  require_ton 4 ;;
  let* (mode, send) := on_stack pop_send_msg_mode_ext in
  let* raw_msg_cell := on_stack Stack.pop_cell in
  let* msg_cell := on_gas (Gas.load_cell_impl raw_msg_cell LoadMode_UseGas) in
  let* msg := cell_ok (parse_relaxed_message msg_cell) in
  let* c := message_context mode msg_cell msg in
  let* prices := get_prices c in
  let* max_cells := get_max_cells c in
  let has_extra := message_has_extra msg in
  let* stats := message_stats c has_extra max_cells in
  let* (value, has_extra) := of_result (outgoing_value c (message_value msg) has_extra) in
  let* layout := of_option Panic (rm_layout msg) in
  let* fee := of_result (message_fee c prices value has_extra layout stats) in
  on_stack (Stack.push_int fee) ;;
  if send : bool then send_raw mode raw_msg_cell else ret 0.
End MessageOps.
