(* ===== verification/DebugOps.v ===== *)
(** * Debug instructions (instr/debugops.rs)

    They print to the debug writer of the VM, an output that no instruction reads; what
    remains is that they leave the machine as it is, and how much code they skip. *)

From S2P Require Import Prelude External Values VmStack VmState.

Open Scope vm_scope.

Section DebugOps.
Context `{CL : CellLib}.

Definition exec_dump_stack : VM Z := ret 0.
Definition exec_dummy_debug (x : Z) : VM Z := ret 0.
Definition exec_dump_string : VM Z := ret 0.
Definition exec_dump_value (x : Z) : VM Z := ret 0.

Definition exec_dummy_debug_str (args bits : Z) : VM Z :=
  let data_bits := (Z.land args 0xf + 1) * 8 in
  let* r := gets (fun st => range (code st)) in
  ensure (has_remaining r (bits + data_bits) 0) InvalidOpcode ;;
  code_skip (bits + data_bits) 0 ;;
  ret 0.
End DebugOps.
