(* ===== verification/Dispatch.v ===== *)
(** * Opcode dispatch (dispatch.rs)

    Opcodes with their 24-bit aligned ranges, the builder that refuses overlaps and
    fills the gaps, and the lookup by binary search.  A [BTreeMap<u32, _>] is its
    list of entries in key order. *)

From S2P Require Import Prelude External Values VmStack VmGas VmRegs VmState.

Open Scope vm_scope.

Definition MAX_OPCODE_BITS : Z := 24.
Definition MAX_OPCODE : Z := Z.shiftl 1 MAX_OPCODE_BITS.
Definition GAS_PER_INSTRUCTION : Z := 10.
Definition GAS_PER_BIT : Z := 1.

Definition opcode_gas (bits : Z) : Z := GAS_PER_INSTRUCTION + bits * GAS_PER_BIT.

(** ** [BTreeMap] *)

Section BTreeMap.
Context {V : Type}.
#[local] Abbreviation map := (list (Z * V)).

(** [range(min..).next()] and [range(..=min).next_back()]. *)
Fixpoint first_ge (k : Z) (m : map) : option (Z * V) :=
  match m with
  | [] => None
  | (k', v) :: m => if k <=? k' then Some (k', v) else first_ge k m
  end.
Fixpoint last_le (k : Z) (m : map) : option (Z * V) :=
  match m with
  | [] => None
  | (k', v) :: m =>
      if k' <=? k then
        match last_le k m with
        | Some e => Some e
        | None => Some (k', v)
        end
      else None
  end.
(** [insert(k, v)]. *)
Fixpoint bt_insert (k : Z) (v : V) (m : map) : map :=
  match m with
  | [] => [(k, v)]
  | (k', v') :: m' =>
      if k <? k' then (k, v) :: m
      else if k =? k' then (k, v) :: m'
      else (k', v') :: bt_insert k v m'
  end.
End BTreeMap.

(** ** The table for any type of opcodes with ranges *)

Section Table.
Context {T : Type} (op_range : T -> Z * Z).

(** [Opcodes::add_opcode_impl]; [None] is the error of [anyhow::ensure!]. *)
Definition add_opcode_impl (opcode : T) (opcodes : list (Z * T)) : option (list (Z * T)) :=
  let (min, max) := op_range opcode in
  let next_ok :=
    match first_ge min opcodes with
    | Some (other_min, _) => max <=? other_min
    | None => true
    end in
  let prev_ok :=
    match last_le min opcodes with
    | Some (_, prev) => (op_range prev).2 <=? min
    | None => true
    end in
  if next_ok && prev_ok then Some (bt_insert min opcode opcodes) else None.

(** [build_opcodes]: the loop from [upto]. *)
Fixpoint build_from (f : Z -> Z -> T) (upto : Z) (items : list (Z * T)) : list (Z * T) :=
  match items with
  | [] => if upto <? MAX_OPCODE then [(upto, f upto MAX_OPCODE)] else []
  | (k, opcode) :: items =>
      let (min, max) := op_range opcode in
      (if upto <? min then [(upto, f upto min)] else []) ++
      (k, opcode) :: build_from f max items
  end.

Definition build_opcodes (f : Z -> Z -> T) (items : list (Z * T)) : list (Z * T) :=
  build_from f 0 items.

(** [lookup_impl]: the [while j - i > 1] loop with fuel. *)
Fixpoint lookup_loop (fuel : nat) (opcodes : list (Z * T)) (opcode i j : Z) : option Z :=
  if 1 <? j - i then
    match fuel with
    | O => None
    | S fuel =>
        let k := Z.shiftr (j + i) 1 in
        match opcodes !! Z.to_nat k with
        | Some (start, _) =>
            if start <=? opcode then lookup_loop fuel opcodes opcode k j
            else lookup_loop fuel opcodes opcode i k
        | None => None
        end
    end
  else Some i.

Definition lookup_impl (opcode : Z) (opcodes : list (Z * T)) : option T :=
  match lookup_loop (length opcodes) opcodes opcode 0 (Z.of_nat (length opcodes)) with
  | Some i => option_map snd (opcodes !! Z.to_nat i)
  | None => None
  end.
End Table.

(** ** Opcodes of the VM *)

Section Opcodes.
Context `{CL : CellLib}.

Inductive Opcode :=
| DummyOpcode (opcode_min opcode_max : Z)
| SimpleOpcode (f : VM Z) (opcode_min opcode_max opcode_bits : Z)
| FixedOpcode (f : Z -> VM Z) (opcode_min opcode_max total_bits : Z)
| ExtOpcode (f : Z -> Z -> VM Z) (opcode_min opcode_max total_bits : Z).

(** [OpcodeBase::range]. *)
Definition op_range (op : Opcode) : Z * Z :=
  match op with
  | DummyOpcode min max | SimpleOpcode _ min max _ | FixedOpcode _ min max _
  | ExtOpcode _ min max _ => (min, max)
  end.

(** [st.code.range_mut().skip_first(bits, 0)?] *)
Definition skip_code (bits : Z) : VM unit :=
  let* c := gets code in
  let* r := map_err CellError (of_result (skip_first (range c) bits 0)) in
  modify (set_code_field (set_range r c)).

(** [OpcodeExec::exec]. *)
Definition op_exec (op : Opcode) (opcode bits : Z) : VM Z :=
  match op with
  | DummyOpcode _ _ =>
      on_gas (Gas.try_consume GAS_PER_INSTRUCTION) ;;
      raise InvalidOpcode
  | SimpleOpcode f _ _ opcode_bits =>
      on_gas (Gas.try_consume (opcode_gas opcode_bits)) ;;
      ensure (opcode_bits <=? bits) InvalidOpcode ;;
      skip_code opcode_bits ;;
      f
  | FixedOpcode f _ _ total_bits =>
      on_gas (Gas.try_consume (opcode_gas total_bits)) ;;
      ensure (total_bits <=? bits) InvalidOpcode ;;
      skip_code total_bits ;;
      f (Z.shiftr opcode (MAX_OPCODE_BITS - total_bits))
  | ExtOpcode f _ _ total_bits =>
      on_gas (Gas.try_consume (opcode_gas total_bits)) ;;
      ensure (total_bits <=? bits) InvalidOpcode ;;
      f (Z.shiftr opcode (MAX_OPCODE_BITS - total_bits)) total_bits
  end.

Definition Opcodes : Type := list (Z * Opcode).

Definition add_opcode (op : Opcode) (t : Opcodes) : option Opcodes :=
  add_opcode_impl op_range op t.

Definition aligned (opcode bits : Z) : Z := Z.shiftl opcode (MAX_OPCODE_BITS - bits).

Definition add_simple (opcode bits : Z) (exec : VM Z) : Opcodes -> option Opcodes :=
  add_opcode (SimpleOpcode exec (aligned opcode bits) (aligned (opcode + 1) bits) bits).
Definition add_fixed (opcode opcode_bits arg_bits : Z) (exec : Z -> VM Z)
  : Opcodes -> option Opcodes :=
  add_opcode (FixedOpcode exec (aligned opcode opcode_bits)
                (aligned (opcode + 1) opcode_bits) (opcode_bits + arg_bits)).
Definition add_fixed_range (opcode_min opcode_max total_bits : Z) (exec : Z -> VM Z)
  : Opcodes -> option Opcodes :=
  add_opcode (FixedOpcode exec (aligned opcode_min total_bits)
                (aligned opcode_max total_bits) total_bits).
Definition add_ext (opcode opcode_bits arg_bits : Z) (exec : Z -> Z -> VM Z)
  : Opcodes -> option Opcodes :=
  add_opcode (ExtOpcode exec (aligned opcode opcode_bits)
                (aligned (opcode + 1) opcode_bits) (opcode_bits + arg_bits)).
Definition add_ext_range (opcode_min opcode_max total_bits : Z) (exec : Z -> Z -> VM Z)
  : Opcodes -> option Opcodes :=
  add_opcode (ExtOpcode exec (aligned opcode_min total_bits)
                (aligned opcode_max total_bits) total_bits).

Definition build (t : Opcodes) : Opcodes := build_opcodes op_range DummyOpcode t.

(** [DispatchTable::get_opcode_from_slice]; its [unwrap] panics on an error. *)
Definition get_opcode_from_slice (s : OwnedCellSlice) : result VmError (Z * Z) :=
  let bits := Z.min MAX_OPCODE_BITS (size_bits (range s)) in
  match get_uint (range s) (cell s) 0 bits with
  | Ok v => Ok (Z.shiftl v (MAX_OPCODE_BITS - bits), bits)
  | Err _ => Err Panic
  end.

(** [DispatchTable::lookup] and [dispatch]. *)
Definition lookup (table : Opcodes) (opcode : Z) : option Opcode :=
  lookup_impl opcode table.

Definition dispatch (table : Opcodes) : VM Z :=
  let* c := gets code in
  let* (opcode, bits) := of_result (get_opcode_from_slice c) in
  let* op := of_option Panic (lookup table opcode) in
  op_exec op opcode bits.
End Opcodes.
