(* ===== verification/VmProc.v ===== *)
(** * Opcode patterns (vm-proc/src/lib.rs)

    The macro [vm_module] turns the pattern string of each [#[op(code = ..)]]
    attribute into an opcode range and the positions of its arguments.  The parser
    works on the same strings; [None] is a compile error of the macro. *)

From Stdlib Require Import Ascii String.
From S2P Require Import Prelude.


Definition PROC_MAX_OPCODE_BITS : Z := 24.

Definition ascii_code (c : ascii) : Z := Z.of_N (N_of_ascii c).
Definition in_range (lo hi c : ascii) : bool :=
  (ascii_code lo <=? ascii_code c) && (ascii_code c <=? ascii_code hi).

Definition is_whitespace (c : ascii) : bool :=
  match ascii_code c with 32 | 9 | 10 | 11 | 12 | 13 => true | _ => false end.
Definition is_ascii_alphanumeric (c : ascii) : bool :=
  in_range "0"%char "9"%char c || in_range "a"%char "z"%char c || in_range "A"%char "Z"%char c.

(** [char::to_digit(radix)]. *)
Definition to_digit (c : ascii) (radix : Z) : option Z :=
  let d :=
    if in_range "0"%char "9"%char c then Some (ascii_code c - ascii_code "0"%char)
    else if in_range "a"%char "z"%char c then Some (ascii_code c - ascii_code "a"%char + 10)
    else if in_range "A"%char "Z"%char c then Some (ascii_code c - ascii_code "A"%char + 10)
    else None in
  match d with
  | Some d => if d <? radix then Some d else None
  | None => None
  end.

(** ** Splitting the pattern ([ParsedCode::from_str]) *)

(** [s.split_once(sep)]. *)
Fixpoint split_at (sep : list ascii) (s : list ascii) : option (list ascii * list ascii) :=
  if bool_decide (take (List.length sep) s = sep) then Some ([], drop (List.length sep) s)
  else
    match s with
    | [] => None
    | c :: s =>
        match split_at sep s with
        | Some (a, b) => Some (c :: a, b)
        | None => None
        end
    end.

Fixpoint trim_start (s : list ascii) : list ascii :=
  match s with
  | c :: s' => if is_whitespace c then trim_start s' else s
  | [] => []
  end.
Definition trim (s : list ascii) : list ascii :=
  reverse (trim_start (reverse (trim_start s))).

Record ParsedCode := mkParsed {
  p_text : list ascii; range_from : option (list ascii); range_to : option (list ascii)
}.

Definition non_empty (s : list ascii) : option (list ascii) :=
  match s with [] => None | _ => Some s end.

Definition parsed_code (s : string) : option ParsedCode :=
  let l := list_ascii_of_string s in
  match split_at ["@"%char] l with
  | None => Some (mkParsed l None None)
  | Some (code, range) =>
      match split_at ["."%char; "."%char] range with
      | None => None
      | Some (from, to) => Some (mkParsed (trim code) (non_empty (trim from)) (non_empty (trim to)))
      end
  end.

(** ** The characters of the pattern *)

Record PatState := mkPat {
  opcode_bits : Z; opcode_base_min : Z; binary_mode : bool;
  (** In order; the source keeps the same vector. *)
  pat_args : list (ascii * Z)
}.

(** [if *last == c { *last_bits += bits } else { args.push((c, bits)) }] *)
Definition push_arg (c : ascii) (bits : Z) (args : list (ascii * Z)) : list (ascii * Z) :=
  match last args with
  | Some (l, last_bits) =>
      if bool_decide (l = c) then removelast args ++ [(l, last_bits + bits)]
      else args ++ [(c, bits)]
  | None => [(c, bits)]
  end.

Definition pat_char (st : PatState) (c : ascii) : option PatState :=
  if is_whitespace c || bool_decide (c = "_"%char) then Some st
  else if bool_decide (c = "$"%char) then
    Some (mkPat (opcode_bits st) (opcode_base_min st) true (pat_args st))
  else if bool_decide (c = "#"%char) then
    Some (mkPat (opcode_bits st) (opcode_base_min st) false (pat_args st))
  else if is_ascii_alphanumeric c then
    let '(radix, symbol_bits) := if binary_mode st then (2, 1) else (16, 4) in
    let base := Z.shiftl (opcode_base_min st) symbol_bits in
    match to_digit c radix with
    | Some d =>
        match pat_args st with
        | [] => Some (mkPat (opcode_bits st + symbol_bits) (Z.lor base d) (binary_mode st) [])
        | _ => None
        end
    | None =>
        Some (mkPat (opcode_bits st) base (binary_mode st)
                (push_arg c symbol_bits (pat_args st)))
    end
  else None.

Fixpoint pat_chars (st : PatState) (s : list ascii) : option PatState :=
  match s with
  | [] => Some st
  | c :: s => match pat_char st c with Some st => pat_chars st s | None => None end
  end.

Definition sum_bits (args : list (ascii * Z)) : Z := fold_right Z.add 0 (map snd args).

(** [u32::from_str_radix(s, 16)]. *)
Definition from_str_radix (s : list ascii) : option Z :=
  fold_left (fun acc c =>
    match acc, to_digit c 16 with
    | Some a, Some d => Some (16 * a + d)
    | _, _ => None
    end) s (match s with [] => None | _ => Some 0 end).

(** ** The opcode of a pattern ([process_instr_definition]) *)

Inductive OpcodeTy :=
| Simple (opcode bits : Z)
| Fixed (opcode bits arg_bits : Z)
| FixedRange (opcode_min opcode_max total_bits arg_bits : Z).

Record Pattern := mkPattern { pattern_ty : OpcodeTy; args : list (ascii * Z) }.

(** A bound of the range: [lo < bound < hi] with as many bits as the opcode. *)
Definition range_bound (s : list ascii) (total_bits lo hi : Z) : option Z :=
  match from_str_radix s with
  | Some v =>
      if (Z.of_nat (List.length s) * 4 =? total_bits) && (lo <? v) && (v <? hi) then Some v
      else None
  | None => None
  end.

Definition opt_bound (s : option (list ascii)) (total_bits lo hi dflt : Z) : option Z :=
  match s with
  | Some s => range_bound s total_bits lo hi
  | None => Some dflt
  end.

Definition compile_pattern (s : string) : option Pattern :=
  match parsed_code s with
  | None => None
  | Some p =>
      match pat_chars (mkPat 0 0 false []) (p_text p) with
      | None => None
      | Some st =>
          let arg_bits := sum_bits (pat_args st) in
          let total_bits := opcode_bits st + arg_bits in
          let base_min := opcode_base_min st in
          let base_max := Z.lor base_min (Z.shiftl 1 arg_bits - 1) + 1 in
          if (opcode_bits st =? 0) || (PROC_MAX_OPCODE_BITS <? total_bits) then None
          else
            match pat_args st, range_from p, range_to p with
            | [], None, None => Some (mkPattern (Simple base_min (opcode_bits st)) [])
            | [], _, _ => None
            | args, None, None =>
                Some (mkPattern (Fixed (Z.shiftr base_min arg_bits) (opcode_bits st) arg_bits) args)
            | args, from, to =>
                match opt_bound from total_bits base_min base_max base_min with
                | None => None
                | Some opcode_min =>
                    match opt_bound to total_bits opcode_min base_max base_max with
                    | None => None
                    | Some opcode_max =>
                        Some (mkPattern (FixedRange opcode_min opcode_max total_bits arg_bits) args)
                    end
                end
            end
      end
  end.

(** [(args >> shift) & mask] of the argument named [c]. *)
Fixpoint arg_value (args : list (ascii * Z)) (c : ascii) (word : Z) : Z :=
  match args with
  | [] => 0
  | (n, bits) :: args =>
      if bool_decide (n = c)
      then Z.land (Z.shiftr word (sum_bits args)) (Z.shiftl 1 bits - 1)
      else arg_value args c word
  end.
