(* ===== verification/Tokenizer.v ===== *)
(** * Text: decimal and hexadecimal digits

    The texts the disassembler writes and reads, as lists of ASCII characters, with the
    formatting and the parsing of integers of the standard library and of [num_bigint]. *)

From Stdlib Require Import Ascii String.
From S2P Require Import Prelude VmProc.

Abbreviation Text := (list ascii).

(** A literal of the source. *)
Definition lit (s : string) : Text := list_ascii_of_string s.

(** ['0'..='9'] and ['0'..='9' | 'a'..='f' | 'A'..='F']. *)
Definition is_digit (c : ascii) : bool := in_range "0"%char "9"%char c.
Definition is_hex (c : ascii) : bool :=
  is_digit c || in_range "a"%char "f"%char c || in_range "A"%char "F"%char c.
(** [char::is_ascii_whitespace], which leaves out the vertical tab. *)
Definition is_ascii_whitespace (c : ascii) : bool :=
  match ascii_code c with 32 | 9 | 10 | 12 | 13 => true | _ => false end.

Definition digit_value (c : ascii) : Z := ascii_code c - ascii_code "0"%char.
Definition digit_char (d : Z) : ascii := ascii_of_N (Z.to_N (48 + d)).

(** ** Decimal integers *)

Fixpoint show_digits (fuel : nat) (n : Z) (acc : Text) : Text :=
  match fuel with
  | O => acc
  | S fuel =>
      let acc := digit_char (n mod 10) :: acc in
      if n / 10 =? 0 then acc else show_digits fuel (n / 10) acc
  end.
Definition show_nat (n : Z) : Text := show_digits (S (Z.to_nat (Z.log2 n))) n [].

(** [Display] of the integer types and of [BigInt]. *)
Definition show_int (z : Z) : Text := if z <? 0 then "-"%char :: show_nat (- z) else show_nat z.

Definition digits_value (l : Text) : Z := fold_left (fun acc c => 10 * acc + digit_value c) l 0.

(** [BigInt::from_str] on digits with an optional minus sign, all the lexer gives it. *)
Definition parse_int (l : Text) : option Z :=
  let (neg, ds) := match l with c :: l' => if (c =? "-")%char then (true, l') else (false, l) | [] => (false, l) end in
  if negb (bool_decide (ds = [])) && forallb is_digit ds
  then Some (if neg then - digits_value ds else digits_value ds) else None.

Definition fits_i32 (z : Z) : bool := (- 2 ^ 31 <=? z) && (z <? 2 ^ 31).
(** [str::parse::<i32>()]. *)
Definition parse_i32 (l : Text) : option Z :=
  match parse_int l with
  | Some z => if fits_i32 z then Some z else None
  | None => None
  end.

(** ** What was shown is parsed *)

Lemma ascii_code_of_N n : 0 <= n < 256 -> ascii_code (ascii_of_N (Z.to_N n)) = n.
Proof. intros Hn. unfold ascii_code. rewrite N_ascii_embedding by lia. lia. Qed.

Lemma digit_char_digit d : 0 <= d < 10 -> is_digit (digit_char d) = true /\ digit_value (digit_char d) = d.
Proof.
  intros Hd. unfold is_digit, in_range, digit_value, digit_char.
  change (ascii_code "0") with 48. change (ascii_code "9") with 57.
  rewrite ascii_code_of_N by lia. split; [apply andb_true_intro; split; apply Z.leb_le|]; lia.
Qed.

Lemma show_digits_app fuel n acc : show_digits fuel n acc = show_digits fuel n [] ++ acc.
Proof.
  revert n acc. induction fuel as [|fuel IH]; intros n acc; [done|]. cbn [show_digits].
  destruct (n / 10 =? 0); [done|]. rewrite IH, (IH _ [_]), <- app_assoc. done.
Qed.

Lemma digits_value_app l c : digits_value (l ++ [c]) = 10 * digits_value l + digit_value c.
Proof. unfold digits_value. by rewrite fold_left_app. Qed.

Lemma show_digits_ok fuel n : 0 <= n < 2 ^ Z.of_nat fuel -> (0 < fuel)%nat ->
  forallb is_digit (show_digits fuel n []) = true /\ show_digits fuel n [] <> [] /\
  digits_value (show_digits fuel n []) = n.
Proof.
  revert n. induction fuel as [|fuel IH]; intros n Hn Hf; [lia|]. cbn [show_digits].
  pose proof (Z.mod_pos_bound n 10 ltac:(lia)) as Hm. destruct (digit_char_digit _ Hm) as [Hd Hv].
  pose proof (Z.div_mod n 10 ltac:(lia)) as Hdm.
  rewrite Nat2Z.inj_succ, Z.pow_succ_r in Hn by lia.
  destruct (Z.eqb_spec (n / 10) 0) as [E|E].
  - split; [cbn; by rewrite Hd|]. split; [done|]. unfold digits_value. cbn [fold_left]. lia.
  - destruct fuel as [|fuel]; [cbn in Hn; lia|].
    destruct (IH (n / 10)) as (H1 & H2 & H3).
    + split; [apply Z.div_pos; lia|]. apply Z.div_lt_upper_bound; lia.
    + lia.
    + rewrite show_digits_app. split; [|split].
      * rewrite forallb_app, H1. cbn. by rewrite Hd.
      * by destruct (show_digits (S fuel) (n / 10) []).
      * rewrite digits_value_app, H3, Hv. lia.
Qed.

Lemma show_nat_ok n : 0 <= n ->
  forallb is_digit (show_nat n) = true /\ show_nat n <> [] /\ digits_value (show_nat n) = n.
Proof.
  intros Hn. apply show_digits_ok; [|lia]. split; [done|].
  rewrite Nat2Z.inj_succ, Z2Nat.id by apply Z.log2_nonneg.
  destruct (decide (n = 0)) as [-> | H0]; [done|]. apply Z.log2_spec. lia.
Qed.

(** A shown integer is an optional sign and digits. *)
Lemma show_int_digits z : exists ds, ds <> [] /\ forallb is_digit ds = true /\
  (z < 0 /\ show_int z = "-"%char :: ds \/ 0 <= z /\ show_int z = ds).
Proof.
  unfold show_int. destruct (Z.ltb_spec z 0).
  - destruct (show_nat_ok (- z) ltac:(lia)) as (H1 & H2 & _). exists (show_nat (- z)). auto.
  - destruct (show_nat_ok z ltac:(lia)) as (H1 & H2 & _). exists (show_nat z). auto.
Qed.

Lemma digit_not c x : is_digit x = false -> is_digit c = true -> (c =? x)%char = false.
Proof. intros Hx Hc. apply Ascii.eqb_neq. by intros ->; rewrite Hx in Hc. Qed.

Lemma parse_show_int z : parse_int (show_int z) = Some z.
Proof.
  unfold parse_int, show_int. destruct (Z.ltb_spec z 0).
  - destruct (show_nat_ok (- z) ltac:(lia)) as (H1 & H2 & H3). rewrite Ascii.eqb_refl. cbn iota.
    rewrite bool_decide_eq_false_2, H1 by done. cbn [negb andb]. rewrite H3. f_equal. lia.
  - destruct (show_nat_ok z ltac:(lia)) as (H1 & H2 & H3).
    destruct (show_nat z) as [|c l] eqn:E; [done|].
    pose proof H1 as Hc. cbn [forallb] in Hc. apply andb_prop in Hc as [Hc _].
    rewrite (digit_not _ "-" eq_refl Hc), bool_decide_eq_false_2, H1 by done. cbn [negb andb]. by rewrite H3.
Qed.

Lemma parse_show_i32 z : fits_i32 z = true -> parse_i32 (show_int z) = Some z.
Proof. intros Hz. unfold parse_i32. by rewrite parse_show_int, Hz. Qed.

(** * The tokenizer of the disassembler (disasm/src/tokenizer.rs)

    The text of a dumped opcode is a name and its arguments: integers, stack items,
    control registers, and placeholders for cells and slices.  The texts are ASCII, which
    is all the dump of an instruction writes; a byte position is then a character position. *)

Open Scope vm_scope.

Module Tokenizer.
Inductive OpcodeArgToken :=
| TInt (z : Z)
| TStack (idx : Z)
| TReg (idx : Z)
| TCell
| TSlice.

Record OpcodeTokens := mkTokens { name : Text; args : list OpcodeArgToken }.

Inductive LexerError :=
| UnexpectedEof
| UnexpectedToken (c : ascii)
| UnclosedParen
| ArgumentSkipped.

(** [LexUnwrap] is the panic of an [unwrap]; [LexFuel] is the fuel of the loops, which the
    source does not have. *)
Inductive LexFail :=
| LexError (e : LexerError)
| LexUnwrap
| LexFuel.

(** [chars] is what is left of [input]. *)
Record Lexer := mkLexer { input : Text; chars : Text }.

Definition LexM (A : Type) : Type := MS Lexer LexFail A.
Definition fail {A} (e : LexerError) : LexM A := raise (LexError e).

Definition EOF_CHAR : ascii := zero.

Definition lexer_new (input : Text) : Lexer := mkLexer input input.
Definition first : LexM ascii := gets (fun l => hd EOF_CHAR (chars l)).
Definition bump : LexM (option ascii) := fun l =>
  match chars l with
  | [] => (Ok None, l)
  | c :: cs => (Ok (Some c), mkLexer (input l) cs)
  end.
Definition pos : LexM nat := gets (fun l => (length (input l) - length (chars l))%nat).
(** [self.input[from..to]]. *)
Definition input_range (from to : nat) : LexM Text := gets (fun l => take (to - from) (drop from (input l))).
(** Enough turns for any loop that consumes a character in each. *)
Definition loop_fuel : LexM nat := gets (fun l => S (length (chars l))).

(** The error of a character that does not fit, or of the end of the text. *)
Definition unexpected {A} (c : option ascii) : LexM A :=
  match c with
  | Some c => fail (UnexpectedToken c)
  | None => fail UnexpectedEof
  end.

Definition read_control_reg : LexM OpcodeArgToken :=
  let* c := bump in
  match c with
  | Some c => if is_digit c then ret (TReg (digit_value c)) else unexpected (Some c)
  | None => unexpected None
  end.

(** The loop over the digits of [read_stack_item] and [read_number]. *)
Fixpoint digits_loop (fuel : nat) (has_digits : bool) (finish : LexM OpcodeArgToken)
    : LexM OpcodeArgToken :=
  match fuel with
  | O => raise LexFuel
  | S fuel =>
      let* c := first in
      if is_digit c then
        bump ;;
        digits_loop fuel true finish
      else if has_digits then finish
      else
        let* c := bump in
        unexpected c
  end.

Definition read_stack_item : LexM OpcodeArgToken :=
  let* from := pos in
  let* c := bump in
  let* has_digits :=
    match c with
    | Some c =>
        if (c =? "-")%char then ret false
        else if is_digit c then ret true
        else unexpected (Some c)
    | None => unexpected None
    end in
  let* fuel := loop_fuel in
  digits_loop fuel has_digits (
    let* to := pos in
    let* text := input_range from to in
    match parse_i32 text with
    | Some idx => ret (TStack idx)
    | None => raise LexUnwrap
    end).

Fixpoint hex_loop (n : nat) : LexM OpcodeArgToken :=
  match n with
  | O => ret TCell
  | S n =>
      let* c := bump in
      match c with
      | Some c => if is_hex c then hex_loop n else unexpected (Some c)
      | None => unexpected None
      end
  end.
Definition read_cell : LexM OpcodeArgToken := hex_loop 64.

(** The loop of [read_slice]: whether it returned at the closing parenthesis. *)
Fixpoint slice_loop (fuel : nat) (wrapped : bool) : LexM bool :=
  match fuel with
  | O => raise LexFuel
  | S fuel =>
      let* c := first in
      if is_hex c then
        bump ;;
        slice_loop fuel wrapped
      else if (c =? "_")%char then
        bump ;;
        ret false
      else if (c =? ")")%char && wrapped then ret true
      else ret false
  end.

Definition read_slice (wrapped : bool) : LexM OpcodeArgToken :=
  let* fuel := loop_fuel in
  let* returned := slice_loop fuel wrapped in
  if returned then ret TSlice
  else if negb wrapped then ret TSlice
  else
    let* c := bump in
    match c with
    | Some c =>
        if (c =? ",")%char then
          let* c := bump in
          match c with
          | Some c => if is_digit c then ret TSlice else unexpected (Some c)
          | None => unexpected None
          end
        else unexpected (Some c)
    | None => unexpected None
    end.

Definition read_number (first_digit : ascii) : LexM OpcodeArgToken :=
  let* from := pos in
  let from := (from - 1)%nat in
  let* has_digits :=
    if (first_digit =? "-")%char then ret false
    else if is_digit first_digit then ret true
    else unexpected (Some first_digit) in
  let* fuel := loop_fuel in
  digits_loop fuel has_digits (
    let* to := pos in
    let* text := input_range from to in
    match parse_int text with
    | Some z => ret (TInt z)
    | None => raise LexUnwrap
    end).

(** The argument in parentheses, with the closing one. *)
Definition read_paren : LexM OpcodeArgToken :=
  let* c := first in
  let* token :=
    if (c =? "x")%char then
      bump ;;
      read_slice true
    else read_cell in
  let* c := bump in
  match c with
  | Some c => if (c =? ")")%char then ret token else fail UnclosedParen
  | None => fail UnexpectedEof
  end.

(** The loop of [tokenize] over the arguments. *)
Fixpoint args_loop (fuel : nat) (has_comma : bool) (res : list OpcodeArgToken)
    : LexM (list OpcodeArgToken) :=
  match fuel with
  | O => raise LexFuel
  | S fuel =>
      let* first_char := bump in
      match first_char with
      | None => ret res
      | Some c =>
          if (c =? "c")%char then
            let* token := read_control_reg in args_loop fuel false (res ++ [token])
          else if (c =? "s")%char then
            let* token := read_stack_item in args_loop fuel false (res ++ [token])
          else if (c =? "(")%char then
            let* token := read_paren in args_loop fuel false (res ++ [token])
          else if (c =? "x")%char then
            let* token := read_slice false in args_loop fuel false (res ++ [token])
          else if is_ascii_whitespace c then args_loop fuel has_comma res
          else if (c =? ",")%char then
            if has_comma then fail ArgumentSkipped else args_loop fuel true res
          else
            let* token := read_number c in args_loop fuel false (res ++ [token])
      end
  end.

Definition tokenize (text : Text) : result LexFail OpcodeTokens :=
  let text := VmProc.trim text in
  match VmProc.split_at [" "%char] text with
  | None => Ok (mkTokens text [])
  | Some (name, args) =>
      match (let* fuel := loop_fuel in args_loop fuel false []) (lexer_new args) with
      | (Ok args, _) => Ok (mkTokens name args)
      | (Err e, _) => Err e
      end
  end.
End Tokenizer.

(** The texts of the test of tokenizer.rs. *)
Section Tests.
#[local] Open Scope string_scope.
Import Tokenizer.

Definition test_hash : string := "(96a296d224f285c67bee93c30f8a309157f0daa35dc5b87e410b78630a09cfc7)".

Example tokenize_works :
  tokenize (lit "DUP") = Ok (mkTokens (lit "DUP") []) /\
  tokenize (lit "PUSHINT 123") = Ok (mkTokens (lit "PUSHINT") [TInt 123]) /\
  tokenize (lit "PUSHSLICECONST x") = Ok (mkTokens (lit "PUSHSLICECONST") [TSlice]) /\
  tokenize (lit "PUSHSLICECONST x6") = Ok (mkTokens (lit "PUSHSLICECONST") [TSlice]) /\
  tokenize (lit "DICTPUSHCONST 19 (xC_,1)") = Ok (mkTokens (lit "DICTPUSHCONST") [TInt 19; TSlice]) /\
  tokenize (lit ("PUSHREFCONT " ++ test_hash)) = Ok (mkTokens (lit "PUSHREFCONT") [TCell]) /\
  tokenize (lit ("IFREFELSEREF " ++ test_hash ++ " " ++ test_hash)) =
    Ok (mkTokens (lit "IFREFELSEREF") [TCell; TCell]).
Proof. vm_compute. repeat split. Qed.

Example tokenize_fails :
  tokenize (lit "XCHG s-") = Err (LexError UnexpectedEof) /\
  tokenize (lit "XCHG s1,,s2") = Err (LexError ArgumentSkipped) /\
  tokenize (lit "XCHG a") = Err (LexError (UnexpectedToken "a"%char)) /\
  tokenize (lit "PUSH s2147483648") = Err LexUnwrap /\
  tokenize (lit "PUSHREF (96") = Err (LexError UnexpectedEof).
Proof. vm_compute. repeat split. Qed.
End Tests.
