(* ===== verification/TokenizerSpec.v ===== *)
(** * What the tokenizer accepts

    A grammar of the dumped opcodes, and that the tokenizer accepts exactly its texts.  The
    readers are characterised on a lexer that has read [pre] and has [rest] left. *)

From Stdlib Require Import Ascii String.
From S2P Require Import Prelude VmProc Tokenizer.

Import Tokenizer.
Open Scope vm_scope.

(** ** The grammar *)

(** The text goes on with something other than a digit (a hexadecimal digit, [_]). *)
Definition no_digit (t : Text) : Prop := is_digit (hd EOF_CHAR t) = false.
Definition no_hex (t : Text) : Prop := is_hex (hd EOF_CHAR t) = false /\ hd EOF_CHAR t <> "_"%char.
Definition hexes (ds : Text) : Prop := forallb is_hex ds = true.
Definition underscore (u : Text) : Prop := u = [] \/ u = ["_"%char].

(** [s] is how an argument is written when [t] follows. *)
Inductive written : OpcodeArgToken -> Text -> Text -> Prop :=
| written_int z s t : parse_int s = Some z -> no_digit t -> written (TInt z) s t
| written_stack z s t : parse_i32 s = Some z -> no_digit t -> written (TStack z) ("s"%char :: s) t
| written_reg c t : is_digit c = true -> written (TReg (digit_value c)) ["c"%char; c] t
| written_cell hs t : hexes hs -> length hs = 64%nat ->
    written TCell ("("%char :: hs ++ [")"%char]) t
| written_slice ds t : hexes ds -> no_hex t -> written TSlice ("x"%char :: ds) t
| written_padded ds t : hexes ds -> written TSlice ("x"%char :: ds ++ ["_"%char]) t
| written_wrapped ds t : hexes ds -> written TSlice ("("%char :: "x"%char :: ds ++ [")"%char]) t
| written_refs ds u d t : hexes ds -> underscore u -> is_digit d = true ->
    written TSlice ("("%char :: "x"%char :: ds ++ u ++ [","%char; d; ")"%char]) t.

(** The arguments, separated by spaces and single commas; the flag tells that a comma was
    read since the last argument. *)
Inductive arguments : bool -> list OpcodeArgToken -> Text -> Prop :=
| arguments_end h : arguments h [] []
| arguments_space h l c t : is_ascii_whitespace c = true -> arguments h l t -> arguments h l (c :: t)
| arguments_comma l t : arguments true l t -> arguments false l (","%char :: t)
| arguments_token h tok l s t : written tok s t -> arguments false l t -> arguments h (tok :: l) (s ++ t).

Definition no_space (t : Text) : Prop := " "%char ∉ t.

(** A name alone, or a name and its arguments after a space. *)
Definition sentence (text : Text) (tokens : OpcodeTokens) : Prop :=
  no_space text /\ tokens = mkTokens text [] \/
  exists a, text = name tokens ++ " "%char :: a /\ no_space (name tokens) /\ arguments false (args tokens) a.

(** ** Texts as the loops see them *)

Lemma span_text (p : ascii -> bool) (t : Text) : p EOF_CHAR = false ->
  exists ds t', t = ds ++ t' /\ forallb p ds = true /\ p (hd EOF_CHAR t') = false.
Proof.
  intros Hp. induction t as [|c t (ds & t' & -> & Hd & Ht)]; [by exists [], []|].
  destruct (p c) eqn:E; [exists (c :: ds), t' | exists [], (c :: ds ++ t')]; cbn; by rewrite ?E.
Qed.

Lemma parse_digits ds : ds <> [] -> forallb is_digit ds = true -> parse_int ds = Some (digits_value ds).
Proof.
  intros Hn Hd. destruct ds as [|c l]; [done|]. unfold parse_int. pose proof Hd as Hc.
  cbn [forallb] in Hc. apply andb_prop in Hc as [Hc _].
  by rewrite (digit_not _ "-" eq_refl Hc), bool_decide_eq_false_2, Hd.
Qed.
Lemma parse_minus ds : ds <> [] -> forallb is_digit ds = true ->
  parse_int ("-"%char :: ds) = Some (- digits_value ds).
Proof. intros Hn Hd. unfold parse_int. rewrite Ascii.eqb_refl. cbn iota. by rewrite bool_decide_eq_false_2, Hd. Qed.

(** What parses as an integer. *)
Lemma parse_int_inv s z : parse_int s = Some z ->
  exists ds, ds <> [] /\ forallb is_digit ds = true /\ (s = ds \/ s = "-"%char :: ds).
Proof.
  unfold parse_int. intros H.
  assert (exists neg ds, (if neg : bool then s = "-"%char :: ds else s = ds) /\
    negb (bool_decide (ds = [])) && forallb is_digit ds = true) as (neg & ds & Hs & Hd).
  { destruct s as [|c l]; [done|]. destruct (Ascii.eqb_spec c "-") as [-> | _].
    - exists true, l. by destruct (negb _ && _).
    - exists false, (c :: l). by destruct (negb _ && _). }
  apply andb_prop in Hd as [Hn Hd]. exists ds. case_bool_decide; [done|]. destruct neg; auto.
Qed.

Lemma hex_of_digit c : is_hex c = false -> is_digit c = false.
Proof. unfold is_hex. by destruct (is_digit c). Qed.

(** A character whose class tells it from a given one. *)
Lemma char_not (p : ascii -> bool) c x : p c = true -> p x = false -> (c =? x)%char = false.
Proof. intros Hc Hx. apply Ascii.eqb_neq. by intros ->; rewrite Hx in Hc. Qed.

(** ** The readers *)

(** A lexer that has read [pre]. *)
Definition at_rest (pre rest : Text) : Lexer := mkLexer (pre ++ rest) rest.

Lemma bump_at pre c rest : bump (at_rest pre (c :: rest)) = (Ok (Some c), at_rest (pre ++ [c]) rest).
Proof. unfold bump, at_rest. cbn. by rewrite <- app_assoc. Qed.
Lemma bump_end pre : bump (at_rest pre []) = (Ok None, at_rest pre []).
Proof. done. Qed.
Lemma first_at pre rest : first (at_rest pre rest) = (Ok (hd EOF_CHAR rest), at_rest pre rest).
Proof. done. Qed.
Lemma pos_at pre rest : pos (at_rest pre rest) = (Ok (length pre), at_rest pre rest).
Proof. unfold pos, gets, at_rest. cbn. rewrite length_app. do 2 f_equal. lia. Qed.
Lemma loop_fuel_at pre rest : loop_fuel (at_rest pre rest) = (Ok (S (length rest)), at_rest pre rest).
Proof. done. Qed.
Lemma input_range_at pre s rest :
  input_range (length pre) (length (pre ++ s)) (at_rest (pre ++ s) rest) = (Ok s, at_rest (pre ++ s) rest).
Proof.
  unfold input_range, gets, at_rest. cbn. do 2 f_equal.
  rewrite length_app, <- app_assoc, drop_app_length.
  replace (length pre + length s - length pre)%nat with (length s) by lia. apply take_app_length.
Qed.

Lemma bind_ret {A B} (a : A) (k : A -> LexM B) l : bind (ret a) k l = k a l.
Proof. done. Qed.

Ltac lex := repeat first
  [ rewrite (bind_ok _ _ _ _ _ (bump_at _ _ _)) | rewrite (bind_ok _ _ _ _ _ (bump_end _))
  | rewrite (bind_ok _ _ _ _ _ (first_at _ _)) | rewrite (bind_ok _ _ _ _ _ (pos_at _ _))
  | rewrite (bind_ok _ _ _ _ _ (loop_fuel_at _ _)) | rewrite bind_ret ].

(** Reading failed, but not for want of fuel; a panic only if [P]. *)
Definition failed {A} (P : Prop) (r : result LexFail A) : Prop :=
  match r with Ok _ => False | Err LexFuel => False | Err LexUnwrap => P | Err (LexError _) => True end.

Lemma unexpected_fails {A} P c l : failed P ((unexpected c : LexM A) l).1.
Proof. by destruct c. Qed.

Lemma digits_loop_at fuel has pre ds t finish : (length ds < fuel)%nat ->
  forallb is_digit ds = true -> no_digit t ->
  if has || negb (bool_decide (ds = [])) then
    digits_loop fuel has finish (at_rest pre (ds ++ t)) = finish (at_rest (pre ++ ds) t)
  else forall P, failed P (digits_loop fuel has finish (at_rest pre (ds ++ t))).1.
Proof.
  intros Hf Hd Ht. revert fuel has pre Hf. induction ds as [|c ds IH]; intros fuel has pre Hf;
    (destruct fuel as [|fuel]; [cbn in Hf; lia|]); cbn [digits_loop app]; lex.
  - rewrite Ht, app_nil_r. destruct has; [done|]. cbn. intros P.
    destruct t as [|x t]; lex; apply unexpected_fails.
  - cbn [hd]. cbn in Hd. apply andb_prop in Hd as [Hc Hd]. rewrite Hc. lex.
    specialize (IH Hd fuel true (pre ++ [c]) ltac:(cbn in Hf; lia)). cbn [orb] in IH.
    rewrite bool_decide_eq_false_2, orb_true_r by done. by rewrite IH, <- app_assoc.
Qed.

Lemma number_at c pre ds t : forallb is_digit ds = true -> no_digit t ->
  match parse_int (c :: ds) with
  | Some z => read_number c (at_rest (pre ++ [c]) (ds ++ t)) = (Ok (TInt z), at_rest (pre ++ c :: ds) t)
  | None => forall P, failed P (read_number c (at_rest (pre ++ [c]) (ds ++ t))).1
  end.
Proof.
  intros Hd Ht. unfold read_number. lex. cbn zeta.
  replace (length (pre ++ [c]) - 1)%nat with (length pre) by (rewrite length_app; cbn; lia).
  set (finish := bind pos _).
  assert (forall z, parse_int (c :: ds) = Some z ->
    finish (at_rest ((pre ++ [c]) ++ ds) t) = (Ok (TInt z), at_rest (pre ++ c :: ds) t)) as Hfin.
  { intros z Hz. unfold finish. lex. rewrite <- app_assoc.
    rewrite (bind_ok _ _ _ _ _ (input_range_at pre (c :: ds) t)). by rewrite Hz. }
  assert (length ds < S (length (ds ++ t)))%nat as Hl by (rewrite length_app; lia).
  destruct (Ascii.eqb_spec c "-") as [-> | Hm].
  - lex.
    pose proof (digits_loop_at _ false (pre ++ ["-"%char]) ds t finish Hl Hd Ht) as H.
    destruct ds as [|d ds]; cbn [orb] in H.
    + exact H.
    + rewrite bool_decide_eq_false_2 in H by done. rewrite H.
      rewrite (parse_minus (d :: ds)) in * by done. by apply Hfin.
  - destruct (is_digit c) eqn:Hc.
    + lex.
      pose proof (digits_loop_at _ true (pre ++ [c]) ds t finish Hl Hd Ht) as H. cbn [orb] in H. rewrite H.
      assert (forallb is_digit (c :: ds) = true) as Hcd by (cbn; by rewrite Hc).
      rewrite (parse_digits (c :: ds)) in * by done. by apply Hfin.
    + assert (parse_int (c :: ds) = None) as ->; [|by intros P].
      destruct (parse_int (c :: ds)) as [z|] eqn:E; [|done].
      destruct (parse_int_inv _ _ E) as (l & Hn & Hl' & [<- | [= -> _]]); [|done].
      cbn in Hl'. by rewrite Hc in Hl'.
Qed.

(** A stack item overflows [i32]. *)
Definition overflows (s : Text) : Prop := exists z, parse_int s = Some z /\ fits_i32 z = false.

Lemma stack_at pre ds sign t : forallb is_digit ds = true -> no_digit t ->
  sign = [] /\ hd EOF_CHAR (ds ++ t) <> "-"%char \/ sign = ["-"%char] ->
  match parse_i32 (sign ++ ds) with
  | Some z => read_stack_item (at_rest pre (sign ++ ds ++ t)) = (Ok (TStack z), at_rest (pre ++ sign ++ ds) t)
  | None => forall P : Prop, (overflows (sign ++ ds) -> P) -> failed P (read_stack_item (at_rest pre (sign ++ ds ++ t))).1
  end.
Proof.
  intros Hd Ht Hs. unfold read_stack_item. lex.
  match goal with |- context [digits_loop _ _ ?f] => set (finish := f) end.
  assert (forall x, finish (at_rest (pre ++ sign ++ ds) t) = x -> match parse_i32 (sign ++ ds) with
    | Some z => x = (Ok (TStack z), at_rest (pre ++ sign ++ ds) t) | None => x.1 = Err LexUnwrap end) as Hfin.
  { intros x <-. unfold finish. lex. rewrite (bind_ok _ _ _ _ _ (input_range_at pre (sign ++ ds) t)).
    by destruct (parse_i32 _). }
  assert (ds <> [] -> parse_int (sign ++ ds) = Some (if bool_decide (sign = []) then digits_value ds else - digits_value ds)) as Hp.
  { intros Hn. destruct Hs as [[-> _] | ->]; [by apply parse_digits | by apply parse_minus]. }
  assert (ds <> [] -> parse_i32 (sign ++ ds) = None -> overflows (sign ++ ds)) as Hov.
  { unfold parse_i32, overflows. intros Hn. rewrite (Hp Hn). destruct (fits_i32 _) eqn:E; [done|]. eauto. }
  destruct Hs as [[-> Hm] | ->]; cbn [app].
  - destruct ds as [|c ds].
    + cbn [app] in *. unfold no_digit in Ht. intros P _. destruct t as [|c t]; lex; [done|].
      cbn [hd] in Ht, Hm. by rewrite (proj2 (Ascii.eqb_neq _ _) Hm), Ht.
    + cbn [app]. lex. pose proof Hd as Hc. cbn [forallb] in Hc. apply andb_prop in Hc as [Hc Hds].
      rewrite (digit_not _ "-" eq_refl Hc), Hc. lex.
      pose proof (digits_loop_at (S (length (ds ++ t))) true (pre ++ [c]) ds t finish
        ltac:(rewrite length_app; lia) Hds Ht) as H. cbn [orb] in H. rewrite H, <- app_assoc.
      specialize (Hfin _ eq_refl). cbn [app] in *. destruct (parse_i32 _); [done|].
      intros P HP. rewrite Hfin. by apply HP, Hov.
  - lex. rewrite Ascii.eqb_refl. lex.
    pose proof (digits_loop_at (S (length (ds ++ t))) false (pre ++ ["-"%char]) ds t finish
      ltac:(rewrite length_app; lia) Hd Ht) as H. cbn [orb] in H.
    destruct ds as [|d ds]; [intros P _; apply H|].
    rewrite bool_decide_eq_false_2 in H by done. cbn [negb app] in *. rewrite H, <- app_assoc.
    specialize (Hfin _ eq_refl). cbn [app] in *. destruct (parse_i32 _); [done|].
    intros P HP. rewrite Hfin. by apply HP, Hov.
Qed.

Lemma hex_loop_at pre hs t : hexes hs ->
  hex_loop (length hs) (at_rest pre (hs ++ t)) = (Ok TCell, at_rest (pre ++ hs) t).
Proof.
  revert pre. induction hs as [|c hs IH]; intros pre Hh; cbn [hex_loop length app]; [by rewrite app_nil_r|].
  unfold hexes in *. cbn in Hh. apply andb_prop in Hh as [Hc Hh]. lex. rewrite Hc, IH by done. by rewrite <- app_assoc.
Qed.

(** The other way round: what was read when reading succeeded. *)
Lemma hex_loop_inv n pre rest : match hex_loop n (at_rest pre rest) with
  | (Ok tok, l) => exists hs t, rest = hs ++ t /\ length hs = n /\ hexes hs /\ tok = TCell /\ l = at_rest (pre ++ hs) t
  | (Err e, _) => failed False (Err e : result _ unit)
  end.
Proof.
  revert pre rest. induction n as [|n IH]; intros pre rest; cbn [hex_loop].
  - exists [], rest. by rewrite app_nil_r.
  - destruct rest as [|c rest]; lex; [done|]. destruct (is_hex c) eqn:Hc; [|done].
    specialize (IH (pre ++ [c]) rest). destruct (hex_loop n _) as [[tok|e] l]; [|done].
    destruct IH as (hs & t & -> & Hn & Hh & -> & ->). exists (c :: hs), t.
    rewrite <- app_assoc. repeat split; [cbn; by rewrite Hn | unfold hexes; cbn; by rewrite Hc].
Qed.

(** Where the loop over the digits of a slice ends: its result, what it reads yet and what
    is left. *)
Definition slice_stop (wrapped : bool) (t : Text) : bool * Text * Text :=
  match t with
  | c :: t' => if (c =? "_")%char then (false, [c], t') else ((c =? ")")%char && wrapped, [], t)
  | [] => (false, [], [])
  end.

Lemma slice_loop_at wrapped pre ds t : hexes ds -> is_hex (hd EOF_CHAR t) = false ->
  forall fuel, (length ds < fuel)%nat ->
  slice_loop fuel wrapped (at_rest pre (ds ++ t)) =
  (Ok (slice_stop wrapped t).1.1, at_rest (pre ++ ds ++ (slice_stop wrapped t).1.2) (slice_stop wrapped t).2).
Proof.
  intros Hd Ht fuel Hf. revert fuel pre Hf. induction ds as [|c ds IH]; intros fuel pre Hf;
    (destruct fuel as [|fuel]; [cbn in Hf; lia|]); cbn [slice_loop app]; lex.
  - rewrite Ht. destruct t as [|c t]; cbn [hd slice_stop]; [by rewrite app_nil_r|].
    destruct (Ascii.eqb_spec c "_") as [-> | _]; [by lex|]. cbn [fst snd]. rewrite app_nil_r. by destruct (_ && _).
  - unfold hexes in Hd. cbn [forallb hd] in *. apply andb_prop in Hd as [Hc Hd]. rewrite Hc. lex.
    rewrite (IH Hd fuel (pre ++ [c])) by (cbn in Hf; lia). by rewrite <- !app_assoc.
Qed.

Ltac lex_slice := match goal with |- context [bind (slice_loop ?f ?w) _ (at_rest ?pre (?ds ++ ?t))] =>
  rewrite (bind_ok _ _ _ _ _ (slice_loop_at w pre ds t ltac:(assumption) ltac:(assumption) f
    ltac:(rewrite length_app; lia))) end.

(** Reading a slice outside of parentheses always succeeds. *)
Lemma slice_plain_at pre ds t : hexes ds -> is_hex (hd EOF_CHAR t) = false ->
  read_slice false (at_rest pre (ds ++ t)) =
  (Ok TSlice, at_rest (pre ++ ds ++ (slice_stop false t).1.2) (slice_stop false t).2).
Proof. intros Hd Ht. unfold read_slice. lex. lex_slice. by destruct (slice_stop false t).1.1. Qed.

(** What follows the digits of a slice in parentheses. *)
Definition refs_suffix (u : Text) : Prop :=
  exists v d, underscore v /\ is_digit d = true /\ u = v ++ [","%char; d].

Lemma slice_wrapped_inv pre rest : match read_slice true (at_rest pre rest) with
  | (Ok tok, l) => exists ds u t, rest = ds ++ u ++ t /\ hexes ds /\ tok = TSlice /\ l = at_rest (pre ++ ds ++ u) t /\
      (u = [] /\ hd EOF_CHAR t = ")"%char \/ refs_suffix u)
  | (Err e, _) => failed False (Err e : result _ unit)
  end.
Proof.
  destruct (span_text is_hex rest eq_refl) as (ds & t & -> & Hd & Ht). fold (hexes ds) in Hd.
  unfold read_slice. lex. lex_slice.
  destruct t as [|c t]; cbn [slice_stop fst snd negb]; [by rewrite app_nil_r; lex|].
  assert (forall v rest', underscore v -> c :: t = v ++ rest' ->
    match (let* c := bump in
      match c with
      | Some c => if (c =? ",")%char
          then let* c := bump in
            match c with Some c => if is_digit c then ret TSlice else unexpected (Some c) | None => unexpected None end
          else unexpected (Some c)
      | None => unexpected None
      end) (at_rest (pre ++ ds ++ v) rest') with
    | (Ok tok, l) => exists ds' u t', ds ++ c :: t = ds' ++ u ++ t' /\ hexes ds' /\ tok = TSlice /\
        l = at_rest (pre ++ ds' ++ u) t' /\ (u = [] /\ hd EOF_CHAR t' = ")"%char \/ refs_suffix u)
    | (Err e, _) => failed False (Err e : result _ unit)
    end) as Hrefs.
  { intros v rest' Hv E. destruct rest' as [|x rest']; lex; [done|].
    destruct (Ascii.eqb_spec x ",") as [-> | _]; [|done]. destruct rest' as [|d rest']; lex; [done|].
    destruct (is_digit d) eqn:Hdig; [|done]. exists ds, (v ++ [","%char; d]), rest'.
    rewrite E, <- !app_assoc. do 4 (split; [done|]). right. by exists v, d. }
  destruct (Ascii.eqb_spec c "_") as [-> | _]; cbn [fst snd].
  - apply Hrefs; [by right | done].
  - rewrite app_nil_r. destruct (Ascii.eqb_spec c ")") as [-> | _]; cbn [andb].
    + exists ds, [], (")"%char :: t). rewrite app_nil_r. repeat split; [done | by left].
    + specialize (Hrefs [] (c :: t)). rewrite app_nil_r in Hrefs. apply Hrefs; [by left | done].
Qed.

Lemma slice_wrapped_refs_at pre ds u t : hexes ds -> refs_suffix u ->
  read_slice true (at_rest pre (ds ++ u ++ t)) = (Ok TSlice, at_rest (pre ++ ds ++ u) t).
Proof.
  intros Hd (v & d & Hv & Hdig & ->). rewrite <- !app_assoc. unfold read_slice. lex.
  destruct Hv as [-> | ->]; cbn [app] in *.
  - assert (is_hex (hd EOF_CHAR (","%char :: d :: t)) = false) as Ht by done. lex_slice.
    cbn [slice_stop Ascii.eqb Bool.eqb andb fst snd negb]. rewrite app_nil_r. lex.
    rewrite Ascii.eqb_refl. lex. rewrite Hdig. by rewrite <- !app_assoc.
  - assert (is_hex (hd EOF_CHAR ("_"%char :: ","%char :: d :: t)) = false) as Ht by done. lex_slice.
    cbn [slice_stop Ascii.eqb Bool.eqb andb fst snd negb]. lex.
    rewrite Ascii.eqb_refl. lex. rewrite Hdig. by rewrite <- !app_assoc.
Qed.

Lemma slice_wrapped_at pre ds t : hexes ds ->
  read_slice true (at_rest pre (ds ++ ")"%char :: t)) = (Ok TSlice, at_rest (pre ++ ds) (")"%char :: t)).
Proof.
  intros Hd. unfold read_slice. lex. assert (is_hex (hd EOF_CHAR (")"%char :: t)) = false) as Ht by done. lex_slice.
  cbn. by rewrite app_nil_r.
Qed.

(** ** Arguments *)

(** Reading the argument that [c] opens. *)
Definition read_arg (c : ascii) : LexM OpcodeArgToken :=
  if (c =? "c")%char then read_control_reg
  else if (c =? "s")%char then read_stack_item
  else if (c =? "(")%char then read_paren
  else if (c =? "x")%char then read_slice false
  else read_number c.

(** A lexer that fails with a panic met a stack item that overflows. *)
Definition bad_item (t : Text) : Prop :=
  exists pre s post, t = pre ++ "s"%char :: s ++ post /\ overflows s.

(** What a reader did after [c] at [rest]. *)
Definition reads (c : ascii) (pre rest : Text) (r : result LexFail OpcodeArgToken * Lexer) : Prop :=
  match r with
  | (Ok tok, l) => exists s t, rest = s ++ t /\ l = at_rest (pre ++ s) t /\ written tok (c :: s) t
  | (Err e, _) => failed (bad_item (c :: rest)) (Err e : result _ unit)
  end.

Lemma failed_weak {A} (P Q : Prop) (r : result LexFail A) : (P -> Q) -> failed P r -> failed Q r.
Proof. destruct r as [|[]]; cbn; auto. Qed.

Lemma reads_failed c pre rest r : failed (bad_item (c :: rest)) r.1 -> reads c pre rest r.
Proof. destruct r as [[tok|e] l]; cbn; [done|]. by destruct e. Qed.

Lemma reads_reg pre rest : reads "c"%char pre rest (read_control_reg (at_rest pre rest)).
Proof.
  unfold read_control_reg. destruct rest as [|c rest]; lex; [done|].
  destruct (is_digit c) eqn:Hc; [|done]. exists [c], rest. repeat split. by constructor.
Qed.

Lemma reads_stack pre rest : reads "s"%char pre rest (read_stack_item (at_rest pre rest)).
Proof.
  assert (exists sign ds t, rest = sign ++ ds ++ t /\ forallb is_digit ds = true /\ no_digit t /\
    (sign = [] /\ hd EOF_CHAR (ds ++ t) <> "-"%char \/ sign = ["-"%char])) as (sign & ds & t & -> & Hd & Ht & Hs).
  { destruct (decide (hd EOF_CHAR rest = "-"%char)) as [E|E].
    - destruct rest as [|c rest]; [done|]. cbn in E. subst c.
      destruct (span_text is_digit rest eq_refl) as (ds & t & -> & Hd & Ht). exists ["-"%char], ds, t. do 3 (split; [done|]). by right.
    - destruct (span_text is_digit rest eq_refl) as (ds & t & -> & Hd & Ht). exists [], ds, t. do 3 (split; [done|]). by left. }
  pose proof (stack_at pre ds sign t Hd Ht Hs) as H. destruct (parse_i32 (sign ++ ds)) as [z|] eqn:Hz.
  - rewrite H. exists (sign ++ ds), t. rewrite <- app_assoc. repeat split. by constructor.
  - apply reads_failed, H. intros Ho. exists [], (sign ++ ds), t. by rewrite <- app_assoc.
Qed.

Lemma read_paren_inv pre rest : reads "("%char pre rest (read_paren (at_rest pre rest)).
Proof.
  unfold read_paren. lex. destruct (Ascii.eqb_spec (hd EOF_CHAR rest) "x") as [E | E].
  - destruct rest as [|c rest]; [done|]. cbn in E. subst c. unfold bind at 1. unfold bind at 1. rewrite bump_at.
    pose proof (slice_wrapped_inv (pre ++ ["x"%char]) rest) as H.
    destruct (read_slice true _) as [[tok|e] l]; [|by apply reads_failed, (failed_weak False)].
    destruct H as (ds & u & t & -> & Hd & -> & -> & Hu).
    destruct t as [|c t]; lex; [done|]. destruct (Ascii.eqb_spec c ")") as [-> | _]; [|done].
    destruct Hu as [[-> _] | (v & d & Hv & Hdig & ->)].
    + exists ("x"%char :: ds ++ [")"%char]), t. cbn. rewrite <- !app_assoc. repeat split. by constructor.
    + exists ("x"%char :: ds ++ v ++ [","%char; d; ")"%char]), t. cbn. rewrite <- !app_assoc. cbn.
      repeat split. by constructor.
  - unfold bind at 1. pose proof (hex_loop_inv 64 pre rest) as H. fold read_cell in H.
    destruct (read_cell _) as [[tok|e] l]; [|by apply reads_failed, (failed_weak False)].
    destruct H as (hs & t & -> & Hn & Hh & -> & ->).
    destruct t as [|c t]; lex; [done|]. destruct (Ascii.eqb_spec c ")") as [-> | _]; [|done].
    exists (hs ++ [")"%char]), t. rewrite <- !app_assoc. repeat split. by constructor.
Qed.

Lemma read_arg_reads c pre rest : reads c (pre ++ [c]) rest (read_arg c (at_rest (pre ++ [c]) rest)).
Proof.
  unfold read_arg.
  destruct (Ascii.eqb_spec c "c") as [-> | _]; [apply reads_reg|].
  destruct (Ascii.eqb_spec c "s") as [-> | _]; [apply reads_stack|].
  destruct (Ascii.eqb_spec c "(") as [-> | _]; [apply read_paren_inv|].
  destruct (Ascii.eqb_spec c "x") as [-> | _].
  - destruct (span_text is_hex rest eq_refl) as (ds & t & -> & Hd & Ht). rewrite slice_plain_at by done.
    destruct t as [|u t]; cbn [slice_stop fst snd].
    + exists ds, []. rewrite !app_nil_r. repeat split. by constructor.
    + cbn in Ht. destruct (Ascii.eqb_spec u "_") as [-> | Hu]; cbn [fst snd].
      * exists (ds ++ ["_"%char]), t. rewrite <- !app_assoc. repeat split. by constructor.
      * exists ds, (u :: t). rewrite app_nil_r. repeat split. by constructor.
  - destruct (span_text is_digit rest eq_refl) as (ds & t & -> & Hd & Ht).
    pose proof (number_at c pre ds t Hd Ht) as H. destruct (parse_int (c :: ds)) as [z|] eqn:Hz.
    + rewrite H. exists ds, t. rewrite <- app_assoc. repeat split. by constructor.
    + by apply reads_failed, H.
Qed.

(** What is written is read. *)
Lemma number_written c pre z s t : parse_int (c :: s) = Some z -> no_digit t ->
  read_arg c (at_rest (pre ++ [c]) (s ++ t)) = (Ok (TInt z), at_rest (pre ++ c :: s) t).
Proof.
  intros Hz Ht. destruct (parse_int_inv _ _ Hz) as (ds & Hn & Hd & Hs).
  assert (forallb is_digit s = true /\ (is_digit c = true \/ c = "-"%char)) as [Hds Hc].
  { destruct Hs as [<- | [= -> <-]]; [|by auto]. cbn in Hd. apply andb_prop in Hd as [Hc Hd]. auto. }
  unfold read_arg. assert (forall x, is_digit x = false -> x <> "-"%char -> (c =? x)%char = false) as Hx.
  { intros x Hx Hm. destruct Hc as [Hc | ->]; [by apply (char_not is_digit)|]. by apply Ascii.eqb_neq. }
  rewrite !Hx by done. pose proof (number_at c pre s t Hds Ht) as H. by rewrite Hz in H.
Qed.

Lemma stack_written pre z s t : parse_i32 s = Some z -> no_digit t ->
  read_stack_item (at_rest pre (s ++ t)) = (Ok (TStack z), at_rest (pre ++ s) t).
Proof.
  intros Hz Ht. assert (exists z, parse_int s = Some z) as [z' Hz'].
  { unfold parse_i32 in Hz. destruct (parse_int s); [eauto | done]. }
  destruct (parse_int_inv _ _ Hz') as (ds & Hn & Hd & Hs).
  assert (exists sign, s = sign ++ ds /\ (sign = [] /\ hd EOF_CHAR (ds ++ t) <> "-"%char \/ sign = ["-"%char]))
    as (sign & -> & Hsign).
  { destruct Hs as [-> | ->]; [|by exists ["-"%char]; auto]. exists []. split; [done|]. left. split; [done|].
    destruct ds as [|c ds]; [done|]. cbn in Hd |- *. apply andb_prop in Hd as [Hc _]. by intros ->. }
  pose proof (stack_at pre ds sign t Hd Ht Hsign) as H. rewrite Hz in H. by rewrite <- app_assoc.
Qed.

Lemma read_arg_written c pre tok s t : written tok (c :: s) t ->
  read_arg c (at_rest (pre ++ [c]) (s ++ t)) = (Ok tok, at_rest (pre ++ c :: s) t).
Proof.
  rewrite (cons_middle c pre s), app_assoc. intros H.
  inversion H as [z s' t' Hz Ht|z s' t' Hz Ht|d t' Hd|hs t' Hh Hn|ds t' Hd Ht|ds t' Hd|ds t' Hd|ds u d t' Hd Hu Hdig];
    subst; [by rewrite (number_written _ _ z), <- app_assoc|..]; unfold read_arg; cbn [Ascii.eqb Bool.eqb andb].
  - by apply stack_written.
  - unfold read_control_reg. cbn [app]. lex. by rewrite Hd.
  - unfold read_paren. rewrite <- app_assoc. cbn [app]. lex.
    assert ((hd EOF_CHAR (hs ++ ")"%char :: t) =? "x")%char = false) as ->.
    { destruct hs as [|h hs]; [done|]. unfold hexes in Hh. cbn in Hh |- *. apply andb_prop in Hh as [Hh _].
      by apply (char_not is_hex). }
    unfold read_cell. rewrite <- Hn. rewrite (bind_ok _ _ _ _ _ (hex_loop_at _ hs _ Hh)). lex.
    rewrite Ascii.eqb_refl. by rewrite <- !app_assoc.
  - destruct Ht as [Ht Hu]. rewrite slice_plain_at by done. destruct t as [|u t]; cbn [slice_stop fst snd]; [by rewrite app_nil_r|].
    cbn in Hu. rewrite (proj2 (Ascii.eqb_neq _ _) Hu). cbn [fst snd]. by rewrite app_nil_r.
  - rewrite <- app_assoc. by rewrite slice_plain_at.
  - unfold read_paren. cbn [app]. lex. cbn [hd]. rewrite Ascii.eqb_refl. unfold bind at 1. unfold bind at 1.
    rewrite bump_at. replace ((ds ++ [")"%char]) ++ t) with (ds ++ ")"%char :: t) by (by rewrite <- app_assoc).
    rewrite slice_wrapped_at by done. lex.
    rewrite Ascii.eqb_refl. by rewrite <- !app_assoc.
  - unfold read_paren. cbn [app]. lex. cbn [hd]. rewrite Ascii.eqb_refl. unfold bind at 1. unfold bind at 1.
    rewrite bump_at. replace ((ds ++ u ++ [","%char; d; ")"%char]) ++ t) with (ds ++ (u ++ [","%char; d]) ++ ")"%char :: t)
      by (by rewrite <- !app_assoc).
    rewrite slice_wrapped_refs_at by (done || by exists u, d). lex.
    rewrite Ascii.eqb_refl. by rewrite <- !app_assoc.
Qed.

(** ** The loop *)

Lemma args_step n h res pre c rest :
  args_loop (S n) h res (at_rest pre (c :: rest)) =
  (if is_ascii_whitespace c then args_loop n h res
   else if (c =? ",")%char then if h then fail ArgumentSkipped else args_loop n true res
   else let* token := read_arg c in args_loop n false (res ++ [token])) (at_rest (pre ++ [c]) rest).
Proof.
  cbn [args_loop]. lex. unfold read_arg.
  destruct (Ascii.eqb_spec c "c") as [-> | _]; [done|]. destruct (Ascii.eqb_spec c "s") as [-> | _]; [done|].
  destruct (Ascii.eqb_spec c "(") as [-> | _]; [done|]. by destruct (Ascii.eqb_spec c "x") as [-> | _].
Qed.

Lemma bad_item_app a t : bad_item t -> bad_item (a ++ t).
Proof. intros (pre & s & post & -> & Ho). exists (a ++ pre), s, post. by rewrite <- app_assoc. Qed.

Lemma args_loop_inv n h res pre rest : (length rest < n)%nat ->
  match args_loop n h res (at_rest pre rest) with
  | (Ok r, _) => exists l, r = res ++ l /\ arguments h l rest
  | (Err e, _) => failed (bad_item rest) (Err e : result _ unit)
  end.
Proof.
  revert h res pre rest. induction n as [|n IH]; intros h res pre rest Hn; [lia|].
  destruct rest as [|c rest]; [cbn; exists []; rewrite app_nil_r; split; [done | constructor]|].
  cbn in Hn. rewrite args_step.
  assert (forall h res (P : list OpcodeArgToken -> Prop), (forall l, arguments h l rest -> P (res ++ l)) ->
    match args_loop n h res (at_rest (pre ++ [c]) rest) with
    | (Ok r, _) => P r | (Err e, _) => failed (bad_item (c :: rest)) (Err e : result _ unit) end) as Hgo.
  { intros h' res' P HP. specialize (IH h' res' (pre ++ [c]) rest ltac:(lia)).
    destruct (args_loop n h' res' _) as [[r|e] l]; [destruct IH as (x & -> & Hx); by apply HP|].
    eapply failed_weak; [|exact IH]. apply (bad_item_app [c]). }
  destruct (is_ascii_whitespace c) eqn:Hw.
  { apply Hgo. intros l Hl. exists l. split; [done|]. by constructor. }
  destruct (Ascii.eqb_spec c ",") as [-> | _].
  { destruct h; [done|]. apply Hgo. intros l Hl. exists l. split; [done|]. by constructor. }
  pose proof (read_arg_reads c pre rest) as H. unfold bind, reads in *.
  destruct (read_arg c _) as [[tok|e] l]; [|done]. destruct H as (s & t & -> & -> & Hwr).
  specialize (IH false (res ++ [tok]) ((pre ++ [c]) ++ s) t ltac:(rewrite length_app in Hn; lia)).
  destruct (args_loop n _ _ _) as [[r|e] l]; [|eapply failed_weak; [|exact IH]; apply (bad_item_app (c :: s))].
  destruct IH as (x & -> & Hx). exists (tok :: x). rewrite <- app_assoc. split; [done|].
  by apply (arguments_token h tok x (c :: s) t).
Qed.

(** What is written starts with neither a space nor a comma. *)
Lemma written_head tok s t : written tok s t ->
  exists c s', s = c :: s' /\ is_ascii_whitespace c = false /\ (c =? ",")%char = false.
Proof.
  intros H. destruct H as [z s t Hz Ht| | | | | | |]; [|eauto..].
  destruct (parse_int_inv _ _ Hz) as (ds & Hn & Hd & [-> | ->]); [|eauto].
  destruct ds as [|c ds]; [done|]. exists c, ds. cbn in Hd. apply andb_prop in Hd as [Hc _].
  split; [done|]. split; [|by apply (char_not is_digit)].
  unfold is_digit, in_range, is_ascii_whitespace in *. apply andb_prop in Hc as [H1 H2].
  apply Z.leb_le in H1. change (ascii_code "0") with 48 in H1. repeat case_match; lia.
Qed.

Lemma args_loop_accepts h l rest : arguments h l rest -> forall n res pre, (length rest < n)%nat ->
  exists st, args_loop n h res (at_rest pre rest) = (Ok (res ++ l), st).
Proof.
  induction 1 as [h|h l c t Hc Ha IH|l t Ha IH|h tok l s t Hw Ha IH]; intros n res pre Hn;
    (destruct n as [|n]; [cbn in Hn; lia|]).
  - rewrite app_nil_r. eexists. cbn. done.
  - rewrite args_step, Hc. apply IH. cbn in Hn; lia.
  - rewrite args_step. cbn. apply IH. cbn in Hn; lia.
  - destruct (written_head _ _ _ Hw) as (c & s' & -> & Hs & Hcomma). cbn [app]. rewrite args_step, Hs, Hcomma.
    rewrite (bind_ok _ _ _ _ _ (read_arg_written c pre tok s' t Hw)).
    destruct (IH n (res ++ [tok]) (pre ++ c :: s') ltac:(cbn in Hn; rewrite length_app in Hn; lia)) as [st ->].
    exists st. by rewrite <- app_assoc.
Qed.

(** ** The tokenizer *)

Lemma split_space s : match VmProc.split_at [" "%char] s with
  | None => no_space s
  | Some (a, b) => s = a ++ " "%char :: b /\ no_space a
  end.
Proof.
  unfold no_space. induction s as [|c s IH]; cbn [VmProc.split_at].
  - cbn. apply not_elem_of_nil.
  - case_bool_decide as E; cbn in E; [injection E as ->; cbn; split; [by rewrite drop_0 | apply not_elem_of_nil]|].
    assert (" "%char <> c) as Hc by (intros <-; by destruct E).
    destruct (VmProc.split_at _ s) as [[a b]|]; [|by rewrite not_elem_of_cons].
    destruct IH as [-> Ha]. split; [done|]. by rewrite not_elem_of_cons.
Qed.

Lemma split_unique (a a' b b' : Text) : no_space a -> no_space a' ->
  a ++ " "%char :: b = a' ++ " "%char :: b' -> a = a' /\ b = b'.
Proof.
  unfold no_space. revert a'. induction a as [|c a IH]; intros [|c' a'] Ha Ha' E; cbn in E.
  - by injection E.
  - injection E as <- _. exfalso. apply Ha'. by left.
  - injection E as -> _. exfalso. apply Ha. by left.
  - rewrite not_elem_of_cons in Ha, Ha'. injection E as -> E. destruct (IH a') as [-> ->]; tauto.
Qed.

(** Errors: the loops do not run out of fuel, and the only panic is of the parser of
    [i32]. *)
Lemma tokenize_errors (text : Text) e : tokenize text = Err e -> e <> LexFuel /\ (e = LexUnwrap -> bad_item (trim text)).
Proof.
  unfold tokenize. cbn zeta. pose proof (split_space (trim text)) as Hs.
  destruct (VmProc.split_at _ (trim text)) as [[n a]|]; [|done]. destruct Hs as [Hs _].
  assert ((let* fuel := loop_fuel in args_loop fuel false []) (lexer_new a) =
    args_loop (S (length a)) false [] (at_rest [] a)) as -> by done.
  pose proof (args_loop_inv (S (length a)) false [] [] a ltac:(lia)) as H.
  destruct (args_loop _ _ _ _) as [[r|e'] st]; [done|]. intros [= ->]. split; [by intros ->|].
  intros ->. rewrite Hs. apply bad_item_app, (bad_item_app [" "%char]), H.
Qed.

(** Texts of the grammar are accepted. *)
Lemma tokenize_sentence (text : Text) tokens : sentence (trim text) tokens -> tokenize text = Ok tokens.
Proof.
  unfold tokenize, sentence. cbn zeta. pose proof (split_space (trim text)) as Hs.
  destruct (VmProc.split_at _ (trim text)) as [[n a]|]; destruct tokens as [n' l].
  - destruct Hs as [Hs Hn]. intros [[H0 _] | (a' & Ht & Hn' & Ha)].
    { exfalso. apply H0. rewrite Hs. apply elem_of_app. right. by left. }
    cbn [name args] in *. rewrite Hs in Ht. destruct (split_unique _ _ _ _ Hn Hn' Ht) as [-> ->].
    assert ((let* fuel := loop_fuel in args_loop fuel false []) (lexer_new a') =
      args_loop (S (length a')) false [] (at_rest [] a')) as -> by done.
    destruct (args_loop_accepts _ _ _ Ha (S (length a')) [] [] ltac:(lia)) as [st ->]. done.
  - intros [[_ E] | (a & Ht & Hn & _)]; [by rewrite E|]. exfalso. apply Hs. rewrite Ht. apply elem_of_app. right. by left.
Qed.

(** C18: the tokenizer accepts exactly the texts of the grammar, leading and trailing space
    aside, and gives the tokens they are written with.  It always ends, and panics only on
    a stack item that does not fit an [i32]; every other text is an error. *)
Theorem tokenizer_accepts_grammar (text : Text) :
  (forall tokens, tokenize text = Ok tokens <-> sentence (trim text) tokens) /\
  (forall e, tokenize text = Err e -> e <> LexFuel /\ (e = LexUnwrap -> bad_item (trim text))).
Proof.
  split; [|apply tokenize_errors]. intros [n' l]. split; [|apply tokenize_sentence].
  unfold tokenize, sentence. cbn zeta. pose proof (split_space (trim text)) as Hs.
  destruct (VmProc.split_at _ (trim text)) as [[n a]|]; [|by intros [= <- <-]; left]. destruct Hs as [Hs Hn].
  assert ((let* fuel := loop_fuel in args_loop fuel false []) (lexer_new a) =
    args_loop (S (length a)) false [] (at_rest [] a)) as -> by done.
  pose proof (args_loop_inv (S (length a)) false [] [] a ltac:(lia)) as H.
  destruct (args_loop _ _ _ _) as [[r|e] st]; [|done]. intros [= -> ->].
  destruct H as (l' & -> & Hl). right. by exists a.
Qed.
