(* ===== verification/TreeModels.v ===== *)
(** * A concrete instance of the models

    [ModelLib] over the cells of External.v, used to evaluate the executor on concrete
    inputs: amounts are 120-bit integers, dictionaries are lists, and messages, state
    inits and actions have a simple fixed-width layout with the fields in the order of
    the crate.  The configuration is given as a value, so its parsers are not needed. *)

From S2P Require Import Prelude External Cells Bits Models Dicts RandOps.

Import TreeCells TreeSlices.
Open Scope Z_scope.

Module TreeModels.

#[export] Instance celltype_eq_dec : EqDecision CellType.
Proof. solve_decision. Defined.

Fixpoint tcell_eqb (x y : tcell) : bool :=
  match x, y with
  | TCell t b r, TCell t' b' r' =>
      bool_decide (t = t') && bool_decide (b = b') &&
      (fix eqbs (l l' : list tcell) : bool :=
         match l, l' with
         | [], [] => true
         | c :: l, c' :: l' => tcell_eqb c c' && eqbs l l'
         | _, _ => false
         end) r r'
  end.

Lemma tcell_eqb_spec x y : tcell_eqb x y = true <-> x = y.
Proof.
  revert x y. refine (fix go (x y : tcell) {struct x} := _).
  destruct x as [t b r], y as [t' b' r']. cbn.
  rewrite !andb_true_iff, !bool_decide_eq_true.
  assert (forall l', (fix eqbs (l l' : list tcell) : bool :=
         match l, l' with
         | [], [] => true
         | c :: l, c' :: l' => tcell_eqb c c' && eqbs l l'
         | _, _ => false
         end) r l' = true <-> r = l') as ->.
  { clear r'. induction r as [|c r IH]; intros [|c' r']; try done.
    rewrite andb_true_iff, IH, (go c c'). split; [intros [-> ->]; done | by intros [= -> ->]]. }
  split; [intros [[-> ->] ->]; done | by intros [= -> -> ->]].
Qed.

#[export] Instance tcell_eq_dec : EqDecision tcell.
Proof.
  intros x y. destruct (tcell_eqb x y) eqn:E.
  - left. by apply tcell_eqb_spec.
  - right. intros H. apply tcell_eqb_spec in H. congruence.
Defined.

(** ** Slices and builders *)

Definition builder : Type := tbuilder.
Definition parsed (A : Type) : Type := result Error (A * slice).
Definition t_store_uint (b : builder) (v n : Z) : result Error builder :=
  t_store_bits b (to_bits (Z.to_nat n) v) [].
Definition t_store_ref (b : builder) (c : tcell) : result Error builder := t_store_bits b [] [c].

(** Sequences of parsers and of stores. *)
Definition p_bind {A B} (m : parsed A) (k : A -> slice -> parsed B) : parsed B :=
  match m with Ok (a, s) => k a s | Err e => Err e end.
Definition t_load_bool (s : slice) : parsed bool :=
  p_bind (t_load_uint s 1) (fun v s => Ok (v =? 1, s)).
Definition t_load_opt_ref (s : slice) : parsed (option tcell) :=
  p_bind (t_load_bool s) (fun b s =>
    if b then p_bind (t_load_ref s) (fun c s => Ok (Some c, s)) else Ok (None, s)).

Fixpoint t_store_all (b : builder) (l : list (Z * Z)) : result Error builder :=
  match l with
  | [] => Ok b
  | (v, n) :: l => match t_store_uint b v n with Ok b => t_store_all b l | Err e => Err e end
  end.
Definition t_store_opt_ref (b : builder) (c : option tcell) : result Error builder :=
  match t_store_uint b (Z.b2z (bool_decide (is_Some c))) 1, c with
  | Ok b, Some c => t_store_ref b c
  | r, _ => r
  end.

(** ** Amounts, addresses and dictionaries *)

Definition t_extra : Type := list (Z * Z).
Definition t_libs : Type := list (Z * SimpleLib (CL := tree_cells)).
Definition t_currency : Type := CurrencyOf t_extra.

Definition t_add (a b : Z) : option Z := if a + b <=? TOKENS_MAX then Some (a + b) else None.
Definition t_sub (a b : Z) : option Z := if b <=? a then Some (a - b) else None.

(** The amount of a currency, and adding or taking away an amount. *)
Definition t_amount (x : t_extra) (id : Z) : Z :=
  fold_right (fun e n => if e.1 =? id then e.2 + n else n) 0 x.
Definition t_extra_sub (x y : t_extra) : result Error t_extra :=
  if forallb (fun e => e.2 <=? t_amount x e.1) y
  then Ok (map (fun e => (e.1, e.2 - t_amount y e.1)) x) else Err IntOverflow.

Definition t_cc (op : Z -> Z -> option Z) (f : t_extra -> t_extra -> result Error t_extra)
    (a b : t_currency) : result Error t_currency :=
  match op (tokens a) (tokens b), f (other a) (other b) with
  | Some t, Ok x => Ok (mkCurrency t x)
  | _, _ => Err IntOverflow
  end.
Definition t_clamp (a b : t_currency) : result Error t_currency :=
  Ok (mkCurrency (Z.min (tokens a) (tokens b)) (other a)).

Definition t_libs_get (l : t_libs) (h : Z) : option (SimpleLib (CL := tree_cells)) :=
  match find (fun e => e.1 =? h) l with Some e => Some e.2 | None => None end.
Definition t_libs_del (l : t_libs) (h : Z) : t_libs := List.filter (fun e => negb (e.1 =? h)) l.

(** A fixed part, a price per cell and the part of the first validators, of 65536. *)
Record t_fwd := mkFwd { fw_lump : Z; fw_cell : Z; fw_first : Z }.
Definition t_fwd_fee (p : t_fwd) (st : CellTreeStats) : Z :=
  clamp 0 TOKENS_MAX (fw_lump p + (fw_cell p * cell_count st) / 65536).
Definition t_first (p : t_fwd) (f : Z) : Z := clamp 0 f (f * fw_first p / 65536).

(** ** Layouts *)

Definition addr : Type := IntAddr (CL := tree_cells).

Definition t_load_std (s : slice) : parsed addr :=
  p_bind (t_load_uint s 8) (fun wc s =>
  p_bind (t_load_uint s 256) (fun h s =>
  Ok (AddrStd (mkStdAddr (CL := tree_cells) None (wrap_s 8 wc) h), s))).
Definition t_load_addr (s : slice) : parsed addr :=
  p_bind (t_load_bool s) (fun b s => if b then t_load_std s else Err InvalidTag).
Definition t_load_opt_addr (s : slice) : parsed (option addr) :=
  p_bind (t_load_bool s) (fun b s =>
    if b then p_bind (t_load_std s) (fun a s => Ok (Some a, s)) else Ok (None, s)).
Definition t_store_addr (b : builder) (a : addr) : result Error builder :=
  match a with
  | AddrStd a => t_store_all b [(1, 1); (std_workchain a, 8); (std_address a, 256)]
  | AddrVar _ => Err CellOverflow
  end.
Definition t_store_opt_addr (b : builder) (a : option addr) : result Error builder :=
  match a with Some a => t_store_addr b a | None => t_store_uint b 0 1 end.

Definition t_load_currency (s : slice) : parsed t_currency :=
  p_bind (t_load_uint s 120) (fun v s => Ok (mkCurrency v [], s)).
Definition t_store_currency (b : builder) (c : t_currency) : result Error builder :=
  t_store_uint b (tokens c) 120.

(** The header of an internal message after its source. *)
Definition t_load_int_rest {S} (ihr bounce bounced : bool) (src : S) (s : slice)
    : parsed (IntMsgOf S addr t_extra) :=
  p_bind (t_load_addr s) (fun dst s =>
  p_bind (t_load_currency s) (fun v s =>
  p_bind (t_load_uint s 120) (fun ihr_fee s =>
  p_bind (t_load_uint s 120) (fun fwd_fee s =>
  p_bind (t_load_uint s 64) (fun lt s =>
  p_bind (t_load_uint s 32) (fun at_ s =>
  Ok (mkIntMsg ihr bounce bounced src dst v ihr_fee fwd_fee lt at_, s))))))).
Definition t_load_int_of {S} (load_src : slice -> parsed S) (s : slice) : parsed (IntMsgOf S addr t_extra) :=
  p_bind (t_load_bool s) (fun ihr s =>
  p_bind (t_load_bool s) (fun bounce s =>
  p_bind (t_load_bool s) (fun bounced s =>
  p_bind (load_src s) (fun src s => t_load_int_rest ihr bounce bounced src s)))).
Definition t_store_int_of {S} (store_src : builder -> S -> result Error builder) (b : builder)
    (i : IntMsgOf S addr t_extra) : result Error builder :=
  match t_store_all b [(0, 1); (Z.b2z (ihr_disabled i), 1); (Z.b2z (im_bounce i), 1); (Z.b2z (im_bounced i), 1)] with
  | Ok b =>
      match store_src b (im_src i) with
      | Ok b =>
          match t_store_addr b (im_dst i) with
          | Ok b => t_store_all b [(tokens (im_value i), 120); (im_ihr_fee i, 120); (im_fwd_fee i, 120);
                      (im_created_lt i, 64); (im_created_at i, 32)]
          | Err e => Err e
          end
      | Err e => Err e
      end
  | Err e => Err e
  end.

Definition t_load_type (s : slice) : parsed MsgType :=
  p_bind (t_load_bool s) (fun b s =>
    if b then p_bind (t_load_bool s) (fun b s => Ok (if b then TypeExtOut else TypeExtIn, s))
    else Ok (TypeInt, s)).
Definition t_load_ext_in (s : slice) : parsed (ExtInMsgOf addr Z) :=
  p_bind (t_load_addr s) (fun dst s =>
  p_bind (t_load_uint s 120) (fun fee s => Ok (mkExtIn None dst fee, s))).
Definition t_load_ext_out {S} (load_src : slice -> parsed S) (s : slice) : parsed (ExtOutMsgOf S Z) :=
  p_bind (load_src s) (fun src s =>
  p_bind (t_load_uint s 64) (fun lt s =>
  p_bind (t_load_uint s 32) (fun at_ s => Ok (mkExtOut src None lt at_, s)))).

Definition t_load_msg (s : slice) : parsed (MsgInfoOf addr Z t_extra) :=
  p_bind (t_load_type s) (fun ty s =>
  match ty with
  | TypeInt => p_bind (t_load_int_of t_load_addr s) (fun i s => Ok (MsgInt i, s))
  | TypeExtIn => p_bind (t_load_ext_in s) (fun i s => Ok (MsgExtIn i, s))
  | TypeExtOut => p_bind (t_load_ext_out t_load_addr s) (fun i s => Ok (MsgExtOut i, s))
  end).
Definition t_load_relaxed (s : slice) : parsed (RelaxedMsgInfoOf addr Z t_extra) :=
  p_bind (t_load_type s) (fun ty s =>
  match ty with
  | TypeInt => p_bind (t_load_int_of t_load_opt_addr s) (fun i s => Ok (RelaxedInt i, s))
  | TypeExtIn => Err InvalidTag
  | TypeExtOut => p_bind (t_load_ext_out t_load_opt_addr s) (fun i s => Ok (RelaxedExtOut i, s))
  end).

Definition t_store_ext_out (b : builder) (i : ExtOutMsgOf (option addr) Z) : result Error builder :=
  match t_store_all b [(3, 2)] with
  | Ok b =>
      match t_store_opt_addr b (eo_src i) with
      | Ok b => t_store_all b [(eo_created_lt i, 64); (eo_created_at i, 32)]
      | Err e => Err e
      end
  | Err e => Err e
  end.
Definition t_store_msg (b : builder) (i : MsgInfoOf addr Z t_extra) : result Error builder :=
  match i with MsgInt i => t_store_int_of t_store_addr b i | _ => Err CellOverflow end.
Definition t_store_relaxed (b : builder) (i : RelaxedMsgInfoOf addr Z t_extra) : result Error builder :=
  match i with
  | RelaxedInt i => t_store_int_of t_store_opt_addr b i
  | RelaxedExtOut i => t_store_ext_out b i
  end.

(** State inits without libraries. *)
Definition t_load_state (s : slice) : parsed (StateInitOf tcell t_libs) :=
  p_bind (t_load_uint s 2) (fun z s =>
  if z =? 0 then
    p_bind (t_load_opt_ref s) (fun code s =>
    p_bind (t_load_opt_ref s) (fun data s =>
    p_bind (t_load_bool s) (fun b s =>
    if b then Err InvalidTag else Ok (mkStateInit None None code data [], s))))
  else Err InvalidTag).
Definition t_store_state (b : builder) (st : StateInitOf tcell t_libs) : result Error builder :=
  match t_store_uint b 0 2 with
  | Ok b =>
      match t_store_opt_ref b (si_code st) with
      | Ok b =>
          match t_store_opt_ref b (si_data st) with
          | Ok b => t_store_uint b 0 1
          | Err e => Err e
          end
      | Err e => Err e
      end
  | Err e => Err e
  end.
Definition t_store_account (b : builder) (st : AccountStateOf (StateInitOf tcell t_libs) Z)
    : result Error builder :=
  match st with
  | AccUninit => t_store_uint b 0 2
  | AccFrozen h => t_store_all b [(1, 2); (h, 256)]
  | AccActive st => match t_store_uint b 1 1 with Ok b => t_store_state b st | Err e => Err e end
  end.

Definition t_load_storage (s : slice) : parsed StorageInfo :=
  p_bind (t_load_uint s 56) (fun c s =>
  p_bind (t_load_uint s 56) (fun b s =>
  p_bind (t_load_uint s 56) (fun p s =>
  p_bind (t_load_uint s 32) (fun last s =>
  p_bind (t_load_bool s) (fun due s =>
  if due then p_bind (t_load_uint s 120) (fun d s => Ok (mkStorage (mkUsed c b p) last (Some d), s))
  else Ok (mkStorage (mkUsed c b p) last None, s)))))).
Definition t_store_storage (b : builder) (i : StorageInfo) : result Error builder :=
  let u := storage_used i in
  t_store_all b ([(used_cells u, 56); (used_bits u, 56); (used_public_cells u, 56); (last_paid i, 32)]
    ++ match due_payment i with Some d => [(1, 1); (d, 120)] | None => [(0, 1)] end).

(** Actions, with the tags of the crate. *)
Definition t_load_action (s : slice) : parsed (OutActionOf tcell (LibRef (CL := tree_cells)) t_extra) :=
  p_bind (t_load_uint s 32) (fun tag s =>
  if tag =? 0x0ec3c86d then
    p_bind (t_load_uint s 8) (fun mode s =>
    p_bind (t_load_ref s) (fun m s => Ok (SendMsg mode m, s)))
  else if tag =? 0xad4de08e then p_bind (t_load_ref s) (fun c s => Ok (SetCode c, s))
  else if tag =? 0x36e6b809 then
    p_bind (t_load_uint s 8) (fun mode s =>
    p_bind (t_load_currency s) (fun v s => Ok (ReserveCurrency mode v, s)))
  else if tag =? 0x26fa1dd4 then
    p_bind (t_load_uint s 7) (fun mode s =>
    p_bind (t_load_bool s) (fun is_cell s =>
    if is_cell
    then p_bind (t_load_ref s) (fun c s => Ok (ChangeLibrary mode (LibCell (CL := tree_cells) c), s))
    else p_bind (t_load_uint s 256) (fun h s => Ok (ChangeLibrary mode (LibHash (CL := tree_cells) h), s))))
  else Err InvalidTag).

Definition t_store_action (b : builder) (a : OutActionOf tcell (LibRef (CL := tree_cells)) t_extra)
    : result Error builder :=
  let then_ref r c := match r with Ok b => t_store_ref b c | Err e => Err e end in
  match a with
  | SendMsg mode m => then_ref (t_store_all b [(0x0ec3c86d, 32); (mode, 8)]) m
  | SetCode c => then_ref (t_store_all b [(0xad4de08e, 32)]) c
  | ReserveCurrency mode v =>
      if (0 <=? tokens v) && (tokens v <=? TOKENS_MAX) && bool_decide (other v = [])
      then t_store_all b [(0x36e6b809, 32); (mode, 8); (tokens v, 120)] else Err CellOverflow
  | ChangeLibrary mode (LibCell c) => then_ref (t_store_all b [(0x26fa1dd4, 32); (mode, 7); (1, 1)]) c
  | ChangeLibrary mode (LibHash h) =>
      if (0 <=? h) && (h <? 2 ^ 256)
      then t_store_all b [(0x26fa1dd4, 32); (mode, 7); (0, 1); (h, 256)] else Err CellOverflow
  end.

(** A message whose body is the rest of its cell, without a state init. *)
Definition t_parse_relaxed (c : tcell)
    : result Error (RelaxedMessageOf (RelaxedMsgInfoOf addr Z t_extra) (StateInitOf tcell t_libs) slice) :=
  match t_load_relaxed (new_allow_exotic (CL := tree_cells) c) with
  | Ok (i, s) => Ok (mkRelaxedMessage i None s (Some (mkLayout false false)))
  | Err e => Err e
  end.

(** The distinct cells below the references of a slice. *)
Definition t_stat (limit : Z) (s : slice) : CellTreeStats :=
  mkStats 0 (Z.min limit (Z.of_nat (length (t_refs s)))).

Definition t_load_gas (s : slice) : result Error GasLimitsPrices :=
  match t_load_uint s 64 with
  | Ok (p, _) => Ok (mkGasPrices p 1000000 1000000 10000 0 0 100 (100 * p))
  | Err e => Err e
  end.
Definition t_load_fwd (s : slice) : result Error t_fwd :=
  match p_bind (t_load_uint s 64) (fun lump s =>
        p_bind (t_load_uint s 64) (fun c s =>
        p_bind (t_load_uint s 16) (fun f s => Ok (mkFwd lump c f, s)))) with
  | Ok (p, _) => Ok p
  | Err e => Err e
  end.

(** ** The instance *)

#[export] Instance lib_eq_dec : EqDecision (SimpleLib (CL := tree_cells)).
Proof.
  intros [p c] [p' c']. destruct (decide (p = p')) as [->|]; [|right; congruence].
  destruct (tcell_eq_dec c c') as [->|]; [by left | right; congruence].
Defined.

#[export] Instance t_libs_eq_dec : EqDecision t_libs.
Proof. intros x y. apply list_eq_dec. Defined.

#[export] Instance tree_models : ModelLib (SL := tree_slices) := {|
  Extra := t_extra;
  StateLibs := t_libs;
  ExtAddr := Z;
  Cell_eq_dec := tcell_eq_dec;
  StateLibs_eq_dec := t_libs_eq_dec;
  tokens_checked_add := t_add;
  tokens_checked_sub := t_sub;
  tokens_saturating_add := fun a b => Z.min TOKENS_MAX (a + b);
  tokens_add := Z.add;
  tokens_sub := Z.sub;
  varuint56_saturating_add := fun a b => Z.min (2 ^ 56 - 1) (a + b);
  cc_checked_add := t_cc t_add (fun x y => Ok (x ++ y));
  cc_checked_sub := t_cc t_sub t_extra_sub;
  cc_checked_clamp := t_clamp;
  extra_new := [];
  extra_checked_sub := t_extra_sub;
  extra_normalize := fun x => Ok (List.filter (fun e => negb (e.2 =? 0)) x);
  extra_is_empty := fun x => match x with [] => true | _ => false end;
  extra_is_zero := forallb (fun e => e.2 =? 0);
  extra_root := fun _ => None;
  extra_iter := map Ok;
  extra_remove := fun x id => Ok (List.filter (fun e => negb (e.1 =? id)) x);
  libs_new := [];
  libs_root := fun _ => None;
  libs_get := fun l h => Ok (t_libs_get l h);
  libs_set := fun l h lib => Ok ((h, lib) :: t_libs_del l h);
  libs_remove := fun l h => Ok (t_libs_del l h, t_libs_get l h);
  libs_values := map (fun e => Ok e.2);
  MsgForwardPrices := t_fwd;
  fp_cell_price := fw_cell;
  fp_bit_price := fun _ => 0;
  fp_first_frac := fun p => clamp 0 U16_MAX (fw_first p);
  fp_ihr_price_factor := fun _ => 98304;
  compute_fwd_fee := t_fwd_fee;
  get_first_part := t_first;
  compute_gas_fee := gas_fee_spec;
  prices_storage_fee := fun p mc delta st =>
    (cell_price_ps p * cell_count st + bit_price_ps p * bit_count st) * delta / 65536;
  hash_zero := 0;
  hash_of_bytes := fun l => fold_left (fun acc b => acc * 256 + b) l 0;
  WorkchainFormatExtended := unit;
  check_addr_len := fun _ _ => true;
  BlockchainConfigParams := unit;
  GlobalVersion := unit;
  config_root := fun _ => None;
  config_get := fun _ _ => Ok None;
  get_storage_prices_root := fun _ => Ok None;
  get_workchains := fun _ => Ok [];
  get_global_version := fun _ => Ok tt;
  get_fundamental_addresses := fun _ => Ok [];
  values_owned := fun _ => [];
  load_storage_prices := fun _ => Err InvalidTag;
  parse_burning := fun _ => Ok None;
  parse_gas_prices := fun _ => Err InvalidTag;
  parse_fwd_prices := fun _ => Err InvalidTag;
  parse_size_limits := fun _ => Err InvalidTag;
  parse_i32 := fun _ => Err InvalidTag;
  parse_u32 := fun c =>
    match t_load_uint (new_allow_exotic (CL := tree_cells) c) 32 with
    | Ok (v, _) => Ok v | Err e => Err e end;
  load_gas_prices := t_load_gas;
  load_fwd_prices := t_load_fwd;
  load_size_limits := fun _ => Ok (mkSizeLimits 2097152 8192 1000 65536 67108864 256);
  load_msg_info := t_load_msg;
  parse_msg_info := fun c =>
    match t_load_msg (new_allow_exotic (CL := tree_cells) c) with Ok (i, _) => Ok i | Err e => Err e end;
  load_msg_type := t_load_type;
  load_int_msg_info := t_load_int_of t_load_addr;
  load_relaxed_msg_info := t_load_relaxed;
  load_state_init := t_load_state;
  load_out_action := t_load_action;
  load_int_addr := t_load_addr;
  load_storage_info := t_load_storage;
  load_currency := t_load_currency;
  store_msg_info := t_store_msg;
  store_relaxed_msg_info := t_store_relaxed;
  store_state_init := t_store_state;
  store_int_addr := t_store_addr;
  store_currency := t_store_currency;
  store_account_state := t_store_account;
  store_storage_info := t_store_storage;
  store_out_action := t_store_action;
  parse_relaxed_message := t_parse_relaxed;
  lazy_from_raw := Ok;
  int_addr_bit_len := fun _ => 265;
  ext_addr_len := fun _ => 0;
  state_init_bit_len := fun _ => 5;
  state_init_reference_count := fun st =>
    Z.b2z (bool_decide (is_Some (si_code st))) + Z.b2z (bool_decide (is_Some (si_data st)));
  tokens_len := fun v => if v <=? TOKENS_MAX then Some (4 + 8 * ((Z.log2_up (v + 1) + 7) / 8)) else None;
  storage_stat_slice := t_stat;
  extra_from_root := fun _ => [];
  sha256_pair := fun a b => a * 65599 + b
|}.

(** ** The laws *)

Lemma load_uint_range s n v rest : 0 <= n -> t_load_uint s n = Ok (v, rest) -> 0 <= v < 2 ^ n.
Proof.
  intros Hn. unfold t_load_uint. cbn [get_uint tree_cells]. case_bool; [|discriminate].
  destruct (t_skip _ _ _); [|discriminate]. intros [= <- _].
  apply Z.mod_pos_bound, Z.pow_pos_nonneg; lia.
Qed.

Lemma p_bind_inv {A B} (m : parsed A) (k : A -> slice -> parsed B) b rest :
  p_bind m k = Ok (b, rest) -> exists a s, m = Ok (a, s) /\ k a s = Ok (b, rest).
Proof. unfold p_bind. destruct m as [[a s]|e]; [eauto | discriminate]. Qed.

Lemma tokens_range s v rest : t_load_uint s 120 = Ok (v, rest) -> tokens_ok v.
Proof. intros H. apply load_uint_range in H; [|lia]. unfold tokens_ok, TOKENS_MAX. lia. Qed.

Lemma currency_range s c rest : t_load_currency s = Ok (c, rest) -> tokens_ok (tokens c).
Proof.
  intros H. apply p_bind_inv in H as (v & s1 & H1 & [= <- _]). by eapply tokens_range.
Qed.

Lemma int_rest_range {S} x y z (src : S) s i rest : t_load_int_rest x y z src s = Ok (i, rest) ->
  tokens_ok (tokens (im_value i)) /\ tokens_ok (im_ihr_fee i).
Proof.
  intros H. apply p_bind_inv in H as (d & s1 & _ & H). apply p_bind_inv in H as (c & s2 & Hc & H).
  apply p_bind_inv in H as (f & s3 & Hf & H). apply p_bind_inv in H as (g & s4 & _ & H).
  apply p_bind_inv in H as (l & s5 & _ & H). apply p_bind_inv in H as (a & s6 & _ & [= <- _]).
  split; [by eapply currency_range | by eapply tokens_range].
Qed.

Lemma int_of_range {S} (load : slice -> parsed S) s i rest : t_load_int_of load s = Ok (i, rest) ->
  tokens_ok (tokens (im_value i)) /\ tokens_ok (im_ihr_fee i).
Proof.
  intros H. do 3 apply p_bind_inv in H as (? & ? & _ & H).
  apply p_bind_inv in H as (? & ? & _ & H). by eapply int_rest_range.
Qed.

Lemma max_elem x l : x ∈ l -> x <= fold_right Z.max 0 l.
Proof. induction l as [|y l IH]; [by intros []%not_elem_of_nil|]. intros [->|H]%elem_of_cons; cbn; [lia|]. specialize (IH H). lia. Qed.

#[export] Instance tree_model_laws : ModelLaws (ML := tree_models).
Proof.
  split; cbn.
  - done.
  - done.
  - done.
  - done.
  - done.
  - intros a b c. unfold t_cc. destruct (t_add _ _); [|discriminate]. by intros [= <-].
  - intros a b c. unfold t_cc. destruct (t_sub _ _); [|discriminate].
    destruct (t_extra_sub _ _); [|discriminate]. by intros [= <-].
  - intros a b c [= <-]. done.
  - done.
  - intros p st. unfold t_fwd_fee, clamp, tokens_ok, TOKENS_MAX. lia.
  - intros p f Hf. unfold t_first, clamp, tokens_ok in *. lia.
  - done.
  - intros s i rest H. apply p_bind_inv in H as ([] & s1 & _ & H); apply p_bind_inv in H as (? & ? & Hx & H);
      simplify_eq. by eapply int_of_range.
  - intros s i rest H. apply p_bind_inv in H as ([] & s1 & _ & H); [|discriminate|];
      apply p_bind_inv in H as (? & ? & Hx & H); simplify_eq. by eapply int_of_range.
  - intros s mode v rest H. apply p_bind_inv in H as (tag & s1 & _ & H).
    repeat (case_match; try discriminate H);
      apply p_bind_inv in H as (? & ? & _ & H); simplify_eq;
      apply p_bind_inv in H as (? & ? & Hx & H); simplify_eq; [by eapply currency_range|].
    destruct x1; apply p_bind_inv in H as (? & ? & _ & H); discriminate.
  - intros c m. unfold t_parse_relaxed. destruct (t_load_relaxed _) as [[]|]; [|discriminate].
    intros [= <-]. by eexists.
  - intros p. unfold clamp. unfold_widths. lia.
  - intros c c' H%subseteq_take. split; [apply depth_nonneg|]. destruct c as [t b r]. cbn [refs_of depth_of] in *.
    destruct r as [|c0 r]; [by apply not_elem_of_nil in H|].
    pose proof (max_elem (depth_of c') (map depth_of (c0 :: r)) (list_elem_of_fmap_2 _ _ _ H)). lia.
  - intros c. lia.
Qed.

(** ** Actions *)

#[local] Abbreviation sdata := (slice_data (SL := tree_slices)).
#[local] Abbreviation srefs := (slice_references (SliceLib := tree_slices)).

Lemma tree_load_uint s n v rest : 0 <= n -> 0 <= v < 2 ^ n ->
  sdata s = to_bits (Z.to_nat n) v ++ rest ->
  exists s', t_load_uint s n = Ok (v, s') /\ sdata s' = rest /\ srefs s' = srefs s.
Proof.
  intros Hn Hv Hd.
  assert (0 <= n <= slice_bits s) as Hb.
  { assert (length (sdata s) = Z.to_nat (slice_bits s)) as HL
      by (unfold slice_data; by rewrite length_map, length_seq).
    rewrite Hd, length_app, to_bits_length in HL. unfold slice_bits in *. cbn in *. lia. }
  destruct (t_load_uint_ok s n Hb) as (s' & E & Es).
  destruct (skip_first_spec (SliceLaws := tree_slice_laws) s n 0 Hb) as (s'' & Es' & Ed & Er); [lia|].
  rewrite Es in Es'. injection Es' as <-. exists s'. rewrite E, Ed, Er, Hd.
  rewrite take_app_le, take_ge by (rewrite to_bits_length; lia).
  rewrite bits_val_to_bits, Z2Nat.id, Z.mod_small by lia.
  rewrite drop_app_ge, to_bits_length, Nat.sub_diag by (rewrite to_bits_length; lia). done.
Qed.

Lemma tree_load_ref s c rest : srefs s = c :: rest ->
  exists s', t_load_ref s = Ok (c, s') /\ sdata s' = sdata s /\ srefs s' = rest.
Proof.
  intros Hr. destruct (load_reference_spec (SliceLaws := tree_slice_laws) s c rest Hr) as (s' & E & Es & _).
  destruct (skip_first_spec (SliceLaws := tree_slice_laws) s 0 1) as (s'' & Es' & Ed & Er).
  - unfold slice_bits. cbn. lia.
  - rewrite Hr. cbn. lia.
  - rewrite Es in Es'. injection Es' as <-. exists s'. rewrite Ed, Er, Hr. done.
Qed.

Lemma tree_is_empty s : sdata s = [] -> srefs s = [] -> slice_is_empty s = true.
Proof.
  intros Hd Hr. unfold slice_is_empty. apply andb_true_iff. split.
  - apply (is_data_empty_spec (H := tree_cells)). apply (f_equal length) in Hd.
    unfold slice_data in Hd. rewrite length_map, length_seq in Hd. cbn in Hd.
    unfold slice_bits in Hd. cbn in Hd. cbn. lia.
  - apply (is_refs_empty_spec (SliceLaws := tree_slice_laws)).
    pose proof (size_refs_spec (SliceLaws := tree_slice_laws) s) as H. rewrite Hr in H. exact H.
Qed.

(** The builder of the fields and references of an action. *)
Definition action_fields (a : OutActionOf tcell (LibRef (CL := tree_cells)) t_extra) : list (Z * Z) * list tcell :=
  match a with
  | SendMsg mode m => ([(0x0ec3c86d, 32); (mode, 8)], [m])
  | SetCode c => ([(0xad4de08e, 32)], [c])
  | ReserveCurrency mode v => ([(0x36e6b809, 32); (mode, 8); (tokens v, 120)], [])
  | ChangeLibrary mode (LibCell c) => ([(0x26fa1dd4, 32); (mode, 7); (1, 1)], [c])
  | ChangeLibrary mode (LibHash h) => ([(0x26fa1dd4, 32); (mode, 7); (0, 1); (h, 256)], [])
  end.
Definition field_bits (l : list (Z * Z)) : list bool := flat_map (fun f => to_bits (Z.to_nat f.2) f.1) l.

Definition action_storable (a : OutActionOf tcell (LibRef (CL := tree_cells)) t_extra) : Prop :=
  match a with
  | ReserveCurrency _ v => 0 <= tokens v <= TOKENS_MAX /\ other v = []
  | ChangeLibrary _ (LibHash h) => 0 <= h < 2 ^ 256
  | _ => True
  end.

Lemma store_action_fields refs e a : (length refs <= 1)%nat -> action_storable a ->
  t_store_action (mkTBuilder [] refs e) a =
    Ok (mkTBuilder (field_bits (action_fields a).1) (refs ++ (action_fields a).2) e).
Proof.
  intros Hr Hs. assert (refs = [] \/ exists c, refs = [c]) as Hrefs.
  { destruct refs as [|c [|? ?]]; [by left | right; eauto | cbn in Hr; lia]. }
  destruct a as [mode m|c|mode v|mode [c|h]]; cbn [t_store_action action_fields action_storable] in *.
  - by destruct Hrefs as [->|[? ->]].
  - by destruct Hrefs as [->|[? ->]].
  - destruct Hs as [Ht Ho]. rewrite (bool_decide_true _ Ho), andb_true_r.
    rewrite !(proj2 (Z.leb_le _ _)) by lia. by destruct Hrefs as [->|[? ->]].
  - by destruct Hrefs as [->|[? ->]].
  - rewrite (proj2 (Z.leb_le _ _)), (proj2 (Z.ltb_lt _ _)) by lia. by destruct Hrefs as [->|[? ->]].
Qed.

Lemma store_action_storable b a b' : t_store_action b a = Ok b' -> action_storable a.
Proof.
  destruct a as [mode m|c|mode v|mode [c|h]]; cbn [t_store_action action_storable]; try done.
  - destruct (_ && _) eqn:E; [|discriminate]. intros _.
    apply andb_true_iff in E as [E Ho]. apply bool_decide_eq_true in Ho. zify_bool. done.
  - destruct (_ && _) eqn:E; [|discriminate]. intros _. zify_bool. done.
Qed.

(** The next field or reference of the slice. *)
Ltac load_field :=
  match goal with
  | Hd : sdata ?s = to_bits _ ?v ++ ?l, Hr : srefs ?s = _ |- context [t_load_uint ?s ?k] =>
      let E := fresh in let Hd' := fresh "Hd" in let Hr' := fresh "Hr" in
      destruct (tree_load_uint s k v l ltac:(lia) ltac:(lia) Hd) as (? & E & Hd' & Hr');
      rewrite E; clear E; rewrite Hr in Hr'; cbn [p_bind Z.eqb Pos.eqb]; clear Hd Hr
  | Hd : sdata ?s = _, Hr : srefs ?s = ?c :: ?l |- context [t_load_ref ?s] =>
      let E := fresh in let Hd' := fresh "Hd" in let Hr' := fresh "Hr" in
      destruct (tree_load_ref s c l Hr) as (? & E & Hd' & Hr');
      rewrite E; clear E; rewrite Hd in Hd'; cbn [p_bind]; clear Hd Hr
  end.

Lemma load_action_fields a s : action_mode_ok (ML := tree_models) a -> action_storable a ->
  sdata s = field_bits (action_fields a).1 -> srefs s = (action_fields a).2 ->
  exists rest, t_load_action s = Ok (a, rest) /\ sdata rest = [] /\ srefs rest = [].
Proof.
  intros Hm Hs Hd Hr.
  unfold t_load_action, t_load_bool, t_load_currency.
  destruct a as [mode m|c|mode v|mode [c|h]]; cbn [action_fields field_bits flat_map fst snd] in Hd, Hr;
    cbn in Hm, Hs; unfold TOKENS_MAX in *; repeat load_field; eexists; (split; [|split; eassumption]).
  - done.
  - done.
  - destruct v as [t o]. cbn in *. by destruct Hs as [_ ->].
  - done.
  - done.
Qed.

#[export] Instance tree_action_laws : ActionLaws (ML := tree_models).
Proof.
  split.
  - intros b b0 a Hd Hr Hm H0. pose proof (store_action_storable _ _ _ H0) as Hs.
    unfold builder_data in Hd. rewrite tree_slice_data in Hd.
    unfold builder_refs in Hr. cbn in Hd, Hr. rewrite full_data in Hd. rewrite full_refs in Hr.
    destruct b as [bits refs e]. cbn in Hd, Hr. subst bits.
    pose proof (store_action_fields [] false a ltac:(cbn; lia) Hs) as H1.
    change (t_store_action (mkTBuilder [] [] false) a = Ok b0) in H0. rewrite H0 in H1. injection H1 as ->.
    eexists. split; [by apply store_action_fields|].
    unfold appended, builder_data, builder_refs. rewrite !tree_slice_data. cbn.
    rewrite !full_data, !full_refs. cbn. split; [done|]. split; [done|]. unfold plain. cbn. by intros [= <-].
  - intros a b0 cs Hm H0 Hd Hr. pose proof (store_action_storable _ _ _ H0) as Hs.
    pose proof (store_action_fields [] false a ltac:(cbn; lia) Hs) as H1.
    change (t_store_action (mkTBuilder [] [] false) a = Ok b0) in H0. rewrite H0 in H1. injection H1 as ->.
    unfold builder_data in Hd. rewrite (tree_slice_data (as_full_slice _)) in Hd. unfold builder_refs in Hr.
    cbn in Hd, Hr. rewrite full_data in Hd. rewrite full_refs in Hr. cbn in Hd, Hr.
    destruct (load_action_fields a cs Hm Hs) as (rest & E & Hd' & Hr'); [exact Hd | exact Hr |].
    exists rest. split; [exact E | by apply tree_is_empty].
Qed.
End TreeModels.

(** * Concrete dictionaries and digests

    [DictLib] over the cells of External.v: a binary trie with a level for every bit of
    the key, built and searched by programs over the cell context.  A fork holds two bits
    that tell which of its children there are; a leaf holds the value.  [CryptoLib] with
    digests of the right lengths that are no digests. *)

Open Scope vm_scope.

Module TreeDicts.

#[local] Abbreviation LP := (LoadProg (CL := tree_cells)).
#[local] Abbreviation CP := (CellProg (SL := tree_slices)).
#[local] Abbreviation full := (new_allow_exotic (CL := tree_cells)).
Definition store_value : Type := tbuilder -> result Error tbuilder.

(** A program that only loads as one that may also make cells. *)
Fixpoint lift {A B} (p : LP A) (k : A -> CP B) : CP B :=
  match p with
  | LoadDone (Ok a) => k a
  | LoadDone (Err e) => ProgDone (Err e)
  | Load c mode q => ProgLoad c mode (fun c => lift (q c) k)
  end.

Definition child (b : bool) (c : tcell) : option tcell :=
  match c with
  | TCell _ [l; r] refs => if b then (if r then last refs else None) else (if l then head refs else None)
  | _ => None
  end.

Definition option_list {A} (o : option A) : list A := match o with Some a => [a] | None => [] end.
Definition fork (l r : option tcell) : tbuilder :=
  mkTBuilder [bool_decide (is_Some l); bool_decide (is_Some r)] (option_list l ++ option_list r) false.

(** ** Looking up *)

Fixpoint get_prog (key : list bool) (c : tcell) : LP (option slice) :=
  Load c LoadMode_Full (fun c =>
    match key with
    | [] => LoadDone (Ok (Some (full c)))
    | b :: key =>
        match child b c with
        | Some c => get_prog key c
        | None => LoadDone (Ok None)
        end
    end).

Definition get_root (key : list bool) (root : option tcell) : LP (option slice) :=
  match root with Some c => get_prog key c | None => LoadDone (Ok None) end.

(** All the entries in the order of the keys, handed to a continuation. *)
Fixpoint entries {A} (n : nat) (pfx : list bool) (c : tcell) (k : list (list bool * slice) -> LP A) : LP A :=
  Load c LoadMode_Full (fun c =>
    match n with
    | O => k [(pfx, full c)]
    | S n =>
        let side b k :=
          match child b c with Some c => entries n (pfx ++ [b]) c k | None => k [] end in
        side false (fun l => side true (fun r => k (l ++ r)))
    end).
Definition all_entries (n : nat) (root : option tcell) : LP (list (list bool * slice)) :=
  match root with Some c => entries n [] c (fun l => LoadDone (Ok l)) | None => LoadDone (Ok []) end.

(** Keys as numbers; the first bit of a signed key counts negatively. *)
Definition key_number (signed : bool) (key : list bool) : Z :=
  let v := bits_val key in
  if signed : bool then wrap_s (Z.of_nat (length key)) v else v.

Definition as_found (e : list bool * slice) : tbuilder * slice := (mkTBuilder e.1 [] false, e.2).
Definition pick (towards : DictBound) (signed : bool) (l : list (list bool * slice))
    : option (list bool * slice) :=
  let better (e e' : list bool * slice) :=
    match towards with
    | BoundMin => key_number signed e.1 <? key_number signed e'.1
    | BoundMax => key_number signed e'.1 <? key_number signed e.1
    end in
  fold_left (fun acc e => match acc with
                          | Some e' => if better e e' then Some e else acc
                          | None => Some e
                          end) l None.

Definition find_bound (n : nat) (root : option tcell) (bound : DictBound) (signed : bool)
    : LP (option (tbuilder * slice)) :=
  (fix go (p : LP (list (list bool * slice))) :=
     match p with
     | LoadDone (Ok l) => LoadDone (Ok (option_map as_found (pick bound signed l)))
     | LoadDone (Err e) => LoadDone (Err e)
     | Load c mode q => Load c mode (fun c => go (q c))
     end) (all_entries n root).

(** The nearest key: the least of the greater ones towards the maximum. *)
Definition find_near (n : nat) (root : option tcell) (key : list bool) (towards : DictBound)
    (inclusive signed : bool) : LP (option (tbuilder * slice)) :=
  let z := key_number signed key in
  let ok (e : list bool * slice) :=
    let z' := key_number signed e.1 in
    (inclusive && (z' =? z)) || match towards with BoundMax => z <? z' | BoundMin => z' <? z end in
  let other := match towards with BoundMax => BoundMin | BoundMin => BoundMax end in
  (fix go (p : LP (list (list bool * slice))) :=
     match p with
     | LoadDone (Ok l) => LoadDone (Ok (option_map as_found (pick other signed (List.filter ok l))))
     | LoadDone (Err e) => LoadDone (Err e)
     | Load c mode q => Load c mode (fun c => go (q c))
     end) (all_entries n root).

(** ** Inserting and removing *)

(** The children of the root, loaded; none of an empty dictionary. *)
Definition with_children {A} (root : option tcell) (k : option tcell -> option tcell -> CP A) : CP A :=
  match root with
  | Some c => ProgLoad c LoadMode_Full (fun c => k (child false c) (child true c))
  | None => k None None
  end.

(** The value [v] put under a key; [v] hands on the builder of its leaf. *)
Fixpoint put_prog {A} (key : list bool) (root : option tcell) (v : tbuilder -> (tbuilder -> CP A) -> CP A)
    (k : tcell -> CP A) : CP A :=
  match key with
  | [] => v (mkTBuilder [] [] false) (fun b => ProgMake (SL := tree_slices) b k)
  | b :: key =>
      with_children root (fun l r =>
        put_prog key (if b : bool then r else l) v (fun c =>
          ProgMake (SL := tree_slices) (if b then fork l (Some c) else fork (Some c) r) k))
  end.

Definition insert_owned (root : option tcell) (key : list bool) (v : store_value) (mode : SetMode)
    : CP (bool * option slice * option tcell) :=
  lift (get_root key root) (fun prev =>
    let stored b k := match v b with Ok b => k b | Err e => ProgDone (Err e) end in
    let go := put_prog key root stored (fun c => ProgDone (Ok (true, prev, Some c))) in
    match mode, prev with
    | ModeReplace, None | ModeAdd, Some _ => ProgDone (Ok (false, prev, root))
    | _, _ => go
    end).

Fixpoint map_prog {A B} (f : A -> B) (p : CP A) : CP B :=
  match p with
  | ProgDone (Ok a) => ProgDone (Ok (f a))
  | ProgDone (Err e) => ProgDone (Err e)
  | ProgLoad c mode k => ProgLoad c mode (fun c => map_prog f (k c))
  | ProgMake parts k => ProgMake (SL := tree_slices) parts (fun c => map_prog f (k c))
  end.

Fixpoint remove_prog {A} (key : list bool) (root : option tcell) (k : option tcell -> CP A) : CP A :=
  match key, root with
  | _, None | [], _ => k None
  | b :: key, Some _ =>
      with_children root (fun l r =>
        remove_prog key (if b : bool then r else l) (fun c =>
          let (l, r) := if b then (l, c) else (c, r) in
          match l, r with
          | None, None => k None
          | _, _ => ProgMake (SL := tree_slices) (fork l r) (fun c => k (Some c))
          end))
  end.

Definition remove_owned (root : option tcell) (key : list bool) : CP (option slice * option tcell) :=
  lift (get_root key root) (fun prev =>
    match prev with
    | Some _ => remove_prog key root (fun root => ProgDone (Ok (prev, root)))
    | None => ProgDone (Ok (None, root))
    end).

Definition key_of (key : slice) (n : Z) : list bool := take (Z.to_nat n) (t_data key).

#[export] Instance tree_dicts : DictLib (SL := tree_slices) := {|
  dict_get := fun root n key => get_root (key_of key n) root;
  dict_find_owned := fun root n key towards inclusive signed =>
    find_near (Z.to_nat n) root (key_of key n) towards inclusive signed;
  dict_find_bound_owned := fun root n bound signed => find_bound (Z.to_nat n) root bound signed;
  dict_insert := fun root key n v mode =>
    map_prog (fun '(b, _, root) => (b, root)) (insert_owned root (key_of key n) v mode);
  dict_insert_owned := fun root key n v mode => insert_owned root (key_of key n) v mode;
  dict_remove_owned := fun root key n _ => remove_owned root (key_of key n);
  dict_remove_bound_owned := fun root n bound signed =>
    lift (find_bound (Z.to_nat n) root bound signed) (fun found =>
      match found with
      | Some (key, value) =>
          map_prog (fun '(_, root) => (Some (key, value), root)) (remove_owned root (tb_bits key))
      | None => ProgDone (Ok (None, root))
      end)
|}.

(** ** Digests *)

(** The bytes summed up, over and over. *)
Definition digest (n : nat) (l : list Z) : list Z :=
  map (fun i => (fold_left (fun acc b => 31 * acc + b + Z.of_nat i) l 7) mod 256) (seq 0 n).

#[export] Instance tree_crypto : CryptoLib := {|
  sha256 := digest 32;
  sha512 := digest 64;
  blake2b512 := digest 64;
  PublicKey := list Z;
  pubkey_from_bytes := Some;
  verify := fun key data signature => bool_decide (signature = digest 64 (key ++ data))
|}.

#[export] Instance tree_crypto_laws : CryptoLaws.
Proof.
  assert (forall n l, length (digest n l) = n) as Hl
    by (intros; unfold digest; by rewrite length_map, length_seq).
  assert (forall n l, Forall (fun b => 0 <= b < 256) (digest n l)) as Hb
    by (intros; apply Forall_map, Forall_true; intros; apply Z.mod_pos_bound; lia).
  split; intros; (apply Hl || apply Hb).
Qed.
End TreeDicts.
