(* ===== verification/Codepage.v ===== *)
(** * Code page 0 (instr/mod.rs and the attributes of the instruction modules)

    The opcode table: each entry carries the pattern string of its [#[op]] attribute
    and the call the macro generates for it. *)

From Stdlib Require Import Ascii String.
From S2P Require Import Prelude External Cells Values VmStack VmGas VmRegs VmState ArithOps.
From S2P Require Import CmpOps LogicOps StackOps TupleOps ContOps GasOps CellOps.
From S2P Require Import Dicts DictOps Models RandOps CurrencyOps CryptOps SizeOps ConfigOps.
From S2P Require Import MessageOps DebugOps Dispatch VmProc.

Open Scope vm_scope.

(** The expressions of the attributes' [args(..)]. *)
Definition low_byte (w : Z) : Z := Z.land w 0xff.
Definition nibble0 (w : Z) : Z := Z.land w 0xf.
Definition nibble1 (w : Z) : Z := Z.land (Z.shiftr w 4) 0xf.
(** [((args as i32 + k) & 0xf) - k]. *)
Definition signed_nibble (k w : Z) : Z := Z.land (w + k) 0xf - k.
(** [cond = i != 0 && i < j]. *)
Definition xchg_cond (i j : Z) : bool := negb (i =? 0) && (i <? j).

Section Codepage.
Context `{ML : ModelLib} {DL : DictLib} `{CrL : CryptoLib}.

(** An attribute of an instruction: [op] without and with arguments, [op_ext] and
    [op_ext_range].  The function of [Op] gets the arguments by name and the word. *)
Inductive OpDef :=
| Op0 (code : string) (f : VM Z)
| Op (code : string) (f : (string -> Z) -> Z -> VM Z)
| OpExt (code code_bits arg_bits : Z) (f : Z -> Z -> VM Z)
| OpExtRange (code_min code_max total_bits : Z) (f : Z -> Z -> VM Z).

(** The closure of the generated wrapper. *)
Definition by_name (args : list (ascii * Z)) (w : Z) (name : string) : Z :=
  match name with
  | String c _ => arg_value args c w
  | EmptyString => 0
  end.

(** What [vm_module] generates for an attribute, run on the builder. *)
Definition add_pattern (code : string) (f : (string -> Z) -> Z -> VM Z) (t : Opcodes)
  : option Opcodes :=
  match compile_pattern code with
  | None => None
  | Some p =>
      let wrapper (w : Z) : VM Z := f (by_name (args p) w) w in
      match pattern_ty p with
      | Simple opcode bits => add_simple opcode bits (wrapper 0) t
      | Fixed opcode bits arg_bits => add_fixed opcode bits arg_bits wrapper t
      | FixedRange lo hi total_bits _ => add_fixed_range lo hi total_bits wrapper t
      end
  end.

Definition add_def (d : OpDef) (t : Opcodes) : option Opcodes :=
  match d with
  | Op0 code f => add_pattern code (fun _ _ => f) t
  | Op code f => add_pattern code f t
  | OpExt code code_bits arg_bits f => add_ext code code_bits arg_bits f t
  | OpExtRange lo hi total_bits f => add_ext_range lo hi total_bits f t
  end.

(** [Module::init]. *)
Fixpoint init (defs : list OpDef) (t : Opcodes) : option Opcodes :=
  match defs with
  | [] => Some t
  | d :: defs => match add_def d t with Some t => init defs t | None => None end
  end.

Section Tables.
#[local] Open Scope string_scope.
#[local] Open Scope Z_scope.
#[local] Open Scope vm_scope.

Definition arg_bool (a : string -> Z) (name : string) : bool := negb (a name =? 0).

Definition arith_ops : list OpDef := [
  Op "7x" (fun _ w => exec_push_tinyint4 (signed_nibble 5 w));
  Op "80xx" (fun _ w => exec_push_tinyint4 (wrap_s 8 w));
  Op "81xxxx" (fun _ w => exec_push_tinyint4 (wrap_s 16 w));
  OpExtRange (Z.shiftl 0x82 5) (Z.shiftl 0x82 5 + 31) 13 exec_push_int;
  Op "83xx @ ..83ff" (fun _ w => exec_push_pow2 (low_byte w + 1));
  Op0 "83ff" exec_push_nan;
  Op "84xx" (fun _ w => exec_push_pow2dec (low_byte w + 1));
  Op "85xx" (fun _ w => exec_push_negpow2 (low_byte w + 1));
  Op "a0" (fun _ _ => exec_add false);
  Op "b7a0" (fun _ _ => exec_add true);
  Op "a1" (fun _ _ => exec_sub false);
  Op "b7a1" (fun _ _ => exec_sub true);
  Op "a2" (fun _ _ => exec_subr false);
  Op "b7a2" (fun _ _ => exec_subr true);
  Op "a3" (fun _ _ => exec_negate false);
  Op "b7a3" (fun _ _ => exec_negate true);
  Op "a4" (fun _ _ => exec_inc false);
  Op "b7a4" (fun _ _ => exec_inc true);
  Op "a5" (fun _ _ => exec_dec false);
  Op "b7a5" (fun _ _ => exec_dec true);
  Op "a6yy" (fun _ w => exec_addint (wrap_s 8 w) false);
  Op "b7a6yy" (fun _ w => exec_addint (wrap_s 8 w) true);
  Op "a7yy" (fun _ w => exec_mulint (wrap_s 8 w) false);
  Op "b7a7yy" (fun _ w => exec_mulint (wrap_s 8 w) true);
  Op "a8" (fun _ _ => exec_mul false);
  Op "b7a8" (fun _ _ => exec_mul true);
  Op "a90m" (fun a _ => exec_divmod (a "m") false);
  Op "b7a90m" (fun a _ => exec_divmod (a "m") true);
  Op "a92m" (fun a _ => exec_shrmod (a "m") false false);
  Op "a93mmm" (fun a _ => exec_shrmod (a "m") true false);
  Op "b7a92m" (fun a _ => exec_shrmod (a "m") false true);
  Op "a98m" (fun a _ => exec_muldivmod (a "m") false);
  Op "b7a98m" (fun a _ => exec_muldivmod (a "m") true);
  Op "a9am" (fun a _ => exec_mulshrmod (a "m") false false);
  Op "a9bmmm" (fun a _ => exec_mulshrmod (a "m") true false);
  Op "b7a9am" (fun a _ => exec_mulshrmod (a "m") false true);
  Op "a9cm" (fun a _ => exec_shldivmod (a "m") false false);
  Op "a9dmmm" (fun a _ => exec_shldivmod (a "m") true false);
  Op "b7a9cm" (fun a _ => exec_shldivmod (a "m") false true);
  Op "b608" (fun _ _ => exec_minmax true false false);
  Op "b609" (fun _ _ => exec_minmax false true false);
  Op "b60a" (fun _ _ => exec_minmax true true false);
  Op "b7b608" (fun _ _ => exec_minmax true false true);
  Op "b7b609" (fun _ _ => exec_minmax false true true);
  Op "b7b60a" (fun _ _ => exec_minmax true true true);
  Op "b60b" (fun _ _ => exec_abs false);
  Op "b7b60b" (fun _ _ => exec_abs true)
].

Definition cmp_ops : list OpDef := [
  Op "b8" (fun _ _ => exec_sgn false);
  Op "b7b8" (fun _ _ => exec_sgn true);
  Op "b9" (fun _ _ => exec_cmp MODE_LESS false);
  Op "ba" (fun _ _ => exec_cmp MODE_EQUAL false);
  Op "bb" (fun _ _ => exec_cmp MODE_LEQ false);
  Op "bc" (fun _ _ => exec_cmp MODE_GREATER false);
  Op "bd" (fun _ _ => exec_cmp MODE_NEQ false);
  Op "be" (fun _ _ => exec_cmp MODE_GEQ false);
  Op "bf" (fun _ _ => exec_cmp MODE_CMP false);
  Op "b7b9" (fun _ _ => exec_cmp MODE_LESS true);
  Op "b7ba" (fun _ _ => exec_cmp MODE_EQUAL true);
  Op "b7bb" (fun _ _ => exec_cmp MODE_LEQ true);
  Op "b7bc" (fun _ _ => exec_cmp MODE_GREATER true);
  Op "b7bd" (fun _ _ => exec_cmp MODE_NEQ true);
  Op "b7be" (fun _ _ => exec_cmp MODE_GEQ true);
  Op "b7bf" (fun _ _ => exec_cmp MODE_CMP true);
  Op "c0yy" (fun _ w => exec_cmp_int (wrap_s 8 w) MODE_EQUAL false);
  Op "c1yy" (fun _ w => exec_cmp_int (wrap_s 8 w) MODE_LESS false);
  Op "c2yy" (fun _ w => exec_cmp_int (wrap_s 8 w) MODE_GREATER false);
  Op "c3yy" (fun _ w => exec_cmp_int (wrap_s 8 w) MODE_NEQ false);
  Op "b7c0yy" (fun _ w => exec_cmp_int (wrap_s 8 w) MODE_EQUAL true);
  Op "b7c1yy" (fun _ w => exec_cmp_int (wrap_s 8 w) MODE_LESS true);
  Op "b7c2yy" (fun _ w => exec_cmp_int (wrap_s 8 w) MODE_GREATER true);
  Op "b7c3yy" (fun _ w => exec_cmp_int (wrap_s 8 w) MODE_NEQ true);
  Op0 "c4" exec_is_nan;
  Op0 "c5" exec_chk_nan
].

Definition logic_ops : list OpDef := [
  Op "aayy" (fun _ w => exec_lshift_tinyint8 (low_byte w + 1) false);
  Op "b7aayy" (fun _ w => exec_lshift_tinyint8 (low_byte w + 1) true);
  Op "abyy" (fun _ w => exec_rshift_tinyint8 (low_byte w + 1) false);
  Op "b7abyy" (fun _ w => exec_rshift_tinyint8 (low_byte w + 1) true);
  Op "ac" (fun _ _ => exec_lshift false);
  Op "b7ac" (fun _ _ => exec_lshift true);
  Op "ad" (fun _ _ => exec_rshift false);
  Op "b7ad" (fun _ _ => exec_rshift true);
  Op "ae" (fun _ _ => exec_pow2 false);
  Op "b7ae" (fun _ _ => exec_pow2 true);
  Op "b0" (fun _ _ => exec_and false);
  Op "b7b0" (fun _ _ => exec_and true);
  Op "b1" (fun _ _ => exec_or false);
  Op "b7b1" (fun _ _ => exec_or true);
  Op "b2" (fun _ _ => exec_xor false);
  Op "b7b2" (fun _ _ => exec_xor true);
  Op "b3" (fun _ _ => exec_not false);
  Op "b7b3" (fun _ _ => exec_not true);
  Op "b4yy" (fun _ w => exec_fits_tinyint8 (low_byte w + 1) true false);
  Op "b7b4yy" (fun _ w => exec_fits_tinyint8 (low_byte w + 1) true true);
  Op "b5yy" (fun _ w => exec_fits_tinyint8 (low_byte w + 1) false false);
  Op "b7b5yy" (fun _ w => exec_fits_tinyint8 (low_byte w + 1) false true);
  Op "b600" (fun _ _ => exec_fits true false);
  Op "b7b600" (fun _ _ => exec_fits true true);
  Op "b601" (fun _ _ => exec_fits false false);
  Op "b7b601" (fun _ _ => exec_fits false true);
  Op "b602" (fun _ _ => exec_bitsize true false);
  Op "b7b602" (fun _ _ => exec_bitsize true true);
  Op "b603" (fun _ _ => exec_bitsize false false);
  Op "b7b603" (fun _ _ => exec_bitsize false true)
].

Definition bytes_arg (w : Z) : Z := Z.shiftr w 8.

Definition cell_ops : list OpDef := [
  OpExt 0x88 8 0 exec_push_ref;
  OpExt 0x89 8 0 exec_push_ref_slice;
  OpExt 0x8a 8 0 exec_push_ref_cont;
  OpExt 0x8b 8 4 exec_push_slice;
  OpExt 0x8c 8 7 exec_push_slice_r;
  OpExtRange (Z.shiftl 0x8d 10) (Z.shiftl (Z.shiftl 0x8d 3 + 5) 7) 18 exec_push_slice_r2;
  OpExt (Z.shiftr 0x8e 1) 7 9 exec_push_cont;
  OpExt 0x9 4 4 exec_push_cont_simple;
  Op "c700" (fun _ _ => exec_slice_bool_unary_op IsEmpty);
  Op "c701" (fun _ _ => exec_slice_bool_unary_op NoBits);
  Op "c702" (fun _ _ => exec_slice_bool_unary_op NoRefs);
  Op "c703" (fun _ _ => exec_slice_bool_unary_op FirstBit);
  Op0 "c704" exec_slice_lex_cmp;
  Op "c705" (fun _ _ => exec_slice_bin_op DataEq);
  Op "c708" (fun _ _ => exec_slice_bin_op IsPrefix);
  Op "c709" (fun _ _ => exec_slice_bin_op IsPrefixRev);
  Op "c70a" (fun _ _ => exec_slice_bin_op IsProperPrefix);
  Op "c70b" (fun _ _ => exec_slice_bin_op IsProperPrefixRev);
  Op "c70c" (fun _ _ => exec_slice_bin_op IsSuffix);
  Op "c70d" (fun _ _ => exec_slice_bin_op IsSuffixRev);
  Op "c70e" (fun _ _ => exec_slice_bin_op IsProperSuffix);
  Op "c70f" (fun _ _ => exec_slice_bin_op IsProperSuffixRev);
  Op "c710" (fun _ _ => exec_slice_int_unary_op Leading0);
  Op "c711" (fun _ _ => exec_slice_int_unary_op Leading1);
  Op "c712" (fun _ _ => exec_slice_int_unary_op Trailing0);
  Op "c713" (fun _ _ => exec_slice_int_unary_op Trailing1);
  Op0 "c8" exec_new_builder;
  Op0 "c9" exec_builder_to_cell;
  Op "caxx" (fun _ w => exec_store_int (low_byte w + 1) true);
  Op "cbxx" (fun _ w => exec_store_int (low_byte w + 1) false);
  Op "cc" (fun _ _ => exec_store_ref false);
  Op "cf10" (fun _ _ => exec_store_ref false);
  Op "cf18" (fun _ _ => exec_store_ref true);
  Op "cd" (fun _ _ => exec_store_builder_as_ref_rev false);
  Op "cf15" (fun _ _ => exec_store_builder_as_ref_rev false);
  Op "cf1d" (fun _ _ => exec_store_builder_as_ref_rev true);
  Op "ce" (fun _ _ => exec_store_slice false);
  Op "cf12" (fun _ _ => exec_store_slice false);
  Op "cf1a" (fun _ _ => exec_store_slice true);
  Op "cf0$0sss" (fun _ w => exec_store_int_var w);
  Op "cf0$1sss#nn" (fun _ w => exec_store_int_fixed (bytes_arg w) (low_byte w + 1));
  Op "cf11" (fun _ _ => exec_store_builder_as_ref false);
  Op "cf19" (fun _ _ => exec_store_builder_as_ref true);
  Op "cf13" (fun _ _ => exec_store_builder false);
  Op "cf1b" (fun _ _ => exec_store_builder true);
  Op "cf14" (fun _ _ => exec_store_ref_rev false);
  Op "cf1c" (fun _ _ => exec_store_ref_rev true);
  Op "cf16" (fun _ _ => exec_store_slice_rev false);
  Op "cf1e" (fun _ _ => exec_store_slice_rev true);
  Op "cf17" (fun _ _ => exec_store_builder_rev false);
  Op "cf1f" (fun _ _ => exec_store_builder_rev true);
  OpExtRange 0xcf20 0xcf22 16 exec_store_const_ref;
  Op "cf22$ss" (fun _ w => exec_store_le_int w);
  Op0 "cf23" exec_builder_to_special_cell;
  Op0 "cf30" exec_builder_depth;
  Op0 "cf31" exec_builder_bits;
  Op0 "cf32" exec_builder_refs;
  Op0 "cf33" exec_builder_bits_refs;
  Op0 "cf35" exec_builder_rem_bits;
  Op0 "cf36" exec_builder_rem_refs;
  Op0 "cf37" exec_builder_rem_bits_refs;
  Op "cf38xx" (fun _ w => exec_builder_chk_bits (low_byte w + 1) false);
  Op "cf3cxx" (fun _ w => exec_builder_chk_bits (low_byte w + 1) true);
  Op "cf39" (fun _ _ => exec_builder_chk_bits_refs CheckBits false);
  Op "cf3a" (fun _ _ => exec_builder_chk_bits_refs CheckRefs false);
  Op "cf3b" (fun _ _ => exec_builder_chk_bits_refs CheckBitRefs false);
  Op "cf3d" (fun _ _ => exec_builder_chk_bits_refs CheckBits true);
  Op "cf3e" (fun _ _ => exec_builder_chk_bits_refs CheckRefs true);
  Op "cf3f" (fun _ _ => exec_builder_chk_bits_refs CheckBitRefs true);
  Op "cf40" (fun _ _ => exec_store_same (Some false));
  Op "cf41" (fun _ _ => exec_store_same (Some true));
  Op "cf42" (fun _ _ => exec_store_same None);
  OpExt (Z.shiftr 0xcf80 7) 9 5 exec_store_const_slice;
  Op0 "d0" exec_cell_to_slice;
  Op0 "d1" exec_slice_chk_empty;
  Op "d2xx" (fun _ w => exec_load_int_fixed (low_byte w + 1) true);
  Op "d3xx" (fun _ w => exec_load_int_fixed (low_byte w + 1) false);
  Op0 "d4" exec_load_ref;
  Op0 "d5" exec_load_ref_rev_to_slice;
  Op "d6xx" (fun _ w => exec_load_slice_fixed (low_byte w + 1));
  Op "d70$0sss" (fun _ w => exec_load_int_var w);
  Op "d70$1sss#nn" (fun _ w => exec_load_int_fixed2 (bytes_arg w) (low_byte w + 1));
  Op "d71$0xxx" (fun _ w => exec_preload_uint_fixed_0e (Z.shiftl (Z.land w 7 + 1) 5));
  Op "d71$10ss" (fun _ w => exec_load_slice w);
  Op "d71$11ss#nn" (fun _ w => exec_load_slice_fixed2 (bytes_arg w) (low_byte w + 1));
  Op "d720" (fun _ _ => exec_slice_range_op CutFirst);
  Op "d721" (fun _ _ => exec_slice_range_op SkipFirst);
  Op "d722" (fun _ _ => exec_slice_range_op CutLast);
  Op "d723" (fun _ _ => exec_slice_range_op SkipLast);
  Op0 "d724" exec_slice_substr;
  Op "d726" (fun _ _ => exec_slice_begins_with false);
  Op "d727" (fun _ _ => exec_slice_begins_with true);
  OpExt (Z.shiftr 0xd728 3) 13 8 exec_slice_begins_with_const;
  Op "d730" (fun _ _ => exec_slice_full_range_op CutFirst);
  Op "d731" (fun _ _ => exec_slice_full_range_op SkipFirst);
  Op "d732" (fun _ _ => exec_slice_full_range_op CutLast);
  Op "d733" (fun _ _ => exec_slice_full_range_op SkipLast);
  Op0 "d734" exec_subslice;
  Op "d736" (fun _ _ => exec_split false);
  Op "d737" (fun _ _ => exec_split true);
  Op0 "d739" exec_cell_to_slice_maybe_special;
  Op "d73a" (fun _ _ => exec_load_special_cell false);
  Op "d73b" (fun _ _ => exec_load_special_cell true);
  Op "d741" (fun _ _ => exec_check_slice CheckBits false);
  Op "d742" (fun _ _ => exec_check_slice CheckRefs false);
  Op "d743" (fun _ _ => exec_check_slice CheckBitRefs false);
  Op "d745" (fun _ _ => exec_check_slice CheckBits true);
  Op "d746" (fun _ _ => exec_check_slice CheckRefs true);
  Op "d747" (fun _ _ => exec_check_slice CheckBitRefs true);
  Op0 "d748" exec_preload_ref;
  Op "d749" (fun _ _ => exec_slice_bits_refs CheckBits);
  Op "d74a" (fun _ _ => exec_slice_bits_refs CheckRefs);
  Op "d74b" (fun _ _ => exec_slice_bits_refs CheckBitRefs);
  Op "d74$11xx" (fun a _ => exec_preload_ref_fixed (a "x"));
  Op "d75s" (fun _ w => exec_load_le_int w);
  Op "d760" (fun _ _ => exec_load_same (Some false));
  Op "d761" (fun _ _ => exec_load_same (Some true));
  Op "d762" (fun _ _ => exec_load_same None);
  Op0 "d764" exec_slice_depth;
  Op0 "d765" exec_cell_depth;
  Op0 "d766" exec_cell_level;
  Op0 "d767" exec_cell_level_mask;
  Op "d76$10xx" (fun a _ => exec_cell_level_op (a "x") LevelHash);
  Op "d76$11xx" (fun a _ => exec_cell_level_op (a "x") LevelDepth);
  Op "d770" (fun _ _ => exec_cell_level_op_var LevelHash);
  Op "d771" (fun _ _ => exec_cell_level_op_var LevelDepth)
].

Definition cont_ops : list OpDef := [
  Op0 "d8" exec_execute;
  Op0 "d9" exec_jmpx;
  Op "dapr" (fun a _ => exec_callx_args (a "p") (a "r"));
  Op "db0p" (fun a _ => exec_callx_args_p (a "p"));
  Op "db1p" (fun a _ => exec_jmpx_args (a "p"));
  Op "db2r" (fun a _ => exec_ret_args (a "r"));
  Op0 "db30" exec_ret;
  Op0 "db31" exec_ret_alt;
  Op0 "db32" exec_ret_bool;
  Op0 "db34" exec_callcc;
  Op0 "db35" exec_jmpx_data;
  Op "db36pr" (fun a w => exec_callcc_args (a "p") (signed_nibble 1 w));
  Op0 "db38" exec_callx_varargs;
  Op0 "db39" exec_ret_varargs;
  Op0 "db3a" exec_jmpx_varargs;
  Op0 "db3b" exec_callcc_varargs;
  OpExt 0xdb3c 16 0 exec_callref;
  OpExt 0xdb3d 16 0 exec_jmpref;
  OpExt 0xdb3e 16 0 exec_jmpref_data;
  Op0 "db3f" exec_ret_data;
  Op "db4xxx" (fun a _ => exec_runvm (a "x"));
  Op0 "db50" exec_runvmx;
  Op0 "dc" exec_ifret;
  Op0 "dd" exec_ifnotret;
  Op0 "de" exec_if;
  Op0 "df" exec_ifnot;
  Op0 "e0" exec_if_jmp;
  Op0 "e1" exec_ifnot_jmp;
  Op0 "e2" exec_if_else;
  OpExt 0xe300 16 0 exec_ifref;
  OpExt 0xe301 16 0 exec_ifnotref;
  OpExt 0xe302 16 0 exec_ifjmpref;
  OpExt 0xe303 16 0 exec_ifnotjmpref;
  Op0 "e304" exec_condsel;
  Op0 "e305" exec_condsel_chk;
  Op0 "e308" exec_ifretalt;
  Op0 "e309" exec_ifnotretalt;
  OpExt 0xe30d 16 0 exec_ifrefelse;
  OpExt 0xe30e 16 0 exec_ifelseref;
  OpExt 0xe30f 16 0 exec_ifref_elseref;
  Op "e3$10nx#x" (fun a _ => exec_if_bit_jmp (arg_bool a "n") (a "x"));
  OpExt (Z.shiftr 0xe3c0 6) 10 0 exec_if_bit_jmpref;
  Op "e4" (fun _ _ => exec_repeat false);
  Op "e314" (fun _ _ => exec_repeat true);
  Op "e5" (fun _ _ => exec_repeat_end false);
  Op "e315" (fun _ _ => exec_repeat_end true);
  Op "e6" (fun _ _ => exec_until false);
  Op "e316" (fun _ _ => exec_until true);
  Op "e7" (fun _ _ => exec_until_end false);
  Op "e317" (fun _ _ => exec_until_end true);
  Op "e8" (fun _ _ => exec_while false);
  Op "e318" (fun _ _ => exec_while true);
  Op "e9" (fun _ _ => exec_while_end false);
  Op "e319" (fun _ _ => exec_while_end true);
  Op "ea" (fun _ _ => exec_again false);
  Op "e31a" (fun _ _ => exec_again true);
  Op "eb" (fun _ _ => exec_again_end false);
  Op "e31b" (fun _ _ => exec_again_end true);
  Op "ecrn" (fun a w => exec_setcontargs (a "r") (signed_nibble 1 w));
  Op "ed0p" (fun a _ => exec_return_args (a "p"));
  Op0 "ed10" exec_return_varargs;
  Op0 "ed11" exec_setcont_varargs;
  Op0 "ed12" exec_setnum_varargs;
  Op0 "ed1e" exec_bless;
  Op0 "ed1f" exec_bless_varargs;
  Op "ed4i" (fun a _ => exec_push_ctr (a "i"));
  Op "ed5i" (fun a _ => exec_pop_ctr (a "i"));
  Op "ed6i" (fun a _ => exec_setcont_ctr (a "i"));
  Op "ed7i" (fun a _ => exec_setret_ctr (a "i"));
  Op "ed8i" (fun a _ => exec_setalt_ctr (a "i"));
  Op "ed9i" (fun a _ => exec_popsave (a "i"));
  Op "edai" (fun a _ => exec_savectr (a "i"));
  Op "edbi" (fun a _ => exec_savealt_ctr (a "i"));
  Op "edci" (fun a _ => exec_saveboth_ctr (a "i"));
  Op0 "ede0" exec_push_ctr_var;
  Op0 "ede1" exec_pop_ctr_var;
  Op0 "ede2" exec_setcont_ctr_var;
  Op "ede3xx" (fun _ w => exec_setcont_ctr_many (Some (low_byte w)));
  Op "ede4" (fun _ _ => exec_setcont_ctr_many None);
  Op "edf0" (fun _ _ => exec_compos CAnd);
  Op "edf1" (fun _ _ => exec_compos COr);
  Op "edf2" (fun _ _ => exec_compos CBoth);
  Op0 "edf3" exec_atexit;
  Op0 "edf4" exec_atexit_alt;
  Op0 "edf5" exec_setexit_alt;
  Op0 "edf6" exec_thenret;
  Op0 "edf7" exec_thenret_alt;
  Op0 "edf8" exec_invert;
  Op0 "edf9" exec_booleval;
  Op "edfa" (fun _ _ => exec_samealt false);
  Op "edfb" (fun _ _ => exec_samealt true);
  Op "eern" (fun a w => exec_bless_args (a "r") (signed_nibble 1 w));
  Op "f0nn" (fun a _ => exec_calldict_short (a "n"));
  Op "f1$00nn#nnn" (fun a _ => exec_calldict_short (a "n"));
  Op "f1$01nn#nnn" (fun a _ => exec_jmpdict (a "n"));
  Op "f1$10nn#nnn" (fun a _ => exec_preparedict (a "n"));
  Op "f2$00nn#n" (fun a _ => exec_throw_fixed (a "n") Direct);
  Op "f2$01nn#n" (fun a _ => exec_throw_fixed (a "n") (Cond true));
  Op "f2$10nn#n" (fun a _ => exec_throw_fixed (a "n") (Cond false));
  Op "f2c$0nnn#nn" (fun a _ => exec_throw_fixed (a "n") Direct);
  Op "f2d$0nnn#nn" (fun a _ => exec_throw_fixed (a "n") (Cond true));
  Op "f2e$0nnn#nn" (fun a _ => exec_throw_fixed (a "n") (Cond false));
  Op "f2c$1nnn#nn" (fun a _ => exec_throw_arg_fixed (a "n") Direct);
  Op "f2d$1nnn#nn" (fun a _ => exec_throw_arg_fixed (a "n") (Cond true));
  Op "f2e$1nnn#nn" (fun a _ => exec_throw_arg_fixed (a "n") (Cond false));
  Op "f2fx @ ..f2f6" (fun a _ => exec_throw_any (a "x"));
  Op0 "f2ff" exec_try;
  Op "f3pr" (fun a _ => exec_tryargs (a "p") (a "r"));
  Op0 "fff0" exec_set_cp_any;
  Op "ff00" (fun _ _ => exec_set_cp 0);
  Op "ffxx @ ff01..fff0" (fun _ w => exec_set_cp (low_byte w));
  Op "fffx @ fff1.." (fun _ w => exec_set_cp (nibble0 w - 16))
].

Definition stack_ops : list OpDef := [
  Op0 "00" exec_nop;
  Op0 "01" exec_swap;
  Op "0j @ 02.." (fun a _ => exec_xchg 0 (a "j"));
  Op "10ij" (fun a _ => ensure (xchg_cond (a "i") (a "j")) InvalidOpcode ;;
                        exec_xchg (a "i") (a "j"));
  Op "11jj" (fun a _ => exec_xchg 0 (a "j"));
  Op "1j @ 12.." (fun a _ => exec_xchg 1 (a "j"));
  Op0 "20" exec_dup;
  Op0 "21" exec_over;
  Op "2i @ 22.." (fun a _ => exec_push (a "i"));
  Op "56ii" (fun a _ => exec_push (a "i"));
  Op0 "30" exec_drop;
  Op0 "31" exec_nip;
  Op "3i @ 32.." (fun a _ => exec_pop (a "i"));
  Op "57ii" (fun a _ => exec_pop (a "i"));
  Op "4ijk" (fun a _ => exec_xchg3 (a "i") (a "j") (a "k"));
  Op "540ijk" (fun a _ => exec_xchg3 (a "i") (a "j") (a "k"));
  Op "50ij" (fun a _ => exec_xchg2 (a "i") (a "j"));
  Op "51ij" (fun a _ => exec_xcpu (a "i") (a "j"));
  Op "52ij" (fun a _ => exec_puxc (a "i") (a "j"));
  Op "53ij" (fun a _ => exec_push2 (a "i") (a "j"));
  Op "541ijk" (fun a _ => exec_xc2pu (a "i") (a "j") (a "k"));
  Op "542ijk" (fun a _ => exec_xcpuxc (a "i") (a "j") (a "k"));
  Op "543ijk" (fun a _ => exec_xcpu2 (a "i") (a "j") (a "k"));
  Op "544ijk" (fun a _ => exec_puxc2 (a "i") (a "j") (a "k"));
  Op "545ijk" (fun a _ => exec_puxcpu (a "i") (a "j") (a "k"));
  Op "546ijk" (fun a _ => exec_pu2xc (a "i") (a "j") (a "k"));
  Op "547ijk" (fun a _ => exec_push3 (a "i") (a "j") (a "k"));
  Op "55ij" (fun _ w => exec_blkswap (1 + nibble1 w) (1 + nibble0 w));
  Op0 "58" exec_rot;
  Op0 "59" exec_rotrev;
  Op0 "5a" exec_2swap;
  Op0 "5b" exec_2drop;
  Op0 "5c" exec_2dup;
  Op0 "5d" exec_2over;
  Op "5eij" (fun a w => exec_reverse (2 + nibble1 w) (a "j"));
  Op "5f0i" (fun a _ => exec_blkdrop (a "i"));
  Op "5fij @ 5f10.." (fun a _ => exec_blkpush (a "i") (a "j"));
  Op0 "60" exec_pick;
  Op0 "61" exec_roll;
  Op0 "62" exec_rollrev;
  Op0 "63" exec_blkswap_x;
  Op0 "64" exec_reverse_x;
  Op0 "65" exec_drop_x;
  Op0 "66" exec_tuck;
  Op0 "67" exec_xchg_x;
  Op0 "68" exec_depth;
  Op0 "69" exec_chkdepth;
  Op0 "6a" exec_onlytop_x;
  Op0 "6b" exec_only_x;
  Op "6cij @ 6c10.." (fun a _ => exec_blkdrop2 (a "i") (a "j"))
].

Definition tuple_ops : list OpDef := [
  Op0 "6d" exec_push_null;
  Op0 "6e" exec_is_null;
  Op "6f0i" (fun a _ => exec_mktuple (a "i"));
  Op "6f1i" (fun a _ => exec_tuple_index (a "i"));
  Op "6f2i" (fun a _ => exec_untuple (a "i"));
  Op "6f3i" (fun a _ => exec_untuple_first (a "i"));
  Op "6f4i" (fun a _ => exec_explode_tuple (a "i"));
  Op "6f5i" (fun a _ => exec_tuple_set_index (a "i"));
  Op "6f6i" (fun a _ => exec_tuple_quiet_index (a "i"));
  Op "6f7i" (fun a _ => exec_tuple_quiet_set_index (a "i"));
  Op0 "6f80" exec_mktuple_var;
  Op0 "6f81" exec_tuple_index_var;
  Op0 "6f82" exec_untuple_var;
  Op0 "6f83" exec_untuple_first_var;
  Op0 "6f84" exec_explode_tuple_var;
  Op0 "6f85" exec_tuple_set_index_var;
  Op0 "6f86" exec_tuple_quiet_index_var;
  Op0 "6f87" exec_tuple_quiet_set_index_var;
  Op0 "6f88" exec_tuple_length;
  Op0 "6f89" exec_tuple_length_quiet;
  Op0 "6f8a" exec_is_tuple;
  Op0 "6f8b" exec_tuple_last;
  Op0 "6f8c" exec_tuple_push;
  Op0 "6f8d" exec_tuple_pop;
  Op "6f90" (fun _ _ => exec_zero_swap_if true false);
  Op "6f91" (fun _ _ => exec_zero_swap_if false false);
  Op "6f92" (fun _ _ => exec_zero_swap_if true true);
  Op "6f93" (fun _ _ => exec_zero_swap_if false true);
  Op "6f94" (fun _ _ => exec_zero_swap_if2 true false);
  Op "6f95" (fun _ _ => exec_zero_swap_if2 false false);
  Op "6f96" (fun _ _ => exec_zero_swap_if2 true true);
  Op "6f97" (fun _ _ => exec_zero_swap_if2 false true);
  Op "6fa0" (fun _ _ => exec_null_swap_if true false);
  Op "6fa1" (fun _ _ => exec_null_swap_if false false);
  Op "6fa2" (fun _ _ => exec_null_swap_if true true);
  Op "6fa3" (fun _ _ => exec_null_swap_if false true);
  Op "6fa4" (fun _ _ => exec_null_swap_if2 true false);
  Op "6fa5" (fun _ _ => exec_null_swap_if2 false false);
  Op "6fa6" (fun _ _ => exec_null_swap_if2 true true);
  Op "6fa7" (fun _ _ => exec_null_swap_if2 false true);
  Op "6fb$iijj" (fun a _ => exec_tuple_index2 (a "i") (a "j"));
  Op "6f$11iijjkk" (fun a _ => exec_tuple_index3 (a "i") (a "j") (a "k"))
].

Definition gas_ops : list OpDef := [
  Op0 "f800" exec_accept;
  Op0 "f801" exec_set_gas_limit;
  Op0 "f802" exec_buy_gas;
  Op0 "f804" exec_gram_to_gas;
  Op0 "f805" exec_gas_to_gram;
  Op0 "f807" exec_gas_consumed;
  Op0 "f80f" exec_commit
].

Definition debug_ops : list OpDef := [
  Op0 "fe00" exec_dump_stack;
  Op "fexx @ fe01..fe14" (fun _ w => exec_dummy_debug (low_byte w));
  Op "fexx @ fe15..fe20" (fun _ w => exec_dummy_debug (low_byte w));
  Op "fexx @ fe30..fef0" (fun _ w => exec_dummy_debug (low_byte w));
  Op0 "fe14" exec_dump_string;
  Op "fe2x" (fun a _ => exec_dump_value (a "x"));
  OpExt 0xfef 12 4 exec_dummy_debug_str
].

Definition dict_ops : list OpDef := [
  Op0 "f400" exec_stdict;
  Op0 "f401" exec_skip_dict;
  Op "f402" (fun _ _ => exec_load_dict_slice false);
  Op "f403" (fun _ _ => exec_load_dict_slice true);
  Op "f404" (fun _ _ => exec_load_dict false false);
  Op "f405" (fun _ _ => exec_load_dict true false);
  Op "f406" (fun _ _ => exec_load_dict false true);
  Op "f407" (fun _ _ => exec_load_dict true true);
  Op "f4ss @ f40a..f410" (fun _ w => exec_dict_get w);
  Op "f4ss @ f412..f418" (fun _ w => exec_dict_set w false ModeSet);
  Op "f4ss @ f422..f428" (fun _ w => exec_dict_set w false ModeReplace);
  Op "f4ss @ f432..f438" (fun _ w => exec_dict_set w false ModeAdd);
  Op "f4ss @ f441..f444" (fun _ w => exec_dict_set (Z.shiftl w 1) true ModeSet);
  Op "f4ss @ f449..f44c" (fun _ w => exec_dict_set (Z.shiftl w 1) true ModeReplace);
  Op "f4ss @ f451..f454" (fun _ w => exec_dict_set (Z.shiftl w 1) true ModeAdd);
  Op "f4ss @ f41a..f420" (fun _ w => exec_dict_setget w false ModeSet);
  Op "f4ss @ f42a..f430" (fun _ w => exec_dict_setget w false ModeReplace);
  Op "f4ss @ f43a..f440" (fun _ w => exec_dict_setget w false ModeAdd);
  Op "f4ss @ f445..f448" (fun _ w => exec_dict_setget (Z.shiftl w 1) true ModeSet);
  Op "f4ss @ f44d..f450" (fun _ w => exec_dict_setget (Z.shiftl w 1) true ModeReplace);
  Op "f4ss @ f455..f458" (fun _ w => exec_dict_setget (Z.shiftl w 1) true ModeAdd);
  Op "f4ss @ f459..f45c" (fun _ w => exec_dict_delete w);
  Op "f4ss @ f462..f468" (fun _ w => exec_dict_deleteget w);
  Op "f4ss @ f469..f46c" (fun _ w => exec_dict_get_optref w);
  Op "f4ss @ f46d..f470" (fun _ w => exec_dict_setget_optref w);
  Op "f4ss @ f474..f480" (fun _ w => exec_dict_get_near w);
  Op "f4ss @ f482..f488" (fun _ w => exec_dict_get_min w);
  Op "f4ss @ f48a..f490" (fun _ w => exec_dict_get_min w);
  Op "f4ss @ f492..f498" (fun _ w => exec_dict_get_min w);
  Op "f4ss @ f49a..f4a0" (fun _ w => exec_dict_get_min w);
  Op "f4a$00ss" (fun _ w => exec_dict_get_exec w);
  Op "f4b$11ss" (fun _ w => exec_dict_get_exec w);
  OpExtRange 0xf4a400 0xf4a800 24 exec_push_const_dict
].

Definition rand_ops : list OpDef := [
  Op0 "f810" exec_randu256;
  Op0 "f811" exec_rand_int;
  Op "f814" (fun _ _ => exec_set_rand false);
  Op "f815" (fun _ _ => exec_set_rand true)
].

Definition config_ops : list OpDef := [
  Op "f82i" (fun a _ => exec_get_param (a "i"));
  Op0 "f830" exec_get_config_dict;
  Op "f832" (fun _ _ => exec_get_config_param false);
  Op "f833" (fun _ _ => exec_get_config_param true);
  Op "f83400" (fun _ _ => exec_get_prev_blocks_info 0);
  Op "f83401" (fun _ _ => exec_get_prev_blocks_info 1);
  Op0 "f835" exec_get_global_id;
  Op0 "f836" exec_get_gas_fee;
  Op0 "f837" exec_get_storage_fee;
  Op0 "f838" exec_get_forward_fee;
  Op0 "f839" exec_get_precompiled_gas;
  Op0 "f83a" exec_get_original_fwd_fee;
  Op0 "f83b" exec_get_gas_fee_simple;
  Op0 "f83c" exec_get_forward_fee_simple;
  Op0 "f880" exec_get_extra_currency_balance;
  Op0 "f840" exec_get_global_var;
  Op "f8ii @ f841..f860" (fun _ w => exec_get_global (Z.land w 31));
  Op0 "f860" exec_set_global_var;
  Op "f8ii @ f861..f880" (fun _ w => exec_set_global (Z.land w 31));
  Op "f881ii" (fun a _ => exec_get_param_long (a "i"));
  Op "f89i" (fun a _ => exec_get_in_msg_param (a "i"))
].

Definition message_ops : list OpDef := [
  Op0 "fb00" exec_send_message_raw;
  Op "fb02" (fun _ _ => exec_reserve_raw false);
  Op "fb03" (fun _ _ => exec_reserve_raw true);
  Op0 "fb04" exec_set_code;
  Op0 "fb06" exec_set_lib_code;
  Op0 "fb07" exec_change_lib;
  Op0 "fb08" exec_send_message
].

Definition crypt_ops : list OpDef := [
  Op "f900" (fun _ _ => exec_compute_hash HashCell);
  Op "f901" (fun _ _ => exec_compute_hash HashSlice);
  Op0 "f902" exec_compute_sha256;
  Op "f90$01pr#ii" (fun a _ => exec_hash_ext (arg_bool a "p") (arg_bool a "r") (a "i"));
  Op "f910" (fun _ _ => exec_ed25519_check_signature false true);
  Op "f911" (fun _ _ => exec_ed25519_check_signature true true);
  Op "f916" (fun _ _ => exec_ed25519_check_signature false false);
  Op "f917" (fun _ _ => exec_ed25519_check_signature true false)
].

Definition currency_ops : list OpDef := [
  Op "fa00" (fun _ _ => exec_load_var_integer 4 false);
  Op "fa01" (fun _ _ => exec_load_var_integer 4 true);
  Op "fa04" (fun _ _ => exec_load_var_integer 5 false);
  Op "fa05" (fun _ _ => exec_load_var_integer 5 true);
  Op "fa02" (fun _ _ => exec_store_var_integer 4 false);
  Op "fa03" (fun _ _ => exec_store_var_integer 4 true);
  Op "fa06" (fun _ _ => exec_store_var_integer 5 false);
  Op "fa07" (fun _ _ => exec_store_var_integer 5 true);
  Op "fa40" (fun _ _ => exec_load_message_addr false);
  Op "fa41" (fun _ _ => exec_load_message_addr true);
  Op "fa42" (fun _ _ => exec_parse_message_addr false);
  Op "fa43" (fun _ _ => exec_parse_message_addr true);
  Op "fa44" (fun _ _ => exec_rewrite_message_addr false false);
  Op "fa45" (fun _ _ => exec_rewrite_message_addr false true);
  Op "fa46" (fun _ _ => exec_rewrite_message_addr true false);
  Op "fa47" (fun _ _ => exec_rewrite_message_addr true true)
].

Definition size_ops : list OpDef := [
  Op "f940" (fun _ _ => exec_compute_data_size false true);
  Op "f941" (fun _ _ => exec_compute_data_size false false);
  Op "f942" (fun _ _ => exec_compute_data_size true true);
  Op "f943" (fun _ _ => exec_compute_data_size true false)
].
End Tables.

(** The modules in the order of their [init] calls. *)
Definition all_ops : list OpDef :=
  (arith_ops ++ cmp_ops ++ logic_ops ++ cell_ops ++ cont_ops ++ stack_ops ++ tuple_ops ++
   debug_ops ++ dict_ops ++ gas_ops ++ rand_ops ++ config_ops ++ message_ops ++ crypt_ops ++
   currency_ops ++ size_ops)%list.

(** [None] is the panic of [build().unwrap()]. *)
Definition codepage0 : option Opcodes := option_map build (init all_ops []).
End Codepage.
