(* ===== verification/Run.v ===== *)
(** * Building and running a VM (state.rs)

    [VmStateBuilder::build], one step, the loop of one VM ([run_inner]), the loop over
    nested VMs ([run]) and the return to the parent ([restore_parent]).  The loops have
    fuel; [None] is fuel exhausted. *)

From S2P Require Import Prelude External Values VmStack VmGas VmRegs VmState ContOps.
From S2P Require Import Dispatch.

Open Scope vm_scope.

(** [InitSelectorParams]. *)
Inductive InitSelectorParams := NoSelector | UseCode (push0 : bool).

Definition LATEST_TON : VmVersion := Ton 11.
Definition DEFAULT_VERSION : VmVersion := LATEST_TON.

Section Run.
Context `{CL : CellLib}.

Record VmStateBuilder := mkBuilder {
  b_code : option OwnedCellSlice;
  b_data : option Cell;
  b_stack : list value;
  b_libraries : option Gas.LibraryProvider;
  b_c7 : option Tuple;
  b_gas : GasParams;
  init_selector : InitSelectorParams;
  b_version : option VmVersion;
  b_modifiers : BehaviourModifiers
}.

Definition build (b : VmStateBuilder) : VmState :=
  let '(code, throw_on_code_access) :=
    match b_code b with
    | Some code => (code, false)
    | None => (slice_default, true)
    end in
  let '(c3, stack) :=
    match init_selector b with
    | NoSelector => (QUIT11, b_stack b)
    | UseCode push0 =>
        (simple code 0, if push0 then b_stack b ++ [VInt 0] else b_stack b)
    end in
  mkState code throw_on_code_access stack
    (mkRegs (Some QUIT0) (Some QUIT1) (Some EXC_QUIT) (Some c3)
       (Some (default empty_cell (b_data b))) (Some empty_cell)
       (Some (default [] (b_c7 b))))
    None 0 QUIT0 QUIT1
    (Gas.with_libraries (b_gas b) (default Gas.NoLibraries (b_libraries b)))
    0 (b_modifiers b) (default DEFAULT_VERSION (b_version b)) None.

(** The opcode table of code page 0. *)
Context (table : Opcodes).

Definition count_step : VM unit := modify (fun s => set_steps (steps s + 1) s).

Definition step : VM Z :=
  count_step ;;
  let* c := gets code in
  if negb (is_data_empty (range c)) then dispatch table
  else if negb (is_refs_empty (range c)) then
    let* next_cell := map_err CellError (of_result (get_reference_cloned (range c) (cell c) 0)) in
    on_gas Gas.try_consume_implicit_jmpref_gas ;;
    let* code := on_gas (Gas.load_cell_as_slice next_cell LoadMode_Full) in
    let* id := gets cp in
    jump (simple code id)
  else
    on_gas Gas.try_consume_implicit_ret_gas ;;
    ret_.

Definition out_of_gas : VM Z := count_step ;; throw_out_of_gas.

(** One turn of [run_inner]: [inl res] assigns [res], [inr code] returns at once. *)
Definition turn : VM (Z + Z) :=
  let* step_res := try_ms step in
  match step_res with
  | Ok res => ret (inl res)
  | Err e =>
      if is_out_of_gas e then let* res := out_of_gas in ret (inl res)
      else
        let exception := as_exception e in
        count_step ;;
        let* r := try_ms (throw_exception (exception_code exception)) in
        match r with
        | Ok res => ret (inl res)
        | Err e =>
            if is_out_of_gas e then let* res := out_of_gas in ret (inl res)
            else ret (inr (as_exit_code exception))
        end
  end.

(** [while res == 0]. *)
Fixpoint run_loop (fuel : nat) : VM (option (Z + Z)) :=
  match fuel with
  | O => ret None
  | S fuel =>
      let* r := turn in
      match r with
      | inl res => if res =? 0 then run_loop fuel else ret (Some (inl res))
      | inr exit_code => ret (Some (inr exit_code))
      end
  end.

(** The automatic commit after the loop. *)
Definition finish (res : Z) : VM Z :=
  if Z.lor res 1 =? -1 then
    let* committed := try_commit in
    if committed then ret res
    else
      modify (set_stack [VInt 0]) ;;
      ret (as_exit_code ExcCellOverflow)
  else ret res.

Definition run_inner (fuel : nat) : VM (option Z) :=
  let* r := run_loop fuel in
  match r with
  | None => ret None
  | Some (inr exit_code) => ret (Some exit_code)
  | Some (inl res) => let* res := finish res in ret (Some res)
  end.

(** ** Return to the parent *)

(** [stack.push(..)] on the vector: no depth check. *)
Definition vec_push (v : value) : VM unit :=
  modify (fun s => set_stack (stack s ++ [v]) s).

(** The exit code and the number of returned values. *)
Definition returned (return_values : option Z) (child_depth res : Z) : VM (Z * Z) :=
  if (res =? 0) || (res =? 1) then
    match return_values with
    | Some n =>
        if child_depth <? n then
          vec_push (VInt 0) ;;
          ret (as_exit_code ExcStackUnderflow, 0)
        else ret (res, n)
    | None => ret (res, child_depth)
    end
  else ret (res, Z.min child_depth 1).

Definition push_opt_cell (c : option Cell) : VM unit :=
  vec_push (match c with Some c => VCell c | None => VNull end).

Definition restore_values (p : ParentVmState) (s : VmState) : VmState :=
  mkState (p_code p) (throw_on_code_access s) (p_stack p) (p_cr p) (p_committed_state p)
    (steps s + p_steps p) (p_quit0 p) (p_quit1 p) (gas s) (p_cp p) (modifiers s)
    (version s) (p_parent p).

Definition or_out_of_gas (m : MS Gas.GasConsumer Error unit) : VM unit :=
  map_err (fun _ => OutOfGas) (on_gas m).

Definition restore_parent (res : Z) : VM unit :=
  let* parent := gets parent in
  match parent with
  | None => ret tt
  | Some p =>
      let* child_stack := gets stack in
      let* child_committed_state := gets committed_state in
      let* child_gas := on_gas_vm (Gas.restore (p_gas p)) in
      modify (restore_values p) ;;
      or_out_of_gas (Gas.try_consume
        (Z.min (Gas.r_gas_consumed child_gas) (sat_add_u64 (Gas.r_gas_limit child_gas) 1))) ;;
      let* (res, n) := returned (return_values p) (Stack.depth child_stack) res in
      or_out_of_gas (Gas.try_consume_stack_depth_gas n) ;;
      modify (fun s => set_stack
        (stack s ++ drop (Z.to_nat (Stack.depth child_stack - n)) child_stack) s) ;;
      vec_push (VInt res) ;;
      (if return_data p then push_opt_cell (option_map c4 child_committed_state)
       else ret tt) ;;
      (if return_actions p then push_opt_cell (option_map c5 child_committed_state)
       else ret tt) ;;
      (if return_gas p then vec_push (VInt (Gas.r_gas_consumed child_gas)) else ret tt)
  end.

(** The [loop] of [run]: [n] bounds the number of turns, [fuel] each inner loop. *)
Fixpoint run_outer (n fuel : nat) (res : Z) : VM (option Z) :=
  match n with
  | O => ret None
  | S n =>
      let* restored := try_ms (restore_parent (Z.lnot res)) in
      let* res :=
        match restored with
        | Ok _ => run_inner fuel
        | Err _ => let* res := out_of_gas in ret (Some res)
        end in
      match res with
      | None => ret None
      | Some res =>
          let* parent := gets parent in
          match parent with
          | None => ret (Some res)
          | Some _ => run_outer n fuel res
          end
      end
  end.

Definition run (n fuel : nat) : VM (option Z) :=
  let* throw := gets throw_on_code_access in
  if throw then ret (Some (exception_code ExcFatal))
  else run_outer n fuel 0.
End Run.
