(* ===== verification/GasLaws.v ===== *)
(** * Laws of gas accounting

    The invariant of a consumer, the order in which the gas operations move it
    ([gas_le]) and the functional behaviour of the operations. *)

From S2P Require Import Prelude External Cells Values VmStack VmGas.

Open Scope vm_scope.
Import Gas.

Section GasLaws.
Context `{CL : CellLib}.
Implicit Types (g : GasConsumer).

(** Gas used so far, without saturation. *)
Definition used g : Z := gas_base g - gas_remaining g.

Record gas_wf g : Prop := {
  wf_max : 0 <= gas_max g <= I64_MAX;
  wf_limit : 0 <= gas_limit g <= I64_MAX;
  wf_base : 0 <= gas_base g <= I64_MAX;
  wf_remaining : I64_MIN <= gas_remaining g <= gas_base g;
  wf_price : 1 <= gas_price g;
  wf_free : 0 <= free_gas_consumed g <= I64_MAX
}.

(** What a parent VM is charged for a child whose base is its limit. *)
Definition spent g : Z := Z.min (consumed g) (gas_limit g + 1).

(** The consumer of a child VM. *)
Definition limited g : Prop := gas_base g = gas_limit g /\ gas_limit g <= gas_max g.

(** [sane]: an instruction can start; a failed charge may leave the state insane. *)
Record sane g : Prop := { sane_wf : gas_wf g; sane_used : used g <= I64_MAX }.

(** How the instructions of one VM may move its consumer: gas is never given back, the
    limit stays below the maximum and a base above it cannot be regained. *)
Record gas_moved g g' : Prop := {
  mv_wf : gas_wf g';
  mv_max : gas_max g' = gas_max g;
  mv_used : used g <= used g';
  mv_base : gas_base g' <= Z.max (gas_base g) (gas_max g);
  mv_limited : limited g -> limited g' /\ spent g <= spent g';
  mv_limit : gas_limit g' <= Z.max (gas_limit g) (gas_max g);
  mv_credit : gas_credit g' = gas_credit g \/ gas_credit g' = 0
}.

Lemma gas_moved_refl g : gas_wf g -> gas_moved g g.
Proof. by split; try done; try lia; intros; split. Qed.

Lemma gas_moved_trans g1 g2 g3 : gas_moved g1 g2 -> gas_moved g2 g3 -> gas_moved g1 g3.
Proof.
  intros [W1 M1 U1 B1 L1] [W2 M2 U2 B2 L2]. split; try done; try congruence; try lia.
  intros L. destruct (L1 L) as [L' ?]. destruct (L2 L'). split; [done | lia].
Qed.

(** A gas operation of the VM: a charge that fails is the only error that may leave more
    used than can be counted, and then nothing remains. *)
Definition gas_ok g g' : Prop := sane g -> gas_moved g g' /\ sane g'.
Definition gas_err (e : Error) g g' : Prop :=
  sane g -> gas_moved g g' /\ (sane g' \/ e = Cancelled /\ gas_remaining g' < 0).

#[export] Instance gas_tracking : Tracking gas_ok gas_err.
Proof.
  split; [split|].
  - intros g S. split; [apply gas_moved_refl, S | done].
  - intros g1 g2 g3 H1 H2 S. destruct (H1 S) as [M1 S1]. destruct (H2 S1) as [M2 S2].
    split; [by eapply gas_moved_trans | done].
  - intros e g1 g2 g3 H1 H2 S. destruct (H1 S) as [M1 S1]. destruct (H2 S1) as [M2 S2].
    split; [by eapply gas_moved_trans | done].
Qed.

Lemma gas_err_refl e g : gas_err e g g.
Proof. intros S. split; [apply gas_moved_refl, S | by left]. Qed.

(** [consumed] is the used gas, saturated at [i64::MAX]. *)
Lemma consumed_used g : gas_wf g -> consumed g = Z.min (used g) I64_MAX.
Proof.
  intros []. unfold consumed, used, sat_sub_i64, clamp, wrap_u in *. unfold_widths.
  rewrite Z.mod_small; lia.
Qed.

Lemma consumed_range g : gas_wf g -> 0 <= consumed g <= I64_MAX.
Proof.
  intros H. rewrite consumed_used by done. destruct H. unfold used in *.
  unfold_widths. lia.
Qed.

(** Operations that only touch counters, sets and libraries. *)
Lemma gas_ok_fields g g' :
  gas_max g' = gas_max g -> gas_limit g' = gas_limit g -> gas_base g' = gas_base g ->
  gas_remaining g' = gas_remaining g -> gas_price g' = gas_price g ->
  gas_credit g' = gas_credit g ->
  (gas_wf g -> 0 <= free_gas_consumed g' <= I64_MAX) -> gas_ok g g'.
Proof.
  intros Hm Hl Hb Hr Hp Hcr Hf [W HU].
  assert (gas_wf g') as W'.
  { destruct W; split; rewrite ?Hm, ?Hl, ?Hb, ?Hr, ?Hp; try lia. apply Hf. by split. }
  assert (consumed g' = consumed g) as Hc by (unfold consumed; congruence).
  unfold used in *.
  split; split; unfold limited, spent, used in *; rewrite ?Hm, ?Hl, ?Hb, ?Hr, ?Hc; auto; lia.
Qed.

Lemma gas_ok_loaded l g : gas_ok g (set_loaded l g).
Proof. apply gas_ok_fields; try done. by intros []. Qed.

Lemma gas_ok_missing m g : gas_ok g (put_missing m g).
Proof. apply gas_ok_fields; try done. by intros []. Qed.

Lemma gas_ok_counters c f e g : (gas_wf g -> 0 <= f <= I64_MAX) -> gas_ok g (set_counters c f e g).
Proof. intros. by apply gas_ok_fields. Qed.

(** Less gas remains. *)
Lemma gas_moved_remaining r g : gas_wf g -> I64_MIN <= r <= gas_remaining g ->
  gas_moved g (set_remaining r g).
Proof.
  intros H Hr.
  assert (gas_wf (set_remaining r g)) as W by (destruct H; split; cbn; lia).
  split; try done; unfold used; cbn; try lia.
  intros L. split; [done|]. unfold spent. rewrite !consumed_used by auto.
  unfold used; cbn. lia.
Qed.
End GasLaws.

Section Consume.
Context `{CL : CellLib}.
Implicit Types (g : GasConsumer).

Lemma truncate_gas_id n : 0 <= n <= I64_MAX -> truncate_gas n = n.
Proof. intros. unfold truncate_gas. case_bool; lia. Qed.

Lemma truncate_gas_range n : 0 <= n -> 0 <= truncate_gas n <= I64_MAX.
Proof. intros. unfold truncate_gas. unfold_widths. case_bool; lia. Qed.

Lemma truncate_gas_le n : truncate_gas n <= n.
Proof. unfold truncate_gas. case_bool; lia. Qed.

(** [try_consume] succeeds exactly when the amount is there, and then takes it. *)
Lemma try_consume_ok n g : gas_wf g -> 0 <= n <= gas_remaining g ->
  try_consume n g = (Ok tt, set_remaining (gas_remaining g - n) g).
Proof.
  intros [] Hn. unfold try_consume. rewrite truncate_gas_id by lia.
  unfold sat_sub_i64. rewrite clamp_id by (unfold_widths; lia). by case_bool; [|lia].
Qed.

Lemma try_consume_inv n g g' : 0 <= n -> gas_wf g ->
  try_consume n g = (Ok tt, g') ->
  g' = set_remaining (gas_remaining g - truncate_gas n) g /\
  truncate_gas n <= gas_remaining g.
Proof.
  intros Hn W. unfold try_consume. intros [= He <-].
  pose proof (truncate_gas_range n Hn). destruct W.
  revert He. case_bool; intros; [|done]. unfold sat_sub_i64, clamp in *. unfold_widths.
  split; [f_equal|]; lia.
Qed.

Lemma try_consume_cancelled n g e g' : try_consume n g = (Err e, g') -> e = Cancelled.
Proof. unfold try_consume. case_match; congruence. Qed.

Lemma try_consume_err n g : gas_wf g -> 0 <= n -> gas_remaining g < truncate_gas n ->
  exists g', try_consume n g = (Err Cancelled, g') /\ gas_remaining g' < 0.
Proof.
  intros [] Hn Hr. unfold try_consume. eexists. split; [f_equal|cbn];
    unfold sat_sub_i64, clamp; pose proof (truncate_gas_range n Hn); unfold_widths.
  - case_bool; [lia | done].
  - lia.
Qed.

#[local] Abbreviation tracked := (tracks gas_ok gas_err (fun _ => True)).

Lemma tracked_consume n : 0 <= n -> tracked (try_consume n).
Proof.
  intros Hn g. destruct (try_consume n g) as [[[]|e] g'] eqn:Hc.
  - split; [|done]. intros [W HU]. destruct (try_consume_inv n g g' Hn W Hc) as [-> Hr].
    pose proof (truncate_gas_range n Hn).
    destruct W. split; [apply gas_moved_remaining; [by split | unfold_widths; lia]|].
    split; [split; cbn; unfold_widths; lia | unfold used; cbn; lia].
  - intros [W HU]. unfold try_consume in Hc. injection Hc as He <-. split.
    + apply gas_moved_remaining; [done|]. destruct W.
      pose proof (truncate_gas_range n Hn). unfold sat_sub_i64, clamp. unfold_widths. lia.
    + right. destruct (Z.leb_spec 0 (sat_sub_i64 (gas_remaining g) (truncate_gas n)));
        [congruence|]. split; [congruence | done].
Qed.

Lemma tracked_free n : 0 <= n -> tracked (consume_free_gas n).
Proof.
  intros Hn g. split; [|done]. apply gas_ok_counters. intros [].
  apply truncate_gas_range. unfold sat_add_u64. unfold_widths. lia.
Qed.

Lemma tracked_stack_depth_gas n : tracked (try_consume_stack_depth_gas n).
Proof.
  apply tracked_consume. unfold STACK_VALUE_GAS_PRICE, FREE_STACK_DEPTH. lia.
Qed.

Lemma tracked_stack_gas s : tracked (try_consume_stack_gas s).
Proof.
  destruct s; [apply tracked_stack_depth_gas | by apply (tracks_ret _ _)].
Qed.

Lemma tracked_tuple_gas n : 0 <= n -> tracked (try_consume_tuple_gas n).
Proof. intros. apply tracked_consume. unfold TUPLE_ENTRY_GAS_PRICE. lia. Qed.

Lemma tracked_modify f : (forall g, gas_ok g (f g)) -> tracked (modify f).
Proof. apply (tracks_modify _ _). Qed.

Lemma tracked_bind {A B} (m : GM A) (k : A -> GM B) :
  tracked m -> (forall a, tracked (k a)) -> tracked (bind m k).
Proof. intros Hm Hk. eapply (tracks_bind _ _); eauto. Qed.

Lemma tracked_raise {A} e : tracked (raise (A:=A) e).
Proof. apply tracks_raise. intros; apply gas_err_refl. Qed.

Lemma tracked_of_result {A} (r : result Error A) : tracked (of_result r).
Proof.
  intros g. destruct r; cbn; [by split|apply gas_err_refl].
Qed.

Lemma tracked_check_signature : tracked try_consume_check_signature_gas.
Proof.
  unfold try_consume_check_signature_gas.
  apply tracked_bind; [apply tracked_modify; intros g; apply gas_ok_counters; by intros []|].
  intros _. apply tracked_bind; [apply (tracks_gets _ _)|].
  intros n. case_bool; [apply tracked_consume | apply tracked_free];
    unfold CHK_SGN_GAS_PRICE; lia.
Qed.

(** Loading a cell. *)
Lemma tracked_load_turn mode k b c :
  (forall c, tracked (k c)) -> tracked (load_cell_turn try_consume mode k b c).
Proof.
  intros Hk. unfold load_cell_turn. apply tracked_bind.
  { destruct (use_gas mode); [|by apply (tracks_ret _ _)].
    apply tracked_bind; [apply (tracks_gets _ _)|]. intros is_new.
    apply tracked_bind; [apply tracked_modify; intros; apply gas_ok_loaded|].
    intros _. apply tracked_consume. unfold NEW_CELL_GAS, OLD_CELL_GAS. by destruct is_new. }
  intros _. destruct (negb (resolve mode)); [by apply (tracks_ret _ _)|].
  destruct (cell_type c); try (by apply (tracks_ret _ _)); try apply tracked_raise.
  destruct (negb b); [|apply tracked_raise].
  apply tracked_bind; [apply tracked_of_result|]. intros h.
  apply tracked_bind; [apply (tracks_gets _ _)|]. intros libs.
  apply tracked_bind; [apply tracked_of_result|]. intros [l|]; [apply Hk|].
  apply tracked_bind; [apply tracked_modify; intros; apply gas_ok_missing|].
  intros; apply tracked_raise.
Qed.

Lemma tracked_load_cell c mode : tracked (load_cell_as_slice c mode).
Proof.
  unfold load_cell_as_slice, load_cell_impl.
  apply tracked_bind; [|intros; by apply (tracks_ret _ _)].
  apply tracked_load_turn. intros c'. apply tracked_load_turn. intros; apply tracked_raise.
Qed.

Lemma tracked_load_impl c mode : tracked (load_cell_impl c mode).
Proof.
  apply tracked_load_turn. intros c'. apply tracked_load_turn. intros; apply tracked_raise.
Qed.

(** [set_limit] keeps the gas used; the [i64] addition does not overflow. *)
Lemma set_limit_fields n g : sane g -> 0 <= n ->
  let l := Z.min n (gas_max g) in
  gas_max (set_limit n g) = gas_max g /\ gas_limit (set_limit n g) = l /\
  gas_base (set_limit n g) = l /\ gas_credit (set_limit n g) = 0 /\
  gas_remaining (set_limit n g) = l - used g.
Proof.
  intros [[] HU] Hn l. unfold set_limit, set_base. cbn.
  rewrite !truncate_gas_id by (unfold l; unfold_widths; lia).
  repeat split. unfold l, used in *. unfold_widths. rewrite wrap_s_id; lia.
Qed.

Lemma gas_ok_set_limit n g : consumed g <= n -> gas_ok g (set_limit n g).
Proof.
  intros Hc S. pose proof S as [W HU]. rewrite consumed_used in Hc by done.
  assert (0 <= used g) as Hu by (destruct W; unfold used; lia).
  destruct (set_limit_fields n g S ltac:(unfold_widths; lia)) as (Hm & Hl & Hb & Hcr & Hr).
  assert (used (set_limit n g) = used g) as Hus by (unfold used; rewrite Hb, Hr; unfold used; lia).
  assert (gas_wf (set_limit n g)) as W'.
  { destruct W. split; rewrite ?Hm, ?Hl, ?Hb, ?Hr; try done; unfold_widths; lia. }
  split; [|by split; [|rewrite Hus]].
  split; rewrite ?Hm, ?Hus, ?Hb, ?Hl, ?Hcr; try done; try (destruct W; lia).
  intros [L1 L2]. split; [split; rewrite ?Hb, ?Hl, ?Hm; lia|].
  unfold spent. rewrite !consumed_used, Hus, Hl by done. destruct W. lia.
Qed.
End Consume.

Section Build.
Context `{SL : SliceLib}.

Lemma tracked_build b : tracks gas_ok gas_err (fun _ => True) (build_ext b).
Proof.
  unfold build_ext, finalize_cell.
  apply tracked_bind; [apply tracked_of_result|intros parts].
  apply tracked_bind; [apply tracked_consume; done|intros _]. apply tracked_of_result.
Qed.

Lemma tracked_missing h : tracks gas_ok gas_err (fun _ => True) (modify (put_missing h)).
Proof. apply tracked_modify. intros; apply gas_ok_missing. Qed.
End Build.
