(* ===== verification/Tracking.v ===== *)
(** * Tracking an invariant through the instructions

    [VmTracking] is the interface between the control transfer of the VM and its
    instructions: relations on states that every elementary operation of the VM
    respects.  Every instruction (but the one that starts a child VM) is proved to
    respect any such relation; Metering.v and RegTracking.v give two instances. *)

From Stdlib Require Import Ascii String.
From S2P Require Import Prelude External Cells Values VmStack VmGas VmRegs VmState GasLaws.
From S2P Require Import ArithOps CmpOps LogicOps StackOps TupleOps ContOps GasOps CellOps.

Open Scope vm_scope.

#[local] Abbreviation any := (fun _ => True).

(** ** Stack computations never panic *)

Definition not_panic {S} (e : VmError) (_ _ : S) : Prop := e <> Panic.
Definition anything {S} (_ _ : S) : Prop := True.

#[export] Instance safe_tracking {S} : Tracking (@anything S) not_panic.
Proof. by split; [split|]. Qed.

(** [safe m]: whatever the state, [m] does not panic. *)
Abbreviation safe := (tracks anything not_panic any).

(** One step of the structural proofs, for any relations. *)
Create HintDb track.

Ltac track_err := intros; try discriminate; try solve [unfold not_panic; congruence].

Ltac track_step :=
  lazymatch goal with
  | |- tracks _ _ _ (bind _ _) =>
      eapply (tracks_bind _ _ any); [| intros ? _]
  | |- tracks _ _ _ (ret _) => apply (tracks_ret _ _); exact I
  | |- tracks _ _ _ (gets _) => apply (tracks_gets _ _)
  | |- tracks _ _ _ (for_each _ _) => apply (tracks_for_each _ _); intros
  | |- tracks _ _ _ (let (_, _) := ?x in _) => destruct x
  | |- tracks _ _ _ (match ?x with _ => _ end) => destruct x
  end.

Section Safe.
Context `{CL : CellLib}.
Implicit Types (v : value).

Lemma safe_raise {S A} e : e <> Panic -> safe (raise (S:=S) (A:=A) e).
Proof. intros H. by apply tracks_raise. Qed.
Lemma safe_of_option {S A} e (o : option A) : e <> Panic -> safe (of_option (S:=S) e o).
Proof. intros H. destruct o; [by apply (tracks_ret _ _) | by apply safe_raise]. Qed.
Lemma safe_of_result {S A} (r : result VmError A) : r <> Err Panic -> safe (of_result (S:=S) r).
Proof. intros H s. destruct r; cbn; [done|]. intros ->. done. Qed.
Lemma safe_ensure {S} c e : e <> Panic -> safe (ensure (S:=S) c e).
Proof. intros H s. by destruct c. Qed.
Lemma safe_modify {S} f : safe (modify (S:=S) f).
Proof. done. Qed.

Lemma into_int_safe v : into_int v <> Err Panic.
Proof. by destruct v. Qed.
Lemma into_cont_safe v : into_cont v <> Err Panic.
Proof. by destruct v. Qed.
Lemma into_cell_safe v : into_cell v <> Err Panic.
Proof. by destruct v. Qed.
Lemma into_cell_slice_safe v : into_cell_slice v <> Err Panic.
Proof. by destruct v. Qed.
Lemma into_cell_builder_safe v : into_cell_builder v <> Err Panic.
Proof. by destruct v. Qed.
Lemma into_tuple_safe v : into_tuple v <> Err Panic.
Proof. by destruct v. Qed.
Lemma index_value_safe v i : index_stack_value_as_tuple v i <> Err Panic.
Proof. unfold index_stack_value_as_tuple. by repeat case_match. Qed.
Lemma require_nargs_safe d n : require_nargs d n <> Err Panic.
Proof. unfold require_nargs. by repeat case_match. Qed.
Lemma decode_operation_safe m t : decode_operation m t <> Err Panic.
Proof. unfold decode_operation. by repeat case_match. Qed.
Lemma round_from_args_safe m : round_from_args m <> Err Panic.
Proof. unfold round_from_args. by repeat case_match. Qed.
End Safe.

#[export] Hint Resolve into_int_safe into_cont_safe into_cell_safe into_cell_slice_safe
  into_cell_builder_safe into_tuple_safe index_value_safe require_nargs_safe
  decode_operation_safe round_from_args_safe : track.

Ltac safe_step :=
  lazymatch goal with
  | |- tracks _ _ _ (raise _) => apply safe_raise; discriminate
  | |- tracks _ _ _ (of_option _ _) => apply safe_of_option; discriminate
  | |- tracks _ _ _ (of_result _) => apply safe_of_result; auto with track
  | |- tracks _ _ _ (ensure _ _) => apply safe_ensure; discriminate
  | |- tracks _ _ _ (modify _) => apply safe_modify
  | |- _ => first [ solve [auto with track] | track_step ]
  end.
Ltac safe_tac := repeat safe_step.

Section SafeStack.
Context `{CL : CellLib}.

Lemma safe_pop : safe Stack.pop.
Proof. intros s. unfold Stack.pop. by destruct (last s). Qed.
Lemma safe_push_raw v : safe (Stack.push_raw v).
Proof. unfold Stack.push_raw. safe_tac. Qed.
#[local] Hint Resolve safe_pop safe_push_raw : track.

Lemma safe_push_int z : safe (Stack.push_int z).
Proof. apply safe_push_raw. Qed.
Lemma safe_push_nan : safe Stack.push_nan.
Proof. apply safe_push_raw. Qed.
Lemma safe_push_raw_int z q : safe (Stack.push_raw_int z q).
Proof. unfold Stack.push_raw_int, Stack.push_nan. safe_tac. Qed.
Lemma safe_push_opt v : safe (Stack.push_opt_raw v).
Proof. unfold Stack.push_opt_raw, Stack.push_null. safe_tac. Qed.
Lemma safe_push_nth i : safe (Stack.push_nth i).
Proof. unfold Stack.push_nth. safe_tac. Qed.
Lemma safe_pop_int : safe Stack.pop_int.
Proof. unfold Stack.pop_int. safe_tac. Qed.
#[local] Hint Resolve safe_pop_int : track.
Lemma safe_pop_bool : safe Stack.pop_bool.
Proof. unfold Stack.pop_bool. safe_tac. Qed.
Lemma safe_pop_int_or_nan : safe Stack.pop_int_or_nan.
Proof. unfold Stack.pop_int_or_nan. safe_tac. Qed.
Lemma safe_pop_range c lo hi : safe (Stack.pop_range c lo hi).
Proof. unfold Stack.pop_range. safe_tac. Qed.
Lemma safe_pop_smallint lo hi : safe (Stack.pop_smallint_range lo hi).
Proof. apply safe_pop_range. Qed.
Lemma safe_pop_smallint_signed lo hi : safe (Stack.pop_smallint_signed_range lo hi).
Proof. apply safe_pop_range. Qed.
Lemma safe_push_bool b : safe (Stack.push_bool b).
Proof. apply safe_push_raw. Qed.
Lemma safe_push_zero : safe Stack.push_zero.
Proof. apply safe_push_raw. Qed.
Lemma safe_push_null : safe Stack.push_null.
Proof. apply safe_push_raw. Qed.
Lemma safe_pop_long_range lo hi : safe (Stack.pop_long_range lo hi).
Proof. unfold Stack.pop_long_range. safe_tac. Qed.
Lemma safe_pop_tuple : safe Stack.pop_tuple.
Proof. unfold Stack.pop_tuple. safe_tac. Qed.
#[local] Hint Resolve safe_pop_tuple : track.
Lemma safe_pop_tuple_range lo hi : safe (Stack.pop_tuple_range lo hi).
Proof. unfold Stack.pop_tuple_range. safe_tac. Qed.
Lemma safe_pop_opt_tuple_range lo hi : safe (Stack.pop_opt_tuple_range lo hi).
Proof. unfold Stack.pop_opt_tuple_range. safe_tac. Qed.
Lemma safe_pop_cont : safe Stack.pop_cont.
Proof. unfold Stack.pop_cont. safe_tac. Qed.
Lemma safe_pop_cs : safe Stack.pop_cs.
Proof. unfold Stack.pop_cs. safe_tac. Qed.
Lemma safe_pop_cell : safe Stack.pop_cell.
Proof. unfold Stack.pop_cell. safe_tac. Qed.
Lemma safe_pop_builder : safe Stack.pop_builder.
Proof. unfold Stack.pop_builder. safe_tac. Qed.
Lemma safe_pop_cell_opt : safe Stack.pop_cell_opt.
Proof. unfold Stack.pop_cell_opt. safe_tac. Qed.
Lemma safe_cell_ok {S A} (r : result Error A) : safe (cell_ok (S:=S) r).
Proof. by destruct r. Qed.
Lemma safe_pop_many n : safe (Stack.pop_many n).
Proof. unfold Stack.pop_many. safe_tac. Qed.
Lemma safe_drop_bottom n : safe (Stack.drop_bottom n).
Proof. unfold Stack.drop_bottom. safe_tac. Qed.
Lemma safe_swap i j : safe (Stack.swap i j).
Proof. unfold Stack.swap. safe_tac. Qed.
Lemma safe_reverse_range i j : safe (Stack.reverse_range i j).
Proof. unfold Stack.reverse_range. safe_tac. Qed.
Lemma safe_split_top n : safe (Stack.split_top n).
Proof. unfold Stack.split_top. safe_tac. Qed.
Lemma safe_split_top_ext n d : safe (Stack.split_top_ext n d).
Proof. unfold Stack.split_top_ext. safe_tac. Qed.
End SafeStack.

#[export] Hint Resolve safe_pop_smallint safe_pop_smallint_signed safe_push_bool
  safe_push_zero safe_push_null safe_pop safe_push_raw safe_push_int safe_push_nan safe_push_raw_int
  safe_push_opt safe_push_nth safe_pop_int safe_pop_bool safe_pop_int_or_nan safe_pop_range
  safe_pop_long_range safe_pop_tuple safe_pop_tuple_range safe_pop_opt_tuple_range
  safe_pop_cont safe_pop_cs safe_pop_cell safe_pop_many safe_drop_bottom safe_swap
  safe_reverse_range safe_split_top safe_split_top_ext safe_pop_builder safe_pop_cell_opt
  safe_cell_ok : track.

(** ** The interface *)

Section Interface.
Context `{CL : CellLib}.

Class VmTracking (Rok : relation VmState) (Rerr : VmError -> relation VmState) : Prop := {
  vt_tracking :: Tracking Rok Rerr;
  vt_err : forall e s, e <> Panic -> Rerr e s s;
  (** Only code, stack, counters, code page or committed state change. *)
  vt_frame : forall s s',
    cr s' = cr s -> gas s' = gas s -> parent s' = parent s -> Rok s s';
  vt_gas : forall {A} (Q : A -> Prop) (m : MS Gas.GasConsumer Error A),
    tracks gas_ok gas_err Q m -> tracks Rok Rerr Q (on_gas m);
  vt_set_limit : forall n s,
    Gas.consumed (gas s) <= n -> Rok s (set_gas (Gas.set_limit n (gas s)) s);
  (** Registers. *)
  vt_put : forall i c, 0 <= i < 4 -> tracks Rok Rerr any (put_reg i (Some c));
  vt_set : forall i v, tracks Rok Rerr any (on_cr (Regs.set i v));
  vt_put_c7 : forall t, tracks Rok Rerr any (on_cr (modify (Regs.put_c7 (Some t))));
  vt_put_data : forall i c, tracks Rok Rerr any (on_cr (modify (Regs.put_data i (Some c))));
  vt_expect : forall i, 0 <= i < 4 -> tracks Rok Rerr any (expect_reg i);
  vt_invert : tracks Rok Rerr any exec_invert;
  vt_c1_save_set : tracks Rok Rerr any c1_save_set;
  (** Transfer of control. *)
  vt_jump : forall c, tracks Rok Rerr any (jump c);
  vt_jump_ext : forall c p, tracks Rok Rerr any (jump_ext c p);
  vt_call : forall c, tracks Rok Rerr any (call c);
  vt_call_ext : forall c p r, tracks Rok Rerr any (call_ext c p r);
  vt_extract : forall mode p r, save_contains mode SAVE_C2 = false ->
    tracks Rok Rerr any (extract_cc mode p r);
  vt_try : forall a, tracks Rok Rerr any (exec_try_common a)
}.
End Interface.

#[export] Hint Resolve tracked_consume tracked_stack_depth_gas tracked_stack_gas
  tracked_tuple_gas tracked_load_cell tracked_load_impl tracked_build tracked_missing : track.

Section Instructions.
Context `{CL : CellLib} (Rok : relation VmState) (Rerr : VmError -> relation VmState).
Context `{VT : !VmTracking Rok Rerr}.

#[local] Abbreviation tr := (tracks Rok Rerr any).

Lemma vt_raise {A} e : e <> Panic -> tr (raise (A:=A) e).
Proof. intros H. apply tracks_raise. intros. by apply vt_err. Qed.
Lemma vt_of_option {A} e (o : option A) : e <> Panic -> tr (of_option e o).
Proof. intros H. destruct o; [by apply (tracks_ret _ _) | by apply vt_raise]. Qed.
Lemma vt_of_result {A} (r : result VmError A) : r <> Err Panic -> tr (of_result r).
Proof.
  intros H. destruct r; [by apply (tracks_ret _ _ any)|]. apply vt_raise. congruence.
Qed.
Lemma vt_of_cell_result {A} (r : result Error A) : tr (map_err CellError (of_result r)).
Proof.
  intros s. unfold map_err, of_result. destruct r; cbn.
  - split; [reflexivity | done].
  - by apply vt_err.
Qed.
Lemma vt_ensure c e : e <> Panic -> tr (ensure c e).
Proof. intros H. destruct c; [by apply (tracks_ret _ _) | by apply vt_raise]. Qed.

Lemma vt_frame_err e s s' : e <> Panic ->
  cr s' = cr s -> gas s' = gas s -> parent s' = parent s -> Rerr e s s'.
Proof.
  intros. eapply tracking_err; [by apply vt_frame | by apply vt_err].
Qed.

Lemma vt_modify f : (forall s, cr (f s) = cr s) -> (forall s, gas (f s) = gas s) ->
  (forall s, parent (f s) = parent s) -> tr (modify f).
Proof. intros. apply (tracks_modify _ _). intros. by apply vt_frame. Qed.

Lemma vt_stack {A} (m : MS (list value) VmError A) : safe m -> tr (on_stack m).
Proof.
  intros H. apply (tracks_zoom _ _ _ _ _ _ _ _ H).
  - intros s t _. by apply vt_frame.
  - intros e s t He. by apply vt_frame_err.
Qed.

(** A popped index is not negative. *)
Lemma vt_bind_index {B} lo hi (k : Z -> VM B) : 0 <= lo ->
  (forall n, 0 <= n -> tr (k n)) ->
  tr (bind (on_stack (Stack.pop_smallint_range lo hi)) k).
Proof.
  intros Hlo Hk. eapply (tracks_bind _ _ (fun n => 0 <= n)); [|done].
  assert (tracks anything not_panic (fun n => 0 <= n) (Stack.pop_smallint_range lo hi)) as H.
  { unfold Stack.pop_smallint_range, Stack.pop_range.
    eapply (tracks_bind _ _ any); [apply safe_pop_int|]. intros z _.
    destruct (to_u32 z); [|by apply tracks_raise].
    destruct (_ && _) eqn:Hc; [|by apply tracks_raise].
    apply (tracks_ret _ _). zify_bool. lia. }
  apply (tracks_zoom _ _ _ _ _ _ _ _ H).
  - intros s t _. by apply vt_frame.
  - intros e s t He. by apply vt_frame_err.
Qed.
End Instructions.

(** Structural proofs at the level of the VM. *)
Ltac vm_step_tac :=
  lazymatch goal with
  | |- tracks _ _ _ (bind (on_stack (Stack.pop_smallint_range _ _)) _) =>
      apply vt_bind_index; [try apply _ | lia | intros ? ?]
  | |- tracks _ _ _ (on_stack _) => apply vt_stack; [try apply _ | safe_tac]
  | |- tracks _ _ _ (on_gas (match ?x with _ => _ end)) => destruct x
  | |- tracks _ _ _ (on_gas _) =>
      apply vt_gas; solve [auto with track | apply tracked_consume; done
                           | apply tracked_consume; lia | apply tracked_tuple_gas; lia ]
  | |- tracks _ _ _ (raise _) => apply vt_raise; [apply _ | discriminate]
  | |- tracks _ _ _ (of_option _ _) => apply vt_of_option; [apply _ | discriminate]
  | |- tracks _ _ _ (of_result _) => apply vt_of_result; [apply _ | auto with track]
  | |- tracks _ _ _ (map_err CellError (of_result _)) => apply vt_of_cell_result; apply _
  | |- tracks _ _ _ (cell_ok _) => apply vt_of_cell_result; apply _
  | |- tracks _ _ _ (ensure _ _) => apply vt_ensure; [apply _ | discriminate]
  | |- tracks _ _ _ (modify _) =>
      apply vt_modify; [apply _ | by intros ?; repeat case_match ..]
  | |- tracks _ _ _ (put_reg _ (Some _)) => apply vt_put; lia
  | |- tracks _ _ _ (on_cr (Regs.set _ _)) => apply vt_set
  | |- tracks _ _ _ (on_cr (modify (Regs.put_c7 (Some _)))) => apply vt_put_c7
  | |- tracks _ _ _ (on_cr (modify (Regs.put_data _ (Some _)))) => apply vt_put_data
  | |- tracks _ _ _ (jump _) => apply vt_jump
  | |- tracks _ _ _ (jump_ext _ _) => apply vt_jump_ext
  | |- tracks _ _ _ (call _) => apply vt_call
  | |- tracks _ _ _ (call_ext _ _ _) => apply vt_call_ext
  | |- tracks _ _ _ (extract_cc _ _ _) => apply vt_extract; reflexivity
  | |- tracks _ _ _ (expect_reg _) => apply vt_expect; lia
  | |- _ => first [ solve [auto with track] | track_step ]
  end.
Ltac vm_tac := repeat vm_step_tac.

Section Operations.
Context `{CL : CellLib} (Rok : relation VmState) (Rerr : VmError -> relation VmState).
Context `{VT : !VmTracking Rok Rerr}.

#[local] Abbreviation tr := (tracks Rok Rerr any).

(** *** Building blocks *)

Lemma tr_ret_ : tr ret_.
Proof. unfold ret_, take_c0, get_reg. vm_tac. Qed.
Lemma tr_ret_ext r : tr (ret_ext r).
Proof. unfold ret_ext, take_c0, get_reg. vm_tac. Qed.
Lemma tr_ret_alt : tr ret_alt.
Proof. unfold ret_alt, take_c1, get_reg. vm_tac. Qed.
Lemma tr_c1_envelope_if b c s : tr (c1_envelope_if b c s).
Proof. unfold c1_envelope_if, c1_envelope. vm_tac. Qed.
Lemma tr_repeat b a n : tr (repeat b a n).
Proof. unfold repeat. vm_tac. Qed.
Lemma tr_until b a : tr (until b a).
Proof. unfold until. vm_tac. Qed.
Lemma tr_while c b a : tr (loop_while c b a).
Proof. unfold loop_while. vm_tac. Qed.
Lemma tr_again b : tr (again b).
Proof. unfold again. vm_tac. Qed.
Lemma tr_throw_arg n v : tr (throw_exception_with_arg n v).
Proof.
  unfold throw_exception_with_arg, get_reg, Gas.try_consume_exception_gas,
    Gas.EXCEPTION_GAS_PRICE. vm_tac.
Qed.
Lemma tr_throw n : tr (throw_exception n).
Proof. apply tr_throw_arg. Qed.
Lemma tr_ref_to_cont c : tr (ref_to_cont c).
Proof. unfold ref_to_cont. vm_tac. Qed.
Lemma tr_code_skip b r : tr (code_skip b r).
Proof. unfold code_skip. vm_tac. Qed.
Lemma tr_require_ton n : tr (require_ton n).
Proof. unfold require_ton. vm_tac. Qed.
Lemma tr_force_cp n : tr (force_cp n).
Proof. unfold force_cp. vm_tac. Qed.

Lemma tr_move_args n st : tr (move_args n st).
Proof.
  intros s. unfold move_args, Stack.move_from_stack.
  destruct (checked_sub_u _ _); [split; [by apply vt_frame | done] | by apply (vt_frame_err Rok Rerr)].
Qed.

Lemma tr_try_commit : tr try_commit.
Proof.
  intros s. unfold try_commit. repeat case_match; simplify_eq; split; try done; by apply vt_frame.
Qed.

(** *** Instructions that are not structural *)

Lemma tr_stack_fee n : tr (stack_fee n).
Proof.
  unfold stack_fee, checked_sub_u. case_bool; cbn [bool_decide]; vm_tac.
Qed.

Lemma set_index_quiet_nonneg t i x n t' : 0 <= i -> set_index_quiet t i x = (n, t') -> 0 <= n.
Proof. intros Hi. unfold set_index_quiet. repeat case_match; intros [= <- <-]; lia. Qed.

Lemma tr_set_index_quiet i : 0 <= i -> tr (tuple_set_index_quiet_impl i).
Proof.
  intros Hi. unfold tuple_set_index_quiet_impl, tuple_gas, done_.
  do 3 (eapply (tracks_bind _ _ any); [vm_tac|intros ? _]).
  destruct (set_index_quiet _ _ _) as [n t] eqn:Hs.
  apply set_index_quiet_nonneg in Hs; [|done]. vm_tac.
Qed.

(** A tuple in the range [1..] has a last element: its [expect] cannot fail. *)
Lemma safe_pop_nonempty {A} hi (k : Tuple -> MS (list value) VmError A) :
  (forall t x, last t = Some x -> safe (k t)) ->
  safe (bind (Stack.pop_tuple_range 1 hi) k).
Proof.
  intros Hk. eapply (tracks_bind _ _ (fun t => is_Some (last t))).
  - unfold Stack.pop_tuple_range. eapply (tracks_bind _ _ any); [apply safe_pop_tuple|].
    intros t _. eapply (tracks_bind _ _ (fun _ => in_len_range 1 hi t = true)).
    + by apply (tracks_ensure _ _).
    + intros _ Hr. apply (tracks_ret _ _). unfold in_len_range in Hr. zify_bool.
      destruct t; cbn in *; [lia|]. rewrite last_cons. destruct (last t); eauto.
  - intros t [x Hx]. by eapply Hk.
Qed.

Lemma tr_tuple_last : tr exec_tuple_last.
Proof.
  unfold exec_tuple_last, done_. eapply (tracks_bind _ _ any); [|intros; vm_tac].
  apply vt_stack; [apply _|]. apply safe_pop_nonempty. intros t x ->. cbn. safe_tac.
Qed.

Lemma tr_tuple_pop : tr exec_tuple_pop.
Proof.
  unfold exec_tuple_pop, tuple_gas, done_.
  eapply (tracks_bind _ _ (fun t => is_Some (last t))).
  - assert (safe (bind (Stack.pop_tuple_range 1 255) (fun t => of_option Panic (last t) ;; ret t)))
      as Hs by (apply safe_pop_nonempty; intros t x ->; cbn; safe_tac).
    intros s. unfold on_stack, zoom. specialize (Hs (stack s)). unfold bind in Hs.
    destruct (Stack.pop_tuple_range 1 255 (stack s)) as [[t|e] l] eqn:Hp.
    + split; [by apply vt_frame|]. destruct (last t); [by eexists|].
      by exfalso; apply Hs.
    + by apply (vt_frame_err Rok Rerr).
  - intros t [x ->]. cbn [of_option]. vm_tac.
Qed.

Lemma safe_push_nth_times n j : safe (push_nth_times n j).
Proof. induction n; cbn [push_nth_times]; safe_tac. Qed.
Lemma safe_roll_loop n : safe (roll_loop n).
Proof. induction n; cbn [roll_loop]; safe_tac. Qed.

Lemma define_in_safe i v c : (define_in i v c).1 <> Err Panic.
Proof.
  assert (safe (Regs.define i v)) as H by (unfold Regs.define; safe_tac).
  unfold define_in. specialize (H (save (cdata (force_cdata c)))).
  destruct (Regs.define _ _ _) as [[[]|e] r]; cbn; [done|]. unfold not_panic in H. congruence.
Qed.

Lemma tr_bind_define {A} i v c (k : cont -> VM A) :
  (forall c, tr (k c)) ->
  tr (let (res, c) := define_in i v c in of_result res ;; k c).
Proof.
  intros Hk. pose proof (define_in_safe i v c). destruct (define_in i v c) as [r c'].
  eapply (tracks_bind _ _ any); [by apply vt_of_result | auto].
Qed.

Lemma tr_define_in_reg reg c i v : 0 <= reg < 4 -> tr (define_in_reg reg c i v).
Proof.
  intros Hr. unfold define_in_reg. pose proof (define_in_safe i v c).
  destruct (define_in i v c) as [r c'].
  eapply (tracks_bind _ _ any); [by apply vt_put | intros _ _; by apply vt_of_result].
Qed.

Lemma tr_define_many x l c : tr (define_many x l c).
Proof.
  revert c. induction l as [|i l IH]; intros c; cbn [define_many]; [vm_tac|].
  case_bool; [apply IH|]. do 2 (eapply (tracks_bind _ _ any); [vm_tac|intros ? _]).
  apply tr_bind_define, IH.
Qed.

Lemma move_from_stack_safe n p : (Stack.move_from_stack n p).1 <> Err Panic.
Proof. unfold Stack.move_from_stack. destruct p. by destruct (checked_sub_u _ _). Qed.

Lemma tr_return_args n : tr (exec_return_args_common n).
Proof.
  unfold exec_return_args_common.
  eapply (tracks_bind _ _ any); [vm_tac|intros d _]. case_bool; [vm_tac|].
  case_bool; [vm_tac|].
  do 6 (eapply (tracks_bind _ _ any); [vm_tac|intros ? _]).
  eapply (tracks_bind _ _ any); [|intros; vm_tac].
  destruct (cd_stack _) as [st|]; [|vm_tac].
  match goal with |- context [Stack.move_from_stack ?n ?p] =>
    pose proof (move_from_stack_safe n p); destruct (Stack.move_from_stack n p) as [[] []] end;
    cbn in *; [vm_tac|]. apply vt_raise; [apply _ | congruence].
Qed.

Lemma tr_set_gas n : tr (exec_set_gas n).
Proof.
  assert (tr (let* m := gets modifiers in
              if stop_on_accept m then jump (QuitCont 0) else ret 0)) as Hk by vm_tac.
  intros s. unfold exec_set_gas. rewrite (bind_ok _ _ s (gas s) s) by done.
  destruct (Z.leb_spec (Gas.consumed (gas s)) n) as [Hle|Hgt];
    [|rewrite (bind_err _ _ s OutOfGas s) by done; by apply vt_err].
  rewrite (bind_ok _ _ s tt s) by done.
  rewrite (bind_ok _ _ s tt (set_gas (Gas.set_limit n (gas s)) s)) by done.
  specialize (Hk (set_gas (Gas.set_limit n (gas s)) s)).
  destruct (bind _ _ _) as [[] s'].
  - destruct Hk as [H _]. split; [|done].
    etransitivity; [by apply (vt_set_limit n) | exact H].
  - eapply tracking_err; [by apply (vt_set_limit n) | exact Hk].
Qed.
End Operations.

#[export] Hint Resolve tr_ret_ tr_ret_ext tr_ret_alt tr_c1_envelope_if tr_repeat tr_until
  tr_while tr_again tr_throw_arg tr_throw tr_ref_to_cont tr_code_skip tr_require_ton
  tr_force_cp tr_move_args tr_try_commit tr_stack_fee tr_set_index_quiet tr_tuple_last
  tr_tuple_pop safe_push_nth_times safe_roll_loop tr_define_many tr_return_args tr_set_gas
  tr_bind_define vt_invert vt_c1_save_set vt_try : track.
#[export] Hint Extern 2 (tracks _ _ _ (define_in_reg _ _ _ _)) =>
  apply tr_define_in_reg; [apply _ | lia] : track.
#[export] Hint Extern 1 (VmTracking _ _) => typeclasses eauto : track.
