(* ===== verification/ModuleTracking.v ===== *)
(** * The instructions on dictionaries, the configuration, messages and hashes

    Their building blocks respect the interface of Tracking.v: whatever program the
    dictionary library runs over the gas consumer, it only spends gas; the limited
    consumer spends within its threshold; and the [unwrap]s of the handlers cannot fail. *)

From S2P Require Import Prelude External Cells Values VmStack VmGas VmRegs VmState GasLaws.
From S2P Require Import ArithOps CellOps Dicts DictOps Models SmcInfo CurrencyOps RandOps CryptOps.
From S2P Require Import SizeOps ConfigOps MessageOps Tracking.

Open Scope vm_scope.

#[local] Abbreviation any := (fun _ => True).

(** ** Gas *)

Section Gas.
Context `{SL : SliceLib}.
Import Gas.

#[local] Abbreviation tracked := (tracks gas_ok gas_err any).

Lemma tracked_load_gas {A} (p : LoadProg A) : tracked (load_gas p).
Proof.
  induction p as [r|c mode k IH]; cbn [load_gas]; [apply tracked_of_result|].
  apply tracked_bind; [apply tracked_load_impl | done].
Qed.

Lemma tracked_finalize parts : tracked (finalize_cell parts).
Proof. apply tracked_bind; [by apply tracked_consume | intros _; apply tracked_of_result]. Qed.

Lemma tracked_with_gas {A} (p : CellProg A) : tracked (with_gas p).
Proof.
  induction p as [r|c mode k IH|parts k IH]; cbn [with_gas]; [apply tracked_of_result|..];
    (apply tracked_bind; [|done]); [apply tracked_load_impl | apply tracked_finalize].
Qed.

(** The limited consumer keeps a threshold that is not negative. *)
Definition limited_ok (l l' : LimitedGasConsumer) : Prop :=
  0 <= remaining l -> gas_ok (main_gas l) (main_gas l') /\ 0 <= remaining l'.
Definition limited_err (e : Error) (l l' : LimitedGasConsumer) : Prop :=
  0 <= remaining l -> gas_err e (main_gas l) (main_gas l').

#[local] Instance limited_tracking : Tracking limited_ok limited_err.
Proof.
  split; [split|].
  - intros l H. split; [reflexivity | done].
  - intros l1 l2 l3 H1 H2 H. destruct (H1 H) as [G1 R1]. destruct (H2 R1) as [G2 R2].
    split; [by etransitivity | done].
  - intros e l1 l2 l3 H1 H2 H. destruct (H1 H) as [G1 R1]. eapply tracking_err; [exact G1 | by apply H2].
Qed.

#[local] Abbreviation ltracked := (tracks limited_ok limited_err any).

Lemma limited_consume n : 0 <= n -> ltracked (limited_try_consume n).
Proof.
  intros Hn l. unfold limited_try_consume, limited_ok, limited_err.
  pose proof (truncate_gas_range n Hn) as Ht. set (m := Z.min (truncate_gas n) (remaining l)).
  destruct (Z.le_gt_cases 0 (remaining l)) as [Hr|Hr]; [|destruct (try_consume m (main_gas l)) as [[]];
    [case_bool|]; cbn; try split; try done; lia].
  pose proof (tracked_consume m ltac:(lia) (main_gas l)) as Hc.
  destruct (try_consume m (main_gas l)) as [[[]|e] g]; [|by cbn]. destruct Hc as [Hc _].
  case_bool; (split; [intros _; cbn; split; [|lia]|done]); [|done].
  etransitivity; [exact Hc|]. apply gas_ok_counters. intros [].
  apply truncate_gas_range. unfold sat_add_u64. unfold_widths. lia.
Qed.

Lemma limited_on_main {A} (m : GM A) : tracked m -> ltracked (on_main m).
Proof.
  intros H. apply (tracks_zoom _ _ _ _ _ _ _ _ H).
  - intros l g Hg Hr. by split.
  - intros e l g Hg Hr. exact Hg.
Qed.

Lemma limited_load_tracked mode k b c :
  (forall c, ltracked (k c)) -> ltracked (limited_load_turn mode k b c).
Proof.
  intros Hk. unfold limited_load_turn. eapply (tracks_bind _ _ any).
  { destruct (use_gas mode); [|by apply (tracks_ret _ _)].
    eapply (tracks_bind _ _ any); [apply limited_on_main, (tracks_gets _ _)|]. intros is_new _.
    eapply (tracks_bind _ _ any); [apply limited_on_main, tracked_modify; intros; apply gas_ok_loaded|].
    intros _ _. apply limited_consume. unfold NEW_CELL_GAS, OLD_CELL_GAS. by destruct is_new. }
  intros _ _. destruct (negb (resolve mode)); [by apply (tracks_ret _ _)|].
  assert (forall e, ltracked (raise (A:=Cell) e)) as Hraise
    by (intros e; apply tracks_raise; intros l _; apply gas_err_refl).
  assert (forall A (r : result Error A), ltracked (of_result r)) as Hres
    by (intros A r l; destruct r; cbn; [split; [reflexivity|done] | intros _; apply gas_err_refl]).
  destruct (cell_type c); try (by apply (tracks_ret _ _)); try apply Hraise.
  destruct (negb b); [|apply Hraise].
  eapply (tracks_bind _ _ any); [apply Hres|]. intros h _.
  eapply (tracks_bind _ _ any); [apply limited_on_main, (tracks_gets _ _)|]. intros libs _.
  eapply (tracks_bind _ _ any); [apply Hres|]. intros [l|] _; [apply Hk|].
  eapply (tracks_bind _ _ any); [apply limited_on_main, tracked_modify; intros; apply gas_ok_missing|].
  intros; apply Hraise.
Qed.

Lemma limited_prog_tracked {A} (p : LoadProg A) : ltracked (load_limited p).
Proof.
  induction p as [r|c mode k IH]; cbn [load_limited].
  - intros l; destruct r; cbn; [split; [reflexivity|done] | intros _; apply gas_err_refl].
  - eapply (tracks_bind _ _ any); [|intros; apply IH].
    apply limited_load_tracked. intros c'. apply limited_load_tracked.
    intros; apply tracks_raise; intros l _; apply gas_err_refl.
Qed.

Lemma tracked_extra_balance {A} (p : LoadProg A) : tracked (get_extra_balance p).
Proof.
  unfold get_extra_balance.
  eapply (tracks_bind _ _ (fun o => match o with Some t => 0 <= t | None => True end)).
  - unfold try_get_extra_balance_consumer.
    eapply (tracks_bind _ _ any); [apply tracked_modify; intros; apply gas_ok_counters; by intros []|].
    intros _ _. eapply (tracks_bind _ _ any); [apply (tracks_gets _ _)|]. intros n _.
    case_bool; by apply (tracks_ret _ _).
  - intros [t|] Ht; [|apply tracked_load_gas]. intros g. unfold cheaply.
    pose proof (limited_prog_tracked p (mkLimited g t)) as H.
    destruct (load_limited p _) as [[] l]; [by split; [apply H|] | by apply H].
Qed.

(** Trees, new cells and signatures. *)
Lemma tracked_iter {A B} (body : A -> GM (A + B)) : (forall a, tracked (body a)) ->
  forall n a, tracked (iter_pos n body a).
Proof.
  intros Hb n. induction n as [n IH|n IH|]; intros a; cbn [iter_pos].
  - apply tracked_bind; [apply Hb|]. intros r. apply tracked_bind.
    + destruct r; [apply IH | by apply (tracks_ret _ _)].
    + intros []; [apply IH | by apply (tracks_ret _ _)].
  - apply tracked_bind; [apply IH|]. intros []; [apply IH | by apply (tracks_ret _ _)].
  - apply Hb.
Qed.

Lemma tracked_reduce st : tracked (reduce_stack st).
Proof.
  unfold reduce_stack. apply tracked_bind.
  - apply tracked_iter. clear st. intros st. unfold reduce_turn.
    repeat case_match; try by apply (tracks_ret _ _).
    all: apply tracked_bind; [apply tracked_load_impl|intros; by apply (tracks_ret _ _)].
  - intros []; [apply tracked_raise | by apply (tracks_ret _ _)].
Qed.

Lemma tracked_add_slice cs st : tracked (ext_add_slice cs st).
Proof. apply tracked_reduce. Qed.
Lemma tracked_add_cell c st : tracked (ext_add_cell c st).
Proof.
  unfold ext_add_cell. repeat case_match; try by apply (tracks_ret _ _).
  apply tracked_bind; [apply tracked_load_impl | intros; apply tracked_reduce].
Qed.

Lemma tracked_build_slice cs : tracked (build_from_slice_ext cs).
Proof. apply tracked_bind; [apply tracked_of_result | intros; apply tracked_build]. Qed.

Lemma tracked_rewrite var addr pfx : tracked (rewrite_addr_value var addr pfx).
Proof.
  unfold rewrite_addr_value, rewrite_addr_var.
  destruct var; (apply tracked_bind; [|intros; by apply (tracks_ret _ _)]);
    [|apply tracked_of_result].
  destruct pfx as [pfx|]; [|by apply (tracks_ret _ _)].
  case_bool; [by apply (tracks_ret _ _)|].
  do 3 (apply tracked_bind; [apply tracked_of_result|intros]).
  apply tracked_bind; [apply tracked_build|intros].
  apply tracked_bind; [apply tracked_load_impl | intros; by apply (tracks_ret _ _)].
Qed.
End Gas.

Section Actions.
Context `{ML : ModelLib}.

Lemma tracked_action c5 a : tracks gas_ok gas_err any (build_action c5 a).
Proof.
  do 2 (apply tracked_bind; [apply tracked_of_result|intros]). apply tracked_build.
Qed.
End Actions.

#[export] Hint Resolve tracked_load_gas tracked_with_gas tracked_extra_balance tracked_add_slice
  tracked_add_cell tracked_build_slice tracked_action tracked_check_signature : track.

(** ** Results that are never a panic *)

(** Follows the matches of a function on results. *)
Ltac no_panic :=
  repeat first
    [ discriminate | congruence | solve [auto with track]
    | match goal with
      | |- match ?m with Ok _ => _ | Err _ => _ end <> _ =>
          first [ let H := fresh in assert (H : m <> Err Panic) by no_panic; destruct m; [clear H|congruence]
                | destruct m ]
      | |- match ?m with _ => _ end <> _ => destruct m
      end ].

Section Results.
Context `{ML : ModelLib}.

Lemma extract_value_safe cs is_ref : extract_value_ref cs is_ref <> Err Panic.
Proof. unfold extract_value_ref, to_value_ref. no_panic. Qed.
Lemma to_value_safe cs : to_value_ref cs <> Err Panic.
Proof. apply (extract_value_safe cs true). Qed.
Lemma transpose_safe {A B} (f : A -> result VmError B) o :
  (forall a, f a <> Err Panic) -> transpose f o <> Err Panic.
Proof. intros H. destruct o as [a|]; cbn; [|done]. specialize (H a). destruct (f a); congruence. Qed.
Lemma extract_found_safe {A} is_ref (p : A * OwnedCellSlice) :
  (let? v := extract_value_ref p.2 is_ref in Ok (p.1, v)) <> Err (E := VmError) (A := A * value) Panic.
Proof. pose proof (extract_value_safe p.2 is_ref). no_panic. Qed.

Lemma try_get_safe t i : try_get t i <> Err Panic.
Proof. unfold try_get. no_panic. Qed.
Lemma tuple_range_safe t i lo hi : try_get_tuple_range t i lo hi <> Err Panic.
Proof. unfold try_get_tuple_range. pose proof (try_get_safe t i). no_panic. Qed.
Lemma c7_params_safe r : Regs.get_c7_params r <> Err Panic.
Proof. unfold Regs.get_c7_params. case_match; [apply tuple_range_safe | done]. Qed.

Lemma try_get_ref_safe {A} (f : value -> result VmError A) t i :
  (forall v, f v <> Err Panic) -> try_get_ref f t i <> Err Panic.
Proof.
  intros H. unfold try_get_ref. pose proof (try_get_safe t (Z.of_nat i)).
  destruct (try_get _ _); [auto | congruence].
Qed.
Lemma try_get_int_safe t i : try_get_int t i <> Err Panic.
Proof. apply try_get_ref_safe. by intros []. Qed.
Lemma try_get_cell_safe t i : try_get_cell t i <> Err Panic.
Proof. apply try_get_ref_safe, into_cell_safe. Qed.
Lemma try_get_slice_safe t i : try_get_slice t i <> Err Panic.
Proof. apply try_get_ref_safe, into_cell_slice_safe. Qed.
Lemma try_get_tuple_safe t i : try_get_tuple t i <> Err Panic.
Proof. apply try_get_ref_safe, into_tuple_safe. Qed.

Lemma tokens_safe z : bigint_to_tokens z <> Err Panic.
Proof. unfold bigint_to_tokens. no_panic. Qed.
Lemma bit_len_safe z : tokens_bit_len z <> Err Panic.
Proof. unfold tokens_bit_len. no_panic. Qed.
Lemma workchain_safe a : parse_addr_workchain a <> Err Panic.
Proof. unfold parse_addr_workchain. no_panic. Qed.
End Results.

#[export] Hint Resolve extract_value_safe extract_found_safe to_value_safe transpose_safe try_get_safe
  tuple_range_safe c7_params_safe try_get_int_safe try_get_cell_safe try_get_slice_safe
  try_get_tuple_safe tokens_safe bit_len_safe workchain_safe : track.

Section MessageResults.
Context `{ML : ModelLib}.

Lemma outgoing_safe c v x : outgoing_value c v x <> Err Panic.
Proof. unfold outgoing_value. no_panic. Qed.
Lemma info_bits_safe c p v f : info_bits c p v f <> Err Panic.
Proof. unfold info_bits. destruct f. no_panic. Qed.
#[local] Hint Resolve info_bits_safe : track.
Lemma overfull_safe c p v x l f : overfull c p v x l f <> Err Panic.
Proof. unfold overfull, root_bits. no_panic. Qed.
#[local] Hint Resolve overfull_safe : track.
Lemma message_fee_safe c p v x l st : message_fee c p v x l st <> Err Panic.
Proof.
  unfold message_fee. assert (place_init c p v x l st <> Err Panic) by (unfold place_init; no_panic).
  destruct (place_init _ _ _ _ _ _) as [[l' st']|]; [|congruence].
  assert (place_body c p v x l' st' <> Err Panic) by (unfold place_body; no_panic).
  destruct (place_body _ _ _ _ _ _); [by destruct (compute_fees _ _ _) | congruence].
Qed.
End MessageResults.
#[export] Hint Resolve outgoing_safe message_fee_safe : track.

Section RandResults.
Context `{SL : SliceLib} `{CrL : CryptoLib}.

Lemma c7_info_safe r : c7_info r <> Err Panic.
Proof. unfold c7_info. no_panic. Qed.
Lemma seed_safe t : seed_bytes t <> Err Panic.
Proof. unfold seed_bytes, to_bytes_be. no_panic. Qed.
#[local] Hint Resolve seed_safe : track.
Lemma mixed_safe b t z : mixed_seed b t z <> Err Panic.
Proof. unfold mixed_seed, to_bytes_be. no_panic. Qed.
Lemma fetch_safe i st : (Stack.fetch i st).1 <> Err Panic.
Proof.
  unfold Stack.fetch, bind, gets, ensure, raise, ret. cbn. by repeat case_match; simplify_eq/=.
Qed.
Lemma data_slice_safe r i st : get_data_slice r i st <> Err Panic.
Proof.
  unfold get_data_slice. set (j := if _ : bool then _ else _). pose proof (fetch_safe j st).
  destruct (Stack.fetch j st) as [[[]|] ]; cbn in *; congruence.
Qed.
End RandResults.
#[export] Hint Resolve c7_info_safe seed_safe mixed_safe data_slice_safe : track.

(** ** The instructions that are not structural *)

Section Vm.
Context `{ML : ModelLib} {DL : DictLib} `{CrL : CryptoLib}.
Context (Rok : relation VmState) (Rerr : VmError -> relation VmState).
Context `{VT : !VmTracking Rok Rerr}.

#[local] Abbreviation tr := (tracks Rok Rerr any).

Lemma tr_add_action a : tr (add_action a).
Proof.
  unfold add_action. do 3 (eapply (tracks_bind _ _ any); [vm_tac|]; intros ? _).
  eapply (tracks_bind _ _ any); [|intros; vm_tac].
  match goal with |- context [Regs.set_d _ ?c _] =>
    change (tr (on_cr (modify (Regs.put_data 1 (Some c))))) end.
  apply vt_put_data.
Qed.
#[local] Hint Resolve tr_add_action : track.
Lemma tr_send_raw mode c : tr (send_raw mode c).
Proof. unfold send_raw. vm_tac. Qed.

Lemma set_global_None old i v n : set_global old i v = (None, n) -> old = None.
Proof. unfold set_global. destruct old; repeat case_match; by intros [= <-]. Qed.

Lemma tr_set_global i : tr (set_global_common i).
Proof.
  unfold set_global_common. eapply (tracks_bind _ _ any); [vm_tac|]. intros v _.
  eapply (tracks_bind _ _ any); [vm_tac|]. intros _ _ s.
  rewrite (bind_ok _ _ s (c7 (cr s)) s) by done.
  destruct (set_global _ _ v) as [t n] eqn:Hg. revert s Hg.
  assert (forall s, c7 (cr s) = None -> set_global None (Z.to_nat i) v = (None, n) ->
    Rok s (set_cr (Regs.put_c7 None (cr s)) s)) as Hn.
  { intros s Hs _. apply vt_frame; [|done..]. cbn. unfold Regs.put_c7. destruct (cr s); cbn in *. by rewrite Hs. }
  assert (tr (on_gas (Gas.try_consume_tuple_gas (Z.of_nat n)) ;; ret 0)) as Ht by vm_tac.
  intros s Hg. destruct t as [t|].
  - assert (tr (on_cr (modify (Regs.put_c7 (Some t))) ;;
                on_gas (Gas.try_consume_tuple_gas (Z.of_nat n)) ;; ret 0)) as H by vm_tac. apply H.
  - pose proof (set_global_None _ _ _ _ Hg) as Hc. rewrite Hc in Hg. specialize (Hn s Hc Hg).
    rewrite (bind_ok _ _ s tt (set_cr (Regs.put_c7 None (cr s)) s)) by done.
    specialize (Ht (set_cr (Regs.put_c7 None (cr s)) s)).
    destruct (bind _ _ _) as [[] s'].
    + destruct Ht as [Ht _]. split; [|done]. etransitivity; [exact Hn | exact Ht].
    + eapply tracking_err; [exact Hn | exact Ht].
Qed.

Lemma tr_store_info c t : tr (store_info c t).
Proof. unfold store_info. vm_tac. Qed.

(** *** The hash reader *)

(** What has been paid for is not more than what has been read. *)
Definition reader_ok (b : Z) (r : HashInputReader) : Prop :=
  0 <= index r /\ 0 <= total_bits r /\ gas_consumed r <= index r + total_bits r / 8 / b.

Lemma load_bytes_fields r data bytes r' : load_bytes r data = Ok (bytes, r') ->
  index r' = index r /\ gas_consumed r' = gas_consumed r /\
  total_bits r' = total_bits r + slice_bits data.
Proof. unfold load_bytes, load_rest. repeat case_match; intros; simplify_eq; done. Qed.

Lemma tr_load_next `{CLaws : !CellLaws} b n r : 0 < b -> reader_ok b r ->
  tracks Rok Rerr (fun p => reader_ok b p.2) (load_next b n r).
Proof.
  intros Hb. revert r. induction n as [|n IH]; intros r Hr; cbn [load_next].
  - eapply (tracks_bind _ _ any); [vm_tac|]. intros _ _. by apply (tracks_ret _ _).
  - do 2 (eapply (tracks_bind _ _ any); [vm_tac|]; intros ? _).
    assert (tracks Rok Rerr (fun p => load_bytes r a0 = Ok p) (cell_ok (load_bytes r a0))) as Hl.
    { intros s. unfold cell_ok, map_err, of_result.
      destruct (load_bytes r a0); cbn; [split; [reflexivity|done] | by apply vt_err]. }
    eapply (tracks_bind _ _ _ _ _ _ Hl). intros [bytes r'] He.
    destruct (load_bytes_fields _ _ _ _ He) as (Hi & Hg & Ht). destruct Hr as (H1 & H2 & H3).
    pose proof (size_bits_nonneg (range a0)) as Hs. unfold slice_bits in *.
    assert (total_bits r / 8 / b <= total_bits r' / 8 / b) as Hm.
    { apply Z.div_le_mono; [done|]. apply Z.div_le_mono; lia. }
    assert (0 <= total_bits r' / 8 / b) by (apply Z.div_pos; [apply Z.div_pos|]; lia).
    unfold HASH_EXT_ENTRY_GAS_PRICE.
    eapply (tracks_bind _ _ any); [vm_tac|]. intros _ _.
    assert (reader_ok b (next_index ((index r' + 1) * 1 + total_bits r' / 8 / b) r')) as Hok
      by (unfold reader_ok, next_index; cbn; lia).
    destruct bytes; [by apply IH | by apply (tracks_ret _ _)].
Qed.

Lemma tr_compute_hash `{CLaws : !CellLaws} i n rev_order : tr (compute_hash_ext i n rev_order).
Proof.
  unfold compute_hash_ext. destruct (hash_function i) as [[b digest]|] eqn:Hf; [|vm_tac].
  assert (0 < b) as Hb by (unfold hash_function in Hf; repeat case_match; simplify_eq; done).
  eapply (tracks_bind _ _ any); [|intros; vm_tac].
  assert (forall fuel r input, reader_ok b r -> tr (hash_input b fuel r input)) as H.
  { intros fuel. induction fuel as [|fuel IH]; intros r input Hr; cbn [hash_input]; [vm_tac|].
    eapply (tracks_bind _ _ (fun p => reader_ok b p.2)); [by apply tr_load_next|].
    intros [[bytes|] r'] Hr'; [by apply IH | vm_tac]. }
  apply H. unfold reader_ok. cbn. by rewrite !Z.div_0_l by lia.
Qed.

(** *** The [unwrap]s *)

Lemma config_key_ok `{SLaws : !SliceLaws} id : 0 <= id <= U32_MAX ->
  exists key, forall s, config_key id s = (Ok key, s).
Proof.
  intros H. destruct builder_new_spec as (Hd & Hr & _).
  destruct (store_uint_spec builder_new id 32) as (b & Hs & _); [|unfold_widths; lia..|].
  - apply has_capacity_spec; [done..|]. rewrite Hd, Hr. cbn. lia.
  - exists (as_data_slice b). intros s. unfold config_key. by rewrite Hs.
Qed.

Lemma tr_load_param `{SLaws : !SliceLaws} c id e : 0 <= id <= U32_MAX -> e <> Panic ->
  tr (load_config_param c id e).
Proof.
  intros H He. unfold load_config_param. destruct (config_key_ok id H) as [key Hk].
  eapply (tracks_bind _ _ any); [intros s; rewrite Hk; split; [reflexivity|done]|]. intros k _.
  eapply (tracks_bind _ _ any); [vm_tac|]. intros v _.
  eapply (tracks_bind _ _ any); [by apply vt_of_option|]. intros; vm_tac.
Qed.

Lemma tr_find_global_id `{SLaws : !SliceLaws} : tr find_global_id.
Proof.
  unfold find_global_id, get_parsed_config, get_c7_params. vm_tac.
  by apply tr_load_param.
Qed.

Lemma tr_get_prices `{SLaws : !SliceLaws} c : tr (get_prices c).
Proof.
  unfold get_prices. vm_tac. apply tr_load_param; [|done]. by destruct (on_masterchain c).
Qed.

(** A message that was parsed knows its layout. *)
Lemma tr_send_message `{SLaws : !SliceLaws} `{MLaws : !ModelLaws} : tr exec_send_message.
Proof.
  unfold exec_send_message.
  eapply (tracks_bind _ _ any); [vm_tac|]. intros _ _.
  eapply (tracks_bind _ _ any); [unfold pop_send_msg_mode_ext; vm_tac|]. intros [mode send] _.
  do 2 (eapply (tracks_bind _ _ any); [vm_tac|]; intros ? _).
  assert (tracks Rok Rerr (fun m => is_Some (rm_layout m)) (cell_ok (parse_relaxed_message a0))) as Hp.
  { intros s. unfold cell_ok, map_err, of_result. destruct (parse_relaxed_message a0) eqn:E; cbn.
    - split; [reflexivity | by eapply parsed_layout].
    - by apply vt_err. }
  eapply (tracks_bind _ _ _ _ _ _ Hp). intros msg [layout ->].
  eapply (tracks_bind _ _ any); [unfold message_context, get_c7_params; vm_tac|]. intros c _.
  eapply (tracks_bind _ _ any); [apply tr_get_prices|]. intros prices _.
  eapply (tracks_bind _ _ any); [unfold get_max_cells; vm_tac|]. intros max_cells _.
  eapply (tracks_bind _ _ any); [unfold message_stats; vm_tac|]. intros stats _.
  eapply (tracks_bind _ _ any); [vm_tac|]. intros [value has_extra] _. cbn [of_option].
  eapply (tracks_bind _ _ any); [apply (tracks_ret _ _); exact I|]. intros ? _.
  eapply (tracks_bind _ _ any); [vm_tac|]. intros fee _.
  eapply (tracks_bind _ _ any); [vm_tac|]. intros _ _.
  destruct send; [apply tr_send_raw | vm_tac].
Qed.
End Vm.

#[export] Hint Resolve tr_add_action tr_send_raw tr_set_global tr_store_info tr_compute_hash
  tr_find_global_id tr_send_message : track.
