(* ===== verification/Instructions.v ===== *)
(** * Every instruction respects the interface of Tracking.v

    The tables of Codepage.v, checked entry by entry. *)

From Stdlib Require Import Ascii String.
From S2P Require Import Prelude External Cells Values VmStack VmGas VmRegs VmState GasLaws.
From S2P Require Import ArithOps CmpOps LogicOps StackOps TupleOps ContOps GasOps CellOps Dispatch.
From S2P Require Import Dicts DictOps Models RandOps CurrencyOps CryptOps SizeOps ConfigOps MessageOps.
From S2P Require Import DebugOps VmProc Codepage Tracking ModuleTracking.

Open Scope vm_scope.

#[local] Abbreviation any := (fun _ => True).

Create HintDb instr.
#[export] Hint Unfold
  exec_push_tinyint4 exec_push_int exec_push_pow2 exec_push_nan exec_push_pow2dec
  exec_push_negpow2 exec_add exec_sub exec_subr exec_negate exec_inc exec_dec exec_addint
  exec_mulint exec_mul exec_divmod exec_shrmod exec_muldivmod exec_mulshrmod exec_shldivmod
  exec_minmax exec_abs nan_or_overflow two_nans op_nans add_w pop_w push_qr divide_push
  shift_push imm_shift pop_shift done_
  exec_sgn exec_cmp exec_cmp_int exec_is_nan exec_chk_nan
  unary_int exec_lshift_tinyint8 exec_rshift_tinyint8 exec_lshift exec_rshift exec_pow2
  exec_and exec_or exec_xor exec_not exec_fits_tinyint8 exec_fits exec_bitsize : instr.
#[export] Hint Unfold
  exec_nop exec_swap exec_xchg exec_dup exec_over exec_push exec_drop exec_nip exec_pop
  exec_xchg3 exec_xchg2 exec_xcpu exec_puxc exec_push2 exec_xc2pu exec_xcpuxc exec_xcpu2
  exec_puxc2 exec_puxcpu exec_pu2xc exec_push3 blkswap exec_blkswap exec_rot exec_rotrev
  exec_2swap exec_2drop exec_2dup exec_2over exec_reverse exec_blkdrop exec_blkpush
  pop_index exec_pick exec_roll exec_rollrev exec_blkswap_x exec_reverse_x exec_drop_x
  exec_tuck exec_xchg_x exec_depth exec_chkdepth exec_onlytop_x exec_only_x exec_blkdrop2
  rollrev_loop : instr.
#[export] Hint Unfold
  exec_push_null exec_is_null make_tuple_impl tuple_index_impl tuple_index_quiet_impl
  do_explode_tuple untuple_impl untuple_first_impl explode_tuple_impl tuple_set_index_impl
  exec_mktuple exec_tuple_index exec_untuple exec_untuple_first
  exec_explode_tuple exec_tuple_set_index exec_tuple_quiet_index exec_tuple_quiet_set_index
  exec_mktuple_var exec_tuple_index_var exec_untuple_var exec_untuple_first_var
  exec_explode_tuple_var exec_tuple_set_index_var exec_tuple_quiet_index_var
  exec_tuple_quiet_set_index_var exec_tuple_length exec_tuple_length_quiet exec_is_tuple
  exec_tuple_push swap_if exec_zero_swap_if exec_zero_swap_if2 exec_null_swap_if
  exec_null_swap_if2 exec_tuple_index2 exec_tuple_index3 tuple_gas : instr.
#[export] Hint Unfold
  exec_cell_prefix exec_ref_prefix ContOps.pop_cont ContOps.pop_bool push_value pop_signed
  exec_execute exec_jmpx exec_callx_args exec_callx_args_p exec_jmpx_args exec_ret_args
  exec_ret exec_ret_alt exec_ret_bool exec_callcc push_code exec_jmpx_data exec_callcc_args
  exec_callx_varargs exec_ret_varargs exec_jmpx_varargs exec_callcc_varargs exec_callref
  exec_jmpref exec_jmpref_data exec_ret_data exec_ifret exec_ifnotret exec_if exec_ifnot
  exec_if_jmp exec_ifnot_jmp exec_if_else exec_ifref exec_ifnotref exec_ifjmpref
  exec_ifnotjmpref exec_condsel exec_condsel_chk exec_ifretalt exec_ifnotretalt
  exec_ifelse_ref_impl exec_ifrefelse exec_ifelseref exec_ifref_elseref peek_bit
  exec_if_bit_jmp exec_if_bit_jmpref body_and_c0 exec_repeat exec_repeat_end exec_until
  exec_until_end exec_while exec_while_end exec_again exec_again_end
  exec_setcontargs_common exec_setcontargs exec_return_args
  exec_return_varargs exec_setcont_varargs exec_setnum_varargs exec_bless
  exec_bless_args_common exec_bless_varargs exec_bless_args valid_idx exec_push_ctr
  exec_pop_ctr setcont_ctr exec_setcont_ctr exec_setret_ctr exec_setalt_ctr
  exec_popsave exec_savectr exec_savealt_ctr exec_saveboth_ctr exec_push_ctr_var
  exec_pop_ctr_var exec_setcont_ctr_var exec_setcont_ctr_many exec_compos exec_atexit
  exec_atexit_alt exec_setexit_alt exec_thenret exec_thenret_alt exec_booleval
  exec_samealt ContOps.get_c3 exec_calldict_short exec_jmpdict exec_preparedict
  exec_throw_fixed exec_throw_arg_fixed exec_throw_any exec_try exec_tryargs
  exec_set_cp_any exec_set_cp reg_value get_reg : instr.
#[export] Hint Unfold exec_set_gas_limit exec_accept exec_buy_gas exec_gram_to_gas
  exec_gas_to_gram exec_gas_consumed exec_commit force_commit : instr.

#[export] Hint Unfold
  underflow overflow ensure_cell push_range push_builder push_slice push_cell code_const
  trimmed exec_push_ref_common exec_push_ref exec_push_ref_slice exec_push_ref_cont
  exec_push_slice_common exec_push_slice exec_push_slice_r exec_push_slice_r2
  exec_push_cont_common exec_push_cont exec_push_cont_simple exec_slice_bool_unary_op
  exec_slice_lex_cmp exec_slice_bin_op exec_slice_int_unary_op
  finish_store_overflow finish_store_ok exec_new_builder exec_builder_to_cell
  finish_store_fail exec_store_int_common exec_store_int exec_store_int_var
  exec_store_int_fixed store_ref_or exec_store_ref exec_store_ref_rev store_child
  exec_store_builder_as_ref_rev exec_store_builder_as_ref store_slice_or exec_store_slice
  exec_store_slice_rev store_builder_or exec_store_builder exec_store_builder_rev
  exec_store_const_ref exec_store_le_int exec_builder_to_special_cell exec_builder_depth
  exec_builder_bits exec_builder_refs exec_builder_bits_refs exec_builder_rem_bits
  exec_builder_rem_refs exec_builder_rem_bits_refs finish_check exec_builder_chk_bits
  pop_check exec_builder_chk_bits_refs same_value exec_store_same exec_store_const_slice
  exec_cell_to_slice exec_slice_chk_empty finish_load finish_short exec_load_int_common
  exec_load_int_fixed exec_load_int_var exec_load_int_fixed2 exec_load_ref
  exec_load_ref_rev_to_slice exec_load_slice_common exec_load_slice_fixed exec_load_slice
  exec_load_slice_fixed2 exec_preload_uint_fixed_0e exec_slice_range_op
  exec_slice_full_range_op exec_slice_substr exec_subslice exec_slice_begins_with_common
  exec_slice_begins_with exec_slice_begins_with_const exec_split
  exec_cell_to_slice_maybe_special find_library special_cell exec_load_special_cell
  exec_check_slice preload_ref exec_preload_ref exec_preload_ref_fixed exec_slice_bits_refs
  exec_load_le_int exec_load_same exec_slice_depth exec_cell_depth exec_cell_level
  exec_cell_level_mask exec_cell_level_op_common exec_cell_level_op exec_cell_level_op_var : instr.

#[export] Hint Unfold
  exec_dump_stack exec_dummy_debug exec_dump_string exec_dump_value exec_dummy_debug_str
  exec_stdict exec_skip_dict exec_load_dict_slice push_opt_cell exec_load_dict int_key slice_key
  pop_key pop_key_opt pop_key_truncated pop_store_value pop_dict exec_dict_get finish_dict_set
  push_previous exec_dict_setget exec_dict_delete exec_dict_deleteget exec_dict_get_optref
  exec_dict_setget_optref push_found_int push_found_slice find_near exec_dict_get_near take_bound
  exec_dict_get_min exec_dict_get_exec exec_push_const_dict
  generate_random_u256 exec_randu256 exec_rand_int exec_set_rand
  get_c7_params get_and_push_param get_and_push_in_msg_param exec_get_param exec_get_config_dict
  exec_get_config_param exec_get_prev_blocks_info get_parsed_config exec_get_global_id
  config_item gas_prices_item fwd_prices_item pop_u64 exec_get_gas_fee exec_get_storage_fee
  exec_get_forward_fee exec_get_precompiled_gas exec_get_original_fwd_fee exec_get_gas_fee_simple
  exec_get_forward_fee_simple exec_get_extra_currency_balance get_global_common
  exec_get_global_var exec_get_global exec_set_global_var exec_set_global exec_get_param_long
  exec_get_in_msg_param
  exec_send_message_raw exec_reserve_raw exec_set_code pop_change_library_mode exec_set_lib_code
  exec_change_lib
  exec_compute_hash exec_compute_sha256 exec_hash_ext pop_signed_data exec_ed25519_check_signature
  exec_load_var_integer exec_store_var_integer exec_load_message_addr exec_parse_message_addr
  rewrite_error push_size exec_compute_data_size : instr.

(** A property of everything an attribute can execute. *)
Definition op_all `{CL : CellLib} (P : VM Z -> Prop) (d : OpDef) : Prop :=
  match d with
  | Op0 _ f => P f
  | Op _ f => forall a w, (forall name, 0 <= a name) -> P (f a w)
  | OpExt _ _ _ f | OpExtRange _ _ _ f => forall args bits, P (f args bits)
  end.

Ltac instr_tac :=
  repeat (apply List.Forall_cons; [cbn [op_all]; intros; autounfold with instr in *; vm_tac|]);
  apply List.Forall_nil.

Section Instructions.
Context `{SL : SliceLib} (Rok : relation VmState) (Rerr : VmError -> relation VmState).
Context `{VT : !VmTracking Rok Rerr}.

#[local] Abbreviation tr := (tracks Rok Rerr any).

Theorem arith_tracked : Forall (op_all tr) arith_ops.
Proof. unfold arith_ops. instr_tac. Qed.

Theorem cmp_tracked : Forall (op_all tr) cmp_ops.
Proof. unfold cmp_ops. instr_tac. Qed.

Theorem logic_tracked : Forall (op_all tr) logic_ops.
Proof. unfold logic_ops. instr_tac. Qed.

Theorem stack_tracked : Forall (op_all tr) stack_ops.
Proof. unfold stack_ops. instr_tac. Qed.

Theorem tuple_tracked : Forall (op_all tr) tuple_ops.
Proof. unfold tuple_ops. instr_tac. Qed.

Theorem gas_tracked : Forall (op_all tr) gas_ops.
Proof. unfold gas_ops. instr_tac. Qed.

Theorem cell_tracked : Forall (op_all tr) cell_ops.
Proof. unfold cell_ops. instr_tac. Qed.

(** The two instructions that start a child VM. *)
Definition starts_child (m : VM Z) : Prop :=
  (exists x, m = exec_runvm x) \/ m = exec_runvmx.

(** What an instruction may do: respect the tracked relation, start a child VM, or look
    at the error of a gas operation, an out of gas among them, and go on. *)
Inductive allowed : VM Z -> Prop :=
| allowed_tr m : tr m -> allowed m
| allowed_child m : starts_child m -> allowed m
| allowed_bind A (m : VM A) k : tr m -> (forall a, allowed (k a)) -> allowed (bind m k)
| allowed_swallow A (m : MS Gas.GasConsumer Error A) (k : result Error A -> MS (list value) VmError Z) :
    tracks gas_ok gas_err any m -> (forall r, safe (k r)) ->
    allowed (let* r := on_gas (try_ms m) in on_stack (k r)).

Theorem cont_tracked : Forall (op_all allowed) cont_ops.
Proof.
  unfold cont_ops.
  repeat (apply List.Forall_cons;
    [cbn [op_all]; intros;
     first [ apply allowed_child; left; eexists; reflexivity | apply allowed_child; right; reflexivity
           | apply allowed_tr; autounfold with instr in *;
             repeat first [ apply tr_bind_define; [apply _ | intros] | vm_step_tac ] ] |]).
  apply List.Forall_nil.
Qed.

Theorem debug_tracked : Forall (op_all tr) debug_ops.
Proof. unfold debug_ops. instr_tac. Qed.

Theorem size_tracked : Forall (op_all tr) size_ops.
Proof. unfold size_ops. instr_tac. Qed.

(** Rewriting an address looks at the error of the gas. *)
Lemma rewrite_allowed var q : allowed (exec_rewrite_message_addr var q).
Proof.
  unfold exec_rewrite_message_addr.
  apply allowed_bind; [vm_tac|intros v]. apply allowed_bind; [vm_tac|intros cs].
  destruct (rewrite_parts _) as [[[pfx workchain] addr]|e].
  - apply allowed_swallow; [apply tracked_rewrite|]. intros [a|e]; autounfold with instr; safe_tac.
  - apply allowed_tr. autounfold with instr. vm_tac.
Qed.

Theorem currency_tracked : Forall (op_all allowed) currency_ops.
Proof.
  unfold currency_ops.
  repeat (apply List.Forall_cons;
    [cbn [op_all]; intros; first [apply rewrite_allowed | apply allowed_tr; autounfold with instr in *; vm_tac]|]).
  apply List.Forall_nil.
Qed.
End Instructions.

Section ModuleInstructions.
Context `{ML : ModelLib} {DL : DictLib} `{CrL : CryptoLib}.
Context (Rok : relation VmState) (Rerr : VmError -> relation VmState).
Context `{VT : !VmTracking Rok Rerr}.

#[local] Abbreviation tr := (tracks Rok Rerr any).
#[local] Abbreviation allowed := (allowed Rok Rerr).

Theorem rand_tracked : Forall (op_all tr) rand_ops.
Proof. unfold rand_ops. instr_tac. Qed.

Theorem crypt_tracked `{CLaws : !CellLaws} : Forall (op_all tr) crypt_ops.
Proof. unfold crypt_ops. instr_tac. Qed.

Theorem config_tracked `{SLaws : !SliceLaws} : Forall (op_all tr) config_ops.
Proof. unfold config_ops. instr_tac. Qed.

Theorem message_tracked `{SLaws : !SliceLaws} `{MLaws : !ModelLaws} : Forall (op_all tr) message_ops.
Proof. unfold message_ops. instr_tac. Qed.

(** SET, REPLACE and ADD look at the error of the dictionary. *)
Lemma dict_set_allowed s b mode : allowed (exec_dict_set s b mode).
Proof.
  unfold exec_dict_set. apply allowed_bind; [autounfold with instr; vm_tac|intros [n dict]].
  do 2 (apply allowed_bind; [autounfold with instr; vm_tac|intros ?]).
  apply allowed_swallow; [apply tracked_with_gas|]. intros r. autounfold with instr. safe_tac.
Qed.

Theorem dict_tracked : Forall (op_all allowed) dict_ops.
Proof.
  unfold dict_ops.
  repeat (apply List.Forall_cons;
    [cbn [op_all]; intros; first [apply dict_set_allowed | apply allowed_tr; autounfold with instr in *; vm_tac]|]).
  apply List.Forall_nil.
Qed.
End ModuleInstructions.
