(* ===== verification/Metering.v ===== *)
(** * Gas through the instructions

    The first instance of the interface of Tracking.v: no instruction changes the
    parent VM or gives gas back. *)

From S2P Require Import Prelude External Values VmStack VmGas VmRegs VmState GasLaws ArithOps.
From S2P Require Import ContOps Tracking Dispatch Run.

Open Scope vm_scope.

#[local] Abbreviation any := (fun _ => True).

Section GasTracking.
Context `{CL : CellLib}.

(** The same VM, with gas moved by [gas_ok]. *)
Definition metered (s s' : VmState) : Prop :=
  parent s' = parent s /\ gas_ok (gas s) (gas s').

(** After an error that is not out of gas the VM can go on. *)
Definition metered_err (e : VmError) (s s' : VmState) : Prop :=
  parent s' = parent s /\
  (sane (gas s) -> gas_moved (gas s) (gas s') /\
                   (is_out_of_gas e = false -> sane (gas s'))).

#[export] Instance metered_tracking : Tracking metered metered_err.
Proof.
  split; [split|].
  - intros s. split; [done | reflexivity].
  - intros s1 s2 s3 [P1 G1] [P2 G2]. split; [congruence | by etransitivity].
  - intros e s1 s2 s3 [P1 G1] [P2 G2]. split; [congruence|]. intros S.
    destruct (G1 S) as [M1 S1]. destruct (G2 S1) as [M2 S2].
    split; [by eapply gas_moved_trans | done].
Qed.

#[local] Abbreviation tr := (tracks metered metered_err any).

Lemma metered_frame s s' : gas s' = gas s -> parent s' = parent s -> metered s s'.
Proof. intros Hg Hp. split; [done|]. rewrite Hg. reflexivity. Qed.

Lemma metered_err_frame e s s' : gas s' = gas s -> parent s' = parent s -> metered_err e s s'.
Proof.
  intros Hg Hp. split; [done|]. rewrite Hg. intros S. split; [by apply gas_moved_refl, S | done].
Qed.

Lemma metered_frames {A} (m : VM A) :
  (forall s, gas (m s).2 = gas s) -> (forall s, parent (m s).2 = parent s) -> tr m.
Proof.
  intros Hg Hp s. specialize (Hg s). specialize (Hp s).
  destruct (m s) as [[] ?]; [split; [by apply metered_frame | done] | by apply metered_err_frame].
Qed.

Lemma metered_gas {A} (Q : A -> Prop) (m : MS Gas.GasConsumer Error A) :
  tracks gas_ok gas_err Q m -> tracks metered metered_err Q (on_gas m).
Proof.
  intros H s. unfold on_gas, zoom, map_err. specialize (H (gas s)).
  destruct (m (gas s)) as [[a|e] g]; cbn.
  - destruct H as [H HQ]. split; [split; [done | exact H] | done].
  - split; [done|]. intros S. destruct (H S) as [M Hs]. split; [done|].
    intros Ho. destruct Hs as [|[-> _]]; done.
Qed.

Lemma metered_stack {A} (m : MS (list value) VmError A) : tr (on_stack m).
Proof. apply metered_frames; intros s; unfold on_stack, zoom; by destruct (m _). Qed.

(** Structural proofs: everything but charging gas leaves the gas alone. *)
Ltac g_step :=
  lazymatch goal with
  | |- tracks _ _ _ (on_stack _) => apply metered_stack
  | |- tracks _ _ _ (on_gas _) =>
      apply metered_gas; solve [auto with track | apply tracked_consume; done]
  | |- tracks _ _ _ (raise _) => apply metered_frames; done
  | |- tracks _ _ _ (of_option _ ?o) => apply metered_frames; by destruct o
  | |- tracks _ _ _ (of_result _) => apply metered_frames; done
  | |- tracks _ _ _ (ensure ?c _) => apply metered_frames; by destruct c
  | |- tracks _ _ _ (modify _) => apply metered_frames; done
  | |- tracks _ _ _ (put_reg _ _) => apply metered_frames; done
  | |- tracks _ _ _ (gets _) => apply metered_frames; done
  | |- tracks _ _ _ (ret _) => apply metered_frames; done
  | |- _ => first [ solve [auto with metered] | track_step ]
  end.
Ltac g_tac := repeat g_step.
Create HintDb metered.

Lemma metered_move_args n st : tr (move_args n st).
Proof. apply metered_frames; intros s; unfold move_args; by repeat case_match; simplify_eq. Qed.

Lemma metered_force_cp n : tr (force_cp n).
Proof. unfold force_cp. g_tac. Qed.
#[local] Hint Resolve metered_move_args metered_force_cp : metered.

Lemma metered_check_args d p n : tr (check_args d p n).
Proof. unfold check_args. g_tac. Qed.
#[local] Hint Resolve metered_check_args : metered.

Lemma metered_adjust c p : tr (adjust_jump_cont c p).
Proof. unfold adjust_jump_cont, adjust_stack, preclear_cr. g_tac. Qed.
#[local] Hint Resolve metered_adjust : metered.

Lemma metered_cont_jump c e : tr (cont_jump c e).
Proof.
  destruct c; cbn [cont_jump]; unfold adjust_cr, set_c0, set_code;
    try (g_tac; fail).
  apply metered_frames; intros s;
    unfold bind, try_ms, on_stack, zoom; by destruct (Stack.pop_smallint_range _ _ _) as [[] ?].
Qed.
#[local] Hint Resolve metered_cont_jump : metered.

Lemma metered_jump_loop fuel c n e : tr (jump_loop fuel c n e).
Proof.
  revert c n e. induction fuel as [|fuel IH]; intros; cbn [jump_loop]; [g_tac|].
  g_tac; apply IH.
Qed.
#[local] Hint Resolve metered_jump_loop : metered.

Lemma metered_do_jump c : tr (do_jump_to c).
Proof. unfold do_jump_to. g_tac. Qed.
#[local] Hint Resolve metered_do_jump : metered.

Lemma metered_jump_ext c p : tr (jump_ext c p).
Proof. unfold jump_ext. g_tac. Qed.
#[local] Hint Resolve metered_jump_ext : metered.

Lemma metered_jump c : tr (jump c).
Proof. unfold jump. g_tac. Qed.
#[local] Hint Resolve metered_jump : metered.

Lemma metered_call_ext c p r : tr (call_ext c p r).
Proof. unfold call_ext, take_stack, take_code, preclear_cr, get_reg. g_tac. Qed.
#[local] Hint Resolve metered_call_ext : metered.

Lemma metered_call c : tr (call c).
Proof. unfold call, take_code, get_reg. g_tac. Qed.

Lemma metered_extract mode p r : tr (extract_cc mode p r).
Proof. unfold extract_cc, take_stack, take_code, get_reg. g_tac. Qed.
#[local] Hint Resolve metered_extract : metered.

#[export] Instance metered_vm_tracking : VmTracking metered metered_err.
Proof.
  split.
  - apply _.
  - intros. by apply metered_err_frame.
  - intros. by apply metered_frame.
  - intros. by apply metered_gas.
  - intros n s Hc. split; [done|]. by apply gas_ok_set_limit.
  - intros. g_tac.
  - intros i v. apply metered_frames; intros s; unfold on_cr, zoom; by destruct (Regs.set _ _ _).
  - intros t. by apply metered_frames.
  - intros i c. by apply metered_frames.
  - intros. unfold expect_reg, get_reg. g_tac.
  - unfold exec_invert, done_, get_reg. g_tac.
  - unfold c1_save_set, get_reg. g_tac.
  - intros. apply metered_jump.
  - intros. apply metered_jump_ext.
  - intros. apply metered_call.
  - intros. apply metered_call_ext.
  - intros. apply metered_extract.
  - intros. unfold exec_try_common, get_reg, ContOps.pop_cont. g_tac.
Qed.
End GasTracking.

(** * Every step pays gas

    What one step of the VM, and one turn of its loop, does to the gas of the running
    VM and to the chain of parent VMs. *)

Section Metering.
Context `{CL : CellLib}.
Implicit Types (s : VmState).

#[local] Abbreviation tr := (tracks metered metered_err any).
#[local] Abbreviation parent_gas p := (Gas.parent_consumer (p_gas p)).

(** ** Paying and pushing *)

Record gas_paid (g g' : Gas.GasConsumer) : Prop := {
  paid_moved : gas_moved g g';
  paid_sane : sane g';
  paid_used : used g < used g';
  paid_bound : used g < Z.max (Gas.gas_base g) (Gas.gas_max g);
  paid_spent : limited g -> spent g < spent g'
}.

Definition paid s s' : Prop :=
  parent s' = parent s /\ (sane (gas s) -> gas_paid (gas s) (gas s')).

(** A child VM starts with a part of what remains to its parent. *)
Record pushed s s' : Prop := {
  pushed_gas : sane (gas s) -> exists p,
    parent s' = Some p /\ p_parent p = parent s /\
    gas_moved (gas s) (parent_gas p) /\ sane (parent_gas p) /\
    0 <= Gas.gas_remaining (parent_gas p) /\
    sane (gas s') /\ limited (gas s') /\ used (gas s') = 0 /\
    Gas.gas_max (gas s') <= Gas.gas_remaining (parent_gas p)
}.

(** The gas may also be overdrawn: an instruction that swallows an out of gas (DICTADD,
    REWRITEVARADDRQ) goes on with a negative remainder, which ends the next turn. *)
Definition sane_or_drained (g : Gas.GasConsumer) : Prop := sane g \/ Gas.gas_remaining g < 0.

Definition drawn s s' : Prop :=
  parent s' = parent s /\
  (sane (gas s) -> gas_moved (gas s) (gas s') /\ sane_or_drained (gas s')).

Definition goes s s' : Prop := drawn s s' \/ pushed s s'.

Definition drawn_err (e : VmError) s s' : Prop :=
  parent s' = parent s /\
  (sane (gas s) -> gas_moved (gas s) (gas s') /\
                   (is_out_of_gas e = false -> sane_or_drained (gas s'))).

Definition moves (m : VM Z) : Prop :=
  forall s, match m s with
            | (Ok _, s') => goes s s'
            | (Err e, s') => drawn_err e s s'
            end.

Definition pays (m : VM Z) : Prop :=
  forall s, match m s with
            | (Ok _, s') => exists s1, paid s s1 /\ goes s1 s'
            | (Err e, s') => drawn_err e s s'
            end.

Lemma metered_err_drawn e s s' : metered_err e s s' -> drawn_err e s s'.
Proof.
  intros [Hp Hg]. split; [done|]. intros S. destruct (Hg S). split; [done | left; auto].
Qed.

Lemma drawn_err_metered e s s1 s' : metered s s1 -> drawn_err e s1 s' -> drawn_err e s s'.
Proof.
  intros [Hp Hg] [Hp' Hg']. split; [congruence|]. intros S. destruct (Hg S) as [M1 S1].
  destruct (Hg' S1). split; [by eapply gas_moved_trans | done].
Qed.

Lemma metered_drawn s s' : metered s s' -> drawn s s'.
Proof.
  intros [Hp Hg]. split; [done|]. intros S. destruct (Hg S). split; [done | by left].
Qed.

Lemma moves_tr m : tr m -> moves m.
Proof.
  intros H s. specialize (H s). destruct (m s) as [[] ?].
  - left. apply metered_drawn, H.
  - by apply metered_err_drawn.
Qed.

Lemma pushed_metered s s1 s' : metered s s1 -> pushed s1 s' -> pushed s s'.
Proof.
  intros [Hp Hg] [P]. split. intros S. destruct (Hg S) as [M1 S1].
  destruct (P S1) as (p & E & Ep & M & R). exists p.
  split; [done|]. split; [congruence|]. split; [by eapply gas_moved_trans | exact R].
Qed.

Lemma goes_metered s s1 s' : metered s s1 -> goes s1 s' -> goes s s'.
Proof.
  intros H [[Hp' Hg']|H']; [left | right; by eapply pushed_metered].
  destruct H as [Hp Hg]. split; [congruence|]. intros S. destruct (Hg S) as [M1 S1].
  destruct (Hg' S1) as [M2 S2]. split; [by eapply gas_moved_trans | done].
Qed.

Lemma moves_bind {A} (m : VM A) k : tr m -> (forall a, moves (k a)) -> moves (bind m k).
Proof.
  intros Hm Hk s. unfold bind. specialize (Hm s). destruct (m s) as [[a|e] s1]; [|by apply metered_err_drawn].
  destruct Hm as [Hm _]. specialize (Hk a s1). destruct (k a s1) as [[] s2].
  - by eapply goes_metered.
  - by eapply drawn_err_metered.
Qed.

Lemma gas_paid_metered g g1 g' : gas_ok g g1 -> (sane g1 -> gas_paid g1 g') ->
  sane g -> gas_paid g g'.
Proof.
  intros H HP S. destruct (H S) as [M S1]. destruct (HP S1) as [M' S' U B L].
  split; try done.
  - by eapply gas_moved_trans.
  - destruct M. lia.
  - destruct M as [_ Hm Hu Hb _]. rewrite Hm in B. lia.
  - intros Hl. destruct (mv_limited _ _ M Hl) as [Hl1 ?]. specialize (L Hl1). lia.
Qed.

Lemma pays_bind {A} (m : VM A) k : tr m -> (forall a, pays (k a)) -> pays (bind m k).
Proof.
  intros Hm Hk s. unfold bind. specialize (Hm s). destruct (m s) as [[a|e] s1]; [|by apply metered_err_drawn].
  destruct Hm as [[Hp Hg] _]. specialize (Hk a s1). destruct (k a s1) as [[] s2].
  - destruct Hk as (s3 & [Hp3 H3] & Hgo). exists s3. split; [|done].
    split; [congruence|]. exact (gas_paid_metered _ _ _ Hg H3).
  - exact (drawn_err_metered _ _ _ _ (conj Hp Hg) Hk).
Qed.

(** A gas operation whose error is looked at, and work on the stack that never fails for
    lack of gas. *)
Lemma moves_swallow {A} (m : MS Gas.GasConsumer Error A) (k : result Error A -> VM Z) :
  tracks gas_ok gas_err any m ->
  (forall r s, gas (k r s).2 = gas s /\ parent (k r s).2 = parent s) ->
  moves (let* r := on_gas (try_ms m) in k r).
Proof.
  intros Hm Hk s. unfold bind, on_gas, zoom, map_err, try_ms. specialize (Hm (gas s)).
  destruct (m (gas s)) as [r g]. destruct (Hk r (set_gas g s)) as [Hg Hp]. cbn in Hg, Hp.
  assert (sane (gas s) -> gas_moved (gas s) g /\ sane_or_drained g) as Hd.
  { intros S. destruct r as [a|e].
    - destruct Hm as [Hm _]. destruct (Hm S). split; [done | by left].
    - destruct (Hm S) as [? [|[]]]; split; try done; [by left | by right]. }
  destruct (k r (set_gas g s)) as [[z|e] s']; cbn in Hg, Hp.
  - left. split; [done|]. by rewrite Hg.
  - split; [done|]. rewrite Hg. intros S. destruct (Hd S). by split.
Qed.

(** A successful charge. *)
Lemma consume_paid n g g' : 0 < n -> n <= I64_MAX ->
  Gas.try_consume n g = (Ok tt, g') -> sane g -> gas_paid g g'.
Proof.
  intros H0 Hn Hc S. pose proof S as [W HU].
  destruct (try_consume_inv n g g' ltac:(lia) W Hc) as [-> Hr].
  rewrite truncate_gas_id in Hr |- * by lia.
  pose proof (tracked_consume n ltac:(lia) g) as H. rewrite Hc in H.
  destruct H as [H _]. rewrite truncate_gas_id in H by lia. destruct (H S) as [M S'].
  assert (used (Gas.set_remaining (Gas.gas_remaining g - n) g) = used g + n) as Hus
    by (unfold used; cbn; lia).
  split; try done; try lia.
  - unfold used. destruct W. lia.
  - intros [L _]. unfold spent. rewrite !consumed_used, Hus by (done || apply S').
    destruct S' as [W' HU']. cbn. unfold used in *. cbn in *. destruct W. lia.
Qed.

Lemma pays_gas n k : 0 < n -> n <= I64_MAX -> moves k ->
  pays (on_gas (Gas.try_consume n) ;; k).
Proof.
  intros H0 Hn Hk s. unfold bind.
  pose proof (metered_gas any (Gas.try_consume n) (tracked_consume n ltac:(lia)) s) as Ht.
  unfold on_gas, zoom, map_err in *.
  destruct (Gas.try_consume n (gas s)) as [[[]|e] g] eqn:Hc; [|by apply metered_err_drawn].
  specialize (Hk (set_gas g s)). destruct (k (set_gas g s)) as [[] s'].
  - exists (set_gas g s). split; [|done]. split; [done|]. cbn.
    by eapply consume_paid.
  - destruct Ht as [Ht _]. by eapply drawn_err_metered.
Qed.

(** ** Starting a child *)

Lemma pop_long_range_nonneg lo hi :
  tracks anything not_panic (fun n => 0 <= n) (Stack.pop_long_range lo hi).
Proof.
  unfold Stack.pop_long_range. eapply (tracks_bind _ _ any); [apply safe_pop_int|].
  intros z _. destruct (to_u64 z) eqn:Hz; [|by apply tracks_raise].
  destruct (_ && _); [|by apply tracks_raise].
  apply (tracks_ret _ _). apply to_range_inv in Hz. lia.
Qed.

Lemma pop_runvm_nonneg args :
  tracks anything not_panic (fun f => 0 <= f_gas_limit f <= f_gas_max f)
    (pop_runvm_args args).
Proof.
  unfold pop_runvm_args.
  eapply (tracks_bind _ _ (fun n => 0 <= n)).
  { destruct (load_hard_gas_limit args); [apply pop_long_range_nonneg|].
    apply (tracks_ret _ _). unfold_widths. lia. }
  intros m Hm. eapply (tracks_bind _ _ (fun n => 0 <= n)).
  { destruct (load_gas args); [apply pop_long_range_nonneg|].
    apply (tracks_ret _ _). unfold_widths. lia. }
  intros l Hl. repeat (eapply (tracks_bind _ _ any); [safe_tac | intros ? _]).
  apply (tracks_ret _ _). cbn [f_gas_limit f_gas_max].
  destruct (load_hard_gas_limit args); lia.
Qed.

(** [derive]: the child gets at most what remains to the parent. *)
Lemma derive_spec params g : 0 <= Gas.derive_gas_max params -> 0 <= Gas.derive_gas_limit params ->
  Gas.derive_gas_limit params <= Gas.derive_gas_max params -> sane g ->
  match Gas.derive params g with
  | (Ok pg, g') =>
      let gp := Gas.parent_consumer pg in
      gas_moved g gp /\ sane gp /\ 0 <= Gas.gas_remaining gp /\
      sane g' /\ limited g' /\ used g' = 0 /\ Gas.gas_max g' <= Gas.gas_remaining gp
  | (Err e, g') => gas_moved g g' /\ is_out_of_gas e = true
  end.
Proof.
  intros Hm Hl Hlm S. unfold Gas.derive. destruct (Gas.isolate params).
  - unfold bind at 1, gets. cbn. unfold bind at 1, map_err.
    pose proof (wf_free _ (sane_wf _ S)) as Hfree.
    pose proof (tracked_consume (Gas.free_gas_consumed g) (proj1 Hfree) g) as Hf.
    destruct (Gas.try_consume _ g) as [[[]|e] g1] eqn:Hc.
    2:{ destruct (Hf S) as [M _]. split; [done|].
        by rewrite (try_consume_cancelled _ _ _ _ Hc). }
    destruct Hf as [Hf _]. destruct (Hf S) as [M S1]. clear Hf.
    unfold bind, gets, ensure, modify, ret, raise.
    destruct (Z.leb_spec 0 (Gas.gas_remaining g1)) as [Hr|Hr]; cbn; [|done].
    assert (gas_ok g1 (Gas.set_counters 0 0 0 g1)) as Hk
      by (apply gas_ok_counters; intros; unfold_widths; lia).
    destruct (Hk S1) as [M2 S2]. pose proof S1 as [[] HU1].
    split; [by eapply gas_moved_trans|]. split; [done|]. split; [done|].
    unfold Gas.with_libraries, limited, used; cbn.
    rewrite !truncate_gas_id; unfold sat_add_u64; unfold_widths; try lia.
    repeat split; cbn; unfold used; cbn; rewrite ?truncate_gas_id; unfold_widths;
      try (case_bool; lia); lia.
  - unfold bind, gets, ensure, modify, ret, raise. cbn.
    destruct (Z.leb_spec 0 (Gas.gas_remaining g)) as [Hr|Hr]; cbn.
    2:{ split; [by apply gas_moved_refl, S | done]. }
    destruct (gas_ok_loaded ∅ g S) as [M S']. pose proof S as [[] HU].
    split; [done|]. split; [done|]. split; [done|].
    unfold limited, used; cbn.
    repeat split; cbn; unfold used; cbn; unfold_widths; lia.
Qed.

(** The last operations of [exec_runvm_common]: derive the gas, enter the child. *)
Lemma enter_moves args f : 0 <= f_gas_limit f <= f_gas_max f ->
  moves (let* parent_gas := on_gas_vm (Gas.derive (Gas.mkDerive (f_gas_max f) (f_gas_limit f)
                                              (isolate_gas args))) in
         modify (enter_child args f parent_gas) ;; ret 0).
Proof.
  intros Hf s. unfold bind at 1, on_gas_vm, zoom.
  pose proof (derive_spec (Gas.mkDerive (f_gas_max f) (f_gas_limit f) (isolate_gas args))
                (gas s)) as Hd. cbn [Gas.derive_gas_max Gas.derive_gas_limit] in Hd.
  destruct (Gas.derive _ (gas s)) as [[pg|e] g'].
  - right. split. intros S. specialize (Hd ltac:(lia) ltac:(lia) ltac:(lia) S).
    unfold enter_child; cbn. eexists. split; [done|]. split; [done|]. exact Hd.
  - split; [done|]. intros S. specialize (Hd ltac:(lia) ltac:(lia) ltac:(lia) S).
    cbn. destruct Hd as [? He]. split; [done|]. by rewrite He.
Qed.

Lemma runvm_moves args : moves (exec_runvm_common args).
Proof.
  unfold exec_runvm_common.
  apply moves_bind; [vm_tac|intros _]. apply moves_bind; [vm_tac|intros _].
  intros s. unfold bind at 1, on_stack, zoom.
  pose proof (pop_runvm_nonneg args (stack s)) as Hp.
  destruct (pop_runvm_args args (stack s)) as [[f|e] st].
  2:{ by apply metered_err_drawn, metered_err_frame. }
  destruct Hp as [_ Hf].
  pose proof (moves_bind (on_gas (Gas.try_consume_stack_gas (Some (f_stack f)))) _
                ltac:(vm_tac) (fun _ => enter_moves args f Hf) (set_stack st s)) as Hm.
  destruct (bind _ _ (set_stack st s)) as [[] s'].
  - by eapply goes_metered; [|exact Hm]; apply metered_frame.
  - by eapply drawn_err_metered; [|exact Hm]; apply metered_frame.
Qed.

Lemma runvmx_moves : moves exec_runvmx.
Proof. unfold exec_runvmx. apply moves_bind; [vm_tac|]. intros x. apply runvm_moves. Qed.

(** ** Opcodes *)

(** The interface of an opcode table: every entry may only move gas forward or start a
    child VM within its gas. *)
Definition op_metered (op : Opcode) : Prop :=
  match op with
  | DummyOpcode _ _ => True
  | SimpleOpcode f _ _ bits => 0 <= bits <= 24 /\ moves f
  | FixedOpcode f _ _ bits => 0 <= bits <= 24 /\ forall w, moves (f w)
  | ExtOpcode f _ _ bits => 0 <= bits <= 24 /\ forall w b, moves (f w b)
  end.

Definition table_metered (t : Opcodes) : Prop := Forall (fun e => op_metered e.2) t.

Lemma tr_skip_code n : tr (skip_code n).
Proof. unfold skip_code. vm_tac. Qed.

Lemma op_pays op opcode bits : op_metered op -> pays (op_exec op opcode bits).
Proof.
  destruct op as [lo hi|f lo hi n|f lo hi n|f lo hi n]; cbn [op_metered op_exec];
    [intros _|intros [Hn Hf]..]; apply pays_gas;
    try (unfold opcode_gas, GAS_PER_INSTRUCTION, GAS_PER_BIT; unfold_widths; lia).
  - apply moves_tr. vm_tac.
  - apply moves_bind; [vm_tac|intros _]. apply moves_bind; [apply tr_skip_code|done].
  - apply moves_bind; [vm_tac|intros _]. apply moves_bind; [apply tr_skip_code|done].
  - apply moves_bind; [vm_tac|intros _]. done.
Qed.

Lemma pays_raise e : pays (raise e).
Proof. intros s. by apply metered_err_drawn, metered_err_frame. Qed.

Lemma lookup_metered t opcode op : table_metered t -> lookup t opcode = Some op ->
  op_metered op.
Proof.
  intros Ht. unfold lookup, lookup_impl. destruct (lookup_loop _ _ _ _ _) as [i|]; [|done].
  unfold table_metered, Opcodes in *. rewrite Forall_lookup in Ht.
  destruct (t !! Z.to_nat i) as [e|] eqn:He; [|done].
  intros [= <-]. by eapply Ht.
Qed.

Lemma dispatch_pays t : table_metered t -> pays (dispatch t).
Proof.
  intros Ht. unfold dispatch. apply pays_bind; [vm_tac|intros c].
  apply pays_bind; [by apply metered_frames|]. intros [opcode bits].
  destruct (lookup t opcode) as [op|] eqn:Hl; cbn [of_option]; [|apply pays_raise].
  intros s. rewrite (bind_ok _ _ s op s) by done.
  by apply op_pays, (lookup_metered t opcode).
Qed.

(** ** Steps and turns *)

Lemma tr_count_step : tr count_step.
Proof. unfold count_step. vm_tac. Qed.

Lemma step_pays t : table_metered t -> pays (step t).
Proof.
  intros Ht. unfold step. apply pays_bind; [apply tr_count_step|intros _].
  apply pays_bind; [vm_tac|intros c].
  destruct (negb (is_data_empty _)); [by apply dispatch_pays|].
  destruct (negb (is_refs_empty _)).
  - apply pays_bind; [vm_tac|intros next]. apply pays_gas; [done|done|].
    apply moves_tr. vm_tac.
  - apply pays_gas; [done|done|]. apply moves_tr. vm_tac.
Qed.

Lemma throw_pays n : pays (throw_exception n).
Proof.
  unfold throw_exception, throw_exception_with_arg.
  apply pays_bind; [vm_tac|intros _]. apply pays_bind; [vm_tac|intros _].
  apply pays_gas; [done|done|]. apply moves_tr. unfold get_reg. vm_tac.
Qed.

(** ** Nothing remains *)

(** With nothing left, [m] fails and nothing comes back. *)
Definition stops {A} (m : VM A) : Prop :=
  forall s, gas_wf (gas s) -> Gas.gas_remaining (gas s) < 0 ->
  match m s with
  | (Ok _, _) => False
  | (Err _, s') => parent s' = parent s /\ gas_moved (gas s) (gas s') /\
                   Gas.gas_remaining (gas s') < 0
  end.

Lemma stops_frame {A B} (m : VM A) (k : A -> VM B) :
  (forall s, gas (m s).2 = gas s) -> (forall s, parent (m s).2 = parent s) ->
  (forall a, stops (k a)) -> stops (bind m k).
Proof.
  intros Hg Hp Hk s W Hr. unfold bind. specialize (Hg s). specialize (Hp s).
  destruct (m s) as [[a|e] s1]; cbn in *.
  - specialize (Hk a s1). rewrite Hg, Hp in Hk. exact (Hk W Hr).
  - rewrite Hg. split; [done|]. split; [by apply gas_moved_refl | done].
Qed.

Lemma stops_charge {A} n (k : unit -> VM A) : 0 <= n -> stops (bind (on_gas (Gas.try_consume n)) k).
Proof.
  intros Hn s W Hr. unfold bind, on_gas, zoom, map_err.
  pose proof (truncate_gas_range n Hn).
  assert (I64_MIN <= sat_sub_i64 (Gas.gas_remaining (gas s)) (Gas.truncate_gas n)
    <= Gas.gas_remaining (gas s)) as Hs.
  { unfold sat_sub_i64, clamp. destruct W. unfold_widths. lia. }
  unfold Gas.try_consume. case_bool; [lia|]. split; [done|].
  split; [by apply gas_moved_remaining | cbn; lia].
Qed.

Lemma stops_raise {A} e : stops (raise (A:=A) e).
Proof. intros s W Hr. split; [done|]. split; [by apply gas_moved_refl | done]. Qed.

Lemma stops_cell {A B} (r : result Error A) (k : A -> VM B) :
  (forall a, stops (k a)) -> stops (bind (map_err CellError (of_result r)) k).
Proof. intros. apply stops_frame; [by destruct r.. | done]. Qed.

#[local] Ltac frame :=
  first [apply stops_frame; [done | done | intros] | apply stops_charge | apply stops_cell; intros].

Lemma step_stops t : table_metered t -> stops (step t).
Proof.
  intros Ht. unfold step. frame. frame. case_match.
  - unfold dispatch. frame. frame. case_match. destruct (lookup t _) as [op|] eqn:Hl; cbn [of_option].
    2:{ exact (stops_raise Panic). }
    apply (lookup_metered t) in Hl; [|done].
    change (stops (op_exec op z z0)).
    destruct op; cbn [op_exec op_metered] in *; frame;
      unfold opcode_gas, GAS_PER_INSTRUCTION, GAS_PER_BIT; lia.
  - case_match; [frame|]; by frame.
Qed.

Lemma throw_stops n : stops (throw_exception n).
Proof.
  unfold throw_exception, throw_exception_with_arg. frame. frame. by frame.
Qed.

(** A turn never fails.  If the loop goes on ([inl 0]) it was paid for; in any case no
    gas is given back, and a child VM is started only by a paid step. *)
Record turn_moved s s' : Prop := {
  tm_parent : parent s' = parent s;
  tm_gas : sane (gas s) -> gas_moved (gas s) (gas s')
}.

Definition turn_paid s s' : Prop := exists s1, paid s s1 /\ goes s1 s'.

Lemma metered_err_turn e s s' : metered_err e s s' -> turn_moved s s'.
Proof. intros [Hp Hg]. split; [done|]. intros S. apply Hg, S. Qed.

Lemma drawn_err_turn e s s' : drawn_err e s s' -> turn_moved s s'.
Proof. intros [Hp Hg]. split; [done|]. intros S. apply Hg, S. Qed.

Lemma out_of_gas_spec s : exists s', out_of_gas s = (Ok (exception_code ExcOutOfGas), s') /\
  gas s' = gas s /\ parent s' = parent s.
Proof. eexists. split; [reflexivity|]. done. Qed.

(** With nothing left, throwing ends the loop. *)
Lemma throw_turn n c s : gas_wf (gas s) -> Gas.gas_remaining (gas s) < 0 ->
  exists r s', (let* r := try_ms (throw_exception n) in
                match r with
                | Ok res => ret (@inl Z Z res)
                | Err e => if is_out_of_gas e then let* res := out_of_gas in ret (inl res)
                           else ret (inr c)
                end) s = (Ok r, s') /\
    parent s' = parent s /\ gas_moved (gas s) (gas s') /\ r <> inl 0.
Proof.
  intros W Hr. unfold bind at 1, try_ms. pose proof (throw_stops n s W Hr) as H.
  destruct (throw_exception n s) as [[?|e] s1]; [done|]. destruct H as (Hp & M & _).
  destruct (is_out_of_gas e); [|by do 2 eexists].
  destruct (out_of_gas_spec s1) as (s2 & Ho & Hg2 & Hp2). rewrite (bind_ok _ _ _ _ _ Ho).
  do 2 eexists. split; [reflexivity|]. rewrite Hg2. split; [congruence | done].
Qed.

Lemma turn_drained t s : table_metered t -> gas_wf (gas s) -> Gas.gas_remaining (gas s) < 0 ->
  exists r s', turn t s = (Ok r, s') /\
    parent s' = parent s /\ gas_moved (gas s) (gas s') /\ r <> inl 0.
Proof.
  intros Ht W Hr. unfold turn, bind at 1, try_ms. pose proof (step_stops t Ht s W Hr) as H.
  destruct (step t s) as [[?|e] s1]; [done|]. destruct H as (Hp & M & Hr1).
  destruct (is_out_of_gas e).
  - destruct (out_of_gas_spec s1) as (s2 & Ho & Hg2 & Hp2). rewrite (bind_ok _ _ _ _ _ Ho).
    do 2 eexists. split; [reflexivity|]. rewrite Hg2. split; [congruence | done].
  - rewrite (bind_ok _ _ s1 tt (set_steps (steps s1 + 1) s1)) by done.
    destruct (throw_turn (exception_code (as_exception e)) (as_exit_code (as_exception e))
      (set_steps (steps s1 + 1) s1)) as (r & s2 & Ht2 & Hp2 & M2 & Hne); [by apply M | done|].
    exists r, s2. split; [exact Ht2|]. cbn in *. split; [congruence|].
    split; [by eapply gas_moved_trans | done].
Qed.

Lemma turn_spec t s : table_metered t -> sane (gas s) ->
  exists r s', turn t s = (Ok r, s') /\
    (turn_paid s s' \/ (turn_moved s s' /\ r <> inl 0)).
Proof.
  intros Ht S. unfold turn, bind at 1, try_ms. pose proof (step_pays t Ht s) as Hs.
  destruct (step t s) as [[res|e] s1]; [by do 2 eexists; split; [reflexivity|left]|].
  destruct (is_out_of_gas e) eqn:He.
  - destruct (out_of_gas_spec s1) as (s2 & Ho & Hg & Hp).
    rewrite (bind_ok _ _ _ _ _ Ho). do 2 eexists. split; [reflexivity|]. right.
    split; [|done]. apply drawn_err_turn in Hs. destruct Hs. split; [congruence|].
    by rewrite Hg.
  - destruct Hs as [Hp1 Hg1]. destruct (Hg1 S) as [M1 Hsd].
    set (s2 := set_steps (steps s1 + 1) s1). rewrite (bind_ok _ _ s1 tt s2) by done.
    destruct (Hsd He) as [S1|Hneg].
    2:{ destruct (throw_turn (exception_code (as_exception e)) (as_exit_code (as_exception e)) s2)
          as (r & s3 & Ht3 & Hp3 & M3 & Hne); [apply M1 | done|].
        exists r, s3. split; [exact Ht3|]. right. split; [|done].
        split; [cbn in *; congruence|]. intros _. cbn in *. by eapply gas_moved_trans. }
    assert (metered s s2) as Hm2 by (split; [done|]; intros _; split; done).
    unfold bind at 1, try_ms. pose proof (throw_pays (exception_code (as_exception e)) s2) as Hx.
    destruct (throw_exception _ s2) as [[res|e'] s3].
    + do 2 eexists. split; [reflexivity|]. left. destruct Hx as (s4 & [Hp4 H4] & Hgo).
      exists s4. split; [|done]. destruct Hm2 as [Hp2 Hg2]. split; [congruence|].
      exact (gas_paid_metered _ _ _ Hg2 H4).
    + assert (drawn_err e' s s3) as Hs3 by (by eapply drawn_err_metered).
      apply drawn_err_turn in Hs3. destruct (is_out_of_gas e').
      * destruct (out_of_gas_spec s3) as (s4 & Ho & Hg & Hp).
        rewrite (bind_ok _ _ _ _ _ Ho). do 2 eexists. split; [reflexivity|]. right.
        split; [|done]. destruct Hs3. split; [congruence|]. by rewrite Hg.
      * do 2 eexists. split; [reflexivity|]. by right.
Qed.
End Metering.
