(* ===== verification/Termination.v ===== *)
(** * Every run ends

    Gas bounds the number of steps: along the chain of parent VMs, what was spent only
    grows, every turn of the loop spends at least one unit, and it stays below the gas
    the root VM can ever have. *)

From S2P Require Import Prelude External Values VmStack VmGas VmRegs VmState GasLaws.
From S2P Require Import ArithOps ContOps Dispatch Tracking Metering Run.

Open Scope vm_scope.

Section Chain.
Context `{CL : CellLib}.
(** The gas credit the root VM started with. *)
Context (credit0 : Z).
Implicit Types (s : VmState) (g : Gas.GasConsumer).

#[local] Abbreviation parent_gas p := (Gas.parent_consumer (p_gas p)).

(** The chain of parents, innermost first. *)
Fixpoint parents (p : ParentVmState) : list Gas.GasConsumer :=
  parent_gas p :: match p_parent p with Some p => parents p | None => [] end.

Definition chain (o : option ParentVmState) : list Gas.GasConsumer :=
  match o with Some p => parents p | None => [] end.

Lemma chain_Some p : chain (Some p) = parent_gas p :: chain (p_parent p).
Proof. by destruct p as [? ? ? ? ? ? ? ? ? ? ? ? ? []]. Qed.

(** Each VM but the root is limited by what remains to its parent; [B] bounds the gas
    and the limit of the root, whose credit can only be dropped. *)
Fixpoint chain_ok (B : Z) (g : Gas.GasConsumer) (l : list Gas.GasConsumer) : Prop :=
  match l with
  | [] =>
      Z.max (Gas.gas_base g) (Gas.gas_max g) <= B /\
      Gas.gas_limit g <= B /\ (Gas.gas_credit g = credit0 \/ Gas.gas_credit g = 0)
  | gp :: l =>
      limited g /\ Gas.gas_max g <= Gas.gas_remaining gp /\ 1 <= used gp /\ sane gp /\
      chain_ok B gp l
  end.

Definition sum_used (l : list Gas.GasConsumer) : Z := fold_right Z.add 0 (map used l).

(** What is spent in the chain when [g] is the running VM. *)
Definition pot (g : Gas.GasConsumer) (l : list Gas.GasConsumer) : Z :=
  match l with [] => Gas.consumed g | _ => spent g + sum_used l end.

Lemma chain_ok_moved B g g' l : gas_moved g g' -> chain_ok B g l -> chain_ok B g' l.
Proof.
  intros M. destruct M as [W Hm Hu Hb Hl Hlim Hcr]. destruct l as [|gp l]; cbn.
  - rewrite Hm. intros (HB & HL & HC). repeat split; [lia..|].
    destruct Hcr as [->| ->]; auto.
  - intros (L & Hr & H). split; [by apply Hl|]. by rewrite Hm.
Qed.

Lemma pot_moved B g g' l : gas_wf g -> gas_moved g g' -> chain_ok B g l -> pot g l <= pot g' l.
Proof.
  intros W M Hc. destruct l as [|gp l]; cbn in *.
  - rewrite !consumed_used by (done || apply M). pose proof (mv_used _ _ M). lia.
  - destruct Hc as (L & _). pose proof (mv_limited _ _ M L). lia.
Qed.

Lemma pot_paid B g g' l : sane g -> gas_paid g g' -> chain_ok B g l -> pot g l + 1 <= pot g' l.
Proof.
  intros [W HU] [M [W' HU'] Hu Hb Hs] Hc. destruct l as [|gp l]; cbn in *.
  - rewrite !consumed_used by done. lia.
  - destruct Hc as (L & _). specialize (Hs L). lia.
Qed.

Lemma pot_nonneg g l : gas_wf g -> (forall gp, gp ∈ l -> 0 <= used gp) -> 0 <= pot g l.
Proof.
  intros W Hl. pose proof (consumed_range g W). unfold pot, spent.
  assert (0 <= sum_used l) as Hs.
  { unfold sum_used. induction l as [|x l IH]; cbn; [lia|].
    pose proof (Hl x ltac:(set_solver)). specialize (IH ltac:(set_solver)). lia. }
  destruct W. destruct l; lia.
Qed.

(** Something still fits below [B]. *)
Lemma chain_room B x g l : chain_ok B g l ->
  x < Z.max (Gas.gas_base g) (Gas.gas_max g) -> x + sum_used l < B.
Proof.
  revert x g. induction l as [|gp l IH]; intros x g Hc Hx; cbn in *; [lia|].
  destruct Hc as ((Hbl & Hlm) & Hr & Hu1 & Hs & Hc). unfold sum_used in *. cbn.
  specialize (IH (x + used gp) gp Hc). unfold used in *. lia.
Qed.

Lemma pot_bound B g l : sane g -> used g < Z.max (Gas.gas_base g) (Gas.gas_max g) ->
  chain_ok B g l -> pot g l < B.
Proof.
  intros [W HU] Hx Hc. pose proof (chain_room B (used g) g l Hc Hx).
  unfold pot, spent. rewrite consumed_used by done. unfold sum_used in *.
  destruct l; cbn in *; lia.
Qed.

Lemma pot_bound_end B g l : gas_wf g -> l <> [] -> chain_ok B g l -> pot g l <= B + 1.
Proof.
  intros W Hl Hc. destruct l as [|gp l]; [done|].
  pose proof (chain_room B (used gp - 1 + Gas.gas_remaining gp) gp l) as Hr.
  destruct Hc as ((Hbl & Hlm) & Hmax & Hu1 & Hs & Hc). specialize (Hr Hc).
  unfold pot, spent, sum_used, used in *. cbn in *. lia.
Qed.

(** ** The loop of one VM *)

(** The state between two turns. *)
Record running (B : Z) s : Prop := {
  run_sane : sane (gas s);
  run_chain : chain_ok B (gas s) (chain (parent s))
}.

Definition spent_in s : Z := pot (gas s) (chain (parent s)).
Definition nesting s : Z := Z.of_nat (length (chain (parent s))).

(** How far the rest of the run can go. *)
Definition measure (B : Z) s : Z := 2 * (B - spent_in s) + nesting s.

Lemma running_metered B s s' : metered s s' -> running B s ->
  running B s' /\ spent_in s <= spent_in s' /\ nesting s' = nesting s.
Proof.
  intros [Hp Hg] [S C]. destruct (Hg S) as [M S']. unfold spent_in, nesting. rewrite Hp.
  split; [|split; [eapply pot_moved; [apply S | done..]|done]].
  split; [done|]. rewrite Hp. by eapply chain_ok_moved.
Qed.

(** The state after an instruction that swallowed an out of gas. *)
Record drained (B : Z) s : Prop := {
  drained_wf : gas_wf (gas s);
  drained_none : Gas.gas_remaining (gas s) < 0;
  drained_chain : chain_ok B (gas s) (chain (parent s))
}.

Lemma running_drawn B s s' : drawn s s' -> running B s ->
  (running B s' \/ drained B s') /\ spent_in s <= spent_in s' /\ nesting s' = nesting s.
Proof.
  intros [Hp Hg] [S C]. destruct (Hg S) as [M HS]. unfold spent_in, nesting. rewrite Hp.
  split; [|split; [eapply pot_moved; [apply S | done..]|done]].
  destruct HS as [S'|Hr]; [left|right]; split; try done; try apply M;
    rewrite Hp; by eapply chain_ok_moved.
Qed.

Lemma running_pushed B s s' : pushed s s' -> running B s -> 1 <= used (gas s) ->
  running B s' /\ spent_in s <= spent_in s' /\ nesting s' = nesting s + 1.
Proof.
  intros [P] [S C] Hu. destruct (P S) as (p & E & Ep & M & Sp & Hr & S' & L & U0 & Hmax).
  pose proof (chain_ok_moved B _ _ _ M C) as Cp. pose proof (mv_used _ _ M) as HuM.
  unfold spent_in, nesting. rewrite E, chain_Some, Ep.
  split; [|split].
  - split; [done|]. rewrite E, chain_Some, Ep. cbn. repeat split; try apply L; try lia; apply Sp || done.
  - pose proof (pot_moved B _ _ _ (sane_wf _ S) M C) as Hpot. cbn.
    destruct S' as [W' ?]. destruct Sp as [Wp ?].
    assert (0 <= spent (gas s')) as Hs0.
    { unfold spent. pose proof (consumed_range _ W'). destruct W'. lia. }
    assert (pot (parent_gas p) (chain (parent s)) <= used (parent_gas p) + sum_used (chain (parent s))).
    { unfold pot, spent, sum_used. rewrite consumed_used by done. destruct (chain _); cbn; lia. }
    unfold sum_used in *. cbn. lia.
  - cbn. lia.
Qed.

Lemma running_paid B s s' : turn_paid s s' -> running B s ->
  (running B s' \/ drained B s') /\ spent_in s < B /\ measure B s' <= measure B s - 1 /\
  spent_in s + 1 <= spent_in s'.
Proof.
  intros (s1 & [Hp1 H1] & Hgo) R. pose proof R as [S C].
  specialize (H1 S). pose proof H1 as [M1 S1 U1 B1 _].
  assert (running B s1) as R1.
  { split; [done|]. rewrite Hp1. by eapply chain_ok_moved. }
  pose proof (pot_paid B _ _ _ S H1 C) as Hpot. rewrite <- Hp1 in Hpot at 2.
  pose proof (pot_bound B _ _ S B1 C) as Hb.
  assert (nesting s1 = nesting s) as Hn1 by (unfold nesting; congruence).
  fold (spent_in s) in Hpot, Hb. fold (spent_in s1) in Hpot.
  unfold measure. destruct Hgo as [Hgo|Hgo].
  - destruct (running_drawn B _ _ Hgo R1) as (R' & Hs & Hn). split; [done|]. lia.
  - destruct (running_pushed B _ _ Hgo R1) as (R' & Hs & Hn).
    { destruct S as [[] ?]. unfold used in *. lia. }
    split; [by left|]. lia.
Qed.

(** What holds when the loop of a VM has ended. *)
Record ended (B : Z) s : Prop := {
  end_wf : gas_wf (gas s);
  end_chain : chain_ok B (gas s) (chain (parent s))
}.

Lemma running_ended B s : running B s -> ended B s.
Proof. intros [[W _] C]. by split. Qed.

Lemma drained_ended B s : drained B s -> ended B s.
Proof. intros [W _ C]. by split. Qed.

Lemma running_moved B s s' : turn_moved s s' -> running B s ->
  ended B s' /\ measure B s' <= measure B s.
Proof.
  intros [Hp Hg] [S C]. specialize (Hg S). split.
  - split; [apply Hg|]. rewrite Hp. by eapply chain_ok_moved.
  - unfold measure, spent_in, nesting. rewrite Hp.
    pose proof (pot_moved B _ _ _ (sane_wf _ S) Hg C). lia.
Qed.

Lemma drained_moved B s s' : parent s' = parent s -> gas_moved (gas s) (gas s') -> drained B s ->
  ended B s' /\ measure B s' <= measure B s.
Proof.
  intros Hp Hg [W _ C]. split.
  - split; [apply Hg|]. rewrite Hp. by eapply chain_ok_moved.
  - unfold measure, spent_in, nesting. rewrite Hp.
    pose proof (pot_moved B _ _ _ W Hg C). lia.
Qed.

Context (table : Opcodes) (Ht : table_metered table).

Lemma drained_loop B fuel s : drained B s -> (0 < fuel)%nat ->
  exists r s', run_loop table fuel s = (Ok (Some r), s') /\
    ended B s' /\ measure B s' <= measure B s.
Proof.
  intros D Hf. destruct fuel as [|fuel]; [lia|]. cbn [run_loop].
  destruct (turn_drained table s Ht (drained_wf _ _ D) (drained_none _ _ D))
    as (r & s1 & Ht1 & Hp & M & Hne).
  rewrite (bind_ok _ _ _ _ _ Ht1). destruct (drained_moved B _ _ Hp M D) as [E1 M1].
  destruct r as [res|code]; [|by do 2 eexists].
  destruct (Z.eqb_spec res 0) as [->|?]; [done | by do 2 eexists].
Qed.

Lemma run_loop_ends B fuel s : running B s ->
  Z.max 0 (B - spent_in s) + 1 < Z.of_nat fuel ->
  exists r s', run_loop table fuel s = (Ok (Some r), s') /\
    ended B s' /\ measure B s' <= measure B s.
Proof.
  revert s. induction fuel as [|fuel IH]; intros s R Hf; cbn [run_loop]; [lia|].
  destruct (turn_spec table s Ht (run_sane _ _ R)) as (r & s1 & Ht1 & Hmove).
  rewrite (bind_ok _ _ _ _ _ Ht1).
  assert (ended B s1 /\ measure B s1 <= measure B s) as [E1 M1].
  { destruct Hmove as [H|[H _]]; [|by eapply running_moved].
    destruct (running_paid B _ _ H R) as (R1 & _ & Hm & _).
    split; [destruct R1; [by apply running_ended | by apply drained_ended] | lia]. }
  destruct r as [res|code]; [|by do 2 eexists].
  destruct (Z.eqb_spec res 0) as [->|Hne]; [|by do 2 eexists].
  destruct Hmove as [H|[_ H]]; [|done].
  destruct (running_paid B _ _ H R) as (R1 & Hb & Hm & Hs).
  assert (exists r s', run_loop table fuel s1 = (Ok (Some r), s') /\
    ended B s' /\ measure B s' <= measure B s1) as (r & s2 & Hrun & E2 & M2).
  { destruct R1 as [R1|D1]; [apply IH; [done | lia] | apply drained_loop; [done | lia]]. }
  do 2 eexists. split; [exact Hrun|]. split; [done | lia].
Qed.

(** The automatic commit leaves gas and parent alone. *)
Lemma finish_frame res s : exists r s', finish res s = (Ok r, s') /\
  gas s' = gas s /\ parent s' = parent s.
Proof.
  unfold finish. case_bool; [|by do 2 eexists].
  unfold bind, try_commit, ret, modify. repeat case_match; simplify_eq; by do 2 eexists.
Qed.

Lemma measure_frame B s s' : gas s' = gas s -> parent s' = parent s ->
  measure B s' = measure B s.
Proof. intros Hg Hp. unfold measure, spent_in, nesting. by rewrite Hg, Hp. Qed.

Lemma ended_frame B s s' : gas s' = gas s -> parent s' = parent s -> ended B s -> ended B s'.
Proof. intros Hg Hp [W C]. split; by rewrite ?Hg, ?Hp. Qed.

Lemma run_inner_ends B fuel s : running B s ->
  Z.max 0 (B - spent_in s) + 1 < Z.of_nat fuel ->
  exists r s', run_inner table fuel s = (Ok (Some r), s') /\
    ended B s' /\ measure B s' <= measure B s.
Proof.
  intros R Hf. destruct (run_loop_ends B fuel s R Hf) as (r & s1 & Hr & E & M).
  unfold run_inner. rewrite (bind_ok _ _ _ _ _ Hr).
  destruct r as [res|code]; [|by do 2 eexists].
  destruct (finish_frame res s1) as (r & s2 & Hfin & Hg & Hp).
  rewrite (bind_ok _ _ _ _ _ Hfin). do 2 eexists. split; [reflexivity|].
  split; [by eapply ended_frame|]. by rewrite (measure_frame _ _ _ Hg Hp).
Qed.

(** ** Return to the parent *)

#[local] Abbreviation any := (fun _ => True).
#[local] Abbreviation tr := (tracks metered metered_err any).

Lemma tr_or_out_of_gas m : tracks gas_ok gas_err any m -> tr (or_out_of_gas m).
Proof.
  intros H s. unfold or_out_of_gas, map_err. pose proof (metered_gas any m H s) as Hm.
  destruct (on_gas m s) as [[] s']; [done|]. destruct Hm as [Hp Hg].
  split; [done|]. intros S. split; [apply Hg, S | done].
Qed.

Lemma tr_vec_push v : tr (vec_push v).
Proof. unfold vec_push. vm_tac. Qed.

Lemma restore_gas p g : gas_wf g -> sane (parent_gas p) ->
  exists meta g', Gas.restore (p_gas p) g = (Ok meta, g') /\
    meta = Gas.mkRestored (Gas.consumed g) (Gas.gas_limit g) /\
    gas_moved (parent_gas p) g' /\ sane g' /\
    Gas.gas_base g' = Gas.gas_base (parent_gas p) /\
    Gas.gas_remaining g' = Gas.gas_remaining (parent_gas p).
Proof.
  intros W S. unfold Gas.restore. do 2 eexists. split; [reflexivity|]. split; [done|].
  set (gp := match p_gas p with Gas.Isolated p => p | Gas.Shared p => _ end).
  set (gm := match Gas.missing_library gp with Some _ => gp | None => _ end).
  assert (gas_ok (parent_gas p) (Gas.set_counters (Gas.chksign_counter g)
    (Gas.free_gas_consumed g) (Gas.get_extra_balance_counter g) gm)) as Hok.
  { etransitivity; [|apply gas_ok_counters; intros _; apply W].
    etransitivity; [instantiate (1 := gp); unfold gp; destruct (p_gas p); cbn;
                    [reflexivity | apply gas_ok_loaded]|].
    unfold gm. destruct (Gas.missing_library gp), (Gas.missing_library g);
      try reflexivity. apply gas_ok_missing. }
  destruct (Hok S) as [M S']. split; [done|]. split; [done|].
  unfold gm, gp. destruct (p_gas p); cbn; repeat case_match; done.
Qed.

(** What the charge for the child leaves. *)
Lemma charge_child B g p g1 g2 r : gas_wf g -> sane g1 ->
  chain_ok B g (chain (Some p)) -> gas_moved (parent_gas p) g1 ->
  Gas.gas_base g1 = Gas.gas_base (parent_gas p) ->
  Gas.gas_remaining g1 = Gas.gas_remaining (parent_gas p) ->
  Gas.try_consume (spent g) g1 = (r, g2) ->
  (r = Ok tt \/ p_parent p <> None) ->
  pot g (chain (Some p)) <= pot g2 (chain (p_parent p)).
Proof.
  intros W S1 C M Ebp Erp Hc Hor.
  assert (used g1 = used (parent_gas p)) as Hu by (unfold used; lia). rewrite chain_Some in *. cbn [chain_ok pot] in *.
  destruct C as ((Hbl & Hlm) & Hmax & Hu1 & Sp & C).
  pose proof (consumed_range g W) as Hcr.
  assert (0 <= spent g <= I64_MAX) as Hsp by (unfold spent; destruct W; lia).
  pose proof (tracked_consume (spent g) (proj1 Hsp) g1) as Htr. rewrite Hc in Htr.
  unfold sum_used in *. cbn [map fold_right].
  destruct r as [[]|e].
  - destruct Htr as [Hok _]. destruct (Hok S1) as [M2 [W2 HU2]].
    destruct (try_consume_inv _ _ _ (proj1 Hsp) (sane_wf _ S1) Hc) as [-> Hr].
    rewrite truncate_gas_id in * by done. cbn in *.
    assert (used (Gas.set_remaining (Gas.gas_remaining g1 - spent g) g1) = used g1 + spent g)
      as Hug by (unfold used; cbn; lia).
    unfold pot. destruct (chain (p_parent p)) as [|gpp l] eqn:Hch; cbn.
    + rewrite consumed_used, Hug by done. lia.
    + destruct C as ((Hb' & Hl') & C).
      destruct (mv_limited _ _ M (conj Hb' Hl')) as [[Hb1 Hl1] _].
      unfold spent at 2, sum_used. rewrite consumed_used, Hug by done. cbn.
      unfold used in *. cbn in *. lia.
  - destruct Hor as [|Hpp]; [done|]. destruct (p_parent p) as [pp|]; [|done].
    rewrite chain_Some in *. cbn in C. destruct C as ((Hb' & Hl') & Hm' & Hu' & Spp & C).
    destruct (mv_limited _ _ M (conj Hb' Hl')) as [L1 _].
    destruct (Htr S1) as [M2 _]. destruct (mv_limited _ _ M2 L1) as [[Hb2 Hl2] _].
    assert (Gas.gas_remaining g2 < 0) as Hneg.
    { unfold Gas.try_consume in Hc. destruct (Z.leb_spec 0 (sat_sub_i64 (Gas.gas_remaining g1)
        (Gas.truncate_gas (spent g)))); [done|]. by injection Hc as _ <-. }
    unfold pot, spent at 2, sum_used. rewrite consumed_used by apply M2. cbn.
    assert (Gas.gas_limit g2 = Gas.gas_limit g1 /\ Gas.gas_base g2 = Gas.gas_base g1) as [El Eb].
    { unfold Gas.try_consume in Hc. by injection Hc as _ <-. }
    destruct Spp as [[] ?]. unfold spent, used in *. lia.
Qed.

(** After the first charge only values are pushed and the stack is paid. *)
Lemma tr_returned v d res : tr (returned v d res).
Proof. unfold returned, vec_push. vm_tac. Qed.

Lemma restore_ends B res s p : ended B s -> parent s = Some p ->
  exists r s', restore_parent res s = (r, s') /\ parent s' = p_parent p /\ ended B s' /\
    (forall u, r = Ok u -> running B s') /\
    (r = Ok tt \/ p_parent p <> None -> spent_in s <= spent_in s').
Proof.
  intros [W C] Hp. pose proof C as Cp. rewrite Hp in C.
  rewrite chain_Some in C. cbn in C. destruct C as (_ & _ & _ & Sp & Cp').
  destruct (restore_gas p (gas s) W Sp) as (meta & g1 & Hr & -> & M1 & S1 & Eb & Er).
  unfold restore_parent. rewrite (bind_ok _ _ s (Some p) s) by (unfold gets; by rewrite Hp).
  rewrite (bind_ok _ _ s (stack s) s), (bind_ok _ _ s (committed_state s) s) by done.
  rewrite (bind_ok _ _ s (Gas.mkRestored (Gas.consumed (gas s)) (Gas.gas_limit (gas s)))
    (set_gas g1 s)) by (unfold on_gas_vm, zoom; by rewrite Hr).
  set (s1 := restore_values p (set_gas g1 s)).
  rewrite (bind_ok _ _ (set_gas g1 s) tt s1) by done. cbn [Gas.r_gas_consumed Gas.r_gas_limit].
  assert (Z.min (Gas.consumed (gas s)) (sat_add_u64 (Gas.gas_limit (gas s)) 1) = spent (gas s)) as ->.
  { unfold spent, sat_add_u64. pose proof (consumed_range _ W). destruct W. unfold_widths. lia. }
  assert (running B s1) as R1.
  { split; [done|]. cbn. by eapply chain_ok_moved. }
  assert (0 <= spent (gas s)) as Hs0.
  { unfold spent. pose proof (consumed_range _ W). destruct W. lia. }
  pose proof (tr_or_out_of_gas _ (tracked_consume _ Hs0) s1) as Ht1.
  destruct (or_out_of_gas (Gas.try_consume (spent (gas s))) s1) as [[[]|e] s2] eqn:Hc1.
  - rewrite (bind_ok _ _ _ _ _ Hc1). destruct Ht1 as [Hm1 _].
    destruct (running_metered B _ _ Hm1 R1) as (R2 & _ & _).
    assert (spent_in s <= spent_in s2) as Hle.
    { unfold or_out_of_gas, on_gas, zoom, map_err in Hc1. change (gas s1) with g1 in Hc1.
      destruct (Gas.try_consume (spent (gas s)) g1) as [[[]|] g2] eqn:Hc2; [|done].
      injection Hc1 as <-. unfold spent_in. rewrite Hp.
      eapply (charge_child B _ p _ g2); eauto. by rewrite <- Hp. }
    match goal with |- context [bind (returned ?a ?b ?c) ?k s2] => set (rest := bind (returned a b c) k) end.
    assert (tr rest) as Hrest.
    { unfold rest, push_opt_cell, vec_push. eapply (tracks_bind _ _ any); [apply tr_returned|].
      intros [r n] _. eapply (tracks_bind _ _ any); [apply tr_or_out_of_gas; auto with track|].
      intros _ _. vm_tac. }
    specialize (Hrest s2). destruct (rest s2) as [[u|e] s3].
    + destruct Hrest as [Hm2 _]. destruct (running_metered B _ _ Hm2 R2) as (R3 & Hs & _).
      do 2 eexists. split; [reflexivity|]. assert (parent s3 = p_parent p) as Hp3
        by (destruct Hm1 as [Hp1 _], Hm2 as [Hp2 _]; by rewrite Hp2, Hp1).
      split; [done|].
      split; [by apply running_ended|]. split; [done | lia].
    + apply metered_err_turn in Hrest. destruct (running_moved B _ _ Hrest R2) as (E3 & _).
      do 2 eexists. split; [reflexivity|].
      assert (parent s3 = parent s2) as Hp3 by apply Hrest.
      split; [rewrite Hp3; by destruct Hm1 as [Hp1 _]|]. split; [done|].
      split; [done|]. intros _. etransitivity; [exact Hle|].
      unfold spent_in. rewrite Hp3. destruct R2 as [S2 C2].
      eapply pot_moved; [apply S2 | by apply Hrest | exact C2].
  - rewrite (bind_err _ _ _ _ _ Hc1). apply metered_err_turn in Ht1.
    destruct (running_moved B _ _ Ht1 R1) as (E2 & _).
    do 2 eexists. split; [reflexivity|]. split; [apply Ht1|]. split; [done|]. split; [done|].
    intros [|Hpp]; [done|].
    unfold or_out_of_gas, on_gas, zoom, map_err in Hc1. change (gas s1) with g1 in Hc1.
    destruct (Gas.try_consume (spent (gas s)) g1) as [[[]|] g2] eqn:Hc2; [done|].
    injection Hc1 as _ <-. unfold spent_in. rewrite Hp.
    eapply (charge_child B _ p _ g2); eauto. by rewrite <- Hp.
Qed.

(** ** The loop over nested VMs *)

Lemma chain_used B g l : chain_ok B g l -> forall gp, gp ∈ l -> 0 <= used gp.
Proof.
  revert g. induction l as [|x l IH]; intros g Hc gp Hin; [set_solver|].
  destruct Hc as (_ & _ & Hu & _ & Hc). apply elem_of_cons in Hin as [->|Hin]; [lia|eauto].
Qed.

Lemma ended_nonneg B s : ended B s -> 0 <= spent_in s.
Proof. intros [W C]. apply pot_nonneg; [done|]. by eapply chain_used. Qed.

Lemma ended_measure B s : ended B s -> parent s <> None -> -1 <= measure B s.
Proof.
  intros [W C] Hp. destruct (parent s) as [p|] eqn:Hs; [|done].
  assert (chain (Some p) <> []) as Hne by (by rewrite chain_Some).
  pose proof (pot_bound_end B _ _ W Hne C). unfold measure, spent_in, nesting.
  rewrite Hs, chain_Some in *. cbn [length]. lia.
Qed.

Lemma run_outer_ends B fuel n res s : ended B s -> B + 1 < Z.of_nat fuel -> 0 <= B ->
  measure B s + 2 <= Z.of_nat n -> 0 < Z.of_nat n ->
  (parent s = None -> running B s /\ measure B s + 2 < Z.of_nat n) ->
  exists r s', run_outer table n fuel res s = (Ok (Some r), s') /\ parent s' = None /\ ended B s'.
Proof.
  intros E Hf HB. revert res s E. induction n as [|n IH]; intros res s E Hn H0 Hroot; [lia|].
  cbn [run_outer].
  (* The state after [restore_parent] and the rest of the turn. *)
  assert (forall s1, running B s1 -> measure B s1 + 2 <= Z.of_nat n ->
    exists r s', bind (run_inner table fuel) (fun res => match res with
      | None => ret None
      | Some res => bind (gets parent) (fun parent => match parent with
          | None => ret (Some res)
          | Some _ => run_outer table n fuel res end) end) s1 = (Ok (Some r), s') /\
      parent s' = None /\ ended B s') as Hgo.
  { intros s1 R1 Hm. pose proof (ended_nonneg _ _ (running_ended _ _ R1)) as Hnn.
    destruct (run_inner_ends B fuel s1 R1 ltac:(lia)) as (r & s2 & Hr & E2 & M2).
    rewrite (bind_ok _ _ _ _ _ Hr), (bind_ok _ _ s2 (parent s2) s2) by done.
    destruct (parent s2) eqn:Hp2; [|by do 2 eexists].
    pose proof (ended_measure B s2 E2 ltac:(congruence)).
    apply IH; try done; try lia. congruence. }
  destruct (parent s) as [p|] eqn:Hp.
  - destruct (restore_ends B (Z.lnot res) s p E Hp) as (r & s1 & Hr & Hp1 & E1 & Hok & Hle).
    unfold bind at 1, try_ms. rewrite Hr. destruct r as [[]|e].
    + specialize (Hok tt eq_refl). specialize (Hle (or_introl eq_refl)).
      apply Hgo; [done|].
      unfold measure, nesting in *. rewrite Hp1, Hp, chain_Some in *. cbn [length] in *. lia.
    + destruct (out_of_gas_spec s1) as (s2 & Ho & Hg2 & Hp2).
      unfold bind at 1. rewrite (bind_ok _ _ _ _ _ Ho). cbn [ret].
      unfold ret at 1. rewrite (bind_ok _ _ s2 (parent s2) s2) by done.
      rewrite Hp2, Hp1. destruct (p_parent p) as [pp|] eqn:Hpp;
        pose proof (ended_frame _ _ _ Hg2 Hp2 E1) as E2.
      2:{ do 2 eexists. split; [reflexivity|]. split; [by rewrite Hp2 | exact E2]. }
      assert (spent_in s <= spent_in s1) as Hle' by (apply Hle; by right).
      pose proof (measure_frame B _ _ Hg2 Hp2) as Hm2.
      assert (parent s2 <> None) as Hp2' by congruence.
      pose proof (ended_measure B s2 E2 Hp2').
      assert (measure B s1 <= measure B s - 1).
      { unfold measure, nesting in *. rewrite Hp1, Hp, (chain_Some p), Hpp in *.
        cbn [length] in *. lia. }
      apply IH; try done; try lia.
  - destruct (Hroot eq_refl) as [R Hm].
    rewrite (bind_ok _ _ s (Ok tt) s).
    2:{ unfold try_ms, restore_parent, bind, gets. by rewrite Hp. }
    apply Hgo; [done | lia].
Qed.
End Chain.

Section Run.
Context `{CL : CellLib}.

(** The most gas a VM built with these parameters can ever use. *)
Definition gas_bound (params : GasParams) : Z :=
  Z.max (limit params + credit params) (max params).

Lemma with_libraries_sane params libs :
  0 <= max params -> 0 <= limit params -> 0 <= credit params -> 0 <= price params ->
  let g := Gas.with_libraries params libs in
  sane g /\ used g = 0 /\ Z.max (Gas.gas_base g) (Gas.gas_max g) <= gas_bound params /\
  Gas.gas_limit g <= gas_bound params.
Proof.
  intros Hm Hl Hc Hp. unfold gas_bound, used. cbn.
  assert (0 <= sat_add_u64 (limit params) (credit params) <= limit params + credit params)
    as Ha by (unfold sat_add_u64; unfold_widths; lia).
  pose proof (truncate_gas_range (max params) Hm).
  pose proof (truncate_gas_range (limit params) Hl).
  pose proof (truncate_gas_range _ (proj1 Ha)).
  pose proof (truncate_gas_le (max params)).
  pose proof (truncate_gas_le (sat_add_u64 (limit params) (credit params))).
  pose proof (truncate_gas_le (limit params)).
  repeat split; cbn; unfold used; cbn; unfold_widths; try lia. case_bool; lia.
Qed.

(** A run on a metered table ends once its fuel exceeds [2 * gas_bound + 3]; the gas
    limit is then still bounded, and the credit of the builder is kept or dropped. *)
Lemma run_ends (table : Opcodes) (b : VmStateBuilder) (fuel : nat)
    (Ht : table_metered table)
    (Hmax : 0 <= max (b_gas b)) (Hlimit : 0 <= limit (b_gas b))
    (Hcredit : 0 <= credit (b_gas b)) (Hprice : 0 <= price (b_gas b))
    (Hfuel : 2 * gas_bound (b_gas b) + 3 <= Z.of_nat fuel) :
  exists res s', run table fuel fuel (build b) = (Ok (Some res), s') /\ parent s' = None /\
    gas_wf (gas s') /\ Gas.gas_limit (gas s') <= gas_bound (b_gas b) /\
    (Gas.gas_credit (gas s') = Gas.truncate_gas (credit (b_gas b)) \/ Gas.gas_credit (gas s') = 0).
Proof.
  destruct (with_libraries_sane (b_gas b) (default Gas.NoLibraries (b_libraries b))
              Hmax Hlimit Hcredit Hprice) as (S & U & B & L).
  assert (gas (build b) = Gas.with_libraries (b_gas b) (default Gas.NoLibraries (b_libraries b))
          /\ parent (build b) = None) as [Eg Ep].
  { unfold build. by repeat case_match. }
  set (s := build b) in *. unfold run. rewrite (bind_ok _ _ s (throw_on_code_access s) s) by done.
  destruct (throw_on_code_access s).
  { do 2 eexists. split; [reflexivity|]. rewrite Eg. split; [done|]. split; [apply S|].
    split; [exact L | by left]. }
  set (c0 := Gas.truncate_gas (credit (b_gas b))).
  assert (running c0 (gas_bound (b_gas b)) s) as R.
  { split; rewrite ?Eg, ?Ep; [done|]. cbn [chain chain_ok]. split; [done|]. split; [done | by left]. }
  assert (0 <= gas_bound (b_gas b)) as Hb by (unfold gas_bound; lia).
  pose proof (ended_nonneg c0 _ Ht _ _ (running_ended c0 _ _ R)) as Hnn.
  assert (measure (gas_bound (b_gas b)) s <= 2 * gas_bound (b_gas b)) as Hm.
  { unfold measure, nesting. rewrite Ep. cbn. lia. }
  destruct (run_outer_ends c0 table Ht (gas_bound (b_gas b)) fuel fuel 0 s)
    as (r & s' & Hr & Hp & [W E]); try lia; [by apply running_ended | |].
  { intros _. split; [done | lia]. }
  do 2 eexists. split; [exact Hr|]. split; [done|]. split; [done|].
  rewrite Hp in E. cbn in E. tauto.
Qed.
End Run.
