(* ===== verification/DispatchLaws.v ===== *)
(** * The opcode table is a partition of the opcodes

    Adding an opcode fails exactly on an overlap, the built table tiles [0, 2^24), and
    the binary search finds the one entry that covers an opcode (Dispatch.v). *)

From S2P Require Import Prelude External Values VmState Dispatch.

Section Table.
Context {T : Type} (op_range : T -> Z * Z).
#[local] Abbreviation entry := (Z * T)%type.
Implicit Types (e : entry) (l t : list entry).

Definition lo (op : T) : Z := (op_range op).1.
Definition hi (op : T) : Z := (op_range op).2.
Definition covers e (opcode : Z) : Prop := lo e.2 <= opcode < hi e.2.
Definition overlaps (op : T) e : Prop := lo op < hi e.2 /\ lo e.2 < hi op.

(** Entries in order and disjoint, within [from, upto). *)
Fixpoint laid (from upto : Z) l : Prop :=
  match l with
  | [] => from <= upto
  | (k, op) :: l => k = lo op /\ from <= k < hi op /\ laid (hi op) upto l
  end.

(** .. and without gaps. *)
Fixpoint tiled (from upto : Z) l : Prop :=
  match l with
  | [] => from = upto
  | (k, op) :: l => k = lo op /\ from = k /\ k < hi op /\ tiled (hi op) upto l
  end.

Lemma laid_le from upto l : laid from upto l -> from <= upto.
Proof. revert from. induction l as [|[k op] l IH]; cbn; [done|]. intros from (_ & ? & H). apply IH in H. lia. Qed.

Lemma laid_weaken from from' upto l : from' <= from -> laid from upto l -> laid from' upto l.
Proof. intros Hf. destruct l as [|[k op] l]; cbn; [lia|]. intros (? & ? & ?). split; [done|]. split; [lia|done]. Qed.

Lemma laid_in from upto l k op : laid from upto l -> (k, op) ∈ l ->
  k = lo op /\ from <= k < hi op /\ hi op <= upto.
Proof.
  revert from. induction l as [|[k' op'] l IH]; intros from; [set_solver|].
  intros (H1 & H2 & H3) [[= -> ->]|Hin]%elem_of_cons.
  - split; [done|]. split; [done|]. by eapply laid_le.
  - destruct (IH _ H3 Hin) as (? & ? & ?). split; [done|]. lia.
Qed.

(** Two entries that cover the same opcode are the same. *)
Lemma laid_unique from upto l e e' opcode : laid from upto l ->
  e ∈ l -> e' ∈ l -> covers e opcode -> covers e' opcode -> e = e'.
Proof.
  revert from. induction l as [|[k op] l IH]; intros from; [set_solver|].
  destruct e as [k1 op1], e' as [k2 op2]. unfold covers; cbn.
  intros (H1 & H2 & H3) He He' C C'.
  apply elem_of_cons in He as [[= -> ->]|He], He' as [[= -> ->]|He'];
    [done| | |by eapply IH]; exfalso.
  - destruct (laid_in _ _ _ _ _ H3 He') as (? & ? & _). lia.
  - destruct (laid_in _ _ _ _ _ H3 He) as (? & ? & _). lia.
Qed.

Lemma tiled_laid from upto l : tiled from upto l -> laid from upto l.
Proof.
  revert from. induction l as [|[k op] l IH]; cbn; [lia|].
  intros from (? & ? & ? & ?). split; [done|]. split; [lia|auto].
Qed.

(** ** Adding *)

Lemma first_ge_laid k from upto l : laid from upto l ->
  match first_ge k l with
  | Some (k', op) => (k', op) ∈ l /\ k <= k' /\
      forall k1 op1, (k1, op1) ∈ l -> k <= k1 -> k' <= k1
  | None => forall k1 op1, (k1, op1) ∈ l -> k1 < k
  end.
Proof.
  revert from. induction l as [|[k' v] l IH]; intros from; cbn [first_ge laid]; [set_solver|].
  intros (E & H2 & H3). case_bool.
  - split; [by left|]. split; [done|].
    intros k1 op1 [[= -> ->]|He]%elem_of_cons _; [done|].
    destruct (laid_in _ _ _ _ _ H3 He) as (_ & ? & _). lia.
  - specialize (IH _ H3). destruct (first_ge k l) as [[k'' v'']|].
    + destruct IH as (Hin & Hk & Hm). split; [by right|]. split; [done|].
      intros k1 op1 [[= -> ->]|He]%elem_of_cons Hlo; [lia|by eapply Hm].
    + intros k1 op1 [[= -> ->]|He]%elem_of_cons; [done | by eapply IH].
Qed.

Lemma last_le_laid k from upto l : laid from upto l ->
  match last_le k l with
  | Some (k', op) => (k', op) ∈ l /\ k' <= k /\
      forall k1 op1, (k1, op1) ∈ l -> k1 <= k -> hi op1 <= hi op
  | None => forall k1 op1, (k1, op1) ∈ l -> k < k1
  end.
Proof.
  revert from. induction l as [|[k' v] l IH]; intros from; cbn [last_le laid]; [set_solver|].
  intros (E & H2 & H3). case_bool.
  - specialize (IH _ H3). destruct (last_le k l) as [[k'' v'']|].
    + destruct IH as (Hin & Hk & Hm). split; [by right|]. split; [done|].
      intros k1 op1 [[= -> ->]|He]%elem_of_cons Hlo; [|by eapply Hm].
      destruct (laid_in _ _ _ _ _ H3 Hin) as (_ & ? & _). lia.
    + split; [by left|]. split; [done|].
      intros k1 op1 [[= -> ->]|He]%elem_of_cons Hlo; [done|]. specialize (IH _ _ He). lia.
  - intros k1 op1 [[= -> ->]|He]%elem_of_cons; [done|].
    destruct (laid_in _ _ _ _ _ H3 He) as (_ & ? & _). lia.
Qed.

Lemma bt_insert_elem k (op : T) l e : (forall op', (k, op') ∉ l) ->
  e ∈ bt_insert k op l <-> e = (k, op) \/ e ∈ l.
Proof.
  induction l as [|[k' v'] l IH]; intros Hk; cbn; [set_solver|].
  assert (k <> k') by (intros ->; apply (Hk v'); by left).
  repeat case_bool; [set_solver|done|].
  rewrite !elem_of_cons, IH by (intros v'' Hin; apply (Hk v''); by right). set_solver.
Qed.

Lemma bt_insert_laid op from upto l : laid from upto l ->
  from <= lo op < hi op -> hi op <= upto -> (forall e, e ∈ l -> ~ overlaps op e) ->
  laid from upto (bt_insert (lo op) op l).
Proof.
  revert from. induction l as [|[k v] l IH]; intros from Hl Hf Hu Hno; cbn [bt_insert].
  - cbn. repeat split; lia.
  - destruct Hl as (E & H2 & H3).
    pose proof (Hno (k, v) ltac:(left)) as Ho. unfold overlaps in Ho; cbn in Ho.
    repeat case_bool; cbn [laid]; [|lia|].
    + repeat split; try lia. done.
    + split; [done|]. split; [done|]. apply IH; [done|lia|done|].
      intros e He. apply Hno. by right.
Qed.

(** The two neighbours decide whether any entry overlaps. *)
Lemma add_opcode_spec op from upto l : laid from upto l -> lo op < hi op ->
  match add_opcode_impl op_range op l with
  | Some l' => (forall e, e ∈ l -> ~ overlaps op e) /\ l' = bt_insert (lo op) op l
  | None => exists e, e ∈ l /\ overlaps op e
  end.
Proof.
  intros Hl Hop. unfold add_opcode_impl. rewrite (surjective_pairing (op_range op)).
  fold (lo op) (hi op).
  pose proof (first_ge_laid (lo op) _ _ _ Hl) as Hg.
  pose proof (last_le_laid (lo op) _ _ _ Hl) as Hle. unfold overlaps.
  assert (forall k1 op1, (k1, op1) ∈ l -> k1 = lo op1 /\ k1 < hi op1) as Hin.
  { intros k1 op1 H. destruct (laid_in _ _ _ _ _ Hl H) as (? & ? & ?). lia. }
  destruct (first_ge (lo op) l) as [[k1 op1]|], (last_le (lo op) l) as [[k2 op2]|];
    try fold (hi op2).
  - destruct Hg as (G1 & G2 & G3), Hle as (L1 & L2 & L3).
    destruct (Hin _ _ G1), (Hin _ _ L1). repeat case_bool; cbn [andb].
    + split; [|done]. intros [k o] He; cbn. destruct (Hin _ _ He).
      destruct (Z.le_gt_cases (lo op) k); [specialize (G3 _ _ He); lia | specialize (L3 _ _ He); lia].
    + exists (k2, op2). cbn. split; [done|lia].
    + exists (k1, op1). cbn. split; [done|lia].
    + exists (k1, op1). cbn. split; [done|lia].
  - destruct Hg as (G1 & G2 & G3). destruct (Hin _ _ G1). repeat case_bool; cbn [andb].
    + split; [|done]. intros [k o] He; cbn. destruct (Hin _ _ He).
      specialize (Hle _ _ He). specialize (G3 _ _ He). lia.
    + exists (k1, op1). cbn. split; [done|lia].
  - destruct Hle as (L1 & L2 & L3). destruct (Hin _ _ L1). repeat case_bool; cbn [andb].
    + split; [|done]. intros [k o] He; cbn. destruct (Hin _ _ He).
      specialize (Hg _ _ He). specialize (L3 _ _ He). lia.
    + exists (k2, op2). cbn. split; [done|lia].
  - cbn. split; [|done]. intros [k o] He. specialize (Hg _ _ He). specialize (Hle _ _ He). lia.
Qed.

Lemma add_opcode_laid op from upto l l' : laid from upto l ->
  from <= lo op < hi op -> hi op <= upto -> add_opcode_impl op_range op l = Some l' ->
  laid from upto l' /\ forall e, e ∈ l' <-> e = (lo op, op) \/ e ∈ l.
Proof.
  intros Hl Hf Hu Ha. pose proof (add_opcode_spec op _ _ _ Hl ltac:(lia)) as H.
  rewrite Ha in H. destruct H as [Hno ->]. split; [by apply bt_insert_laid|].
  intros e. apply bt_insert_elem. intros op' Hin. apply (Hno _ Hin).
  destruct (laid_in _ _ _ _ _ Hl Hin) as (? & ? & ?). unfold overlaps; cbn. lia.
Qed.

(** ** Building *)

Section Build.
Context (f : Z -> Z -> T).
Context (Hf : forall a b, op_range (f a b) = (a, b)).

Lemma build_from_tiled from l : laid from MAX_OPCODE l ->
  tiled from MAX_OPCODE (build_from op_range f from l).
Proof.
  assert (forall a b, lo (f a b) = a /\ hi (f a b) = b) as Hr
    by (intros; unfold lo, hi; by rewrite Hf).
  revert from. induction l as [|[k op] l IH]; intros from; cbn [laid build_from].
  - intros H. case_bool; cbn [tiled]; [|lia].
    destruct (Hr from MAX_OPCODE) as [-> ->]. repeat split; lia.
  - intros (E & H2 & H3). rewrite (surjective_pairing (op_range op)).
    fold (lo op) (hi op). case_bool; cbn [app tiled].
    + destruct (Hr from (lo op)) as [-> ->]. repeat split; try lia. by apply IH.
    + repeat split; try lia. by apply IH.
Qed.

(** The added opcodes are kept, everything else is filler. *)
Lemma build_from_elem from l e :
  (e ∈ l -> e ∈ build_from op_range f from l) /\
  (e ∈ build_from op_range f from l -> e ∈ l \/ exists a b, e = (a, f a b)).
Proof.
  revert from. induction l as [|[k op] l IH]; intros from; cbn [build_from].
  - split; [set_solver|]. case_bool; [|set_solver].
    intros ->%list_elem_of_singleton. right. by do 2 eexists.
  - destruct (op_range op) as [a b]. destruct (IH b) as [I1 I2].
    rewrite elem_of_app, !elem_of_cons. split; [tauto|].
    intros [He|[->|He]]; [|tauto|].
    + right. destruct (from <? a); [|set_solver]. apply list_elem_of_singleton in He as ->. by do 2 eexists.
    + destruct (I2 He); [tauto|by right].
Qed.
End Build.

(** ** Searching *)

(** The search keeps the opcode between the starts of the entries [i] and [j]. *)
Definition between l opcode i j : Prop :=
  0 <= i < j /\ j <= Z.of_nat (length l) /\
  (forall k op, l !! Z.to_nat i = Some (k, op) -> k <= opcode) /\
  (forall k op, l !! Z.to_nat j = Some (k, op) -> opcode < k).

Lemma lookup_loop_spec fuel l opcode i j : between l opcode i j -> j - i <= Z.of_nat fuel ->
  exists r, lookup_loop fuel l opcode i j = Some r /\ between l opcode r (r + 1).
Proof.
  revert i j. induction fuel as [|fuel IH]; intros i j (Hij & Hj & Hlo & Hhi) Hf; [lia|].
  cbn [lookup_loop]. case_bool.
  - rewrite Z.shiftr_div_pow2 by done. set (k := (j + i) / 2 ^ 1).
    assert (i < k < j) as Hk.
    { unfold k. pose proof (Z.div_mod (j + i) (2 ^ 1) ltac:(done)).
      pose proof (Z.mod_pos_bound (j + i) (2 ^ 1) ltac:(done)). lia. }
    destruct (l !! Z.to_nat k) as [[start op]|] eqn:Hl.
    + case_bool; apply IH; unfold between; try lia; repeat split; try lia; try done;
        intros ? ?; rewrite Hl; intros [= <- <-]; lia.
    + apply lookup_ge_None in Hl. lia.
  - exists i. replace j with (i + 1) in * by lia. done.
Qed.

(** In a tiling the next entry starts where an entry ends. *)
Lemma tiled_next from upto l i k op : tiled from upto l -> l !! i = Some (k, op) ->
  match l !! S i with Some (k', _) => hi op = k' | None => hi op = upto end.
Proof.
  revert from i. induction l as [|[k0 op0] l IH]; intros from [|i]; try done.
  - intros (_ & _ & _ & Hl) [= <- <-]. cbn. destruct l as [|[k' op'] l]; cbn in *; [done|lia].
  - intros (_ & _ & _ & Hl) Hi. by eapply IH.
Qed.

Lemma lookup_impl_spec upto l opcode : tiled 0 upto l -> 0 <= opcode < upto ->
  exists k op, lookup_impl opcode l = Some op /\ (k, op) ∈ l /\ covers (k, op) opcode.
Proof.
  intros Hl Ho. assert (length l <> 0)%nat as Hne by (intros H%nil_length_inv; subst; cbn in *; lia).
  assert (forall k op, l !! 0%nat = Some (k, op) -> k = 0) as H0.
  { destruct l as [|[k op] l]; [done|]. intros ? ? [= <- <-]. cbn in Hl. lia. }
  destruct (lookup_loop_spec (length l) l opcode 0 (Z.of_nat (length l))) as (r & Hr & Hrl & Hrh & Hb1 & Hb2).
  { repeat split; try lia.
    - intros k op Hk. apply H0 in Hk. lia.
    - intros k op Hk. rewrite Nat2Z.id in Hk. apply lookup_lt_Some in Hk. lia. }
  { lia. }
  unfold lookup_impl. rewrite Hr.
  destruct (l !! Z.to_nat r) as [[k op]|] eqn:Hk; [|apply lookup_ge_None in Hk; lia].
  exists k, op. split; [done|]. pose proof (list_elem_of_lookup_2 _ _ _ Hk) as Hin.
  split; [done|]. specialize (Hb1 _ _ eq_refl).
  destruct (laid_in _ _ _ _ _ (tiled_laid _ _ _ Hl) Hin) as (Hlo & ? & _).
  split; cbn; [lia|].
  pose proof (tiled_next _ _ _ _ _ _ Hl Hk) as Hn.
  replace (S (Z.to_nat r)) with (Z.to_nat (r + 1)) in Hn by lia.
  destruct (l !! Z.to_nat (r + 1)) as [[k' op']|]; cbn; [|lia].
  specialize (Hb2 _ _ eq_refl). lia.
Qed.
End Table.
