(* ===== verification/RegTracking.v ===== *)
(** * The control registers stay set

    The second instance of the interface of Tracking.v: between instructions all the
    control registers hold a value, so that the [expect]s of the instructions cannot
    panic.  Inside a jump the registers saved in the continuation are cleared first and
    then merged back; this is where the proofs work. *)

From S2P Require Import Prelude External Values VmStack VmGas VmRegs VmState GasLaws.
From S2P Require Import ArithOps ContOps Tracking.

Open Scope vm_scope.

#[local] Abbreviation any := (fun _ => True).

Section RegTracking.
Context `{CL : CellLib}.
Implicit Types (s : VmState) (r : ControlRegs) (c : cont).

Record regs_ok r : Prop := {
  ok_c0 : is_Some (c0 r); ok_c1 : is_Some (c1 r); ok_c2 : is_Some (c2 r);
  ok_c3 : is_Some (c3 r); ok_d0 : is_Some (d0 r); ok_d1 : is_Some (d1 r);
  ok_c7 : is_Some (c7 r)
}.

Definition regs_set s s' : Prop := regs_ok (cr s) -> regs_ok (cr s').
Definition err_ok (e : VmError) s : Prop :=
  e <> Panic /\ (is_out_of_gas e = false -> regs_ok (cr s)).
Definition regs_set_err (e : VmError) s s' : Prop := regs_ok (cr s) -> err_ok e s'.

#[export] Instance regs_tracking : Tracking regs_set regs_set_err.
Proof. split; [split|]; unfold regs_set, regs_set_err; repeat intro; auto. Qed.

#[local] Abbreviation tr := (tracks regs_set regs_set_err any).

(** Hoare triples with the common error condition. *)
Definition hoare {A} (P : VmState -> Prop) (m : VM A) (Q : A -> VmState -> Prop) : Prop :=
  forall s, P s -> match m s with
                   | (Ok a, s') => Q a s'
                   | (Err e, s') => err_ok e s'
                   end.

#[local] Abbreviation ok := (fun s => regs_ok (cr s)).

Lemma hoare_bind {A B} P Q R (m : VM A) (k : A -> VM B) :
  hoare P m Q -> (forall a, hoare (Q a) (k a) R) -> hoare P (bind m k) R.
Proof.
  intros Hm Hk s Hs. unfold bind. specialize (Hm s Hs).
  destruct (m s) as [[a|e] s']; [|done]. by apply Hk.
Qed.

Lemma hoare_tr {A} (m : VM A) : hoare ok m (fun _ => ok) -> tr m.
Proof. intros H s. specialize (H s). destruct (m s) as [[] ?]; [by split|done]. Qed.

Lemma hoare_of_tr {A} (m : VM A) : tr m -> hoare ok m (fun _ => ok).
Proof. intros H s Hs. specialize (H s). destruct (m s) as [[] ?]; [by apply H|by apply H]. Qed.

(** Nothing but the registers matters: operations that leave them alone. *)
Lemma hoare_frame {A} (P : ControlRegs -> Prop) (m : VM A) :
  (forall s, cr (m s).2 = cr s) ->
  (forall s, P (cr s) ->
     match (m s).1 with Ok _ => True | Err e => e <> Panic /\ (is_out_of_gas e = false -> regs_ok (cr s)) end) ->
  hoare (fun s => P (cr s)) m (fun _ s => P (cr s)).
Proof.
  intros Hf He s Hs. specialize (Hf s). specialize (He s Hs).
  destruct (m s) as [[] s']; cbn in *; [by rewrite Hf|]. unfold err_ok. by rewrite Hf.
Qed.

Lemma hoare_ret {A} (Q : A -> VmState -> Prop) a : hoare (Q a) (ret a) Q.
Proof. by intros s Hs. Qed.

Lemma frame_stack {A} (m : MS (list value) VmError A) : forall s, cr (on_stack m s).2 = cr s.
Proof. intros s. unfold on_stack, zoom. by destruct (m (stack s)). Qed.
Lemma frame_gas {A} (m : MS Gas.GasConsumer Error A) : forall s, cr (on_gas m s).2 = cr s.
Proof. intros s. unfold on_gas, zoom, map_err. by destruct (m (gas s)) as [[] ?]. Qed.

Lemma tr_stack {A} (m : MS (list value) VmError A) : safe m -> tr (on_stack m).
Proof.
  intros H. apply hoare_tr, (hoare_frame regs_ok); [apply frame_stack|].
  intros s Hs. unfold on_stack, zoom. specialize (H (stack s)).
  destruct (m (stack s)) as [[] ?]; cbn; [done|]. by split.
Qed.

Lemma tr_gas {A} (m : MS Gas.GasConsumer Error A) : tr (on_gas m).
Proof.
  apply hoare_tr, (hoare_frame regs_ok); [apply frame_gas|].
  intros s Hs. unfold on_gas, zoom, map_err. destruct (m (gas s)) as [[] ?]; cbn; [done|].
  by split.
Qed.

(** Charging gas can only fail with out of gas: safe whatever the registers. *)
Lemma hoare_charge P n : hoare (fun s => P (cr s)) (on_gas (Gas.try_consume n)) (fun _ s => P (cr s)).
Proof.
  apply hoare_frame; [apply frame_gas|]. intros s _. unfold on_gas, zoom, map_err.
  destruct (Gas.try_consume n (gas s)) as [[]e] eqn:Hc; cbn; [done|].
  by rewrite (try_consume_cancelled _ _ _ _ Hc).
Qed.

Lemma hoare_stack_gas P st :
  hoare (fun s => P (cr s)) (on_gas (Gas.try_consume_stack_gas st)) (fun _ s => P (cr s)).
Proof.
  destruct st; [apply hoare_charge|]. apply hoare_frame; [apply frame_gas | done].
Qed.

(** ** Registers and continuations *)

Lemma regs_ok_merge r sv : regs_ok r -> regs_ok (Regs.merge r sv).
Proof.
  intros []. unfold Regs.merge, Regs.merge_value.
  split; cbn; case_match; eauto.
Qed.

Lemma regs_ok_put r i c : regs_ok r -> regs_ok (Regs.put_c i (Some c) r).
Proof. intros []. unfold Regs.put_c. destruct i as [|[[]|[]|]|]; by split; cbn; eauto. Qed.

(** The registers are set once those of the continuation are merged in. *)
Definition ready c s : Prop :=
  match get_control_data c with
  | Some d => regs_ok (Regs.merge (cr s) (save d))
  | None => regs_ok (cr s)
  end.

Lemma ok_ready c s : regs_ok (cr s) -> ready c s.
Proof. unfold ready. destruct (get_control_data c); [apply regs_ok_merge | done]. Qed.

Lemma force_cp_hoare n : hoare ok (force_cp n) (fun _ => ok).
Proof.
  intros s Hs. unfold force_cp, codepage, bind, modify. case_bool; cbn; [done|]. by split.
Qed.

Lemma set_c0_hoare c : hoare ok (set_c0 c) (fun _ => ok).
Proof. intros s Hs. by apply (regs_ok_put (cr s) 0). Qed.

Lemma cont_jump_hoare c e : hoare (ready c) (cont_jump c e) (fun _ => ok).
Proof.
  destruct c as [code| |v next|n body after|body|body after|chk cond body after|d ext|d code];
    cbn [cont_jump]; unfold ready; cbn [get_control_data].
  - apply (hoare_ret (fun _ => ok)).
  - intros s Hs. unfold bind, try_ms, on_stack, zoom.
    by destruct (Stack.pop_smallint_range _ _ _) as [[] ?].
  - eapply (hoare_bind _ (fun _ => ok)); [apply hoare_of_tr, tr_stack; auto with track|].
    intros _. apply (hoare_ret (fun _ => ok)).
  - repeat case_match; try apply (hoare_ret (fun _ => ok)).
    eapply (hoare_bind _ (fun _ => ok)); [apply set_c0_hoare|]. intros _. apply (hoare_ret (fun _ => ok)).
  - eapply (hoare_bind _ (fun _ => ok)); [destruct (negb _); [apply set_c0_hoare | apply (hoare_ret (fun _ => ok))]|].
    intros _. apply (hoare_ret (fun _ => ok)).
  - eapply (hoare_bind _ (fun _ => ok)); [apply hoare_of_tr, tr_stack; auto with track|].
    intros b. destruct b; [apply (hoare_ret (fun _ => ok))|].
    eapply (hoare_bind _ (fun _ => ok)); [destruct (negb _); [apply set_c0_hoare | apply (hoare_ret (fun _ => ok))]|].
    intros _. apply (hoare_ret (fun _ => ok)).
  - eapply (hoare_bind _ (fun _ => ok)).
    { destruct chk; [|apply (hoare_ret (fun _ => ok))].
      eapply (hoare_bind _ (fun _ => ok)); [apply hoare_of_tr, tr_stack; auto with track|].
      intros b. apply (hoare_ret (fun _ => ok)). }
    intros [next|]; [|apply (hoare_ret (fun _ => ok))].
    eapply (hoare_bind _ (fun _ => ok)); [destruct (negb _); [apply set_c0_hoare | apply (hoare_ret (fun _ => ok))]|].
    intros _. apply (hoare_ret (fun _ => ok)).
  - eapply (hoare_bind _ (fun _ => ok)); [by intros s Hs|]. intros _.
    eapply (hoare_bind _ (fun _ => ok)); [|intros _; apply (hoare_ret (fun _ => ok))].
    destruct (cd_cp d); [apply force_cp_hoare | apply (hoare_ret (fun _ => ok))].
  - eapply (hoare_bind _ (fun _ => ok)); [by intros s Hs|]. intros _.
    eapply (hoare_bind _ (fun _ => ok)); [intros s Hs; destruct (cd_cp d); cbn; [done | by split]|].
    intros n. eapply (hoare_bind _ (fun _ => ok)); [|intros _; apply (hoare_ret (fun _ => ok))].
    unfold set_code. eapply (hoare_bind _ (fun _ => ok)); [by intros s Hs|].
    intros _. apply force_cp_hoare.
Qed.

(** The stack primitives that the argument checks protect. *)
Lemma drop_bottom_total n s : 0 <= n <= Stack.depth (stack s) ->
  exists st, on_stack (Stack.drop_bottom n) s = (Ok tt, set_stack st s).
Proof.
  intros Hn. unfold on_stack, zoom, Stack.drop_bottom, bind, gets, ensure, modify.
  case_bool; [|lia]. cbn. by eexists.
Qed.

Lemma pop_many_total n s : n <= Stack.depth (stack s) ->
  exists st, on_stack (Stack.pop_many n) s = (Ok tt, set_stack st s).
Proof.
  intros Hn. unfold on_stack, zoom, Stack.pop_many, bind, gets, of_option, modify.
  rewrite checked_sub_u_Some by lia. cbn. by eexists.
Qed.

Lemma move_args_total n l s : 0 <= n <= Stack.depth (stack s) ->
  exists moved st, move_args n l s = (Ok moved, set_stack st s) /\
    Stack.depth st = Stack.depth (stack s) - n.
Proof.
  intros Hn. unfold move_args, Stack.move_from_stack. rewrite checked_sub_u_Some by lia.
  do 2 eexists. split; [reflexivity|]. unfold Stack.depth in *. rewrite length_take. lia.
Qed.

Lemma check_args_inv d p n s res s' : check_args d p n s = (res, s') ->
  s' = s /\ match res with
            | Ok _ => or_zero p <= n /\ or_zero (nargs d) <= n /\
                      (forall m, p = Some m -> or_zero (nargs d) <= Z.of_N m)
            | Err e => e <> Panic /\ is_out_of_gas e = false
            end.
Proof.
  unfold check_args, bind, ensure, raise, ret.
  destruct (_ && _) eqn:Hb; [|intros [= <- <-]; done]. zify_bool.
  destruct p as [m|]; [case_bool|]; intros [= <- <-]; repeat split; try done; try lia;
    intros ? [= <-]; lia.
Qed.

Lemma adjust_stack_hoare st nd s1 : 0 <= nd <= Stack.depth (stack s1) ->
  hoare (fun s => s = s1) (adjust_stack st nd (Stack.depth (stack s1))) (fun _ s => cr s = cr s1).
Proof.
  intros Hnd. set (P := fun r : ControlRegs => r = cr s1).
  assert (hoare (fun s => s = s1) (if nd <? Stack.depth (stack s1) then
             on_stack (Stack.drop_bottom (Stack.depth (stack s1) - nd)) ;;
             on_gas (Gas.try_consume_stack_depth_gas nd)
           else ret tt) (fun _ s => cr s = cr s1)) as Hd.
  { case_bool; [|by intros ? ->].
    eapply (hoare_bind _ (fun _ s => P (cr s))); [|intros _; apply (hoare_charge P)].
    intros ? ->. destruct (drop_bottom_total (Stack.depth (stack s1) - nd) s1 ltac:(lia))
      as [st' E]. by rewrite E. }
  unfold adjust_stack. destruct st as [[|v l]|]; [exact Hd | | exact Hd]. clear Hd.
  eapply (hoare_bind _ (fun _ s => P (cr s))).
  - intros ? ->. destruct (move_args_total nd (v :: l) s1 Hnd) as (moved & st & E & _).
    by rewrite E.
  - intros moved. eapply (hoare_bind _ (fun _ s => P (cr s))); [apply (hoare_stack_gas P)|].
    by intros _ s Hs.
Qed.

(** [adjust_jump_cont] returns the continuation it was given, ready to be entered. *)
Lemma adjust_hoare c p : hoare ok (adjust_jump_cont c p) (fun c' s => c' = c /\ ready c s).
Proof.
  intros s Hs. unfold adjust_jump_cont.
  rewrite (bind_ok _ _ s (Stack.depth (stack s)) s) by done.
  assert (0 <= Stack.depth (stack s)) as Hd0 by (unfold Stack.depth; lia).
  destruct (get_control_data c) as [data|] eqn:Hc.
  - destruct (check_args data p (Stack.depth (stack s)) s) as [r s'] eqn:Hca.
    destruct (check_args_inv _ _ _ _ _ _ Hca) as [-> Hr]. destruct r as [[]|e].
    2:{ rewrite (bind_err _ _ _ _ _ Hca). split; [apply Hr | done]. }
    rewrite (bind_ok _ _ _ _ _ Hca). destruct Hr as (Hp & Hn & _).
    set (s1 := set_cr (Regs.preclear (cr s) (save data)) s).
    rewrite (bind_ok _ _ s tt s1) by done. cbv zeta.
    change (Stack.depth (stack s)) with (Stack.depth (stack s1)) in *.
    match goal with |- context [adjust_stack _ ?n _] =>
      pose proof (adjust_stack_hoare (cd_stack data) n s1) as Ha end.
    unfold bind. specialize (Ha ltac:(unfold or_zero in *; destruct (nargs data), p; cbn in *; lia) s1 eq_refl).
    destruct (adjust_stack _ _ _ s1) as [[[]|e] s2]; [|done]. cbn. split; [done|].
    unfold ready. rewrite Hc, Ha. unfold s1; cbn. rewrite merge_preclear. by apply regs_ok_merge.
  - destruct p as [pass|]; [|split; [done|by apply ok_ready]]. cbv zeta.
    unfold bind at 1, of_option, checked_sub_u. case_bool; cbn [ret raise]; [|by split].
    unfold ret at 1. apply (hoare_bind (fun s' => s' = s) (fun _ s' => cr s' = cr s)); [| |done].
    + case_bool; [|by intros ? ->].
      eapply (hoare_bind _ (fun _ s' => cr s' = cr s)); [|intros _; apply (hoare_charge (fun r => r = cr s))].
      intros ? ->. destruct (drop_bottom_total (Stack.depth (stack s) - Z.of_N pass) s ltac:(lia)) as [st E].
      by rewrite E.
    + intros _ s' E. split; [done|]. apply ok_ready. by rewrite E.
Qed.

(** ** Jumps and calls *)

(** The continuation that comes next is a proper part of the one entered. *)
Lemma cont_jump_depth c e s next e' s' :
  cont_jump c e s = (Ok (Some next, e'), s') -> (cont_depth next < cont_depth c)%nat.
Proof.
  destruct c; cbn [cont_jump cont_depth]; unfold bind, try_ms, ret, on_stack, zoom, adjust_cr,
    force_cp, set_code, set_c0, put_reg, modify, of_option, raise;
    intros; simplify_eq; try lia; repeat (case_match; simplify_eq; try lia).
Qed.

Lemma jump_loop_hoare fuel c n e : (cont_depth c < fuel)%nat ->
  hoare (ready c) (jump_loop fuel c n e) (fun x s => regs_ok (cr s) /\ is_Some x).
Proof.
  revert c n e. induction fuel as [|fuel IH]; intros c n e Hf; cbn [jump_loop]; [lia|].
  eapply (hoare_bind _ (fun x s => regs_ok (cr s) /\
    forall next, x.1 = Some next -> (cont_depth next < cont_depth c)%nat)).
  { intros s Hs. pose proof (cont_jump_hoare c e s Hs) as H.
    pose proof (cont_jump_depth c e s) as Hd.
    destruct (cont_jump c e s) as [[[next e']|] s']; [|done]. split; [done|].
    cbn. intros ? ->. by eapply Hd. }
  intros [[next|] e']; cbn [fst].
  2:{ intros s [Hs _]. split; [done | by eexists]. }
  intros s [Hs Hd]. specialize (Hd next eq_refl). revert s Hs.
  apply (hoare_bind ok (fun _ => ok)).
  { case_bool; [apply (hoare_charge regs_ok) | by intros s Hs]. }
  intros _. apply (hoare_bind ok (fun c' s => c' = next /\ ready next s)).
  - destruct (get_control_data next) as [data|] eqn:Hc.
    + destruct (needs_adjust data).
      * intros s Hs. pose proof (adjust_hoare next None s Hs) as H.
        destruct (adjust_jump_cont _ _ _) as [[] ?]; [|done]. destruct H as [-> H]. done.
      * intros s Hs. split; [done | by apply ok_ready].
    + intros s Hs. split; [done | by apply ok_ready].
  - intros c' s [-> Hs]. apply IH; [lia | done].
Qed.

Lemma do_jump_hoare c : hoare (ready c) (do_jump_to c) (fun _ => ok).
Proof.
  eapply hoare_bind; [by apply jump_loop_hoare; lia|]. by intros x s [Hs _].
Qed.

Lemma tr_jump_ext c p : tr (jump_ext c p).
Proof.
  apply hoare_tr. eapply hoare_bind; [apply adjust_hoare|].
  intros c' s [-> Hs]. by apply do_jump_hoare.
Qed.

Lemma tr_do_jump c : tr (do_jump_to c).
Proof. apply hoare_tr. intros s Hs. by apply do_jump_hoare, ok_ready. Qed.

Lemma tr_jump c : tr (jump c).
Proof. unfold jump. repeat case_match; by (apply tr_jump_ext || apply tr_do_jump). Qed.

(** Taking arguments that the checks have counted cannot fail. *)
Lemma split_top_ext_total n d s : 0 <= n -> 0 <= d -> n + d <= Stack.depth (stack s) ->
  exists top st, on_stack (Stack.split_top_ext n d) s = (Ok top, set_stack st s).
Proof.
  intros Hn Hd H. unfold on_stack, zoom, Stack.split_top_ext, bind, gets, of_option, modify.
  rewrite checked_sub_u_Some by lia. cbn. by do 2 eexists.
Qed.

Lemma copy_skip_bounds (data : ControlData) p s : let d := Stack.depth (stack s) in
  or_zero p <= d -> or_zero (nargs data) <= d ->
  (forall m, p = Some m -> or_zero (nargs data) <= Z.of_N m) ->
  let '(copy, skip) := copy_skip p (nargs data) in
  0 <= default 0 copy /\ 0 <= skip /\ default d copy + skip <= d.
Proof.
  intros d Hp Hn Hpn. assert (0 <= d) by (unfold d, Stack.depth; lia).
  unfold copy_skip, or_zero in *. destruct p as [m|]; [|cbn; lia].
  specialize (Hpn m eq_refl). destruct (nargs data); cbn in *; lia.
Qed.

(** Registers of a callee: [c0] is about to be set, the others are precleared. *)
Lemma callee_ready c (data : ControlData) old x r : get_control_data c = Some data ->
  c0 (save data) = None -> regs_ok r ->
  regs_ok (Regs.merge (Regs.put_c 0 (Some x)
             (Regs.preclear (Regs.put_c 0 old r) (save data))) (save data)).
Proof.
  intros _ Hc []. unfold Regs.merge, Regs.preclear, Regs.merge_value, Regs.preclear_value.
  split; cbn; rewrite ?Hc; cbn; try case_match; eauto.
Qed.

Definition callee c s : Prop := forall x, ready c (set_cr (Regs.put_c 0 (Some x) (cr s)) s).

Lemma call_finish_hoare c new_stack ret_args old_c0 :
  hoare (callee c)
    (let* code := take_code in
     let* id := gets cp in
     let* saved := gets stack in
     modify (set_stack new_stack) ;;
     put_reg 0 (Some (OrdCont (mkData ret_args (Some saved)
                                 (Regs.put_c 0 old_c0 regs_default) (Some id)) code)) ;;
     do_jump_to c) (fun _ => ok).
Proof. intros s Hs. cbn. apply do_jump_hoare, Hs. Qed.

Lemma tr_call_ext c p ra : tr (call_ext c p ra).
Proof.
  unfold call_ext. destruct (get_control_data c) as [data|] eqn:Hc.
  2:{ apply hoare_tr. eapply (hoare_bind _ (fun _ => ok)).
      - destruct p as [m|]; [|by intros s Hs].
        eapply (hoare_bind _ (fun _ => ok)); [apply hoare_of_tr, tr_stack; auto with track|].
        intros st. eapply (hoare_bind _ (fun _ => ok)); [apply (hoare_stack_gas regs_ok)|].
        by intros _ s Hs.
      - intros st s Hs. rewrite (bind_ok _ _ s (c0 (cr s)) s) by done.
        rewrite (bind_ok _ _ s tt (set_cr (Regs.put_c 0 None (cr s)) s)) by done.
        apply call_finish_hoare. intros x. unfold ready. rewrite Hc.
        destruct Hs. by split; cbn; eauto. }
  destruct (c0 (save data)) as [c'|] eqn:Hc0; [apply tr_jump_ext|].
  apply hoare_tr. intros s Hs. rewrite (bind_ok _ _ s (Stack.depth (stack s)) s) by done.
  destruct (check_args data p (Stack.depth (stack s)) s) as [res s'] eqn:Hca.
  destruct (check_args_inv _ _ _ _ _ _ Hca) as [-> Hr]. destruct res as [[]|e].
  2:{ rewrite (bind_err _ _ _ _ _ Hca). split; [apply Hr | done]. }
  rewrite (bind_ok _ _ _ _ _ Hca). destruct Hr as (Hp & Hn & Hpn).
  set (s1 := set_cr (Regs.preclear (Regs.put_c 0 None (cr s)) (save data)) s).
  rewrite (bind_ok _ _ s (c0 (cr s)) s) by done.
  rewrite (bind_ok _ _ s tt (set_cr (Regs.put_c 0 None (cr s)) s)) by done.
  rewrite (bind_ok _ _ _ tt s1) by done.
  pose proof (copy_skip_bounds data p s1 Hp Hn Hpn) as Hcs.
  destruct (copy_skip p (nargs data)) as [copy skip].
  set (P := fun r : ControlRegs => r = cr s1).
  apply (hoare_bind (fun s => s = s1) (fun _ s => P (cr s))); [| |done].
  - assert (hoare (fun s => s = s1)
              (match copy with
               | Some copy =>
                   let* new_stack := on_stack (Stack.split_top_ext copy skip) in
                   on_gas (Gas.try_consume_stack_gas (Some new_stack)) ;;
                   ret new_stack
               | None => take_stack
               end) (fun _ s => P (cr s))) as Hsplit.
    { destruct copy as [n|]; [|by intros ? ->].
      eapply (hoare_bind _ (fun _ s => P (cr s))).
      - intros ? ->. destruct (split_top_ext_total n skip s1) as (top & st & E); cbn in *; [lia..|].
        by rewrite E.
      - intros top. eapply (hoare_bind _ (fun _ s => P (cr s))); [apply (hoare_stack_gas P)|].
        by intros _ s' Hs'. }
    destruct (cd_stack data) as [[|v l]|]; [exact Hsplit | | exact Hsplit]. clear Hsplit.
    intros ? ->.
    assert (0 <= Stack.depth (stack s)) by (unfold Stack.depth; lia).
    destruct (move_args_total (default (Stack.depth (stack s)) copy) (v :: l) s1)
      as (moved & st & E & Hst); [destruct copy; cbn in *; lia|].
    rewrite (bind_ok _ _ _ _ _ E).
    destruct (pop_many_total skip (set_stack st s1)) as [st' E'];
      [cbn in *; lia|]. rewrite (bind_ok _ _ _ _ _ E').
    apply (hoare_bind (fun s => P (cr s)) (fun _ s => P (cr s))); [apply (hoare_stack_gas P)| |done].
    by intros _ s' Hs'.
  - intros new_stack s' Hs'. apply call_finish_hoare. intros x. unfold ready. rewrite Hc.
    cbn. rewrite Hs'. by apply (callee_ready c).
Qed.

Lemma tr_call c : tr (call c).
Proof.
  assert (tr (let* code := take_code in
              let* id := gets cp in
              let* old_c0 := get_reg 0 in
              put_reg 0 (Some (OrdCont (mkData None None (Regs.put_c 0 old_c0 regs_default)
                                (Some id)) code)) ;;
              do_jump_to c)) as Hsimple.
  { apply hoare_tr. intros s Hs. cbn. apply do_jump_hoare, ok_ready. cbn.
    by apply (regs_ok_put (cr s) 0). }
  unfold call. destruct (get_control_data c); [|exact Hsimple].
  repeat case_match; [apply tr_jump | apply tr_call_ext | exact Hsimple].
Qed.

(** ** The current continuation *)

(** Only [c2] may be missing. *)
Definition but_c2 s : Prop := forall h, regs_ok (Regs.put_c 2 (Some h) (cr s)).

Lemma extract_stack_hoare (sc : option N) depth :
  hoare ok
    (match sc with
     | Some n =>
         let n := Z.of_N n in
         if n =? 0 then ret None
         else if negb (n =? depth) then
           let* stack := on_stack (Stack.split_top n) in
           on_gas (Gas.try_consume_stack_gas (Some stack)) ;;
           ret (Some stack)
         else let* stack := take_stack in ret (Some stack)
     | None => let* stack := take_stack in ret (Some stack)
     end) (fun _ => ok).
Proof.
  destruct sc as [n|]; [cbv zeta|by intros s Hs]. repeat case_bool; cbn [negb]; try by intros s Hs.
  eapply (hoare_bind _ (fun _ => ok)); [apply hoare_of_tr, tr_stack; auto with track|].
  intros st. eapply (hoare_bind _ (fun _ => ok)); [apply (hoare_stack_gas regs_ok)|].
  by intros _ s Hs.
Qed.

(** A saved register is replaced by one that is set, except for [c2]. *)
Lemma save_reg_hoare (P : ControlRegs -> Prop) b i (q : VmState -> option cont) :
  (forall s, P (cr s) -> P (Regs.put_c i (q s) (cr s))) ->
  hoare (fun s => P (cr s))
    (if b : bool then
       let* old := get_reg i in
       let* q := gets q in
       put_reg i q ;; ret old
     else ret None) (fun _ s => P (cr s)).
Proof. intros H s Hs. destruct b; cbn; auto. Qed.

Lemma extract_hoare mode p ra :
  hoare ok (extract_cc mode p ra) (fun _ s =>
    if save_contains mode SAVE_C2 then but_c2 s else regs_ok (cr s)).
Proof.
  unfold extract_cc. eapply (hoare_bind _ (fun _ => ok)); [by intros s Hs|]. intros d.
  eapply hoare_bind; [apply extract_stack_hoare|]. intros ns.
  do 3 (eapply (hoare_bind _ (fun _ => ok)); [by intros s Hs|]; intros ?).
  eapply (hoare_bind _ (fun _ => ok)); [destruct ns; by intros s Hs|]. intros _.
  eapply (hoare_bind _ (fun _ => ok)).
  { intros s Hs. destruct (save_contains mode SAVE_C0); [|done]. by apply (regs_ok_put (cr s) 0). }
  intros s0. eapply (hoare_bind _ (fun _ => ok)).
  { intros s Hs. destruct (save_contains mode SAVE_C1); [|done]. by apply (regs_ok_put (cr s) 1). }
  intros s1 s Hs. destruct (save_contains mode SAVE_C2); [|done].
  intros h. by apply (regs_ok_put (cr s) 2).
Qed.

Lemma tr_extract mode p ra : save_contains mode SAVE_C2 = false -> tr (extract_cc mode p ra).
Proof. intros H. apply hoare_tr. pose proof (extract_hoare mode p ra) as E. by rewrite H in E. Qed.

Lemma tr_try a : tr (exec_try_common a).
Proof.
  apply hoare_tr. unfold exec_try_common, ContOps.pop_cont.
  do 2 (eapply (hoare_bind _ (fun _ => ok)); [apply hoare_of_tr, tr_stack; auto with track|intros ?]).
  eapply (hoare_bind _ (fun _ => ok)); [by intros s Hs|]. intros c2.
  eapply (hoare_bind _ (fun _ => but_c2)); [apply extract_hoare|]. intros cc s Hs.
  rewrite (bind_ok _ _ s tt (set_cr (Regs.put_c 0 (Some cc) (cr s)) s)) by done.
  match goal with |- context [put_reg 2 (Some ?h)] => specialize (Hs h) end.
  apply (hoare_bind (fun s' => s' = set_cr (Regs.put_c 0 (Some cc) (cr s)) s) (fun _ => ok)); [| |done].
  - intros ? ->. apply (regs_ok_put _ 0 cc) in Hs. exact Hs.
  - intros _. apply hoare_of_tr, tr_jump.
Qed.

Lemma regs_set_reg i v : tracks (fun r r' => regs_ok r -> regs_ok r')
  (fun e r r' => e <> Panic /\ r' = r) any (Regs.set i v).
Proof.
  intros r. unfold Regs.set, bind, of_result, modify, raise. repeat case_match; simplify_eq;
    split; try done.
  all: try (intros []; split; cbn; by eauto).
  all: try (by intros H'; apply regs_ok_put).
  all: try (intros []; unfold Regs.put_data; repeat case_match; split; cbn; by eauto).
  all: by destruct v; simplify_eq/=.
Qed.

#[export] Instance regs_vm_tracking : VmTracking regs_set regs_set_err.
Proof.
  split.
  - apply _.
  - intros e s He Hs. by split.
  - intros s s' E _ _ Hs. by rewrite E.
  - intros A Q m Hm s. pose proof (tr_gas m s) as H. unfold on_gas, zoom, map_err in *.
    specialize (Hm (gas s)). destruct (m (gas s)) as [[] ?]; [split; [apply H | apply Hm] | exact H].
  - intros n s _ Hs. exact Hs.
  - intros i c _ s. split; [|done]. intros Hs. by apply regs_ok_put.
  - intros i v. apply (tracks_zoom _ _ _ _ _ _ _ _ (regs_set_reg i v)).
    + intros s regs H Hs. by apply H.
    + intros e s regs [He ->] Hs. by split.
  - intros t s. split; [|done]. intros []. by split; cbn.
  - intros i c s. split; [|done]. intros []. cbn. unfold Regs.put_data.
    repeat case_match; split; cbn; by eauto.
  - intros i Hi. apply hoare_tr. intros s [[? H0] [? H1] [? H2] [? H3] ? ? ?].
    unfold expect_reg, get_reg, bind, gets.
    assert (i = 0 \/ i = 1 \/ i = 2 \/ i = 3) as [->|[->|[->| ->]]] by lia; cbn;
      rewrite ?H0, ?H1, ?H2, ?H3; split; cbn; eauto.
  - apply hoare_tr. intros s []. by split; cbn.
  - apply hoare_tr. intros s Hs. destruct (ok_c0 _ Hs) as [x Hx].
    unfold c1_save_set, bind, gets. cbn. rewrite Hx. cbn.
    destruct Hs. by split; cbn; eauto.
  - apply tr_jump.
  - apply tr_jump_ext.
  - apply tr_call.
  - apply tr_call_ext.
  - intros. by apply tr_extract.
  - apply tr_try.
Qed.
End RegTracking.
