(* ===== verification/ArithSpec.v ===== *)
(** * What the arithmetic, comparison and shift instructions compute

    Rounding division against its mathematical definition, and the instructions of
    ArithOps.v, CmpOps.v and LogicOps.v on the abstract stack (top first): every operand,
    including NaN, and every overflow. *)

From S2P Require Import Prelude External Values VmStack VmGas VmRegs VmState ArithOps CmpOps.
From S2P Require Import LogicOps.

Open Scope vm_scope.

(** ** Rounding division *)

(** The remainder left by a quotient rounded down, to the nearest (ties up) or up. *)
Definition rem_ok (m : RoundMode) (r y : Z) : Prop :=
  match m with
  | Floor => 0 <= r * Z.sgn y < Z.abs y
  | Nearest => - Z.abs y <= 2 * (r * Z.sgn y) < Z.abs y
  | Ceiling => - Z.abs y < r * Z.sgn y <= 0
  end.

Lemma rem_ok_unique m x y q r q' r' : y <> 0 ->
  x = q * y + r -> rem_ok m r y -> x = q' * y + r' -> rem_ok m r' y -> q = q' /\ r = r'.
Proof.
  intros Hy E R E' R'. assert (q = q') as ->; [|lia].
  assert (r - r' = (q' - q) * y) as Hd by lia.
  assert (Z.abs (r - r') < Z.abs y) as Hlt.
  { destruct (Z.lt_trichotomy y 0) as [Hs|[Hs|Hs]]; [|lia|];
      destruct m; unfold rem_ok in *; rewrite ?Z.sgn_neg, ?Z.sgn_pos in * by lia; lia. }
  rewrite Hd, Z.abs_mul in Hlt. nia.
Qed.

(** Truncated division, with the signs made explicit. *)
Lemma quot_rem_facts x y : y <> 0 ->
  x = y * Z.quot x y + Z.rem x y /\ Z.abs (Z.rem x y) < Z.abs y /\
  (Z.rem x y <> 0 -> x <> 0 /\ 0 < Z.rem x y * x).
Proof.
  intros Hy. split; [by apply Z.quot_rem|]. split; [by apply Z.rem_bound_abs|].
  intros Hr. assert (x <> 0) as Hx by (intros ->; by rewrite Z.rem_0_l in Hr).
  split; [done|]. pose proof (Z.rem_sign_nz x y Hy Hr).
  destruct (Z.lt_trichotomy x 0) as [?|[?|?]]; [|lia|];
    destruct (Z.lt_trichotomy (Z.rem x y) 0) as [?|[?|?]]; try lia; nia.
Qed.

Lemma same_sign_spec x y : x <> 0 -> y <> 0 -> same_sign x y = (0 <? x * y).
Proof.
  intros Hx Hy. unfold same_sign.
  destruct (Z.lt_trichotomy x 0) as [?|[?|?]], (Z.lt_trichotomy y 0) as [?|[?|?]]; try lia;
    rewrite ?(Z.sgn_neg x), ?(Z.sgn_pos x), ?(Z.sgn_neg y), ?(Z.sgn_pos y) by lia;
    symmetry; (apply Z.ltb_lt; nia) || (apply Z.ltb_ge; nia).
Qed.

Lemma nearest_spec r x y : r <> 0 -> y <> 0 ->
  nearest_rounding_required r x y = true <->
  Z.abs y < 2 * Z.abs r \/ (Z.abs y = 2 * Z.abs r /\ same_sign x y = true).
Proof.
  intros Hr Hy. unfold nearest_rounding_required. case_bool; [done|].
  rewrite Z.shiftl_mul_pow2 by lia. rewrite Z.abs_mul. change (Z.abs (2 ^ 1)) with 2.
  destruct (Z.compare_spec (Z.abs r * 2) (Z.abs y)); intuition (try lia; try done).
Qed.

Lemma ceil_spec r y : r <> 0 -> y <> 0 -> ceil_rounding_required r y = (0 <? r * y).
Proof.
  intros Hr Hy. unfold ceil_rounding_required. rewrite (proj2 (Z.eqb_neq r 0) Hr). cbn.
  by apply same_sign_spec.
Qed.

(** A remainder in terms of its sign. *)
Ltac signs y :=
  destruct (Z.lt_trichotomy y 0) as [?|[?|?]]; [|lia|];
  rewrite ?(Z.sgn_neg y), ?(Z.sgn_pos y), ?(Z.abs_neq y), ?(Z.abs_eq y) in * by lia.

Lemma int_divmod_ok x y m : y <> 0 ->
  x = fst (int_divmod x y m) * y + snd (int_divmod x y m) /\
  rem_ok m (snd (int_divmod x y m)) y.
Proof.
  intros Hy. destruct m; cbn [int_divmod].
  - cbn. pose proof (Z.div_mod x y Hy). split; [lia|].
    signs y; [pose proof (Z.mod_neg_bound x y) | pose proof (Z.mod_pos_bound x y)]; lia.
  - destruct (quot_rem_facts x y Hy) as (E & B & Sg).
    set (q := Z.quot x y) in *. set (r := Z.rem x y) in *. clearbody q r.
    destruct (Z.eq_dec r 0) as [->|Hr].
    { unfold nearest_rounding_required. cbn. split; [lia|]. signs y; lia. }
    destruct (Sg Hr) as [Hx Hrx].
    pose proof (nearest_spec r x y Hr Hy) as Hn.
    destruct (nearest_rounding_required r x y).
    + destruct (proj1 Hn eq_refl) as [H|[H Hs]]; rewrite ?same_sign_spec in * by done;
        repeat case_bool; cbn [fst snd rem_ok]; (split; [lia|]); signs y; try nia; try lia.
    + assert (~ (Z.abs y < 2 * Z.abs r \/ Z.abs y = 2 * Z.abs r /\ same_sign x y = true)) as Hn'
        by (intros H; by apply Hn in H).
      rewrite same_sign_spec in Hn' by done. cbn [fst snd rem_ok]. split; [lia|].
      destruct (Z.ltb_spec 0 (x * y)) as [Hp|Hp]; signs y; nia.
  - destruct (quot_rem_facts x y Hy) as (E & B & Sg).
    set (q := Z.quot x y) in *. set (r := Z.rem x y) in *. clearbody q r.
    destruct (Z.eq_dec r 0) as [->|Hr]; [cbn; split; [lia|]; signs y; lia|].
    destruct (Sg Hr) as [Hx Hrx]. rewrite ceil_spec, !same_sign_spec by done.
    repeat case_bool; cbn [fst snd rem_ok]; (split; [lia|]); signs y; signs r; signs x;
      try lia; nia.
Qed.

Lemma int_div_fst x y m : int_div x y m = fst (int_divmod x y m).
Proof. destruct m; cbn; [done|by destruct (nearest_rounding_required _ _ _)|by destruct (ceil_rounding_required _ _)]. Qed.

Lemma int_mod_snd x y m : int_mod x y m = snd (int_divmod x y m).
Proof. destruct m; cbn; [done|by destruct (nearest_rounding_required _ _ _)|by destruct (ceil_rounding_required _ _)]. Qed.

Lemma shift_pow2 x k m : 0 <= k ->
  int_rshift x k m = int_div x (2 ^ k) m /\ int_mod_pow2 x k m = int_mod x (2 ^ k) m /\
  int_rshiftmod x k m = int_divmod x (2 ^ k) m.
Proof.
  intros Hk. unfold int_rshift, int_mod_pow2, int_rshiftmod.
  rewrite Z.shiftl_1_l. assert (Z.land x (2 ^ k - 1) = x mod 2 ^ k) as Hl.
  { rewrite <- Z.land_ones by done. by rewrite Z.ones_equiv, <- Z.sub_1_r. }
  destruct m; [|done..]. cbn. by rewrite Hl, Z.shiftr_div_pow2.
Qed.

(** ** The abstract stack *)

Section Spec.
Context `{CL : CellLib} `{BL : !BigIntLaws}.
Implicit Types (l : list value) (s : VmState).

#[local] Abbreviation len l := (Z.of_nat (length l)).
#[local] Abbreviation SM := (MS (list value) VmError).

Definition in_257 (z : Z) : bool := (- 2 ^ 256 <=? z) && (z <? 2 ^ 256).

(** The integers of the stack fit in 257 bits. *)
Definition ints_fit l : Prop :=
  Forall (fun v => match v with VInt z => in_257 z = true | _ => True end) l.

(** An operand of an arithmetic instruction: an integer, NaN or a type error. *)
Definition operand (v : value) : result VmError (option Z) :=
  match v with
  | VInt z => Ok (Some z)
  | VNaN => Ok None
  | v => Err (InvalidType TyInt (ty v))
  end.

(** An integer result: NaN or an overflow if there is none or it does not fit. *)
Definition int_result (quiet : bool) (o : option Z) : result VmError value :=
  match o with
  | Some z => if in_257 z then Ok (VInt z) else if quiet then Ok VNaN else Err IntegerOverflow
  | None => if quiet then Ok VNaN else Err IntegerOverflow
  end.

(** The specification of an instruction: its result and the abstract stack after it. *)
Abbreviation outcome := (result VmError unit * list value)%type.

Definition pop_operand (l : list value) (k : option Z -> list value -> outcome) : outcome :=
  match l with
  | [] => (Err (StackUnderflow 0), [])
  | v :: l => match operand v with Ok o => k o l | Err e => (Err e, l) end
  end.

Definition push_value_spec (r : result VmError value) (l : list value) : outcome :=
  match r with Ok v => (Ok tt, v :: l) | Err e => (Err e, l) end.

(** One stack computation refines an outcome. *)
Definition refines (m : SM unit) l (o : outcome) : Prop :=
  m (of_view l) = (fst o, of_view (snd o)).

Lemma pop_operand_refines l k K :
  (forall v o l', l = v :: l' -> operand v = Ok o -> refines (k o) l' (K o l')) ->
  refines (bind Stack.pop_int_or_nan k) l (pop_operand l K).
Proof.
  intros H. unfold refines, pop_operand. destruct l as [|v l].
  - done.
  - unfold bind, Stack.pop_int_or_nan. unfold bind at 1. rewrite pop_ok.
    specialize (fun o => H v o l eq_refl). unfold refines in H.
    destruct v; cbn; try done; by apply H.
Qed.

Lemma operand_fits v o l : ints_fit (v :: l) -> operand v = Ok o ->
  ints_fit l /\ (forall z, o = Some z -> - 2 ^ 256 <= z < 2 ^ 256).
Proof.
  intros [Hv Hl]%List.Forall_cons_iff Ho. split; [done|]. intros z ->.
  destruct v; simplify_eq/=. unfold in_257 in Hv. zify_bool. done.
Qed.

Lemma in_257_bitsize z : small_int z -> (bitsize true z <=? 257) = in_257 z.
Proof.
  intros Hz. pose proof (bitsize_signed 257 z Hz ltac:(lia)) as H.
  change (257 - 1) with 256 in H. apply eq_iff_eq_true. unfold in_257.
  rewrite Z.leb_le, andb_true_iff, Z.leb_le, Z.ltb_lt. exact H.
Qed.

Lemma push_refines v l : len l < Stack.MAX_DEPTH -> refines (Stack.push_raw v) l (Ok tt, v :: l).
Proof. intros H. unfold refines. by rewrite push_raw_ok. Qed.

Lemma push_int_refines quiet z l : len l < Stack.MAX_DEPTH -> small_int z ->
  refines (Stack.push_raw_int z quiet) l (push_value_spec (int_result quiet (Some z)) l).
Proof.
  intros Hl Hz. unfold Stack.push_raw_int, int_result. rewrite in_257_bitsize by done.
  destruct (in_257 z); [by apply push_refines|]. destruct quiet; [by apply push_refines | done].
Qed.

Lemma nan_refines quiet l : len l < Stack.MAX_DEPTH ->
  refines (nan_or_overflow quiet Stack.push_nan) l (push_value_spec (int_result quiet None) l).
Proof. intros Hl. destruct quiet; [by apply push_refines | done]. Qed.

(** From the stack to the VM. *)
Lemma done_on_stack m l o s : stack s = of_view l -> refines m l o ->
  done_ (on_stack m) s =
  (match fst o with Ok _ => Ok 0 | Err e => Err e end, set_stack (of_view (snd o)) s).
Proof.
  intros Hs H. unfold done_, bind, on_stack, zoom. rewrite Hs, H. by destruct (fst o) as [[]|].
Qed.

(** Instructions with one and with two operands. *)
Definition unary_outcome (f : Z -> Z) (quiet : bool) l : outcome :=
  pop_operand l (fun x l => push_value_spec (int_result quiet (option_map f x)) l).

Definition binary_outcome (f : Z -> Z -> Z) (quiet : bool) l : outcome :=
  pop_operand l (fun y l => pop_operand l (fun x l =>
    push_value_spec (int_result quiet
      match x, y with Some x, Some y => Some (f x y) | _, _ => None end) l)).

Lemma unary_refines f quiet l : len l <= Stack.MAX_DEPTH -> ints_fit l ->
  (forall x, - 2 ^ 256 <= x < 2 ^ 256 -> small_int (f x)) ->
  refines (let* x := Stack.pop_int_or_nan in
           match x with
           | Some x => Stack.push_raw_int (f x) quiet
           | None => nan_or_overflow quiet Stack.push_nan
           end) l (unary_outcome f quiet l).
Proof.
  intros Hd Hl Hf. apply pop_operand_refines. intros v o l' -> Ho.
  destruct (operand_fits _ _ _ Hl Ho) as [Hl' Hz]. cbn [length] in Hd.
  destruct o as [x|]; [apply push_int_refines; [lia | by apply Hf, Hz]|].
  apply nan_refines. lia.
Qed.

Lemma binary_refines f quiet l : len l <= Stack.MAX_DEPTH -> ints_fit l ->
  (forall x y, - 2 ^ 256 <= x < 2 ^ 256 -> - 2 ^ 256 <= y < 2 ^ 256 -> small_int (f x y)) ->
  refines (let* y := Stack.pop_int_or_nan in
           let* x := Stack.pop_int_or_nan in
           match x, y with
           | Some x, Some y => Stack.push_raw_int (f x y) quiet
           | _, _ => nan_or_overflow quiet Stack.push_nan
           end) l (binary_outcome f quiet l).
Proof.
  intros Hd Hl Hf. apply pop_operand_refines. intros v o l' -> Ho.
  destruct (operand_fits _ _ _ Hl Ho) as [Hl' Hz].
  apply pop_operand_refines. intros v' o' l'' -> Ho'.
  destruct (operand_fits _ _ _ Hl' Ho') as [_ Hz']. cbn [length] in Hd.
  destruct o' as [x|], o as [y|]; try (apply nan_refines; lia).
  apply push_int_refines; [lia | by apply Hf; [apply Hz'|apply Hz]].
Qed.

(** An instruction of the VM that refines an outcome on the abstract stack: nothing
    else of the state changes. *)
Definition instr_refines (i : VM Z) (outcome_of : list value -> outcome) : Prop :=
  forall s l, stack s = of_view l -> len l <= Stack.MAX_DEPTH -> ints_fit l ->
  i s = (match fst (outcome_of l) with Ok _ => Ok 0 | Err e => Err e end,
         set_stack (of_view (snd (outcome_of l))) s).

(** [g] is how the code computes [f]. *)
Lemma unary_instr f g quiet : (forall x, g x = f x) ->
  (forall x, - 2 ^ 256 <= x < 2 ^ 256 -> small_int (f x)) ->
  instr_refines (done_ (on_stack (unary_int quiet (fun x => Stack.push_raw_int (g x) quiet))))
    (unary_outcome f quiet).
Proof.
  intros Hg Hf s l Hs Hd Hl. assert (unary_outcome f quiet l = unary_outcome g quiet l) as ->.
  { unfold unary_outcome, pop_operand. destruct l as [|v l]; [done|].
    destruct (operand v) as [[x|]|]; [|done..]. cbn [option_map]. by rewrite Hg. }
  eapply done_on_stack; [done|]. apply unary_refines; [done..|]. intros x. rewrite Hg. auto.
Qed.

Lemma binary_instr f quiet :
  (forall x y, - 2 ^ 256 <= x < 2 ^ 256 -> - 2 ^ 256 <= y < 2 ^ 256 -> small_int (f x y)) ->
  instr_refines (done_ (on_stack (
      let* y := Stack.pop_int_or_nan in
      let* x := Stack.pop_int_or_nan in
      match x, y with
      | Some x, Some y => Stack.push_raw_int (f x y) quiet
      | _, _ => nan_or_overflow quiet Stack.push_nan
      end))) (binary_outcome f quiet).
Proof. intros Hf s l Hs Hd Hl. eapply done_on_stack; [done|]. by apply binary_refines. Qed.

Lemma small_mul x y : - 2 ^ 256 <= x < 2 ^ 256 -> - 2 ^ 256 <= y < 2 ^ 256 -> small_int (x * y).
Proof.
  intros Hx Hy. unfold small_int. rewrite Z.abs_mul.
  assert (Z.abs x * Z.abs y <= 2 ^ 256 * 2 ^ 256) as H by (apply Z.mul_le_mono_nonneg; lia).
  rewrite <- Z.pow_add_r in H by lia. eapply Z.le_lt_trans; [exact H|].
  by apply Z.pow_lt_mono_r.
Qed.

Lemma small_512 z : Z.abs z <= 2 ^ 512 -> small_int z.
Proof. intros H. eapply Z.le_lt_trans; [exact H|]. by apply Z.pow_lt_mono_r. Qed.

(** Bitwise operations stay in the range of their operands. *)
Lemma range_shiftr z : - 2 ^ 256 <= z < 2 ^ 256 <-> Z.shiftr z 256 = 0 \/ Z.shiftr z 256 = -1.
Proof.
  rewrite Z.shiftr_div_pow2 by lia. set (m := 2 ^ 256). assert (0 < m) as Hm by done. clearbody m.
  pose proof (Z.div_mod z m ltac:(lia)). pose proof (Z.mod_pos_bound z m Hm). nia.
Qed.

Lemma bitwise_range (op : Z -> Z -> Z) x y :
  (forall a b n, Z.shiftr (op a b) n = op (Z.shiftr a n) (Z.shiftr b n)) ->
  (forall a b, a = 0 \/ a = -1 -> b = 0 \/ b = -1 -> op a b = 0 \/ op a b = -1) ->
  - 2 ^ 256 <= x < 2 ^ 256 -> - 2 ^ 256 <= y < 2 ^ 256 -> - 2 ^ 256 <= op x y < 2 ^ 256.
Proof. rewrite !range_shiftr. intros -> H ? ?. by apply H. Qed.

Lemma small_range z : - 2 ^ 256 <= z < 2 ^ 256 -> small_int z.
Proof. intros H. apply small_512. assert (2 ^ 256 <= 2 ^ 512) by (by apply Z.pow_le_mono_r). lia. Qed.

Lemma lxor_range x y : - 2 ^ 256 <= x < 2 ^ 256 -> - 2 ^ 256 <= y < 2 ^ 256 ->
  small_int (Z.lxor x y).
Proof.
  intros. apply small_range, (bitwise_range Z.lxor); try done; [intros; apply Z.shiftr_lxor|].
  intros a b [-> | ->] [-> | ->]; cbn; auto.
Qed.

(** *** AND and OR *)

(** A zero decides AND whatever the other operand, and -1 decides OR. *)
Definition absorbing_outcome (f : Z -> Z -> Z) (absorb : Z) (quiet : bool) l : outcome :=
  pop_operand l (fun y l => pop_operand l (fun x l =>
    push_value_spec (int_result quiet
      match x, y with
      | Some x, Some y => Some (f x y)
      | Some x, None | None, Some x => if x =? absorb then Some absorb else None
      | None, None => None
      end) l)).

Lemma absorbing_refines f a test (push : SM unit) quiet l : len l <= Stack.MAX_DEPTH ->
  ints_fit l -> in_257 a = true -> (forall x, test x = (x =? a)) ->
  push = Stack.push_raw (VInt a) ->
  (forall x y, - 2 ^ 256 <= x < 2 ^ 256 -> - 2 ^ 256 <= y < 2 ^ 256 -> small_int (f x y)) ->
  refines (let* y := Stack.pop_int_or_nan in
           let* x := Stack.pop_int_or_nan in
           match x, y with
           | Some x, Some y => Stack.push_raw_int (f x y) quiet
           | Some x, None | None, Some x =>
               if test x : bool then push else nan_or_overflow quiet Stack.push_nan
           | None, None => nan_or_overflow quiet Stack.push_nan
           end) l (absorbing_outcome f a quiet l).
Proof.
  intros Hd Hl Ha Ht -> Hf. apply pop_operand_refines. intros v o l' -> Ho.
  destruct (operand_fits _ _ _ Hl Ho) as [Hl' Hz].
  apply pop_operand_refines. intros v' o' l'' -> Ho'.
  destruct (operand_fits _ _ _ Hl' Ho') as [_ Hz']. cbn [length] in Hd.
  destruct o' as [x|], o as [y|]; rewrite ?Ht;
    try (apply push_int_refines; [lia | by apply Hf; [apply Hz'|apply Hz]]);
    try case_bool; try (apply nan_refines; lia).
  all: cbn [int_result]; rewrite Ha; apply push_refines; lia.
Qed.

(** *** Division *)

Fixpoint push_ints (quiet : bool) (zs : list Z) l : outcome :=
  match zs with
  | [] => (Ok tt, l)
  | z :: zs =>
      match int_result quiet (Some z) with
      | Ok v => push_ints quiet zs (v :: l)
      | Err e => (Err e, l)
      end
  end.

Definition nans (op : Operation) (quiet : bool) l : outcome :=
  if quiet then (Ok tt, match op with OpDivmod => VNaN :: VNaN :: l | _ => VNaN :: l end)
  else (Err IntegerOverflow, l).

(** The results an operation keeps of a quotient and a remainder. *)
Definition kept (op : Operation) (qr : Z * Z) : list Z :=
  match op with OpDiv => [qr.1] | OpMod => [qr.2] | OpDivmod => [qr.1; qr.2] end.

(** The division of [x] (plus [w]) by [y], where they are integers and [y] is not 0. *)
Definition quotient_outcome (quiet : bool) (rm : RoundMode) (op : Operation) (add : bool)
    (w x y : option Z) l : outcome :=
  match x, y with
  | Some x, Some y =>
      if y =? 0 then nans op quiet l
      else if add then
        match w with
        | Some w => push_ints quiet (kept op (int_divmod (x + w) y rm)) l
        | None => nans op quiet l
        end
      else push_ints quiet (kept op (int_divmod x y rm)) l
  | _, _ => nans op quiet l
  end.

Definition pop_added (add : bool) l (k : option Z -> list value -> outcome) : outcome :=
  if add then pop_operand l k else k None l.

Lemma push_ints_refines quiet zs l : len l + Z.of_nat (length zs) <= Stack.MAX_DEPTH ->
  Forall small_int zs ->
  refines (fold_right (fun z k => Stack.push_raw_int z quiet ;; k) (ret tt) zs) l
    (push_ints quiet zs l).
Proof.
  revert l. induction zs as [|z zs IH]; intros l Hl Hz; [done|].
  apply List.Forall_cons_iff in Hz as [Hz Hzs]. cbn [fold_right push_ints length] in *.
  pose proof (push_int_refines quiet z l ltac:(lia) Hz) as H. unfold refines, bind in *.
  rewrite H. destruct (int_result quiet (Some z)) as [v|e]; cbn; [|done].
  apply IH; [cbn [length]; lia | done].
Qed.

Lemma nans_refines op quiet l : len l + 2 <= Stack.MAX_DEPTH ->
  refines (nan_or_overflow quiet (op_nans op)) l (nans op quiet l).
Proof.
  intros Hl. unfold nans. destruct quiet; [|done]. cbn. unfold refines, op_nans, bind.
  unfold Stack.push_nan. rewrite push_raw_ok by lia.
  destruct op; try done. rewrite push_raw_ok by (cbn [length]; lia). done.
Qed.

Lemma divmod_small x y m : y <> 0 -> Z.abs x <= 2 ^ 600 -> Z.abs y <= 2 ^ 600 ->
  small_int (int_divmod x y m).1 /\ small_int (int_divmod x y m).2.
Proof.
  intros Hy Hx Hb. destruct (int_divmod_ok x y m Hy) as [E R].
  assert (Z.abs (int_divmod x y m).2 < Z.abs y + 1) as Hr.
  { destruct m; cbn [rem_ok] in R; signs y; lia. }
  destruct (int_divmod x y m) as [q r]. cbn [fst snd] in *.
  assert (2 ^ 600 + 2 ^ 600 + 2 ^ 600 < 2 ^ 2048) as Hp by (vm_compute; reflexivity).
  assert (Z.abs q * Z.abs y <= Z.abs x + Z.abs r) as Hq by (rewrite <- Z.abs_mul; lia).
  assert (1 <= Z.abs y) as H1 by lia. unfold small_int. clear E R.
  revert Hp Hx Hb. generalize (2 ^ 600) (2 ^ 2048). intros b M Hp Hx Hb. split; [|lia].
  assert (Z.abs q * 1 <= Z.abs q * Z.abs y) by (apply Z.mul_le_mono_nonneg_l; lia). lia.
Qed.

(** [divide_push] with its operands, where they fit. *)
Lemma divide_refines quiet rm op add w x y l : len l + 2 <= Stack.MAX_DEPTH -> y <> 0 ->
  (op = OpDivmod \/ add = false) ->
  Z.abs x <= 2 ^ 599 -> Z.abs y <= 2 ^ 599 -> (forall z, w = Some z -> Z.abs z <= 2 ^ 599) ->
  refines (divide_push op add w x y rm quiet) l
    (quotient_outcome quiet rm op add w (Some x) (Some y) l).
Proof.
  intros Hl Hy Ha Hx Hb Hw. unfold quotient_outcome. rewrite (proj2 (Z.eqb_neq y 0) Hy).
  assert (2 ^ 600 = 2 ^ 599 + 2 ^ 599) as H600 by reflexivity.
  assert (forall x', Z.abs x' <= 2 ^ 600 -> forall op',
    refines (match op' with
             | OpDiv => Stack.push_raw_int (int_div x' y rm) quiet
             | OpMod => Stack.push_raw_int (int_mod x' y rm) quiet
             | OpDivmod => push_qr (int_divmod x' y rm) quiet
             end) l (push_ints quiet (kept op' (int_divmod x' y rm)) l)) as Hpush.
  { intros x' Hx' op'. destruct (divmod_small x' y rm Hy Hx' ltac:(lia)) as [S1 S2].
    assert (Forall small_int (kept op' (int_divmod x' y rm))) as HS
      by (destruct op'; repeat constructor; done).
    pose proof (push_ints_refines quiet (kept op' (int_divmod x' y rm)) l
      ltac:(destruct op'; cbn; lia) HS) as H.
    unfold refines in *. rewrite <- H. clear H. unfold push_qr.
    destruct op'; cbn [kept fold_right]; rewrite ?int_div_fst, ?int_mod_snd; unfold bind;
      repeat (destruct (Stack.push_raw_int _ quiet _) as [[[]|]]); done. }
  destruct op; cbn [divide_push]; destruct Ha as [Ha|Ha]; try done; subst; cbn [add_w].
  - apply (Hpush x ltac:(lia) OpDiv).
  - apply (Hpush x ltac:(lia) OpMod).
  - unfold add_w. destruct add; [|apply (Hpush x ltac:(lia) OpDivmod)].
    destruct w as [w|]; [|by apply (nans_refines OpDivmod)].
    specialize (Hw w eq_refl). apply (Hpush (x + w) ltac:(lia) OpDivmod).
  - apply (Hpush x ltac:(lia) OpDivmod).
Qed.

(** Division by one is exact: the rounding mode does not matter. *)
Lemma divmod_one x m m' : int_divmod x 1 m = int_divmod x 1 m'.
Proof.
  destruct (int_divmod x 1 m) as [q r] eqn:E, (int_divmod x 1 m') as [q' r'] eqn:E'.
  destruct (int_divmod_ok x 1 m ltac:(lia)) as [H1 H2]. rewrite E in H1, H2.
  destruct (int_divmod_ok x 1 m' ltac:(lia)) as [H1' H2']. rewrite E' in H1', H2'.
  cbn [fst snd] in *. assert (r = 0) by (destruct m; cbn in H2; lia).
  assert (r' = 0) by (destruct m'; cbn in H2'; lia). f_equal; lia.
Qed.

Lemma shift_push_eq op add w x k rm quiet : 0 <= k ->
  shift_push op add w x k (if k =? 0 then Floor else rm) quiet
  = divide_push op add w x (2 ^ k) (if k =? 0 then Floor else rm) quiet.
Proof.
  intros Hk. destruct (shift_pow2 x k (if k =? 0 then Floor else rm) Hk) as (E1 & E2 & _).
  destruct op; cbn [shift_push divide_push]; rewrite ?E1, ?E2; try done.
  unfold add_w. destruct add; [destruct w as [w|]; [|done]|];
    by rewrite (proj2 (proj2 (shift_pow2 _ k _ Hk))).
Qed.

Lemma shift_refines quiet rm op add w x k l : len l + 2 <= Stack.MAX_DEPTH -> 0 <= k <= 256 ->
  (op = OpDivmod \/ add = false) ->
  Z.abs x <= 2 ^ 599 -> (forall z, w = Some z -> Z.abs z <= 2 ^ 599) ->
  refines (shift_push op add w x k (if k =? 0 then Floor else rm) quiet) l
    (quotient_outcome quiet rm op add w (Some x) (Some (2 ^ k)) l).
Proof.
  intros Hl Hk Ha Hx Hw. rewrite shift_push_eq by lia.
  assert (0 < 2 ^ k) as Hp by (apply Z.pow_pos_nonneg; lia).
  assert (2 ^ k <= 2 ^ 599) as Hp' by (apply Z.pow_le_mono_r; lia).
  assert (forall m, m = rm \/ k = 0 -> quotient_outcome quiet m op add w (Some x) (Some (2 ^ k)) l
                    = quotient_outcome quiet rm op add w (Some x) (Some (2 ^ k)) l) as E.
  { intros m [->| ->]; [done|]. unfold quotient_outcome. change (2 ^ 0) with 1. cbn [Z.eqb].
    destruct add; [destruct w; [|done]|]; by rewrite (divmod_one _ m rm). }
  rewrite <- (E (if k =? 0 then Floor else rm)) by (case_bool; tauto).
  apply divide_refines; try done; lia.
Qed.

(** The shift amount of an instruction: in the opcode or on the stack. *)
Definition pop_shift_outcome (imm : option Z) l (k : Z -> list value -> outcome) : outcome :=
  match imm with
  | Some z => k z l
  | None =>
      match l with
      | VInt z :: l =>
          if (0 <=? z) && (z <=? 256) then k z l else (Err (IntegerOutOfRange 0 256 z), l)
      | VNaN :: l => (Err IntegerOverflow, l)
      | v :: l => (Err (InvalidType TyInt (ty v)), l)
      | [] => (Err (StackUnderflow 0), [])
      end
  end.

Lemma pop_shift_refines imm l k K : (forall z, imm = Some z -> 0 <= z <= 256) ->
  (forall z l', 0 <= z <= 256 -> (l' = l \/ exists v, l = v :: l') -> refines (k z) l' (K z l')) ->
  refines (bind (pop_shift imm) k) l (pop_shift_outcome imm l K).
Proof.
  intros Hi H. destruct imm as [z|]; cbn [pop_shift pop_shift_outcome].
  - apply (H z l); [by apply Hi | by left].
  - unfold refines, Stack.pop_smallint_range, Stack.pop_range, Stack.pop_int, bind.
    destruct l as [|v l]; [done|]. rewrite pop_ok.
    destruct v; try done. cbn. unfold to_u32, to_range.
    destruct ((0 <=? z) && (z <=? 256)) eqn:Hz.
    + assert ((0 <=? z) && (z <=? U32_MAX) = true) as ->
        by (zify_bool; unfold_widths; apply andb_true_iff; split; apply Z.leb_le; lia).
      rewrite Hz. zify_bool. apply H; [lia | right; by eexists].
    + destruct ((0 <=? z) && (z <=? U32_MAX)); [by rewrite Hz | done].
Qed.

(** An instruction that decodes its mode [m] first. *)
Definition division_refines (i : VM Z) (m : Z)
    (outcome_of : RoundMode -> Operation -> bool -> list value -> outcome) : Prop :=
  forall s l, stack s = of_view l -> len l < Stack.MAX_DEPTH -> ints_fit l ->
  i s = match round_from_args (Z.land m 3), decode_operation m (is_ton (version s) 4) with
        | Ok rm, Ok (op, add) =>
            (match fst (outcome_of rm op add l) with Ok _ => Ok 0 | Err e => Err e end,
             set_stack (of_view (snd (outcome_of rm op add l))) s)
        | Err e, _ | Ok _, Err e => (Err e, s)
        end.

(** Decoding, common to the five instructions. *)
Lemma division_instr i m (p : RoundMode -> Operation -> bool -> SM unit) outcome_of :
  i = (let* round_mode := of_result (round_from_args (Z.land m 3)) in
       let* v := gets version in
       let* (op, add) := of_result (decode_operation m (is_ton v 4)) in
       done_ (on_stack (p round_mode op add))) ->
  (forall rm op add l, (op = OpDivmod \/ add = false) -> len l < Stack.MAX_DEPTH ->
    ints_fit l -> refines (p rm op add) l (outcome_of rm op add l)) ->
  division_refines i m outcome_of.
Proof.
  intros -> Hp s l Hs Hd Hl. unfold bind at 1, of_result.
  destruct (round_from_args _) as [rm|e]; [|done].
  rewrite (bind_ok _ _ s (version s) s) by done. unfold bind at 1.
  destruct (decode_operation _ _) as [[op add]|e] eqn:Hdec; [|done].
  assert (op = OpDivmod \/ add = false) as Hop.
  { unfold decode_operation in Hdec. repeat case_match; simplify_eq; auto. }
  eapply done_on_stack; [done|]. by apply Hp.
Qed.

Lemma pop_added_refines add l k K :
  (add = false -> refines (k None) l (K None l)) ->
  (forall v o l', add = true -> l = v :: l' -> operand v = Ok o -> refines (k o) l' (K o l')) ->
  refines (bind (pop_w add) k) l (pop_added add l K).
Proof.
  intros H1 H2. destruct add; cbn [pop_w pop_added]; [|by apply H1].
  apply pop_operand_refines. eauto.
Qed.

(** *** The instructions *)

Definition divmod_outcome quiet rm op add l : outcome :=
  pop_operand l (fun y l => pop_added add l (fun w l => pop_operand l (fun x l =>
    quotient_outcome quiet rm op add w x y l))).

Definition muldivmod_outcome quiet rm op add l : outcome :=
  pop_operand l (fun z l => pop_added add l (fun w l => pop_operand l (fun y l =>
    pop_operand l (fun x l =>
      quotient_outcome quiet rm op add w
        match x, y with Some x, Some y => Some (x * y) | _, _ => None end z l)))).

Definition shrmod_outcome imm quiet rm op add l : outcome :=
  pop_shift_outcome imm l (fun k l => pop_added add l (fun w l => pop_operand l (fun x l =>
    quotient_outcome quiet rm op add w x (Some (2 ^ k)) l))).

Definition mulshrmod_outcome imm quiet rm op add l : outcome :=
  pop_shift_outcome imm l (fun k l => pop_added add l (fun w l => pop_operand l (fun y l =>
    pop_operand l (fun x l =>
      quotient_outcome quiet rm op add w
        match x, y with Some x, Some y => Some (x * y) | _, _ => None end (Some (2 ^ k)) l)))).

Definition shldivmod_outcome imm quiet rm op add l : outcome :=
  pop_shift_outcome imm l (fun k l => pop_operand l (fun y l => pop_added add l (fun w l =>
    pop_operand l (fun x l =>
      quotient_outcome quiet rm op add w (option_map (fun x => x * 2 ^ k) x) y l)))).

Ltac fits_tac :=
  repeat match goal with
  | H : ints_fit (?v :: ?l), Ho : operand ?v = Ok ?o |- _ =>
      pose proof (operand_fits v o l H Ho) as [? ?]; clear H Ho; cbn [length] in *
  end.

Lemma abs_599 x : - 2 ^ 256 <= x < 2 ^ 256 -> Z.abs x <= 2 ^ 599.
Proof. intros H. assert (2 ^ 256 <= 2 ^ 599) by (by apply Z.pow_le_mono_r). lia. Qed.

Lemma abs_mul_599 x y : - 2 ^ 256 <= x < 2 ^ 256 -> Z.abs y <= 2 ^ 256 -> Z.abs (x * y) <= 2 ^ 599.
Proof.
  intros Hx Hy. rewrite Z.abs_mul.
  assert (Z.abs x * Z.abs y <= 2 ^ 256 * 2 ^ 256) as H by (apply Z.mul_le_mono_nonneg; lia).
  etransitivity; [exact H|]. rewrite <- Z.pow_add_r by lia. by apply Z.pow_le_mono_r.
Qed.

(** The division itself, once its operands are known to fit. *)
Lemma quotient_refines quiet rm op add w x y l : len l + 2 <= Stack.MAX_DEPTH ->
  (op = OpDivmod \/ add = false) ->
  (forall z, x = Some z -> Z.abs z <= 2 ^ 599) -> (forall z, y = Some z -> Z.abs z <= 2 ^ 599) ->
  (forall z, w = Some z -> Z.abs z <= 2 ^ 599) ->
  refines (match x, y with
           | Some x, Some y =>
               if negb (y =? 0) then divide_push op add w x y rm quiet
               else nan_or_overflow quiet (op_nans op)
           | _, _ => nan_or_overflow quiet (op_nans op)
           end) l (quotient_outcome quiet rm op add w x y l).
Proof.
  intros Hl Ha Hx Hy Hw. destruct x as [x|], y as [y|]; try by apply nans_refines.
  destruct (Z.eqb_spec y 0) as [->|Hne]; cbn [negb]; [by apply nans_refines|].
  apply divide_refines; auto.
Qed.

Lemma divmod_refines quiet rm op add l : (op = OpDivmod \/ add = false) ->
  len l < Stack.MAX_DEPTH -> ints_fit l ->
  refines (let* y := Stack.pop_int_or_nan in
           let* w := pop_w add in
           let* x := Stack.pop_int_or_nan in
           match x, y with
           | Some x, Some y =>
               if negb (y =? 0) then divide_push op add w x y rm quiet
               else nan_or_overflow quiet (op_nans op)
           | _, _ => nan_or_overflow quiet (op_nans op)
           end) l (divmod_outcome quiet rm op add l).
Proof.
  intros Ha Hd Hl. apply pop_operand_refines. intros vy y l1 -> Hy. fits_tac.
  apply pop_added_refines.
  - intros ->. apply pop_operand_refines. intros vx x l2 -> Hx. fits_tac.
    apply quotient_refines; auto using abs_599; [lia | done].
  - intros vw w l2 -> -> Hw. fits_tac. apply pop_operand_refines. intros vx x l3 -> Hx. fits_tac.
    apply quotient_refines; auto using abs_599; lia.
Qed.

(** Of two factors or a shifted operand. *)
Lemma muldivmod_refines quiet rm op add l : (op = OpDivmod \/ add = false) ->
  len l < Stack.MAX_DEPTH -> ints_fit l ->
  refines (let* z := Stack.pop_int_or_nan in
           let* w := pop_w add in
           let* y := Stack.pop_int_or_nan in
           let* x := Stack.pop_int_or_nan in
           match x, y, z with
           | Some x, Some y, Some z =>
               if negb (z =? 0) then divide_push op add w (x * y) z rm quiet
               else nan_or_overflow quiet (op_nans op)
           | _, _, _ => nan_or_overflow quiet (op_nans op)
           end) l (muldivmod_outcome quiet rm op add l).
Proof.
  intros Ha Hd Hl. apply pop_operand_refines. intros vz z l1 -> Hz. fits_tac.
  assert (forall w l2, len l2 <= len l1 -> ints_fit l2 ->
    (forall z, w = Some z -> - 2 ^ 256 <= z < 2 ^ 256) ->
    refines (let* y := Stack.pop_int_or_nan in
           let* x := Stack.pop_int_or_nan in
           match x, y, z with
           | Some x, Some y, Some z =>
               if negb (z =? 0) then divide_push op add w (x * y) z rm quiet
               else nan_or_overflow quiet (op_nans op)
           | _, _, _ => nan_or_overflow quiet (op_nans op)
           end) l2 (pop_operand l2 (fun y l => pop_operand l (fun x l =>
      quotient_outcome quiet rm op add w
        match x, y with Some x, Some y => Some (x * y) | _, _ => None end z l)))) as Hgo.
  { intros w l2 Hl2 Hf Hw. apply pop_operand_refines. intros vy y l3 -> Hy. fits_tac.
    apply pop_operand_refines. intros vx x l4 -> Hx. fits_tac.
    destruct x as [x|], y as [y|]; cbn [quotient_outcome];
      try (apply nans_refines; lia).
    apply (quotient_refines quiet rm op add w (Some (x * y)) z); try lia; auto using abs_599.
    intros ? [= <-]. apply abs_mul_599; [auto|]. assert (- 2 ^ 256 <= y < 2 ^ 256) by auto. lia. }
  apply pop_added_refines.
  - intros ->. apply Hgo; [lia | done | done].
  - intros vw w l2 -> -> Hw. fits_tac. apply Hgo; [lia | done | done].
Qed.

Lemma imm_shift_range imm m k m' : imm_shift imm m = (k, m') ->
  forall z, k = Some z -> 0 <= z <= 256.
Proof.
  unfold imm_shift. destruct imm; intros [= <- _]; [|done]. intros z [= <-].
  change 255 with (Z.ones 8). rewrite Z.land_ones by lia.
  pose proof (Z.mod_pos_bound m (2 ^ 8)). lia.
Qed.

Lemma shrmod_refines k quiet rm op add l : (forall z, k = Some z -> 0 <= z <= 256) ->
  (op = OpDivmod \/ add = false) -> len l < Stack.MAX_DEPTH -> ints_fit l ->
  refines (let* y := pop_shift k in
           let round_mode := if y =? 0 then Floor else rm in
           let* w := pop_w add in
           let* x := Stack.pop_int_or_nan in
           match x with
           | Some x => shift_push op add w x y round_mode quiet
           | None => nan_or_overflow quiet (op_nans op)
           end) l (shrmod_outcome k quiet rm op add l).
Proof.
  intros Hk Ha Hd Hl. apply pop_shift_refines; [done|]. intros z l1 Hz Hl1.
  assert (ints_fit l1 /\ len l1 < Stack.MAX_DEPTH) as [Hf Hd1].
  { destruct Hl1 as [->|[v ->]]; [done|]. apply List.Forall_cons_iff in Hl as [_ Hl].
    cbn [length] in Hd. split; [done|lia]. }
  clear Hl1 Hl Hd. apply pop_added_refines.
  - intros ->. apply pop_operand_refines. intros vx x l2 -> Hx. fits_tac.
    destruct x as [x|]; [apply shift_refines; auto using abs_599; lia || done | apply nans_refines; lia].
  - intros vw w l2 -> -> Hw. fits_tac. apply pop_operand_refines. intros vx x l3 -> Hx. fits_tac.
    destruct x as [x|]; [apply shift_refines; auto using abs_599; lia | apply nans_refines; lia].
Qed.

Lemma mulshrmod_refines k quiet rm op add l : (forall z, k = Some z -> 0 <= z <= 256) ->
  (op = OpDivmod \/ add = false) -> len l < Stack.MAX_DEPTH -> ints_fit l ->
  refines (let* z := pop_shift k in
           let round_mode := if z =? 0 then Floor else rm in
           let* w := pop_w add in
           let* y := Stack.pop_int_or_nan in
           let* x := Stack.pop_int_or_nan in
           match x, y with
           | Some x, Some y => shift_push op add w (x * y) z round_mode quiet
           | _, _ => nan_or_overflow quiet (op_nans op)
           end) l (mulshrmod_outcome k quiet rm op add l).
Proof.
  intros Hk Ha Hd Hl. apply pop_shift_refines; [done|]. intros z l1 Hz Hl1.
  assert (ints_fit l1 /\ len l1 < Stack.MAX_DEPTH) as [Hf Hd1].
  { destruct Hl1 as [->|[v ->]]; [done|]. apply List.Forall_cons_iff in Hl as [_ Hl].
    cbn [length] in Hd. split; [done|lia]. }
  clear Hl1 Hl Hd.
  assert (forall w l2, len l2 <= len l1 -> ints_fit l2 ->
    (forall z, w = Some z -> - 2 ^ 256 <= z < 2 ^ 256) ->
    refines (let* y := Stack.pop_int_or_nan in
           let* x := Stack.pop_int_or_nan in
           match x, y with
           | Some x, Some y => shift_push op add w (x * y) z (if z =? 0 then Floor else rm) quiet
           | _, _ => nan_or_overflow quiet (op_nans op)
           end) l2 (pop_operand l2 (fun y l => pop_operand l (fun x l =>
      quotient_outcome quiet rm op add w
        match x, y with Some x, Some y => Some (x * y) | _, _ => None end (Some (2 ^ z)) l)))) as Hgo.
  { intros w l2 Hl2 Hf2 Hw. apply pop_operand_refines. intros vy y l3 -> Hy. fits_tac.
    apply pop_operand_refines. intros vx x l4 -> Hx. fits_tac.
    destruct x as [x|], y as [y|]; cbn [quotient_outcome]; try (apply nans_refines; lia).
    apply shift_refines; try lia; auto using abs_599.
    apply abs_mul_599; [auto|]. assert (- 2 ^ 256 <= y < 2 ^ 256) by auto. lia. }
  apply pop_added_refines.
  - intros ->. apply Hgo; [lia | done | done].
  - intros vw w l2 -> -> Hw. fits_tac. apply Hgo; [lia | done | done].
Qed.

Lemma shldivmod_refines k quiet rm op add l : (forall z, k = Some z -> 0 <= z <= 256) ->
  (op = OpDivmod \/ add = false) -> len l < Stack.MAX_DEPTH -> ints_fit l ->
  refines (let* z := pop_shift k in
           let* y := Stack.pop_int_or_nan in
           let* w := pop_w add in
           let* x := Stack.pop_int_or_nan in
           match x, y with
           | Some x, Some y =>
               if negb (y =? 0) then divide_push op add w (Z.shiftl x z) y rm quiet
               else nan_or_overflow quiet (op_nans op)
           | _, _ => nan_or_overflow quiet (op_nans op)
           end) l (shldivmod_outcome k quiet rm op add l).
Proof.
  intros Hk Ha Hd Hl. apply pop_shift_refines; [done|]. intros z l1 Hz Hl1.
  assert (ints_fit l1 /\ len l1 < Stack.MAX_DEPTH) as [Hf Hd1].
  { destruct Hl1 as [->|[v ->]]; [done|]. apply List.Forall_cons_iff in Hl as [_ Hl].
    cbn [length] in Hd. split; [done|lia]. }
  clear Hl1 Hl Hd. apply pop_operand_refines. intros vy y l2 -> Hy. fits_tac.
  assert (forall x, - 2 ^ 256 <= x < 2 ^ 256 -> Z.abs (x * 2 ^ z) <= 2 ^ 599) as Hsh.
  { intros x Hx. apply abs_mul_599; [done|].
    rewrite Z.abs_eq by (apply Z.pow_nonneg; lia). apply Z.pow_le_mono_r; lia. }
  apply pop_added_refines.
  - intros ->. apply pop_operand_refines. intros vx x l3 -> Hx. fits_tac.
    pose proof (quotient_refines quiet rm op false None (option_map (fun x => x * 2 ^ z) x) y l3) as HQ.
    destruct x as [x|]; cbn [option_map] in *; rewrite ?Z.shiftl_mul_pow2 by lia;
      (apply HQ; auto using abs_599; [lia|..]; intros ?; intros; simplify_eq; auto).
  - intros vw w l3 -> -> Hw. fits_tac. apply pop_operand_refines. intros vx x l4 -> Hx. fits_tac.
    pose proof (quotient_refines quiet rm op true w (option_map (fun x => x * 2 ^ z) x) y l4) as HQ.
    destruct x as [x|]; cbn [option_map] in *; rewrite ?Z.shiftl_mul_pow2 by lia;
      (apply HQ; auto using abs_599; [lia|..]; intros ?; intros; simplify_eq; auto).
Qed.

(** ** The properties *)

(** The instructions with one integer operand.  NEGATE, INC, DEC, ADDCONST, MULCONST, NOT,
    ABS and the shifts by a constant, plain and quiet: on any stack they compute the
    exact integer, push NaN or fail with an integer overflow when it does not fit in 257
    bits or the operand is NaN, and report a type error or an underflow otherwise. *)
Theorem unary_instructions (quiet : bool) (c y : Z)
    (Hc : -128 <= c <= 127) (Hy : 0 <= y <= 256) :
  instr_refines (exec_negate quiet) (unary_outcome (fun x => - x) quiet) /\
  instr_refines (exec_inc quiet) (unary_outcome (fun x => x + 1) quiet) /\
  instr_refines (exec_dec quiet) (unary_outcome (fun x => x - 1) quiet) /\
  instr_refines (exec_addint c quiet) (unary_outcome (fun x => x + c) quiet) /\
  instr_refines (exec_mulint c quiet) (unary_outcome (fun x => x * c) quiet) /\
  instr_refines (exec_not quiet) (unary_outcome (fun x => - x - 1) quiet) /\
  instr_refines (exec_abs quiet) (unary_outcome Z.abs quiet) /\
  instr_refines (exec_lshift_tinyint8 y quiet) (unary_outcome (fun x => x * 2 ^ y) quiet) /\
  instr_refines (exec_rshift_tinyint8 y quiet) (unary_outcome (fun x => x / 2 ^ y) quiet).
Proof.
  assert (2 ^ 256 * 2 ^ 9 <= 2 ^ 512) as H9 by (rewrite <- Z.pow_add_r by lia; by apply Z.pow_le_mono_r).
  assert (forall x, - 2 ^ 256 <= x < 2 ^ 256 -> Z.abs (x * 2 ^ y) <= 2 ^ 512) as Hshl.
  { intros x Hx. rewrite Z.abs_mul, (Z.abs_eq (2 ^ y)) by (apply Z.pow_nonneg; lia).
    change (2 ^ 512) with (2 ^ 256 * 2 ^ 256).
    apply Z.mul_le_mono_nonneg; [lia | lia | apply Z.pow_nonneg; lia | apply Z.pow_le_mono_r; lia]. }
  repeat apply conj; apply unary_instr; intros x.
  all: try (intros Hx; apply small_512; nia).
  all: try (rewrite Z.shiftl_mul_pow2 by lia; done).
  all: try (rewrite Z.shiftr_div_pow2 by lia; done).
  all: try done.
  - case_bool; lia.
  - auto using small_512.
  - intros Hx. apply small_range.
    pose proof (Z.div_mod x (2 ^ y)). pose proof (Z.pow_pos_nonneg 2 y).
    pose proof (Z.mod_pos_bound x (2 ^ y)). nia.
Qed.

(** C40: the instructions with two integer operands: ADD, SUB, SUBR, MUL and XOR, plain and
    quiet, with the operand on top taken as the second one. *)
Theorem binary_instructions (quiet : bool) :
  instr_refines (exec_add quiet) (binary_outcome Z.add quiet) /\
  instr_refines (exec_sub quiet) (binary_outcome Z.sub quiet) /\
  instr_refines (exec_subr quiet) (binary_outcome (fun x y => y - x) quiet) /\
  instr_refines (exec_mul quiet) (binary_outcome Z.mul quiet) /\
  instr_refines (exec_xor quiet) (binary_outcome Z.lxor quiet).
Proof.
  assert (2 ^ 256 * 2 ^ 9 <= 2 ^ 512) as H9 by (rewrite <- Z.pow_add_r by lia; by apply Z.pow_le_mono_r).
  repeat apply conj; apply binary_instr; intros x y Hx Hy.
  1-3: apply small_512; lia.
  - by apply small_mul.
  - by apply lxor_range.
Qed.

(** AND and OR: bitwise on two integers, and decided by a single 0 (respectively -1)
    when the other operand is NaN. *)
Theorem and_or_instructions (quiet : bool) :
  instr_refines (exec_and quiet) (absorbing_outcome Z.land 0 quiet) /\
  instr_refines (exec_or quiet) (absorbing_outcome Z.lor (-1) quiet).
Proof.
  split; intros s l Hs Hd Hl; (eapply done_on_stack; [done|]).
  - apply (absorbing_refines Z.land 0 (fun x => x =? 0)); try done.
    intros x y Hx Hy. apply small_range, (bitwise_range Z.land); try done; [intros; apply Z.shiftr_land|].
    intros a b [-> | ->] [-> | ->]; cbn; auto.
  - apply (absorbing_refines Z.lor (-1) (fun x => (x <? 0) && (Z.abs x =? 1))); try done.
    { intros x. repeat case_bool; cbn; lia. }
    intros x y Hx Hy. apply small_range, (bitwise_range Z.lor); try done; [intros; apply Z.shiftr_lor|].
    intros a b [-> | ->] [-> | ->]; cbn; auto.
Qed.

(** C38: the rounding division of two integers, in each of the three modes: quotient and
    remainder are the unique pair that adds up with a remainder on the right side of the
    divisor, and the routines for a quotient, a remainder and the shifts agree. *)
Theorem division_correct (m : RoundMode) (x y : Z) (Hy : y <> 0) :
  (forall q r, int_divmod x y m = (q, r) <-> x = q * y + r /\ rem_ok m r y) /\
  int_div x y m = (int_divmod x y m).1 /\ int_mod x y m = (int_divmod x y m).2 /\
  (forall k, 0 <= k -> int_rshiftmod x k m = int_divmod x (2 ^ k) m /\
     int_rshift x k m = (int_divmod x (2 ^ k) m).1 /\
     int_mod_pow2 x k m = (int_divmod x (2 ^ k) m).2).
Proof.
  split; [|split; [apply int_div_fst|split; [apply int_mod_snd|]]].
  - intros q r. destruct (int_divmod_ok x y m Hy) as [E R]. split; [by intros H; rewrite H in E, R|].
    intros [E' R']. destruct (int_divmod x y m) as [q' r']. cbn [fst snd] in *.
    destruct (rem_ok_unique m x y q' r' q r Hy E R E' R') as [-> ->]. done.
  - intros k Hk. destruct (shift_pow2 x k m Hk) as (-> & -> & ->).
    by rewrite int_div_fst, int_mod_snd.
Qed.

(** C39: the division instructions: DIV/MOD, MULDIV/MOD, SHR/MOD, MULSHR/MOD and SHLDIV/MOD
    with all their modes, on any stack: which operands they take and in which order, the
    version check of the adding variants, the results and their overflow, division by
    zero and NaN. *)
Theorem division_instructions (m : Z) (imm quiet : bool) :
  division_refines (exec_divmod m quiet) m (divmod_outcome quiet) /\
  division_refines (exec_muldivmod m quiet) m (muldivmod_outcome quiet) /\
  (let (k, m') := imm_shift imm m in
   division_refines (exec_shrmod m imm quiet) m' (shrmod_outcome k quiet) /\
   division_refines (exec_mulshrmod m imm quiet) m' (mulshrmod_outcome k quiet) /\
   division_refines (exec_shldivmod m imm quiet) m' (shldivmod_outcome k quiet)).
Proof.
  split; [|split].
  - apply (division_instr _ m _ _ eq_refl). intros. by apply divmod_refines.
  - apply (division_instr _ m _ _ eq_refl). intros. by apply muldivmod_refines.
  - destruct (imm_shift imm m) as [k m'] eqn:Hi. pose proof (imm_shift_range _ _ _ _ Hi) as Hk.
    unfold exec_shrmod, exec_mulshrmod, exec_shldivmod. rewrite Hi. repeat apply conj.
    + apply (division_instr _ m' _ _ eq_refl). intros. by apply shrmod_refines.
    + apply (division_instr _ m' _ _ eq_refl). intros. by apply mulshrmod_refines.
    + apply (division_instr _ m' _ _ eq_refl). intros. by apply shldivmod_refines.
Qed.
End Spec.

(** * What the comparison and range instructions compute

    The packed modes of CmpOps.v decode to the comparisons they are named after, the
    truncation of the immediate comparisons is harmless, and FITS, LSHIFT, POW2 and
    their relatives of LogicOps.v check exactly their ranges. *)

(** [-1] for true. *)
Definition truth (b : bool) : Z := if b then -1 else 0.
Definition sign_of (c : comparison) : Z := match c with Lt => -1 | Eq => 0 | Gt => 1 end.

(** The comparison a mode stands for. *)
Lemma check_cmp_modes x y :
  check_cmp (x ?= y) MODE_LESS = truth (x <? y) /\
  check_cmp (x ?= y) MODE_EQUAL = truth (x =? y) /\
  check_cmp (x ?= y) MODE_LEQ = truth (x <=? y) /\
  check_cmp (x ?= y) MODE_GREATER = truth (y <? x) /\
  check_cmp (x ?= y) MODE_NEQ = truth (negb (x =? y)) /\
  check_cmp (x ?= y) MODE_GEQ = truth (y <=? x) /\
  check_cmp (x ?= y) MODE_CMP = sign_of (x ?= y).
Proof.
  unfold truth. destruct (Z.compare_spec x y) as [->|H|H]; cbn; repeat case_bool; try lia;
    repeat apply conj; reflexivity.
Qed.

(** Truncation to 64 bits does not change the comparison with a 64-bit number. *)
Lemma truncated_compare x y : I64_MIN < y < I64_MAX -> (as_truncated_i64 x ?= y) = (x ?= y).
Proof.
  intros Hy. unfold as_truncated_i64, to_i64, to_range.
  destruct ((I64_MIN <=? x) && (x <=? I64_MAX)) eqn:Hx; [done|]. zify_bool.
  destruct x as [|p|p]; cbn [Z.sgn]; [unfold_widths; destruct Hx as [H|H]; zify_bool; lia|..].
  - transitivity Gt; [|symmetry]; apply Z.compare_gt_iff; unfold_widths; destruct Hx as [H|H]; zify_bool; lia.
  - transitivity Lt; [|symmetry]; apply Z.compare_lt_iff; unfold_widths; destruct Hx as [H|H]; zify_bool; lia.
Qed.

Section Spec.
Context `{CL : CellLib} `{BL : !BigIntLaws}.
Implicit Types (l : list value) (s : VmState).

#[local] Abbreviation len l := (Z.of_nat (length l)).
#[local] Abbreviation SM := (MS (list value) VmError).

(** A result that always fits is pushed as it is. *)
Lemma push_fit_refines quiet z l : len l < Stack.MAX_DEPTH -> in_257 z = true ->
  refines (Stack.push_int z) l (push_value_spec (int_result quiet (Some z)) l).
Proof. intros Hl Hz. cbn [int_result]. rewrite Hz. by apply push_refines. Qed.

Lemma unary_push quiet f (p : Z -> SM unit) : 
  (forall x l, - 2 ^ 256 <= x < 2 ^ 256 -> len l < Stack.MAX_DEPTH ->
    refines (p x) l (push_value_spec (int_result quiet (f x)) l)) ->
  instr_refines (done_ (on_stack (unary_int quiet p)))
    (fun l => pop_operand l (fun x l =>
       push_value_spec (int_result quiet match x with Some x => f x | None => None end) l)).
Proof.
  intros Hp s l Hs Hd Hl. eapply done_on_stack; [done|].
  apply pop_operand_refines. intros v o l' -> Ho.
  destruct (operand_fits _ _ _ Hl Ho) as [_ Hz]. cbn [length] in Hd.
  destruct o as [x|]; [apply Hp; [by apply Hz | lia] | apply nan_refines; lia].
Qed.

Lemma binary_push quiet f (p : Z -> Z -> SM unit) :
  (forall x y l, len l < Stack.MAX_DEPTH ->
    refines (p x y) l (push_value_spec (int_result quiet (Some (f x y))) l)) ->
  instr_refines (done_ (on_stack (
      let* y := Stack.pop_int_or_nan in
      let* x := Stack.pop_int_or_nan in
      match x, y with
      | Some x, Some y => p x y
      | _, _ => nan_or_overflow quiet Stack.push_nan
      end))) (binary_outcome f quiet).
Proof.
  intros Hp s l Hs Hd Hl. eapply done_on_stack; [done|].
  apply pop_operand_refines. intros v o l' -> Ho. apply pop_operand_refines.
  intros v' o' l'' -> Ho'. cbn [length] in Hd.
  destruct o' as [x|], o as [y|]; try (apply nan_refines; lia). apply Hp. lia.
Qed.

Lemma cmp_instr mode f quiet : (forall x y, check_cmp (x ?= y) mode = f x y) ->
  (forall x y, in_257 (f x y) = true) ->
  instr_refines (exec_cmp mode quiet) (binary_outcome f quiet) /\
  (forall y, I64_MIN < y < I64_MAX ->
     instr_refines (exec_cmp_int y mode quiet) (unary_outcome (fun x => f x y) quiet)).
Proof.
  intros Hf Hr. split.
  - apply (binary_push quiet f (fun x y => Stack.push_int (check_cmp (x ?= y) mode))).
    intros x y l Hl. rewrite Hf. by apply push_fit_refines.
  - intros y Hy. apply (unary_push quiet (fun x => Some (f x y))
      (fun x => Stack.push_int (check_cmp (as_truncated_i64 x ?= y) mode))).
    intros x l' _ Hl'. rewrite truncated_compare, Hf by done. by apply push_fit_refines.
Qed.

(** What a mode computes, on two integers and on an integer and a constant. *)
Definition computes (quiet : bool) (mode : Z) (f : Z -> Z -> Z) : Prop :=
  instr_refines (exec_cmp mode quiet) (binary_outcome f quiet) /\
  (forall y, I64_MIN < y < I64_MAX ->
     instr_refines (exec_cmp_int y mode quiet) (unary_outcome (fun x => f x y) quiet)).

(** The comparisons: LESS, EQUAL, LEQ, GREATER, NEQ, GEQ and CMP of two integers and of
    an integer with a constant push -1 for true and 0 for false (CMP the sign), NaN or
    an overflow for NaN; the comparison with a constant, made in 64 bits, is exact. *)
Theorem comparison_instructions (quiet : bool) :
  computes quiet MODE_LESS (fun x y => truth (x <? y)) /\
  computes quiet MODE_EQUAL (fun x y => truth (x =? y)) /\
  computes quiet MODE_LEQ (fun x y => truth (x <=? y)) /\
  computes quiet MODE_GREATER (fun x y => truth (y <? x)) /\
  computes quiet MODE_NEQ (fun x y => truth (negb (x =? y))) /\
  computes quiet MODE_GEQ (fun x y => truth (y <=? x)) /\
  computes quiet MODE_CMP (fun x y => sign_of (x ?= y)).
Proof.
  repeat apply conj; apply cmp_instr; intros x y; try apply check_cmp_modes;
    unfold truth, sign_of; by case_match.
Qed.

(** The interval of FITS and UFITS. *)
Definition fits_range (signed : bool) (n z : Z) : bool :=
  if signed then (- 2 ^ (n - 1) <=? z) && (z <? 2 ^ (n - 1)) else (0 <=? z) && (z <? 2 ^ n).

Lemma fits_spec signed n z : small_int z -> (signed = true -> 1 <= n) -> 0 <= n ->
  fits signed n z = fits_range signed n z.
Proof.
  intros Hz H1 Hn. unfold fits, fits_range. pose proof (has_correct_sign_spec signed z) as Hs.
  apply eq_iff_eq_true. rewrite !andb_true_iff, Z.leb_le, Hs. destruct signed.
  - rewrite (bitsize_signed n z Hz (H1 eq_refl)), andb_true_iff, Z.leb_le, Z.ltb_lt. intuition.
  - rewrite andb_true_iff, Z.leb_le, Z.ltb_lt. split.
    + intros [[|Hp] Hb]; [done|]. split; [done|]. by apply (bitsize_unsigned n z Hz Hn Hp).
    + intros [Hp Hb]. split; [by right|]. by apply (bitsize_unsigned n z Hz Hn Hp).
Qed.

(** FITS and UFITS with a constant width keep an integer exactly when it is in the
    signed (unsigned) range of that width, and push NaN or overflow otherwise. *)
Theorem fits_instructions (signed quiet : bool) (y : Z) (Hy : 1 <= y <= 256) :
  instr_refines (exec_fits_tinyint8 y signed quiet)
    (fun l => pop_operand l (fun x l =>
       push_value_spec (int_result quiet
         match x with
         | Some x => if fits_range signed y x then Some x else None
         | None => None
         end) l)).
Proof.
  apply (unary_push quiet (fun x => if fits_range signed y x then Some x else None)).
  intros x l Hx Hl. rewrite fits_spec by (lia || by apply small_range).
  destruct (fits_range signed y x); [|by apply nan_refines].
  cbn [int_result]. assert (in_257 x = true) as ->; [|by apply push_refines].
  unfold in_257. apply andb_true_iff. rewrite Z.leb_le, Z.ltb_lt. done.
Qed.
End Spec.
