(* ===== verification/StackSpec.v ===== *)
(** * What the stack and tuple instructions do

    StackOps.v and TupleOps.v on the abstract stack, top first: the block operations as
    rearrangements of a list, the loops of ROLL and ROLLREV, and packing, unpacking and
    updating tuples. *)

From S2P Require Import Prelude External Values VmStack VmGas VmRegs VmState GasLaws.
From S2P Require Import ArithOps StackOps TupleOps ArithSpec.

Open Scope vm_scope.

Section Shuffles.
Context `{CL : CellLib}.
Implicit Types (l : list value) (v : value) (s : VmState).

#[local] Abbreviation len l := (Z.of_nat (length l)).
#[local] Abbreviation SM := (MS (list value) VmError).

(** [m] turns the abstract stack [l] into [l']. *)
Definition shuffles (m : SM unit) l l' : Prop := m (of_view l) = (Ok tt, of_view l').

Lemma shuffles_bind m k l l1 l2 : shuffles m l l1 -> shuffles k l1 l2 -> shuffles (m ;; k) l l2.
Proof. unfold shuffles, bind. by intros ->. Qed.

Lemma done_shuffles m s l l' : stack s = of_view l -> shuffles m l l' ->
  done_ (on_stack m) s = (Ok 0, set_stack (of_view l') s).
Proof. intros Hs H. by rewrite (done_on_stack m l (Ok tt, l') s Hs H). Qed.

Lemma lswap_adjacent l1 a b l2 :
  lswap (S (length l1)) (length l1) (l1 ++ a :: b :: l2) = l1 ++ b :: a :: l2.
Proof.
  unfold lswap. replace (S (length l1)) with (length l1 + 1)%nat by lia.
  assert (forall l n, (l1 ++ l) !! (length l1 + n)%nat = l !! n) as Hl.
  { intros l n. rewrite lookup_app_r by lia. f_equal. lia. }
  assert (forall l, (l1 ++ l) !! length l1 = l !! 0%nat) as Hl0.
  { intros l. rewrite <- (Hl l 0%nat). f_equal. lia. }
  rewrite Hl, Hl0. cbn. replace (<[length l1:=b]> (l1 ++ a :: b :: l2))
    with (<[(length l1 + 0)%nat:=b]> (l1 ++ a :: b :: l2)) by (f_equal; lia).
  by rewrite !insert_app_r.
Qed.

Lemma lswap_comm i j l : lswap i j l = lswap j i l.
Proof.
  unfold lswap. destruct (l !! i) as [a|] eqn:Hi, (l !! j) as [b|] eqn:Hj; try done.
  destruct (decide (i = j)) as [->|Hne]; [by simplify_eq|]. by rewrite list_insert_insert_ne.
Qed.

Lemma swap_adjacent_up l1 a b l2 :
  shuffles (Stack.swap (Z.of_nat (S (length l1))) (Z.of_nat (length l1)))
    (l1 ++ a :: b :: l2) (l1 ++ b :: a :: l2).
Proof.
  unfold shuffles. rewrite swap_ok by (rewrite length_app; cbn [length]; lia).
  rewrite !Nat2Z.id. by rewrite lswap_adjacent.
Qed.

Lemma swap_adjacent_down l1 a b l2 :
  shuffles (Stack.swap (Z.of_nat (length l1)) (Z.of_nat (length l1) + 1))
    (l1 ++ a :: b :: l2) (l1 ++ b :: a :: l2).
Proof.
  unfold shuffles. rewrite swap_ok by (rewrite length_app; cbn [length]; lia).
  replace (Z.to_nat (Z.of_nat (length l1) + 1)) with (S (length l1)) by lia.
  rewrite Nat2Z.id, lswap_comm. by rewrite lswap_adjacent.
Qed.

(** The loop of ROLL brings the element below [l1] to the top. *)
Lemma roll_loop_ok l1 v l2 : shuffles (roll_loop (length l1)) (l1 ++ v :: l2) (v :: l1 ++ l2).
Proof.
  revert l2. induction l1 as [|a l1 IH] using rev_ind; intros l2; [done|].
  rewrite length_app, Nat.add_1_r, <- !app_assoc. cbn [roll_loop app].
  eapply shuffles_bind; [apply swap_adjacent_up|]. apply IH.
Qed.

(** The loop of ROLLREV takes it back below [l1]. *)
Lemma rollrev_loop_ok l1 v l2 : shuffles (rollrev_loop (length l1)) (v :: l1 ++ l2) (l1 ++ v :: l2).
Proof.
  unfold rollrev_loop.
  assert (forall l0, shuffles (for_each (seq (length l0) (length l1))
            (fun i => Stack.swap (Z.of_nat i) (Z.of_nat i + 1)))
            (l0 ++ v :: l1 ++ l2) (l0 ++ l1 ++ v :: l2)) as H; [|apply (H [])].
  induction l1 as [|a l1 IH]; intros l0; [done|].
  cbn [length seq for_each app]. eapply shuffles_bind; [apply swap_adjacent_down|].
  specialize (IH (l0 ++ [a])). rewrite length_app, Nat.add_1_r, <- !app_assoc in IH. exact IH.
Qed.

Lemma reverse_ok l1 l2 l3 : l2 <> [] ->
  shuffles (Stack.reverse_range (len l1) (len l2)) (l1 ++ l2 ++ l3) (l1 ++ reverse l2 ++ l3).
Proof.
  intros Hne. unfold shuffles.
  assert (0 < len l2) by (destruct l2; [done|cbn [length]; lia]).
  rewrite reverse_range_ok by (rewrite ?length_app; lia).
  assert (drop (Z.to_nat (len l1 + len l2)) (l1 ++ l2 ++ l3) = l3) as ->.
  { replace (Z.to_nat (len l1 + len l2)) with (length (l1 ++ l2)) by (rewrite length_app; lia).
    by rewrite app_assoc, drop_app_length. }
  by rewrite !Nat2Z.id, take_app_length, drop_app_length, take_app_length.
Qed.

(** Three reversals exchange two blocks. *)
Lemma blkswap_ok l1 l2 l3 : l1 <> [] -> l2 <> [] ->
  shuffles (blkswap (len l2) (len l1)) (l1 ++ l2 ++ l3) (l2 ++ l1 ++ l3).
Proof.
  intros H1 H2. unfold blkswap. eapply shuffles_bind; [by apply reverse_ok|].
  eapply shuffles_bind; [by apply (reverse_ok [] l1)|]. cbn [app].
  replace (len l2 + len l1) with (len (reverse l1 ++ reverse l2))
    by (rewrite length_app, !length_reverse; lia).
  pose proof (reverse_ok [] (reverse l1 ++ reverse l2) l3) as H. cbn [app length] in H.
  rewrite reverse_app, !reverse_involutive, <- !app_assoc in H. apply H.
  destruct l1; [done|]. rewrite reverse_cons. by destruct (reverse l1).
Qed.

(** ** The properties *)

(** BLKSWAP exchanges the top block of [j] values with the block of [i] values under
    it, whatever they are, and fails with a stack underflow when there are fewer. *)
Theorem blkswap_exchanges (s : VmState) (i j : Z) (l : list value)
    (Hi : 0 < i) (Hj : 0 < j) (Hs : stack s = of_view l) :
  (i + j <= len l ->
   exec_blkswap i j s =
     (Ok 0, set_stack (of_view (take (Z.to_nat i) (drop (Z.to_nat j) l) ++
                                take (Z.to_nat j) l ++ drop (Z.to_nat (i + j)) l)) s)) /\
  (len l < i + j -> exists e s', exec_blkswap i j s = (Err (StackUnderflow e), s')).
Proof.
  split; intros Hl.
  - set (A := take (Z.to_nat j) l). set (B := take (Z.to_nat i) (drop (Z.to_nat j) l)).
    set (R := drop (Z.to_nat (i + j)) l).
    assert (len A = j) as HA by (unfold A; rewrite length_take; lia).
    assert (len B = i) as HB by (unfold B; rewrite length_take, length_drop; lia).
    assert (l = A ++ B ++ R) as El.
    { unfold A, B, R. rewrite (Z.add_comm i), Z2Nat.inj_add, <- drop_drop by lia.
      by rewrite !take_drop. }
    apply (done_shuffles _ _ l); [done|]. rewrite El at 1. rewrite <- HA, <- HB at 1.
    apply blkswap_ok; intros E; rewrite E in *; cbn in *; lia.
  - unfold exec_blkswap, blkswap, done_, bind, on_stack, zoom. rewrite Hs.
    assert (exists e, Stack.reverse_range j i (of_view l) = (Err (StackUnderflow e), of_view l))
      as [e ->]; [|by do 2 eexists].
    unfold Stack.reverse_range, bind, gets, ensure. rewrite depth_of_view.
    destruct (Z.ltb_spec j (len l)); [|eexists; reflexivity].
    destruct (Z.leb_spec (j + i) (len l)); [lia|]. eexists; reflexivity.
Qed.

(** The fee for handling more than 255 values. *)
Definition fee_paid (n : Z) s : VmState :=
  set_gas (Gas.set_remaining (Gas.gas_remaining (gas s) - Z.max 0 (n - STACK_FEE_THRESHOLD))
    (gas s)) s.

Lemma stack_fee_ok n s : gas_wf (gas s) -> 0 <= n <= Gas.gas_remaining (gas s) ->
  stack_fee n s = (Ok tt, fee_paid n s).
Proof.
  intros Hw Hn. unfold stack_fee, fee_paid, STACK_FEE_THRESHOLD, checked_sub_u. case_bool.
  - unfold on_gas, zoom, map_err. rewrite try_consume_ok by (done || lia).
    do 3 f_equal. f_equal. lia.
  - replace (Z.max 0 (n - 255)) with 0 by lia. rewrite Z.sub_0_r. unfold ret. f_equal.
    by destruct s as [? ? ? ? ? ? ? ? []].
Qed.

Lemma pop_index_ok n l s : stack s = of_view (VInt n :: l) -> is_ton (version s) 4 = true ->
  0 <= n <= Stack.MAX_DEPTH -> pop_index s = (Ok n, set_stack (of_view l) s).
Proof.
  intros Hs Hv Hn. unfold pop_index. rewrite (bind_ok _ _ s (version s) s) by done.
  unfold max_stack_size, should_consume_gas. rewrite Hv. unfold on_stack, zoom. rewrite Hs.
  rewrite pop_smallint_range_ok; [done|done| |done]. unfold Stack.MAX_DEPTH; unfold_widths; lia.
Qed.

(** ROLL and ROLLREV: the loop of exchanges moves one value over a block of any size,
    to the top or back under the block, so that one undoes the other; beyond 255 values
    each value costs a unit of gas. *)
Theorem roll_instructions (s : VmState) (l1 : list value) (v : value) (l2 : list value)
    (Hv : is_ton (version s) 4 = true) (Hd : len l1 <= Stack.MAX_DEPTH)
    (Hw : gas_wf (gas s)) (Hg : len l1 <= Gas.gas_remaining (gas s)) :
  (stack s = of_view (VInt (len l1) :: l1 ++ v :: l2) ->
   exec_roll s = (Ok 0, set_stack (of_view (v :: l1 ++ l2)) (fee_paid (len l1) s))) /\
  (stack s = of_view (VInt (len l1) :: v :: l1 ++ l2) ->
   exec_rollrev s = (Ok 0, set_stack (of_view (l1 ++ v :: l2)) (fee_paid (len l1) s))).
Proof.
  split; intros Hs; unfold exec_roll, exec_rollrev;
    rewrite (bind_ok _ _ _ _ _ (pop_index_ok _ _ _ Hs Hv ltac:(lia)));
    rewrite (bind_ok _ _ _ _ _ (stack_fee_ok (len l1) (set_stack _ s) Hw ltac:(cbn; lia)));
    rewrite Nat2Z.id; (etransitivity; [eapply done_shuffles; [reflexivity|]|reflexivity]).
  - apply roll_loop_ok.
  - apply rollrev_loop_ok.
Qed.
End Shuffles.

Section Tuples.
Context `{CL : CellLib}.
Implicit Types (l : list value) (t : Tuple) (v x : value) (s : VmState).

#[local] Abbreviation len l := (Z.of_nat (length l)).

(** The gas left after paying for a tuple of [n] values. *)
Definition tuple_paid (n : Z) s : VmState :=
  set_gas (Gas.set_remaining (Gas.gas_remaining (gas s) - n) (gas s)) s.

Lemma tuple_gas_ok n s : gas_wf (gas s) -> 0 <= n <= Gas.gas_remaining (gas s) ->
  tuple_gas n s = (Ok tt, tuple_paid n s).
Proof.
  intros Hw Hn. unfold tuple_gas, on_gas, zoom, map_err, Gas.try_consume_tuple_gas,
    Gas.TUPLE_ENTRY_GAS_PRICE, tuple_paid. rewrite try_consume_ok by (done || lia).
  do 3 f_equal. f_equal. lia.
Qed.

Lemma push_all_ok t l : len t + len l <= Stack.MAX_DEPTH ->
  for_each t Stack.push_raw (of_view l) = (Ok tt, of_view (reverse t ++ l)).
Proof.
  revert l. induction t as [|v t IH]; intros l Hl; [done|]. cbn [for_each length] in *.
  rewrite (bind_ok _ _ _ tt (of_view (v :: l))) by (apply push_raw_ok; lia).
  rewrite IH by (cbn [length]; lia). by rewrite reverse_cons, <- app_assoc.
Qed.

(** Packing takes the top values, the deepest first. *)
Lemma make_tuple_ok n s l : stack s = of_view l -> 0 <= n <= len l -> len l <= Stack.MAX_DEPTH ->
  0 < n \/ len l < Stack.MAX_DEPTH ->
  gas_wf (gas s) -> n <= Gas.gas_remaining (gas s) ->
  exec_mktuple n s =
    (Ok 0, set_stack (of_view (VTuple (reverse (take (Z.to_nat n) l)) :: drop (Z.to_nat n) l))
             (tuple_paid n s)).
Proof.
  intros Hs Hn Hd Hne Hw Hg. unfold exec_mktuple, make_tuple_impl.
  rewrite (bind_ok _ _ s (len l) s) by (unfold gets; rewrite Hs, depth_of_view; done).
  rewrite (bind_ok _ _ s (len l - n) s) by (rewrite checked_sub_u_Some by lia; done).
  assert (take (Z.to_nat n) (drop (Z.to_nat (len l - n)) (of_view l)) = reverse (take (Z.to_nat n) l)) as Hi.
  { replace (Z.to_nat (len l - n)) with (length l - Z.to_nat n)%nat by lia.
    rewrite drop_of_view by lia. unfold of_view. rewrite take_ge; [done|].
    rewrite length_reverse, length_take. lia. }
  rewrite (bind_ok _ _ s (reverse (take (Z.to_nat n) l)) s) by (unfold gets; by rewrite Hs, Hi).
  assert (Stack.drain (len l - n) (len l - n + n) (of_view l) = of_view (drop (Z.to_nat n) l)) as Hr.
  { unfold Stack.drain. replace (Z.to_nat (len l - n)) with (length l - Z.to_nat n)%nat by lia.
    rewrite take_of_view by lia. rewrite (drop_ge (of_view l)); [by rewrite app_nil_r|].
    unfold of_view. rewrite length_reverse. lia. }
  rewrite (bind_ok _ _ s tt (set_stack (of_view (drop (Z.to_nat n) l)) s))
    by (unfold on_stack, zoom, modify; by rewrite Hs, Hr).
  assert (len (reverse (take (Z.to_nat n) l)) = n) as -> by (rewrite length_reverse, length_take; lia).
  rewrite (bind_ok _ _ _ _ _ (tuple_gas_ok n (set_stack _ s) Hw ltac:(cbn; lia))).
  etransitivity; [eapply done_shuffles; [reflexivity|]; apply push_raw_ok|reflexivity].
  rewrite length_drop. lia.
Qed.

(** Unpacking pushes the values of a tuple of exactly [n] values back. *)
Lemma untuple_ok t s l : stack s = of_view (VTuple t :: l) -> len t <= 255 ->
  len t + len l <= Stack.MAX_DEPTH -> gas_wf (gas s) -> len t <= Gas.gas_remaining (gas s) ->
  exec_untuple (len t) s = (Ok 0, set_stack (of_view (reverse t ++ l)) (tuple_paid (len t) s)).
Proof.
  intros Hs Ht Hd Hw Hg. unfold exec_untuple, untuple_impl.
  rewrite (bind_ok _ _ s t (set_stack (of_view l) s))
    by (unfold on_stack, zoom; rewrite Hs, pop_tuple_range_ok by lia; done).
  unfold done_, do_explode_tuple. rewrite Nat2Z.id, take_ge by lia.
  erewrite (bind_ok _ _ _ tt); [|rewrite (bind_ok _ _ _ tt (set_stack (of_view (reverse t ++ l)) s));
    [apply (tuple_gas_ok (len t) (set_stack _ s)); [done | cbn; lia]|]].
  - reflexivity.
  - unfold on_stack, zoom. cbn [stack set_stack]. by rewrite push_all_ok.
Qed.

(** TUPLE and UNTUPLE: packing the top [n] values and unpacking them again gives the
    same stack, for every [n] up to 255, at a unit of gas per value and instruction. *)
Theorem tuple_round_trip (s : VmState) (n : Z) (l : list value)
    (Hs : stack s = of_view l) (Hn : 0 <= n <= 255) (Hl : n <= len l) (Hd : len l < Stack.MAX_DEPTH)
    (Hw : gas_wf (gas s)) (Hg : 2 * n <= Gas.gas_remaining (gas s)) :
  exec_mktuple n s =
    (Ok 0, set_stack (of_view (VTuple (reverse (take (Z.to_nat n) l)) :: drop (Z.to_nat n) l))
             (tuple_paid n s)) /\
  (exec_mktuple n ;; exec_untuple n) s = (Ok 0, set_stack (of_view l) (tuple_paid (2 * n) s)).
Proof.
  pose proof (make_tuple_ok n s l Hs ltac:(lia) ltac:(lia) ltac:(lia) Hw ltac:(lia)) as Hm.
  split; [exact Hm|]. rewrite (bind_ok _ _ _ _ _ Hm).
  set (t := reverse (take (Z.to_nat n) l)).
  assert (len t = n) as Ht by (unfold t; rewrite length_reverse, length_take; lia).
  assert (gas_wf (gas (tuple_paid n s))) as Hw'.
  { apply mv_wf with (g := gas s), gas_moved_remaining; [done | unfold I64_MIN; lia]. }
  rewrite <- Ht at 1. rewrite (untuple_ok t (set_stack _ (tuple_paid n s)) (drop (Z.to_nat n) l));
    [| done | lia | rewrite length_drop; lia | done | cbn; lia].
  rewrite Ht. unfold t. rewrite reverse_involutive, take_drop. f_equal.
  remember (2 * n) as m eqn:Em. unfold tuple_paid, set_stack, set_gas, Gas.set_remaining; cbn.
  do 2 f_equal. lia.
Qed.

(** The item of a tuple; what is beyond its end, or of no tuple at all, is null. *)
Definition item (t : option (list value)) (k : Z) : value :=
  match t with Some t => default VNull (t !! Z.to_nat k) | None => VNull end.
Definition size (t : option (list value)) : Z := match t with Some t => len t | None => 0 end.

Lemma is_null_inv x : is_null x = true -> x = VNull.
Proof. unfold is_null. rewrite bool_decide_eq_true. by destruct x. Qed.

(** SETINDEXQ on an optional tuple, seen as a sequence of values that is null beyond
    its end: exactly the item at the index changes, the tuple grows only to hold a value
    that is not null, and the gas is that of the tuple written, nothing if none is. *)
Theorem set_index_quiet_spec (t : option Tuple) (i : Z) (x : value) (Hi : 0 <= i) :
  let '(updated, t') := set_index_quiet t i x in
  (forall k, 0 <= k -> item t' k = if k =? i then x else item t k) /\
  size t' = (if (i <? size t) || is_null x then size t else i + 1) /\
  (updated = 0 /\ t' = t \/ updated = size t').
Proof.
  assert (forall l k, 0 <= k -> i < len l ->
    default VNull (set_item i x l !! Z.to_nat k)
    = if k =? i then x else default VNull (l !! Z.to_nat k)) as Hset.
  { intros l k Hk Hil. unfold set_item, Tuple. case_bool.
    - subst. rewrite list_lookup_insert_eq by lia. done.
    - by rewrite list_lookup_insert_ne by lia. }
  assert (forall (n : nat) k, default VNull (replicate n VNull !! k) = VNull) as Hrep.
  { intros n k. destruct (replicate n VNull !! k) eqn:E; [|done].
    apply lookup_replicate in E as [-> _]. done. }
  unfold set_index_quiet. destruct t as [t|]; cbn [item size].
  - destruct (Z.ltb_spec i (len t)); cbn [orb].
    + split; [intros; by apply Hset|]. unfold set_item, Tuple; cbn. rewrite length_insert. auto.
    + destruct (is_null x) eqn:Hx; cbn [item size].
      * apply is_null_inv in Hx as ->. split; [|auto]. intros k Hk. case_bool; [|done].
        subst. by rewrite lookup_ge_None_2 by lia.
      * unfold resize. rewrite take_ge by lia.
        assert (len (t ++ replicate (Z.to_nat (i + 1) - length t) VNull) = i + 1) as Hlen
          by (rewrite length_app, length_replicate; lia).
        split; [|unfold set_item, Tuple; rewrite length_insert; auto].
        intros k Hk. rewrite Hset by lia. case_bool; [done|].
        destruct (decide (Z.to_nat k < length t)%nat).
        -- by rewrite lookup_app_l by done.
        -- rewrite lookup_app_r by lia. rewrite Hrep. by rewrite lookup_ge_None_2 by lia.
  - destruct (is_null x) eqn:Hx; cbn [item size]; rewrite ?orb_true_r, ?orb_false_r.
    + apply is_null_inv in Hx as ->. split; [|auto]. intros k Hk. by case_bool.
    + assert (len (replicate (Z.to_nat (i + 1)) VNull) = i + 1) as Hlen
        by (rewrite length_replicate; lia).
      split; [intros k Hk; rewrite Hset by lia; by rewrite Hrep|].
      unfold set_item, Tuple. rewrite length_insert. case_bool; [lia|auto].
Qed.
End Tuples.
