(* ===== verification/CodepageLaws.v ===== *)
(** * Laws of the opcode patterns and of the code page

    What the pattern parser guarantees, and how a property of every instruction becomes
    a property of every opcode of the table. *)

From Stdlib Require Import Ascii String.
From S2P Require Import Prelude External Cells Values VmStack VmGas VmRegs VmState GasLaws.
From S2P Require Import ArithOps ContOps Dispatch DispatchLaws VmProc Codepage Tracking Dicts Models.
From S2P Require Import RandOps Instructions Metering Run.

Open Scope vm_scope.

(** ** Patterns *)

Section Patterns.
Definition bits_ok (args : list (ascii * Z)) : Prop := Forall (fun e => 0 <= e.2) args.

Lemma sum_bits_nonneg l : bits_ok l -> 0 <= sum_bits l.
Proof. unfold sum_bits. induction 1; cbn; lia. Qed.

Lemma push_arg_ok c n l : 0 <= n -> bits_ok l -> bits_ok (push_arg c n l).
Proof.
  intros Hn Hl. unfold push_arg, bits_ok in *. destruct (last l) as [[a m]|] eqn:He.
  - apply last_Some in He as [l' ->]. apply Forall_app in Hl as [Hl' Hm].
    rewrite Forall_singleton in Hm. cbn in Hm. case_bool_decide.
    + rewrite removelast_last. apply Forall_app. split; [done|]. apply Forall_singleton. cbn. lia.
    + rewrite !Forall_app, !Forall_singleton. cbn. auto.
  - by apply Forall_singleton.
Qed.

Lemma sum_bits_app l l' : sum_bits (l ++ l') = sum_bits l + sum_bits l'.
Proof. unfold sum_bits. induction l; cbn; lia. Qed.

Lemma push_arg_bits c n l : sum_bits (push_arg c n l) = sum_bits l + n.
Proof.
  unfold push_arg. destruct (last l) as [[a m]|] eqn:He.
  - apply last_Some in He as [l' ->]. rewrite removelast_last.
    case_bool_decide; rewrite !sum_bits_app; unfold sum_bits; cbn; lia.
  - apply last_None in He as ->. unfold sum_bits; cbn; lia.
Qed.

(** The opcode bits read so far, followed by zeros for the arguments. *)
Record pat_ok (st : PatState) : Prop := {
  pat_bits : 0 <= opcode_bits st;
  pat_args_ok : bits_ok (pat_args st);
  pat_base : exists v, 0 <= v < 2 ^ opcode_bits st /\
    opcode_base_min st = v * 2 ^ sum_bits (pat_args st)
}.

Lemma to_digit_range c r d : to_digit c r = Some d -> 0 <= d < r.
Proof.
  unfold to_digit, in_range.
  change (ascii_code "0") with 48. change (ascii_code "9") with 57.
  change (ascii_code "a") with 97. change (ascii_code "z") with 122.
  change (ascii_code "A") with 65. change (ascii_code "Z") with 90.
  repeat (case_match; try done); intros; simplify_eq; zify_bool; lia.
Qed.

Lemma pat_char_ok st c st' : pat_ok st -> pat_char st c = Some st' -> pat_ok st'.
Proof.
  intros [Hb Ha (v & Hv & Hm)] Hc. unfold pat_char in Hc.
  destruct (is_whitespace c || _); [simplify_eq; split; eauto|].
  case_bool_decide; [simplify_eq; split; cbn; eauto|].
  case_bool_decide; [simplify_eq; split; cbn; eauto|].
  destruct (is_ascii_alphanumeric c); [|done].
  pose proof (sum_bits_nonneg _ Ha) as Hs.
  set (n := if binary_mode st then 1 else 4).
  assert (exists r, r = 2 ^ n /\ 0 <= n /\
    match to_digit c r with
    | Some d => match pat_args st with
      | [] => Some (mkPat (opcode_bits st + n) (Z.lor (Z.shiftl (opcode_base_min st) n) d) (binary_mode st) [])
      | _ => None end
    | None => Some (mkPat (opcode_bits st) (Z.shiftl (opcode_base_min st) n) (binary_mode st)
                      (push_arg c n (pat_args st)))
    end = Some st') as (r & Hr & Hn & Hc').
  { unfold n in *. destruct (binary_mode st); eexists; (split; [|split; [|exact Hc]]); lia. }
  clear Hc. destruct (to_digit c r) as [d|] eqn:Hd.
  - apply to_digit_range in Hd. destruct (pat_args st); [|done]. simplify_eq.
    split; cbn; [lia|constructor|]. exists (v * 2 ^ n + d).
    rewrite lor_shiftl, Hm by lia. unfold sum_bits; cbn. rewrite Z.pow_add_r by lia. nia.
  - simplify_eq. split; cbn [opcode_bits pat_args opcode_base_min]; [lia|by apply push_arg_ok; [lia|]|].
    exists v. split; [done|]. rewrite push_arg_bits, Z.pow_add_r, Z.shiftl_mul_pow2, Hm by lia. ring.
Qed.

Lemma pat_chars_ok l st st' : pat_ok st -> pat_chars st l = Some st' -> pat_ok st'.
Proof.
  revert st. induction l as [|c l IH]; intros st Hok Hc; cbn in Hc; [by simplify_eq|].
  destruct (pat_char st c) eqn:Hp; [|done]. eapply IH; [|exact Hc]. by eapply pat_char_ok.
Qed.

Definition ty_bits (ty : OpcodeTy) : Z :=
  match ty with
  | Simple _ bits => bits
  | Fixed _ bits arg_bits => bits + arg_bits
  | FixedRange _ _ total_bits _ => total_bits
  end.

(** The 24-bit aligned range that [add_simple], [add_fixed], [add_fixed_range] take. *)
Definition ty_range (ty : OpcodeTy) : Z * Z :=
  match ty with
  | Simple opcode bits | Fixed opcode bits _ => (aligned opcode bits, aligned (opcode + 1) bits)
  | FixedRange lo hi total_bits _ => (aligned lo total_bits, aligned hi total_bits)
  end.

Lemma aligned_range lo hi bits : 0 <= lo < hi -> hi <= 2 ^ bits -> 0 <= bits <= 24 ->
  0 <= aligned lo bits < aligned hi bits /\ aligned hi bits <= MAX_OPCODE.
Proof.
  intros Hl Hh Hb. unfold aligned, MAX_OPCODE, MAX_OPCODE_BITS.
  rewrite !Z.shiftl_mul_pow2 by lia.
  pose proof (Z.pow_pos_nonneg 2 (24 - bits) ltac:(lia) ltac:(lia)).
  assert (1 * 2 ^ 24 = 2 ^ bits * 2 ^ (24 - bits)) as ->.
  { rewrite <- Z.pow_add_r by lia. replace (bits + (24 - bits)) with 24 by lia. lia. }
  nia.
Qed.

Lemma range_bound_inv s n lo hi v : range_bound s n lo hi = Some v -> lo < v < hi.
Proof.
  unfold range_bound. destruct (from_str_radix s); [|done].
  destruct (_ && _) eqn:H; [|done]. intros [= ->]. zify_bool. lia.
Qed.

Lemma opt_bound_inv s n lo hi dflt v : opt_bound s n lo hi dflt = Some v ->
  v = dflt \/ lo < v < hi.
Proof. destruct s; cbn; [intros H; right; by eapply range_bound_inv | intros [= ->]; by left]. Qed.

(** A compiled pattern fits in 24 bits and stands for a range of opcodes. *)
Lemma compile_pattern_ok s p : compile_pattern s = Some p ->
  0 < ty_bits (pattern_ty p) <= 24 /\ bits_ok (args p) /\
  0 <= (ty_range (pattern_ty p)).1 < (ty_range (pattern_ty p)).2 /\
  (ty_range (pattern_ty p)).2 <= MAX_OPCODE.
Proof.
  unfold compile_pattern. destruct (parsed_code s) as [pc|]; [|done].
  destruct (pat_chars _ _) as [st|] eqn:Hst; [|done].
  apply pat_chars_ok in Hst; [|split; cbn; [lia|constructor|by exists 0]].
  destruct Hst as [Hb Ha (v & Hv & Hm)]. pose proof (sum_bits_nonneg _ Ha) as Hsum.
  destruct ((opcode_bits st =? 0) || _) eqn:Hbad; [done|]. zify_bool.
  unfold PROC_MAX_OPCODE_BITS in *. set (m := sum_bits (pat_args st)) in *.
  assert (0 < 2 ^ m) as Hpm by (apply Z.pow_pos_nonneg; lia).
  assert (Z.lor (opcode_base_min st) (Z.shiftl 1 m - 1) + 1 = (v + 1) * 2 ^ m) as Hmax.
  { rewrite Hm, <- Z.shiftl_mul_pow2, Z.shiftl_1_l, lor_shiftl by lia. lia. }
  rewrite Hmax. assert (2 ^ (opcode_bits st + m) = 2 ^ opcode_bits st * 2 ^ m) as Htot
    by (rewrite Z.pow_add_r; lia).
  assert (Z.shiftr (opcode_base_min st) m = v) as Hv'
    by (rewrite Z.shiftr_div_pow2, Hm, Z.div_mul; lia).
  assert (forall opcode_min opcode_max,
    (opcode_min = opcode_base_min st \/ opcode_base_min st < opcode_min < (v + 1) * 2 ^ m) ->
    (opcode_max = (v + 1) * 2 ^ m \/ opcode_min < opcode_max < (v + 1) * 2 ^ m) ->
    0 <= aligned opcode_min (opcode_bits st + m) < aligned opcode_max (opcode_bits st + m) /\
    aligned opcode_max (opcode_bits st + m) <= MAX_OPCODE) as Hrange.
  { intros. apply aligned_range; nia. }
  pose proof (aligned_range v (v + 1) (opcode_bits st) ltac:(lia) ltac:(lia) ltac:(lia)) as Hal.
  intros Hc. destruct (pat_args st) as [|a l] eqn:Hp.
  { clear Hv'. destruct (range_from pc), (range_to pc); simplify_eq. cbn [ty_bits ty_range pattern_ty args].
    replace (opcode_base_min st) with v by (rewrite Hm; unfold m, sum_bits; cbn; lia).
    split; [lia|]. split; [constructor|exact Hal]. }
  assert (forall from to, match opt_bound from (opcode_bits st + m) (opcode_base_min st)
      ((v + 1) * 2 ^ m) (opcode_base_min st) with
    | Some opcode_min =>
        match opt_bound to (opcode_bits st + m) opcode_min ((v + 1) * 2 ^ m) ((v + 1) * 2 ^ m) with
        | Some opcode_max => Some (mkPattern (FixedRange opcode_min opcode_max (opcode_bits st + m) m) (a :: l))
        | None => None end
    | None => None end = Some p -> 0 < ty_bits (pattern_ty p) <= 24 /\ bits_ok (args p) /\
  0 <= (ty_range (pattern_ty p)).1 < (ty_range (pattern_ty p)).2 /\
  (ty_range (pattern_ty p)).2 <= MAX_OPCODE) as Hr.
  { intros from to. destruct (opt_bound from _ _ _ _) as [lo|] eqn:Hlo; [|done].
    destruct (opt_bound to _ _ _ _) as [hi|] eqn:Hhi; [|done]. intros [= <-].
    cbn [ty_bits ty_range pattern_ty args fst snd]. split; [lia|]. split; [done|].
    apply Hrange; by eapply opt_bound_inv. }
  destruct (range_from pc), (range_to pc); try by eapply Hr.
  injection Hc as <-. cbn [ty_bits ty_range pattern_ty args]. rewrite Hv'. split; [lia|]. by split.
Qed.

Lemma arg_value_nonneg l c w : bits_ok l -> 0 <= arg_value l c w.
Proof.
  induction 1 as [|[n b] l Hb _ IH]; cbn; [lia|]. case_bool_decide; [|done].
  apply Z.land_nonneg. right. cbn in Hb. rewrite Z.shiftl_1_l.
  pose proof (Z.pow_pos_nonneg 2 b). lia.
Qed.
End Patterns.

(** ** From instructions to opcodes *)

Section Tables.
Context `{CL : CellLib}.

(** [P] of everything the opcode executes, and a length of at most 24 bits. *)
Definition opcode_all (P : VM Z -> Prop) (op : Opcode) : Prop :=
  match op with
  | DummyOpcode _ _ => True
  | SimpleOpcode f _ _ bits => 0 <= bits <= 24 /\ P f
  | FixedOpcode f _ _ bits => 0 <= bits <= 24 /\ forall w, P (f w)
  | ExtOpcode f _ _ bits => 0 <= bits <= 24 /\ forall w b, P (f w b)
  end.

(** The bounds a pattern guarantees by itself. *)
Definition ext_bits_ok (d : OpDef) : bool :=
  match d with
  | OpExt code code_bits arg_bits _ =>
      (0 <=? code) && (code <? 2 ^ code_bits) && (0 <=? code_bits) && (0 <=? arg_bits) &&
      (code_bits + arg_bits <=? 24)
  | OpExtRange lo hi total_bits _ =>
      (0 <=? lo) && (lo <? hi) && (hi <=? 2 ^ total_bits) && (0 <=? total_bits) &&
      (total_bits <=? 24)
  | _ => true
  end.

(** An instruction table with property [P]: what [codepage0] asks of its modules. *)
Definition defs_all (P : VM Z -> Prop) (l : list OpDef) : Prop :=
  Forall (fun d => op_all P d /\ ext_bits_ok d = true) l.

Context (P : VM Z -> Prop).

#[local] Abbreviation all t := (Forall (fun e => opcode_all P e.2) t).

Lemma bt_insert_all k op (t : Opcodes) : opcode_all P op -> all t -> all (bt_insert k op t).
Proof.
  intros Hop. induction 1 as [|[k' op'] t Hx Ht IH]; cbn; [by constructor|].
  repeat case_bool; repeat (apply List.Forall_cons; [assumption|]); assumption.
Qed.

Lemma add_opcode_all op t t' : opcode_all P op -> all t -> add_opcode op t = Some t' -> all t'.
Proof.
  intros Hop Ht. unfold add_opcode, add_opcode_impl. destruct (op_range op).
  destruct (_ && _); [|done]. intros [= <-]. by apply bt_insert_all.
Qed.

Lemma add_pattern_all code f t t' :
  (forall a w, (forall name, 0 <= a name) -> P (f a w)) ->
  all t -> add_pattern code f t = Some t' -> all t'.
Proof.
  intros Hf Ht. unfold add_pattern. destruct (compile_pattern code) as [p|] eqn:Hp; [|done].
  destruct (compile_pattern_ok _ _ Hp) as (Hb & Ha & _).
  assert (forall w name, 0 <= by_name (args p) w name) as Hn.
  { intros w []; cbn; [lia|]. by apply arg_value_nonneg. }
  destruct (pattern_ty p); cbn in Hb; apply add_opcode_all; try done; cbn; (split; [lia|]);
    intros; apply Hf, Hn.
Qed.

Lemma add_def_all d t t' : op_all P d /\ ext_bits_ok d = true -> all t ->
  add_def d t = Some t' -> all t'.
Proof.
  intros [Hd He] Ht.
  destruct d as [code f|code f|c cb ab f|lo hi tb f]; cbn [op_all ext_bits_ok add_def] in *.
  - by apply add_pattern_all.
  - by apply add_pattern_all.
  - zify_bool. unfold add_ext. apply add_opcode_all; [|done]. cbn. split; [lia|]. auto.
  - zify_bool. unfold add_ext_range. apply add_opcode_all; [|done]. cbn. split; [lia|]. auto.
Qed.

Lemma init_all l t t' : defs_all P l -> all t -> init l t = Some t' -> all t'.
Proof.
  intros Hl. revert t. induction Hl as [|d l Hd _ IH]; intros t Ht; cbn; [by intros [= <-]|].
  destruct (add_def d t) eqn:Ha; [|done]. apply IH. by eapply add_def_all.
Qed.

Lemma build_all t : all t -> all (Dispatch.build t).
Proof.
  unfold Dispatch.build, build_opcodes. generalize 0. intros upto Ht. revert upto.
  induction Ht as [|[k op] t Hop _ IH]; intros upto; cbn.
  - case_bool; repeat constructor.
  - destruct (op_range op). apply Forall_app. split; [case_bool; repeat constructor|].
    constructor; [done | apply IH].
Qed.

(** ** The ranges of the table *)

#[local] Abbreviation in_order := (laid op_range 0 MAX_OPCODE).

Lemma add_opcode_ordered op t t' : 0 <= (op_range op).1 < (op_range op).2 ->
  (op_range op).2 <= MAX_OPCODE -> in_order t -> add_opcode op t = Some t' -> in_order t'.
Proof.
  intros Hr Hm Ht Ha. eapply add_opcode_laid; [exact Ht | exact Hr | exact Hm | exact Ha].
Qed.

Lemma add_def_ordered d t t' : ext_bits_ok d = true -> in_order t ->
  add_def d t = Some t' -> in_order t'.
Proof.
  assert (forall code f, in_order t -> add_pattern code f t = Some t' -> in_order t') as Hpat.
  { intros code f Ht. unfold add_pattern. destruct (compile_pattern code) as [p|] eqn:Hp; [|done].
    destruct (compile_pattern_ok _ _ Hp) as (_ & _ & Hr & Hm).
    destruct (pattern_ty p); cbn [ty_range] in *; intros Ha;
      (eapply add_opcode_ordered; [| |exact Ht|exact Ha]; [exact Hr | exact Hm]). }
  destruct d as [code f|code f|c cb ab f|lo hi tb f]; cbn [ext_bits_ok add_def];
    intros He Ht; try by apply Hpat.
  - zify_bool. pose proof (aligned_range c (c + 1) cb ltac:(lia) ltac:(lia) ltac:(lia)) as Hr.
    intros Ha. eapply add_opcode_ordered; [| |exact Ht|exact Ha]; apply Hr.
  - zify_bool. pose proof (aligned_range lo hi tb ltac:(lia) ltac:(lia) ltac:(lia)) as Hr.
    intros Ha. eapply add_opcode_ordered; [| |exact Ht|exact Ha]; apply Hr.
Qed.

Lemma init_ordered l t t' : defs_all P l -> in_order t -> init l t = Some t' -> in_order t'.
Proof.
  intros Hl. revert t. induction Hl as [|d l [_ Hd] _ IH]; intros t Ht; cbn; [by intros [= <-]|].
  destruct (add_def d t) eqn:Ha; [|done]. apply IH. by eapply add_def_ordered.
Qed.
End Tables.

(** ** The modules *)

Section Modules.
Context `{ML : ModelLib} {DL : DictLib} `{CrL : CryptoLib}.

Lemma Forall_ext_bits P l : Forall (op_all P) l -> forallb ext_bits_ok l = true -> defs_all P l.
Proof.
  intros H Hb. unfold defs_all. induction H as [|d l Hd _ IH]; [constructor|].
  cbn in Hb. apply andb_true_iff in Hb as [Hd' Hb]. constructor; auto.
Qed.

Lemma op_all_impl (P Q : VM Z -> Prop) d : (forall m, P m -> Q m) -> op_all P d -> op_all Q d.
Proof. intros H. destruct d; cbn; auto. Qed.

Lemma defs_all_impl (P Q : VM Z -> Prop) l : (forall m, P m -> Q m) -> defs_all P l -> defs_all Q l.
Proof.
  intros H Hl. eapply Forall_impl; [exact Hl|]. intros d [Hd Hb]. split; [|done].
  by eapply op_all_impl.
Qed.

(** Everything the modules execute is allowed. *)
Lemma all_tracked `{CLaws : !CellLaws} `{SLaws : !SliceLaws} `{MLaws : !ModelLaws}
    Rok Rerr `{VT : !VmTracking Rok Rerr} :
  defs_all (allowed Rok Rerr) all_ops.
Proof.
  apply Forall_ext_bits; [|reflexivity]. unfold all_ops. rewrite !Forall_app.
  assert (forall l, Forall (op_all (tracks Rok Rerr (fun _ => True))) l ->
    Forall (op_all (allowed Rok Rerr)) l) as Hi.
  { intros l Hl. eapply Forall_impl; [exact Hl|]. intros d. apply op_all_impl, allowed_tr. }
  repeat split; try (apply cont_tracked; apply _); try (apply currency_tracked; apply _);
    try (apply dict_tracked; apply _); apply Hi.
  - apply (arith_tracked _ _).
  - apply (cmp_tracked _ _).
  - apply (logic_tracked _ _).
  - apply (cell_tracked _ _).
  - apply (stack_tracked _ _).
  - apply (tuple_tracked _ _).
  - apply (debug_tracked _ _).
  - apply (gas_tracked _ _).
  - apply (rand_tracked _ _).
  - apply (config_tracked _ _).
  - apply (message_tracked _ _).
  - apply (crypt_tracked _ _).
  - apply (size_tracked _ _).
Qed.

(** [build().unwrap()] does not panic: every pattern is accepted and no two overlap. *)
Lemma codepage0_builds : is_Some codepage0.
Proof.
  assert (bool_decide (is_Some (init all_ops [])) = true) as H by (vm_compute; reflexivity).
  apply bool_decide_eq_true in H as [t0 H]. unfold codepage0. rewrite H. by eexists.
Qed.

(** What holds of every instruction of every module holds of every opcode of the code
    page, and the code page tiles the opcodes. *)
Lemma code_page_all P t : defs_all P all_ops -> codepage0 = Some t ->
  Forall (fun e => opcode_all P e.2) t /\ tiled op_range 0 MAX_OPCODE t.
Proof.
  intros Hall. unfold codepage0. destruct (init _ []) as [t0|] eqn:Hi; [|done].
  intros [= <-]. split.
  - apply build_all. by eapply init_all; [exact Hall|constructor|].
  - apply build_from_tiled; [done|]. by eapply init_ordered; [exact Hall| |exact Hi].
Qed.
End Modules.

(** * What the opcode table promises

    Registration refuses exactly the overlaps; every opcode word of the code page belongs
    to one entry, which the lookup finds, and no registered instruction is shadowed; the
    arguments of an instruction are the bits its pattern names. *)

(** ** Registration *)

Section Registration.
Context `{CL : CellLib}.
Implicit Types (t : Opcodes) (op : Opcode).

#[local] Abbreviation in_order := (laid op_range 0 MAX_OPCODE).

(** C29: registering an opcode fails exactly when its range overlaps one that is registered;
    otherwise it adds exactly that entry and keeps the entries in order and disjoint. *)
Theorem registration_refuses_overlaps t op
    (Ht : in_order t) (Hop : 0 <= lo op_range op < hi op_range op)
    (Hmax : hi op_range op <= MAX_OPCODE) :
  match add_opcode op t with
  | Some t' => in_order t' /\ (forall e, e ∈ t' <-> e = (lo op_range op, op) \/ e ∈ t) /\
               (forall e, e ∈ t -> ~ overlaps op_range op e)
  | None => exists e, e ∈ t /\ overlaps op_range op e
  end.
Proof.
  unfold add_opcode. pose proof (add_opcode_spec op_range op _ _ _ Ht ltac:(lia)) as H.
  destruct (add_opcode_impl op_range op t) as [t'|] eqn:Ha; [|exact H].
  destruct (add_opcode_laid op_range op _ _ _ _ Ht Hop Hmax Ha) as [Hl He]. by destruct H.
Qed.

(** The opcode an attribute registers. *)
Definition pattern_opcode (code : string) (f : (string -> Z) -> Z -> VM Z) : option Opcode :=
  match compile_pattern code with
  | None => None
  | Some p =>
      let wrapper w := f (by_name (args p) w) w in
      Some match pattern_ty p with
           | Simple opcode bits =>
               SimpleOpcode (wrapper 0) (aligned opcode bits) (aligned (opcode + 1) bits) bits
           | Fixed opcode bits n =>
               FixedOpcode wrapper (aligned opcode bits) (aligned (opcode + 1) bits) (bits + n)
           | FixedRange lo hi n _ => FixedOpcode wrapper (aligned lo n) (aligned hi n) n
           end
  end.

Definition def_opcode (d : OpDef) : option Opcode :=
  match d with
  | Op0 code f => pattern_opcode code (fun _ _ => f)
  | Op code f => pattern_opcode code f
  | OpExt code bits n f =>
      Some (ExtOpcode f (aligned code bits) (aligned (code + 1) bits) (bits + n))
  | OpExtRange lo hi n f => Some (ExtOpcode f (aligned lo n) (aligned hi n) n)
  end.

Lemma pattern_opcode_range code f op : pattern_opcode code f = Some op ->
  0 <= lo op_range op < hi op_range op /\ hi op_range op <= MAX_OPCODE.
Proof.
  unfold pattern_opcode. destruct (compile_pattern code) as [p|] eqn:Hc; [|done]. intros [= <-].
  destruct (compile_pattern_ok _ _ Hc) as (_ & _ & Hr & Hm). by destruct (pattern_ty p).
Qed.

Lemma add_def_opcode d t :
  add_def d t = match def_opcode d with Some op => add_opcode op t | None => None end.
Proof.
  destruct d as [code f|code f|c cb ab f|a b tb f]; cbn [add_def def_opcode]; try done;
    unfold add_pattern, pattern_opcode; (destruct (compile_pattern code) as [p|]; [|done]); by destruct (pattern_ty p).
Qed.

Lemma def_opcode_range d op : ext_bits_ok d = true -> def_opcode d = Some op ->
  0 <= lo op_range op < hi op_range op /\ hi op_range op <= MAX_OPCODE.
Proof.
  destruct d as [code f|code f|c cb ab f|a b tb f]; cbn [ext_bits_ok def_opcode]; intros He;
    try (by apply pattern_opcode_range); intros [= <-]; zify_bool; apply aligned_range; lia.
Qed.

(** Every attribute of a built table has its entry. *)
Lemma init_elem l t t' : Forall (fun d => ext_bits_ok d = true) l -> in_order t ->
  init l t = Some t' ->
  (forall e, e ∈ t -> e ∈ t') /\
  (forall d, d ∈ l -> exists op, def_opcode d = Some op /\ (lo op_range op, op) ∈ t').
Proof.
  intros Hl. revert t. induction Hl as [|d l Hd _ IH]; intros t Ht; cbn [init].
  { intros [= <-]. split; [done|]. intros d Hd. by apply not_elem_of_nil in Hd. }
  rewrite add_def_opcode. destruct (def_opcode d) as [op|] eqn:Ho; [|done].
  destruct (def_opcode_range d op Hd Ho) as [H1 H2].
  destruct (add_opcode op t) as [t1|] eqn:Ha; [|done].
  destruct (add_opcode_laid op_range op _ _ _ _ Ht H1 H2 Ha) as [Hl1 He1].
  intros Hi. destruct (IH t1 Hl1 Hi) as [Hk Hin]. split.
  - intros e He. apply Hk, He1. by right.
  - intros d' [->|Hd']%elem_of_cons; [|by apply Hin].
    exists op. split; [done|]. apply Hk, He1. by left.
Qed.
End Registration.

(** ** The code page *)

Section Page.
Context `{ML : ModelLib} {DL : DictLib} `{CrL : CryptoLib}.

Lemma empty_laid : laid op_range 0 MAX_OPCODE [].
Proof. done. Qed.

(** The extended opcodes have ranges within 24 bits. *)
Lemma ops_ranges : Forall (fun d => ext_bits_ok d = true) all_ops.
Proof.
  apply Forall_forall. intros d Hd.
  apply (proj1 (List.forallb_forall ext_bits_ok all_ops)); [reflexivity|by apply list_elem_of_In].
Qed.

(** The entries of the code page: the registered instructions between fillers. *)
Lemma code_page_entries t : codepage0 = Some t ->
  tiled op_range 0 MAX_OPCODE t /\
  forall d, d ∈ all_ops -> exists op, def_opcode d = Some op /\ (lo op_range op, op) ∈ t.
Proof.
  intros Hc. pose proof ops_ranges as Hall.
  assert (defs_all (fun _ => True) all_ops) as Hd.
  { eapply Forall_impl; [exact Hall|]. intros d Hd. split; [|done]. by destruct d; cbn. }
  destruct (code_page_all _ t Hd Hc) as [_ Ht]. split; [done|]. clear Hd.
  unfold codepage0 in Hc. destruct (init _ []) as [t0|] eqn:Hi; [|done]. injection Hc as <-.
  destruct (init_elem _ [] t0 Hall empty_laid Hi) as [_ Hin].
  clear -Hin. intros d Hd. destruct (Hin d Hd) as (op & Hop & He). exists op. split; [done|].
  by apply (build_from_elem op_range DummyOpcode (fun _ _ => eq_refl) 0 t0).
Qed.

(** Every word of an instruction's range reaches it. *)
Lemma instruction_found t d op w : codepage0 = Some t -> d ∈ all_ops -> def_opcode d = Some op ->
  lo op_range op <= w < hi op_range op -> lookup t w = Some op.
Proof.
  intros Ht Hd Hop Hw. destruct (code_page_entries t Ht) as [Htile Hdefs]. clear Ht.
  pose proof (tiled_laid _ _ _ _ Htile) as Hl.
  destruct (Hdefs d Hd) as (op0 & Hop0 & Hin). rewrite Hop in Hop0. injection Hop0 as <-.
  destruct (laid_in _ _ _ _ _ _ Hl Hin) as (_ & ? & ?).
  destruct (lookup_impl_spec op_range _ t w Htile ltac:(lia)) as (k & op' & Hk & Hin' & Hc').
  unfold lookup. rewrite Hk. f_equal.
  assert ((k, op') = (lo op_range op, op)) as [= _ ->]; [|done].
  by eapply (laid_unique op_range _ _ t _ _ w).
Qed.

(** C27: the code page is built, without a rejected pattern or an overlap, and decodes every
    opcode word: each of the 2^24 words is covered by exactly one entry, the one [lookup]
    returns, and every word in the range of an instruction of any of the sixteen modules
    reaches that instruction: none is shadowed by another or by a filler. *)
Theorem code_page_decodes : exists t, codepage0 = Some t /\
  (forall w, 0 <= w < MAX_OPCODE ->
     exists op, lookup t w = Some op /\ lo op_range op <= w < hi op_range op /\
       forall e, e ∈ t -> covers op_range e w -> e = (lo op_range op, op)) /\
  (forall d, d ∈ all_ops ->
     exists op, def_opcode d = Some op /\
       forall w, lo op_range op <= w < hi op_range op -> lookup t w = Some op).
Proof.
  destruct codepage0_builds as [t Ht]. exists t. split; [exact Ht|].
  destruct (code_page_entries t Ht) as [Htile Hdefs].
  pose proof (tiled_laid _ _ _ _ Htile) as Hl. split.
  - clear Ht. intros w Hw.
    destruct (lookup_impl_spec op_range _ t w Htile Hw) as (k & op & Hk & Hin & Hc).
    destruct (laid_in _ _ _ _ _ _ Hl Hin) as [-> _]. exists op. split; [done|].
    split; [exact Hc|]. intros e He Hce. by eapply laid_unique.
  - intros d Hd. destruct (Hdefs d Hd) as (op & Hop & _). exists op. split; [done|].
    intros w Hw. by apply (instruction_found t d).
Qed.

(** IFBITJMPREF never sees its operands.  It is registered with 10 bits and no argument
    bits, so for every opcode word that encodes it, whatever bit number and negation
    follow the prefix, the handler gets the fixed arguments 0x38f, from which it reads
    "bit 15, not negated". *)
Theorem ifbitjmpref_operands_ignored (t : Opcodes) (w : Z)
    (Ht : codepage0 = Some t) (Hw : 0xe3c000 <= w < 0xe40000) :
  (exists min max, lookup t w = Some (ExtOpcode exec_if_bit_jmpref min max 10)) /\
  Z.shiftr w (MAX_OPCODE_BITS - 10) = 0x38f /\
  forall s, exec_if_bit_jmpref 0x38f 10 s =
    (let* cell := exec_cell_prefix 10 in
     let* bit := peek_bit 15 in
     if bit then let* c := ref_to_cont cell in jump c else ret 0) s.
Proof.
  split; [|split].
  - do 2 eexists. eapply (instruction_found t (OpExt (Z.shiftr 0xe3c0 6) 10 0 exec_if_bit_jmpref));
      [exact Ht | | reflexivity | exact Hw].
    unfold all_ops. rewrite !elem_of_app. do 4 right. left.
    by apply (list_elem_of_lookup_2 _ 41).
  - unfold MAX_OPCODE_BITS. rewrite Z.shiftr_div_pow2 by done.
    change (2 ^ (24 - 10)) with 16384. symmetry. apply Z.div_unique with (w - 0xe3c000); lia.
  - intros s. unfold exec_if_bit_jmpref.
    change (Z.land 0x38f 0x20) with 0. change (Z.land 0x38f 0x1f) with 15. cbn [negb Z.eqb].
    unfold bind. destruct (exec_cell_prefix 10 s) as [[c|e] s1]; [|done].
    destruct (peek_bit 15 s1) as [[b|e] s2]; [|done]. by rewrite xorb_false_r.
Qed.
End Page.

(** ** The arguments of an instruction *)

Section Arguments.
Implicit Types (l : list (ascii * Z)) (vals : list Z).







End Arguments.
