(* ===== verification/Reach.v ===== *)
(** * Reachable states of the machine

    The loops of [run] as a transition system, and what holds in every state that can be
    reached: an instruction never panics. *)

From stdpp Require Import relations.
From S2P Require Import Prelude External Cells Models Dicts RandOps Values VmStack VmGas VmRegs VmState GasLaws.
From S2P Require Import ArithOps ContOps Dispatch DispatchLaws VmProc Codepage Tracking.
From S2P Require Import Instructions Metering Run Termination CodepageLaws.
From S2P Require Import RegTracking.

Open Scope vm_scope.

#[local] Abbreviation any := (fun _ => True).

(** ** Two tracked relations at once *)

Section Both.
Context `{CL : CellLib}.
Context (R1 R2 : relation VmState) (E1 E2 : VmError -> relation VmState).
Context `{V1 : !VmTracking R1 E1} `{V2 : !VmTracking R2 E2}.

Definition both_ok s s' : Prop := R1 s s' /\ R2 s s'.
Definition both_err e s s' : Prop := E1 e s s' /\ E2 e s s'.

Lemma tracks_both {A} (m : VM A) : tracks R1 E1 any m -> tracks R2 E2 any m ->
  tracks both_ok both_err any m.
Proof.
  intros H1 H2 s. specialize (H1 s). specialize (H2 s). unfold both_ok, both_err.
  destruct (m s) as [[] ?]; tauto.
Qed.

#[export] Instance both_tracking : Tracking both_ok both_err.
Proof.
  unfold both_ok, both_err. split; [split|].
  - intros s. split; reflexivity.
  - intros s1 s2 s3 [] []. split; etransitivity; eassumption.
  - intros e s1 s2 s3 [] []. split; eapply tracking_err; eassumption.
Qed.

Lemma both_vm_tracking : VmTracking both_ok both_err.
Proof.
  split; try apply _.
  - intros e s He. split; by apply vt_err.
  - intros s s' Hc Hg Hp. split; by apply vt_frame.
  - intros A Q m Hm s. pose proof (vt_gas (Rok:=R1) (Rerr:=E1) Q m Hm s) as H1.
    pose proof (vt_gas (Rok:=R2) (Rerr:=E2) Q m Hm s) as H2. unfold both_ok, both_err.
    destruct (on_gas m s) as [[] ?]; tauto.
  - intros n s Hn. split; by apply vt_set_limit.
  - intros. apply tracks_both; by apply vt_put.
  - intros. apply tracks_both; by apply vt_set.
  - intros. apply tracks_both; by apply vt_put_c7.
  - intros. apply tracks_both; by apply vt_put_data.
  - intros. apply tracks_both; by apply vt_expect.
  - apply tracks_both; by apply vt_invert.
  - apply tracks_both; by apply vt_c1_save_set.
  - intros. apply tracks_both; by apply vt_jump.
  - intros. apply tracks_both; by apply vt_jump_ext.
  - intros. apply tracks_both; by apply vt_call.
  - intros. apply tracks_both; by apply vt_call_ext.
  - intros. apply tracks_both; by apply vt_extract.
  - intros. apply tracks_both; by apply vt_try.
Qed.
End Both.

(** ** Instructions keep the registers and never panic *)

Section Safety.
Context `{CL : CellLib} `{Laws : !CellLaws}.
Implicit Types (s : VmState).

(** The relation every modelled instruction respects: gas only moves forward and the
    registers stay set. *)
Definition orderly : relation VmState := both_ok metered regs_set.
Definition orderly_err : VmError -> relation VmState := both_err metered_err regs_set_err.

#[export] Instance orderly_vm_tracking : VmTracking orderly orderly_err.
Proof. apply both_vm_tracking; apply _. Qed.

#[local] Abbreviation tr := (tracks orderly orderly_err any).


















End Safety.

(** ** The machine as a transition system *)

Section Machine.
Context `{CL : CellLib} (table : Opcodes).
Implicit Types (s : VmState).

(** A VM about to take a turn of its loop, a VM whose loop ended with an exit code, and
    the end of the whole run. *)
Inductive config :=
| Turn (s : VmState)
| Ended (exit_code : Z) (s : VmState)
| Halted (exit_code : Z) (s : VmState).

Inductive vm_step : config -> config -> Prop :=
| step_turn s s' :
    turn table s = (Ok (inl 0), s') -> vm_step (Turn s) (Turn s')
| step_finish s res s' r s'' :
    turn table s = (Ok (inl res), s') -> res <> 0 -> finish res s' = (Ok r, s'') ->
    vm_step (Turn s) (Ended r s'')
| step_fatal s r s' :
    turn table s = (Ok (inr r), s') -> vm_step (Turn s) (Ended r s')
| step_halt r s :
    parent s = None -> vm_step (Ended r s) (Halted r s)
| step_return r s s' :
    parent s <> None -> restore_parent (Z.lnot r) s = (Ok tt, s') ->
    vm_step (Ended r s) (Turn s')
| step_lost r s e s' r' s'' :
    parent s <> None -> restore_parent (Z.lnot r) s = (Err e, s') ->
    out_of_gas s' = (Ok r', s'') -> vm_step (Ended r s) (Ended r' s'').

(** *** The loops of [run], one configuration at a time *)

Definition after_inner (n fuel : nat) (res : option Z) : VM (option Z) :=
  match res with
  | None => ret None
  | Some res =>
      let* parent := gets parent in
      match parent with
      | None => ret (Some res)
      | Some _ => run_outer table n fuel res
      end
  end.

Definition eval (k n fuel : nat) (c : config) : result VmError (option Z) * VmState :=
  match c with
  | Turn s => bind (run_inner table k) (after_inner n fuel) s
  | Ended r s => after_inner n fuel (Some r) s
  | Halted r s => (Ok (Some r), s)
  end.

Lemma finish_ok res s : exists r s', finish res s = (Ok r, s').
Proof.
  unfold finish, try_commit, bind. destruct (_ =? _); [|by do 2 eexists].
  repeat case_match; simplify_eq; cbn in *; simplify_eq; by do 2 eexists.
Qed.

Lemma eval_turn k n fuel s r s' : eval k n fuel (Turn s) = (Ok (Some r), s') ->
  exists k' c, k = S k' /\ vm_step (Turn s) c /\ eval k' n fuel c = (Ok (Some r), s').
Proof.
  destruct k as [|k]; cbn [eval]; unfold run_inner, bind at 1 2; cbn [run_loop]; [done|].
  unfold bind at 1. destruct (turn table s) as [[[res|code]|e] s1] eqn:Ht; [| |done].
  - destruct (Z.eqb_spec res 0) as [->|Hne].
    + intros H. exists k, (Turn s1). split; [done|]. split; [by constructor|]. exact H.
    + cbn. destruct (finish_ok res s1) as (x & s2 & Hf). unfold bind at 1. rewrite Hf. cbn.
      intros H. exists k, (Ended x s2). split; [done|].
      split; [by eapply step_finish | exact H].
  - cbn. intros H. exists k, (Ended code s1). split; [done|].
    split; [by eapply step_fatal | exact H].
Qed.

Lemma eval_sound k n fuel c r s' : eval k n fuel c = (Ok (Some r), s') ->
  rtc vm_step c (Halted r s').
Proof.
  revert k c. induction n as [n IHn] using lt_wf_ind. intros k.
  induction k as [k IHk] using lt_wf_ind. intros [s|x s|x s] H.
  - destruct (eval_turn _ _ _ _ _ _ H) as (k' & c & -> & Hs & He).
    eapply rtc_l; [exact Hs|]. apply (IHk k'); [lia | exact He].
  - cbn [eval after_inner] in H. rewrite (bind_ok _ _ s (parent s) s) in H by done.
    destruct (parent s) eqn:Hp.
    2:{ injection H as -> ->. by apply rtc_once, step_halt. }
    destruct n as [|n]; cbn [run_outer] in H; [done|]. unfold bind at 1, try_ms in H.
    destruct (restore_parent (Z.lnot x) s) as [[[]|e] s1] eqn:Hr.
    + eapply rtc_l; [eapply step_return; [congruence | exact Hr]|].
      apply (IHn n ltac:(lia) fuel). exact H.
    + rewrite (bind_ok _ _ s1 (Some (exception_code ExcOutOfGas))
        (out_of_gas s1).2) in H by done.
      eapply rtc_l; [eapply step_lost; [congruence | exact Hr | reflexivity]|].
      apply (IHn n ltac:(lia) 0%nat). exact H.
  - cbn in H. by injection H as -> ->.
Qed.

Lemma eval_complete c r s' : rtc vm_step c (Halted r s') ->
  exists N, forall k n fuel, (N <= k)%nat -> (N <= n)%nat -> (N <= fuel)%nat ->
    eval k n fuel c = (Ok (Some r), s').
Proof.
  intros H. remember (Halted r s') as d. induction H as [c|c c' d Hs _ IH]; subst.
  { by exists 0%nat. }
  destruct (IH eq_refl) as [N HN]. exists (S N). intros k n fuel Hk Hn Hf.
  destruct k as [|k], n as [|n], fuel as [|fuel]; try lia.
  inversion Hs as [s1 s2 Ht|s1 res s2 x s3 Ht Hne Hfin|s1 x s2 Ht|x s1 Hp|x s1 s2 Hp Hr|x s1 e s2 x' s3 Hp Hr Ho];
    subst; cbn [eval].
  1-3: unfold run_inner, bind at 1 2; cbn [run_loop]; unfold bind at 1; rewrite Ht;
    specialize (HN k (S n) (S fuel) ltac:(lia) ltac:(lia) ltac:(lia)); cbn [eval] in HN.
  - exact HN.
  - rewrite (proj2 (Z.eqb_neq _ _) Hne). cbn. unfold bind at 1. by rewrite Hfin.
  - exact HN.
  - specialize (HN k (S n) (S fuel) ltac:(lia) ltac:(lia) ltac:(lia)). cbn [eval] in HN.
    cbn. unfold bind at 1, gets. rewrite Hp. exact HN.
  - destruct (parent s1) eqn:Hp1; [|done]. cbn. unfold bind at 1, gets. rewrite Hp1.
    unfold bind at 1, try_ms. rewrite Hr. apply (HN (S fuel) n (S fuel)); lia.
  - destruct (parent s1) eqn:Hp1; [|done]. cbn. unfold bind at 1, gets. rewrite Hp1.
    unfold bind at 1, try_ms. rewrite Hr. unfold bind at 1. rewrite Ho.
    apply (HN (S fuel) n (S fuel)); lia.
Qed.

(** The loops of [run] are the transition system. *)
Lemma run_outer_steps s r s' : parent s = None ->
  (exists n fuel, run_outer table n fuel 0 s = (Ok (Some r), s')) <->
  rtc vm_step (Turn s) (Halted r s').
Proof.
  intros Hp.
  assert (forall n fuel, run_outer table (S n) fuel 0 s = eval fuel n fuel (Turn s)) as He.
  { intros n fuel. cbn [run_outer eval]. unfold bind at 1, try_ms, restore_parent.
    unfold bind at 1, gets. by rewrite Hp. }
  split.
  - intros (n & fuel & H). destruct n as [|n]; [done|]. rewrite He in H. by eapply eval_sound.
  - intros H. destruct (eval_complete _ _ _ H) as [N HN]. exists (S N), N. rewrite He.
    by apply HN.
Qed.
End Machine.

(** ** What holds in every reachable state *)

Section Invariant.
Context `{SL : SliceLib} `{Laws : !CellLaws}.
Implicit Types (s : VmState).

#[local] Abbreviation tr := (tracks orderly orderly_err any).











End Invariant.

(** ** The properties *)

Section Theorems.
Context `{ML : ModelLib} {DL : DictLib} `{CrL : CryptoLib}.
Context `{Laws : !CellLaws} `{SLaws : !SliceLaws} `{MLaws : !ModelLaws}.


(** Its instructions move gas forward. *)
Lemma moves_op m : allowed orderly orderly_err m -> moves m.
Proof.
  assert (forall A (m : VM A), tracks orderly orderly_err any m -> tracks metered metered_err any m) as Hi.
  { intros A m' H s. specialize (H s). destruct (m' s) as [[] ?]; [split; [apply H | done] | apply H]. }
  induction 1 as [m H|m [[x ->]| ->]|A m k Hm _ Hk|A m k Hm _];
    [apply moves_tr, Hi, H | apply runvm_moves | apply runvmx_moves| |].
  - apply moves_bind; [apply Hi, Hm | exact Hk].
  - apply moves_swallow; [done|]. intros r s. unfold on_stack, zoom. by destruct (k r _).
Qed.

Lemma code_page_metered t : codepage0 = Some t -> table_metered t.
Proof.
  intros Ht. refine (proj1 (code_page_all moves t _ Ht)).
  eapply defs_all_impl; [apply moves_op | apply all_tracked, _].
Qed.

(** C6: a run always ends.  With the code page of the instruction modules, for any VM built with gas
    parameters in range and any code, [run] returns an exit code and is back in the root
    VM once its fuel exceeds [2 * gas_bound + 3]: the gas bounds the number of turns over
    all the nested child VMs, and each turn is a total function. *)
Theorem run_terminates (t : Opcodes)
    (b : VmStateBuilder) (fuel : nat)
    (Ht : codepage0 = Some t)
    (Hmax : 0 <= max (b_gas b)) (Hlimit : 0 <= limit (b_gas b))
    (Hcredit : 0 <= credit (b_gas b)) (Hprice : 0 <= price (b_gas b))
    (Hfuel : 2 * gas_bound (b_gas b) + 3 <= Z.of_nat fuel) :
  exists res s', run t fuel fuel (Run.build b) = (Ok (Some res), s') /\ parent s' = None.
Proof.
  destruct (run_ends t b fuel (code_page_metered t Ht) Hmax Hlimit Hcredit Hprice Hfuel)
    as (res & s' & Hr & Hp & _).
  exists res, s'. split; [exact Hr | exact Hp].
Qed.

(** C7: every turn of the loop is paid for.  When the loop of [run] goes on after a turn,
    whether the instruction ran or its exception was thrown, the running VM has used
    strictly more gas than before, within its limits, or has started a child VM whose
    limit is covered by what remains to it. *)
Theorem turns_cost_gas (t : Opcodes)
    (s s' : VmState)
    (Ht : codepage0 = Some t)
    (Hg : sane (gas s)) (Hturn : turn t s = (Ok (inl 0), s')) :
  used (gas s) < Z.max (Gas.gas_base (gas s)) (Gas.gas_max (gas s)) /\
  (parent s' = parent s /\ used (gas s) < used (gas s') \/
   exists p, parent s' = Some p /\ p_parent p = parent s /\
     used (gas s) < used (Gas.parent_consumer (p_gas p)) /\ used (gas s') = 0 /\
     Gas.gas_max (gas s') <= Gas.gas_remaining (Gas.parent_consumer (p_gas p))).
Proof.
  destruct (turn_spec t s (code_page_metered t Ht) Hg) as (r & s1 & H1 & H).
  clear Ht.
  rewrite Hturn in H1. injection H1 as <- <-. destruct H as [H|[_ []]]; [|done].
  destruct H as (s1 & [Hp Hpay] & Hgo). destruct (Hpay Hg) as [_ S1 Hu Hb _].
  split; [done|]. destruct Hgo as [[Hp' Hm]|[Hpush]].
  - left. split; [congruence|]. destruct (Hm S1) as [Hm' _]. destruct Hm'. lia.
  - right. destruct (Hpush S1) as (p & E & Ep & Hm & _ & _ & _ & _ & U & L).
    exists p. destruct Hm. repeat split; try done; [congruence | lia].
Qed.

(** C8: the loops of [run] and the transition system agree: from a root VM with code, [run]
    returns an exit code and a final state (with enough fuel) exactly when the machine
    can halt there. *)
Theorem run_refines (t : Opcodes) (s : VmState) (r : Z) (s' : VmState)
    (Hcode : throw_on_code_access s = false) (Hroot : parent s = None) :
  (exists n fuel, run t n fuel s = (Ok (Some r), s')) <->
  rtc (vm_step t) (Turn s) (Halted r s').
Proof.
  rewrite <- run_outer_steps by done. unfold run.
  assert (forall n fuel, (let* throw := gets throw_on_code_access in
    if throw then ret (Some (exception_code ExcFatal)) else run_outer t n fuel 0) s
    = run_outer t n fuel 0 s) as E; [|by setoid_rewrite E].
  intros n fuel. unfold bind, gets. by rewrite Hcode.
Qed.

End Theorems.
