(* ===== verification/GasSpec.v ===== *)
(** * What gas is charged

    The gas operations of VmGas.v, exactly: consuming and the gas limit, loading cells
    through libraries, signature checks, the limited consumer, and the gas of child VMs. *)

From S2P Require Import Prelude External Values VmStack VmGas VmRegs VmState GasLaws.
From S2P Require Import ArithOps GasOps ArithSpec.

Open Scope vm_scope.

Section Charges.
Context `{CL : CellLib}.
Import Gas.
Implicit Types (g : GasConsumer) (n : Z).

(** [g] after paying [n]. *)
Definition charged (n : Z) g : GasConsumer := set_remaining (gas_remaining g - n) g.

Lemma charged_wf n g : gas_wf g -> 0 <= n <= gas_remaining g -> gas_wf (charged n g).
Proof.
  intros W Hn. apply mv_wf with (g := g), gas_moved_remaining; [done|]. unfold_widths. lia.
Qed.

Lemma charged_add n m g : charged m (charged n g) = charged (n + m) g.
Proof. unfold charged, set_remaining; cbn. f_equal. lia. Qed.

Lemma charged_0 g : charged 0 g = g.
Proof. unfold charged. rewrite Z.sub_0_r. by destruct g. Qed.

Lemma consume_charged n g : gas_wf g -> 0 <= n <= gas_remaining g ->
  try_consume n g = (Ok tt, charged n g).
Proof. apply try_consume_ok. Qed.

(** Consuming an amount that fits in 63 bits: it succeeds exactly when that much gas is
    left, takes it either way (down to the least [i64]) and changes nothing else; what has
    been consumed grows by the amount. *)
Theorem consuming_gas n g (Hg : gas_wf g) (Hn : 0 <= n <= I64_MAX) :
  try_consume n g =
    (if n <=? gas_remaining g then Ok tt else Err Cancelled,
     set_remaining (Z.max I64_MIN (gas_remaining g - n)) g) /\
  (0 <= gas_remaining g -> consumed (try_consume n g).2 = Z.min (consumed g + n) I64_MAX).
Proof.
  pose proof (wf_remaining g Hg) as Hr. pose proof (wf_base g Hg) as Hb.
  assert (try_consume n g =
    (if n <=? gas_remaining g then Ok tt else Err Cancelled,
     set_remaining (Z.max I64_MIN (gas_remaining g - n)) g)) as E.
  { unfold try_consume. rewrite truncate_gas_id by done. unfold sat_sub_i64, clamp. unfold_widths.
    f_equal; [repeat case_bool; try done; lia|]. f_equal. lia. }
  split; [exact E|]. intros H0. rewrite E. unfold consumed, sat_sub_i64, clamp, wrap_u; cbn.
  unfold_widths. rewrite !Z.mod_small by lia. lia.
Qed.

(** ** Cells *)

Definition load_fee (loaded : gset HashBytes) (c : Cell) : Z :=
  if bool_decide (repr_hash c ∈ loaded) then OLD_CELL_GAS else NEW_CELL_GAS.

(** [g] after loading [c] itself. *)
Definition loaded_once (c : Cell) g : GasConsumer :=
  charged (load_fee (loaded_cells g) c) (set_loaded ({[repr_hash c]} ∪ loaded_cells g) g).

Lemma load_fee_range s c : 25 <= load_fee s c <= 100.
Proof. unfold load_fee, OLD_CELL_GAS, NEW_CELL_GAS. case_bool_decide; lia. Qed.

Lemma load_turn_full k b c g : gas_wf g -> load_fee (loaded_cells g) c <= gas_remaining g ->
  load_cell_turn try_consume LoadMode_Full k b c g =
    (match cell_type c with
     | Ordinary => ret c
     | LibraryReference =>
         if negb b then
           let* library_hash := of_result (get_library_hash c) in
           let* libs := gets libraries in
           let* found := of_result (libs library_hash) in
           match found with
           | None => modify (put_missing (Some library_hash)) ;; raise CellUnderflow
           | Some library_cell => k library_cell
           end
         else raise CellUnderflow
     | _ => raise CellUnderflow
     end) (loaded_once c g).
Proof.
  intros W Hf. pose proof (load_fee_range (loaded_cells g) c) as Hr.
  unfold load_cell_turn, LoadMode_Full. cbn [use_gas resolve negb].
  set (g1 := set_loaded ({[repr_hash c]} ∪ loaded_cells g) g).
  assert (gas_wf g1) as W1 by (by destruct W).
  rewrite (bind_ok _ _ g tt (loaded_once c g)); [done|].
  rewrite (bind_ok _ _ g (bool_decide (repr_hash c ∉ loaded_cells g)) g) by done.
  rewrite (bind_ok _ _ g tt g1) by done.
  unfold loaded_once. fold g1. unfold load_fee in *.
  destruct (decide (repr_hash c ∈ loaded_cells g)) as [Hi|Hi].
  - rewrite bool_decide_eq_false_2 by tauto. rewrite bool_decide_eq_true_2 in * by done.
    by apply consume_charged.
  - rewrite bool_decide_eq_true_2 by done. rewrite bool_decide_eq_false_2 in * by done.
    by apply consume_charged.
Qed.

(** C34: loading a cell with gas costs 100 the first time and 25 again, and resolves one
    level of library reference: the reference is paid for, then the library cell; a
    library that is not found is recorded and fails, as do a library that is itself not
    an ordinary cell and any other exotic cell. *)
Theorem cell_loads_are_charged (c : Cell) g (Hg : gas_wf g) (Hr : 200 <= gas_remaining g) :
  load_cell_impl c LoadMode_Full g =
  match cell_type c with
  | Ordinary => (Ok c, loaded_once c g)
  | LibraryReference =>
      match get_library_hash c with
      | Err e => (Err e, loaded_once c g)
      | Ok h =>
          match libraries g h with
          | Err e => (Err e, loaded_once c g)
          | Ok None => (Err CellUnderflow, put_missing (Some h) (loaded_once c g))
          | Ok (Some l) =>
              (match cell_type l with Ordinary => Ok l | _ => Err CellUnderflow end,
               loaded_once l (loaded_once c g))
          end
      end
  | _ => (Err CellUnderflow, loaded_once c g)
  end /\
  repr_hash c ∈ loaded_cells (loaded_once c g) /\
  load_fee (loaded_cells (loaded_once c g)) c = 25.
Proof.
  split.
  - unfold load_cell_impl. pose proof (load_fee_range (loaded_cells g) c) as Hf.
    rewrite load_turn_full by (done || lia).
    destruct (cell_type c); try done. cbn [negb].
    destruct (get_library_hash c) as [h|e]; [|done].
    unfold bind at 1, of_result at 1. cbn. unfold bind, gets, of_result.
    change (libraries (loaded_once c g)) with (libraries g).
    destruct (libraries g h) as [[l|]|e]; [|done|done].
    assert (gas_wf (loaded_once c g)) as W1.
    { apply charged_wf; [by destruct Hg|]. cbn. lia. }
    pose proof (load_fee_range (loaded_cells (loaded_once c g)) l).
    rewrite load_turn_full; [|done|cbn in *; lia].
    by destruct (cell_type l).
  - cbn. split; [set_solver|]. unfold load_fee. by rewrite bool_decide_eq_true_2 by set_solver.
Qed.

(** ** Signature checks *)

(** [k] charges in a row. *)
Fixpoint repeat_gm (k : nat) (m : GM unit) : GM unit :=
  match k with O => ret tt | S k => m ;; repeat_gm k m end.

Definition set_checks (k f : Z) g : GasConsumer :=
  set_counters k f (get_extra_balance_counter g) g.

Lemma signature_step g : gas_wf g -> 0 <= chksign_counter g ->
  free_gas_consumed g + CHK_SGN_GAS_PRICE <= I64_MAX -> CHK_SGN_GAS_PRICE <= gas_remaining g ->
  let k := chksign_counter g in
  try_consume_check_signature_gas g =
    (Ok tt, if k <? 10 then set_checks (k + 1) (free_gas_consumed g + 4000) g
            else set_checks (k + 1) (free_gas_consumed g) (charged 4000 g)).
Proof.
  intros W Hk Hf Hg k. unfold try_consume_check_signature_gas, CHK_SGN_GAS_PRICE in *.
  set (g1 := set_counters (chksign_counter g + 1) (free_gas_consumed g) (get_extra_balance_counter g) g).
  rewrite (bind_ok _ _ g tt g1) by done. rewrite (bind_ok _ _ g1 (k + 1) g1) by done.
  assert (gas_wf g1) as W1 by (by destruct W).
  unfold FREE_SIGNATURE_CHECKS. destruct (Z.ltb_spec 10 (k + 1)), (Z.ltb_spec k 10); try lia.
  - rewrite consume_charged by (done || (cbn; lia)). done.
  - unfold consume_free_gas, modify. do 2 f_equal. unfold set_checks. cbn.
    unfold set_counters; cbn. pose proof (wf_free g W). f_equal.
    unfold sat_add_u64. rewrite truncate_gas_id; unfold_widths; lia.
Qed.

Lemma signature_run (k : nat) g : gas_wf g -> 0 <= chksign_counter g ->
  free_gas_consumed g + 4000 * Z.of_nat k <= I64_MAX ->
  4000 * Z.of_nat k <= gas_remaining g ->
  let c := chksign_counter g in
  let free := Z.max 0 (Z.min (10 - c) (Z.of_nat k)) in
  repeat_gm k try_consume_check_signature_gas g =
    (Ok tt, set_checks (c + Z.of_nat k) (free_gas_consumed g + 4000 * free)
              (charged (4000 * (Z.of_nat k - free)) g)).
Proof.
  revert g. induction k as [|k IH]; intros g W Hc Hf Hg c free; cbn [repeat_gm].
  - assert (free = 0) as -> by (unfold free; lia). unfold ret, set_checks. f_equal.
    rewrite !Z.add_0_r. rewrite charged_0. by destruct g.
  - assert (Z.of_nat (S k) = Z.of_nat k + 1) as Ek by lia. rewrite Ek in *.
    pose proof (wf_free g W).
    rewrite (bind_ok _ _ _ _ _ (signature_step g W Hc
      ltac:(unfold CHK_SGN_GAS_PRICE; lia) ltac:(unfold CHK_SGN_GAS_PRICE; lia))).
    fold c. destruct (Z.ltb_spec c 10) as [H10|H10].
    + rewrite IH; cbn; [|destruct W; split; cbn; lia|lia|lia|lia].
      unfold set_checks, charged, set_counters, set_remaining; cbn. do 2 f_equal; unfold free; lia.
    + rewrite IH; cbn; [|by destruct (charged_wf 4000 g W ltac:(lia)); split|lia|lia|lia].
      unfold set_checks, charged, set_counters, set_remaining; cbn. do 2 f_equal; unfold free; lia.
Qed.

(** C36: signature checks: in a VM that has made none, the first ten are free (their price is
    recorded as free gas) and each further one costs 4000, for any number of checks. *)
Theorem signature_checks_charged (k : nat) g
    (Hg : gas_wf g) (Hc : chksign_counter g = 0) (Hf : free_gas_consumed g = 0)
    (Hm : 4000 * Z.of_nat k <= gas_remaining g) :
  repeat_gm k try_consume_check_signature_gas g =
    (Ok tt, set_checks (Z.of_nat k) (4000 * Z.min 10 (Z.of_nat k))
              (charged (4000 * Z.max 0 (Z.of_nat k - 10)) g)).
Proof.
  pose proof (wf_remaining g Hg). pose proof (wf_base g Hg).
  rewrite signature_run by (done || lia). rewrite Hc, Hf, !Z.add_0_l, Z.sub_0_r.
  assert (Z.max 0 (Z.min 10 (Z.of_nat k)) = Z.min 10 (Z.of_nat k)) as -> by lia.
  do 3 f_equal. lia.
Qed.

(** ** The limited consumer *)

Fixpoint charge_all (l : list Z) : MS LimitedGasConsumer Error unit :=
  match l with [] => ret tt | n :: l => limited_try_consume n ;; charge_all l end.

Definition total (l : list Z) : Z := fold_right Z.add 0 l.

Lemma total_nonneg l : Forall (fun n => 0 <= n) l -> 0 <= total l.
Proof. induction 1; cbn; [done|]. unfold total in *. lia. Qed.

(** What of [n] is free when the budget is [b]: nothing as long as budget remains. *)
Definition set_free (f : Z) g : GasConsumer :=
  set_counters (chksign_counter g) f (get_extra_balance_counter g) g.

Lemma limited_step n b g : gas_wf g -> 0 <= n -> 0 <= b ->
  n + free_gas_consumed g <= I64_MAX -> b <= gas_remaining g ->
  limited_try_consume n (mkLimited g b) =
    (Ok tt, mkLimited (set_free (free_gas_consumed g + (n - Z.min n b)) (charged (Z.min n b) g))
              (b - Z.min n b)).
Proof.
  intros W Hn Hb Hf Hg. pose proof (wf_free g W). unfold limited_try_consume. cbn [main_gas remaining].
  rewrite truncate_gas_id by lia. rewrite consume_charged by (done || lia).
  case_bool; unfold set_free, charged, set_counters, set_remaining; cbn.
  - unfold sat_add_u64. rewrite truncate_gas_id by (unfold_widths; lia).
    rewrite Z.min_r by (unfold_widths; lia). done.
  - replace (n - Z.min n b) with 0 by lia. rewrite Z.add_0_r. by destruct g.
Qed.

(** the limited consumer of GETEXTRABALANCE: whatever is charged, the main consumer pays
    the total up to the budget and not more, and the rest is recorded as free gas. *)
Theorem limited_consumer_budget (l : list Z) (b : Z) g
    (Hg : gas_wf g) (Hl : Forall (fun n => 0 <= n) l) (Hb : 0 <= b <= gas_remaining g)
    (Hf : total l + free_gas_consumed g <= I64_MAX) :
  charge_all l (mkLimited g b) =
    (Ok tt, mkLimited (set_free (free_gas_consumed g + (total l - Z.min (total l) b))
                         (charged (Z.min (total l) b) g)) (b - Z.min (total l) b)).
Proof.
  revert b g Hg Hb Hf. induction Hl as [|n l Hn Hl IH]; intros b g W Hb Hf; cbn [charge_all total fold_right].
  - rewrite Z.min_l by lia. rewrite charged_0.
    replace (free_gas_consumed g + (0 - 0)) with (free_gas_consumed g) by lia.
    rewrite Z.sub_0_r. by destruct g.
  - pose proof (total_nonneg l Hl). change (fold_right Z.add 0 l) with (total l) in *.
    cbn [total fold_right] in Hf. change (fold_right Z.add 0 l) with (total l) in *.
    pose proof (wf_free g W).
    rewrite (bind_ok _ _ _ _ _ (limited_step n b g W Hn ltac:(lia) ltac:(lia) ltac:(lia))).
    rewrite IH; [| |cbn; lia|cbn; lia].
    + unfold set_free, charged, set_counters, set_remaining; cbn. f_equal. f_equal; [f_equal; lia|lia].
    + destruct (charged_wf (Z.min n b) g W ltac:(lia)). split; cbn in *; lia.
Qed.
End Charges.

(** ** The gas limit and child VMs *)

Section Limits.
Context `{CL : CellLib}.
Import Gas.
Implicit Types (g : GasConsumer) (s : VmState).

(** The limit asked for by an integer. *)
Definition asked_limit (n : Z) : Z := Z.max 0 (Z.min n I64_MAX).

Lemma asked_limit_eq n : (if 0 <? n then positive_i64 n else 0) = asked_limit n.
Proof.
  unfold asked_limit, positive_i64, to_i64, to_range.
  destruct (Z.ltb_spec 0 n); [|unfold_widths; lia].
  repeat (case_bool; cbn); unfold_widths; lia.
Qed.

(** C35: SETGASLIMIT: it fails out of gas exactly when more has been consumed than asked for;
    otherwise the limit and base become what is asked for, at most the maximum, the credit
    is gone, and the gas used so far still counts against the new limit. *)
Theorem set_gas_limit_instruction s (n : Z) (l : list value)
    (Hs : stack s = of_view (VInt n :: l)) (Hg : sane (gas s))
    (Hm : stop_on_accept (modifiers s) = false) :
  let asked := asked_limit n in
  let s1 := set_stack (of_view l) s in
  if asked <? used (gas s) then exec_set_gas_limit s = (Err OutOfGas, s1)
  else
    let g' := set_limit asked (gas s) in
    exec_set_gas_limit s = (Ok 0, set_gas g' s1) /\
    gas_limit g' = Z.min asked (gas_max (gas s)) /\ gas_base g' = gas_limit g' /\
    gas_credit g' = 0 /\ gas_remaining g' = gas_limit g' - used (gas s) /\
    used g' = used (gas s).
Proof.
  intros asked s1. pose proof Hg as [W HU]. pose proof (consumed_used (gas s) W) as Hc.
  assert (0 <= asked <= I64_MAX) as Ha by (unfold asked, asked_limit; unfold_widths; lia).
  assert (exec_set_gas_limit s = exec_set_gas asked s1) as ->.
  { unfold exec_set_gas_limit. rewrite (bind_ok _ _ s n s1); [by rewrite asked_limit_eq|].
    unfold on_stack, zoom. by rewrite Hs, pop_int_ok. }
  unfold exec_set_gas. rewrite (bind_ok _ _ s1 (gas s) s1) by done.
  destruct (Z.ltb_spec asked (used (gas s))).
  - unfold bind. by rewrite ensure_false by (apply Z.leb_gt; lia).
  - unfold bind at 1. rewrite ensure_true by (apply Z.leb_le; lia). cbn [ret].
    destruct (set_limit_fields asked (gas s) Hg ltac:(lia)) as (E1 & E2 & E3 & E4 & E5).
    split; [|rewrite E2, E3, E5; unfold used in *; rewrite E3, E5; repeat split; auto; lia].
    unfold bind, modify, gets; cbn. by rewrite Hm.
Qed.

End Limits.
