(* ===== verification/CellSpec.v ===== *)
(** * What the cell instructions do

    Records of integers and references written by the storing instructions, built into a
    cell, and read back by the loading instructions. *)

From S2P Require Import Prelude External Cells Bits Values VmStack VmGas VmRegs VmState GasLaws.
From S2P Require Import ArithOps CellOps ArithSpec GasSpec StackSpec.
Import TreeCells TreeSlices.

Open Scope vm_scope.

Section CellSpec.
Context `{SL : SliceLib} `{BL : !BigIntLaws} `{CLaws : !CellLaws} `{SLaws : !SliceLaws}.
Implicit Types (l : list value) (s : VmState) (b : CellBuilder) (cs : OwnedCellSlice).

#[local] Abbreviation len l := (Z.of_nat (length l)).
#[local] Abbreviation SM := (MS (list value) VmError).

(** ** Integers *)

(** The integers a field of [n] bits holds. *)
Definition int_range (signed : bool) (n z : Z) : Prop :=
  if signed then - 2 ^ (n - 1) <= z < 2 ^ (n - 1) else 0 <= z < 2 ^ n.

Lemma int_range_bounds signed n z : 1 <= n -> int_range signed n z -> - 2 ^ n < z < 2 ^ n.
Proof.
  intros Hn H. assert (2 ^ n = 2 * 2 ^ (n - 1)) as He.
  { rewrite <- Z.pow_succ_r by lia. f_equal. lia. }
  pose proof (Z.pow_pos_nonneg 2 (n - 1)). destruct signed; cbn in H; lia.
Qed.

Lemma int_range_shift signed n z k : 1 <= n -> 0 <= k ->
  int_range signed n z -> int_range signed (n + k) (z * 2 ^ k).
Proof.
  intros Hn Hk H. pose proof (Z.pow_pos_nonneg 2 k). destruct signed; cbn in *.
  - replace (n + k - 1) with (n - 1 + k) by lia. rewrite Z.pow_add_r by lia. nia.
  - rewrite Z.pow_add_r by lia. nia.
Qed.

Lemma int_range_small signed n z : 1 <= n <= 300 -> int_range signed n z -> small_int z.
Proof.
  intros Hn H. apply int_range_bounds in H; [|lia]. unfold small_int.
  assert (2 ^ n <= 2 ^ 2047) by (apply Z.pow_le_mono_r; lia).
  assert (2 ^ 2047 < 2 ^ 2048) by (apply Z.pow_lt_mono_r; lia). lia.
Qed.

Lemma int_range_bitsize signed n z : 1 <= n <= 300 -> int_range signed n z -> bitsize signed z <= n.
Proof.
  intros Hn H. pose proof (int_range_small _ _ _ Hn H).
  destruct signed; cbn in H; [apply bitsize_signed; lia || done|apply bitsize_unsigned; lia || done].
Qed.

(** The bytes of an integer that fits them. *)
Lemma int_bytes_ok signed k z : 1 <= k <= 33 -> int_range signed (8 * k) z ->
  exists r, int_bytes signed z k = reverse r /\ le_value r = z mod 2 ^ (8 * k) /\
    Forall (fun y => 0 <= y < 256) r /\ Z.of_nat (length r) = k.
Proof.
  intros Hk Hz. pose proof (int_range_small signed (8 * k) z ltac:(lia) Hz) as Hs.
  unfold int_bytes. eexists. split; [reflexivity|].
  replace (8 * k) with (8 * Z.of_nat (Z.to_nat k)) at 1 by lia. destruct signed; cbn in Hz.
  - destruct (to_signed_bytes_le_spec z Hs) as (Hv & Hl & Hlen). specialize (Hlen k ltac:(lia) Hz).
    destruct (sign_extend _ z (Z.to_nat k) Hl ltac:(lia) Hv) as (H1 & H2 & H3).
    rewrite H1, H3. split; [done|]. split; [done|lia].
  - destruct (to_bytes_le_spec z Hs ltac:(lia)) as (Hv & Hl & Hlen).
    specialize (Hlen k ltac:(lia) ltac:(rewrite pow_256; lia)).
    destruct (zero_extend _ z (Z.to_nat k) Hl ltac:(lia) Hv) as (H1 & H2 & H3).
    rewrite H1, H3. split; [done|]. split; [done|lia].
Qed.

(** Storing an integer appends its two's complement bits, most significant first, on both
    ways the code takes. *)
Lemma store_int_ok b x n signed : 1 <= n <= 257 -> has_capacity b n 0 = true -> int_range signed n x ->
  exists b', store_int b x n signed = Ok b' /\ appended b (to_bits (Z.to_nat n) x) [] b'.
Proof.
  intros Hn Hc Hx. unfold store_int, to_u64, to_range. pose proof (int_range_bounds signed n x ltac:(lia) Hx).
  destruct ((0 <=? x) && (x <=? U64_MAX)) eqn:Hu.
  { zify_bool. apply store_uint_spec; lia || done. }
  set (k := (n + 7) / 8). set (sh := 8 * k - n).
  assert (8 * k = n + sh /\ 0 <= sh < 8 /\ 1 <= k <= 33 /\ (n mod 8 = 0 -> sh = 0) /\
          (n mod 8 <> 0 -> sh = 8 - n mod 8)) as (Ek & Hsh & Hk & H0 & H1).
  { unfold sh, k. Z.to_euclidean_division_equations. lia. }
  assert ((if n mod 8 =? 0 then x else Z.shiftl x (8 - n mod 8)) = x * 2 ^ sh) as ->.
  { case_bool; [rewrite H0 by done; cbn; lia|]. rewrite H1 by done. by rewrite Z.shiftl_mul_pow2 by lia. }
  pose proof (int_range_shift signed n x sh ltac:(lia) ltac:(lia) Hx) as Hx'. rewrite <- Ek in Hx'.
  destruct (int_bytes_ok signed k _ Hk Hx') as (r & -> & Hv & Hr & Hl).
  destruct (store_raw_spec b (reverse r) n Hc) as (b' & E & A).
  { rewrite length_reverse, Hl. lia. }
  exists b'. split; [exact E|]. rewrite bytes_bits_reverse, Hv in A by done.
  replace (8 * k) with (Z.of_nat (8 * length r)) in A by lia.
  rewrite to_bits_mod in A by lia.
  replace (8 * length r)%nat with (Z.to_nat n + Z.to_nat sh)%nat in A by lia.
  rewrite take_to_bits, Z2Nat.id, Z.shiftr_div_pow2, Z.div_mul in A; [done|apply Z.pow_nonzero; lia|lia..].
Qed.

(** What loading [n] bits makes of them. *)
Lemma load_value signed n z : 1 <= n -> int_range signed n z ->
  (if signed then wrap_s n else wrap_u n) (bits_val (to_bits (Z.to_nat n) z)) = z.
Proof.
  intros Hn H. rewrite bits_val_to_bits, Z2Nat.id by lia. destruct signed; cbn in H.
  - rewrite <- (wrap_s_id n z) at 2 by lia. unfold wrap_s. by rewrite Zplus_mod_idemp_l.
  - unfold wrap_u. rewrite Z.mod_mod by (apply Z.pow_nonzero; lia). by apply Z.mod_small.
Qed.

(** ** Slices *)

Lemma slice_data_length cs : Z.of_nat (length (slice_data cs)) = slice_bits cs.
Proof.
  unfold slice_data. rewrite length_map, length_seq. pose proof (size_bits_nonneg (range cs)).
  unfold slice_bits. lia.
Qed.

(** What [skip_first] leaves of a slice, field by field. *)
Lemma load_int_value cs signed n z rest : 1 <= n -> int_range signed n z ->
  slice_data cs = to_bits (Z.to_nat n) z ++ rest ->
  exists r, load_bigint (range cs) (cell cs) n signed = Ok (z, r) /\
    slice_data (set_range r cs) = rest /\ slice_references (set_range r cs) = slice_references cs.
Proof.
  intros Hn Hz Hd. assert (0 <= n <= slice_bits cs) as Hb.
  { rewrite <- slice_data_length, Hd, length_app, to_bits_length. lia. }
  destruct (load_bigint_spec cs n signed Hb) as (r & E & Er).
  destruct (skip_first_spec cs n 0 Hb ltac:(lia)) as (s' & Es & Ed & Ef).
  unfold slice_skip_first, with_range in Es. rewrite Er in Es. injection Es as <-.
  exists r. split; [|split].
  - rewrite E, Hd, take_app_le, take_ge by (rewrite to_bits_length; lia). by rewrite load_value.
  - rewrite Ed, Hd. by rewrite drop_app_ge, to_bits_length, Nat.sub_diag, drop_0 by (rewrite to_bits_length; lia).
  - by rewrite Ef, drop_0.
Qed.

Lemma load_reference_value cs c rest : slice_references cs = c :: rest ->
  exists cs', slice_load_reference cs = Ok (c, cs') /\ cell cs' = cell cs /\
    slice_data cs' = slice_data cs /\ slice_references cs' = rest.
Proof.
  intros Hr. destruct (load_reference_spec cs c rest Hr) as (s' & E & Es & Ec).
  destruct (skip_first_spec cs 0 1) as (s'' & Es' & Ed & Ef).
  - rewrite <- slice_data_length. lia.
  - rewrite Hr. cbn. lia.
  - rewrite Es in Es'. injection Es' as <-. exists s'. rewrite Ed, Ef, Hr. done.
Qed.

(** ** Fields of a record *)

Inductive field := IntField (signed : bool) (n z : Z) | RefField (c : Cell).

Definition field_ok (f : field) : Prop :=
  match f with
  | IntField signed n z => 1 <= n <= 256 /\ int_range signed n z
  | RefField c => repr_depth c < 512
  end.
Definition field_value (f : field) : value :=
  match f with IntField _ _ z => VInt z | RefField c => VCell c end.
Definition field_bits (f : field) : list bool :=
  match f with IntField _ n z => to_bits (Z.to_nat n) z | RefField _ => [] end.
Definition field_refs (f : field) : list Cell :=
  match f with IntField _ _ _ => [] | RefField c => [c] end.

(** STI, STU and STREF; LDI, LDU and LDREF. *)
Definition store_field (f : field) : VM Z :=
  match f with IntField signed n _ => exec_store_int n signed | RefField _ => exec_store_ref false end.
Definition load_field (f : field) : VM Z :=
  match f with IntField signed n _ => exec_load_int_fixed n signed | RefField _ => exec_load_ref end.

Fixpoint run_all (ops : list (VM Z)) : VM Z :=
  match ops with [] => ret 0 | i :: ops => i ;; run_all ops end.

Lemma on_stack_ok {A} (m : SM A) s l a l' : stack s = of_view l -> m (of_view l) = (Ok a, of_view l') ->
  on_stack m s = (Ok a, set_stack (of_view l') s).
Proof. intros Hs Hm. unfold on_stack, zoom. by rewrite Hs, Hm. Qed.

Lemma pop_builder_ok b l : Stack.pop_builder (of_view (VBuilder b :: l)) = (Ok b, of_view l).
Proof. unfold Stack.pop_builder. by rewrite bind_pop_ok. Qed.
Lemma pop_cs_ok cs l : Stack.pop_cs (of_view (VSlice cs :: l)) = (Ok cs, of_view l).
Proof. unfold Stack.pop_cs. by rewrite bind_pop_ok. Qed.
Lemma pop_cell_ok c l : Stack.pop_cell (of_view (VCell c :: l)) = (Ok c, of_view l).
Proof. unfold Stack.pop_cell. by rewrite bind_pop_ok. Qed.

Lemma appended_capacity b data refs b' : appended b data refs b' -> forall n k, 0 <= n -> 0 <= k ->
  has_capacity b' n k = true <->
  Z.of_nat (length (builder_data b)) + Z.of_nat (length data) + n <= 1023 /\
  Z.of_nat (length (builder_refs b)) + Z.of_nat (length refs) + k <= 4.
Proof.
  intros (Hd & Hr & _) n k Hn Hk. rewrite has_capacity_spec by done. rewrite Hd, Hr, !length_app. lia.
Qed.

Lemma appended_refl b : appended b [] [] b.
Proof. split; [by rewrite app_nil_r|]. split; [by rewrite app_nil_r|done]. Qed.
Lemma appended_trans b d1 r1 b1 d2 r2 b2 : appended b d1 r1 b1 -> appended b1 d2 r2 b2 ->
  appended b (d1 ++ d2) (r1 ++ r2) b2.
Proof.
  intros (Hd & Hr & Hp) (Hd' & Hr' & Hp'). split; [by rewrite Hd', Hd, app_assoc|].
  split; [by rewrite Hr', Hr, app_assoc|auto].
Qed.

Definition bits_of_fields (fs : list field) : list bool := flat_map field_bits fs.
Definition refs_of_fields (fs : list field) : list Cell := flat_map field_refs fs.

(** A field fits if the builder has room for its bits and references. *)
Definition fits b (data : list bool) (refs : list Cell) : Prop :=
  Z.of_nat (length (builder_data b)) + Z.of_nat (length data) <= 1023 /\
  Z.of_nat (length (builder_refs b)) + Z.of_nat (length refs) <= 4.

Lemma fits_capacity b data refs : fits b data refs ->
  has_capacity b (Z.of_nat (length data)) (Z.of_nat (length refs)) = true.
Proof. intros [H1 H2]. by apply has_capacity_spec; [lia..|]. Qed.

Lemma fits_app b d1 r1 d2 r2 b1 : fits b (d1 ++ d2) (r1 ++ r2) -> appended b d1 r1 b1 ->
  fits b d1 r1 /\ fits b1 d2 r2.
Proof.
  intros [H1 H2] (Hd & Hr & _). unfold fits. rewrite Hd, Hr, !length_app in *. lia.
Qed.

Lemma finish_store_ok_ok b l : len l < Stack.MAX_DEPTH ->
  finish_store_ok b false (of_view l) = (Ok 0, of_view (VBuilder b :: l)).
Proof.
  intros H. unfold finish_store_ok, push_builder. by rewrite (bind_ok _ _ _ _ _ (push_raw_ok _ _ H)).
Qed.

Lemma store_field_ok f b l s : field_ok f -> fits b (field_bits f) (field_refs f) ->
  len l < Stack.MAX_DEPTH -> stack s = of_view (VBuilder b :: field_value f :: l) ->
  exists b', store_field f s = (Ok 0, set_stack (of_view (VBuilder b' :: l)) s) /\
    appended b (field_bits f) (field_refs f) b'.
Proof.
  intros Hf Hc Hl Hs. apply fits_capacity in Hc. destruct f as [signed n z|c]; cbn in Hf, Hs;
    cbn [field_bits field_refs length] in Hc; change (Z.of_nat 0) with 0 in Hc.
  - destruct Hf as [Hn Hz]. rewrite to_bits_length, Z2Nat.id in Hc by lia.
    destruct (store_int_ok b z n signed ltac:(lia) Hc Hz) as (b' & E & A).
    exists b'. split; [|done]. cbn [store_field]. unfold exec_store_int.
    eapply on_stack_ok; [exact Hs|]. unfold exec_store_int_common.
    assert (store_reversed (from_sign signed) = false /\ store_quiet (from_sign signed) = false /\
      store_signed (from_sign signed) = signed) as (-> & -> & ->) by (by destruct signed).
    erewrite (bind_ok _ _ _ (b, z) (of_view l)).
    2: { rewrite (bind_ok _ _ _ _ _ (pop_builder_ok _ _)). by rewrite (bind_ok _ _ _ _ _ (pop_int_ok _ _)). }
    rewrite Hc. cbn [negb]. pose proof (int_range_bitsize signed n z ltac:(lia) Hz).
    case_bool; [lia|]. rewrite E. by rewrite (bind_ok _ _ _ b' (of_view l)), finish_store_ok_ok.
  - destruct (store_reference_spec b c Hc) as (b' & E & A). exists b'. split; [|done].
    cbn [store_field]. unfold exec_store_ref. eapply on_stack_ok; [exact Hs|].
    rewrite (bind_ok _ _ _ _ _ (pop_builder_ok _ _)), (bind_ok _ _ _ _ _ (pop_cell_ok _ _)).
    unfold store_ref_or. change (Z.of_nat 1) with 1 in Hc. rewrite Hc, E. cbn [negb].
    by rewrite (bind_ok _ _ _ b' (of_view l)), finish_store_ok_ok.
Qed.

Lemma store_fields_ok fs b l s : Forall field_ok fs -> fits b (bits_of_fields fs) (refs_of_fields fs) ->
  len fs + len l < Stack.MAX_DEPTH -> stack s = of_view (VBuilder b :: map field_value fs ++ l) ->
  exists b', run_all (map store_field fs) s = (Ok 0, set_stack (of_view (VBuilder b' :: l)) s) /\
    appended b (bits_of_fields fs) (refs_of_fields fs) b'.
Proof.
  intros Hf. revert b s. induction Hf as [|f fs Hf Hfs IH]; intros b s Hc Hl Hs; cbn [map run_all].
  { exists b. split; [|apply appended_refl]. unfold ret. cbn in Hs. rewrite <- Hs. by destruct s. }
  cbn [map app length] in Hs, Hl. unfold bits_of_fields, refs_of_fields in *. cbn [flat_map] in *.
  destruct (store_field_ok f b (map field_value fs ++ l) s Hf) as (b1 & E1 & A1).
  - destruct Hc as [H1 H2]. rewrite !length_app in *. split; lia.
  - rewrite length_app, length_map. lia.
  - done.
  - destruct (fits_app _ _ _ _ _ _ Hc A1) as [_ Hc'].
    destruct (IH b1 (set_stack (of_view (VBuilder b1 :: map field_value fs ++ l)) s) Hc' ltac:(lia) eq_refl) as (b' & E2 & A2).
    exists b'. split; [|by eapply appended_trans].
    by rewrite (bind_ok _ _ _ _ _ E1), E2.
Qed.

(** ** Loading *)

Lemma finish_load_ok cs r l : len l < Stack.MAX_DEPTH ->
  finish_load cs r false false (of_view l) = (Ok 0, of_view (VSlice (set_range r cs) :: l)).
Proof.
  intros H. unfold finish_load, push_range. by rewrite (bind_ok _ _ _ _ _ (push_raw_ok _ _ H)).
Qed.

Lemma load_field_ok f cs data refs l s : field_ok f ->
  slice_data cs = field_bits f ++ data -> slice_references cs = field_refs f ++ refs ->
  len l + 1 < Stack.MAX_DEPTH -> stack s = of_view (VSlice cs :: l) ->
  exists cs', load_field f s = (Ok 0, set_stack (of_view (VSlice cs' :: field_value f :: l)) s) /\
    slice_data cs' = data /\ slice_references cs' = refs.
Proof.
  intros Hf Hd Hr Hl Hs. destruct f as [signed n z|c]; cbn in Hf, Hd, Hr.
  - destruct Hf as [Hn Hz]. destruct (load_int_value cs signed n z data ltac:(lia) Hz Hd) as (r & E & Ed & Er).
    exists (set_range r cs). rewrite Ed, Er. split; [|done]. cbn [load_field]. unfold exec_load_int_fixed.
    eapply on_stack_ok; [exact Hs|]. unfold exec_load_int_common.
    rewrite (bind_ok _ _ _ _ _ (pop_cs_ok _ _)).
    assert (load_prefetch (from_sign signed) = false /\ load_quiet (from_sign signed) = false /\
      load_signed (from_sign signed) = signed) as (-> & -> & ->) by (by destruct signed).
    assert (has_remaining (range cs) n 0 = true) as ->.
    { apply has_remaining_spec; [lia..|]. split; [|lia].
      rewrite <- slice_data_length, Hd, length_app, to_bits_length. lia. }
    cbn [negb]. rewrite E, (bind_ok _ _ _ (z, r) (of_view l)) by done. cbn beta iota.
    rewrite (bind_ok _ _ _ _ _ (push_raw_ok (VInt z) l ltac:(lia))).
    apply finish_load_ok. cbn [length]. lia.
  - destruct (load_reference_value cs c refs Hr) as (s' & E & Ec & Ed & Ef).
    exists s'. rewrite Ed, Ef. split; [|done]. cbn [load_field]. unfold exec_load_ref.
    eapply done_shuffles; [exact Hs|]. unfold shuffles.
    rewrite (bind_ok _ _ _ _ _ (pop_cs_ok _ _)).
    rewrite (bind_ok _ _ _ tt (of_view l)).
    2: { apply ensure_true. apply Z.ltb_lt. rewrite size_refs_spec, Hr. cbn [length]. lia. }
    rewrite E, (bind_ok _ _ _ (c, s') (of_view l)) by done. cbn beta iota.
    rewrite (bind_ok _ _ _ _ _ (push_raw_ok (VCell c) l ltac:(lia))). unfold push_range.
    rewrite push_raw_ok by (cbn [length]; lia). do 4 f_equal. destruct s'. cbn in *. by subst.
Qed.

Lemma load_fields_ok fs cs data refs l s : Forall field_ok fs ->
  slice_data cs = bits_of_fields fs ++ data -> slice_references cs = refs_of_fields fs ++ refs ->
  len fs + len l < Stack.MAX_DEPTH -> stack s = of_view (VSlice cs :: l) ->
  exists cs', run_all (map load_field fs) s =
      (Ok 0, set_stack (of_view (VSlice cs' :: reverse (map field_value fs) ++ l)) s) /\
    slice_data cs' = data /\ slice_references cs' = refs.
Proof.
  intros Hf. revert cs l s. induction Hf as [|f fs Hf Hfs IH]; intros cs l s Hd Hr Hl Hs; cbn [map run_all].
  { exists cs. split; [|done]. change (reverse [] ++ l) with l. rewrite <- Hs. by destruct s. }
  unfold bits_of_fields, refs_of_fields in *. cbn [flat_map length] in *. rewrite <- app_assoc in Hd, Hr.
  destruct (load_field_ok f cs _ _ l s Hf Hd Hr ltac:(lia) Hs) as (c1 & E1 & Ed & Er).
  destruct (IH c1 (field_value f :: l) (set_stack (of_view (VSlice c1 :: field_value f :: l)) s) Ed Er ltac:(cbn [length]; lia) eq_refl) as (c2 & E2 & Hc2).
  exists c2. split; [|done]. rewrite (bind_ok _ _ _ _ _ E1), E2. by rewrite reverse_cons, <- app_assoc.
Qed.

(** ** Building and opening a cell *)

Lemma build_ext_ok b c g : builder_build b = Ok c -> gas_wf g -> 500 <= Gas.gas_remaining g ->
  Gas.build_ext b g = (Ok c, charged 500 g).
Proof.
  intros Hb Hw Hg. unfold builder_build in Hb. unfold Gas.build_ext.
  destruct (builder_parts b) as [parts|]; [|done].
  rewrite (bind_ok _ _ _ parts g) by done. unfold Gas.finalize_cell, Gas.BUILD_CELL_GAS.
  rewrite (bind_ok _ _ _ _ _ (consume_charged 500 _ Hw ltac:(lia))). unfold of_result. by rewrite Hb.
Qed.

(** ENDC pays for the cell and builds it from what the builder holds. *)
Lemma end_cell_ok b c l s : builder_build b = Ok c -> gas_wf (gas s) -> 500 <= Gas.gas_remaining (gas s) ->
  len l < Stack.MAX_DEPTH -> stack s = of_view (VBuilder b :: l) ->
  exec_builder_to_cell s = (Ok 0, set_stack (of_view (VCell c :: l)) (set_gas (charged 500 (gas s)) s)).
Proof.
  intros Hb Hw Hg Hl Hs. unfold exec_builder_to_cell.
  rewrite (bind_ok _ _ _ _ _ (on_stack_ok _ _ _ _ _ Hs (pop_builder_ok b l))).
  pose proof (build_ext_ok b c (gas s) Hb Hw Hg) as E.
  rewrite (bind_ok _ _ _ c (set_gas (charged 500 (gas s)) (set_stack (of_view l) s))).
  2: { unfold on_gas, zoom, map_err. cbn [gas set_stack]. by rewrite E. }
  etransitivity; [eapply done_shuffles; [reflexivity|]; by apply push_raw_ok|reflexivity].
Qed.

(** CTOS pays for loading the cell and opens it. *)
Lemma cell_to_slice_ok c l s : cell_type c = Ordinary -> gas_wf (gas s) -> 200 <= Gas.gas_remaining (gas s) ->
  len l < Stack.MAX_DEPTH -> stack s = of_view (VCell c :: l) ->
  exec_cell_to_slice s =
    (Ok 0, set_stack (of_view (VSlice (new_allow_exotic c) :: l)) (set_gas (loaded_once c (gas s)) s)).
Proof.
  intros Hc Hw Hg Hl Hs. unfold exec_cell_to_slice.
  rewrite (bind_ok _ _ _ _ _ (on_stack_ok _ _ _ _ _ Hs (pop_cell_ok c l))).
  assert (Gas.load_cell_as_slice c LoadMode_Full (gas s) = (Ok (new_allow_exotic c), loaded_once c (gas s))) as E.
  { unfold Gas.load_cell_as_slice, Gas.load_cell_impl. pose proof (load_fee_range (Gas.loaded_cells (gas s)) c).
    rewrite (bind_ok _ _ _ c (loaded_once c (gas s))); [done|].
    rewrite load_turn_full by (done || lia). by rewrite Hc. }
  rewrite (bind_ok _ _ _ (new_allow_exotic c) (set_gas (loaded_once c (gas s)) (set_stack (of_view l) s))).
  2: { unfold on_gas, zoom, map_err. cbn [gas set_stack]. by rewrite E. }
  etransitivity; [eapply done_shuffles; [reflexivity|]; by apply push_raw_ok|reflexivity].
Qed.

Lemma shallow_refs fs : Forall field_ok fs -> Forall (fun c => repr_depth c < 512) (refs_of_fields fs).
Proof.
  induction 1 as [|f fs Hf Hfs IH]; [done|]. unfold refs_of_fields in *. cbn [flat_map].
  apply Forall_app. split; [|done]. destruct f; [done|]. by apply Forall_singleton.
Qed.

(** C15: records round trip through cells: NEWC, a store of each field (STI, STU, STREF), ENDC,
    CTOS, a load of each field (LDI, LDU, LDREF) and ENDS, for any list of at most 1023 bits
    and four references, leave the values of the fields and nothing else, for 500 gas and the
    loading of the cell. *)
Theorem record_round_trip (fs : list field) (l : list value) (s : VmState)
    (Hf : Forall field_ok fs)
    (Hb : Z.of_nat (length (bits_of_fields fs)) <= 1023)
    (Hr : Z.of_nat (length (refs_of_fields fs)) <= 4)
    (Hs : stack s = of_view (map field_value fs ++ l))
    (Hd : len fs + len l < Stack.MAX_DEPTH)
    (Hw : gas_wf (gas s)) (Hg : 700 <= Gas.gas_remaining (gas s)) :
  exists c, cell_type c = Ordinary /\
    (exec_new_builder ;; run_all (map store_field fs) ;; exec_builder_to_cell ;;
     exec_cell_to_slice ;; run_all (map load_field fs) ;; exec_slice_chk_empty) s =
      (Ok 0, set_stack (of_view (reverse (map field_value fs) ++ l))
               (set_gas (loaded_once c (charged 500 (gas s))) s)).
Proof.
  destruct builder_new_spec as (Hd0 & Hr0 & Hp0).
  destruct (store_fields_ok fs builder_new l (set_stack (of_view (VBuilder builder_new :: map field_value fs ++ l)) s))
    as (b & Es & (Bd & Br & Bp)); [done|by unfold fits; rewrite Hd0, Hr0|done|done|].
  rewrite Hd0 in Bd. rewrite Hr0 in Br. specialize (Bp Hp0).
  destruct (builder_build_shallow b Bp) as [c Ec]; [rewrite Br; by apply shallow_refs|].
  destruct (builder_build_spec b c Ec Bp) as (Ct & Cd & Cr). exists c. split; [done|].
  rewrite (bind_ok _ _ _ 0 (set_stack (of_view (VBuilder builder_new :: map field_value fs ++ l)) s)).
  2: { eapply done_shuffles; [exact Hs|]. apply push_raw_ok. rewrite length_app, length_map. lia. }
  rewrite (bind_ok _ _ _ _ _ Es).
  rewrite (bind_ok _ _ _ _ _ (end_cell_ok b c l (set_stack (of_view (VBuilder b :: l)) s) Ec Hw ltac:(cbn; lia) ltac:(lia) eq_refl)).
  pose proof (charged_wf 500 _ Hw ltac:(lia)) as Hw'.
  rewrite (bind_ok _ _ _ _ _ (cell_to_slice_ok c l
    (set_stack (of_view (VCell c :: l)) (set_gas (charged 500 (gas s)) s)) Ct Hw' ltac:(cbn; lia) ltac:(lia) eq_refl)).
  destruct (load_fields_ok fs (new_allow_exotic c) [] [] l
    (set_stack (of_view (VSlice (new_allow_exotic c) :: l)) (set_gas (loaded_once c (charged 500 (gas s))) s)))
    as (cs & El & Ed & Er); [done|by rewrite Cd, Bd, !app_nil_r|by rewrite Cr, Br, !app_nil_r|done|done|].
  rewrite (bind_ok _ _ _ _ _ El).
  etransitivity; [eapply done_shuffles; [reflexivity|]|reflexivity]. unfold shuffles.
  rewrite (bind_ok _ _ _ _ _ (pop_cs_ok _ _)). apply ensure_true.
  rewrite size_refs_spec, Er, <- slice_data_length, Ed. done.
Qed.

(** ** Storing an integer, every outcome *)





(** PLDUZ on a slice with enough bits pushes it back without the bits it read, although it
    is a preload. *)
Lemma preload_uint_advances x cs l s : 0 <= x <= 64 -> x <= slice_bits cs -> len l + 1 < Stack.MAX_DEPTH ->
  stack s = of_view (VSlice cs :: l) ->
  exists cs', exec_preload_uint_fixed_0e x s =
      (Ok 0, set_stack (of_view (VInt (bits_val (take (Z.to_nat x) (slice_data cs))) :: VSlice cs' :: l)) s) /\
    slice_data cs' = drop (Z.to_nat x) (slice_data cs).
Proof.
  intros Hx Hb Hl Hs. destruct (slice_load_uint_spec cs x ltac:(lia) ltac:(lia)) as (s' & E & Es).
  destruct (skip_first_spec cs x 0 ltac:(lia) ltac:(lia)) as (s'' & Es' & Ed & _).
  rewrite Es in Es'. injection Es' as <-. exists s'. split; [|done].
  eapply done_shuffles; [exact Hs|]. unfold shuffles. rewrite (bind_ok _ _ _ _ _ (pop_cs_ok _ _)).
  unfold preload_uint. rewrite Z.min_r by lia. rewrite E.
  replace ((0 <=? x) && (x <=? 64)) with true by (symmetry; apply andb_true_iff; lia).
  rewrite (bind_ok _ _ _ (Some (shl_or_zero (bits_val (take (Z.to_nat x) (slice_data cs))) (x - x)), range s') (of_view l)) by done.
  cbn beta iota. unfold push_range.
  rewrite (bind_ok _ _ _ _ _ (push_raw_ok _ l ltac:(lia))).
  assert (set_range (range s') cs = s') as ->.
  { unfold slice_skip_first, with_range in Es. destruct (skip_first (range cs) x 0); [|done]. by injection Es as <-. }
  assert (shl_or_zero (bits_val (take (Z.to_nat x) (slice_data cs))) (x - x) =
          bits_val (take (Z.to_nat x) (slice_data cs))) as ->.
  { rewrite Z.sub_diag. unfold shl_or_zero, wrap_u. cbn [Z.ltb]. change (0 <? 64) with true. cbn iota.
    rewrite Z.shiftl_0_r. apply Z.mod_small. pose proof (slice_data_length cs).
    destruct (bits_val_range (take (Z.to_nat x) (slice_data cs)) (Z.to_nat x)) as [H0 H1]; [rewrite length_take; lia|].
    rewrite Z2Nat.id in H1 by lia. split; [done|]. eapply Z.lt_le_trans; [exact H1|]. apply Z.pow_le_mono_r; lia. }
  apply push_raw_ok. cbn [length]. lia.
Qed.
End CellSpec.
