(* ===== verification/HashSpec.v ===== *)
(** * What HASHEXT hashes

    HASHEXT reads slices and builders of any length in bits and hands whole bytes to the
    digest: bits that do not fill a byte wait for the next entry.  The input of the digest
    is the concatenation of the bits of all entries, which must be whole bytes, and the
    gas is one unit for each entry and one for each unit of bytes. *)

From S2P Require Import Prelude External Cells Bits Values VmStack VmGas VmState GasLaws GasSpec.
From S2P Require Import ArithOps CellOps CellSpec RandOps CryptOps.

Import TreeCells TreeSlices.
Open Scope vm_scope.

(** ** Bits and bytes *)

Definition byte_ok (b : Z) : Prop := 0 <= b < 256.

Lemma bytes_bits_app a b : bytes_bits (a ++ b) = bytes_bits a ++ bytes_bits b.
Proof. apply flat_map_app. Qed.

Lemma take_bytes k l : take (8 * k) (bytes_bits l) = bytes_bits (take k l).
Proof.
  revert l. induction k as [|k IH]; intros [|b l]; try done.
  cbn [take]. unfold bytes_bits in *. cbn [flat_map]. rewrite take_app_ge by (rewrite to_bits_length; lia).
  rewrite to_bits_length. replace (8 * S k - 8)%nat with (8 * k)%nat by lia. by rewrite IH.
Qed.

Lemma drop_bytes k l : drop (8 * k) (bytes_bits l) = bytes_bits (drop k l).
Proof.
  revert l. induction k as [|k IH]; intros [|b l]; try done.
  cbn [drop]. unfold bytes_bits in *. cbn [flat_map]. rewrite drop_app_ge by (rewrite to_bits_length; lia).
  rewrite to_bits_length. replace (8 * S k - 8)%nat with (8 * k)%nat by lia. by rewrite IH.
Qed.

Lemma byte_of_bits x : length x = 8%nat -> bytes_bits [bits_val x] = x.
Proof. intros H. unfold bytes_bits. cbn [flat_map]. by rewrite app_nil_r, to_bits_val. Qed.

Lemma bits_val_byte x : length x = 8%nat -> byte_ok (bits_val x).
Proof. intros H. by apply (bits_val_range x 8) in H. Qed.

(** Bits that wait, in the high bits of a byte. *)
Definition waiting (l : list bool) : Z := bits_val (l ++ replicate (8 - length l) false).

Lemma waiting_val l : waiting l = Z.shiftl (bits_val l) (Z.of_nat (8 - length l)).
Proof.
  unfold waiting. rewrite bits_val_app, bits_val_zeros, length_replicate, Z.shiftl_mul_pow2 by lia. lia.
Qed.

Lemma bits_val_bound l : 0 <= bits_val l < 2 ^ Z.of_nat (length l).
Proof. by apply bits_val_range. Qed.

(** More bits after the ones that wait. *)
Lemma waiting_app l m : (length l + length m <= 8)%nat ->
  Z.lor (waiting l) (Z.shiftl (bits_val m) (8 - Z.of_nat (length l) - Z.of_nat (length m))) = waiting (l ++ m).
Proof.
  intros H. pose proof (bits_val_bound m) as Hm. rewrite !waiting_val, length_app.
  assert (0 <= Z.shiftl (bits_val m) (8 - Z.of_nat (length l) - Z.of_nat (length m)) < 2 ^ Z.of_nat (8 - length l)) as Hb.
  { rewrite Z.shiftl_mul_pow2 by lia.
    replace (Z.of_nat (8 - length l)) with (Z.of_nat (length m) + (8 - Z.of_nat (length l) - Z.of_nat (length m))) by lia.
    rewrite Z.pow_add_r by lia.
    assert (0 < 2 ^ (8 - Z.of_nat (length l) - Z.of_nat (length m))) by (apply Z.pow_pos_nonneg; lia). nia. }
  rewrite lor_shiftl by lia. rewrite bits_val_app, !Z.shiftl_mul_pow2 by lia.
  replace (Z.of_nat (8 - (length l + length m))) with (8 - Z.of_nat (length l) - Z.of_nat (length m)) by lia.
  replace (Z.of_nat (8 - length l)) with (Z.of_nat (length m) + (8 - Z.of_nat (length l) - Z.of_nat (length m))) by lia.
  rewrite Z.pow_add_r by lia. lia.
Qed.

(** ** One entry *)

Section Hash.
Context `{SL : SliceLib} `{CrL : CryptoLib} `{CLaws : !CellLaws} `{SLaws : !SliceLaws}.
Implicit Types (r : HashInputReader) (d : OwnedCellSlice) (left data : list bool).

(** The reader after [total] bits, with the bits [left] waiting. *)
Record reading r (total : Z) left : Prop := {
  rd_left : (length left < 8)%nat;
  rd_rem : rem_bits r = Z.of_nat (length left);
  rd_prev : prev_byte r = waiting left;
  rd_total : total_bits r = total
}.

Definition same_place r r' : Prop :=
  count r' = count r /\ rev_order r' = rev_order r /\ index r' = index r /\ gas_consumed r' = gas_consumed r.

Lemma load_uint_data d n : 0 <= n <= slice_bits d -> n <= 8 ->
  exists d', slice_load_uint d n = Ok (bits_val (take (Z.to_nat n) (slice_data d)), d') /\
    slice_data d' = drop (Z.to_nat n) (slice_data d).
Proof.
  intros Hn H8. destruct (slice_load_uint_spec d n Hn ltac:(lia)) as (d' & E & Es).
  destruct (skip_first_spec d n 0 Hn ltac:(lia)) as (d'' & Es' & Ed & _).
  rewrite Es in Es'. injection Es' as <-. eauto.
Qed.

(** The whole bytes of the rest of a slice, after a first byte. *)
Lemma load_rest_spec r total first d : Forall byte_ok first ->
  exists bytes r' left, load_rest r total first d = Ok (bytes, r') /\
    bytes_bits bytes ++ left = bytes_bits first ++ slice_data d /\ Forall byte_ok bytes /\
    (length bytes = length first + length (slice_data d) / 8)%nat /\
    reading r' total left /\ same_place r r'.
Proof.
  intros Hf. unfold load_rest. set (n := slice_bits d).
  pose proof (slice_data_length d) as HL. fold n in HL.
  destruct (slice_load_raw_spec d n) as (bytes & d' & -> & _ & Hbits & Hrange); [lia|].
  rewrite take_ge in Hbits by lia.
  set (k := Z.to_nat (n / 8)). set (left := drop (8 * k) (slice_data d)).
  assert (8 * Z.of_nat k <= Z.of_nat (length (slice_data d)) /\
    Z.of_nat (length (slice_data d)) = 8 * Z.of_nat k + n mod 8) as [Hk Hmod].
  { unfold k. rewrite HL. pose proof (Z.div_mod n 8 ltac:(lia)). pose proof (Z.mod_pos_bound n 8 ltac:(lia)).
    rewrite Z2Nat.id by (apply Z.div_pos; lia). lia. }
  pose proof (Z.mod_pos_bound n 8 ltac:(lia)) as Hm8.
  assert (length left = Z.to_nat (n mod 8)) as Hll by (unfold left; rewrite length_drop; lia).
  assert (8 * length bytes = length (slice_data d) + Z.to_nat (- n mod 8))%nat as Hlb.
  { apply (f_equal length) in Hbits. rewrite length_app, length_replicate, bytes_bits_length in Hbits. lia. }
  eexists _, _, left. split; [reflexivity|]. split; [|split; [|split; [|split]]].
  - rewrite bytes_bits_app, <- app_assoc. f_equal. rewrite <- take_bytes, Hbits.
    rewrite take_app_le by lia. apply take_drop.
  - apply Forall_app. split; [done|]. by apply Forall_take.
  - rewrite length_app, length_take. f_equal. rewrite Nat.min_l by lia.
    apply Nat2Z.inj. rewrite Nat2Z.inj_div, HL. unfold k. rewrite Z2Nat.id; [done|]. apply Z.div_pos; lia.
  - split; cbn [rem_bits prev_byte total_bits set_bits]; [lia| lia | | done]. destruct (Z.eqb_spec (n mod 8) 0) as [E0|E0].
    { assert (left = []) as -> by (apply length_zero_iff_nil; lia). done. }
    rewrite (Z.mod_opp_l_nz n 8) in Hlb by lia.
    assert (drop k bytes = [waiting left]) as Hdk.
    { assert (length (drop k bytes) = 1%nat) as H1 by (rewrite length_drop; lia).
      destruct (drop k bytes) as [|b [|? ?]] eqn:Eb; [done| |done].
      assert (byte_ok b) as Hb.
      { pose proof (Forall_drop _ k _ Hrange) as HF. rewrite Eb in HF. by inversion HF. }
      f_equal. pose proof (drop_bytes k bytes) as HD. rewrite Hbits, Eb, drop_app_le in HD by lia. fold left in HD.
      unfold waiting. replace (8 - length left)%nat with (Z.to_nat (8 - n mod 8)) by lia.
      rewrite (Z.mod_opp_l_nz n 8) in HD by lia. rewrite HD. unfold bytes_bits. cbn [flat_map]. rewrite app_nil_r.
      rewrite bits_val_to_bits. symmetry. apply Z.mod_small. exact Hb. }
    assert (bytes !! k = Some (waiting left)) as ->; [|done].
    rewrite <- (Nat.add_0_r k), <- lookup_drop, Hdk. done.
  - done.
Qed.

Lemma read_nothing r d data left : reading r (total_bits r) left -> (length left + length data < 8)%nat ->
  reading (set_bits (total_bits r + slice_bits d) (rem_bits r + Z.of_nat (length data)) (waiting (left ++ data)) r)
    (total_bits r + slice_bits d) (left ++ data).
Proof. intros [H1 H2 H3 H4] H. split; cbn; rewrite ?length_app; lia || done. Qed.

(** The bytes an entry completes, after the bits that wait. *)
Lemma load_bytes_spec r d left : reading r (total_bits r) left ->
  exists bytes r' left', load_bytes r d = Ok (bytes, r') /\
    bytes_bits bytes ++ left' = left ++ slice_data d /\ Forall byte_ok bytes /\
    reading r' (total_bits r + slice_bits d) left' /\ same_place r r'.
Proof.
  intros K. pose proof K as [Hl Hr Hp _]. pose proof (slice_data_length d) as HL.
  unfold load_bytes. rewrite Hr. destruct (Z.eqb_spec (Z.of_nat (length left)) 0) as [E0|E0]; cbn [negb].
  - assert (left = []) as -> by (apply length_zero_iff_nil; lia). cbn [app].
    destruct ((1 <=? slice_bits d) && (slice_bits d <? 8)) eqn:Hs.
    + assert (1 <= slice_bits d < 8) as H by (zify_bool; lia).
      destruct (load_uint_data d (slice_bits d)) as (d' & -> & _); [lia..|].
      rewrite take_ge by lia. eexists [], _, (slice_data d). split; [reflexivity|].
      split; [done|]. split; [done|]. split; [|done].
      replace (Z.shiftl _ _) with (waiting ([] ++ slice_data d)) by (rewrite waiting_val; cbn [app]; f_equal; lia).
      replace (slice_bits d) with (rem_bits r + Z.of_nat (length (slice_data d))) at 2 by (cbn in Hr; lia).
      apply read_nothing; [done|]. cbn. lia.
    + destruct (load_rest_spec r (total_bits r + slice_bits d) [] d) as (bytes & r' & left' & E & Eb & Hb & _ & H); [done|].
      exists bytes, r', left'. done.
  - destruct (Z.ltb_spec (slice_bits d) (8 - Z.of_nat (length left))) as [Hlt|Hge].
    + destruct (load_uint_data d (slice_bits d)) as (d' & -> & _); [lia..|].
      rewrite take_ge by lia. eexists [], _, (left ++ slice_data d). split; [reflexivity|].
      split; [done|]. split; [done|]. split; [|done].
      replace (Z.lor _ _) with (waiting (left ++ slice_data d)).
      2:{ rewrite Hp, <- waiting_app by lia. do 2 f_equal. lia. }
      replace (Z.of_nat (length left) + slice_bits d) with (rem_bits r + Z.of_nat (length (slice_data d))) by lia.
      apply read_nothing; [done|]. lia.
    + set (n := 8 - Z.of_nat (length left)) in *.
      destruct (load_uint_data d n) as (d' & -> & Ed); [lia..|].
      set (data := slice_data d) in *. set (x := left ++ take (Z.to_nat n) data).
      assert (length x = 8%nat) as Hx by (unfold x; rewrite length_app, length_take; lia).
      assert (Z.lor (prev_byte r) (bits_val (take (Z.to_nat n) data)) = bits_val x) as ->.
      { rewrite Hp. pose proof (waiting_app left (take (Z.to_nat n) data)) as HW.
        rewrite length_take, Nat.min_l in HW by lia. specialize (HW ltac:(lia)). fold x in HW.
        replace (8 - _ - _) with 0 in HW by lia. rewrite Z.shiftl_0_r in HW. rewrite HW.
        unfold waiting. rewrite Hx. cbn [Nat.sub replicate]. by rewrite app_nil_r. }
      destruct (load_rest_spec r (total_bits r + slice_bits d) [bits_val x] d') as (bytes & r' & left' & E & Eb & Hb & _ & H).
      { apply Forall_singleton. by apply bits_val_byte. }
      exists bytes, r', left'. split; [exact E|]. split; [|done].
      rewrite Eb, byte_of_bits, Ed by done. unfold x. by rewrite <- app_assoc, take_drop.
Qed.

(** ** The loop *)

(** The data of an entry: a slice or a builder. *)
Definition hash_entry (v : value) : option OwnedCellSlice :=
  match v with VSlice d => Some d | VBuilder b => Some (as_data_slice b) | _ => None end.

(** The entries in the order they are read; [vs] are the values, the top first. *)
Definition reading_order (rev_order : bool) (vs : list value) : list value :=
  if rev_order then vs else rev vs.

Lemma fetch_ok i l : 0 <= i < Z.of_nat (length l) ->
  Stack.fetch i (of_view l) = (Ok (default VNull (l !! Z.to_nat i)), of_view l).
Proof.
  intros Hi. unfold Stack.fetch. rewrite (bind_ok _ _ _ (Z.of_nat (length l)) (of_view l)).
  2:{ unfold gets. by rewrite depth_of_view. }
  rewrite (bind_ok _ _ _ tt (of_view l)) by (apply ensure_true, Z.ltb_lt; lia).
  unfold gets. by rewrite at_of_view.
Qed.

Lemma get_entry r vs l v (i : nat) : count r = Z.of_nat (length vs) ->
  (reading_order (rev_order r) vs) !! i = Some v -> index r = Z.of_nat i ->
  get_data_slice r (index r) (of_view (vs ++ l)) =
    match hash_entry v with Some d => Ok d | None => Err (InvalidType TySlice (ty v)) end.
Proof.
  intros Hc Hd ->. pose proof (lookup_lt_Some _ _ _ Hd) as Hi. unfold get_data_slice, reading_order in *.
  destruct (rev_order r).
  - rewrite fetch_ok by (rewrite length_app; lia). rewrite Nat2Z.id, lookup_app_l, Hd by done. by destruct v.
  - rewrite length_rev in Hi. rewrite fetch_ok by (rewrite length_app; lia).
    rewrite lookup_app_l by lia.
    assert (vs !! Z.to_nat (count r - 1 - Z.of_nat i) = Some v) as ->; [|by destruct v].
    rewrite rev_alt in Hd. change (reverse vs !! i = Some v) in Hd.
    rewrite reverse_lookup in Hd by done. rewrite <- Hd. f_equal. lia.
Qed.

(** The rest of the input when [n] entries are left. *)
Definition feed (bpg : Z) (n fuel : nat) r (input : list Z) : VM (list Z) :=
  let* (bytes, r) := load_next bpg n r in
  match bytes with
  | Some bytes => hash_input bpg fuel r (input ++ bytes)
  | None => ret input
  end.

(** The gas for [n] entries of [total] bits. *)
Definition hash_gas (bpg n total : Z) : Z := n * HASH_EXT_ENTRY_GAS_PRICE + total / 8 / bpg.

Lemma feed_entry bpg n fuel r input s d bytes r1 :
  get_data_slice r (index r) (stack s) = Ok d -> load_bytes r d = Ok (bytes, r1) -> same_place r r1 ->
  count r - index r = Z.of_nat (S n) -> (n < fuel)%nat ->
  exists fuel', (n <= fuel')%nat /\
  feed bpg (S n) fuel r input s =
    let g := hash_gas bpg (index r + 1) (total_bits r1) in
    (on_gas (Gas.try_consume (g - gas_consumed r)) ;; feed bpg n fuel' (next_index g r1) (input ++ bytes)) s.
Proof.
  intros Hd Hb (Hc & Ho & Hi & Hgc) Hn Hf. unfold feed. cbn [load_next]. unfold bind, gets, of_result, cell_ok.
  rewrite Hd. cbn. rewrite Hb, Hi, Hgc. fold (hash_gas bpg (index r + 1) (total_bits r1)).
  set (g := hash_gas _ _ _). destruct bytes as [|b bytes].
  - exists fuel. split; [lia|]. rewrite app_nil_r. by destruct (on_gas _ s) as [[[]|e] s1].
  - destruct fuel as [|fuel]; [lia|]. exists fuel. split; [lia|].
    destruct (on_gas _ s) as [[[]|e] s1]; [|done]. cbn [hash_input]. unfold ret at 1. cbn beta iota.
    replace (Z.to_nat (count (next_index g r1) - index (next_index g r1))) with n; [done|]. cbn. lia.
Qed.

Definition total_size (ds : list OwnedCellSlice) : Z := foldr (fun d n => slice_bits d + n) 0 ds.
Definition all_bits (ds : list OwnedCellSlice) : list bool := flat_map slice_data ds.

Lemma total_size_nonneg ds : 0 <= total_size ds.
Proof.
  induction ds as [|d ds IH]; cbn [total_size foldr]; [done|]. fold (total_size ds).
  pose proof (slice_data_length d). lia.
Qed.

Lemma hash_gas_mono bpg n n' t t' : 0 < bpg -> n <= n' -> 0 <= t <= t' -> hash_gas bpg n t <= hash_gas bpg n' t'.
Proof.
  intros Hb Hn Ht. unfold hash_gas, HASH_EXT_ENTRY_GAS_PRICE.
  assert (t / 8 / bpg <= t' / 8 / bpg) by (apply Z.div_le_mono; [done|]; apply Z.div_le_mono; lia). lia.
Qed.

(** What the loop makes of the rest of the entries. *)
Definition feeds (m : result VmError (list Z) * VmState) (input : list Z) (bits : list bool) (fee : Z) s : Prop :=
  (fee <= Gas.gas_remaining (gas s) -> Z.of_nat (length bits) mod 8 = 0 ->
   exists bytes, bytes_bits bytes = bits /\ Forall byte_ok bytes /\
     m = (Ok (input ++ bytes), set_gas (charged fee (gas s)) s)) /\
  (fee <= Gas.gas_remaining (gas s) -> Z.of_nat (length bits) mod 8 <> 0 ->
   m = (Err (CellError CellUnderflow), set_gas (charged fee (gas s)) s)) /\
  (Gas.gas_remaining (gas s) < fee -> exists s', m = (Err (CellError Cancelled), s')).

Lemma charge_vm n s : gas_wf (gas s) -> 0 <= n <= I64_MAX ->
  if n <=? Gas.gas_remaining (gas s)
  then on_gas (Gas.try_consume n) s = (Ok tt, set_gas (charged n (gas s)) s)
  else exists s', on_gas (Gas.try_consume n) s = (Err (CellError Cancelled), s').
Proof.
  intros W Hn. unfold on_gas, zoom, map_err. case_bool.
  - by rewrite (consume_charged n _ W) by lia.
  - destruct (try_consume_err n (gas s) W) as (g & -> & _); [lia| |by eexists].
    rewrite truncate_gas_id; lia.
Qed.

Lemma feed_ends bpg fuel r input s left : reading r (total_bits r) left -> 0 <= Gas.gas_remaining (gas s) ->
  feeds (feed bpg 0 fuel r input s) input left 0 s.
Proof.
  intros [Hl Hr _ _] Hg. assert (set_gas (charged 0 (gas s)) s = s) as E by (rewrite charged_0; by destruct s).
  unfold feeds, feed. rewrite E. cbn [load_next]. rewrite Hr.
  assert (Z.of_nat (length left) mod 8 = Z.of_nat (length left)) as -> by (apply Z.mod_small; lia).
  split; [|split; [|lia]].
  - intros _ H0. assert (left = []) as -> by (apply length_zero_iff_nil; lia).
    exists []. rewrite app_nil_r. done.
  - intros _ H0. unfold bind. rewrite ensure_false by (by apply Z.eqb_neq). done.
Qed.

(** A charge before the rest. *)
Lemma feeds_charge (m : VM (list Z)) input bytes bits bits' fee fee' s :
  gas_wf (gas s) -> 0 <= fee <= I64_MAX -> 0 <= fee' ->
  bytes_bits bytes ++ bits = bits' -> Forall byte_ok bytes -> length (bytes_bits bytes) = (8 * length bytes)%nat ->
  (fee <= Gas.gas_remaining (gas s) ->
    feeds (m (set_gas (charged fee (gas s)) s)) (input ++ bytes) bits fee' (set_gas (charged fee (gas s)) s)) ->
  feeds ((on_gas (Gas.try_consume fee) ;; m) s) input bits' (fee + fee') s.
Proof.
  intros W Hf Hf' Eb Hby Hlen H. pose proof (charge_vm fee s W Hf) as HC.
  destruct (Z.leb_spec fee (Gas.gas_remaining (gas s))) as [Hle|Hlt].
  - rewrite (bind_ok _ _ _ _ _ HC). destruct (H Hle) as (H1 & H2 & H3).
    assert (Z.of_nat (length bits') mod 8 = Z.of_nat (length bits) mod 8) as Em.
    { rewrite <- Eb, length_app, Hlen. replace (Z.of_nat (8 * length bytes + length bits))
        with (Z.of_nat (length bits) + Z.of_nat (length bytes) * 8) by lia. by apply Z.mod_add. }
    assert (set_gas (charged fee' (charged fee (gas s))) (set_gas (charged fee (gas s)) s) =
      set_gas (charged (fee + fee') (gas s)) s) as Es by (by rewrite charged_add).
    unfold feeds. rewrite Em. cbn [gas set_gas] in *. rewrite Es in *.
    assert (Gas.gas_remaining (charged fee (gas s)) = Gas.gas_remaining (gas s) - fee) as Er by done.
    rewrite Er in *. split; [|split].
    + intros Ha Hb. destruct (H1 ltac:(lia) Hb) as (bs & Ebs & Hbs & ->). exists (bytes ++ bs).
      rewrite bytes_bits_app, Ebs, app_assoc. split; [done|]. split; [by apply Forall_app|done].
    + intros Ha Hb. apply H2; [lia | done].
    + intros Ha. apply H3. lia.
  - destruct HC as [s' E]. rewrite (bind_err _ _ _ _ _ E).
    split; [intros; lia|]. split; [intros; lia|]. intros _. eauto.
Qed.

Lemma feed_all bpg vs l ds : 0 < bpg -> forall n fuel r input s left,
  reading r (total_bits r) left -> count r = Z.of_nat (length vs) ->
  index r = Z.of_nat n -> (n <= length vs)%nat -> mapM hash_entry (drop n (reading_order (rev_order r) vs)) = Some ds ->
  (length ds <= fuel)%nat -> 0 <= total_bits r -> gas_consumed r = hash_gas bpg (index r) (total_bits r) ->
  hash_gas bpg (count r) (total_bits r + total_size ds) <= I64_MAX ->
  gas_wf (gas s) -> 0 <= Gas.gas_remaining (gas s) -> stack s = of_view (vs ++ l) ->
  feeds (feed bpg (length ds) fuel r input s) input (left ++ all_bits ds)
    (hash_gas bpg (count r) (total_bits r + total_size ds) - gas_consumed r) s.
Proof.
  intros Hbpg. induction ds as [|d ds IH]; intros n fuel r input s left K Hc Hi Hn Hds Hf Ht Hgc Hmax W Hg Hs.
  all: assert (length (reading_order (rev_order r) vs) = length vs) as HLr
    by (unfold reading_order; destruct (rev_order r); [done | apply length_rev]).
  - assert (count r = index r) as E.
    { apply length_mapM in Hds. rewrite length_drop, HLr in Hds. cbn in Hds. cut (n <= length vs)%nat; [lia|done]. }
    rewrite Hgc, E. cbn [total_size foldr length all_bits flat_map]. rewrite Z.add_0_r, Z.sub_diag, app_nil_r.
    by apply feed_ends.
  - destruct (drop n (reading_order (rev_order r) vs)) as [|v rest] eqn:Ed; [done|].
    assert (hash_entry v = Some d /\ mapM hash_entry rest = Some ds) as [Hv Hrest].
    { cbn in Hds. destruct (hash_entry v); [|done]. cbn in Hds. destruct (mapM hash_entry rest); [|done].
      cbn in Hds. by injection Hds as -> ->. }
    assert (reading_order (rev_order r) vs !! n = Some v) as Hl.
    { rewrite <- (Nat.add_0_r n), <- lookup_drop, Ed. done. }
    pose proof (lookup_lt_Some _ _ _ Hl) as Hlt. rewrite HLr in Hlt.
    pose proof (get_entry r vs l v n Hc Hl Hi) as Hget. rewrite Hv, <- Hs in Hget.
    destruct (load_bytes_spec r d left K) as (bytes & r1 & left1 & Eb & Ebits & Hby & K1 & Hsame).
    pose proof Hsame as (Hc1 & Ho1 & Hi1 & Hg1). pose proof (rd_total _ _ _ K1) as Ht1.
    pose proof (slice_data_length d) as Hd0. pose proof (total_size_nonneg ds) as Hts.
    cbn [length total_size foldr] in *. fold (total_size ds) in *.
    destruct (feed_entry bpg (length ds) fuel r input s d bytes r1 Hget Eb Hsame) as (fuel' & Hf' & ->).
    { apply length_mapM in Hrest. assert (length (drop n (reading_order (rev_order r) vs)) = S (length ds)) as HD
        by (rewrite Ed; cbn; lia). rewrite length_drop, HLr in HD. lia. }
    { lia. }
    cbn zeta. set (g := hash_gas bpg (index r + 1) (total_bits r1)).
    assert (gas_consumed r <= g /\ g <= hash_gas bpg (count r) (total_bits r + (slice_bits d + total_size ds))) as [Hg1' Hg2].
    { rewrite Hgc. unfold g. rewrite Ht1. split; apply hash_gas_mono; lia. }
    assert (0 <= gas_consumed r) as Hgc0.
    { rewrite Hgc. apply (hash_gas_mono bpg 0 (index r) 0 (total_bits r)); lia. }
    replace (hash_gas _ (count r) _ - gas_consumed r) with
      ((g - gas_consumed r) + (hash_gas bpg (count r) (total_bits r1 + total_size ds) - g))
      by (rewrite Ht1, Z.add_assoc; lia).
    apply (feeds_charge _ input bytes (left1 ++ all_bits ds)); [done|lia| | |done|apply bytes_bits_length|].
    { rewrite Ht1, <- Z.add_assoc. lia. }
    { cbn [all_bits flat_map]. by rewrite app_assoc, Ebits, <- app_assoc. }
    intros Hpay. rewrite <- Hc1. apply (IH (S n) fuel' (next_index g r1)); cbn; try done; try lia.
    + destruct K1 as [? ? ? ?]. by split.
    + rewrite Ho1. rewrite <- Hrest. f_equal. rewrite <- Nat.add_1_r, <- drop_drop, Ed. done.
    + rewrite Hi1. done.
    + rewrite Hc1, Ht1, <- Z.add_assoc. done.
    + apply charged_wf; [done|]. lia.
Qed.

(** ** The instruction *)

Context `{CrLaws : !CryptoLaws}.

(** A digest of 32 bytes as an integer, a longer one as two. *)
Definition hash_value (h : list Z) : value :=
  if Z.of_nat (length h) <=? 32 then VInt (from_bytes_be h)
  else VTuple [VInt (from_bytes_be (take 32 h)); VInt (from_bytes_be (drop 32 h))].

(** Where the digest goes: on top of the stack, or to the end of a builder on top of it. *)
Definition hash_room (append : bool) (l : list value) : Prop :=
  if append then match l with VBuilder b :: _ => has_capacity b 512 0 = true | _ => False end
  else Z.of_nat (length l) < Stack.MAX_DEPTH.
Definition hashed (append : bool) (h : list Z) (l l' : list value) : Prop :=
  if append then
    exists b b' rest, l = VBuilder b :: rest /\ l' = VBuilder b' :: rest /\ appended b (bytes_bits h) [] b'
  else l' = hash_value h :: l.

Lemma chunks_64 h : length h = 64%nat -> chunks (length h) h = [take 32 h; drop 32 h].
Proof.
  intros H. rewrite H. destruct h as [|b h]; [done|]. set (t := b :: h) in *.
  change (chunks 64 t) with (take 32 t :: chunks 63 (drop 32 t)). f_equal.
  assert (length (drop 32 t) = 32%nat) as H2 by (rewrite length_drop; lia).
  destruct (drop 32 t) as [|x u] eqn:E; [done|]. set (v := x :: u) in *.
  change (chunks 63 v) with (take 32 v :: chunks 62 (drop 32 v)).
  rewrite take_ge, drop_ge by lia. done.
Qed.

Lemma push_digest p h l : length h = 32%nat \/ length h = 64%nat -> hash_room p l ->
  Z.of_nat (length l) < Stack.MAX_DEPTH ->
  exists l', hashed p h l l' /\
    (if p then
      let* cb := Stack.pop_builder in
      let* cb := cell_ok (store_raw cb h (8 * Z.of_nat (length h))) in
      push_builder cb
    else if Z.of_nat (length h) <=? 32 then Stack.push_int (from_bytes_be h)
    else Stack.push_raw (VTuple (map (fun c => VInt (from_bytes_be c)) (chunks (length h) h)))) (of_view l)
    = (Ok tt, of_view l').
Proof.
  intros Hh Hr Hl. destruct p; cbn [hash_room hashed] in *.
  - destruct l as [|[] l]; try done. destruct (store_raw_spec b h (8 * Z.of_nat (length h))) as (b' & E & A).
    { apply has_capacity_spec in Hr; [|lia..]. apply has_capacity_spec; lia. }
    { lia. }
    exists (VBuilder b' :: l). split.
    + exists b, b', l. split; [done|]. split; [done|].
      rewrite take_ge in A; [done|]. rewrite bytes_bits_length. lia.
    + rewrite (bind_ok _ _ _ _ _ (pop_builder_ok b l)). unfold cell_ok. rewrite E.
      rewrite (bind_ok _ _ _ b' (of_view l)) by done. unfold push_builder. apply push_raw_ok. cbn in Hl. lia.
  - exists (hash_value h :: l). split; [done|]. unfold hash_value. case_bool; [by apply push_raw_ok|].
    destruct Hh as [Hh|Hh]; [lia|]. rewrite chunks_64 by done. by apply push_raw_ok.
Qed.

Lemma digest_length i bpg digest : hash_function i = Some (bpg, digest) ->
  0 < bpg /\ i <> 255 /\ forall bytes, length (digest bytes) = 32%nat \/ length (digest bytes) = 64%nat.
Proof.
  unfold hash_function. destruct i as [|[p|[p|p|]|]|]; try discriminate; intros [= <- <-];
    (split; [lia|]; split; [lia|]; intros bytes).
  - left. apply sha256_length.
  - right. apply blake2b512_length.
  - right. apply sha512_length.
Qed.

(** The operands of the instruction, and what is left to do. *)
Lemma hash_ext_input p rev_order i bpg digest vs l s : hash_function i = Some (bpg, digest) -> i <> 255 ->
  is_ton (version s) 4 = true -> stack s = of_view (VInt (Z.of_nat (length vs)) :: vs ++ l) ->
  Z.of_nat (length (vs ++ l)) < Stack.MAX_DEPTH ->
  exec_hash_ext p rev_order i s =
    bind (let* input := feed bpg (length vs) (length vs) (mkReader (Z.of_nat (length vs)) rev_order 0 0 0 0 0) [] in
          ret (digest input)) (fun hash : list Z =>
      on_stack (Stack.pop_many (Z.of_nat (length vs))) ;;
      done_ (on_stack (
        if p then
          let* cb := Stack.pop_builder in
          let* cb := cell_ok (store_raw cb hash (8 * Z.of_nat (length hash))) in
          push_builder cb
        else if Z.of_nat (length hash) <=? 32 then Stack.push_int (from_bytes_be hash)
        else Stack.push_raw (VTuple (map (fun c => VInt (from_bytes_be c)) (chunks (length hash) hash))))))
    (set_stack (of_view (vs ++ l)) s).
Proof.
  intros Hi H255 Hv Hs Hd. unfold exec_hash_ext, require_ton.
  rewrite (bind_ok _ _ s tt s).
  2:{ rewrite (bind_ok _ _ s (version s) s) by done. by apply ensure_true. }
  destruct (Z.eqb_spec i 255) as [|_]; [done|].
  rewrite (bind_ok _ _ s i (set_stack (of_view (VInt (Z.of_nat (length vs)) :: vs ++ l)) s))
    by (by apply (on_stack_ok _ _ _ _ _ Hs)).
  set (s0 := set_stack _ s).
  rewrite (bind_ok _ _ s0 (1 + Z.of_nat (length (vs ++ l))) s0).
  2:{ unfold gets, s0. cbn [stack set_stack]. rewrite depth_of_view. cbn [length]. do 2 f_equal. lia. }
  rewrite (bind_ok _ _ s0 (Z.of_nat (length vs)) (set_stack (of_view (vs ++ l)) s)).
  2:{ apply (on_stack_ok _ s0 (VInt (Z.of_nat (length vs)) :: vs ++ l)); [done|].
      apply pop_smallint_range_ok; [lia..|]. rewrite length_app in *. unfold Stack.MAX_DEPTH in Hd. unfold_widths. lia. }
  unfold compute_hash_ext. rewrite Hi. rewrite Nat2Z.id. cbn [hash_input count index].
  by rewrite Z.sub_0_r, Nat2Z.id.
Qed.

(** C24: HASHEXT hashes the concatenation of its entries: slices and builders of any length in
    bits, in the order of the stack or the reverse one.  For each digest (SHA256, SHA512,
    BLAKE2B), when the bits are whole bytes, the digest of these bytes replaces the
    entries, or goes to the builder below them, for one unit of gas per entry and one per
    33, 16 or 19 bytes; when they are not, the instruction has paid and fails with a cell
    underflow; and without the gas it runs out of gas. *)
Theorem hash_ext_hashes_concatenation (p rev_order : bool) (i bpg : Z) (digest : list Z -> list Z)
    (vs l : list value) (ds : list OwnedCellSlice) (s : VmState)
    (Hi : hash_function i = Some (bpg, digest))
    (Hv : is_ton (version s) 4 = true)
    (Hs : stack s = of_view (VInt (Z.of_nat (length vs)) :: vs ++ l))
    (Hd : Z.of_nat (length (vs ++ l)) < Stack.MAX_DEPTH)
    (Hds : mapM hash_entry (reading_order rev_order vs) = Some ds)
    (Hroom : hash_room p l)
    (Hw : gas_wf (gas s)) (Hg : 0 <= Gas.gas_remaining (gas s))
    (Hmax : hash_gas bpg (Z.of_nat (length vs)) (total_size ds) <= I64_MAX) :
  let fee := hash_gas bpg (Z.of_nat (length vs)) (total_size ds) in
  (fee <= Gas.gas_remaining (gas s) -> Z.of_nat (length (all_bits ds)) mod 8 = 0 ->
   exists bytes l', bytes_bits bytes = all_bits ds /\ Forall byte_ok bytes /\ hashed p (digest bytes) l l' /\
     exec_hash_ext p rev_order i s = (Ok 0, set_stack (of_view l') (set_gas (charged fee (gas s)) s))) /\
  (fee <= Gas.gas_remaining (gas s) -> Z.of_nat (length (all_bits ds)) mod 8 <> 0 ->
   exec_hash_ext p rev_order i s =
     (Err (CellError CellUnderflow), set_stack (of_view (vs ++ l)) (set_gas (charged fee (gas s)) s))) /\
  (Gas.gas_remaining (gas s) < fee ->
   exists s', exec_hash_ext p rev_order i s = (Err (CellError Cancelled), s')).
Proof.
  destruct (digest_length i bpg digest Hi) as (Hbpg & H255 & Hdig). cbn zeta.
  set (s1 := set_stack (of_view (vs ++ l)) s).
  set (r := mkReader (Z.of_nat (length vs)) rev_order 0 0 0 0 0).
  assert (length (reading_order rev_order vs) = length vs) as HLr
    by (unfold reading_order; destruct rev_order; [done | apply length_rev]).
  pose proof (length_mapM _ _ _ Hds) as HL. rewrite HLr in HL.
  rewrite (hash_ext_input p rev_order i bpg digest vs l s Hi H255 Hv Hs Hd).
  pose proof (feed_all bpg vs l ds Hbpg 0 (length vs) r [] s1 []) as HF. cbn [app] in HF.
  specialize (HF ltac:(split; cbn; lia || done) eq_refl eq_refl ltac:(lia)). rewrite drop_0 in HF.
  specialize (HF Hds ltac:(lia) ltac:(cbn; lia) eq_refl). cbn [count total_bits gas_consumed r] in HF.
  rewrite Z.add_0_l, Z.sub_0_r in HF. specialize (HF Hmax Hw Hg eq_refl). rewrite <- HL in HF.
  destruct HF as (H1 & H2 & H3). cbn [gas s1 set_stack] in *. split; [|split].
  - intros Hpay Ha. destruct (H1 Hpay Ha) as (bytes & Eb & Hby & E). cbn [app] in E.
    destruct (push_digest p (digest bytes) l (Hdig bytes) Hroom) as (l' & Hh & Ep).
    { rewrite length_app in Hd. lia. }
    exists bytes, l'. split; [done|]. split; [done|]. split; [done|].
    fold s1 r. rewrite (bind_ok _ _ s1 (digest bytes) (set_gas (charged (hash_gas bpg (Z.of_nat (length vs)) (total_size ds)) (gas s)) s1)).
    2:{ by rewrite (bind_ok _ _ _ _ _ E). }
    set (s2 := set_gas _ s1).
    assert (on_stack (Stack.pop_many (Z.of_nat (length vs))) s2 = (Ok tt, set_stack (of_view l) s2)) as Epop.
    { apply (on_stack_ok _ _ (vs ++ l)); [done|]. rewrite pop_many_ok by (rewrite length_app; lia).
      rewrite drop_app_ge, Nat2Z.id, Nat.sub_diag by lia. done. }
    rewrite (bind_ok _ _ _ _ _ Epop). unfold done_.
    by rewrite (bind_ok _ _ _ _ _ (on_stack_ok _ (set_stack (of_view l) s2) _ _ _ eq_refl Ep)).
  - intros Hpay Ha. fold s1 r. rewrite (bind_err _ _ _ _ _ (bind_err _ _ _ _ _ (H2 Hpay Ha))). done.
  - intros Hlt. destruct (H3 Hlt) as [s' E]. exists s'. fold s1 r.
    by rewrite (bind_err _ _ _ _ _ (bind_err _ _ _ _ _ E)).
Qed.
End Hash.
