(* ===== verification/Serial.v ===== *)
(** * Stack values and continuations in cells (stack.rs, cont.rs)

    The [Store] and [Load] implementations: every value, stack, control data and
    continuation as bits and references of a builder, and back.  Storing is a program over
    the [CellContext] it is given, because nested values are cells of their own; loading is
    a parser over a slice.  Loading recurses on cells that come from outside, so the parser
    has fuel, and runs out of it with the error [None]. *)

From S2P Require Import Prelude External Cells Values VmStack VmGas VmRegs Dicts.

Open Scope vm_scope.

Class SerialLib `{SL : SliceLib} := {
  (** [CellSliceRange::offset_bits]. *)
  offset_bits : CellSliceRange -> Z;
  (** [Dict::<Uint4, V>::set_ext]: the new root; a value is stored into the builder of its
      leaf.  [Dict::iter]: the keys and values in order, up to the first error. *)
  dict_set_ext : option Cell -> Z -> (CellBuilder -> CellProg CellBuilder) -> CellProg (option Cell);
  dict_iter : option Cell -> list (result Error (Z * OwnedCellSlice))
}.

Module Serial.
Section Programs.
Context `{SL : SliceLib}.

Fixpoint prog_bind {A B} (p : CellProg A) (k : A -> CellProg B) : CellProg B :=
  match p with
  | ProgDone (Ok a) => k a
  | ProgDone (Err e) => ProgDone (Err e)
  | ProgLoad c mode q => ProgLoad c mode (fun c => prog_bind (q c) k)
  | ProgMake parts q => ProgMake parts (fun c => prog_bind (q c) k)
  end.

(** [CellBuilder::build_ext(context)]. *)
Definition prog_build (b : CellBuilder) : CellProg Cell :=
  match builder_parts b with
  | Ok parts => ProgMake parts (fun c => ProgDone (Ok c))
  | Err e => ProgDone (Err e)
  end.

(** A program run in the empty context, which loads a cell as it is. *)
Fixpoint in_empty_context {A} (p : CellProg A) : result Error A :=
  match p with
  | ProgDone r => r
  | ProgLoad c _ k => in_empty_context (k c)
  | ProgMake parts k =>
      match finalize_cell parts with
      | Ok c => in_empty_context (k c)
      | Err e => Err e
      end
  end.
End Programs.

Notation "'let!' x := m 'in' k" := (prog_bind m (fun x => k))
  (at level 10, x pattern, m at level 100, k at level 200).

(** [TAG] of each implementor of [Cont], and [RepeatCont::MAX_COUNT]. *)
Definition QUIT_TAG : Z := 8.
Definition EXC_QUIT_TAG : Z := 9.
Definition PUSH_INT_TAG : Z := 15.
Definition REPEAT_TAG : Z := 10.
Definition AGAIN_TAG : Z := 49.
Definition UNTIL_TAG : Z := 48.
Definition WHILE_TAG : Z := 25.
Definition ARG_EXT_TAG : Z := 1.
Definition ORD_TAG : Z := 0.
Definition REPEAT_MAX_COUNT : Z := 0x8000000000000000.

(** What stores itself into a builder, [&dyn Store]. *)
Definition Storer `{SL : SliceLib} : Type := CellBuilder -> CellProg CellBuilder.

(** ** Storing *)

Section Store.
Context `{SL : SliceLib} `{SeL : !SerialLib}.
Implicit Types (b : CellBuilder).

(** A method of the builder that cannot make cells. *)
Definition put (r : result Error CellBuilder) : CellProg CellBuilder := ProgDone r.

(** [CellBuilder::build_from_ext(value, context)]. *)
Definition build_from_ext (st : Storer) : CellProg Cell :=
  let! b := st builder_new in prog_build b.

Definition store_slice_as_stack_value (slice : OwnedCellSlice) : Storer := fun b =>
  let! b := put (store_reference b (cell slice)) in
  let r := range slice in
  let value := Z.lor (Z.lor (Z.lor
      (Z.shiftl (offset_bits r) 16)
      (Z.shiftl (offset_bits r + size_bits r) 6))
      (Z.shiftl (offset_refs r) 3))
      (offset_refs r + size_refs r) in
  put (store_uint b value 26).

(** [store_as_stack_value] of [()], [NaN], [BigInt], [Cell], [OwnedCellSlice] and
    [CellBuilder]. *)
Definition store_null : Storer := fun b => put (store_zeros b 8).
Definition store_nan : Storer := fun b => put (store_uint b 0x02ff 16).
Definition store_int (z : Z) : Storer := fun b =>
  if bitsize true z <=? 64 then
    let! b := put (store_uint b 0x01 8) in
    put (store_bigint b z 64 true)
  else
    let! b := put (store_uint b (Z.shiftr 0x0200 1) 15) in
    put (store_bigint b z 257 true).
Definition store_cell (c : Cell) : Storer := fun b =>
  let! b := put (store_uint b 0x03 8) in
  put (store_reference b c).
Definition store_slice_value (s : OwnedCellSlice) : Storer := fun b =>
  let! b := put (store_uint b 0x04 8) in
  store_slice_as_stack_value s b.
Definition store_builder_value (x : CellBuilder) : Storer := fun b =>
  let! b := put (store_uint b 0x05 8) in
  let! c := prog_build (set_exotic false x) in
  put (store_reference b c).

Section Recursive.
(** [store_as_stack_value] of any value and [store_into] of any continuation. *)
Context (sv : value -> Storer) (sc : cont -> Storer).

Definition store_cont_value (c : cont) : Storer := fun b =>
  let! b := put (store_uint b 0x06 8) in
  sc c b.

(** The loop over a tuple: after an item, [tail] is its cell and [head] the cell of all
    items before it. *)
Fixpoint store_items (items : Tuple) (head tail : option Cell)
    : CellProg (option Cell * option Cell) :=
  match items with
  | [] => ProgDone (Ok (head, tail))
  | item :: items =>
      let (head, tail) := (tail, head) in
      let! head :=
        match tail, head with
        | Some t, Some h =>
            let! c := build_from_ext (fun b =>
              let! b := put (store_reference b t) in put (store_reference b h)) in
            ProgDone (Ok (Some c))
        | _, _ => ProgDone (Ok head)
        end in
      let! c := build_from_ext (sv item) in
      store_items items head (Some c)
  end.

Definition store_opt_reference (c : option Cell) : Storer := fun b =>
  match c with Some c => put (store_reference b c) | None => put (Ok b) end.

Definition store_tuple (t : Tuple) : Storer := fun b =>
  if U16_MAX <? Z.of_nat (length t) then ProgDone (Err IntOverflow)
  else
    let! (head, tail) := store_items t None None in
    let! b := put (store_uint b 0x07 8) in
    let! b := put (store_uint b (Z.of_nat (length t)) 16) in
    let! b := store_opt_reference head b in
    store_opt_reference tail b.

(** The loop of [Stack::store_into]: each item but the one on top in a cell that refers to
    the items below it. *)
Fixpoint store_stack_items (items : list value) (rest : Cell) (b : CellBuilder)
    : CellProg CellBuilder :=
  match items with
  | [] => ProgDone (Ok b)
  | [last] =>
      let! b := put (store_reference b rest) in
      sv last b
  | item :: items =>
      let! rest := build_from_ext (fun b =>
        let! b := put (store_reference b rest) in sv item b) in
      store_stack_items items rest b
  end.

Definition store_stack (items : list value) : Storer := fun b =>
  if Stack.MAX_DEPTH <? Stack.depth items then ProgDone (Err IntOverflow)
  else
    let! b := put (store_uint b (Stack.depth items) 24) in
    store_stack_items items empty_cell b.

(** One register of the dictionary of [ControlRegs::store_into]. *)
Definition store_reg {A} (i : Z) (reg : option A) (st : A -> Storer) (dict : option Cell)
    : CellProg (option Cell) :=
  match reg with
  | Some x => dict_set_ext dict i (st x)
  | None => ProgDone (Ok dict)
  end.

Definition store_control_regs (r : ControlRegs) : Storer := fun b =>
  let! dict := store_reg 0 (c0 r) store_cont_value None in
  let! dict := store_reg 1 (c1 r) store_cont_value dict in
  let! dict := store_reg 2 (c2 r) store_cont_value dict in
  let! dict := store_reg 3 (c3 r) store_cont_value dict in
  let! dict := store_reg (0 + Regs.DATA_REG_OFFSET) (d0 r) store_cell dict in
  let! dict := store_reg (1 + Regs.DATA_REG_OFFSET) (d1 r) store_cell dict in
  let! dict := store_reg 7 (c7 r) store_tuple dict in
  put (store_opt_cell b dict).

(** [Option::<T>::store_into]: a bit and the value. *)
Definition store_opt {A} (st : A -> Storer) (o : option A) : Storer := fun b =>
  match o with
  | None => put (store_zeros b 1)
  | Some x => let! b := put (store_uint b 1 1) in st x b
  end.

(** [ControlData::store_into]. *)
Definition store_nargs (nargs : option N) : Storer := fun b =>
  match nargs with
  | None => put (store_zeros b 1)
  | Some n =>
      if Z.of_N n <=? 0x1fff then
        let! b := put (store_uint b 1 1) in
        put (store_uint b (Z.of_N n) 13)
      else ProgDone (Err IntOverflow)
  end.
Definition store_control_data (data : ControlData) : Storer := fun b =>
  let! b := store_nargs (nargs data) b in
  let! b := store_opt store_stack (cd_stack data) b in
  let! b := store_control_regs (save data) b in
  store_opt (fun cp b => put (store_uint b cp 16)) (cd_cp data) b.

(** A continuation in a cell of its own, referred to. *)
Definition store_cont_ref (c : cont) : Storer := fun b =>
  let! c := build_from_ext (sc c) in
  put (store_reference b c).

(** [Store] of the implementors of [Cont]. *)
Definition store_quit (exit_code : Z) : Storer := fun b =>
  let! b := put (store_uint b QUIT_TAG 4) in
  put (store_uint b (wrap_u 32 exit_code) 32).
Definition store_exc_quit : Storer := fun b => put (store_uint b EXC_QUIT_TAG 4).
Definition store_push_int (v : Z) (next : cont) : Storer := fun b =>
  let! b := put (store_uint b PUSH_INT_TAG 4) in
  let! b := put (store_uint b (wrap_u 32 v) 32) in
  store_cont_ref next b.
Definition store_repeat (count : Z) (body after : cont) : Storer := fun b =>
  if REPEAT_MAX_COUNT <=? count then ProgDone (Err IntOverflow)
  else
    let! b := put (store_uint b REPEAT_TAG 4) in
    let! b := put (store_uint b count 64) in
    let! b := store_cont_ref body b in
    store_cont_ref after b.
Definition store_again (body : cont) : Storer := fun b =>
  let! b := put (store_uint b AGAIN_TAG 6) in
  store_cont_ref body b.
Definition store_until (body after : cont) : Storer := fun b =>
  let! b := put (store_uint b UNTIL_TAG 6) in
  let! b := store_cont_ref body b in
  store_cont_ref after b.
Definition store_while (check_cond : bool) (cond body after : cont) : Storer := fun b =>
  let tag := Z.lor (Z.shiftl WHILE_TAG 1) (if negb check_cond then 1 else 0) in
  let! b := put (store_uint b tag 6) in
  let! b := store_cont_ref cond b in
  let! b := store_cont_ref body b in
  store_cont_ref after b.
Definition store_arg_ext (data : ControlData) (ext : cont) : Storer := fun b =>
  let! b := put (store_uint b ARG_EXT_TAG 2) in
  sc ext b.
Definition store_ord (data : ControlData) (code : OwnedCellSlice) : Storer := fun b =>
  let! b := put (store_zeros b 2) in
  let! b := store_control_data data b in
  store_slice_as_stack_value code b.
End Recursive.

Fixpoint store_as_stack_value (v : value) (b : CellBuilder) : CellProg CellBuilder :=
  match v with
  | VNull => store_null b
  | VNaN => store_nan b
  | VInt z => store_int z b
  | VCell c => store_cell c b
  | VSlice s => store_slice_value s b
  | VBuilder x => store_builder_value x b
  | VCont c => store_cont_value store_cont c b
  | VTuple t => store_tuple store_as_stack_value t b
  end
with store_cont (c : cont) (b : CellBuilder) : CellProg CellBuilder :=
  match c with
  | QuitCont exit_code => store_quit exit_code b
  | ExcQuitCont => store_exc_quit b
  | PushIntCont v next => store_push_int store_cont v next b
  | RepeatCont count body after => store_repeat store_cont count body after b
  | AgainCont body => store_again store_cont body b
  | UntilCont body after => store_until store_cont body after b
  | WhileCont check_cond cond body after => store_while store_cont check_cond cond body after b
  | ArgContExt data ext => store_arg_ext store_cont data ext b
  | OrdCont data code => store_ord store_as_stack_value store_cont data code b
  end.
End Store.

(** ** Loading *)

Section Load.
Context `{SL : SliceLib} `{SeL : !SerialLib}.

(** A parser advances the slice; [Some e] is an error of the code, [None] the end of the
    fuel. *)
Definition Parser (A : Type) : Type := MS OwnedCellSlice (option Error) A.

Definition parse {A} (f : OwnedCellSlice -> result Error (A * OwnedCellSlice)) : Parser A := fun s =>
  match f s with Ok (a, s') => (Ok a, s') | Err e => (Err (Some e), s) end.
Definition fail_with {A} (e : Error) : Parser A := raise (Some e).

(** [load_uint(n)] (and [load_bit], [load_u8], .., of a fixed width), [get_uint(0, n)],
    [skip_first(n, 0)], [load_bigint(257, true)], [load_reference], [Option::<Cell>]. *)
Definition p_uint (n : Z) : Parser Z := parse (fun s => slice_load_uint s n).
Definition p_bit : Parser bool := let* v := p_uint 1 in ret (v =? 1).
Definition p_peek (n : Z) : Parser Z :=
  parse (fun s => let? v := get_uint (range s) (cell s) 0 n in Ok (v, s)).
Definition p_skip (n : Z) : Parser unit :=
  parse (fun s => let? s := slice_skip_first s n 0 in Ok (tt, s)).
Definition p_bigint (n : Z) : Parser Z :=
  parse (fun s => let? (z, r) := load_bigint (range s) (cell s) n true in Ok (z, set_range r s)).
Definition p_reference : Parser Cell := parse slice_load_reference.
Definition p_opt_cell : Parser (option Cell) := parse load_opt_cell.

(** [ensure_empty_slice]. *)
Definition ensure_empty_slice : Parser unit :=
  let* empty := gets slice_is_empty in ensure empty (Some InvalidData).

(** The parser [p] on another slice, of which the rest is dropped. *)
Definition parse_slice {A} (p : Parser A) (s : OwnedCellSlice) : Parser A := fun s0 => ((p s).1, s0).
(** [p] on the slice of a cell. *)
Definition parse_cell {A} (p : Parser A) (c : Cell) : Parser A :=
  let* s := of_result (match as_slice c with Ok s => Ok s | Err e => Err (Some e) end) in
  parse_slice p s.

Definition range_or (r : CellSliceRange) (x : result Error CellSliceRange) : CellSliceRange :=
  match x with Ok r => r | Err _ => r end.

Definition load_slice_as_stack_value : Parser OwnedCellSlice :=
  let* cell := p_reference in
  let* range := p_uint 26 in
  let bits_start := Z.land (wrap_u 16 (Z.shiftr range 16)) 0x3ff in
  let bits_end := Z.land (wrap_u 16 (Z.shiftr range 6)) 0x3ff in
  let refs_start := Z.land (wrap_u 8 (Z.shiftr range 3)) 7 in
  let refs_end := Z.land (wrap_u 8 range) 7 in
  ensure (negb ((bits_end <? bits_start) || (refs_end <? refs_start) || (4 <? refs_end)))
    (Some InvalidData) ;;
  ensure (negb ((bit_len cell <? bits_end) || (Z.of_nat (length (references cell)) <? refs_end)))
    (Some InvalidData) ;;
  let r := range_full cell in
  let r := range_or r (skip_first r bits_start refs_start) in
  let r := range_or r (only_first r (bits_end - bits_start) (refs_end - refs_start)) in
  ret (mkSlice r cell).

Section Recursive.
(** [Stack::load_stack_value] and [load_cont]. *)
Context (lv : Parser value) (lc : Parser cont).

(** [load_stack_value_from_cell]. *)
Definition load_from_cell (c : Cell) : Parser value :=
  parse_cell (let* v := lv in ensure_empty_slice ;; ret v) c.

(** The loop over the cells of a tuple that hold two references, [n] of them; the items
    are pushed, the last first. *)
Fixpoint load_items (n : nat) (head : Cell) (tuple : Tuple) : Parser (Cell * Tuple) :=
  match n with
  | O => ret (head, tuple)
  | S n =>
      let* (head, tail) :=
        parse_cell (
          let* head := p_reference in
          let* tail := p_reference in
          ensure_empty_slice ;; ret (head, tail)) head in
      let* v := load_from_cell tail in
      load_items n head (tuple ++ [v])
  end.

Definition load_tuple : Parser Tuple :=
  let* len := p_uint 16 in
  match len with
  | 0 => ret []
  | 1 =>
      let* c := p_reference in
      let* v := load_from_cell c in
      ret [v]
  | _ =>
      let* head := p_reference in
      let* tail := p_reference in
      let* v := load_from_cell tail in
      let* (head, tuple) := load_items (Z.to_nat (len - 2)) head [v] in
      let* v := load_from_cell head in
      ret (reverse (tuple ++ [v]))
  end.

(** [load_stack_value] by the tag. *)
Definition load_value_of (ty : Z) : Parser value :=
  match ty with
  | 0 => ret VNull
  | 1 => let* value := p_uint 64 in ret (VInt (wrap_s 64 value))
  | 2 =>
      let* t := p_peek 8 in
      if t =? 0xff then p_skip 8 ;; ret VNaN
      else if t / 2 =? 0 then
        p_skip 7 ;;
        let* z := p_bigint 257 in
        ret (VInt z)
      else fail_with InvalidData
  | 3 => let* c := p_reference in ret (VCell c)
  | 4 => let* s := load_slice_as_stack_value in ret (VSlice s)
  | 5 =>
      let* c := p_reference in
      let* b := of_result (match store_slice builder_new (new_allow_exotic c) with
                           | Ok b => Ok b | Err e => Err (Some e) end) in
      ret (VBuilder b)
  | 6 => let* c := lc in ret (VCont c)
  | 7 => let* t := load_tuple in ret (VTuple t)
  | _ => fail_with InvalidTag
  end.
Definition load_value_turn : Parser value := let* ty := p_uint 8 in load_value_of ty.

(** [Stack::load_from]: the items from the top. *)
Fixpoint load_stack_items (n : nat) (rest : Cell) (items : list value)
    : Parser (Cell * list value) :=
  match n with
  | O => ret (rest, items)
  | S n =>
      let* (rest, v) :=
        parse_cell (
          let* rest := p_reference in
          let* v := lv in
          ensure_empty_slice ;; ret (rest, v)) rest in
      load_stack_items n rest (items ++ [v])
  end.

Definition load_stack : Parser (list value) :=
  let* depth := p_uint 24 in
  if depth =? 0 then ret []
  else
    let* rest := p_reference in
    let* v := lv in
    if 1 <? depth then
      let* (rest, items) := load_stack_items (Z.to_nat (depth - 1)) rest [v] in
      parse_cell ensure_empty_slice rest ;;
      ret (reverse items)
    else ret [v].

(** [ControlRegs::load_from]: the loop over the entries of the dictionary. *)
Fixpoint load_regs (entries : list (result Error (Z * OwnedCellSlice))) (r : ControlRegs)
    : Parser ControlRegs :=
  match entries with
  | [] => ret r
  | Err e :: _ => fail_with e
  | Ok (key, s) :: entries =>
      let* v := parse_slice (let* v := lv in ensure_empty_slice ;; ret v) s in
      match Regs.set key v r with
      | (Ok _, r) => load_regs entries r
      | (Err _, _) => fail_with InvalidData
      end
  end.

Definition load_control_regs : Parser ControlRegs :=
  let* dict := p_opt_cell in
  load_regs (dict_iter dict) regs_default.

(** [Option::<T>::load_from]. *)
Definition load_opt {A} (p : Parser A) : Parser (option A) :=
  let* some := p_bit in
  if some : bool then let* x := p in ret (Some x) else ret None.

(** [ControlData::load_from]. *)
Definition load_control_data : Parser ControlData :=
  let* nargs := load_opt (let* n := p_uint 13 in ret (Z.to_N n)) in
  let* stack := load_opt load_stack in
  let* save := load_control_regs in
  let* cp := load_opt (p_uint 16) in
  ret (mkData nargs stack save cp).

(** [Load] of the implementors of [Cont], each after its tag. *)
Definition p_tag (bits tag : Z) : Parser unit :=
  let* t := p_uint bits in ensure (t =? tag) (Some InvalidTag).

Definition load_quit : Parser cont :=
  p_tag 4 QUIT_TAG ;;
  let* exit_code := p_uint 32 in
  ret (QuitCont (wrap_s 32 exit_code)).
Definition load_exc_quit : Parser cont := p_tag 4 EXC_QUIT_TAG ;; ret ExcQuitCont.
Definition load_push_int : Parser cont :=
  p_tag 4 PUSH_INT_TAG ;;
  let* v := p_uint 32 in
  let* next := lc in
  ret (PushIntCont (wrap_s 32 v) next).
Definition load_repeat : Parser cont :=
  p_tag 4 REPEAT_TAG ;;
  let* count := p_uint 64 in
  let* body := lc in
  let* after := lc in
  ret (RepeatCont count body after).
Definition load_again : Parser cont :=
  p_tag 6 AGAIN_TAG ;;
  let* body := lc in
  ret (AgainCont body).
Definition load_until : Parser cont :=
  p_tag 6 UNTIL_TAG ;;
  let* body := lc in
  let* after := lc in
  ret (UntilCont body after).
Definition load_while : Parser cont :=
  p_tag 5 WHILE_TAG ;;
  let* check_cond := p_bit in
  let* cond := lc in
  let* body := lc in
  let* after := lc in
  ret (WhileCont check_cond cond body after).
Definition load_arg_ext : Parser cont :=
  p_tag 2 ARG_EXT_TAG ;;
  let* data := load_control_data in
  let* ext := lc in
  ret (ArgContExt data ext).
Definition load_ord : Parser cont :=
  p_tag 2 ORD_TAG ;;
  let* data := load_control_data in
  let* code := load_slice_as_stack_value in
  ret (OrdCont data code).

(** [u64::count_ones]. *)
Definition count_ones (n : Z) : Z :=
  foldr (fun i k => (if Z.testbit n (Z.of_nat i) then 1 else 0) + k) 0 (seq 0 64).
Definition TAG_MASK : Z := 0x1007011100010001.

(** The kind of the continuation by its first six bits. *)
Definition cont_kind (n : Z) : Z :=
  count_ones (Z.land TAG_MASK (wrap_u 64 (wrap_u 64 (Z.shiftl 2 n) - 1))) - 1.

Definition load_kind (kind : Z) : Parser cont :=
  match kind with
  | 0 => load_ord
  | 1 => load_arg_ext
  | 2 => load_quit
  | 3 => load_exc_quit
  | 4 => load_repeat
  | 5 => load_until
  | 6 => load_again
  | 7 => load_while
  | 8 => load_push_int
  | _ => fail_with InvalidTag
  end.

(** [load_cont]: the next six bits, padded with zeros. *)
Definition load_cont_turn : Parser cont :=
  let* slice_bits := gets slice_bits in
  let* n := (if slice_bits <? 6 then let* n := p_peek slice_bits in ret (Z.shiftl n (6 - slice_bits))
             else p_peek 6) in
  load_kind (cont_kind n).
End Recursive.

(** The fuel bounds the nesting of values and continuations. *)
Fixpoint load_stack_value (fuel : nat) : Parser value :=
  match fuel with
  | O => raise None
  | S fuel => load_value_turn (load_stack_value fuel) (load_cont fuel)
  end
with load_cont (fuel : nat) : Parser cont :=
  match fuel with
  | O => raise None
  | S fuel => load_cont_turn (load_stack_value fuel) (load_cont fuel)
  end.

(** [Stack::load_stack_value_from_cell]. *)
Definition load_stack_value_from_cell (fuel : nat) (c : Cell) : result (option Error) value :=
  (load_from_cell (load_stack_value fuel) c slice_default).1.
End Load.
End Serial.
