(* ===== verification/SerialSpec.v ===== *)
(** * What storing and loading a value does

    The documented behaviour of the builder and the dictionary that the serialization of
    stack values relies on, and the calculus of its round trips: [writes] says what a
    storer appends, [reads] what a parser makes of it, [trips] that the parser gets back
    what the storer was given. *)

From S2P Require Import Prelude External Cells Bits Values VmStack VmGas VmRegs Dicts.
From S2P Require Import CellSpec Serial.

Import TreeCells TreeSlices Serial.
Open Scope vm_scope.

Section Laws.
Context `{SeL : SerialLib}.

(** The part of a cell that [skip_first] and [only_first] cut out. *)
Definition part_of_cell (s : OwnedCellSlice) : Prop :=
  exists a n i k r, 0 <= a /\ 0 <= n /\ 0 <= i /\ 0 <= k /\
    a + n <= bit_len (cell s) /\ i + k <= Z.of_nat (length (references (cell s))) /\
    skip_first (range_full (cell s)) a i = Ok r /\ only_first r n k = Ok (range s).

Definition run_to (p : CellProg CellBuilder) (b' : CellBuilder) : Prop := in_empty_context p = Ok b'.

(** A storer that appends [data] and [refs] to any builder it succeeds on. *)
Definition writes (st : Storer) (data : list bool) (refs : list Cell) : Prop :=
  forall b b', run_to (st b) b' -> appended b data refs b'.

(** The entries of a dictionary: keys, bits and references. *)
Definition entry_holds (x : result Error (Z * OwnedCellSlice)) (e : Z * (list bool * list Cell)) : Prop :=
  exists s, x = Ok (e.1, s) /\ slice_data s = e.2.1 /\ slice_references s = e.2.2.
Definition dict_holds (root : option Cell) (l : list (Z * (list bool * list Cell))) : Prop :=
  Forall2 entry_holds (dict_iter root) l.

Definition option_list {A} (o : option A) : list A := match o with Some a => [a] | None => [] end.

Class SerialLaws : Prop := {
  store_uint_appends : forall b v n b', 0 <= n -> 0 <= v < 2 ^ n -> store_uint b v n = Ok b' ->
    appended b (to_bits (Z.to_nat n) v) [] b';
  store_zeros_appends : forall b n b', 0 <= n -> store_zeros b n = Ok b' ->
    appended b (replicate (Z.to_nat n) false) [] b';
  store_bigint_appends : forall b z n b', small_int z -> 1 <= n -> store_bigint b z n true = Ok b' ->
    - 2 ^ (n - 1) <= z < 2 ^ (n - 1) /\ appended b (to_bits (Z.to_nat n) z) [] b';
  store_reference_appends : forall b c b', store_reference b c = Ok b' -> appended b [] [c] b';
  store_slice_appends : forall b s b', store_slice b s = Ok b' ->
    appended b (slice_data s) (slice_references s) b';
  store_opt_cell_appends : forall b c b', store_opt_cell b c = Ok b' ->
    appended b [bool_decide (is_Some c)] (option_list c) b';
  (** A builder is determined by what it holds. *)
  builder_ext : forall b b', plain b -> plain b' -> builder_data b = builder_data b' ->
    builder_refs b = builder_refs b' -> b = b';
  plain_set_exotic : forall b, plain (set_exotic false b);

  get_uint_spec : forall s n, 0 <= n <= slice_bits s -> n <= 64 ->
    get_uint (range s) (cell s) 0 n = Ok (bits_val (take (Z.to_nat n) (slice_data s)));
  slice_load_uint_short : forall s n, slice_bits s < n -> n <= 64 -> slice_load_uint s n = Err CellUnderflow;
  load_opt_cell_spec : forall s b data refs, slice_data s = b :: data ->
    (forall c, b = true -> head (slice_references s) = Some c -> refs = tail (slice_references s) ->
      exists s', load_opt_cell s = Ok (Some c, s') /\ slice_data s' = data /\ slice_references s' = refs) /\
    (b = false -> refs = slice_references s ->
      exists s', load_opt_cell s = Ok (None, s') /\ slice_data s' = data /\ slice_references s' = refs);
  as_slice_ordinary : forall c, cell_type c = Ordinary -> as_slice c = Ok (new_allow_exotic c);
  empty_cell_spec : cell_type empty_cell = Ordinary /\ slice_data (new_allow_exotic empty_cell) = [] /\
    slice_references (new_allow_exotic empty_cell) = [];

  (** Ranges: the offsets and the sizes of what was cut out, and a cell of 1023 bits. *)
  bit_len_max : forall c, bit_len c <= 1023;
  part_of_cell_range : forall c a n i k r r', 0 <= a -> 0 <= n -> 0 <= i -> 0 <= k ->
    a + n <= bit_len c -> i + k <= Z.of_nat (length (references c)) ->
    skip_first (range_full c) a i = Ok r -> only_first r n k = Ok r' ->
    offset_bits r' = a /\ size_bits r' = n /\ offset_refs r' = i /\ size_refs r' = k;

  (** A key above those in the dictionary comes last. *)
  dict_iter_empty : dict_iter None = [];
  dict_set_ext_spec : forall root l k st data refs root', dict_holds root l -> 0 <= k < 16 ->
    Forall (fun e => e.1 < k) l -> writes st data refs ->
    in_empty_context (dict_set_ext root k st) = Ok root' ->
    dict_holds root' (l ++ [(k, (data, refs))])
}.
End Laws.

(** ** Round trips *)

Section Trips.
Context `{SeL : SerialLib} `{CLaws : !CellLaws} `{SLaws : !SliceLaws} `{SeLaws : !SerialLaws}.
Implicit Types (s : OwnedCellSlice) (d : list bool) (r : list Cell) (b : CellBuilder).

Lemma empty_bind {A B} (p : CellProg A) (k : A -> CellProg B) :
  in_empty_context (let! x := p in k x) =
  match in_empty_context p with Ok a => in_empty_context (k a) | Err e => Err e end.
Proof.
  induction p as [[a|e]|c mode q IH|parts q IH]; cbn; [done|done|apply IH|].
  destruct (finalize_cell parts); [apply IH | done].
Qed.

Lemma empty_build b : in_empty_context (prog_build b) = builder_build b.
Proof.
  unfold prog_build, builder_build. destruct (builder_parts b); [|done]. cbn. by destruct (finalize_cell _).
Qed.

Definition holds s d r : Prop := slice_data s = d /\ slice_references s = r.

(** A parser that gets [a] from the bits [d] and the references [r], whatever follows. *)
Definition reads {A} (p : Parser A) (a : A) d r : Prop :=
  forall s d' r', holds s (d ++ d') (r ++ r') -> exists s', p s = (Ok a, s') /\ holds s' d' r'.
(** The same when nothing follows. *)
Definition reads_all {A} (p : Parser A) (a : A) d r : Prop :=
  forall s, holds s d r -> exists s', p s = (Ok a, s').

Definition never (st : Storer) : Prop := forall b b', ~ run_to (st b) b'.
(** The parser [p] gets [a] back from what [st] stores, if it stores anything. *)
Definition trips {A} (st : Storer) (p : Parser A) (a : A) : Prop :=
  never st \/ exists d r, writes st d r /\ reads p a d r.

(** *** Parsers *)

Lemma reads_bind {A B} (p : Parser A) (k : A -> Parser B) a c d1 r1 d2 r2 :
  reads p a d1 r1 -> reads (k a) c d2 r2 -> reads (bind p k) c (d1 ++ d2) (r1 ++ r2).
Proof.
  intros Hp Hk s d' r' Hs. rewrite <- !app_assoc in Hs. destruct (Hp s _ _ Hs) as (s1 & E1 & H1).
  destruct (Hk s1 _ _ H1) as (s2 & E2 & H2). exists s2. split; [|done]. by rewrite (bind_ok _ _ _ _ _ E1).
Qed.

Lemma reads_all_bind {A B} (p : Parser A) (k : A -> Parser B) a c d1 r1 d2 r2 :
  reads p a d1 r1 -> reads_all (k a) c d2 r2 -> reads_all (bind p k) c (d1 ++ d2) (r1 ++ r2).
Proof.
  intros Hp Hk s Hs. destruct (Hp s _ _ Hs) as (s1 & E1 & H1).
  destruct (Hk s1 H1) as (s2 & E2). exists s2. by rewrite (bind_ok _ _ _ _ _ E1).
Qed.

Lemma reads_ret {A} (a : A) : reads (ret a) a [] [].
Proof. intros s d r Hs. by exists s. Qed.

Lemma reads_ext {A} (p q : Parser A) a d r : (forall s, p s = q s) -> reads p a d r -> reads q a d r.
Proof. intros E H s d' r' Hs. rewrite <- E. by apply H. Qed.

Lemma reads_all_of {A} (p : Parser A) a d r : reads p a d r -> reads_all p a d r.
Proof.
  intros H s [Hd Hr]. destruct (H s [] []) as (s' & E & _); [split; by rewrite app_nil_r | by exists s'].
Qed.

Lemma skip_holds s d1 d r : holds s (d1 ++ d) r ->
  exists s', slice_skip_first s (Z.of_nat (length d1)) 0 = Ok s' /\ holds s' d r.
Proof.
  intros [Hd Hr]. pose proof (slice_data_length s) as HL. rewrite Hd, length_app in HL.
  destruct (skip_first_spec s (Z.of_nat (length d1)) 0) as (s' & E & Ed & Er); [lia..|].
  exists s'. split; [done|]. split; [|by rewrite Er].
  rewrite Ed, Hd, Nat2Z.id, drop_app_ge, Nat.sub_diag by lia. done.
Qed.

Lemma bits_prefix s d1 d : slice_data s = d1 ++ d -> 0 <= Z.of_nat (length d1) <= slice_bits s.
Proof. intros E. pose proof (slice_data_length s) as HL. rewrite E, length_app in HL. lia. Qed.

Lemma reads_uint d1 n : n = Z.of_nat (length d1) -> n <= 64 -> reads (p_uint n) (bits_val d1) d1 [].
Proof.
  intros -> H64 s d' r' [Hd Hr]. pose proof (bits_prefix _ _ _ Hd) as Hb.
  destruct (slice_load_uint_spec s (Z.of_nat (length d1)) Hb H64) as (s1 & E & Es).
  destruct (skip_holds s d1 d' r' (conj Hd Hr)) as (s' & Es' & Hs'). rewrite Es in Es'. injection Es' as <-.
  exists s1. split; [|done]. unfold p_uint, parse. rewrite E, Hd, Nat2Z.id, take_app_le, take_ge by lia. done.
Qed.

Lemma reads_uint_bits n v : 0 <= n <= 64 -> 0 <= v < 2 ^ n -> reads (p_uint n) v (to_bits (Z.to_nat n) v) [].
Proof.
  intros Hn Hv. replace v with (bits_val (to_bits (Z.to_nat n) v)) at 1.
  - apply reads_uint; [rewrite to_bits_length; lia | lia].
  - rewrite bits_val_to_bits, Z2Nat.id by lia. by apply Z.mod_small.
Qed.

Lemma reads_reference c : reads p_reference c [] [c].
Proof.
  intros s d' r' [Hd Hr]. cbn in Hr. destruct (load_reference_spec s c r' Hr) as (s1 & E & Es & _).
  exists s1. unfold p_reference, parse. rewrite E. split; [done|].
  destruct (skip_first_spec s 0 1) as (s' & Es' & Ed & Er).
  - pose proof (slice_data_length s). lia.
  - rewrite Hr. cbn. lia.
  - rewrite Es in Es'. injection Es' as <-. split; [by rewrite Ed, Hd | by rewrite Er, Hr].
Qed.

Lemma reads_opt_cell o : reads p_opt_cell o [bool_decide (is_Some o)] (option_list o).
Proof.
  intros s d' r' [Hd Hr]. destruct (load_opt_cell_spec s _ d' r' Hd) as [H1 H2]. unfold p_opt_cell, parse.
  destruct o as [c|]; cbn in *.
  - destruct (H1 c eq_refl) as (s' & -> & Hs'); [by rewrite Hr..|]. by exists s'.
  - destruct (H2 eq_refl) as (s' & -> & Hs'); [done|]. by exists s'.
Qed.

Lemma peek_bits s d1 d n : slice_data s = d1 ++ d -> n = Z.of_nat (length d1) -> n <= 64 ->
  p_peek n s = (Ok (bits_val d1), s).
Proof.
  intros Hd -> H64. unfold p_peek, parse. rewrite get_uint_spec by (done || by eapply bits_prefix).
  rewrite Hd, Nat2Z.id, take_app_le, take_ge by lia. done.
Qed.

Lemma reads_peek {A} n (k : Z -> Parser A) a d1 d r : n = Z.of_nat (length d1) -> n <= 64 ->
  reads (k (bits_val d1)) a (d1 ++ d) r -> reads (bind (p_peek n) k) a (d1 ++ d) r.
Proof.
  intros Hn H64 H s d' r' Hs. destruct (H s d' r' Hs) as (s' & E & Hs'). exists s'. split; [|done].
  rewrite <- E. apply bind_ok. destruct Hs as [Hd _]. rewrite <- app_assoc in Hd. by eapply peek_bits.
Qed.

Lemma reads_skip n d : n = Z.of_nat (length d) -> reads (p_skip n) tt d [].
Proof.
  intros -> s d' r' Hs. destruct (skip_holds _ _ _ _ Hs) as (s' & E & Hs'). exists s'.
  unfold p_skip, parse. by rewrite E.
Qed.

Lemma reads_bigint n z : 1 <= n -> - 2 ^ (n - 1) <= z < 2 ^ (n - 1) ->
  reads (p_bigint n) z (to_bits (Z.to_nat n) z) [].
Proof.
  intros Hn Hz s d' r' Hs. set (d := to_bits (Z.to_nat n) z) in *.
  assert (n = Z.of_nat (length d)) as HL by (unfold d; rewrite to_bits_length; lia).
  pose proof (bits_prefix _ _ _ (proj1 Hs)) as Hb.
  destruct (skip_holds _ _ _ _ Hs) as (s' & Es & Hs').
  destruct (load_bigint_spec s n true) as (x & E & Ex); [lia|].
  exists s'. unfold p_bigint, parse. rewrite E. destruct Hs as [Hd _].
  rewrite Hd, HL, Nat2Z.id, take_app_le, take_ge by lia. rewrite <- HL.
  assert (wrap_s n (bits_val d) = z) as ->.
  { unfold d. rewrite bits_val_to_bits, Z2Nat.id by lia. unfold wrap_s.
    rewrite Zplus_mod_idemp_l. apply wrap_s_id; lia. }
  rewrite <- HL in Es. unfold slice_skip_first, with_range in Es. rewrite Ex in Es. injection Es as <-. done.
Qed.

Lemma reads_all_empty {A} (a : A) : reads_all (ensure_empty_slice ;; ret a) a [] [].
Proof.
  intros s [Hd Hr]. exists s. unfold ensure_empty_slice, slice_is_empty, bind, gets.
  assert (size_bits (range s) = 0) as H1
    by (pose proof (slice_data_length s) as HL; rewrite Hd in HL; unfold slice_bits in HL; cbn in HL; lia).
  assert (size_refs (range s) = 0) as H2
    by (pose proof (size_refs_spec s) as HL; rewrite Hr in HL; unfold slice_size_refs in HL; cbn in HL; lia).
  apply is_data_empty_spec in H1. apply is_refs_empty_spec in H2. rewrite H1, H2. done.
Qed.

(** *** Storers and parsers *)

Lemma writes_bind (st1 st2 : Storer) d1 r1 d2 r2 : writes st1 d1 r1 -> writes st2 d2 r2 ->
  writes (fun b => let! b := st1 b in st2 b) (d1 ++ d2) (r1 ++ r2).
Proof.
  intros H1 H2 b b'. unfold run_to. rewrite empty_bind. destruct (in_empty_context (st1 b)) as [b1|] eqn:E1; [|done].
  intros E2. destruct (H1 b b1 E1) as (Ed1 & Er1 & Ep1). destruct (H2 b1 b' E2) as (Ed2 & Er2 & Ep2).
  split; [|split]; [by rewrite Ed2, Ed1, app_assoc | by rewrite Er2, Er1, app_assoc | auto].
Qed.

Lemma trips_bind {A B} (st1 st2 : Storer) (p : Parser A) (k : A -> Parser B) a c :
  trips st1 p a -> trips st2 (k a) c -> trips (fun b => let! b := st1 b in st2 b) (bind p k) c.
Proof.
  intros [H1|(d1 & r1 & W1 & R1)] [H2|(d2 & r2 & W2 & R2)].
  4: right; exists (d1 ++ d2), (r1 ++ r2); split; [by apply writes_bind | by eapply reads_bind].
  all: left; intros b b' E; unfold run_to in E; rewrite empty_bind in E;
    destruct (in_empty_context (st1 b)) as [b1|] eqn:E1; try discriminate E.
  - by apply (H1 b b1).
  - by apply (H1 b b1).
  - by apply (H2 b1 b').
Qed.

(** A program before the storer, such as the building of a nested cell. *)
Lemma trips_prog {A X} (P : CellProg X) (st : X -> Storer) (p : Parser A) a :
  (forall x, in_empty_context P = Ok x -> trips (st x) p a) ->
  trips (fun b => let! x := P in st x b) p a.
Proof.
  intros H. destruct (in_empty_context P) as [x|e] eqn:E.
  - destruct (H x eq_refl) as [Hn|(d & r & W & R)].
    + left. intros b b'. unfold run_to. rewrite empty_bind, E. apply Hn.
    + right. exists d, r. split; [|done]. intros b b'. unfold run_to. rewrite empty_bind, E. apply W.
  - left. intros b b'. unfold run_to. by rewrite empty_bind, E.
Qed.

Lemma trips_never {A} (e : Error) (p : Parser A) a : trips (fun _ => ProgDone (Err e)) p a.
Proof. left. by intros b b'. Qed.

Lemma trips_map {A B} (st : Storer) (p : Parser A) (k : A -> Parser B) a c :
  trips st p a -> (forall s, k a s = (Ok c, s)) -> trips st (bind p k) c.
Proof.
  intros [H|(d & r & W & R)] Hk; [by left|]. right. exists d, r. split; [done|].
  intros s d' r' Hs. destruct (R s d' r' Hs) as (s' & E & Hs'). exists s'. by rewrite (bind_ok _ _ _ _ _ E), Hk.
Qed.

Lemma trips_ext {A} (st : Storer) (p q : Parser A) a : (forall s, p s = q s) -> trips st p a -> trips st q a.
Proof. intros E [H|(d & r & W & R)]; [by left|]. right. exists d, r. split; [done|]. by eapply reads_ext. Qed.

Lemma trips_stop {A} (a : A) : trips (fun b => put (Ok b)) (ret a) a.
Proof.
  right. exists [], []. split; [|apply reads_ret]. intros b b' [= <-]. by split; rewrite ?app_nil_r.
Qed.

Lemma writes_uint v n : 0 <= n -> 0 <= v < 2 ^ n ->
  writes (fun b => put (store_uint b v n)) (to_bits (Z.to_nat n) v) [].
Proof. intros Hn Hv b b' E. by apply store_uint_appends. Qed.

Lemma trips_uint v n : 0 <= n <= 64 -> 0 <= v < 2 ^ n -> trips (fun b => put (store_uint b v n)) (p_uint n) v.
Proof. intros Hn Hv. right. eexists _, _. split; [by apply writes_uint; [lia|] | by apply reads_uint_bits]. Qed.

Lemma to_bits_zero n : to_bits n 0 = replicate n false.
Proof. induction n as [|n IH]; [done|]. cbn [to_bits replicate]. by rewrite Z.bits_0, IH. Qed.

Lemma trips_zeros n : 0 <= n <= 64 -> trips (fun b => put (store_zeros b n)) (p_uint n) 0.
Proof.
  intros Hn. right. exists (to_bits (Z.to_nat n) 0), []. split.
  - intros b b' E. rewrite to_bits_zero. by apply store_zeros_appends; [lia|].
  - apply reads_uint_bits; [done|]. split; [done | apply Z.pow_pos_nonneg; lia].
Qed.

Lemma writes_reference c : writes (fun b => put (store_reference b c)) [] [c].
Proof. intros b b' E. by apply store_reference_appends. Qed.

Lemma trips_reference c : trips (fun b => put (store_reference b c)) p_reference c.
Proof. right. eexists _, _. split; [apply writes_reference | apply reads_reference]. Qed.

(** A bit, and [bool]. *)
Lemma trips_bit (x : bool) (st : Storer) : st = (fun b => put (store_uint b (if x then 1 else 0) 1)) ->
  trips st p_bit x.
Proof. intros ->. eapply trips_map; [apply trips_uint; [lia | by destruct x]|]. intros s. by destruct x. Qed.

(** A cell that was built. *)
Lemma built_reads {A} (st : Storer) (p : Parser A) a d r c : writes st d r -> reads_all p a d r ->
  in_empty_context (build_from_ext st) = Ok c -> forall s0, parse_cell p c s0 = (Ok a, s0).
Proof.
  intros W R E s0. unfold build_from_ext in E. rewrite empty_bind in E.
  destruct (in_empty_context (st builder_new)) as [b|] eqn:Eb; [|done]. rewrite empty_build in E.
  destruct (W _ _ Eb) as (Ed & Er & Ep). destruct builder_new_spec as (En & Em & Hp).
  destruct (builder_build_spec b c E (Ep Hp)) as (Ht & Hd & Hr).
  unfold parse_cell. rewrite as_slice_ordinary by done. cbn. unfold bind, of_result, parse_slice.
  destruct (R (new_allow_exotic c)) as (s' & ->); [|done].
  split; [by rewrite Hd, Ed, En | by rewrite Hr, Er, Em].
Qed.

(** The value of a cell that holds nothing else. *)
Lemma built_trips {A} (st : Storer) (p : Parser A) a c : trips st p a ->
  in_empty_context (build_from_ext st) = Ok c ->
  forall s0, parse_cell (let* v := p in ensure_empty_slice ;; ret v) c s0 = (Ok a, s0).
Proof.
  intros [H|(d & r & W & R)] E s0.
  - unfold build_from_ext in E. rewrite empty_bind in E.
    destruct (in_empty_context (st builder_new)) as [b|] eqn:Eb; [by apply H in Eb | done].
  - eapply (built_reads st _ a d r c W); [|done]. rewrite <- (app_nil_r d), <- (app_nil_r r).
    eapply reads_all_bind; [exact R | apply reads_all_empty].
Qed.
End Trips.

(** * Round trips of stack values

    A stack, or a value of it, that was stored into a cell is loaded back as it was: null,
    integers, cells, slices, builders, tuples, ordinary continuations with their control
    data, and the continuations that quit, nested in each other to any depth.  The other
    continuations are stored in a way they cannot be loaded. *)

(** ** Slices *)

(** The 26 bits that hold four offsets. *)
Definition slice_word (a e i f : Z) : Z :=
  Z.lor (Z.lor (Z.lor (Z.shiftl a 16) (Z.shiftl e 6)) (Z.shiftl i 3)) f.

Lemma slice_word_val a e i f : 0 <= e < 1024 -> 0 <= i < 8 -> 0 <= f < 8 ->
  slice_word a e i f = a * 65536 + e * 64 + i * 8 + f.
Proof.
  intros He Hi Hf. unfold slice_word.
  rewrite (Z.shiftl_mul_pow2 e), (Z.shiftl_mul_pow2 i) by lia. change (2 ^ 6) with 64. change (2 ^ 3) with 8.
  rewrite lor_shiftl by (cbn; lia).
  replace (a * 2 ^ 16 + e * 64) with (Z.shiftl (a * 1024 + e) 6) by (rewrite Z.shiftl_mul_pow2 by lia; cbn; lia).
  rewrite lor_shiftl by (cbn; lia).
  replace ((a * 1024 + e) * 2 ^ 6 + i * 8) with (Z.shiftl (a * 8192 + e * 8 + i) 3)
    by (rewrite Z.shiftl_mul_pow2 by lia; cbn; lia).
  rewrite lor_shiftl by (cbn; lia). cbn. lia.
Qed.

Lemma word_field v n w k : 0 <= n -> 0 <= k < w -> Z.shiftr v n mod 2 ^ w mod 2 ^ k = Z.shiftr v n mod 2 ^ k.
Proof.
  intros Hn Hk. apply Z.mod_mod_divide.
  exists (2 ^ (w - k)). rewrite <- Z.pow_add_r by lia. f_equal. lia.
Qed.

Lemma slice_fields a e i f : 0 <= a < 1024 -> 0 <= e < 1024 -> 0 <= i < 8 -> 0 <= f < 8 ->
  let v := slice_word a e i f in
  Z.land (wrap_u 16 (Z.shiftr v 16)) 0x3ff = a /\ Z.land (wrap_u 16 (Z.shiftr v 6)) 0x3ff = e /\
  Z.land (wrap_u 8 (Z.shiftr v 3)) 7 = i /\ Z.land (wrap_u 8 v) 7 = f /\ 0 <= v < 2 ^ 26.
Proof.
  intros Ha He Hi Hf v. unfold v. rewrite slice_word_val by done. clear v.
  change 0x3ff with (Z.ones 10). change 7 with (Z.ones 3). unfold wrap_u.
  rewrite !Z.land_ones, !word_field by lia. rewrite <- (Z.shiftr_0_r (_ + f)) at 4.
  rewrite word_field, Z.shiftr_0_r, !Z.shiftr_div_pow2 by lia.
  change (2 ^ 16) with 65536. change (2 ^ 6) with 64. change (2 ^ 3) with 8. change (2 ^ 10) with 1024.
  change (2 ^ 26) with 67108864.
  rewrite <- (Z.div_unique (a * 65536 + e * 64 + i * 8 + f) 65536 a (e * 64 + i * 8 + f)) by lia.
  rewrite <- (Z.div_unique (a * 65536 + e * 64 + i * 8 + f) 64 (a * 1024 + e) (i * 8 + f)) by lia.
  rewrite <- (Z.div_unique (a * 65536 + e * 64 + i * 8 + f) 8 (a * 8192 + e * 8 + i) f) by lia.
  rewrite <- (Z.mod_unique a 1024 0 a), <- (Z.mod_unique (a * 1024 + e) 1024 a e),
    <- (Z.mod_unique (a * 8192 + e * 8 + i) 8 (a * 1024 + e) i),
    <- (Z.mod_unique (a * 65536 + e * 64 + i * 8 + f) 8 (a * 8192 + e * 8 + i) f) by lia.
  lia.
Qed.

Section RoundTrips.
Context `{SeL : SerialLib} `{CLaws : !CellLaws} `{SLaws : !SliceLaws} `{BLaws : !BigIntLaws} `{SeLaws : !SerialLaws}.
Implicit Types (s : OwnedCellSlice) (b : CellBuilder).

Lemma trips_slice s : part_of_cell s ->
  trips (store_slice_as_stack_value s) load_slice_as_stack_value s.
Proof.
  intros (a & n & i & k & r & Ha & Hn & Hi & Hk & Hb & Hf & E1 & E2).
  destruct (part_of_cell_range (cell s) a n i k r (range s)) as (Ea & En & Ei & Ek); [done..|].
  pose proof (bit_len_max (cell s)) as H1. pose proof (references_length (cell s)) as H4.
  unfold store_slice_as_stack_value. rewrite Ea, En, Ei, Ek.
  change (Z.lor _ (i + k)) with (slice_word a (a + n) i (i + k)).
  destruct (slice_fields a (a + n) i (i + k)) as (Fa & Fe & Fi & Ff & Fv); [lia..|].
  apply trips_bind with (st1 := fun b => put (store_reference b (cell s))) (a := cell s); [apply trips_reference|].
  eapply trips_map; [by apply trips_uint|]. intros s0. cbn zeta. rewrite Fa, Fe, Fi, Ff.
  rewrite (bind_ok _ _ s0 tt s0).
  2:{ apply ensure_true, negb_true_iff. rewrite !orb_false_iff, !Z.ltb_ge. lia. }
  rewrite (bind_ok _ _ s0 tt s0).
  2:{ apply ensure_true, negb_true_iff. rewrite !orb_false_iff, !Z.ltb_ge. lia. }
  rewrite E1. cbn [range_or]. replace (a + n - a) with n by lia. replace (i + k - i) with k by lia.
  rewrite E2. cbn [range_or]. by destruct s.
Qed.

(** ** Tuples *)

Section Nested.
Context (sv : value -> Storer) (lv : Parser value).

(** The cell [c] holds the value [v] and nothing else. *)
Definition loads (c : Cell) (v : value) : Prop := forall s0, load_from_cell lv c s0 = (Ok v, s0).

Lemma loads_built v c : trips (sv v) lv v -> in_empty_context (build_from_ext (sv v)) = Ok c -> loads c v.
Proof. intros H E s0. by eapply built_trips. Qed.

Definition pair_of : Parser (Cell * Cell) :=
  let* head := p_reference in
  let* tail := p_reference in
  ensure_empty_slice ;; ret (head, tail).

(** The cell of the items of a tuple but the last one. *)
Inductive item_chain : Cell -> Tuple -> Prop :=
| chain_one c v : loads c v -> item_chain c [v]
| chain_more c head tail l v : (forall s0, parse_cell pair_of c s0 = (Ok (head, tail), s0)) ->
    item_chain head l -> loads tail v -> item_chain c (l ++ [v]).

Definition stored_items (l : Tuple) (head tail : option Cell) : Prop :=
  match head, tail with
  | None, None => l = []
  | None, Some t => exists v, l = [v] /\ loads t v
  | Some h, Some t => exists l' v, l = l' ++ [v] /\ item_chain h l' /\ loads t v
  | Some _, None => False
  end.

Lemma pair_built t h c :
  in_empty_context (build_from_ext (fun b => let! b := put (store_reference b t) in put (store_reference b h))) = Ok c ->
  forall s0, parse_cell pair_of c s0 = (Ok (t, h), s0).
Proof.
  intros E. eapply (built_reads _ pair_of (t, h) [] [t; h] c); [| |exact E].
  - apply (writes_bind _ (fun b => put (store_reference b h)) [] [t] [] [h]); apply writes_reference.
  - apply (reads_all_bind _ _ t _ [] [t] [] [h]); [apply reads_reference|].
    apply (reads_all_bind _ _ h _ [] [h] [] []); [apply reads_reference | apply reads_all_empty].
Qed.

Lemma store_items_spec l done head tail : Forall (fun v => trips (sv v) lv v) l ->
  stored_items done head tail -> forall head' tail',
  in_empty_context (store_items sv l head tail) = Ok (head', tail') -> stored_items (done ++ l) head' tail'.
Proof.
  intros Hl. revert done head tail. induction Hl as [|v l Hv _ IH]; intros done head tail Hs head' tail'.
  { intros [= <- <-]. by rewrite app_nil_r. }
  cbn [store_items]. rewrite empty_bind.
  replace (done ++ v :: l) with ((done ++ [v]) ++ l) by (by rewrite <- app_assoc).
  assert (forall h c, in_empty_context (build_from_ext (sv v)) = Ok c ->
    (match h with Some h => item_chain h done | None => done = [] end) -> stored_items (done ++ [v]) h (Some c)) as Hgo.
  { intros h c Ec Hh. pose proof (loads_built v c Hv Ec) as Hc. destruct h as [h|]; cbn.
    - by exists done, v.
    - exists v. by rewrite Hh. }
  destruct head as [h|], tail as [t|]; cbn [stored_items] in Hs; [|done|..].
  - destruct Hs as (l' & w & -> & Hch & Hw). rewrite empty_bind.
    destruct (in_empty_context (build_from_ext (fun b => _))) as [c|] eqn:Ep; [|done].
    cbn [in_empty_context]. rewrite empty_bind.
    destruct (in_empty_context (build_from_ext (sv v))) as [x|] eqn:Ev; [|done].
    intros E. eapply IH; [|exact E]. apply Hgo; [done|]. econstructor; [|done..]. by apply pair_built.
  - destruct Hs as (w & -> & Hw). cbn [in_empty_context]. rewrite empty_bind.
    destruct (in_empty_context (build_from_ext (sv v))) as [x|] eqn:Ev; [|done].
    intros E. eapply IH; [|exact E]. apply Hgo; [done|]. by constructor.
  - cbn [in_empty_context]. rewrite empty_bind.
    destruct (in_empty_context (build_from_ext (sv v))) as [x|] eqn:Ev; [|done].
    intros E. eapply IH; [|exact E]. by apply Hgo.
Qed.

(** The loop gets the items but the first, the last first. *)
Lemma load_items_spec c l : item_chain c l -> forall acc s0,
  exists c1 v rest, load_items lv (length l - 1) c acc s0 = (Ok (c1, acc ++ rest), s0) /\
    loads c1 v /\ reverse (rest ++ [v]) = l.
Proof.
  induction 1 as [c v Hv|c head tail l v Hp Hch IH Ht]; intros acc s0.
  - exists c, v, []. cbn. rewrite app_nil_r. done.
  - rewrite length_app, Nat.add_sub. assert (exists m, length l = S m) as [m Hm].
    { inversion Hch as [|? ? ? l' ? ? ? ?]; subst; [by exists 0%nat|]. rewrite length_app. exists (length l'). cbn. lia. }
    rewrite Hm. cbn [load_items]. fold pair_of. rewrite (bind_ok _ _ _ _ _ (Hp s0)).
    rewrite (bind_ok _ _ _ _ _ (Ht s0)). rewrite Hm in IH. replace m with (S m - 1)%nat by lia.
    destruct (IH (acc ++ [v]) s0) as (c1 & w & rest & E & Hw & Hr). rewrite E.
    exists c1, w, (v :: rest). rewrite <- app_assoc. split; [done|]. split; [done|].
    change ((v :: rest) ++ [w]) with (v :: (rest ++ [w])). by rewrite reverse_cons, Hr.
Qed.

Definition load_items_of (len : Z) : Parser Tuple :=
  let* head := p_reference in
  let* tail := p_reference in
  let* v := load_from_cell lv tail in
  let* (head, tuple) := load_items lv (Z.to_nat (len - 2)) head [v] in
  let* v := load_from_cell lv head in
  ret (reverse (tuple ++ [v])).

Lemma load_items_back l h t v len s0 : item_chain h l -> loads t v -> len = Z.of_nat (length (l ++ [v])) ->
  (let* v := load_from_cell lv t in
   let* (head, tuple) := load_items lv (Z.to_nat (len - 2)) h [v] in
   let* v := load_from_cell lv head in
   ret (reverse (tuple ++ [v]))) s0 = (Ok (l ++ [v]), s0).
Proof.
  intros Hl Hv ->. rewrite (bind_ok _ _ _ _ _ (Hv s0)). rewrite length_app.
  replace (Z.to_nat _) with (length l - 1)%nat by (cbn; lia).
  destruct (load_items_spec h l Hl [v] s0) as (c1 & w & rest & E & Hw & Hr).
  rewrite (bind_ok _ _ _ _ _ E). rewrite (bind_ok _ _ _ _ _ (Hw s0)).
  rewrite <- app_assoc. cbn [app]. rewrite reverse_cons, Hr. done.
Qed.

Lemma trips_items t head tail : Z.of_nat (length t) <= U16_MAX -> stored_items t head tail ->
  trips (fun b =>
      let! b := put (store_uint b (Z.of_nat (length t)) 16) in
      let! b := store_opt_reference head b in
      store_opt_reference tail b) (load_tuple lv) t.
Proof.
  intros Hlen Hs. unfold U16_MAX in Hlen.
  apply (trips_bind (fun b => put (store_uint b (Z.of_nat (length t)) 16))
    (fun b => let! b := store_opt_reference head b in store_opt_reference tail b) _ _ (Z.of_nat (length t)));
    [apply trips_uint; lia|].
  destruct head as [h|], tail as [c|]; cbn [stored_items] in Hs; [|done|..].
  - destruct Hs as (l & v & -> & Hch & Hv). apply (trips_ext _ (load_items_of (Z.of_nat (length (l ++ [v]))))).
    { assert (2 <= Z.of_nat (length (l ++ [v]))) as H2.
      { rewrite length_app. inversion Hch; subst; rewrite ?length_app; cbn; lia. }
      intros s0. by destruct (Z.of_nat (length (l ++ [v]))) as [|[]|]; try lia. }
    unfold load_items_of.
    apply (trips_bind (store_opt_reference (Some h)) (store_opt_reference (Some c)) _ _ h); [apply trips_reference|].
    eapply trips_map; [apply trips_reference|]. intros s0. by apply load_items_back.
  - destruct Hs as (v & -> & Hv). cbn [length Z.of_nat]. cbv beta iota.
    eapply (trips_map (fun b => put (store_reference b c))); [apply trips_reference|].
    intros s0. by rewrite (bind_ok _ _ _ _ _ (Hv s0)).
  - rewrite Hs. apply trips_stop.
Qed.

(** After the tag of a value. *)
Lemma trips_tag lc tag (st : Storer) v : 0 <= tag < 256 -> trips st (load_value_of lv lc tag) v ->
  trips (fun b => let! b := put (store_uint b tag 8) in st b) (load_value_turn lv lc) v.
Proof. intros Ht H. apply trips_bind with (a := tag); [by apply trips_uint | done]. Qed.

Lemma trips_tuple lc t : Forall (fun v => trips (sv v) lv v) t ->
  trips (store_tuple sv t) (load_value_turn lv lc) (VTuple t).
Proof.
  intros Ht. unfold store_tuple. destruct (Z.ltb_spec U16_MAX (Z.of_nat (length t))) as [_|Hlen];
    [apply trips_never|].
  apply (trips_prog (store_items sv t None None) (fun x b => let (head, tail) := x in
    let! b := put (store_uint b 7 8) in
    let! b := put (store_uint b (Z.of_nat (length t)) 16) in
    let! b := store_opt_reference head b in
    store_opt_reference tail b)).
  intros [head tail] E. pose proof (store_items_spec t [] None None Ht eq_refl head tail E) as Hs. cbn [app] in Hs.
  apply (trips_tag lc 7 (fun b =>
    let! b := put (store_uint b (Z.of_nat (length t)) 16) in
    let! b := store_opt_reference head b in
    store_opt_reference tail b)); [done|].
  cbn [load_value_of]. eapply trips_map; [by apply trips_items|]. done.
Qed.

(** ** Stacks *)

(** The cell of the items below another one, the bottom first. *)
Inductive stack_chain : Cell -> list value -> Prop :=
| stack_chain_nil : stack_chain empty_cell []
| stack_chain_snoc c rest l v :
    (forall s0, parse_cell (let* rest := p_reference in let* v := lv in ensure_empty_slice ;; ret (rest, v)) c s0
      = (Ok (rest, v), s0)) ->
    stack_chain rest l -> stack_chain c (l ++ [v]).

Lemma load_stack_items_spec c l : stack_chain c l -> forall acc s0,
  load_stack_items lv (length l) c acc s0 = (Ok (empty_cell, acc ++ reverse l), s0).
Proof.
  induction 1 as [|c rest l v Hp Hch IH]; intros acc s0; [by rewrite app_nil_r|].
  rewrite length_app, Nat.add_1_r. cbn [load_stack_items]. rewrite (bind_ok _ _ _ _ _ (Hp s0)).
  rewrite IH, <- app_assoc, reverse_snoc. done.
Qed.

Lemma rest_built rest v c : trips (sv v) lv v ->
  in_empty_context (build_from_ext (fun b => let! b := put (store_reference b rest) in sv v b)) = Ok c ->
  forall s0, parse_cell (let* rest := p_reference in let* v := lv in ensure_empty_slice ;; ret (rest, v)) c s0
    = (Ok (rest, v), s0).
Proof.
  intros [Hn|(d & r & W & R)] E s0.
  - exfalso. unfold build_from_ext in E. rewrite !empty_bind in E.
    destruct (in_empty_context (put (store_reference builder_new rest))) as [b|]; [|done].
    destruct (in_empty_context (sv v b)) as [b'|] eqn:Eb; [|done]. by apply (Hn b b').
  - eapply (built_reads _ _ (rest, v) ([] ++ d) ([rest] ++ r) c); [| |exact E].
    + apply (writes_bind (fun b => put (store_reference b rest)) (sv v)); [apply writes_reference | done].
    + eapply reads_all_bind; [apply reads_reference|]. rewrite <- (app_nil_r d), <- (app_nil_r r).
      eapply reads_all_bind; [exact R | apply reads_all_empty].
Qed.

Lemma trips_stack_items l rest done : l <> [] -> stack_chain rest done -> Forall (fun v => trips (sv v) lv v) l ->
  never (store_stack_items sv l rest) \/
  exists rest' l' v, done ++ l = l' ++ [v] /\ stack_chain rest' l' /\
    trips (store_stack_items sv l rest) (let* r := p_reference in let* x := lv in ret (r, x)) (rest', v).
Proof.
  intros Hne Hch Hl. revert rest done Hne Hch. induction Hl as [|v l Hv Hl IH]; intros rest done' Hne Hch; [done|].
  destruct l as [|w l].
  - right. exists rest, done', v. split; [done|]. split; [done|].
    apply (trips_bind (fun b => put (store_reference b rest)) (sv v) _ _ rest); [apply trips_reference|].
    by eapply trips_map.
  - set (P := build_from_ext (fun b => let! b := put (store_reference b rest) in sv v b)).
    change (store_stack_items sv (v :: w :: l) rest) with
      (fun b => let! rest := P in store_stack_items sv (w :: l) rest b).
    destruct (in_empty_context P) as [c|e] eqn:E.
    2:{ left. intros b b'. unfold run_to. by rewrite empty_bind, E. }
    destruct (IH c (done' ++ [v])) as [Hn|(rest' & l' & x & El & Hch' & Hx)]; [done| |left|right].
    + econstructor; [|done]. by apply rest_built.
    + intros b b'. unfold run_to. rewrite empty_bind, E. apply Hn.
    + exists rest', l', x. rewrite <- app_assoc in El. split; [done|]. split; [done|].
      apply (trips_prog P (fun rest => store_stack_items sv (w :: l) rest)). intros y Ey.
      rewrite E in Ey. by injection Ey as <-.
Qed.

Lemma trips_stack l : Forall (fun v => trips (sv v) lv v) l -> trips (store_stack sv l) (load_stack lv) l.
Proof.
  intros Hl. unfold store_stack. unfold Stack.depth, Stack.MAX_DEPTH. case_bool; [apply trips_never|].
  apply (trips_bind (fun b => put (store_uint b (Z.of_nat (length l)) 24)) (store_stack_items sv l empty_cell)
    _ _ (Z.of_nat (length l))); [apply trips_uint; lia|].
  destruct l as [|v0 l0]; [apply trips_stop|]. set (l := v0 :: l0) in *.
  destruct (Z.eqb_spec (Z.of_nat (length l)) 0) as [H0|_]; [cbn in H0; lia|].
  destruct (trips_stack_items l empty_cell []) as [Hn|(rest & l' & v & El & Hch & Ht)]; [done|constructor|done|by left|].
  cbn [app] in El.
  assert (length l = S (length l')) as HL by (rewrite El, length_app; cbn; lia).
  destruct Ht as [Hn|(d & r & W & R)]; [by left|]. right. exists d, r.
  split; [done|]. intros s d' r' Hs. destruct (R s d' r' Hs) as (s' & E & Hs'). exists s'. split; [|done].
  unfold bind in E |- *. destruct (p_reference s) as [[c|e] s1]; [|done].
  destruct (lv s1) as [[x|e] s2]; [|done]. unfold ret in E. injection E as -> -> ->.
  rewrite HL. case_bool.
  - replace (Z.to_nat _) with (length l') by lia.
    rewrite (load_stack_items_spec rest l' Hch [v] s'). cbn [app].
    unfold parse_cell. destruct empty_cell_spec as (Ht & Hd & Hr). rewrite as_slice_ordinary by done.
    unfold bind, of_result, parse_slice. destruct (reads_all_empty tt (new_allow_exotic empty_cell)) as [s3 E3];
      [by split|]. unfold bind in E3. destruct (ensure_empty_slice _) as [[[]|e] s4]; [|done].
    unfold ret. by rewrite reverse_cons, reverse_involutive, El.
  - destruct l' as [|w l']; [by rewrite El | cbn in *; lia].
Qed.

(** ** Values that hold no others *)

Section Turn.
Context (lc : Parser cont).
#[local] Abbreviation turn := (load_value_turn lv lc).

Lemma trips_null : trips store_null turn VNull.
Proof. eapply trips_map; [by apply trips_zeros|]. done. Qed.

Lemma trips_nan : trips store_nan turn VNaN.
Proof.
  right. exists (to_bits 8 2 ++ to_bits 8 255), []. split; [by apply writes_uint|].
  apply (reads_bind _ _ 2 _ (to_bits 8 2) [] (to_bits 8 255) []); [by apply reads_uint_bits|].
  cbn [load_value_of]. rewrite <- (app_nil_r (to_bits 8 255)). apply reads_peek; [done..|].
  change (bits_val (to_bits 8 255)) with 255. cbv beta iota zeta.
  apply (reads_bind (p_skip 8) _ tt _ (to_bits 8 255) [] [] []); [by apply reads_skip | apply reads_ret].
Qed.

Lemma trips_int z : small_int z -> trips (store_int z) turn (VInt z).
Proof.
  intros Hz. unfold store_int. destruct (Z.leb_spec (bitsize true z) 64) as [H64|H64].
  - apply bitsize_signed in H64; [|done|lia].
    apply (trips_tag lc 1 (fun b => put (store_bigint b z 64 true))); [done|]. cbn [load_value_of]. right. exists (to_bits 64 z), []. split.
    + intros b b' E. by apply store_bigint_appends in E as [_ E].
    + rewrite <- (app_nil_r (to_bits 64 z)), <- (app_nil_r (@nil Cell)).
      eapply reads_bind; [apply reads_uint; [by rewrite to_bits_length | lia]|].
      rewrite bits_val_to_bits. change (Z.of_nat 64) with 64. unfold wrap_s.
      rewrite Zplus_mod_idemp_l. change ((z + 2 ^ (64 - 1)) mod 2 ^ 64 - 2 ^ (64 - 1)) with (wrap_s 64 z).
      rewrite wrap_s_id by lia. apply reads_ret.
  - destruct (decide (- 2 ^ 256 <= z < 2 ^ 256)) as [Hr|Hr].
    2:{ left. intros b b'. unfold run_to. rewrite empty_bind.
        destruct (in_empty_context (put (store_uint b _ 15))) as [b1|]; [|done].
        intros E. by apply store_bigint_appends in E as [? _]. }
    right. exists (to_bits 15 256 ++ to_bits 257 z), []. split.
    { apply (writes_bind (fun b => put (store_uint b 256 15)) (fun b => put (store_bigint b z 257 true)) _ [] _ []).
      - by apply writes_uint.
      - intros b b' E. by apply store_bigint_appends in E as [_ E]. }
    change (to_bits 15 256) with (to_bits 8 2 ++ to_bits 7 0). rewrite <- app_assoc.
    apply (reads_bind _ _ 2 _ (to_bits 8 2) [] (to_bits 7 0 ++ to_bits 257 z) []); [by apply reads_uint_bits|].
    cbn [load_value_of]. change (to_bits 257 z) with ([Z.testbit z 256] ++ to_bits 256 z). rewrite app_assoc.
    apply reads_peek; [done..|].
    replace (bits_val (to_bits 7 0 ++ [Z.testbit z 256])) with (if Z.testbit z 256 then 1 else 0)
      by (by destruct (Z.testbit z 256)).
    match goal with |- reads (if ?c then _ else _) _ _ _ => replace c with false by (by destruct (Z.testbit z 256)) end.
    match goal with |- reads (if ?c then _ else _) _ _ _ => replace c with true by (by destruct (Z.testbit z 256)) end.
    rewrite <- app_assoc.
    change ([Z.testbit z 256] ++ to_bits 256 z) with (to_bits 257 z).
    apply (reads_bind (p_skip 7) _ tt _ (to_bits 7 0) [] (to_bits 257 z) []); [by apply reads_skip|].
    rewrite <- (app_nil_r (to_bits 257 z)), <- (app_nil_r (@nil Cell)).
    eapply reads_bind; [by apply (reads_bigint 257) | apply reads_ret].
Qed.

Lemma trips_cell c : trips (store_cell c) turn (VCell c).
Proof.
  apply (trips_tag lc 3 (fun b => put (store_reference b c))); [done|]. cbn [load_value_of].
  eapply trips_map; [apply trips_reference|]. done.
Qed.

Lemma trips_slice_value s : part_of_cell s -> trips (store_slice_value s) turn (VSlice s).
Proof.
  intros Hs.
  apply (trips_tag lc 4 (store_slice_as_stack_value s)); [done|]. cbn [load_value_of].
  eapply trips_map; [by apply trips_slice|]. done.
Qed.

Lemma trips_builder x : plain x -> has_capacity x 0 0 = true -> trips (store_builder_value x) turn (VBuilder x).
Proof.
  intros Hp Hc. unfold store_builder_value. rewrite Hp.
  apply (trips_tag lc 5 (fun b => let! c := prog_build x in put (store_reference b c))); [done|].
  cbn [load_value_of]. apply (trips_prog (prog_build x) (fun c b => put (store_reference b c))).
  intros c Ec. rewrite empty_build in Ec. eapply trips_map; [apply trips_reference|]. intros s.
  destruct (builder_build_spec x c Ec Hp) as (_ & Hd & Hr). destruct builder_new_spec as (En & Em & Hpn).
  apply has_capacity_spec in Hc; [|lia..].
  destruct (store_slice_spec builder_new (new_allow_exotic c)) as (b' & E & Ed & Er & Hpb).
  { apply has_capacity_spec; [pose proof (slice_data_length (new_allow_exotic c)); lia | lia|].
    pose proof (slice_data_length (new_allow_exotic c)) as HL. rewrite En, Em, Hr. rewrite Hd in HL. cbn. lia. }
  rewrite E. unfold bind, of_result, ret. do 3 f_equal. apply builder_ext; [auto|done| |].
  - by rewrite Ed, En, Hd.
  - by rewrite Er, Em, Hr.
Qed.
End Turn.

(** ** Control registers *)

(** The entries of a dictionary that parse to the values [l], with keys below [n]. *)
Definition regs_hold (root : option Cell) (l : list (Z * value)) (n : Z) : Prop :=
  exists es, dict_holds root es /\ Forall (fun e => e.1 < n) es /\
    Forall2 (fun e kv => e.1 = kv.1 /\ reads lv kv.2 e.2.1 e.2.2) es l.

Lemma store_reg_spec {A} i (o : option A) (st : A -> Storer) (f : A -> value) root root' l n :
  regs_hold root l n -> n <= i -> 0 <= i < 16 -> (forall x, o = Some x -> trips (st x) lv (f x)) ->
  in_empty_context (store_reg i o st root) = Ok root' ->
  regs_hold root' (l ++ option_list ((fun x => (i, f x)) <$> o)) (i + 1).
Proof.
  intros (es & Hd & Hn & Hl) Hi Hr Ht E. destruct o as [x|]; cbn in *.
  - assert (Forall (fun e => e.1 < i) es) as Hlt by (eapply Forall_impl; [exact Hn|]; cbn; lia).
    destruct (Ht x eq_refl) as [Hnv|(d & r & W & R)].
    + exfalso. assert (forall d, dict_holds root' (es ++ [(i, (d, []))])) as H2.
      { intros d. eapply dict_set_ext_spec; try done. intros b b' Hb. by apply Hnv in Hb. }
      pose proof (H2 []) as HA. pose proof (H2 [true]) as HB. unfold dict_holds in HA, HB.
      apply Forall2_app_inv_r in HA as (k1 & k2 & F1 & F2 & E1). apply Forall2_app_inv_r in HB as (k3 & k4 & F3 & F4 & E2).
      rewrite E1 in E2. apply app_inj_2 in E2 as [_ ->].
      * inversion F2 as [|? ? ? ? (s1 & Hs1 & Hs2 & _) _]; subst. inversion F4 as [|? ? ? ? (s2 & Hs3 & Hs4 & _) _]; subst.
        cbn in *. injection Hs3 as <-. congruence.
      * apply Forall2_length in F2, F4. cbn in *. lia.
    + exists (es ++ [(i, (d, r))]). split; [by eapply dict_set_ext_spec|]. split.
      * apply Forall_app. split; [eapply Forall_impl; [exact Hlt|]; cbn; lia | apply Forall_singleton; cbn; lia].
      * by apply Forall2_app; [|repeat constructor].
  - injection E as <-. rewrite app_nil_r. exists es. split; [done|]. split; [|done].
    eapply Forall_impl; [exact Hn|]. cbn. lia.
Qed.

Fixpoint apply_regs (l : list (Z * value)) (r : ControlRegs) : option ControlRegs :=
  match l with
  | [] => Some r
  | (i, v) :: l => match Regs.set i v r with (Ok _, r) => apply_regs l r | _ => None end
  end.

Lemma load_regs_spec es l entries acc r s0 : Forall2 entry_holds entries es ->
  Forall2 (fun e kv => e.1 = kv.1 /\ reads lv kv.2 e.2.1 e.2.2) es l ->
  apply_regs l acc = Some r -> load_regs lv entries acc s0 = (Ok r, s0).
Proof.
  intros He. revert l acc. induction He as [|x e entries es (s & -> & Hd & Hr) _ IH]; intros l acc Hl E.
  - inversion Hl; subst. cbn in E. injection E as ->. done.
  - inversion Hl as [|? [i v] ? l' [Ek Hv] Hl']; subst. cbn [fst snd] in *. cbn [load_regs].
    rewrite (bind_ok _ _ s0 v s0).
    2:{ unfold parse_slice. destruct (reads_all_bind lv (fun v => ensure_empty_slice ;; ret v) v v e.2.1 e.2.2 [] []
          Hv (reads_all_empty v) s) as [s' ->]; [|done]. by split; rewrite app_nil_r. }
    rewrite Ek. cbn [apply_regs] in E. destruct (Regs.set i v acc) as [[[]|] acc']; [|done]. by apply IH with l'.
Qed.

(** The registers with their numbers. *)
Definition reg_values (r : ControlRegs) : list (Z * value) :=
  option_list ((fun c => (0, VCont c)) <$> c0 r) ++ option_list ((fun c => (1, VCont c)) <$> c1 r) ++
  option_list ((fun c => (2, VCont c)) <$> c2 r) ++ option_list ((fun c => (3, VCont c)) <$> c3 r) ++
  option_list ((fun c => (4, VCell c)) <$> d0 r) ++ option_list ((fun c => (5, VCell c)) <$> d1 r) ++
  option_list ((fun t => (7, VTuple t)) <$> c7 r).

Lemma apply_reg_values r : apply_regs (reg_values r) regs_default = Some r.
Proof. by destruct r as [[] [] [] [] [] [] []]. Qed.

Context (sc : cont -> Storer).
Hypothesis sv_cont : forall c b, sv (VCont c) b = store_cont_value sc c b.
Hypothesis sv_cell : forall c b, sv (VCell c) b = store_cell c b.
Hypothesis sv_tuple : forall t b, sv (VTuple t) b = store_tuple sv t b.

Lemma trips_st {A} (st st' : Storer) (p : Parser A) a : (forall b, st b = st' b) -> trips st p a -> trips st' p a.
Proof.
  intros E [H|(d & r & W & R)]; [left | right; exists d, r; split; [|done]]; intros b b'; rewrite <- E; [apply H | apply W].
Qed.

(** The storing of the next register; and one more register [E] after those of [K]. *)
Ltac next_reg r E := eapply (trips_prog _ (fun dict b => _)); intros r E.
Ltac reg_step E K H :=
  eapply store_reg_spec in E; [|exact K|unfold Regs.DATA_REG_OFFSET; lia..|exact H]; clear K.

Lemma trips_regs r : Forall (fun kv => trips (sv kv.2) lv kv.2) (reg_values r) ->
  trips (store_control_regs sv sc r) (load_control_regs lv) r.
Proof.
  unfold reg_values. rewrite !Forall_app. intros (H0 & H1 & H2 & H3 & H4 & H5 & H7).
  assert (forall A (o : option A) i (f : A -> value) (st : A -> Storer), (forall x b, sv (f x) b = st x b) ->
    Forall (fun kv => trips (sv kv.2) lv kv.2) (option_list ((fun x => (i : Z, f x)) <$> o)) ->
    forall x, o = Some x -> trips (st x) lv (f x)) as HT.
  { intros A o i f st E H x ->. cbn in H. inversion H as [|? ? Hx _]; subst. exact (trips_st _ _ _ _ (E x) Hx). }
  unfold store_control_regs, load_control_regs.
  next_reg r0 E0. next_reg r1 E1. next_reg r2 E2. next_reg r3 E3. next_reg r4 E4. next_reg r5 E5. next_reg root E7.
  assert (regs_hold None [] 0) as K.
  { exists []. unfold dict_holds. rewrite dict_iter_empty. done. }
  reg_step E0 K (HT _ _ 0 VCont _ sv_cont H0). reg_step E1 E0 (HT _ _ 1 VCont _ sv_cont H1).
  reg_step E2 E1 (HT _ _ 2 VCont _ sv_cont H2). reg_step E3 E2 (HT _ _ 3 VCont _ sv_cont H3).
  reg_step E4 E3 (HT _ _ 4 VCell _ sv_cell H4). reg_step E5 E4 (HT _ _ 5 VCell _ sv_cell H5).
  reg_step E7 E5 (HT _ _ 7 VTuple _ sv_tuple H7).
  destruct E7 as (es & Hd & _ & Hes). right. exists [bool_decide (is_Some root)], (option_list root). split.
  - intros b b' E. by apply store_opt_cell_appends.
  - intros s d' r' Hs. destruct (reads_opt_cell root s d' r' Hs) as (s' & E & Hs'). exists s'. split; [|done].
    rewrite (bind_ok _ _ _ _ _ E). eapply load_regs_spec; [exact Hd | exact Hes |].
    rewrite <- !app_assoc. cbn [app]. apply apply_reg_values.
Qed.

(** ** Control data and continuations *)

Lemma trips_opt {A} (st : A -> Storer) (p : Parser A) o : (forall x, o = Some x -> trips (st x) p x) ->
  trips (store_opt st o) (load_opt p) o.
Proof.
  intros H. destruct o as [x|].
  - apply (trips_bind (fun b => put (store_uint b 1 1)) (st x) _ _ true); [by apply trips_bit|].
    eapply trips_map; [by apply H|]. done.
  - apply (trips_map (fun b => put (store_zeros b 1)) p_bit _ false); [|done].
    apply (trips_map _ (p_uint 1) _ 0); [by apply trips_zeros | done].
Qed.

Lemma trips_nargs o : trips (store_nargs o) (load_opt (let* n := p_uint 13 in ret (Z.to_N n))) o.
Proof.
  destruct o as [n|]; [|by apply (trips_opt (fun _ b => put (Ok b)) _ None)].
  unfold store_nargs. destruct (Z.leb_spec (Z.of_N n) 0x1fff); [|apply trips_never].
  apply (trips_opt (fun n b => put (store_uint b (Z.of_N n) 13)) _ (Some n)). intros x [= <-].
  eapply trips_map; [apply trips_uint; lia|]. intros s. unfold ret. by rewrite N2Z.id.
Qed.

Definition data_trips (data : ControlData) : Prop :=
  Forall (fun v => trips (sv v) lv v) (default [] (cd_stack data)) /\
  Forall (fun kv => trips (sv kv.2) lv kv.2) (reg_values (save data)) /\
  (forall cp, cd_cp data = Some cp -> 0 <= cp <= U16_MAX).

Lemma trips_data data : data_trips data -> trips (store_control_data sv sc data) (load_control_data lv) data.
Proof.
  intros (Hs & Hr & Hc). unfold store_control_data, load_control_data.
  eapply trips_bind; [apply trips_nargs|].
  eapply trips_bind.
  { apply trips_opt. intros l El. rewrite El in Hs. by apply trips_stack. }
  eapply trips_bind; [by apply trips_regs|].
  eapply trips_map.
  { apply trips_opt. intros cp Ec. specialize (Hc cp Ec). unfold U16_MAX in Hc. apply trips_uint; lia. }
  intros s. by destruct data.
Qed.

(** The six bits after a tag of [n] bits decide the kind [k]. *)
Definition tag_kind (tag n k : Z) : bool :=
  forallb (fun v => cont_kind (tag * 2 ^ (6 - n) + Z.of_nat v) =? k) (seq 0 (Z.to_nat (2 ^ (6 - n)))).

Lemma tag_kind_spec tag n k y : tag_kind tag n k = true -> 0 <= n <= 6 -> 0 <= tag < 2 ^ n ->
  length y = Z.to_nat (6 - n) -> cont_kind (bits_val (to_bits (Z.to_nat n) tag ++ y)) = k.
Proof.
  intros Hk Hn Ht Hy. pose proof (bits_val_range y _ Hy) as Hv. rewrite Z2Nat.id in Hv by lia.
  rewrite bits_val_app, bits_val_to_bits, Z2Nat.id, Z.mod_small, Hy, Z2Nat.id by lia.
  unfold tag_kind in Hk. rewrite forallb_forall in Hk.
  specialize (Hk (Z.to_nat (bits_val y))). rewrite Z2Nat.id, Z.eqb_eq in Hk by lia. apply Hk.
  apply in_seq. lia.
Qed.

Context (lc : Parser cont).

Lemma peek_kind tag n k d s : tag_kind tag n k = true -> 0 < n <= 6 -> 0 <= tag < 2 ^ n ->
  slice_data s = to_bits (Z.to_nat n) tag ++ d -> load_cont_turn lv lc s = load_kind lv lc k s.
Proof.
  intros Hk Hn Ht Hd. unfold load_cont_turn. pose proof (slice_data_length s) as HL.
  assert (length (slice_data s) = Z.to_nat n + length d)%nat as HLd by (by rewrite Hd, length_app, to_bits_length).
  rewrite (bind_ok _ _ s (slice_bits s) s) by done. rewrite <- HL.
  destruct (Z.ltb_spec (Z.of_nat (length (slice_data s))) 6) as [Hlt|Hge].
  - rewrite (bind_ok _ _ s (Z.shiftl (bits_val (slice_data s)) (6 - Z.of_nat (length (slice_data s)))) s).
    2:{ rewrite (bind_ok _ _ _ _ _ (peek_bits s (slice_data s) [] _ ltac:(by rewrite app_nil_r) eq_refl ltac:(lia))). done. }
    set (z := replicate (6 - length (slice_data s)) false).
    replace (Z.shiftl _ _) with (bits_val (slice_data s ++ z)).
    2:{ unfold z. rewrite bits_val_app, bits_val_zeros, length_replicate, Z.shiftl_mul_pow2 by lia.
        rewrite Z.add_0_r. do 2 f_equal. lia. }
    rewrite Hd, <- app_assoc, (tag_kind_spec tag n k) by (try done; unfold z; rewrite ?length_app, ?length_replicate; lia).
    done.
  - assert (slice_data s = to_bits (Z.to_nat n) tag ++ take (6 - Z.to_nat n) d ++ drop (6 - Z.to_nat n) d) as E
      by (by rewrite take_drop).
    rewrite app_assoc in E.
    rewrite (bind_ok _ _ _ _ _ (peek_bits s _ _ 6 E ltac:(rewrite length_app, to_bits_length, length_take; lia) ltac:(lia))).
    rewrite (tag_kind_spec tag n k) by (try done; rewrite ?length_take; lia). done.
Qed.

Lemma reads_tag n tag : 0 <= n <= 64 -> 0 <= tag < 2 ^ n -> reads (p_tag n tag) tt (to_bits (Z.to_nat n) tag) [].
Proof.
  intros Hn Ht. apply (reads_ext (bind (p_uint n) (fun t => ensure (t =? tag) (Some InvalidTag)))); [done|].
  rewrite <- (app_nil_r (to_bits _ tag)). eapply (reads_bind _ _ tag tt _ [] [] []); [by apply reads_uint_bits|].
  rewrite Z.eqb_refl. apply reads_ret.
Qed.

Lemma trips_cont tag n k (st1 st2 : Storer) (p : Parser cont) c : tag_kind tag n k = true -> 0 < n <= 6 ->
  0 <= tag < 2 ^ n -> load_kind lv lc k = (p_tag n tag ;; p) ->
  writes st1 (to_bits (Z.to_nat n) tag) [] -> trips st2 p c ->
  trips (fun b => let! b := st1 b in st2 b) (load_cont_turn lv lc) c.
Proof.
  intros Hk Hn Ht Hp W [Hnv|(d & r & W2 & R2)].
  { left. intros b b'. unfold run_to. rewrite empty_bind. destruct (in_empty_context (st1 b)) as [b1|]; [|done]. apply Hnv. }
  right. exists (to_bits (Z.to_nat n) tag ++ d), ([] ++ r). split; [by apply writes_bind|].
  intros s d' r' Hs. rewrite (peek_kind tag n k (d ++ d') s) by (try done; rewrite app_assoc; apply Hs).
  rewrite Hp. revert s d' r' Hs. eapply reads_bind; [|exact R2]. apply reads_tag; [lia | done].
Qed.

Lemma trips_quit e : I32_MIN <= e <= I32_MAX -> trips (store_quit e) (load_cont_turn lv lc) (QuitCont e).
Proof.
  intros He. unfold_widths.
  apply (trips_cont QUIT_TAG 4 2 (fun b => put (store_uint b QUIT_TAG 4)) (fun b => put (store_uint b (wrap_u 32 e) 32))
    (let* exit_code := p_uint 32 in ret (QuitCont (wrap_s 32 exit_code)))); try done.
  { by apply writes_uint. }
  eapply trips_map; [apply trips_uint; [lia | apply Z.mod_pos_bound; lia]|]. intros s. unfold ret, wrap_u, wrap_s.
  rewrite Zplus_mod_idemp_l. change ((e + 2 ^ (32 - 1)) mod 2 ^ 32 - 2 ^ (32 - 1)) with (wrap_s 32 e).
  by rewrite wrap_s_id by lia.
Qed.

Lemma trips_exc_quit : trips store_exc_quit (load_cont_turn lv lc) ExcQuitCont.
Proof.
  apply (trips_st (fun b => let! b := put (store_uint b EXC_QUIT_TAG 4) in put (Ok b)) store_exc_quit).
  { intros b. unfold store_exc_quit, put. by destruct (store_uint b EXC_QUIT_TAG 4). }
  apply (trips_cont EXC_QUIT_TAG 4 3 (fun b => put (store_uint b EXC_QUIT_TAG 4)) (fun b => put (Ok b)) (ret ExcQuitCont));
    try done; [by apply writes_uint | apply trips_stop].
Qed.

Lemma trips_ord data code : data_trips data -> part_of_cell code ->
  trips (store_ord sv sc data code) (load_cont_turn lv lc) (OrdCont data code).
Proof.
  intros Hd Hc. apply (trips_cont ORD_TAG 2 0 (fun b => put (store_zeros b 2))
    (fun b => let! b := store_control_data sv sc data b in store_slice_as_stack_value code b)
    (let* data := load_control_data lv in let* code := load_slice_as_stack_value in ret (OrdCont data code))); try done.
  { intros b b' E. exact (store_zeros_appends b 2 b' ltac:(lia) E). }
  eapply trips_bind; [by apply trips_data|]. eapply trips_map; [by apply trips_slice|]. done.
Qed.
End Nested.

(** ** Nested values *)

(** The values that are loaded as they were stored, nested [n] deep. *)
Fixpoint round_value (n : nat) (v : value) : Prop :=
  match n with
  | O => False
  | S n =>
      match v with
      | VNull | VNaN | VCell _ => True
      | VInt z => small_int z
      | VSlice s => part_of_cell s
      | VBuilder b => plain b /\ has_capacity b 0 0 = true
      | VTuple t => Forall (round_value n) t
      | VCont (QuitCont e) => I32_MIN <= e <= I32_MAX
      | VCont ExcQuitCont => True
      | VCont (OrdCont data code) =>
          part_of_cell code /\
          Forall (round_value n) (default [] (cd_stack data)) /\
          Forall (fun kv => round_value n kv.2) (reg_values (save data)) /\
          (forall cp, cd_cp data = Some cp -> 0 <= cp <= U16_MAX)
      | VCont _ => False
      end
  end.

Lemma trips_value n v fuel : round_value n v -> (2 * n <= fuel)%nat ->
  trips (store_as_stack_value v) (load_stack_value fuel) v.
Proof.
  revert v fuel. induction n as [|n IH]; intros v fuel Hv Hf; [done|].
  destruct fuel as [|[|fuel]]; [lia..|].
  assert (forall u, round_value n u -> trips (store_as_stack_value u) (load_stack_value fuel) u) as IH0
    by (intros; apply IH; [done | lia]).
  assert (forall u, round_value n u -> trips (store_as_stack_value u) (load_stack_value (S fuel)) u) as IH1
    by (intros; apply IH; [done | lia]).
  destruct v as [| |z|c|s|b|c|t]; cbn [round_value] in Hv.
  - apply trips_null.
  - apply trips_nan.
  - by apply trips_int.
  - apply trips_cell.
  - by apply trips_slice_value.
  - destruct Hv. by apply trips_builder.
  - apply (trips_tag _ _ 6 (store_cont c)); [done|]. cbn [load_value_of].
    apply (trips_map _ (load_cont (S fuel)) _ c); [|done].
    destruct c as [e| | | | | | | |data code]; try done.
    + by apply (trips_quit (load_stack_value fuel) (load_cont fuel)).
    + apply (trips_exc_quit (load_stack_value fuel) (load_cont fuel)).
    + destruct Hv as (Hc & Hs & Hr & Hcp).
      apply (trips_ord store_as_stack_value (load_stack_value fuel) store_cont); try done.
      split; [|split; [|done]]; eapply Forall_impl; eauto.
  - apply trips_tuple. eapply Forall_impl; eauto.
Qed.

(** What was stored in a cell of its own. *)
Lemma built_value {A} (st : Storer) (p : Parser A) a b c : trips st p a ->
  run_to (st builder_new) b -> builder_build b = Ok c -> (p (new_allow_exotic c)).1 = Ok a.
Proof.
  intros [Hn|(d & r & W & R)] Hb Hc; [by apply Hn in Hb|].
  destruct (W _ _ Hb) as (Ed & Er & Ep). destruct builder_new_spec as (En & Em & Hp).
  destruct (builder_build_spec b c Hc (Ep Hp)) as (_ & Hd & Hr).
  destruct (R (new_allow_exotic c) [] []) as (s' & -> & _); [|done].
  rewrite !app_nil_r. split; [by rewrite Hd, Ed, En | by rewrite Hr, Er, Em].
Qed.

(** C10: A stack is loaded as it was stored.  For a stack of values nested at most [n] deep
    (null, NaN, integers, cells, slices, builders, tuples, ordinary continuations with
    their stack and control registers, and the continuations that quit): whenever the
    stack, or one of its values, can be stored and its cell built, loading the cell gives
    the same stack or value back, with fuel [2 * n] for the nesting. *)
Theorem stack_round_trip (n fuel : nat) (l : list value) (Hl : Forall (round_value n) l) (Hf : (2 * n <= fuel)%nat) :
  (forall b c, run_to (store_stack store_as_stack_value l builder_new) b -> builder_build b = Ok c ->
    (load_stack (load_stack_value fuel) (new_allow_exotic c)).1 = Ok l) /\
  (forall v b c, v ∈ l -> run_to (store_as_stack_value v builder_new) b -> builder_build b = Ok c ->
    load_stack_value_from_cell fuel c = Ok v).
Proof.
  assert (forall u, round_value n u -> trips (store_as_stack_value u) (load_stack_value fuel) u) as HT
    by (intros; by eapply trips_value).
  split.
  - intros b c Hb Hc. eapply built_value; [|exact Hb|done]. apply trips_stack. eapply Forall_impl; eauto.
  - intros v b c Hv Hb Hc. unfold load_stack_value_from_cell. rewrite Forall_forall in Hl.
    rewrite (loads_built _ _ v c (HT v (Hl v Hv))); [done|].
    unfold build_from_ext. rewrite empty_bind. unfold run_to in Hb. by rewrite Hb, empty_build.
Qed.

(** ** The continuations of loops *)

(** A storer that appends [data], and some references. *)
Definition writes_data (st : Storer) (data : list bool) : Prop :=
  forall b b', run_to (st b) b' -> exists refs, appended b data refs b'.
(** A parser that needs more bits than the slice has. *)
Definition runs_short {A} (p : Parser A) (data : list bool) : Prop :=
  forall s, slice_data s = data -> (p s).1 = Err (Some CellUnderflow).

Lemma writes_data_uint v n : 0 <= n -> 0 <= v < 2 ^ n ->
  writes_data (fun b => put (store_uint b v n)) (to_bits (Z.to_nat n) v).
Proof. intros Hn Hv b b' E. exists []. by apply (writes_uint v n). Qed.

Lemma writes_data_bind (st1 st2 : Storer) d1 d2 : writes_data st1 d1 -> writes_data st2 d2 ->
  writes_data (fun b => let! b := st1 b in st2 b) (d1 ++ d2).
Proof.
  intros H1 H2 b b'. unfold run_to. rewrite empty_bind. destruct (in_empty_context (st1 b)) as [b1|] eqn:E1; [|done].
  intros E2. destruct (H1 b b1 E1) as (r1 & Ed1 & Er1 & Ep1). destruct (H2 b1 b' E2) as (r2 & Ed2 & Er2 & Ep2).
  exists (r1 ++ r2). split; [by rewrite Ed2, Ed1, app_assoc|]. split; [by rewrite Er2, Er1, app_assoc | auto].
Qed.

Lemma writes_data_cont c : writes_data (store_cont_ref store_cont c) [].
Proof.
  intros b b'. unfold store_cont_ref, run_to. rewrite empty_bind. destruct (in_empty_context _) as [x|]; [|done].
  intros E. exists [x]. by apply store_reference_appends.
Qed.

Lemma runs_short_bind {A B} (p : Parser A) (k : A -> Parser B) a d1 d2 :
  reads p a d1 [] -> runs_short (k a) d2 -> runs_short (bind p k) (d1 ++ d2).
Proof.
  intros Hp Hk s Hs. destruct (Hp s d2 (slice_references s) (conj Hs eq_refl)) as (s' & E & Hd & _).
  rewrite (bind_ok _ _ _ _ _ E). by apply Hk.
Qed.

Lemma runs_short_left {A B} (p : Parser A) (k : A -> Parser B) d : runs_short p d -> runs_short (bind p k) d.
Proof.
  intros H s Hs. specialize (H s Hs). unfold bind. destruct (p s) as [[a|e] s']; [done|]. cbn in *. congruence.
Qed.

Lemma runs_short_bits n : 0 < n <= 64 -> runs_short (p_uint n) [].
Proof.
  intros Hn s Hs. pose proof (slice_data_length s) as HL. rewrite Hs in HL. cbn in HL.
  unfold p_uint, parse. by rewrite slice_load_uint_short by lia.
Qed.

(** No bits are read as the tag of an ordinary continuation, which is not there. *)
Lemma runs_short_cont fuel : runs_short (load_cont (S fuel)) [].
Proof.
  intros s Hs. pose proof (slice_data_length s) as HL. rewrite Hs in HL. cbn in HL.
  assert (load_cont (S fuel) s = load_ord (load_stack_value fuel) s) as ->.
  { change (load_cont_turn (load_stack_value fuel) (load_cont fuel) s = load_ord (load_stack_value fuel) s).
    unfold load_cont_turn. rewrite (bind_ok _ _ s (slice_bits s) s) by done. rewrite <- HL.
    change (Z.of_nat 0) with 0. change (0 <? 6) with true. cbv iota.
    rewrite (bind_ok _ _ s (Z.shiftl 0 (6 - 0)) s); [done|].
    by rewrite (bind_ok _ _ _ _ _ (peek_bits s [] [] 0 Hs eq_refl ltac:(lia))). }
  revert s Hs HL. assert (runs_short (load_ord (load_stack_value fuel)) []) as H; [|intros s Hs _; by apply H].
  apply runs_short_left, runs_short_left. by apply runs_short_bits.
Qed.

(** The tag of a loop and what it holds in place, before its continuations. *)
Lemma loop_fails tag n k data (st : Storer) fuel p (b : CellBuilder) c : tag_kind tag n k = true -> 0 < n <= 6 ->
  0 <= tag < 2 ^ n -> writes_data st (to_bits (Z.to_nat n) tag ++ data) ->
  load_kind (load_stack_value (S fuel)) (load_cont (S fuel)) k = (p_tag n tag ;; p) -> runs_short p data ->
  run_to (st builder_new) b -> builder_build b = Ok c ->
  (load_cont (S (S fuel)) (new_allow_exotic c)).1 = Err (Some CellUnderflow).
Proof.
  intros Hk Hn Ht W Hp Hs Hb Hc. destruct (W _ _ Hb) as (r & Ed & Er & Ep). destruct builder_new_spec as (En & _ & Hpn).
  destruct (builder_build_spec b c Hc (Ep Hpn)) as (_ & Hd & _). rewrite Ed, En in Hd. cbn [app] in Hd.
  change (load_cont (S (S fuel))) with (load_cont_turn (load_stack_value (S fuel)) (load_cont (S fuel))).
  rewrite (peek_kind _ _ tag n k data) by done. rewrite Hp. revert Hd.
  apply (runs_short_bind (p_tag n tag) (fun _ => p) tt); [apply reads_tag; [lia|done] | done].
Qed.

Definition is_loop (c : cont) : Prop :=
  match c with
  | PushIntCont _ _ | AgainCont _ | UntilCont _ _ | WhileCont _ _ _ _ => True
  | RepeatCont count _ _ => 0 <= count
  | _ => False
  end.

(** C37: The continuations of loops, and the one that pushes an integer, are stored with the
    continuations they refer to in cells of their own but are loaded as if those followed
    in place: the loading of such a cell always fails with a cell underflow. *)
Theorem loops_do_not_load (l : cont) (b : CellBuilder) (c : Cell) (fuel : nat)
    (Hl : is_loop l) (Hf : (2 <= fuel)%nat)
    (Hs : run_to (store_cont l builder_new) b) (Hc : builder_build b = Ok c) :
  (load_cont fuel (new_allow_exotic c)).1 = Err (Some CellUnderflow).
Proof.
  destruct fuel as [|[|fuel]]; [lia..|].
  assert (runs_short (load_cont (S fuel)) []) as H0 by apply runs_short_cont.
  destruct l as [| |v next|count body after|body|body after|x cond body after| |]; try done.
  - eapply (loop_fails PUSH_INT_TAG 4 8 (to_bits 32 (wrap_u 32 v) ++ [])); try done.
    + apply writes_data_bind; [by apply writes_data_uint|].
      apply writes_data_bind; [|apply writes_data_cont]. apply (writes_data_uint _ 32); [lia|]. apply Z.mod_pos_bound; lia.
    + eapply runs_short_bind; [apply reads_uint_bits; [lia | apply Z.mod_pos_bound; lia]|]. by apply runs_short_left.
  - cbn [store_cont] in Hs. unfold store_repeat in Hs.
    destruct (Z.leb_spec REPEAT_MAX_COUNT count) as [|Hlt]; [done|]. unfold REPEAT_MAX_COUNT in Hlt. cbn in Hl.
    eapply (loop_fails REPEAT_TAG 4 4 (to_bits 64 count ++ []) (fun b => let! b := put (store_uint b REPEAT_TAG 4) in
      let! b := put (store_uint b count 64) in
      let! b := store_cont_ref store_cont body b in store_cont_ref store_cont after b)); try done.
    + apply writes_data_bind; [by apply writes_data_uint|].
      apply writes_data_bind; [apply (writes_data_uint _ 64); lia|].
      apply (writes_data_bind _ _ [] []); apply writes_data_cont.
    + eapply runs_short_bind; [apply reads_uint_bits; lia|]. by apply runs_short_left.
  - eapply (loop_fails AGAIN_TAG 6 6 []); try done.
    + apply writes_data_bind; [by apply writes_data_uint | apply writes_data_cont].
    + by apply runs_short_left.
  - eapply (loop_fails UNTIL_TAG 6 5 []); try done.
    + apply writes_data_bind; [by apply writes_data_uint|]. apply (writes_data_bind _ _ [] []); apply writes_data_cont.
    + by apply runs_short_left.
  - eapply (loop_fails WHILE_TAG 5 7 ([negb x] ++ [])); try done.
    + rewrite app_assoc. apply writes_data_bind.
      * replace (to_bits _ WHILE_TAG ++ [negb x]) with
          (to_bits 6 (Z.lor (Z.shiftl WHILE_TAG 1) (if negb x then 1 else 0))) by (by destruct x).
        apply (writes_data_uint _ 6); [lia | by destruct x].
      * do 2 (apply (writes_data_bind _ _ [] []); [apply writes_data_cont|]). apply writes_data_cont.
    + eapply runs_short_bind; [|by apply runs_short_left].
      apply (reads_bind (p_uint 1) (fun v => ret (v =? 1)) (bits_val [negb x]) _ [negb x] [] [] []);
        [by apply reads_uint | apply reads_ret].
Qed.
End RoundTrips.

Arguments round_value {CL SL} !n !v.
