(* ===== verification/SerialEnds.v ===== *)
(** * Loading ends

    The parser of stack values recurses on whatever it is given, so its model has fuel.
    On every slice some fuel is enough: a nested call has fewer bits of the same slice or a
    cell below it; and more fuel gives the same result. *)

From S2P Require Import Prelude External Cells Values VmStack VmGas VmRegs Dicts CellSpec Serial SerialSpec.

Import Serial.
Open Scope vm_scope.

Section Laws.
Context `{SeL : SerialLib}.

(** What may be left of a slice after loading from it. *)
Definition within (s s' : OwnedCellSlice) : Prop :=
  slice_bits s' <= slice_bits s /\ (forall c, c ∈ slice_references s' -> c ∈ slice_references s).

#[export] Instance within_preorder : PreOrder within.
Proof. split; [by split | intros x y z [H1 H2] [H3 H4]; split; [lia | auto]]. Qed.

(** A slice that a reference of [s] leads to. *)
Definition kid (s k : OwnedCellSlice) : Prop :=
  exists c, c ∈ slice_references s /\
    (k = new_allow_exotic c \/ exists i, Ok (i, k) ∈ dict_iter (Some c)).

Class LoadLaws : Prop := {
  load_uint_within : forall s n v s', 0 <= n -> slice_load_uint s n = Ok (v, s') ->
    within s s' /\ slice_bits s' = slice_bits s - n;
  skip_within : forall s n s', 0 <= n -> slice_skip_first s n 0 = Ok s' -> within s s';
  load_bigint_within : forall s n z r, 0 <= n -> load_bigint (range s) (cell s) n true = Ok (z, r) ->
    within s (set_range r s);
  load_reference_within : forall s c s', slice_load_reference s = Ok (c, s') ->
    c ∈ slice_references s /\ within s s';
  load_opt_within : forall s o s', load_opt_cell s = Ok (o, s') ->
    (forall c, o = Some c -> c ∈ slice_references s) /\ within s s';
  as_slice_full : forall c s, as_slice c = Ok s -> s = new_allow_exotic c;
  (** Cells are trees. *)
  kid_depth_nonneg : forall c, 0 <= repr_depth c;
  kid_depth : forall c s d, (s = new_allow_exotic c \/ exists i, Ok (i, s) ∈ dict_iter (Some c)) ->
    d ∈ slice_references s -> 0 <= repr_depth d < repr_depth c;
  iter_none : dict_iter None = []
}.
End Laws.

Section Ends.
Context `{SeL : SerialLib} `{CLaws : !CellLaws} `{LLaws : !LoadLaws}.
Implicit Types (s x : OwnedCellSlice).

(** ** Parsers that end *)

Section Tame.
Context (J : OwnedCellSlice -> Prop).
Hypothesis J_within : forall x x', J x -> within x x' -> J x'.
Hypothesis J_kid : forall x k, J x -> kid x k -> J k.

(** From a slice in [J] the parser [p] does not run out of fuel and leaves a part of the
    slice; and [q], the same parser with other fuel, does the same. *)
Definition tame {A} (Q : A -> Prop) (p q : Parser A) : Prop :=
  forall x, J x -> p x = q x /\ match p x with
                                | (Ok a, x') => within x x' /\ Q a
                                | (Err e, _) => e <> None
                                end.
Definition any {A} (a : A) : Prop := True.

(** A cell whose slices are in [J]. *)
Definition cell_in (c : Cell) : Prop :=
  J (new_allow_exotic c) /\ forall i s, Ok (i, s) ∈ dict_iter (Some c) -> J s.

Lemma tame_bind {A B} (Q : A -> Prop) (Q' : B -> Prop) p q k h :
  tame Q p q -> (forall a, Q a -> tame Q' (k a) (h a)) -> tame Q' (bind p k) (bind q h).
Proof.
  intros Hp Hk x Hx. destruct (Hp x Hx) as [E H]. unfold bind. rewrite <- E. destruct (p x) as [[a|e] x']; [|done].
  destruct H as [Hw Ha]. destruct (Hk a Ha x' (J_within _ _ Hx Hw)) as [<- H'].
  destruct (k a x') as [[b|e] x'']; [|done]. destruct H' as [Hw' Hb]. split; [done|]. split; [by etrans | done].
Qed.

Lemma tame_same {A} (Q : A -> Prop) p : (forall x, J x -> match p x with
    (Ok a, x') => within x x' /\ Q a | (Err e, _) => e <> None end) -> tame Q p p.
Proof. intros H x Hx. split; [done | by apply H]. Qed.

Lemma tame_ret {A} (Q : A -> Prop) a : Q a -> tame Q (ret a) (ret a).
Proof. intros Ha x Hx. by split. Qed.
Lemma tame_fail {A} (Q : A -> Prop) e : tame Q (fail_with e) (fail_with e).
Proof. intros x Hx. done. Qed.
Lemma tame_ensure c e : tame any (ensure c (Some e)) (ensure c (Some e)).
Proof. intros x Hx. by destruct c. Qed.
Lemma tame_gets {A} (f : OwnedCellSlice -> A) : tame any (gets f) (gets f).
Proof. intros x Hx. by split. Qed.
Lemma tame_of_result {A} (r : result Error A) :
  tame any (of_result (match r with Ok a => Ok a | Err e => Err (Some e) end))
    (of_result (match r with Ok a => Ok a | Err e => Err (Some e) end)).
Proof. intros x Hx. by destruct r. Qed.

Lemma tame_uint n : 0 <= n -> tame any (p_uint n) (p_uint n).
Proof.
  intros Hn. apply tame_same. intros x Hx. unfold p_uint, parse. destruct (slice_load_uint x n) as [[v x']|e] eqn:E; [|done].
  split; [by eapply load_uint_within | done].
Qed.
Lemma tame_peek n : tame any (p_peek n) (p_peek n).
Proof. apply tame_same. intros x Hx. unfold p_peek, parse. by destruct (get_uint _ _ _ _). Qed.
Lemma tame_skip n : 0 <= n -> tame any (p_skip n) (p_skip n).
Proof.
  intros Hn. apply tame_same. intros x Hx. unfold p_skip, parse. destruct (slice_skip_first x n 0) as [x'|] eqn:E; [|done].
  split; [by eapply skip_within | done].
Qed.
Lemma tame_bigint n : 0 <= n -> tame any (p_bigint n) (p_bigint n).
Proof.
  intros Hn. apply tame_same. intros x Hx. unfold p_bigint, parse.
  destruct (load_bigint _ _ _ _) as [[z r]|] eqn:E; [|done]. split; [by eapply load_bigint_within | done].
Qed.

Lemma J_cell x c : J x -> c ∈ slice_references x -> cell_in c.
Proof. intros Hx Hc. split; [|intros i s Hi]; eapply J_kid; try exact Hx; exists c; eauto. Qed.

Lemma tame_reference : tame cell_in p_reference p_reference.
Proof.
  apply tame_same. intros x Hx. unfold p_reference, parse. destruct (slice_load_reference x) as [[c x']|] eqn:E; [|done].
  apply load_reference_within in E as [Hc Hw]. split; [done | by eapply J_cell].
Qed.
Lemma tame_opt_cell : tame (fun o => forall c, o = Some c -> cell_in c) p_opt_cell p_opt_cell.
Proof.
  apply tame_same. intros x Hx. unfold p_opt_cell, parse. destruct (load_opt_cell x) as [[o x']|] eqn:E; [|done].
  apply load_opt_within in E as [Hc Hw]. split; [done|]. intros c Ec. eapply J_cell; eauto.
Qed.

Lemma tame_slice {A} (Q : A -> Prop) p q s : tame Q p q -> J s -> tame Q (parse_slice p s) (parse_slice q s).
Proof.
  intros Hp Hs x Hx. destruct (Hp s Hs) as [E H]. unfold parse_slice. rewrite <- E.
  destruct (p s) as [[a|e] s']; cbn; [|done]. by destruct H.
Qed.
Lemma tame_cell {A} (Q : A -> Prop) p q c : tame Q p q -> cell_in c -> tame Q (parse_cell p c) (parse_cell q c).
Proof.
  intros Hp [Hc _] x Hx. unfold parse_cell. destruct (as_slice c) as [s|e] eqn:E; [|done].
  apply as_slice_full in E as ->. rewrite !(bind_ok _ _ x (new_allow_exotic c) x) by done. by apply tame_slice.
Qed.

(** Binds one after the other; [any] where nothing is needed of a value. *)
Ltac tame_step :=
  match goal with
  | |- tame _ (bind p_reference _) _ => eapply tame_bind; [apply tame_reference|intros ? ?]
  | |- tame _ (bind _ _) _ => apply (tame_bind any); [|intros ? _]
  | |- tame _ (ret _) _ => apply tame_ret
  | |- tame _ (p_uint _) _ => apply tame_uint; lia
  | |- tame _ (p_peek _) _ => apply tame_peek
  | |- tame _ (p_skip _) _ => apply tame_skip; lia
  | |- tame _ (p_bigint _) _ => apply tame_bigint; lia
  | |- tame _ (ensure _ _) _ => apply tame_ensure
  | |- tame _ (fail_with _) _ => apply tame_fail
  | |- tame _ (of_result _) _ => apply tame_of_result
  | |- any _ => exact I
  | |- tame _ (if ?c then _ else _) _ => destruct c
  end.

Lemma tame_empty : tame any ensure_empty_slice ensure_empty_slice.
Proof. unfold ensure_empty_slice. apply (tame_bind any); [apply tame_gets|]. intros e _. apply tame_ensure. Qed.

Lemma tame_range : tame any load_slice_as_stack_value load_slice_as_stack_value.
Proof. unfold load_slice_as_stack_value. repeat (cbn zeta; tame_step). Qed.

Lemma tame_bit : tame any p_bit p_bit.
Proof. unfold p_bit. repeat tame_step. Qed.

Lemma tame_opt {A} (p q : Parser A) : tame any p q -> tame any (load_opt p) (load_opt q).
Proof. intros Hp. unfold load_opt. repeat (apply tame_bit || apply Hp || tame_step). Qed.

Section Recursive.
Context (lv lv' : Parser value) (lc lc' : Parser cont) (Hv : tame any lv lv') (Hc : tame any lc lc').

Ltac tame_go := repeat (apply Hv || apply Hc || apply tame_empty || apply tame_range || apply tame_bit || tame_step).

Lemma tame_from_cell c : cell_in c -> tame any (load_from_cell lv c) (load_from_cell lv' c).
Proof. intros Hin. apply tame_cell; [tame_go | done]. Qed.

Lemma tame_items n head t : cell_in head ->
  tame (fun r => cell_in r.1) (load_items lv n head t) (load_items lv' n head t).
Proof.
  revert head t. induction n as [|n IH]; intros head t Hh; cbn [load_items]; [by apply tame_ret|].
  apply (tame_bind (fun r => cell_in r.1 /\ cell_in r.2)).
  - apply tame_cell; [|done]. do 2 tame_step. tame_step; [apply tame_empty|]. by apply tame_ret.
  - intros [h c] [Hh' Hc']. apply (tame_bind any); [by apply tame_from_cell|]. intros v _. by apply IH.
Qed.

Lemma tame_tuple : tame any (load_tuple lv) (load_tuple lv').
Proof.
  unfold load_tuple. apply (tame_bind any); [tame_step|]. intros len _.
  destruct len as [|[p|p|]|p]; [by apply tame_ret | | | | ].
  3: tame_step; apply (tame_bind any); [by apply tame_from_cell|]; intros v _; by apply tame_ret.
  all: do 2 tame_step; (apply (tame_bind any); [by apply tame_from_cell|]); intros v _;
    (eapply tame_bind; [by apply tame_items|]); intros [h t] Hh; (apply (tame_bind any); [by apply tame_from_cell|]);
    intros w _; by apply tame_ret.
Qed.

Lemma tame_value_of ty : tame any (load_value_of lv lc ty) (load_value_of lv' lc' ty).
Proof.
  unfold load_value_of. destruct ty as [|p|p]; [by apply tame_ret| |apply tame_fail].
  repeat (destruct p as [p|p|]; try apply tame_fail);
    repeat (apply Hv || apply Hc || apply tame_empty || apply tame_range || apply tame_tuple || tame_step).
Qed.

Lemma tame_stack_items n rest l : cell_in rest ->
  tame (fun r => cell_in r.1) (load_stack_items lv n rest l) (load_stack_items lv' n rest l).
Proof.
  revert rest l. induction n as [|n IH]; intros rest l Hr; cbn [load_stack_items]; [by apply tame_ret|].
  apply (tame_bind (fun r => cell_in r.1)).
  - apply tame_cell; [|done]. tame_step. tame_step; [apply Hv|]. tame_step; [apply tame_empty|]. by apply tame_ret.
  - intros [r v] Hr'. by apply IH.
Qed.

Lemma tame_stack : tame any (load_stack lv) (load_stack lv').
Proof.
  unfold load_stack. tame_step; [tame_step|]. tame_step; [by apply tame_ret|]. tame_step. tame_step; [apply Hv|].
  tame_step; [|by apply tame_ret]. eapply tame_bind; [by apply tame_stack_items|]. intros [r l] Hr.
  tame_step; [apply tame_cell; [apply tame_empty | done]|]. by apply tame_ret.
Qed.

Lemma tame_regs entries r : (forall i s, Ok (i, s) ∈ entries -> J s) ->
  tame any (load_regs lv entries r) (load_regs lv' entries r).
Proof.
  revert r. induction entries as [|[[i s]|e] entries IH]; intros r Hin; cbn [load_regs]; [by apply tame_ret| |apply tame_fail].
  apply (tame_bind any).
  - apply tame_slice; [tame_go|]. apply (Hin i). by apply elem_of_cons; left.
  - intros v _. destruct (Regs.set i v r) as [[u|e] r']; [|apply tame_fail]. apply IH. intros j t Ht.
    apply (Hin j). by apply elem_of_cons; right.
Qed.

Lemma tame_control_regs : tame any (load_control_regs lv) (load_control_regs lv').
Proof.
  unfold load_control_regs. eapply tame_bind; [apply tame_opt_cell|]. intros [c|] Hin; apply tame_regs; intros i s Hi.
  - destruct (Hin c eq_refl) as [_ Hk]. by apply (Hk i).
  - rewrite iter_none in Hi. by apply not_elem_of_nil in Hi.
Qed.

Lemma tame_data : tame any (load_control_data lv) (load_control_data lv').
Proof.
  unfold load_control_data. tame_step; [apply tame_opt; tame_go|]. tame_step; [apply tame_opt, tame_stack|].
  tame_step; [apply tame_control_regs|]. tame_step; [apply tame_opt; tame_go|]. by apply tame_ret.
Qed.

(** ** The first bits

    A value and a continuation begin with a tag; what follows it is in [J] when every
    part of the slice with fewer bits is. *)

Definition settled {A} (p q : Parser A) (x : OwnedCellSlice) : Prop :=
  p x = q x /\ match p x with (Ok _, x') => within x x' | (Err e, _) => e <> None end.

Context (x : OwnedCellSlice) (Hx : forall x', within x x' -> slice_bits x' < slice_bits x -> J x').

Lemma settled_uint {A} n (k h : Z -> Parser A) : 0 < n -> (forall v, tame any (k v) (h v)) ->
  settled (bind (p_uint n) k) (bind (p_uint n) h) x.
Proof.
  intros Hn Hk. unfold settled, bind, p_uint, parse. destruct (slice_load_uint x n) as [[v x']|e] eqn:E; [|done].
  apply load_uint_within in E as [Hw Hb]; [|lia]. destruct (Hk v x' (Hx x' Hw ltac:(lia))) as [<- H].
  destruct (k v x') as [[a|e] x'']; [|done]. split; [done|]. etrans; [exact Hw | by destruct H].
Qed.

Lemma settled_tag {A} n tag (p q : Parser A) : 0 < n -> tame any p q ->
  settled (p_tag n tag ;; p) (p_tag n tag ;; q) x.
Proof.
  intros Hn Hp. destruct (settled_uint n (fun t => ensure (t =? tag) (Some InvalidTag) ;; p)
    (fun t => ensure (t =? tag) (Some InvalidTag) ;; q) Hn) as [E H].
  { intros v. apply (tame_bind any); [apply tame_ensure | by intros _ _]. }
  assert (forall r : Parser A, (p_tag n tag ;; r) x = (let* t := p_uint n in ensure (t =? tag) (Some InvalidTag) ;; r) x) as Ha.
  { intros r. unfold p_tag, bind. by destruct (p_uint n x) as [[] ?]. }
  unfold settled. by rewrite !Ha.
Qed.

Lemma settled_kind k : settled (load_kind lv lc k) (load_kind lv' lc' k) x.
Proof.
  destruct k as [|p|p]; [| |done]; [|repeat (destruct p as [p|p|]; try done)];
    (apply settled_tag; [done|]); repeat (apply tame_data || apply Hv || apply Hc || apply tame_range || apply tame_bit || tame_step).
Qed.

(** The kind is decided without loading anything. *)
Lemma cont_turn_kind : exists r : result (option Error) Z, r <> Err None /\
  forall lv lc, load_cont_turn lv lc x = match r with Ok k => load_kind lv lc k x | Err e => (Err e, x) end.
Proof.
  assert (forall n, exists r, p_peek n x = (r, x) /\ r <> Err None) as Hp.
  { intros n. unfold p_peek, parse. destruct (get_uint _ _ _ _); eexists; split; done. }
  unfold load_cont_turn, bind, gets, ret. destruct (slice_bits x <? 6).
  - destruct (Hp (slice_bits x)) as ([n|e] & E & He); rewrite E.
    + by exists (Ok (cont_kind (Z.shiftl n (6 - slice_bits x)))).
    + exists (Err e). split; [congruence | done].
  - destruct (Hp 6) as ([n|e] & E & He); rewrite E; [by exists (Ok (cont_kind n))|].
    exists (Err e). split; [congruence | done].
Qed.

Lemma settled_cont : settled (load_cont_turn lv lc) (load_cont_turn lv' lc') x.
Proof.
  destruct cont_turn_kind as ([k|e] & He & E); unfold settled; rewrite !E; [apply settled_kind|].
  split; [done|congruence].
Qed.

Lemma settled_value : settled (load_value_turn lv lc) (load_value_turn lv' lc') x.
Proof. apply settled_uint; [done|]. intros ty. apply tame_value_of. Qed.
End Recursive.
End Tame.

(** ** Enough fuel *)

Definition step x (y : OwnedCellSlice) : Prop := within x y \/ kid x y.

Lemma kid_within x y (k : OwnedCellSlice) : within x y -> kid y k -> kid x k.
Proof. intros [_ H] (c & Hc & Hk). exists c. auto. Qed.

Lemma reach_cases s x : rtc step s x -> within s x \/ exists k, kid s k /\ rtc step k x.
Proof.
  induction 1 as [x|x y z Hxy Hyz IH]; [by left|].
  destruct Hxy as [Hw|Hk]; [|right; by exists y]. destruct IH as [Hw'|(k & Hk & Hkz)].
  - left. by etrans.
  - right. exists k. split; [by eapply kid_within | done].
Qed.

(** A bound for every element of a list is a bound for the list. *)
Lemma list_bound {A} (l : list A) (P : A -> nat -> Prop) :
  (forall a, a ∈ l -> exists F, forall f, (F <= f)%nat -> P a f) ->
  exists F, forall a f, a ∈ l -> (F <= f)%nat -> P a f.
Proof.
  induction l as [|a l IH]; intros H; [exists O; by intros a f []%not_elem_of_nil|].
  destruct (H a) as [F1 H1]; [by apply elem_of_cons; left|].
  destruct IH as [F2 H2]; [intros b Hb; apply H; by apply elem_of_cons; right|].
  exists (Nat.max F1 F2). intros b f [->|Hb]%elem_of_cons Hf; [apply H1; lia | apply H2; [done|lia]].
Qed.

Definition ok_entry (e : result Error (Z * OwnedCellSlice)) : option OwnedCellSlice :=
  match e with Ok e => Some e.2 | Err _ => None end.
Definition kids s : list OwnedCellSlice :=
  c ← slice_references s; new_allow_exotic c :: omap ok_entry (dict_iter (Some c)).

Lemma elem_of_kids s k : kid s k <-> k ∈ kids s.
Proof.
  unfold kids. rewrite list_elem_of_bind. split.
  - intros (c & Hc & Hk). exists c. split; [|done]. destruct Hk as [->|[i Hi]]; [by apply elem_of_cons; left|].
    apply elem_of_cons; right. apply list_elem_of_omap. by exists (Ok (i, k)).
  - intros (c & Hk & Hc). exists c. split; [done|]. apply elem_of_cons in Hk as [->|Hk]; [by left|right].
    apply list_elem_of_omap in Hk as ([[i s']|e] & Hi & E); [|done]. injection E as ->. by exists i.
Qed.

(** The result with fuel [f] is final. *)
Definition final (f : nat) x : Prop :=
  (forall f', (f <= f')%nat -> settled (load_stack_value f) (load_stack_value f') x) /\
  (forall f', (f <= f')%nat -> settled (load_cont f) (load_cont f') x).

(** One more turn: with fuel for every shorter part of the slice and for the slices below. *)
Lemma final_turn s F m x f :
  (forall k y g, kid s k -> rtc step k y -> (F <= g)%nat -> final g y) ->
  (forall y g, within s y -> (Z.to_nat (slice_bits y) < m)%nat -> (F + m <= g)%nat -> final g y) ->
  within s x -> (Z.to_nat (slice_bits x) <= m)%nat -> (F + m <= f)%nat -> final (S f) x.
Proof.
  intros Hk Hs Hw Hm Hf.
  set (J := fun y => (within s y /\ slice_bits y < slice_bits x) \/ exists k, kid s k /\ rtc step k y).
  assert (forall y y', J y -> within y y' -> J y') as HJw.
  { intros y y' [[Hy Hb]|(k & Hsk & Hky)] Hyy'.
    - left. split; [by etrans|]. destruct Hyy'. lia.
    - right. exists k. split; [done|]. eapply rtc_r; [done|]. by left. }
  assert (forall y k, J y -> kid y k -> J k) as HJk.
  { intros y k [[Hy _]|(k' & Hsk & Hky)] Hyk; right.
    - exists k. split; [by eapply kid_within | done].
    - exists k'. split; [done|]. eapply rtc_r; [done|]. by right. }
  assert (forall y, J y -> final f y) as HJf.
  { intros y [[Hy Hb]|(k & Hsk & Hky)].
    - apply Hs; [done| |lia]. pose proof (size_bits_nonneg (range y)). unfold slice_bits in *. lia.
    - eapply Hk; [done..|lia]. }
  assert (forall x', within x x' -> slice_bits x' < slice_bits x -> J x') as HJx.
  { intros x' Hx' Hb. left. split; [by etrans | done]. }
  assert (forall f', (f <= f')%nat -> tame J any (load_stack_value f) (load_stack_value f')) as Hv.
  { intros f' Hf' y Hy. destruct (proj1 (HJf y Hy) f' Hf') as [E H]. split; [done|].
    by destruct (load_stack_value f y) as [[] ?]. }
  assert (forall f', (f <= f')%nat -> tame J any (load_cont f) (load_cont f')) as Hc.
  { intros f' Hf' y Hy. destruct (proj2 (HJf y Hy) f' Hf') as [E H]. split; [done|].
    by destruct (load_cont f y) as [[] ?]. }
  split; intros [|f'] Hf'; try lia.
  - apply (settled_value J HJw HJk _ _ _ _ (Hv f' ltac:(lia)) (Hc f' ltac:(lia)) x HJx).
  - apply (settled_cont J HJw HJk _ _ _ _ (Hv f' ltac:(lia)) (Hc f' ltac:(lia)) x HJx).
Qed.

Lemma enough_above s F : (forall k y g, kid s k -> rtc step k y -> (F <= g)%nat -> final g y) ->
  forall x f, rtc step s x -> (S (F + Z.to_nat (slice_bits s)) <= f)%nat -> final f x.
Proof.
  intros HF x f Hx Hf. destruct (reach_cases s x Hx) as [Hw|(k & Hsk & Hkx)]; [|eapply HF; [done..|lia]].
  assert (forall m y g, within s y -> (Z.to_nat (slice_bits y) <= m)%nat -> (S (F + m) <= g)%nat -> final g y) as H.
  { induction m as [|m IH]; intros y [|g] Hy Hb Hg; try lia; eapply (final_turn s F); eauto; try lia.
    intros z h Hz Hbz Hh. apply IH; [done|lia..]. }
  apply (H _ x f Hw (Nat.le_refl _)). destruct Hw as [Hb _]. pose proof (size_bits_nonneg (range x)).
  unfold slice_bits in *. lia.
Qed.

Lemma enough_fuel n : forall s, (forall c, c ∈ slice_references s -> 0 <= repr_depth c < Z.of_nat n) ->
  exists F, forall x f, rtc step s x -> (F <= f)%nat -> final f x.
Proof.
  induction n as [|n IH]; intros s Hd.
  - exists (S (0 + Z.to_nat (slice_bits s))). apply enough_above. intros k y g (c & Hc & _). specialize (Hd c Hc). lia.
  - destruct (list_bound (kids s) (fun k g => forall y, rtc step k y -> final g y)) as [F HF].
    + intros k (c & Hc & Hk)%elem_of_kids. specialize (Hd c Hc).
      destruct (IH k) as [F HF]; [|by exists F; eauto].
      intros d Hdk. pose proof (kid_depth c k d Hk Hdk). lia.
    + exists (S (F + Z.to_nat (slice_bits s))). apply enough_above.
      intros k y g Hk%elem_of_kids Hky Hg. by apply (HF k g Hk Hg).
Qed.

(** C31: Loading a value or a continuation ends on every slice, whatever it holds: there is
    fuel that is enough, and more fuel gives the same result and leaves the same slice. *)
Theorem loading_ends (s : OwnedCellSlice) :
  exists F, forall f, (F <= f)%nat ->
    (load_stack_value f s).1 <> Err None /\ load_stack_value f s = load_stack_value F s /\
    (load_cont f s).1 <> Err None /\ load_cont f s = load_cont F s.
Proof.
  destruct (list_bound (slice_references s) (fun c n => 0 <= repr_depth c -> repr_depth c < Z.of_nat n)) as [n Hn].
  { intros c _. exists (S (Z.to_nat (repr_depth c))). intros f Hf H0. lia. }
  destruct (enough_fuel n s) as [F HF].
  { intros c Hc. pose proof (kid_depth_nonneg c). split; [done|]. by apply (Hn c n Hc (Nat.le_refl _)). }
  exists F. intros f Hf. destruct (HF s F (rtc_refl _ _) (Nat.le_refl _)) as [Hv Hc].
  destruct (Hv f Hf) as [Ev Nv]. destruct (Hc f Hf) as [Ec Nc]. rewrite <- Ev, <- Ec.
  destruct (load_stack_value F s) as [[v|e] s1], (load_cont F s) as [[c|e'] s2]; cbn; repeat split; congruence.
Qed.
End Ends.
