(* ===== verification/Dump.v ===== *)
(** * Dumping opcodes (the feature dump of dispatch.rs)

    [DispatchTable::dispatch_dump] decodes one instruction of a code slice and tells a
    visitor, the trait [DumpOutput], its gas, its text and the cells and slices it refers
    to.  The macro of vm-proc gives each instruction a dump function that formats its
    arguments. *)

From Stdlib Require Import Ascii String.
From S2P Require Import Prelude External Cells Values VmStack VmGas VmRegs VmState VmProc Dispatch.
From S2P Require Import Tokenizer Codepage.

Open Scope vm_scope.

(** ** What [format_args!] displays *)

(** [{}] of [HashBytes] and [{:X}] of [CellSlice::display_data()]. *)
Class DisplayLib `{SL : SliceLib} := {
  display_hash : HashBytes -> Text;
  display_data : OwnedCellSlice -> Text
}.

(** A displayed value: characters, integers and the texts of external types. *)
Inductive Piece :=
| PChar (c : ascii)
| PNum (z : Z)
| PText (t : Text).
Abbreviation Display := (list Piece).

Definition show_piece (p : Piece) : Text :=
  match p with PChar c => [c] | PNum z => show_int z | PText t => t end.
Definition show (d : Display) : Text := flat_map show_piece d.

(** A literal. *)
Definition str (s : string) : Display := map PChar (lit s).

(** A format string whose holes name integers, by one letter as in the attributes. *)
Fixpoint format (f : string) (vals : string -> Z) : Display :=
  match f with
  | EmptyString => []
  | String "{" (String x (String "}" f)) => PNum (vals (String x EmptyString)) :: format f vals
  | String c f => PChar c :: format f vals
  end.

(** [args(x = v)]: the other arguments are those of the word. *)
Definition with_arg (x : string) (v : Z) (vals : string -> Z) : string -> Z :=
  fun y => if (y =? x)%string then v else vals y.

(** ** The visitor *)

Inductive DumpError :=
| InvalidCode (e : Error)
| DumpInvalidOpcode
| CellMismatch
| WriterError
| DumpPanic.

Class DumpOutput `{CL : CellLib} (S : Type) := {
  record_gas : Z -> MS S DumpError unit;
  record_opcode : Display -> MS S DumpError unit;
  record_cell : Cell -> MS S DumpError unit;
  record_slice : OwnedCellSlice -> MS S DumpError unit;
  record_cont : Cell -> MS S DumpError unit;
  record_cont_slice : OwnedCellSlice -> MS S DumpError unit;
  record_dict : Z -> OwnedCellSlice -> MS S DumpError unit
}.

Section Dump.
Context `{SL : SliceLib} {S : Type} `{DO : !DumpOutput S}.

(** A dump works on the code slice it is given and on the visitor. *)
Definition DumpM (A : Type) : Type := MS (OwnedCellSlice * S) DumpError A.

Definition visit (m : MS S DumpError unit) : DumpM unit := zoom snd (fun s st => (st.1, s)) m.
(** An operation of [CellSlice] on the code, with [?]. *)
Definition on_slice {A} (f : OwnedCellSlice -> result Error (A * OwnedCellSlice)) : DumpM A := fun st =>
  match f st.1 with
  | Ok (a, s) => (Ok a, (s, st.2))
  | Err e => (Err (InvalidCode e), st)
  end.
(** [code.skip_first(bits, refs)?]. *)
Definition dump_skip (bits refs : Z) : DumpM unit :=
  on_slice (fun s => match slice_skip_first s bits refs with Ok s => Ok (tt, s) | Err e => Err e end).
(** [code.load_reference_cloned()?]. *)
Definition dump_load_reference : DumpM Cell := on_slice slice_load_reference.

(** ** Opcodes *)

Inductive DumpOpcode :=
| DumpDummy (opcode_min opcode_max : Z)
| DumpSimple (f : DumpM unit) (opcode_min opcode_max opcode_bits : Z)
| DumpFixed (f : Z -> DumpM unit) (opcode_min opcode_max total_bits : Z)
| DumpFull (f : Z -> Z -> DumpM unit) (opcode_min opcode_max total_bits : Z).

Definition dump_range (op : DumpOpcode) : Z * Z :=
  match op with
  | DumpDummy min max | DumpSimple _ min max _ | DumpFixed _ min max _ | DumpFull _ min max _ => (min, max)
  end.

(** [OpcodeDump::dump]. *)
Definition op_dump (op : DumpOpcode) (opcode bits : Z) : DumpM unit :=
  match op with
  | DumpDummy _ _ => raise DumpInvalidOpcode
  | DumpSimple f _ _ opcode_bits =>
      if opcode_bits <=? bits then
        visit (record_gas (opcode_gas opcode_bits)) ;;
        dump_skip opcode_bits 0 ;;
        f
      else raise DumpInvalidOpcode
  | DumpFixed f _ _ total_bits =>
      if total_bits <=? bits then
        visit (record_gas (opcode_gas total_bits)) ;;
        dump_skip total_bits 0 ;;
        f (Z.shiftr opcode (MAX_OPCODE_BITS - total_bits))
      else raise DumpInvalidOpcode
  | DumpFull f _ _ total_bits =>
      if total_bits <=? bits then
        visit (record_gas (opcode_gas total_bits)) ;;
        f (Z.shiftr opcode (MAX_OPCODE_BITS - total_bits)) total_bits
      else raise DumpInvalidOpcode
  end.

Definition DumpTable : Type := list (Z * DumpOpcode).

Definition add_dump_opcode (op : DumpOpcode) (t : DumpTable) : option DumpTable :=
  add_opcode_impl dump_range op t.

(** ** Registration: what the macro generates for an attribute *)

(** [op] with a literal, with a format of the arguments and with a condition; [op_ext] and
    [op_ext_range] with the function of [dump_with]. *)
Inductive DumpDef :=
| Dump0 (code : string) (name : string)
| Dump (code : string) (fmt : (string -> Z) -> Z -> Display)
| DumpCond (code : string) (cond : (string -> Z) -> Z -> bool) (fmt : (string -> Z) -> Z -> Display)
| DumpExt (code code_bits arg_bits : Z) (f : Z -> Z -> DumpM unit)
| DumpExtRange (code_min code_max total_bits : Z) (f : Z -> Z -> DumpM unit).

(** The opcode of a pattern, with its generated dump function. *)
Definition dump_pattern (code : string) (f : (string -> Z) -> Z -> DumpM unit) : option DumpOpcode :=
  match compile_pattern code with
  | None => None
  | Some p =>
      let dump (w : Z) : DumpM unit := f (by_name (args p) w) w in
      Some match pattern_ty p with
      | Simple opcode bits => DumpSimple (dump 0) (aligned opcode bits) (aligned (opcode + 1) bits) bits
      | Fixed opcode bits n => DumpFixed dump (aligned opcode bits) (aligned (opcode + 1) bits) (bits + n)
      | FixedRange lo hi n _ => DumpFixed dump (aligned lo n) (aligned hi n) n
      end
  end.

Definition dump_opcode (d : DumpDef) : option DumpOpcode :=
  match d with
  | Dump0 code name => dump_pattern code (fun _ _ => visit (record_opcode (str name)))
  | Dump code fmt => dump_pattern code (fun a w => visit (record_opcode (fmt a w)))
  | DumpCond code cond fmt =>
      dump_pattern code (fun a w =>
        if negb (cond a w) then raise DumpInvalidOpcode else visit (record_opcode (fmt a w)))
  | DumpExt code bits n f => Some (DumpFull f (aligned code bits) (aligned (code + 1) bits) (bits + n))
  | DumpExtRange lo hi n f => Some (DumpFull f (aligned lo n) (aligned hi n) n)
  end.

Fixpoint init_dumps (defs : list DumpDef) (t : DumpTable) : option DumpTable :=
  match defs with
  | [] => Some t
  | d :: defs =>
      match dump_opcode d with
      | Some op => match add_dump_opcode op t with Some t => init_dumps defs t | None => None end
      | None => None
      end
  end.
Definition build_dumps (t : DumpTable) : DumpTable := build_opcodes dump_range DumpDummy t.

(** ** [DispatchTable::dispatch_dump] *)

Definition lookup_dump (table : DumpTable) (opcode : Z) : option DumpOpcode := lookup_impl opcode table.

Definition dispatch_dump (table : DumpTable) : DumpM unit := fun st =>
  match get_opcode_from_slice st.1 with
  | Ok (opcode, bits) =>
      match lookup_dump table opcode with
      | Some op => op_dump op opcode bits st
      | None => (Err DumpPanic, st)
      end
  | Err _ => (Err DumpPanic, st)
  end.
End Dump.
