(* ===== verification/DumpOps.v ===== *)
(** * The dumps of code page 0 (the attributes [fmt] and [dump_with] of instr/*.rs)

    The text of every instruction, in the order of the tables of Codepage.v, the [Display]
    implementations the texts use, and the dump functions of the instructions with
    references or constants in the code. *)

From Stdlib Require Import Ascii String.
From S2P Require Import Prelude External Cells Values VmStack VmGas VmRegs VmState Dispatch.
From S2P Require Import ContOps CellOps VmProc Tokenizer Codepage Dump.

Open Scope vm_scope.

(** ** [Display] implementations *)

Section Displays.
#[local] Open Scope string_scope.
#[local] Open Scope Z_scope.
#[local] Open Scope list_scope.
#[local] Open Scope vm_scope.

(** [arithops.rs]: the suffix of the rounding mode. *)
Definition rounding_suffix (m : Z) : string :=
  match Z.land m 3 with 1 => "R" | 2 => "C" | _ => "" end.

Definition dump_divmod (m : Z) : Display :=
  match Z.land (Z.shiftr m 2) 3 with
  | 0 => str "ADDDIVMOD" ++ str (rounding_suffix m)
  | 1 => str "DIV" ++ str (rounding_suffix m)
  | 2 => str "MOD" ++ str (rounding_suffix m)
  | 3 => str "DIVMOD" ++ str (rounding_suffix m)
  | _ => str "DIV/MOD"
  end.

(** The shift [y] in the low byte of [m], when it is immediate. *)
Definition immediate_shift (imm : bool) (m : Z) : option Z * Z :=
  if imm then (Some (Z.land m 0xff + 1), Z.shiftr m 8) else (None, m).

Definition dump_shr (m : Z) (imm : bool) : Display :=
  let (y, m) := immediate_shift imm m in
  let parts :=
    match Z.land (Z.shiftr m 2) 3 with
    | 0 => Some ("ADDRSHIFT", "MOD")
    | 1 => Some ("RSHIFT", "")
    | 2 => Some ("MODPOW2", "")
    | 3 => Some ("RSHIFT", "MOD")
    | _ => None
    end in
  match parts with
  | None => str "SHR/MOD"
  | Some (start, end_) =>
      let mode := rounding_suffix m in
      match y with
      | Some y => str start ++ str mode ++ str "#" ++ str end_ ++ str " " ++ [PNum y]
      | None => str start ++ str end_ ++ str mode
      end
  end.

Definition dump_shl (m : Z) (imm : bool) : Display :=
  let (y, m) := immediate_shift imm m in
  let op :=
    match Z.land (Z.shiftr m 2) 3 with
    | 0 => Some "ADDDIVMOD"
    | 1 => Some "DIV"
    | 2 => Some "MOD"
    | 3 => Some "DIVMOD"
    | _ => None
    end in
  match op with
  | None => str "SHLDIV/MOD"
  | Some op =>
      let mode := rounding_suffix m in
      match y with
      | Some y => str "LSHIFT#" ++ str op ++ str mode ++ str " " ++ [PNum y]
      | None => str "LSHIFT" ++ str op ++ str mode
      end
  end.

(** [cellops.rs]. *)
Definition display_store_le (args : Z) : Display :=
  let sign := if flag args 1 then "U" else "I" in
  let bytes := if flag args 2 then "8" else "4" in
  str "ST" ++ str sign ++ str "LE" ++ str bytes.
Definition display_store_int (x : bool) (args : Z) : Display :=
  let sign := if flag args 1 then "U" else "I" in
  let x := if x then "X" else "" in
  let rev := if flag args 2 then "R" else "" in
  let quiet := if flag args 4 then "Q" else "" in
  str "ST" ++ str sign ++ str x ++ str rev ++ str quiet.
Definition display_load_le (args : Z) : Display :=
  let prefetch := if flag args 4 then "P" else "" in
  let sign := if flag args 1 then "U" else "I" in
  let bytes := if flag args 2 then "8" else "4" in
  let quiet := if flag args 8 then "Q" else "" in
  str prefetch ++ str "LD" ++ str sign ++ str "LE" ++ str bytes ++ str quiet.
Definition display_load_int (x : bool) (args : Z) : Display :=
  let prefetch := if flag args 2 then "P" else "" in
  let sign := if flag args 1 then "U" else "I" in
  let x := if x then "X" else "" in
  let quiet := if flag args 4 then "Q" else "" in
  str prefetch ++ str "LD" ++ str sign ++ str x ++ str quiet.
Definition display_load_slice (x : bool) (args : Z) : Display :=
  let prefetch := if flag args 1 then "P" else "" in
  let x := if x then "X" else "" in
  let quiet := if flag args 2 then "Q" else "" in
  str prefetch ++ str "LDSLICE" ++ str x ++ str quiet.

(** [contops.rs]. *)
Definition display_throw_any (x : Z) : Display :=
  let arg := if has_param x then "ARG" else "" in
  let cond := if has_cond x then if throw_cond x then "IF" else "IFNOT" else "" in
  str "THROW" ++ str arg ++ str "ANY" ++ str cond.

(** [dictops.rs]. *)
Definition int_kind (is_int is_unsigned : bool) : string :=
  if is_int then if is_unsigned then "U" else "I" else "".
Definition display_dict_op (b : bool) (name : string) (args : Z) : Display :=
  let suffix := if b then "B" else if flag args 1 then "REF" else "" in
  str "DICT" ++ str (int_kind (flag args 4) (flag args 2)) ++ str name ++ str suffix.
Definition display_short_dict_op (name : string) (args : Z) : Display :=
  str "DICT" ++ str (int_kind (flag args 2) (flag args 1)) ++ str name.
Definition display_get_near (args : Z) : Display :=
  let dir := if flag args 2 then "PREV" else "NEXT" in
  let eq := if flag args 1 then "EQ" else "" in
  str "DICT" ++ str (int_kind (flag args 8) (flag args 4)) ++ str "GET" ++ str dir ++ str eq.
Definition display_dict_exec (args : Z) : Display :=
  let int := if flag args 1 then "U" else "I" in
  let exec := if flag args 2 then "EXEC" else "JMP" in
  let z := if flag args 4 then "Z" else "" in
  str "DICT" ++ str int ++ str "GET" ++ str exec ++ str z.

(** [configops.rs]. *)
Definition display_config_op (i : Z) : Display :=
  match i with
  | 3 => str "NOW"
  | 4 => str "BLOCKLT"
  | 5 => str "LTIME"
  | 6 => str "RANDSEED"
  | 7 => str "BALANCE"
  | 8 => str "MYADDR"
  | 9 => str "CONFIGROOT"
  | 10 => str "MYCODE"
  | 11 => str "INCOMINGVALUE"
  | 12 => str "STORAGEFEES"
  | 13 => str "PREVBLOCKSINFOTUPLE"
  | 14 => str "UNPACKEDCONFIGTUPLE"
  | 15 => str "DUEPAYMENT"
  | 17 => str "INMSGPARAMS"
  | i => str "GETPARAM " ++ [PNum i]
  end.
Definition display_in_msg_param (i : Z) : Display :=
  match i with
  | 0 => str "INMSG_BOUNCE"
  | 1 => str "INMSG_BOUNCED"
  | 2 => str "INMSG_SRC"
  | 3 => str "INMSG_FWDFEE"
  | 4 => str "INMSG_LT"
  | 5 => str "INMSG_UTIME"
  | 6 => str "INMSG_ORIGVALUE"
  | 7 => str "INMSG_VALUE"
  | 8 => str "INMSG_VALUEEXTRA"
  | 9 => str "INMSG_STATEINIT"
  | i => str "INMSGPARAM " ++ [PNum i]
  end.

(** [cryptops.rs]. *)
Definition display_hash_ext (p r : bool) (i : Z) : Display :=
  let if_append := if p then "A" else "" in
  let is_rev := if r then "R" else "" in
  let hash_id := if i =? 255 then -1 else i in
  str "HASHEXT" ++ str if_append ++ str is_rev ++ str " " ++ [PNum hash_id].
End Displays.

(** [display_as_stack_value] of util.rs. *)
Definition display_as_stack_value `{DisL : DisplayLib} (cs : OwnedCellSlice) : Display :=
  let refs := slice_size_refs cs in
  (if refs =? 0 then [] else str "(") ++ str "x" ++ [PText (display_data cs)] ++
  (if refs =? 0 then [] else str "," ++ [PNum refs] ++ str ")").

(** ** Instructions with references or constants *)

Section DumpOps.
Context `{DisL : DisplayLib} {S : Type} `{DO : !DumpOutput S}.
#[local] Open Scope string_scope.
#[local] Open Scope Z_scope.
#[local] Open Scope list_scope.
#[local] Open Scope vm_scope.
#[local] Abbreviation DumpM := (DumpM (S := S)).
#[local] Abbreviation DumpDef := (DumpDef (S := S)).

(** [if !code.has_remaining(bits, refs) { return Err(DumpError::InvalidOpcode) }] *)
Definition need (bits refs : Z) : DumpM unit :=
  let* r := gets (fun st => range st.1) in
  if has_remaining r bits refs then ret tt else raise DumpInvalidOpcode.
(** The slice of a constant, [let mut slice = *code; slice.only_first(..)?;
    code.skip_first(..)?]. *)
Definition dump_take (data_bits refs : Z) : DumpM OwnedCellSlice :=
  let* slice := on_slice (fun s =>
    match with_range s (only_first (range s) data_bits refs) with Ok t => Ok (t, s) | Err e => Err e end) in
  dump_skip data_bits refs ;;
  ret slice.
(** [remove_trailing(&mut slice)?]. *)
Definition dump_trim (slice : OwnedCellSlice) : DumpM OwnedCellSlice :=
  map_err InvalidCode (of_result (remove_trailing slice)).
(** [{}] of the hash of a cell, in parentheses. *)
Definition display_cell (c : Cell) : Display := str "(" ++ [PText (display_hash (repr_hash c))] ++ str ")".

(** [arithops.rs]. *)
Definition dump_push_int (args bits : Z) : DumpM unit :=
  let l := Z.land args 31 + 2 in
  let value_len := 3 + l * 8 in
  need (bits + value_len) 0 ;;
  dump_skip bits 0 ;;
  let* int := on_slice (fun s =>
    match load_bigint (range s) (cell s) value_len true with
    | Ok (z, r) => Ok (z, set_range r s)
    | Err e => Err e
    end) in
  visit (record_opcode (str "PUSHINT " ++ [PNum int])).

(** [cellops.rs]. *)
Definition dump_push_ref_common (bits : Z) (name : string) (as_cont : bool) : DumpM unit :=
  need bits 1 ;;
  dump_skip bits 0 ;;
  let* c := dump_load_reference in
  visit (if as_cont then record_cont c else record_cell c) ;;
  visit (record_opcode (str name ++ str " " ++ display_cell c)).
Definition dump_push_ref (args bits : Z) : DumpM unit := dump_push_ref_common bits "PUSHREF" false.
Definition dump_push_ref_slice (args bits : Z) : DumpM unit := dump_push_ref_common bits "PUSHREFSLICE" false.
Definition dump_push_ref_cont (args bits : Z) : DumpM unit := dump_push_ref_common bits "PUSHREFCONT" true.

Definition dump_push_slice_common (bits data_bits refs : Z) : DumpM unit :=
  need (bits + data_bits) refs ;;
  dump_skip bits 0 ;;
  let* slice := dump_take data_bits refs in
  let* slice := dump_trim slice in
  visit (record_slice slice) ;;
  visit (record_opcode (str "PUSHSLICE " ++ display_as_stack_value slice)).
Definition dump_push_slice (args bits : Z) : DumpM unit :=
  dump_push_slice_common bits (Z.land args 0xf * 8 + 4) 0.
Definition dump_push_slice_r (args bits : Z) : DumpM unit :=
  dump_push_slice_common bits (Z.land args 0x1f * 8 + 1) (Z.land (Z.shiftr args 5) 3 + 1).
Definition dump_push_slice_r2 (args bits : Z) : DumpM unit :=
  dump_push_slice_common bits (Z.land args 0x7f * 8 + 6) (Z.land (Z.shiftr args 7) 7).

Definition dump_push_cont (args bits : Z) : DumpM unit :=
  let data_bits := Z.land args 0x7f * 8 in
  let refs := Z.land (Z.shiftr args 7) 3 in
  need (bits + data_bits) refs ;;
  dump_skip bits 0 ;;
  let* slice := dump_take data_bits refs in
  visit (record_cont_slice slice) ;;
  visit (record_opcode (str "PUSHCONT " ++ display_as_stack_value slice)).
Definition dump_push_cont_simple (args bits : Z) : DumpM unit :=
  let data_bits := Z.land args 0xf * 8 in
  need (bits + data_bits) 0 ;;
  dump_skip bits 0 ;;
  let* slice := dump_take data_bits 0 in
  visit (record_cont_slice slice) ;;
  visit (record_opcode (str "PUSHCONT " ++ display_as_stack_value slice)).

Fixpoint dump_refs (n : nat) : DumpM unit :=
  match n with
  | O => ret tt
  | Datatypes.S n =>
      let* c := dump_load_reference in
      visit (record_cell c) ;;
      dump_refs n
  end.
Definition dump_store_const_ref (args bits : Z) : DumpM unit :=
  let refs := Z.land args 1 + 1 in
  need bits refs ;;
  dump_skip bits 0 ;;
  dump_refs (Z.to_nat refs) ;;
  visit (record_opcode (str "STREF" ++ [PNum refs] ++ str "CONST")).

Definition dump_store_const_slice (args bits : Z) : DumpM unit :=
  let data_bits := Z.land args 7 * 8 + 2 in
  let refs := Z.land (Z.shiftr args 3) 3 in
  need (bits + data_bits) refs ;;
  dump_skip bits 0 ;;
  let* slice := dump_take data_bits refs in
  let* slice := dump_trim slice in
  visit (record_slice slice) ;;
  visit (record_opcode (str "STSLICECONST " ++ display_as_stack_value slice)).

Definition dump_slice_begins_with_const (args bits : Z) : DumpM unit :=
  let quiet := flag args 0x80 in
  let data_bits := Z.land args 0x7f * 8 + 3 in
  need (bits + data_bits) 0 ;;
  dump_skip bits 0 ;;
  let* slice := dump_take data_bits 0 in
  let* slice := dump_trim slice in
  visit (record_slice slice) ;;
  visit (record_opcode (str "SDBEGINS" ++ str (if quiet then "Q" else "") ++ str " " ++
    display_as_stack_value slice)).

(** [contops.rs]. *)
Definition dump_ref_prefix (bits : Z) (name : string) : DumpM unit :=
  need bits 1 ;;
  dump_skip bits 0 ;;
  let* c := dump_load_reference in
  visit (record_cont c) ;;
  visit (record_opcode (str name ++ str " " ++ display_cell c)).
Definition dump_callref (args bits : Z) : DumpM unit := dump_ref_prefix bits "CALLREF".
Definition dump_jmpref (args bits : Z) : DumpM unit := dump_ref_prefix bits "JMPREF".
Definition dump_jmpref_data (args bits : Z) : DumpM unit := dump_ref_prefix bits "JMPREFDATA".
Definition dump_ifref (args bits : Z) : DumpM unit := dump_ref_prefix bits "IFREF".
Definition dump_ifnotref (args bits : Z) : DumpM unit := dump_ref_prefix bits "IFNOTREF".
Definition dump_ifjmpref (args bits : Z) : DumpM unit := dump_ref_prefix bits "IFJMPREF".
Definition dump_ifnotjmpref (args bits : Z) : DumpM unit := dump_ref_prefix bits "IFNOTJMPREF".
Definition dump_ifrefelse (args bits : Z) : DumpM unit := dump_ref_prefix bits "IFREFELSE".
Definition dump_ifelseref (args bits : Z) : DumpM unit := dump_ref_prefix bits "IFELSEREF".

Definition dump_ifref_elseref (args bits : Z) : DumpM unit :=
  need bits 2 ;;
  dump_skip bits 0 ;;
  let* cell1 := dump_load_reference in
  let* cell0 := dump_load_reference in
  visit (record_cont cell1) ;;
  visit (record_cont cell0) ;;
  visit (record_opcode (str "IFREFELSEREF " ++ display_cell cell1 ++ str " " ++ display_cell cell0)).

Definition dump_if_bit_jmpref (args bits : Z) : DumpM unit :=
  need bits 1 ;;
  dump_skip bits 0 ;;
  let* c := dump_load_reference in
  let negate := flag args 0x20 in
  let bit := Z.land args 0x1f in
  visit (record_cont c) ;;
  visit (record_opcode (str (if negate then "N" else "") ++ str "BITJMPREF " ++ [PNum bit] ++ str " " ++
    display_cell c)).

(** [debugops.rs]. *)
Definition dump_dummy_debug_str (args bits : Z) : DumpM unit :=
  let data_bits := (Z.land args 0xf + 1) * 8 in
  need (bits + data_bits) 0 ;;
  dump_skip bits 0 ;;
  let* slice := dump_take data_bits 0 in
  visit (record_slice slice) ;;
  visit (record_opcode (str "DEBUGSTR " ++ display_as_stack_value slice)).

(** [dictops.rs]. *)
Definition dump_push_const_dict (args bits : Z) : DumpM unit :=
  need bits 1 ;;
  dump_skip (bits - 11) 0 ;;
  let* slice := on_slice (fun s => load_prefix s 1 1) in
  let* n := on_slice (fun s => slice_load_uint s 10) in
  visit (record_dict n slice) ;;
  visit (record_opcode (str "DICTPUSHCONST " ++ [PNum n] ++ str " " ++ display_as_stack_value slice)).

(** ** The tables *)

Definition arith_dumps : list DumpDef := [
  Dump "7x" (fun a w => format "PUSHINT {x}" (with_arg "x" (signed_nibble 5 w) a));
  Dump "80xx" (fun a w => format "PUSHINT {x}" (with_arg "x" (wrap_s 8 w) a));
  Dump "81xxxx" (fun a w => format "PUSHINT {x}" (with_arg "x" (wrap_s 16 w) a));
  DumpExtRange (Z.shiftl 0x82 5) (Z.shiftl 0x82 5 + 31) 13 dump_push_int;
  Dump "83xx @ ..83ff" (fun a w => format "PUSHPOW2 {x}" (with_arg "x" (low_byte w + 1) a));
  Dump0 "83ff" "PUSHNAN";
  Dump "84xx" (fun a w => format "PUSHPOW2DEC {x}" (with_arg "x" (low_byte w + 1) a));
  Dump "85xx" (fun a w => format "PUSHNEGPOW2 {x}" (with_arg "x" (low_byte w + 1) a));
  Dump0 "a0" "ADD";
  Dump0 "b7a0" "QADD";
  Dump0 "a1" "SUB";
  Dump0 "b7a1" "QSUB";
  Dump0 "a2" "SUBR";
  Dump0 "b7a2" "QSUBR";
  Dump0 "a3" "NEGATE";
  Dump0 "b7a3" "QNEGATE";
  Dump0 "a4" "INC";
  Dump0 "b7a4" "QINC";
  Dump0 "a5" "DEC";
  Dump0 "b7a5" "QDEC";
  Dump "a6yy" (fun a w => format "ADDINT {y}" (with_arg "y" (wrap_s 8 w) a));
  Dump "b7a6yy" (fun a w => format "QADDINT {y}" (with_arg "y" (wrap_s 8 w) a));
  Dump "a7yy" (fun a w => format "MULINT {y}" (with_arg "y" (wrap_s 8 w) a));
  Dump "b7a7yy" (fun a w => format "QMULINT {y}" (with_arg "y" (wrap_s 8 w) a));
  Dump0 "a8" "MUL";
  Dump0 "b7a8" "QMUL";
  Dump "a90m" (fun a _ => dump_divmod (a "m"));
  Dump "b7a90m" (fun a _ => dump_divmod (a "m"));
  Dump "a92m" (fun a _ => dump_shr (a "m") false);
  Dump "a93mmm" (fun a _ => dump_shr (a "m") true);
  Dump "b7a92m" (fun a _ => str "Q" ++ dump_shr (a "m") false);
  Dump "a98m" (fun a _ => str "MUL" ++ dump_divmod (a "m"));
  Dump "b7a98m" (fun a _ => str "QMUL" ++ dump_divmod (a "m"));
  Dump "a9am" (fun a _ => str "MUL" ++ dump_shr (a "m") false);
  Dump "a9bmmm" (fun a _ => str "MUL" ++ dump_shr (a "m") true);
  Dump "b7a9am" (fun a _ => str "QMUL" ++ dump_shr (a "m") false);
  Dump "a9cm" (fun a _ => dump_shl (a "m") false);
  Dump "a9dmmm" (fun a _ => dump_shl (a "m") true);
  Dump "b7a9cm" (fun a _ => str "Q" ++ dump_shl (a "m") false);
  Dump0 "b608" "MIN";
  Dump0 "b609" "MAX";
  Dump0 "b60a" "MINMAX";
  Dump0 "b7b608" "QMIN";
  Dump0 "b7b609" "QMAX";
  Dump0 "b7b60a" "QMINMAX";
  Dump0 "b60b" "ABS";
  Dump0 "b7b60b" "QABS"
].

Definition cmp_dumps : list DumpDef := [
  Dump0 "b8" "SGN";
  Dump0 "b7b8" "QSGN";
  Dump0 "b9" "LESS";
  Dump0 "ba" "EQUAL";
  Dump0 "bb" "LEQ";
  Dump0 "bc" "GREATER";
  Dump0 "bd" "NEQ";
  Dump0 "be" "GEQ";
  Dump0 "bf" "CMP";
  Dump0 "b7b9" "QLESS";
  Dump0 "b7ba" "QEQUAL";
  Dump0 "b7bb" "QLEQ";
  Dump0 "b7bc" "QGREATER";
  Dump0 "b7bd" "QNEQ";
  Dump0 "b7be" "QGEQ";
  Dump0 "b7bf" "QCMP";
  Dump "c0yy" (fun a w => format "EQINT {y}" (with_arg "y" (wrap_s 8 w) a));
  Dump "c1yy" (fun a w => format "LESSINT {y}" (with_arg "y" (wrap_s 8 w) a));
  Dump "c2yy" (fun a w => format "GTINT {y}" (with_arg "y" (wrap_s 8 w) a));
  Dump "c3yy" (fun a w => format "NEQINT {y}" (with_arg "y" (wrap_s 8 w) a));
  Dump "b7c0yy" (fun a w => format "QEQINT {y}" (with_arg "y" (wrap_s 8 w) a));
  Dump "b7c1yy" (fun a w => format "QLESSINT {y}" (with_arg "y" (wrap_s 8 w) a));
  Dump "b7c2yy" (fun a w => format "QGTINT {y}" (with_arg "y" (wrap_s 8 w) a));
  Dump "b7c3yy" (fun a w => format "QNEQINT {y}" (with_arg "y" (wrap_s 8 w) a));
  Dump0 "c4" "ISNAN";
  Dump0 "c5" "CHKNAN"
].

Definition logic_dumps : list DumpDef := [
  Dump "aayy" (fun a w => format "LSHIFT {y}" (with_arg "y" (low_byte w + 1) a));
  Dump "b7aayy" (fun a w => format "QLSHIFT {y}" (with_arg "y" (low_byte w + 1) a));
  Dump "abyy" (fun a w => format "RSHIFT {y}" (with_arg "y" (low_byte w + 1) a));
  Dump "b7abyy" (fun a w => format "QRSHIFT {y}" (with_arg "y" (low_byte w + 1) a));
  Dump0 "ac" "LSHIFT";
  Dump0 "b7ac" "QLSHIFT";
  Dump0 "ad" "RSHIFT";
  Dump0 "b7ad" "QRSHIFT";
  Dump0 "ae" "POW2";
  Dump0 "b7ae" "QPOW2";
  Dump0 "b0" "AND";
  Dump0 "b7b0" "QAND";
  Dump0 "b1" "OR";
  Dump0 "b7b1" "QOR";
  Dump0 "b2" "XOR";
  Dump0 "b7b2" "QXOR";
  Dump0 "b3" "NOT";
  Dump0 "b7b3" "QNOT";
  Dump "b4yy" (fun a w => format "FITS {y}" (with_arg "y" (low_byte w + 1) a));
  Dump "b7b4yy" (fun a w => format "QFITS {y}" (with_arg "y" (low_byte w + 1) a));
  Dump "b5yy" (fun a w => format "UFITS {y}" (with_arg "y" (low_byte w + 1) a));
  Dump "b7b5yy" (fun a w => format "QUFITS {y}" (with_arg "y" (low_byte w + 1) a));
  Dump0 "b600" "FITSX";
  Dump0 "b7b600" "QFITSX";
  Dump0 "b601" "UFITSX";
  Dump0 "b7b601" "QUFITSX";
  Dump0 "b602" "BITSIZE";
  Dump0 "b7b602" "QBITSIZE";
  Dump0 "b603" "UBITSIZE";
  Dump0 "b7b603" "QUBITSIZE"
].

Definition cell_dumps : list DumpDef := [
  DumpExt 0x88 8 0 dump_push_ref;
  DumpExt 0x89 8 0 dump_push_ref_slice;
  DumpExt 0x8a 8 0 dump_push_ref_cont;
  DumpExt 0x8b 8 4 dump_push_slice;
  DumpExt 0x8c 8 7 dump_push_slice_r;
  DumpExtRange (Z.shiftl 0x8d 10) (Z.shiftl (Z.shiftl 0x8d 3 + 5) 7) 18 dump_push_slice_r2;
  DumpExt (Z.shiftr 0x8e 1) 7 9 dump_push_cont;
  DumpExt 0x9 4 4 dump_push_cont_simple;
  Dump0 "c700" "SEMPTY";
  Dump0 "c701" "SDEMPTY";
  Dump0 "c702" "SREMPTY";
  Dump0 "c703" "SDFIRST";
  Dump0 "c704" "SDLEXCMP";
  Dump0 "c705" "SDEQ";
  Dump0 "c708" "SDPFX";
  Dump0 "c709" "SDPFXREV";
  Dump0 "c70a" "SDPPFX";
  Dump0 "c70b" "SDPPFXREV";
  Dump0 "c70c" "SDSFX";
  Dump0 "c70d" "SDSFXREV";
  Dump0 "c70e" "SDPSFX";
  Dump0 "c70f" "SDPSFXREV";
  Dump0 "c710" "SDCNTLEAD0";
  Dump0 "c711" "SDCNTLEAD1";
  Dump0 "c712" "SDCNTTRAIL0";
  Dump0 "c713" "SDCNTTRAIL1";
  Dump0 "c8" "NEWC";
  Dump0 "c9" "ENDC";
  Dump "caxx" (fun a w => format "STI {x}" (with_arg "x" (low_byte w + 1) a));
  Dump "cbxx" (fun a w => format "STU {x}" (with_arg "x" (low_byte w + 1) a));
  Dump0 "cc" "STREF";
  Dump0 "cf10" "STREF";
  Dump0 "cf18" "STREFQ";
  Dump0 "cd" "ENDCST";
  Dump0 "cf15" "STBREFR";
  Dump0 "cf1d" "STBREFRQ";
  Dump0 "ce" "STSLICE";
  Dump0 "cf12" "STSLICE";
  Dump0 "cf1a" "STSLICEQ";
  Dump "cf0$0sss" (fun _ w => display_store_int true w);
  Dump "cf0$1sss#nn" (fun _ w => display_store_int false (Z.shiftr w 8) ++ str " " ++ [PNum (low_byte w + 1)]);
  Dump0 "cf11" "STBREF";
  Dump0 "cf19" "STBREFQ";
  Dump0 "cf13" "STB";
  Dump0 "cf1b" "STBQ";
  Dump0 "cf14" "STREFR";
  Dump0 "cf1c" "STREFRQ";
  Dump0 "cf16" "STSLICER";
  Dump0 "cf1e" "STSLICERQ";
  Dump0 "cf17" "STBR";
  Dump0 "cf1f" "STBRQ";
  DumpExtRange 0xcf20 0xcf22 16 dump_store_const_ref;
  Dump "cf22$ss" (fun _ w => display_store_le w);
  Dump0 "cf23" "ENDXC";
  Dump0 "cf30" "BDEPTH";
  Dump0 "cf31" "BBITS";
  Dump0 "cf32" "BREFS";
  Dump0 "cf33" "BBITREFS";
  Dump0 "cf35" "BREMBITS";
  Dump0 "cf36" "BREMREFS";
  Dump0 "cf37" "BREMBITREFS";
  Dump "cf38xx" (fun a w => format "BCHKBITS {x}" (with_arg "x" (low_byte w + 1) a));
  Dump "cf3cxx" (fun a w => format "BCHKBITSQ {x}" (with_arg "x" (low_byte w + 1) a));
  Dump0 "cf39" "BCHKBITS";
  Dump0 "cf3a" "BCHKREFS";
  Dump0 "cf3b" "BCHKBITREFS";
  Dump0 "cf3d" "BCHKBITSQ";
  Dump0 "cf3e" "BCHKREFSQ";
  Dump0 "cf3f" "BCHKBITREFSQ";
  Dump0 "cf40" "STZEROES";
  Dump0 "cf41" "STONES";
  Dump0 "cf42" "STSAME";
  DumpExt (Z.shiftr 0xcf80 7) 9 5 dump_store_const_slice;
  Dump0 "d0" "CTOS";
  Dump0 "d1" "ENDS";
  Dump "d2xx" (fun a w => format "LDI {x}" (with_arg "x" (low_byte w + 1) a));
  Dump "d3xx" (fun a w => format "LDU {x}" (with_arg "x" (low_byte w + 1) a));
  Dump0 "d4" "LDREF";
  Dump0 "d5" "LDREFRTOS";
  Dump "d6xx" (fun a w => format "LDSLICE {x}" (with_arg "x" (low_byte w + 1) a));
  Dump "d70$0sss" (fun _ w => display_load_int true w);
  Dump "d70$1sss#nn" (fun _ w => display_load_int false (Z.shiftr w 8) ++ str " " ++ [PNum (low_byte w + 1)]);
  Dump "d71$0xxx" (fun a w => format "PLDUZ {x}" (with_arg "x" (Z.shiftl (Z.land w 7 + 1) 5) a));
  Dump "d71$10ss" (fun _ w => display_load_slice true w);
  Dump "d71$11ss#nn" (fun _ w => display_load_slice false (Z.shiftr w 8) ++ str " " ++ [PNum (low_byte w + 1)]);
  Dump0 "d720" "SDCUTFIRST";
  Dump0 "d721" "SDSKIPFIRST";
  Dump0 "d722" "SDCUTLAST";
  Dump0 "d723" "SDSKIPLAST";
  Dump0 "d724" "SDSUBSTR";
  Dump0 "d726" "SDBEGINSX";
  Dump0 "d727" "SDBEGINSXQ";
  DumpExt (Z.shiftr 0xd728 3) 13 8 dump_slice_begins_with_const;
  Dump0 "d730" "SCUTFIRST";
  Dump0 "d731" "SSKIPFIRST";
  Dump0 "d732" "SCUTLAST";
  Dump0 "d733" "SSKIPLAST";
  Dump0 "d734" "SUBSLICE";
  Dump0 "d736" "SPLIT";
  Dump0 "d737" "SPLITQ";
  Dump0 "d739" "XCTOS";
  Dump0 "d73a" "XLOAD";
  Dump0 "d73b" "XLOADQ";
  Dump0 "d741" "SCHKBITS";
  Dump0 "d742" "SCHKREFS";
  Dump0 "d743" "SCHKBITREFS";
  Dump0 "d745" "SCHKBITSQ";
  Dump0 "d746" "SCHKREFSQ";
  Dump0 "d747" "SCHKBITREFSQ";
  Dump0 "d748" "PLDREFVAR";
  Dump0 "d749" "SBITS";
  Dump0 "d74a" "SREFS";
  Dump0 "d74b" "SBITREFS";
  Dump "d74$11xx" (fun a _ => format "PLDREFIDX {x}" a);
  Dump "d75s" (fun _ w => display_load_le w);
  Dump0 "d760" "LDZEROES";
  Dump0 "d761" "LDONES";
  Dump0 "d762" "LDSAME";
  Dump0 "d764" "SDEPTH";
  Dump0 "d765" "CDEPTH";
  Dump0 "d766" "CLEVEL";
  Dump0 "d767" "CLEVELMASK";
  Dump "d76$10xx" (fun a _ => format "CHASHI {x}" a);
  Dump "d76$11xx" (fun a _ => format "CDEPTHI {x}" a);
  Dump0 "d770" "CHASHIX";
  Dump0 "d771" "CDEPTHIX"
].

Definition cont_dumps : list DumpDef := [
  Dump0 "d8" "EXECUTE";
  Dump0 "d9" "JMPX";
  Dump "dapr" (fun a _ => format "CALLXARGS {p},{r}" a);
  Dump "db0p" (fun a _ => format "CALLXARGS {p},-1" a);
  Dump "db1p" (fun a _ => format "JMPXARGS {p}" a);
  Dump "db2r" (fun a _ => format "RETARGS {r}" a);
  Dump0 "db30" "RET";
  Dump0 "db31" "RETALT";
  Dump0 "db32" "RETBOOL";
  Dump0 "db34" "CALLCC";
  Dump0 "db35" "JMPXDATA";
  Dump "db36pr" (fun a w => format "CALLCCARGS {p},{r}" (with_arg "r" (signed_nibble 1 w) a));
  Dump0 "db38" "CALLXVARARGS";
  Dump0 "db39" "RETVARARGS";
  Dump0 "db3a" "JMPXVARARGS";
  Dump0 "db3b" "CALLCCVARARGS";
  DumpExt 0xdb3c 16 0 dump_callref;
  DumpExt 0xdb3d 16 0 dump_jmpref;
  DumpExt 0xdb3e 16 0 dump_jmpref_data;
  Dump0 "db3f" "RETDATA";
  Dump "db4xxx" (fun a _ => format "RUNVM {x}" a);
  Dump0 "db50" "RUNVMX";
  Dump0 "dc" "IFRET";
  Dump0 "dd" "IFNOTRET";
  Dump0 "de" "IF";
  Dump0 "df" "IFNOT";
  Dump0 "e0" "IFJMP";
  Dump0 "e1" "IFNOTJMP";
  Dump0 "e2" "IFELSE";
  DumpExt 0xe300 16 0 dump_ifref;
  DumpExt 0xe301 16 0 dump_ifnotref;
  DumpExt 0xe302 16 0 dump_ifjmpref;
  DumpExt 0xe303 16 0 dump_ifnotjmpref;
  Dump0 "e304" "CONDSEL";
  Dump0 "e305" "CONDSELCHK";
  Dump0 "e308" "IFRETALT";
  Dump0 "e309" "IFNOTRETALT";
  DumpExt 0xe30d 16 0 dump_ifrefelse;
  DumpExt 0xe30e 16 0 dump_ifelseref;
  DumpExt 0xe30f 16 0 dump_ifref_elseref;
  Dump "e3$10nx#x" (fun a _ => str "IF" ++ str (if arg_bool a "n" then "N" else "") ++ format "BITJMP {x}" a);
  DumpExt (Z.shiftr 0xe3c0 6) 10 0 dump_if_bit_jmpref;
  Dump0 "e4" "REPEAT";
  Dump0 "e314" "REPEATBRK";
  Dump0 "e5" "REPEATEND";
  Dump0 "e315" "REPEATENDBRK";
  Dump0 "e6" "UNTIL";
  Dump0 "e316" "UNTILBRK";
  Dump0 "e7" "UNTILEND";
  Dump0 "e317" "UNTILENDBRK";
  Dump0 "e8" "WHILE";
  Dump0 "e318" "WHILEBRK";
  Dump0 "e9" "WHILEEND";
  Dump0 "e319" "WHILEENDBRK";
  Dump0 "ea" "AGAIN";
  Dump0 "e31a" "AGAINBRK";
  Dump0 "eb" "AGAINEND";
  Dump0 "e31b" "AGAINENDBRK";
  Dump "ecrn" (fun a w => format "SETCONTARGS {r},{n}" (with_arg "n" (signed_nibble 1 w) a));
  Dump "ed0p" (fun a _ => format "RETURNARGS {p}" a);
  Dump0 "ed10" "RETURNVARARGS";
  Dump0 "ed11" "SETCONTVARARGS";
  Dump0 "ed12" "SETNUMVARARGS";
  Dump0 "ed1e" "BLESS";
  Dump0 "ed1f" "BLESSVARARGS";
  Dump "ed4i" (fun a _ => format "PUSH c{i}" a);
  Dump "ed5i" (fun a _ => format "POP c{i}" a);
  Dump "ed6i" (fun a _ => format "SETCONTCTR c{i}" a);
  Dump "ed7i" (fun a _ => format "SETRETCTR c{i}" a);
  Dump "ed8i" (fun a _ => format "SETALTCTR c{i}" a);
  Dump "ed9i" (fun a _ => format "POPSAVE c{i}" a);
  Dump "edai" (fun a _ => format "SAVECTR c{i}" a);
  Dump "edbi" (fun a _ => format "SAVEALTCTR c{i}" a);
  Dump "edci" (fun a _ => format "SAVEBOTHCTR c{i}" a);
  Dump0 "ede0" "PUSHCTRX";
  Dump0 "ede1" "POPCTRX";
  Dump0 "ede2" "SETCONTCTRX";
  Dump "ede3xx" (fun _ w => str "SETCONTCTRMANY " ++ [PNum (low_byte w)]);
  Dump0 "ede4" "SETCONTCTRMANYX";
  Dump0 "edf0" "BOOLAND";
  Dump0 "edf1" "BOOLOR";
  Dump0 "edf2" "COMPOSBOTH";
  Dump0 "edf3" "ATEXIT";
  Dump0 "edf4" "ATEXITALT";
  Dump0 "edf5" "SETEXITALT";
  Dump0 "edf6" "THENRET";
  Dump0 "edf7" "THENRETALT";
  Dump0 "edf8" "INVERT";
  Dump0 "edf9" "BOOLEVAL";
  Dump0 "edfa" "SAMEALT";
  Dump0 "edfb" "SAMEALTSAVE";
  Dump "eern" (fun a w => format "BLESSARGS {r},{n}" (with_arg "n" (signed_nibble 1 w) a));
  Dump "f0nn" (fun a _ => format "CALLDICT {n}" a);
  Dump "f1$00nn#nnn" (fun a _ => format "CALLDICT {n}" a);
  Dump "f1$01nn#nnn" (fun a _ => format "JMPDICT {n}" a);
  Dump "f1$10nn#nnn" (fun a _ => format "PREPAREDICT {n}" a);
  Dump "f2$00nn#n" (fun a _ => format "THROW {n}" a);
  Dump "f2$01nn#n" (fun a _ => format "THROWIF {n}" a);
  Dump "f2$10nn#n" (fun a _ => format "THROWIFNOT {n}" a);
  Dump "f2c$0nnn#nn" (fun a _ => format "THROW {n}" a);
  Dump "f2d$0nnn#nn" (fun a _ => format "THROWIF {n}" a);
  Dump "f2e$0nnn#nn" (fun a _ => format "THROWIFNOT {n}" a);
  Dump "f2c$1nnn#nn" (fun a _ => format "THROWARG {n}" a);
  Dump "f2d$1nnn#nn" (fun a _ => format "THROWARGIF {n}" a);
  Dump "f2e$1nnn#nn" (fun a _ => format "THROWARGIFNOT {n}" a);
  Dump "f2fx @ ..f2f6" (fun a _ => display_throw_any (a "x"));
  Dump0 "f2ff" "TRY";
  Dump "f3pr" (fun a _ => format "TRYARGS {p},{r}" a);
  Dump0 "fff0" "SETCPX";
  Dump0 "ff00" "SETCP0";
  Dump0 "ffxx @ ff01..fff0" "SETCP";
  Dump "fffx @ fff1.." (fun a w => format "SETCP {x}" (with_arg "x" (Z.land w 0xf - 16) a))
].

Definition stack_dumps : list DumpDef := [
  Dump0 "00" "NOP";
  Dump0 "01" "SWAP";
  Dump "0j @ 02.." (fun a _ => format "XCHG s{j}" a);
  DumpCond "10ij" (fun a _ => xchg_cond (a "i") (a "j")) (fun a _ => format "XCHG s{i},s{j}" a);
  Dump "11jj" (fun a _ => format "XCHG s{j}" a);
  Dump "1j @ 12.." (fun a _ => format "XCHG s1,s{j}" a);
  Dump0 "20" "DUP";
  Dump0 "21" "OVER";
  Dump "2i @ 22.." (fun a _ => format "PUSH s{i}" a);
  Dump "56ii" (fun a _ => format "PUSH s{i}" a);
  Dump0 "30" "DROP";
  Dump0 "31" "NIP";
  Dump "3i @ 32.." (fun a _ => format "POP s{i}" a);
  Dump "57ii" (fun a _ => format "POP s{i}" a);
  Dump "4ijk" (fun a _ => format "XCHG3 s{i},s{j},s{k}" a);
  Dump "540ijk" (fun a _ => format "XCHG3 s{i},s{j},s{k}" a);
  Dump "50ij" (fun a _ => format "XCHG2 s{i},s{j}" a);
  Dump "51ij" (fun a _ => format "XCPU s{i},s{j}" a);
  Dump "52ij" (fun a _ => format "PUXC s{i},s{j}" (with_arg "j" (a "j" - 1) a));
  Dump "53ij" (fun a _ => format "PUSH2 s{i},s{j}" a);
  Dump "541ijk" (fun a _ => format "XC2PU s{i},s{j},s{k}" a);
  Dump "542ijk" (fun a _ => format "XCPUXC s{i},s{j},s{k}" (with_arg "k" (a "k" - 1) a));
  Dump "543ijk" (fun a _ => format "XCPU2 s{i},s{j},s{k}" a);
  Dump "544ijk" (fun a _ => format "PUXC2 s{i},s{j},s{k}" (with_arg "k" (a "k" - 1) (with_arg "j" (a "j" - 1) a)));
  Dump "545ijk" (fun a _ => format "PUXCPU s{i},s{j},s{k}" (with_arg "k" (a "k" - 1) (with_arg "j" (a "j" - 1) a)));
  Dump "546ijk" (fun a _ => format "PU2XC s{i},s{j},s{k}" (with_arg "k" (a "k" - 2) (with_arg "j" (a "j" - 1) a)));
  Dump "547ijk" (fun a _ => format "PUSH3 s{i},s{j},s{k}" a);
  Dump "55ij" (fun a w => format "BLKSWAP {i},{j}" (with_arg "j" (1 + nibble0 w) (with_arg "i" (1 + nibble1 w) a)));
  Dump0 "58" "ROT";
  Dump0 "59" "ROTREV";
  Dump0 "5a" "2SWAP";
  Dump0 "5b" "2DROP";
  Dump0 "5c" "2DUP";
  Dump0 "5d" "2OVER";
  Dump "5eij" (fun a w => format "REVERSE {i},{j}" (with_arg "i" (2 + nibble1 w) a));
  Dump "5f0i" (fun a _ => format "BLKDROP {i}" a);
  Dump "5fij @ 5f10.." (fun a _ => format "BLKPUSH {i},{j}" a);
  Dump0 "60" "PICK";
  Dump0 "61" "ROLL";
  Dump0 "62" "ROLLREV";
  Dump0 "63" "BLKSWX";
  Dump0 "64" "REVX";
  Dump0 "65" "DROPX";
  Dump0 "66" "TUCK";
  Dump0 "67" "XCHGX";
  Dump0 "68" "DEPTH";
  Dump0 "69" "CHKDEPTH";
  Dump0 "6a" "ONLYTOPX";
  Dump0 "6b" "ONLYX";
  Dump "6cij @ 6c10.." (fun a _ => format "BLKDROP2 {i},{j}" a)
].

Definition tuple_dumps : list DumpDef := [
  Dump0 "6d" "PUSHNULL";
  Dump0 "6e" "ISNULL";
  Dump "6f0i" (fun a _ => format "TUPLE {i}" a);
  Dump "6f1i" (fun a _ => format "INDEX {i}" a);
  Dump "6f2i" (fun a _ => format "UNTUPLE {i}" a);
  Dump "6f3i" (fun a _ => format "UNPACKFIRST {i}" a);
  Dump "6f4i" (fun a _ => format "EXPLODE {i}" a);
  Dump "6f5i" (fun a _ => format "SETINDEX {i}" a);
  Dump "6f6i" (fun a _ => format "INDEXQ {i}" a);
  Dump "6f7i" (fun a _ => format "SETINDEXQ {i}" a);
  Dump0 "6f80" "TUPLEVAR";
  Dump0 "6f81" "INDEXVAR";
  Dump0 "6f82" "UNTUPLEVAR";
  Dump0 "6f83" "UNPACKFIRSTVAR";
  Dump0 "6f84" "EXPLODEVAR";
  Dump0 "6f85" "SETINDEXVAR";
  Dump0 "6f86" "INDEXVARQ";
  Dump0 "6f87" "SETINDEXVARQ";
  Dump0 "6f88" "TLEN";
  Dump0 "6f89" "QTLEN";
  Dump0 "6f8a" "ISTUPLE";
  Dump0 "6f8b" "LAST";
  Dump0 "6f8c" "TPUSH";
  Dump0 "6f8d" "TPOP";
  Dump0 "6f90" "ZEROSWAPIF";
  Dump0 "6f91" "ZEROSWAPIFNOT";
  Dump0 "6f92" "ZEROROTRIF";
  Dump0 "6f93" "ZEROROTRIFNOT";
  Dump0 "6f94" "ZEROSWAPIF2";
  Dump0 "6f95" "ZEROSWAPIFNOT2";
  Dump0 "6f96" "ZEROROTRIF2";
  Dump0 "6f97" "ZEROROTRIFNOT2";
  Dump0 "6fa0" "NULLSWAPIF";
  Dump0 "6fa1" "NULLSWAPIFNOT";
  Dump0 "6fa2" "NULLROTRIF";
  Dump0 "6fa3" "NULLROTRIFNOT";
  Dump0 "6fa4" "NULLSWAPIF2";
  Dump0 "6fa5" "NULLSWAPIFNOT2";
  Dump0 "6fa6" "NULLROTRIF2";
  Dump0 "6fa7" "NULLROTRIFNOT2";
  Dump "6fb$iijj" (fun a _ => format "INDEX2 {i},{j}" a);
  Dump "6f$11iijjkk" (fun a _ => format "INDEX3 {i},{j},{k}" a)
].

Definition gas_dumps : list DumpDef := [
  Dump0 "f800" "ACCEPT";
  Dump0 "f801" "SETGASLIMIT";
  Dump0 "f802" "BUYGAS";
  Dump0 "f804" "GRAMTOGAS";
  Dump0 "f805" "GASTOGRAM";
  Dump0 "f807" "GASCONSUMED";
  Dump0 "f80f" "COMMIT"
].

Definition debug_dumps : list DumpDef := [
  Dump0 "fe00" "DUMPSTK";
  Dump "fexx @ fe01..fe14" (fun a w => format "DEBUG {x}" (with_arg "x" (low_byte w) a));
  Dump "fexx @ fe15..fe20" (fun a w => format "DEBUG {x}" (with_arg "x" (low_byte w) a));
  Dump "fexx @ fe30..fef0" (fun a w => format "DEBUG {x}" (with_arg "x" (low_byte w) a));
  Dump0 "fe14" "STRDUMP";
  Dump "fe2x" (fun a _ => format "DUMP s{x}" a);
  DumpExt 0xfef 12 4 dump_dummy_debug_str
].

Definition dict_dumps : list DumpDef := [
  Dump0 "f400" "STDICT";
  Dump0 "f401" "SKIPDICT";
  Dump0 "f402" "LDDICTS";
  Dump0 "f403" "PLDDICTS";
  Dump0 "f404" "LDDICT";
  Dump0 "f405" "PLDDICT";
  Dump0 "f406" "LDDICTQ";
  Dump0 "f407" "PLDDICTQ";
  Dump "f4ss @ f40a..f410" (fun _ w => display_dict_op false "GET" w);
  Dump "f4ss @ f412..f418" (fun _ w => display_dict_op false "SET" w);
  Dump "f4ss @ f422..f428" (fun _ w => display_dict_op false "REPLACE" w);
  Dump "f4ss @ f432..f438" (fun _ w => display_dict_op false "ADD" w);
  Dump "f4ss @ f441..f444" (fun _ w => display_dict_op true "SET" (Z.shiftl w 1));
  Dump "f4ss @ f449..f44c" (fun _ w => display_dict_op true "REPLACE" (Z.shiftl w 1));
  Dump "f4ss @ f451..f454" (fun _ w => display_dict_op true "ADD" (Z.shiftl w 1));
  Dump "f4ss @ f41a..f420" (fun _ w => display_dict_op false "SETGET" w);
  Dump "f4ss @ f42a..f430" (fun _ w => display_dict_op false "REPLACEGET" w);
  Dump "f4ss @ f43a..f440" (fun _ w => display_dict_op false "ADDGET" w);
  Dump "f4ss @ f445..f448" (fun _ w => display_dict_op true "SETGET" (Z.shiftl w 1));
  Dump "f4ss @ f44d..f450" (fun _ w => display_dict_op true "REPLACEGET" (Z.shiftl w 1));
  Dump "f4ss @ f455..f458" (fun _ w => display_dict_op true "ADDGET" (Z.shiftl w 1));
  Dump "f4ss @ f459..f45c" (fun _ w => display_short_dict_op "DEL" w);
  Dump "f4ss @ f462..f468" (fun _ w => display_dict_op false "DELGET" w);
  Dump "f4ss @ f469..f46c" (fun _ w => display_short_dict_op "GETOPTREF" w);
  Dump "f4ss @ f46d..f470" (fun _ w => display_short_dict_op "SETGETOPTREF" w);
  Dump "f4ss @ f474..f480" (fun _ w => display_get_near w);
  Dump "f4ss @ f482..f488" (fun _ w => display_dict_op false "MIN" w);
  Dump "f4ss @ f48a..f490" (fun _ w => display_dict_op false "MAX" w);
  Dump "f4ss @ f492..f498" (fun _ w => display_dict_op false "REMMIN" w);
  Dump "f4ss @ f49a..f4a0" (fun _ w => display_dict_op false "REMMAX" w);
  Dump "f4a$00ss" (fun _ w => display_dict_exec w);
  Dump "f4b$11ss" (fun _ w => display_dict_exec w);
  DumpExtRange 0xf4a400 0xf4a800 24 dump_push_const_dict
].

Definition rand_dumps : list DumpDef := [
  Dump0 "f810" "RANDU256";
  Dump0 "f811" "RAND";
  Dump0 "f814" "SETRAND";
  Dump0 "f815" "ADDRAND"
].

Definition config_dumps : list DumpDef := [
  Dump "f82i" (fun a _ => display_config_op (a "i"));
  Dump0 "f830" "CONFIGDICT";
  Dump0 "f832" "CONFIGPARAM";
  Dump0 "f833" "CONFIGOPTPARAM";
  Dump0 "f83400" "PREVMCBLOCKS";
  Dump0 "f83401" "PREVKEYBLOCK";
  Dump0 "f835" "GLOBALID";
  Dump0 "f836" "GETGASFEE";
  Dump0 "f837" "GETSTORAGEFEE";
  Dump0 "f838" "GETFORWARDFEE";
  Dump0 "f839" "GETPRECOMPILEDGAS";
  Dump0 "f83a" "GETORIGINALFWDFEE";
  Dump0 "f83b" "GETGASFEESIMPLE";
  Dump0 "f83c" "GETFORWARDFEESIMPLE";
  Dump0 "f880" "GETEXTRABALANCE";
  Dump0 "f840" "GETGLOBVAR";
  Dump "f8ii @ f841..f860" (fun a w => format "GETGLOB {i}" (with_arg "i" (Z.land w 31) a));
  Dump0 "f860" "SETGLOBVAR";
  Dump "f8ii @ f861..f880" (fun a w => format "SETGLOB {i}" (with_arg "i" (Z.land w 31) a));
  Dump "f881ii" (fun a _ => display_config_op (a "i"));
  Dump "f89i" (fun a _ => display_in_msg_param (a "i"))
].

Definition message_dumps : list DumpDef := [
  Dump0 "fb00" "SENDRAWMSG";
  Dump0 "fb02" "RAWRESERVE";
  Dump0 "fb03" "RAWRESERVEX";
  Dump0 "fb04" "SETCODE";
  Dump0 "fb06" "SETLIBCODE";
  Dump0 "fb07" "CHANGELIB";
  Dump0 "fb08" "SENDMSG"
].

Definition crypt_dumps : list DumpDef := [
  Dump0 "f900" "HASHCU";
  Dump0 "f901" "HASHSU";
  Dump0 "f902" "SHA256U";
  Dump "f90$01pr#ii" (fun a _ => display_hash_ext (arg_bool a "p") (arg_bool a "r") (a "i"));
  Dump0 "f910" "CHKSIGNU";
  Dump0 "f911" "CHKSIGNS";
  Dump0 "f916" "ED25519_CHKSIGNU";
  Dump0 "f917" "ED25519_CHKSIGNS"
].

Definition currency_dumps : list DumpDef := [
  Dump0 "fa00" "LDGRAMS";
  Dump0 "fa01" "LDVARINT16";
  Dump0 "fa04" "LDVARUINT32";
  Dump0 "fa05" "LDVARINT32";
  Dump0 "fa02" "STGRAMS";
  Dump0 "fa03" "STVARINT16";
  Dump0 "fa06" "STVARUINT32";
  Dump0 "fa07" "STVARINT32";
  Dump0 "fa40" "LDMSGADDR";
  Dump0 "fa41" "LDMSGADDRQ";
  Dump0 "fa42" "PARSEMSGADDR";
  Dump0 "fa43" "PARSEMSGADDRQ";
  Dump0 "fa44" "REWRITESTDADDR";
  Dump0 "fa45" "REWRITESTDADDRQ";
  Dump0 "fa46" "REWRITEVARADDR";
  Dump0 "fa47" "REWRITEVARADDR"
].

Definition size_dumps : list DumpDef := [
  Dump0 "f940" "CDATASIZEQ";
  Dump0 "f941" "CDATASIZE";
  Dump0 "f942" "SDATASIZEQ";
  Dump0 "f943" "SDATASIZE"
].

(** The modules in the order of their [init] calls. *)
Definition all_dumps : list DumpDef :=
  (arith_dumps ++ cmp_dumps ++ logic_dumps ++ cell_dumps ++ cont_dumps ++ stack_dumps ++
   tuple_dumps ++ debug_dumps ++ dict_dumps ++ gas_dumps ++ rand_dumps ++ config_dumps ++
   message_dumps ++ crypt_dumps ++ currency_dumps ++ size_dumps)%list.

(** The dump table of [codepage0]. *)
Definition dump_codepage0 : option (DumpTable (S := S)) := option_map build_dumps (init_dumps all_dumps []).
End DumpOps.
