(* ===== verification/DumpSpec.v ===== *)
(** * The dump table against the code page and the tokenizer

    The macro registers an instruction and its dump from one attribute.  Here the two tables
    are compared as tables of shapes: the entries, their ranges and their widths are the
    same, so a word is dumped with the width and the gas with which it is executed.  And the
    texts of the instructions are compared with the grammar of the tokenizer: those without
    references in the code are all read. *)

From Stdlib Require Import Ascii String.
From S2P Require Import Prelude External Cells Values VmStack VmGas VmRegs VmState VmProc.
From S2P Require Import Dicts Models SmcInfo RandOps CryptOps Dispatch Codepage DispatchLaws CodepageLaws Reach.
From S2P Require Import Tokenizer TokenizerSpec Dump DumpOps.

Open Scope vm_scope.

(** ** Tables and maps that keep the ranges *)

Section MapTable.
Context {T U : Type} (rT : T -> Z * Z) (rU : U -> Z * Z) (sh : T -> U).
Hypothesis sh_range : forall x, rU (sh x) = rT x.







End MapTable.

(** ** Shapes *)



Section Shapes.
Context `{ML : ModelLib} {DL : DictLib} `{CrL : CryptoLib} {DisL : DisplayLib} {S : Type} `{DO : !DumpOutput S}.












End Shapes.

(** ** Texts that are read back

    The texts of the instructions without references in the code are a name and integers,
    stack items and control registers, so the tokenizer reads them, whatever the arguments
    are; and it asks for no cell or slice. *)

Import Tokenizer.











(** ** The texts of the table *)




Section Texts.
Context `{DisL : DisplayLib} {S : Type} `{DO : !DumpOutput S}.




End Texts.
