(* ===== verification/Disasm.v ===== *)
(** * The disassembler (disasm/src/lib.rs, disasm/src/models.rs)

    The code of a contract as a list of numbered items: blocks of opcodes, data, jump
    tables and libraries.  Every continuation met is put on a stack and processed once;
    items are shared by the hash of their cell and the range in it. *)

From Stdlib Require Import Ascii String.
From S2P Require Import Prelude External Cells Values VmStack VmGas VmRegs VmState Dispatch.
From S2P Require Import Dicts Serial Tokenizer Codepage Dump DumpOps.

Open Scope vm_scope.

(** [CellSliceRange] is compared and hashed; [offset_bits] and [RawOwnedIter], the keys and
    the values of a dictionary in order up to the first error, are those of the crate. *)
Class DisasmLib `{SeL : SerialLib} `{DisL : !DisplayLib} := {
  #[global] range_eq_dec :: EqDecision CellSliceRange;
  raw_iter : Cell -> Z -> list (result Error (OwnedCellSlice * OwnedCellSlice))
}.

Import Tokenizer.

Module Disasm.

(** ** models.rs *)

Abbreviation ItemId := Z.

Inductive OpcodeArg :=
| ArgInt (z : Z)
| ArgStack (idx : Z)
| ArgReg (idx : Z)
| ArgCell (id : ItemId)
| ArgSlice (id : ItemId).

Record Opcode := mkOpcode {
  op_bits : Z; op_refs : Z; op_name : Text; op_args : list OpcodeArg; op_gas : Z
}.

Inductive CodeBlockTail :=
| Incomplete
| Child (id : ItemId).

Section Models.
Context `{CL : CellLib}.

Record CodeBlock := mkBlock {
  cell_hash : HashBytes; is_inline : bool;
  block_offset_bits : Z; block_offset_refs : Z; block_bits : Z; block_refs : Z;
  opcodes : list Opcode; tail : option CodeBlockTail
}.

Inductive Data :=
| DataSlice (s : OwnedCellSlice)
| DataCell (c : Cell).

Record JumpTable := mkTable {
  table_hash : HashBytes; key_bits : Z; items : list (Z * ItemId); is_full_code : bool
}.

Inductive Item :=
| ItemJumpTable (t : JumpTable)
| ItemCode (b : CodeBlock)
| ItemData (d : Data)
| ItemLibrary (cell_hash : HashBytes).

Record Code := mkCode { root : ItemId; code_items : list Item }.

(** ** The dump state *)

Record DumpState := mkDump {
  dump_root : Cell; cells : list Cell; slices : list OwnedCellSlice; conts : list Cell;
  cont_slices : list OwnedCellSlice; dicts : list (Z * Cell); gas : Z; opcode : Text
}.

Definition dump_default : DumpState := mkDump empty_cell [] [] [] [] [] 0 [].
Definition set_root (c : Cell) (s : DumpState) : DumpState :=
  mkDump c (cells s) (slices s) (conts s) (cont_slices s) (dicts s) (gas s) (opcode s).
(** [DumpState::clear], which keeps the root. *)
Definition clear (s : DumpState) : DumpState := mkDump (dump_root s) [] [] [] [] [] 0 [].

Definition set_gas (g : Z) (s : DumpState) : DumpState :=
  mkDump (dump_root s) (cells s) (slices s) (conts s) (cont_slices s) (dicts s) g (opcode s).
(** [write!(&mut self.opcode, "{}", value)] appends. *)
Definition write_opcode (d : Display) (s : DumpState) : DumpState :=
  mkDump (dump_root s) (cells s) (slices s) (conts s) (cont_slices s) (dicts s) (gas s) (opcode s ++ show d).
Definition push_cell (c : Cell) (s : DumpState) : DumpState :=
  mkDump (dump_root s) (cells s ++ [c]) (slices s) (conts s) (cont_slices s) (dicts s) (gas s) (opcode s).
Definition push_slice (x : OwnedCellSlice) (s : DumpState) : DumpState :=
  mkDump (dump_root s) (cells s) (slices s ++ [x]) (conts s) (cont_slices s) (dicts s) (gas s) (opcode s).
Definition push_cont (c : Cell) (s : DumpState) : DumpState :=
  mkDump (dump_root s) (cells s) (slices s) (conts s ++ [c]) (cont_slices s) (dicts s) (gas s) (opcode s).
Definition push_cont_slice (x : OwnedCellSlice) (s : DumpState) : DumpState :=
  mkDump (dump_root s) (cells s) (slices s) (conts s) (cont_slices s ++ [x]) (dicts s) (gas s) (opcode s).
Definition push_dict (n : Z) (c : Cell) (s : DumpState) : DumpState :=
  mkDump (dump_root s) (cells s) (slices s) (conts s) (cont_slices s) (dicts s ++ [(n, c)]) (gas s) (opcode s).
End Models.

(** [record_slice] and [record_cont_slice] keep the range and the root of the code, which
    the slice must be of: cells are compared by their hashes. *)
Definition same_root `{CL : CellLib} (value : OwnedCellSlice) (f : OwnedCellSlice -> DumpState -> DumpState)
    : MS DumpState DumpError unit :=
  let* r := gets dump_root in
  if bool_decide (repr_hash (cell value) = repr_hash r)
  then modify (f (mkSlice (range value) r)) else raise CellMismatch.

#[export] Instance dump_state_output `{SL : SliceLib} : DumpOutput DumpState := {
  record_gas g := modify (set_gas g);
  record_opcode d := modify (write_opcode d);
  record_cell c := modify (push_cell c);
  record_slice s := same_root s push_slice;
  record_cont c := modify (push_cont c);
  record_cont_slice s := same_root s push_cont_slice;
  record_dict n s :=
    let* (c, _) := map_err InvalidCode (of_result (slice_load_reference s)) in
    modify (push_dict n c)
}.

(** ** The items found so far *)

(** A [HashMap] as the list of its entries. *)
Fixpoint hm_get {K V} `{EqDecision K} (k : K) (m : list (K * V)) : option V :=
  match m with
  | [] => None
  | (k', v) :: m => if bool_decide (k = k') then Some v else hm_get k m
  end.

(** The errors of [anyhow], the panics of [unreachable!] and of an index out of range, and
    the fuel of the model. *)
Inductive DisasmError :=
| CodeError (e : Error)
| FailedDump (e : DumpError)
| FailedLexer (e : LexFail)
| NotEnoughLinks
| InlinedCont
| NotInlinedCont
| InvalidLinkType
| UnknownLink
| UnusedLinks
| DisasmPanic
| DisasmFuel.

Section Disasm.
Context `{DL : DisasmLib}.

(** [SliceKey]. *)
Definition slice_key (s : OwnedCellSlice) : HashBytes * CellSliceRange := (repr_hash (cell s), range s).

Record Resources := mkResources {
  cont_to_id : list (HashBytes * ItemId);
  cont_slice_to_id : list ((HashBytes * CellSliceRange) * ItemId);
  cell_to_id : list (HashBytes * ItemId);
  slice_to_id : list ((HashBytes * CellSliceRange) * ItemId);
  lib_to_id : list (HashBytes * ItemId);
  dict_to_id : list ((Z * HashBytes) * ItemId);
  res_items : list Item
}.
Definition resources_default : Resources := mkResources [] [] [] [] [] [] [].

Definition set_items (l : list Item) (r : Resources) : Resources :=
  mkResources (cont_to_id r) (cont_slice_to_id r) (cell_to_id r) (slice_to_id r) (lib_to_id r) (dict_to_id r) l.
Definition set_cont (h : HashBytes) (id : ItemId) (r : Resources) : Resources :=
  mkResources ((h, id) :: cont_to_id r) (cont_slice_to_id r) (cell_to_id r) (slice_to_id r) (lib_to_id r)
    (dict_to_id r) (res_items r).
Definition set_cont_slice (k : HashBytes * CellSliceRange) (id : ItemId) (r : Resources) : Resources :=
  mkResources (cont_to_id r) ((k, id) :: cont_slice_to_id r) (cell_to_id r) (slice_to_id r) (lib_to_id r)
    (dict_to_id r) (res_items r).
Definition set_cell (h : HashBytes) (id : ItemId) (r : Resources) : Resources :=
  mkResources (cont_to_id r) (cont_slice_to_id r) ((h, id) :: cell_to_id r) (slice_to_id r) (lib_to_id r)
    (dict_to_id r) (res_items r).
Definition set_slice (k : HashBytes * CellSliceRange) (id : ItemId) (r : Resources) : Resources :=
  mkResources (cont_to_id r) (cont_slice_to_id r) (cell_to_id r) ((k, id) :: slice_to_id r) (lib_to_id r)
    (dict_to_id r) (res_items r).
Definition set_lib (h : HashBytes) (id : ItemId) (r : Resources) : Resources :=
  mkResources (cont_to_id r) (cont_slice_to_id r) (cell_to_id r) (slice_to_id r) ((h, id) :: lib_to_id r)
    (dict_to_id r) (res_items r).
Definition set_dict (k : Z * HashBytes) (id : ItemId) (r : Resources) : Resources :=
  mkResources (cont_to_id r) (cont_slice_to_id r) (cell_to_id r) (slice_to_id r) (lib_to_id r)
    ((k, id) :: dict_to_id r) (res_items r).

Definition ResM (A : Type) : Type := MS Resources DisasmError A.

(** [add_item]: [items.len() as ItemId]. *)
Definition add_item (item : Item) : ResM ItemId :=
  let* l := gets res_items in
  let id := wrap_u 32 (Z.of_nat (length l)) in
  modify (set_items (l ++ [item])) ;;
  ret id.

Record SaveTo := mkSave { jump_table_id : ItemId; save_key : Z }.

Record DumpStackItem := mkStackItem {
  item_id : ItemId; block : CodeBlock; slice : OwnedCellSlice; save_to : option SaveTo
}.

Definition stack_item (id : ItemId) (s : OwnedCellSlice) (inline : bool) (save : option SaveTo) : DumpStackItem :=
  mkStackItem id
    (mkBlock (repr_hash (cell s)) inline (offset_bits (range s)) (offset_refs (range s))
       (size_bits (range s)) (size_refs (range s)) [] (Some Incomplete)) s save.

(** [or_insert_with(|| add_item(..))]. *)
Definition or_insert (found : Resources -> option ItemId) (insert : ItemId -> Resources -> Resources)
    (item : Item) : ResM ItemId :=
  let* known := gets found in
  match known with
  | Some id => ret id
  | None =>
      let* id := add_item item in
      modify (insert id) ;;
      ret id
  end.

Definition add_library (c : Cell) : ResM ItemId :=
  let hash := repr_hash c in
  or_insert (fun r => hm_get hash (lib_to_id r)) (set_lib hash) (ItemLibrary hash).
Definition add_cell (c : Cell) : ResM ItemId :=
  or_insert (fun r => hm_get (repr_hash c) (cell_to_id r)) (set_cell (repr_hash c)) (ItemData (DataCell c)).
Definition add_slice (s : OwnedCellSlice) : ResM ItemId :=
  or_insert (fun r => hm_get (slice_key s) (slice_to_id r)) (set_slice (slice_key s)) (ItemData (DataSlice s)).

(** [Ok(item)] of a new continuation is [inl], [Err(id)] of a known one [inr]; the item of
    a new one is a stub until it is processed. *)
Definition add_cont (c : Cell) : ResM (DumpStackItem + ItemId) :=
  if is_library c then
    let* id := add_library c in
    ret (inr id)
  else
    let* known := gets (fun r => hm_get (repr_hash c) (cont_to_id r)) in
    match known with
    | None =>
        let* id := add_item (ItemData (DataCell empty_cell)) in
        modify (set_cont (repr_hash c) id) ;;
        ret (inl (stack_item id (new_allow_exotic c) false None))
    | Some id => ret (inr id)
    end.

Definition add_cont_slice (cont : OwnedCellSlice) : ResM (DumpStackItem + ItemId) :=
  let* known := gets (fun r => hm_get (slice_key cont) (cont_slice_to_id r)) in
  match known with
  | None =>
      let* id := add_item (ItemData (DataSlice (new_allow_exotic empty_cell))) in
      modify (set_cont_slice (slice_key cont) id) ;;
      ret (inl (stack_item id cont true None))
  | Some id => ret (inr id)
  end.

(** The closure of [add_jump_table]: a stub per entry of the dictionary; whether it met no
    error. *)
Fixpoint jump_entries (table_id n : Z) (entries : list (result Error (OwnedCellSlice * OwnedCellSlice)))
    (to_parse : list DumpStackItem) : ResM (bool * list DumpStackItem) :=
  match entries with
  | [] => ret (true, to_parse)
  | Err _ :: _ => ret (false, to_parse)
  | Ok (key, value) :: entries =>
      match load_bigint (range key) (cell key) n true with
      | Err _ => ret (false, to_parse)
      | Ok (key, _) =>
          let* id := add_item (ItemData (DataCell empty_cell)) in
          jump_entries table_id n entries
            (to_parse ++ [stack_item id value true (Some (mkSave table_id key))])
      end
  end.

(** The item that must be a jump table; otherwise [unreachable!]. *)
Definition update_table (id : ItemId) (f : JumpTable -> JumpTable) : ResM unit :=
  let* l := gets res_items in
  match l !! Z.to_nat id with
  | Some (ItemJumpTable t) => modify (set_items (<[Z.to_nat id := ItemJumpTable (f t)]> l))
  | _ => raise DisasmPanic
  end.
Definition set_full_code (b : bool) (t : JumpTable) : JumpTable :=
  mkTable (table_hash t) (key_bits t) (items t) b.
Definition push_entry (e : Z * ItemId) (t : JumpTable) : JumpTable :=
  mkTable (table_hash t) (key_bits t) (items t ++ [e]) (is_full_code t).

(** The new table and its entries, or the known one. *)
Definition add_jump_table (n : Z) (root : Cell) : ResM ((ItemId * list DumpStackItem) + ItemId) :=
  let* known := gets (fun r => hm_get (n, repr_hash root) (dict_to_id r)) in
  match known with
  | None =>
      let* id := add_item (ItemJumpTable (mkTable (repr_hash root) n [] true)) in
      modify (set_dict (n, repr_hash root) id) ;;
      let* (ok, to_parse) := jump_entries id n (raw_iter root n) [] in
      (if ok : bool then update_table id (set_full_code true) else ret tt) ;;
      ret (inl (id, to_parse))
  | Some id => ret (inr id)
  end.

(** ** Linking the tokens of an opcode to items ([Resources::tokenize]) *)

(** The item a cell or a slice argument may point to. *)
Definition cell_link (l : list Item) (id : ItemId) : result DisasmError unit :=
  match l !! Z.to_nat id with
  | Some (ItemData (DataCell _)) => Ok tt
  | Some (ItemCode b) => if is_inline b then Err InlinedCont else Ok tt
  | Some (ItemLibrary _) => Ok tt
  | Some _ => Err InvalidLinkType
  | None => Err UnknownLink
  end.
Definition slice_link (l : list Item) (id : ItemId) : result DisasmError unit :=
  match l !! Z.to_nat id with
  | Some (ItemData (DataSlice _)) => Ok tt
  | Some (ItemCode b) => if is_inline b then Ok tt else Err NotInlinedCont
  | Some (ItemJumpTable _) => Ok tt
  | Some _ => Err InvalidLinkType
  | None => Err UnknownLink
  end.

Fixpoint link_args (l : list Item) (args : list OpcodeArgToken) (links : list ItemId)
    : result DisasmError (list OpcodeArg) :=
  match args with
  | [] => match links with [] => Ok [] | _ => Err UnusedLinks end
  | arg :: args =>
      let? (arg, links) :=
        match arg with
        | TInt z => Ok (ArgInt z, links)
        | TStack idx => Ok (ArgStack idx, links)
        | TReg idx => Ok (ArgReg idx, links)
        | TCell =>
            match links with
            | [] => Err NotEnoughLinks
            | id :: links => let? _ := cell_link l id in Ok (ArgCell id, links)
            end
        | TSlice =>
            match links with
            | [] => Err NotEnoughLinks
            | id :: links => let? _ := slice_link l id in Ok (ArgSlice id, links)
            end
        end in
      let? args := link_args l args links in
      Ok (arg :: args)
  end.

Definition tokenize_links (text : Text) (links : list ItemId) : ResM (Text * list OpcodeArg) :=
  let* tokens := map_err FailedLexer (of_result (tokenize text)) in
  let* l := gets res_items in
  let* args := of_result (link_args l (args tokens) links) in
  ret (name tokens, args).

(** ** The loops of [disasm_structured] *)

(** [for x in xs.drain(..)]: an id for each and the new continuations. *)
Fixpoint link_all {A} (add : A -> ResM (ItemId * list DumpStackItem)) (xs : list A)
    : ResM (list ItemId * list DumpStackItem) :=
  match xs with
  | [] => ret ([], [])
  | x :: xs =>
      let* (id, new) := add x in
      let* (links, rest) := link_all add xs in
      ret (id :: links, new ++ rest)
  end.
Definition no_conts (add : ResM ItemId) : ResM (ItemId * list DumpStackItem) :=
  let* id := add in ret (id, []).
Definition one_cont (add : ResM (DumpStackItem + ItemId)) : ResM (ItemId * list DumpStackItem) :=
  let* r := add in
  match r with inl item => ret (item_id item, [item]) | inr id => ret (id, []) end.
Definition table_conts (add : ResM ((ItemId * list DumpStackItem) + ItemId)) : ResM (ItemId * list DumpStackItem) :=
  let* r := add in
  match r with inl (id, to_parse) => ret (id, to_parse) | inr id => ret (id, []) end.

(** The links of a dumped opcode and the new continuations, in the order of the source. *)
Definition collect (st : DumpState) : ResM (list ItemId * list DumpStackItem) :=
  let* (l1, _) := link_all (fun c => no_conts (add_cell c)) (cells st) in
  let* (l2, _) := link_all (fun s => no_conts (add_slice s)) (slices st) in
  let* (l3, n3) := link_all (fun c => one_cont (add_cont c)) (conts st) in
  let* (l4, n4) := link_all (fun s => one_cont (add_cont_slice s)) (cont_slices st) in
  let* (l5, n5) := link_all (fun d => table_conts (add_jump_table d.1 d.2)) (dicts st) in
  ret (l1 ++ l2 ++ l3 ++ l4 ++ l5, n3 ++ n4 ++ n5).

Definition set_item_slice (s : OwnedCellSlice) (i : DumpStackItem) : DumpStackItem :=
  mkStackItem (item_id i) (block i) s (save_to i).
Definition push_opcode (op : Opcode) (i : DumpStackItem) : DumpStackItem :=
  let b := block i in
  mkStackItem (item_id i)
    (mkBlock (cell_hash b) (is_inline b) (block_offset_bits b) (block_offset_refs b) (block_bits b)
       (block_refs b) (opcodes b ++ [op]) (tail b)) (slice i) (save_to i).
Definition set_tail (t : option CodeBlockTail) (b : CodeBlock) : CodeBlock :=
  mkBlock (cell_hash b) (is_inline b) (block_offset_bits b) (block_offset_refs b) (block_bits b)
    (block_refs b) (opcodes b) t.

(** How the loop over the opcodes of an item ends: at an opcode with new continuations, or
    at the end of the code or at an invalid opcode. *)
Inductive InnerEnd :=
| NewConts (item : DumpStackItem) (st : DumpState) (new : list DumpStackItem)
| Parsed (item : DumpStackItem) (cs : OwnedCellSlice) (st : DumpState) (incomplete : bool).

Section Loops.
Context (cp : DumpTable (S := DumpState)).

Fixpoint inner (fuel : nat) (item : DumpStackItem) (cs : OwnedCellSlice) (st : DumpState) : ResM InnerEnd :=
  if is_data_empty (range cs) then ret (Parsed item cs st false)
  else
    match fuel with
    | O => raise DisasmFuel
    | S fuel =>
        match dispatch_dump cp (cs, st) with
        | (Err DumpInvalidOpcode, (cs, st)) => ret (Parsed item cs (clear st) true)
        | (Err e, _) => raise (FailedDump e)
        | (Ok _, (cs', st)) =>
            let item := set_item_slice (mkSlice (range cs') (cell (slice item))) item in
            let* (links, new) := collect st in
            let* (name, args) := tokenize_links (opcode st) links in
            let op := mkOpcode (offset_bits (range cs') - offset_bits (range cs))
                        (offset_refs (range cs') - offset_refs (range cs)) name args (gas st) in
            let item := push_opcode op item in
            match new with
            | [] => inner fuel item cs' (clear st)
            | _ => ret (NewConts item (clear st) new)
            end
        end
    end.

(** [res.items[item.id as usize] = Item::Code(item.block)]. *)
Definition save_block (id : ItemId) (b : CodeBlock) : ResM unit :=
  let* l := gets res_items in
  if bool_decide (Z.to_nat id < length l)%nat then modify (set_items (<[Z.to_nat id := ItemCode b]> l))
  else raise DisasmPanic.

(** The end of an item: its tail, and the continuation of the code in the next cell. *)
Definition finish_item (item : DumpStackItem) (cs : OwnedCellSlice) (incomplete : bool)
    : ResM (list DumpStackItem) :=
  let* next :=
    if negb incomplete && negb (is_refs_empty (range cs)) then
      let* (c, _) := map_err CodeError (of_result (slice_load_reference cs)) in ret (Some c)
    else ret None in
  let* (tail, pushed) :=
    match next with
    | Some next =>
        let* r := add_cont next in
        match r with
        | inl next_item => ret (Some (Child (item_id next_item)), [next_item])
        | inr next_id => ret (Some (Child next_id), [])
        end
    | None => ret (if incomplete then Some Incomplete else None, [])
    end in
  save_block (item_id item) (set_tail tail (block item)) ;;
  match save_to item with
  | Some save => update_table (jump_table_id save) (push_entry (save_key save, item_id item))
  | None => ret tt
  end ;;
  ret pushed.

(** The stack from its top. *)
Fixpoint outer (fuel : nat) (stack : list DumpStackItem) (st : DumpState) : ResM unit :=
  match stack with
  | [] => ret tt
  | item :: stack =>
      match fuel with
      | O => raise DisasmFuel
      | S fuel =>
          let* cs := map_err CodeError (of_result (range_apply (range (slice item)) (cell (slice item)))) in
          let* r := inner (Z.to_nat (slice_bits cs)) item cs (set_root (cell (slice item)) st) in
          match r with
          | NewConts item st new => outer fuel (new ++ item :: stack) st
          | Parsed item cs st incomplete =>
              let* pushed := finish_item item cs incomplete in
              outer fuel (pushed ++ stack) st
          end
      end
  end.

Definition disasm_run (fuel : nat) (code : Cell) : ResM Code :=
  let* r := add_cont code in
  let (root, stack) := match r with inl item => (item_id item, [item]) | inr id => (id, []) end in
  outer fuel stack dump_default ;;
  let* l := gets res_items in
  ret (mkCode root l).
End Loops.

Definition disasm_structured (fuel : nat) (code : Cell) : result DisasmError Code :=
  match dump_codepage0 with
  | Some cp => (disasm_run cp fuel code resources_default).1
  | None => Err DisasmPanic
  end.
End Disasm.
End Disasm.
