(* ===== verification/DisasmSpec.v ===== *)
(** * Disassembly ends

    The disassembler follows every continuation it meets.  Each piece of code it still has
    to read is a shorter part of the same slice or the slice of a cell below it, so on
    every code some fuel is enough, and more fuel changes nothing. *)

From Stdlib Require Import Ascii String.
From S2P Require Import Prelude External Cells Values VmStack VmGas VmRegs VmState VmProc Dispatch.
From S2P Require Import DispatchLaws CodepageLaws Serial SerialEnds Tokenizer TokenizerSpec Codepage Dump CellOps DumpOps Disasm.

Import Tokenizer Disasm.
Open Scope vm_scope.

Section Laws.
Context `{DL : DisasmLib}.

(** A part of a slice: over the same cell, with some of the bits and references. *)
Definition part (s s' : OwnedCellSlice) : Prop := within s s' /\ cell s' = cell s.

#[export] Instance part_preorder : PreOrder part.
Proof. split; [by split | intros x y z [H1 H2] [H3 H4]; split; [by etrans | congruence]]. Qed.

Class DisasmLaws : Prop := {
  skip_part : forall s b n s', 0 <= b -> 0 <= n -> slice_skip_first s b n = Ok s' ->
    within s s' /\ slice_bits s' = slice_bits s - b;
  only_first_part : forall s b n s', 0 <= b -> 0 <= n -> with_range s (only_first (range s) b n) = Ok s' -> within s s';
  load_reference_part : forall s c s', slice_load_reference s = Ok (c, s') ->
    c ∈ slice_references s /\ part s s';
  load_prefix_part : forall s b n p s', 0 <= b -> 0 <= n -> load_prefix s b n = Ok (p, s') -> part s p /\ part s s';
  load_uint_part : forall s n v s', 0 <= n -> slice_load_uint s n = Ok (v, s') -> part s s';
  load_value_part : forall s n z r, 0 <= n -> load_bigint (range s) (cell s) n true = Ok (z, r) -> part s (set_range r s);
  range_apply_slice : forall r c s, range_apply r c = Ok s -> s = mkSlice r c;
  (** Cells are trees, and so are dictionaries. *)
  depth_nonneg : forall c, 0 <= repr_depth c;
  full_depth : forall c d, d ∈ slice_references (new_allow_exotic c) -> repr_depth d < repr_depth c;
  entry_depth : forall c n k v d, Ok (k, v) ∈ raw_iter c n -> d ∈ slice_references v -> repr_depth d < repr_depth c
}.
End Laws.

(** ** What one opcode leaves *)

Section Dumps.
Context `{DL : DisasmLib} `{CLaws : !CellLaws} `{DLaws : !DisasmLaws}.
#[local] Abbreviation DumpM := (DumpM (S := DumpState)).
#[local] Abbreviation State := (OwnedCellSlice * DumpState)%type.
Implicit Types (base s x : OwnedCellSlice) (st : State).

(** Nothing recorded. *)
Definition clean (d : DumpState) : Prop := conts d = [] /\ cont_slices d = [] /\ dicts d = [].

(** Everything recorded, and the rest of the code, is of the slice [base]. *)
Record inside base st : Prop := mkInside {
  inside_code : part base st.1;
  inside_root : dump_root st.2 = cell base;
  inside_conts : forall c, c ∈ conts st.2 -> c ∈ slice_references base;
  inside_cont_slices : forall x, x ∈ cont_slices st.2 -> part base x;
  inside_dicts : forall e, e ∈ dicts st.2 -> e.2 ∈ slice_references base
}.

Definition keeps {A} base (Q : A -> Prop) (m : DumpM A) : Prop :=
  forall st, inside base st ->
  match m st with (Ok a, st') => inside base st' /\ Q a | _ => True end.
(** [m] reads some bits first. *)
Definition reads (m : DumpM unit) : Prop :=
  forall st, clean st.2 -> dump_root st.2 = cell st.1 ->
  match m st with
  | (Ok _, st') => exists base, part st.1 base /\ slice_bits base < slice_bits st.1 /\ inside base st'
  | _ => True
  end.

Lemma inside_bind {A B} base (Q : A -> Prop) (Q' : B -> Prop) m k :
  keeps base Q m -> (forall a, Q a -> keeps base Q' (k a)) -> keeps base Q' (bind m k).
Proof.
  intros Hm Hk st Hst. pose proof (Hm st Hst) as H. unfold bind. destruct (m st) as [[a|e] st']; [|done].
  destruct H as [H1 H2]. exact (Hk a H2 st' H1).
Qed.
Lemma keeps_ret {A} base (Q : A -> Prop) a : Q a -> keeps base Q (ret a).
Proof. intros Ha st Hst. by split. Qed.
Lemma keeps_raise {A} base (Q : A -> Prop) e : keeps base Q (raise e).
Proof. done. Qed.

Lemma inside_move base s s' d : inside base (s, d) -> part s s' -> inside base (s', d).
Proof. intros [H1 H2 H3 H4 H5] Hp. split; try done. cbn in *. by etrans. Qed.

Lemma keeps_on_slice {A} base (Q : A -> Prop) f :
  (forall s a s', part base s -> f s = Ok (a, s') -> part s s' /\ Q a) -> keeps base Q (on_slice f).
Proof.
  intros Hf [s d] Hst. unfold on_slice. cbn [fst snd]. destruct (f s) as [[a s']|e] eqn:E; [|done].
  destruct (Hf s a s' (inside_code _ _ Hst) E) as [Hp Ha]. split; [by eapply inside_move | done].
Qed.

Lemma skip_is_part s b n s' : 0 <= b -> 0 <= n -> slice_skip_first s b n = Ok s' -> part s s'.
Proof.
  intros Hb Hn E. split; [exact (proj1 (skip_part _ _ _ _ Hb Hn E))|]. unfold slice_skip_first, with_range in E.
  destruct (skip_first _ _ _); [|done]. by injection E as <-.
Qed.

Lemma keeps_skip base b n : 0 <= b -> 0 <= n -> keeps base (fun _ => True) (dump_skip b n).
Proof.
  intros Hb Hn. apply keeps_on_slice. intros s [] s' _ E. split; [|done].
  destruct (slice_skip_first s b n) as [s1|] eqn:Es; [|done]. injection E as <-. exact (skip_is_part _ _ _ _ Hb Hn Es).
Qed.
Lemma keeps_reference base : keeps base (fun c => c ∈ slice_references base) dump_load_reference.
Proof.
  apply keeps_on_slice. intros s c s' [Hw _] E. apply load_reference_part in E as [Hc Hp].
  split; [done|]. by apply Hw.
Qed.
Lemma keeps_take base b n : 0 <= b -> 0 <= n -> keeps base (part base) (dump_take b n).
Proof.
  intros Hb Hn. unfold dump_take. eapply (inside_bind _ (part base)).
  - apply keeps_on_slice. intros s x s' Hp E.
    destruct (with_range s _) as [t|] eqn:Ew; [|done]. injection E as <- <-. split; [done|].
    etrans; [exact Hp|]. split; [exact (only_first_part _ _ _ _ Hb Hn Ew)|]. unfold with_range in Ew.
    destruct (only_first _ _ _); [|done]. by injection Ew as <-.
  - intros x Hx. eapply inside_bind; [by apply keeps_skip|]. intros _ _. by apply keeps_ret.
Qed.
Lemma keeps_trim base x : keeps base (fun _ => True) (dump_trim x).
Proof. intros st Hst. unfold dump_trim, map_err, of_result. by destruct (remove_trailing x). Qed.
Lemma keeps_need base b n : keeps base (fun _ => True) (need b n).
Proof. intros st Hst. unfold need, bind, gets. by destruct (has_remaining _ _ _). Qed.

(** The visitor. *)
Lemma keeps_visit base (m : MS DumpState DumpError unit) :
  (forall s d, inside base (s, d) -> match m d with (Ok _, d') => inside base (s, d') | _ => True end) ->
  keeps base (fun _ => True) (visit m).
Proof.
  intros Hm [s d] Hst. unfold visit, zoom. cbn [fst snd]. pose proof (Hm s d Hst) as H.
  destruct (m d) as [[[]|e] d']; [|done]. by split.
Qed.
Lemma elem_of_snoc {A} (l : list A) (y x : A) : x ∈ l ++ [y] -> x ∈ l \/ x = y.
Proof. rewrite elem_of_app, list_elem_of_singleton. done. Qed.
Lemma keeps_opcode base d : keeps base (fun _ => True) (visit (record_opcode d)).
Proof. apply keeps_visit. by intros s st []. Qed.
Lemma keeps_cell base c : keeps base (fun _ => True) (visit (record_cell c)).
Proof. apply keeps_visit. by intros s st []. Qed.
Lemma keeps_cont base c : c ∈ slice_references base -> keeps base (fun _ => True) (visit (record_cont c)).
Proof.
  intros Hc. apply keeps_visit. intros s st [H1 H2 H3 H4 H5]. split; try done.
  cbn. intros c' [Hc' | ->]%elem_of_snoc; auto.
Qed.
Lemma keeps_slice base x : keeps base (fun _ => True) (visit (record_slice x)).
Proof.
  apply keeps_visit. intros s st [H1 H2 H3 H4 H5]. cbn. unfold same_root, bind, gets.
  by case_bool_decide.
Qed.
Lemma keeps_cont_slice base x : part base x -> keeps base (fun _ => True) (visit (record_cont_slice x)).
Proof.
  intros Hx. apply keeps_visit. intros s st [H1 H2 H3 H4 H5]. cbn. unfold same_root, bind, gets.
  case_bool_decide; [|done]. split; try done. cbn in *.
  intros y [Hy | ->]%elem_of_snoc; [by apply H4|]. rewrite H2, <- (proj2 Hx). by destruct x.
Qed.
Lemma keeps_dict base n x : part base x -> keeps base (fun _ => True) (visit (record_dict n x)).
Proof.
  intros Hx. apply keeps_visit. intros s st [H1 H2 H3 H4 H5]. cbn. unfold map_err, of_result, bind.
  destruct (slice_load_reference x) as [[c x']|] eqn:E; [|done]. apply load_reference_part in E as [Hc _].
  split; try done. cbn in *. intros e [He | ->]%elem_of_snoc; [by apply H5|]. by apply Hx.
Qed.

(** The prefix of an opcode is read first. *)
Lemma reads_prefix n m : 1 <= n -> (forall base, keeps base (fun _ => True) m) -> reads (dump_skip n 0 ;; m).
Proof.
  intros Hn Hm [s d] Hc Hr. cbn [fst snd] in *. unfold dump_skip, on_slice, bind. cbn [fst snd].
  destruct (slice_skip_first s n 0) as [s'|] eqn:E; [|done].
  pose proof (skip_is_part s n 0 s' ltac:(lia) ltac:(lia) E) as Hp.
  apply skip_part in E as [_ Hb]; [|lia..].
  assert (inside s' (s', d)) as Hi.
  { destruct Hc as (H1 & H2 & H3). split; cbn; rewrite ?H1, ?H2, ?H3; try (intros ? []%not_elem_of_nil); [done|].
    by rewrite (proj2 Hp). }
  pose proof (Hm s' (s', d) Hi) as H. destruct (m (s', d)) as [[a|e] st']; [|done].
  exists s'. split; [done|]. split; [lia|]. apply H.
Qed.
Lemma reads_need b n m : reads m -> reads (need b n ;; m).
Proof. intros Hm st Hc Hr. unfold need, bind, gets. destruct (has_remaining _ _ _); [by apply Hm | done]. Qed.
Lemma reads_gas g m : reads m -> reads (visit (record_gas g) ;; m).
Proof. intros Hm [s d] Hc Hr. apply (Hm (s, set_gas g d)); [exact Hc | exact Hr]. Qed.

(** ** The instructions with references or constants *)

Ltac nonneg :=
  repeat first [ lia | apply Z.land_nonneg; right; lia | apply Z.add_nonneg_nonneg | apply Z.mul_nonneg_nonneg ].
Ltac keep_one :=
  first [ apply keeps_opcode | apply keeps_cell | apply keeps_slice | apply keeps_trim | apply keeps_need
        | apply keeps_reference | apply keeps_cont; assumption | apply keeps_cont_slice; assumption
        | apply keeps_skip; nonneg | apply keeps_take; nonneg ].
Ltac keep := repeat (eapply inside_bind; [keep_one | intros ? ?]); try keep_one.
Ltac read := repeat apply reads_need; apply reads_prefix; [lia | intros ?; keep].

Lemma reads_push_int w n : 1 <= n -> reads (dump_push_int w n).
Proof.
  intros Hn. unfold dump_push_int. cbn zeta. read. apply (inside_bind _ (fun _ => True)); [|intros; keep].
  apply keeps_on_slice. intros s a s' _ E. split; [|done].
  destruct (load_bigint _ _ _ _) as [[z r]|] eqn:El; [|done]. injection E as <- <-.
  eapply load_value_part; [|exact El]. nonneg.
Qed.
Lemma reads_push_ref_common n name c : 1 <= n -> reads (dump_push_ref_common n name c).
Proof. intros Hn. destruct c; unfold dump_push_ref_common; read. Qed.
Lemma reads_push_slice_common n b r : 1 <= n -> 0 <= b -> 0 <= r -> reads (dump_push_slice_common n b r).
Proof. intros. unfold dump_push_slice_common. read. Qed.
Lemma reads_push_cont w n : 1 <= n -> reads (dump_push_cont w n).
Proof. intros. unfold dump_push_cont. cbn zeta. read. Qed.
Lemma reads_push_cont_simple w n : 1 <= n -> reads (dump_push_cont_simple w n).
Proof. intros. unfold dump_push_cont_simple. cbn zeta. read. Qed.
Lemma keeps_refs base n : keeps base (fun _ => True) (dump_refs n).
Proof. induction n as [|n IH]; cbn; [by apply keeps_ret|]. keep. exact IH. Qed.
Lemma reads_store_const_ref w n : 1 <= n -> reads (dump_store_const_ref w n).
Proof. intros. unfold dump_store_const_ref. cbn zeta. read. eapply inside_bind; [apply keeps_refs | intros; keep]. Qed.
Lemma reads_store_const_slice w n : 1 <= n -> reads (dump_store_const_slice w n).
Proof. intros. unfold dump_store_const_slice. cbn zeta. read. Qed.
Lemma reads_begins_with_const w n : 1 <= n -> reads (dump_slice_begins_with_const w n).
Proof. intros. unfold dump_slice_begins_with_const. cbn zeta. read. Qed.
Lemma reads_ref_prefix n name : 1 <= n -> reads (dump_ref_prefix n name).
Proof. intros. unfold dump_ref_prefix. read. Qed.
Lemma reads_ifref_elseref w n : 1 <= n -> reads (dump_ifref_elseref w n).
Proof. intros. unfold dump_ifref_elseref. read. Qed.
Lemma reads_if_bit_jmpref w n : 1 <= n -> reads (dump_if_bit_jmpref w n).
Proof. intros. unfold dump_if_bit_jmpref. read. Qed.
Lemma reads_debug_str w n : 1 <= n -> reads (dump_dummy_debug_str w n).
Proof. intros. unfold dump_dummy_debug_str. cbn zeta. read. Qed.
Lemma reads_push_const_dict w n : 12 <= n -> reads (dump_push_const_dict w n).
Proof.
  intros. unfold dump_push_const_dict. read. apply (inside_bind _ (part base)).
  - apply keeps_on_slice. intros s x s' Hp E. apply load_prefix_part in E as [H1 H2]; [|lia..].
    split; [done | by etrans].
  - intros x Hx. apply (inside_bind _ (fun _ => True)).
    + apply keeps_on_slice. intros s v s' _ E. split; [|done]. by eapply load_uint_part in E.
    + intros k _. eapply inside_bind; [by apply keeps_dict | intros; keep].
Qed.

(** ** The table *)

Definition op_reads (op : DumpOpcode (S := DumpState)) : Prop :=
  match op with
  | DumpDummy _ _ => True
  | DumpSimple f _ _ n => reads (dump_skip n 0 ;; f)
  | DumpFixed f _ _ n => forall w, reads (dump_skip n 0 ;; f w)
  | DumpFull f _ _ n => forall w, reads (f w n)
  end.
Definition def_reads (d : DumpDef (S := DumpState)) : Prop :=
  match d with
  | DumpExt _ b n f => forall w, reads (f w (b + n))
  | DumpExtRange _ _ n f => forall w, reads (f w n)
  | _ => True
  end.

Lemma pattern_reads code f op :
  (forall a w base, keeps base (fun _ => True) (f a w)) -> dump_pattern code f = Some op -> op_reads op.
Proof.
  intros Hf. unfold dump_pattern. destruct (compile_pattern code) as [p|] eqn:Hc; [|done]. intros [= <-].
  destruct (compile_pattern_ok _ _ Hc) as [Hb _]. destruct (pattern_ty p); cbn in *; intros;
    (apply reads_prefix; [lia | intros; apply Hf]).
Qed.
Lemma def_opcode_reads d op : def_reads d -> dump_opcode d = Some op -> op_reads op.
Proof.
  destruct d as [code name|code fmt|code cond fmt|code b n f|lo hi n f]; cbn; intros Hd.
  - apply pattern_reads. intros. apply keeps_opcode.
  - apply pattern_reads. intros. apply keeps_opcode.
  - apply pattern_reads. intros a w base. destruct (cond a w); cbn; [apply keeps_opcode | apply keeps_raise].
  - by intros [= <-].
  - by intros [= <-].
Qed.

Ltac reads_def :=
  intros w;
  unfold dump_push_ref, dump_push_ref_slice, dump_push_ref_cont, dump_push_slice, dump_push_slice_r,
    dump_push_slice_r2, dump_callref, dump_jmpref, dump_jmpref_data, dump_ifref, dump_ifnotref,
    dump_ifjmpref, dump_ifnotjmpref, dump_ifrefelse, dump_ifelseref;
  lazymatch goal with
  | |- reads (dump_push_int _ _) => apply reads_push_int
  | |- reads (dump_push_ref_common _ _ _) => apply reads_push_ref_common
  | |- reads (dump_push_slice_common _ _ _) => apply reads_push_slice_common
  | |- reads (dump_push_cont _ _) => apply reads_push_cont
  | |- reads (dump_push_cont_simple _ _) => apply reads_push_cont_simple
  | |- reads (dump_store_const_ref _ _) => apply reads_store_const_ref
  | |- reads (dump_store_const_slice _ _) => apply reads_store_const_slice
  | |- reads (dump_slice_begins_with_const _ _) => apply reads_begins_with_const
  | |- reads (dump_ref_prefix _ _) => apply reads_ref_prefix
  | |- reads (dump_ifref_elseref _ _) => apply reads_ifref_elseref
  | |- reads (dump_if_bit_jmpref _ _) => apply reads_if_bit_jmpref
  | |- reads (dump_dummy_debug_str _ _) => apply reads_debug_str
  | |- reads (dump_push_const_dict _ _) => apply reads_push_const_dict
  end; nonneg.

(** The same of a list, as the conjunction of what there is to show. *)
Fixpoint defs_read (l : list DumpDef) : Prop :=
  match l with
  | [] => True
  | DumpExt _ b n f :: l => (forall w, reads (f w (b + n))) /\ defs_read l
  | DumpExtRange _ _ n f :: l => (forall w, reads (f w n)) /\ defs_read l
  | _ :: l => defs_read l
  end.
Lemma defs_read_all l : defs_read l -> Forall def_reads l.
Proof. induction l as [|[] l IH]; cbn; [by constructor|..]; intros H; constructor; naive_solver. Qed.

Lemma all_dumps_read : Forall def_reads all_dumps.
Proof.
  apply defs_read_all. lazy [defs_read all_dumps app arith_dumps cmp_dumps logic_dumps cell_dumps cont_dumps stack_dumps
    tuple_dumps debug_dumps dict_dumps gas_dumps rand_dumps config_dumps message_dumps crypt_dumps currency_dumps size_dumps].
  repeat (split; [reads_def|]). exact I.
Qed.

Lemma bt_insert_Forall {T} (P : T -> Prop) k op t :
  P op -> Forall (fun e : Z * T => P e.2) t -> Forall (fun e => P e.2) (bt_insert k op t).
Proof. intros Ho Ht. induction Ht as [|[k' v] t Hv Ht IH]; cbn; repeat case_match; eauto. Qed.
Lemma init_dumps_read l t t' : Forall def_reads l -> Forall (fun e => op_reads e.2) t ->
  init_dumps l t = Some t' -> Forall (fun e => op_reads e.2) t'.
Proof.
  intros Hl. revert t. induction Hl as [|d l Hd _ IH]; intros t Ht; cbn; [by intros [= <-]|].
  destruct (dump_opcode d) as [op|] eqn:Ho; [|done]. unfold add_dump_opcode, add_opcode_impl.
  destruct (dump_range op) as [lo hi]. destruct (_ && _); [|done]. apply IH. apply bt_insert_Forall; [|done]. by eapply def_opcode_reads.
Qed.
Lemma build_dumps_read t : Forall (fun e => op_reads e.2) t -> Forall (fun e => op_reads e.2) (build_dumps t).
Proof.
  unfold build_dumps, build_opcodes. intros Ht. generalize 0. induction Ht as [|[k op] t Hop _ IH]; intros upto; cbn.
  - case_match; by repeat constructor.
  - destruct (dump_range op). apply Forall_app. split; [case_match; by repeat constructor | by constructor].
Qed.

(** An opcode is read from the front of the code, and what it records is of the rest. *)
Lemma dispatch_reads cp : dump_codepage0 = Some cp -> reads (dispatch_dump cp).
Proof.
  unfold dump_codepage0. destruct (init_dumps all_dumps []) as [t|] eqn:Ht; [|done]. intros [= <-].
  apply init_dumps_read in Ht; [|apply all_dumps_read | constructor]. apply build_dumps_read in Ht.
  generalize dependent (build_dumps t). clear t. intros cp Hcp st Hc Hr. unfold dispatch_dump.
  destruct (get_opcode_from_slice st.1) as [[w bits]|]; [|done]. unfold lookup_dump, lookup_impl.
  destruct (lookup_loop _ _ _ _ _) as [i|]; [|done].
  match goal with |- context [option_map snd ?o] => destruct o as [[k op]|] eqn:Hi end; [|exact I].
  assert (op_reads op) as Hop by exact (proj1 (Forall_lookup _ _) Hcp _ _ Hi). clear Hi. cbn [option_map snd]. assert (reads (op_dump op w bits)) as H; [|by apply H].
  destruct op as [|f lo hi n|f lo hi n|f lo hi n]; cbn [op_dump op_reads] in *; [done | | |];
    (destruct (n <=? bits); [apply reads_gas; first [exact Hop | apply Hop] | done]).
Qed.
End Dumps.

(** ** The loops *)

(** The fuel of the loop over the stack, of the loop over the opcodes and of the lexer. *)
Definition out_of_fuel (e : DisasmError) : Prop := e = DisasmFuel \/ e = FailedLexer LexFuel.

Section Loops.
Context `{DL : DisasmLib} `{CLaws : !CellLaws} `{DLaws : !DisasmLaws}.
Implicit Types (base cs x : OwnedCellSlice) (st : DumpState) (item : DumpStackItem).

(** A value in [Q], or an error that is not the fuel's. *)
Definition yields {A} (Q : A -> Prop) (m : ResM A) : Prop :=
  forall r, match m r with (Ok a, _) => Q a | (Err e, _) => ~ out_of_fuel e end.
#[local] Abbreviation anything := (fun _ => True).

Lemma yields_bind {A B} (Q : A -> Prop) (Q' : B -> Prop) m k :
  yields Q m -> (forall a, Q a -> yields Q' (k a)) -> yields Q' (bind m k).
Proof.
  intros Hm Hk r. pose proof (Hm r) as H. unfold bind. destruct (m r) as [[a|e] r']; [exact (Hk a H r') | exact H].
Qed.
Lemma yields_ret {A} (Q : A -> Prop) a : Q a -> yields Q (ret a).
Proof. by intros Ha r. Qed.
Lemma yields_raise {A} (Q : A -> Prop) e : ~ out_of_fuel e -> yields Q (raise e).
Proof. by intros He r. Qed.
Lemma yields_gets {A} (f : Resources -> A) : yields anything (gets f).
Proof. done. Qed.
Lemma yields_modify f : yields anything (modify f).
Proof. done. Qed.
Lemma yields_impl {A} (Q Q' : A -> Prop) m : (forall a, Q a -> Q' a) -> yields Q m -> yields Q' m.
Proof. intros HQ Hm r. pose proof (Hm r) as H. destruct (m r) as [[a|e] r']; auto. Qed.
Lemma not_fuel e : e <> DisasmFuel -> e <> FailedLexer LexFuel -> ~ out_of_fuel e.
Proof. by intros H1 H2 []. Qed.

Ltac yield :=
  repeat lazymatch goal with
    | |- yields _ (bind (gets _) _) => apply (yields_bind anything); [apply yields_gets | intros ? _]
    | |- yields _ (bind (modify _) _) => apply (yields_bind anything); [apply yields_modify | intros ? _]
    | |- yields _ (modify _) => eapply yields_impl; [|apply yields_modify]
    | |- yields _ (ret _) => apply yields_ret
    | |- yields _ (raise _) => apply yields_raise, not_fuel; done
    end.

Lemma yields_add_item i : yields anything (add_item i).
Proof. unfold add_item. by yield. Qed.
Lemma yields_or_insert found insert i : yields anything (or_insert found insert i).
Proof.
  unfold or_insert. yield. case_match; yield; [done|].
  apply (yields_bind anything); [apply yields_add_item | intros ? _; by yield].
Qed.
Lemma yields_update_table id f : yields anything (update_table id f).
Proof. unfold update_table. yield. repeat case_match; by yield. Qed.

(** What a new continuation is, seen from the slice that refers to it. *)
Definition smaller base item : Prop :=
  (exists c, c ∈ slice_references base /\ slice item = new_allow_exotic c) \/
  part base (slice item) \/
  (exists c n k, c ∈ slice_references base /\ Ok (k, slice item) ∈ raw_iter c n).

Lemma yields_add_cont c : yields (fun r => forall i, r = inl i -> slice i = new_allow_exotic c) (add_cont c).
Proof.
  unfold add_cont. destruct (is_library c).
  - apply (yields_bind anything); [apply yields_or_insert | intros ? _; by yield].
  - yield. case_match; yield; [done|].
    apply (yields_bind anything); [apply yields_add_item | intros id _; yield]. by intros i [= <-].
Qed.
Lemma yields_add_cont_slice x : yields (fun r => forall i, r = inl i -> slice i = x) (add_cont_slice x).
Proof.
  unfold add_cont_slice. yield. case_match; yield; [done|].
  apply (yields_bind anything); [apply yields_add_item | intros id _; yield]. by intros i [= <-].
Qed.
Lemma yields_jump_entries table n entries to_parse P :
  Forall P to_parse -> (forall k v i, Ok (k, v) ∈ entries -> slice i = v -> P i) ->
  yields (fun r => Forall P r.2) (jump_entries table n entries to_parse).
Proof.
  revert to_parse. induction entries as [|[[k v]|e] entries IH]; intros l Hl Hv; cbn [jump_entries]; [by yield | | by yield].
  destruct (load_bigint _ _ _ _) as [[z ?]|]; [|by yield].
  apply (yields_bind anything); [apply yields_add_item | intros id _]. apply IH.
  - apply Forall_app. split; [done|]. apply Forall_singleton, (Hv k v); [by left | done].
  - intros k' v' i Hi. apply (Hv k'). by right.
Qed.
Lemma yields_add_jump_table n root :
  yields (fun r => forall id l, r = inl (id, l) -> Forall (fun i => exists k, Ok (k, slice i) ∈ raw_iter root n) l)
    (add_jump_table n root).
Proof.
  unfold add_jump_table. yield. case_match; yield; [done|].
  apply (yields_bind anything); [apply yields_add_item | intros id _]. yield.
  eapply yields_bind; [apply (yields_jump_entries _ _ _ _ (fun i => exists k, Ok (k, slice i) ∈ raw_iter root n))|].
  - constructor.
  - intros k v i Hi <-. by exists k.
  - intros [ok l] Hl. apply (yields_bind anything).
    + destruct ok; [apply yields_update_table | by yield].
    + intros _ _. yield. by intros ? ? [= <- <-].
Qed.

Lemma yields_link_all {A} P (add : A -> ResM (Z * list DumpStackItem)) (xs : list A) :
  (forall x : A, x ∈ xs -> yields (fun r => Forall P r.2) (add x)) -> yields (fun r => Forall P r.2) (link_all add xs).
Proof.
  induction xs as [|x xs IH]; intros Hx; cbn [link_all]; [by yield|].
  eapply yields_bind; [apply Hx; by left|]. intros [id new] Hn.
  eapply yields_bind; [apply IH; intros; apply Hx; by right|]. intros [links rest] Hr. yield. by apply Forall_app.
Qed.

Lemma yields_collect base cs st : inside base (cs, st) -> yields (fun r => Forall (smaller base) r.2) (collect st).
Proof.
  intros [_ _ Hc Hs Hd]. cbn [snd] in *. unfold collect.
  eapply yields_bind; [apply (yields_link_all anything)|intros [l1 n1] _].
  { intros c _. eapply yields_bind; [apply yields_or_insert | intros id _; by yield]. }
  eapply yields_bind; [apply (yields_link_all anything)|intros [l2 n2] _].
  { intros c _. eapply yields_bind; [apply yields_or_insert | intros id _; by yield]. }
  eapply yields_bind; [apply (yields_link_all (smaller base))|intros [l3 n3] H3].
  { intros c Hin. eapply yields_bind; [apply yields_add_cont|]. intros [i|id] Hi; yield; [|constructor].
    apply Forall_singleton. left. exists c. split; [by apply Hc | by apply Hi]. }
  eapply yields_bind; [apply (yields_link_all (smaller base))|intros [l4 n4] H4].
  { intros x Hin. eapply yields_bind; [apply yields_add_cont_slice|]. intros [i|id] Hi; yield; [|constructor].
    apply Forall_singleton. right; left. rewrite (Hi i eq_refl). by apply Hs. }
  eapply yields_bind; [apply (yields_link_all (smaller base))|intros [l5 n5] H5].
  { intros e Hin. eapply yields_bind; [apply yields_add_jump_table|]. intros [[id l]|id] Hi; yield; [|constructor].
    cbn. eapply Forall_impl; [by apply (Hi id l)|]. intros i [k Hk]. right; right. exists e.2, e.1, k.
    split; [by apply Hd | exact Hk]. }
  yield. cbn [snd] in *. by repeat apply Forall_app_2.
Qed.

Lemma link_args_fuel l args links e : link_args l args links = Err e -> ~ out_of_fuel e.
Proof.
  revert links. induction args as [|[z|z|z| |] args IH]; intros links; cbn [link_args].
  - destruct links; [done|]. intros [= <-]. by apply not_fuel.
  - destruct (link_args l args links) eqn:E; [done|]. intros [= <-]. by eapply IH.
  - destruct (link_args l args links) eqn:E; [done|]. intros [= <-]. by eapply IH.
  - destruct (link_args l args links) eqn:E; [done|]. intros [= <-]. by eapply IH.
  - destruct links as [|id links]; [intros [= <-]; by apply not_fuel|]. unfold cell_link.
    destruct (l !! Z.to_nat id) as [[t|b|[s|c]|h]|]; try (intros [= <-]; by apply not_fuel);
      try (destruct (is_inline b); [intros [= <-]; by apply not_fuel|]);
      (destruct (link_args l args links) eqn:E; [done|]; intros [= <-]; by eapply IH).
  - destruct links as [|id links]; [intros [= <-]; by apply not_fuel|]. unfold slice_link.
    destruct (l !! Z.to_nat id) as [[t|b|[s|c]|h]|]; try (intros [= <-]; by apply not_fuel);
      try (destruct (is_inline b); [|intros [= <-]; by apply not_fuel]);
      (destruct (link_args l args links) eqn:E; [done|]; intros [= <-]; by eapply IH).
Qed.

Lemma yields_tokenize text links : yields anything (tokenize_links text links).
Proof.
  unfold tokenize_links. apply (yields_bind anything).
  { intros r. unfold map_err, of_result. destruct (tokenize text) as [t|e] eqn:E; [done|].
    apply not_fuel; [done|]. intros [= ->]. by apply tokenize_errors in E as [? _]. }
  intros tokens _. yield. apply (yields_bind anything); [|intros ? _; by yield].
  intros r. unfold of_result. destruct (link_args _ _ _) eqn:E; [done|]. by eapply link_args_fuel.
Qed.

(** How reading an item ends: after an opcode with new continuations, or at the end. *)
Definition ended cs (e : InnerEnd) : Prop :=
  match e with
  | NewConts item st new => clean st /\ exists base, part cs base /\ slice_bits base < slice_bits cs /\
      part base (slice item) /\ Forall (smaller base) new
  | Parsed item cs' st incomplete => clean st /\ (incomplete = false -> part cs cs')
  end.

Lemma ended_part cs cs' e : part cs cs' -> ended cs' e -> ended cs e.
Proof.
  intros Hp. destruct e as [item st new|item c st b]; cbn.
  - intros (Hc & base & H1 & H2 & H3). split; [done|]. exists base. split; [by etrans|]. split; [|done].
    destruct Hp as [[Hb _] _]. lia.
  - intros [Hc H]. split; [done|]. intros Hb. etrans; [exact Hp | by apply H].
Qed.

Lemma yields_inner cp fuel item cs st : reads (dispatch_dump cp) -> clean st -> dump_root st = cell cs ->
  cell (slice item) = cell cs -> slice_bits cs <= Z.of_nat fuel ->
  yields (ended cs) (inner cp fuel item cs st).
Proof.
  intros Hcp. revert item cs st. induction fuel as [|fuel IH]; intros item cs st Hc Hr Hi Hf;
    cbn [inner]; (destruct (is_data_empty (range cs)) eqn:He; [apply yields_ret; split; [done | intros _; reflexivity]|]).
  { exfalso. pose proof (size_bits_nonneg (range cs)). unfold slice_bits in Hf.
    assert (is_data_empty (range cs) = true) as Ht by (apply is_data_empty_spec; lia). congruence. }
  pose proof (Hcp (cs, st) Hc Hr) as H. clear He.
  destruct (dispatch_dump cp (cs, st)) as [[[]|e] [cs' st']].
  - destruct H as (base & Hp & Hb & Hin). cbn [fst snd] in *.
    eapply yields_bind; [by eapply yields_collect|]. intros [links new] Hnew. cbn [snd] in Hnew.
    apply (yields_bind anything); [apply yields_tokenize|]. intros [name l] _. cbn zeta.
    pose proof (inside_code _ _ Hin) as Hcs. cbn [fst] in Hcs. rewrite Hi.
    assert (mkSlice (range cs') (cell cs) = cs') as ->.
    { rewrite <- (proj2 Hp), <- (proj2 Hcs). by destruct cs'. }
    destruct new as [|n0 new].
    + eapply yields_impl; [intros e; apply (ended_part cs cs'); by etrans|]. apply IH.
      * by split.
      * pose proof (inside_root _ _ Hin) as Hroot. cbn in *. rewrite Hroot. symmetry. apply Hcs.
      * reflexivity.
      * destruct Hcs as [[Hle _] _]. lia.
    + apply yields_ret. split; [by split|]. exists base. done.
  - destruct e; try (apply yields_raise, not_fuel; done). apply yields_ret. split; [by split | done].
Qed.

Lemma yields_finish item cs inc :
  yields (Forall (fun i => exists c, inc = false /\ c ∈ slice_references cs /\ slice i = new_allow_exotic c))
    (finish_item item cs inc).
Proof.
  unfold finish_item.
  apply (yields_bind (fun o => forall c, o = Some c -> inc = false /\ c ∈ slice_references cs)).
  { destruct inc, (is_refs_empty (range cs)); cbn; try by yield.
    apply (yields_bind (fun p => p.1 ∈ slice_references cs)).
    - intros r. unfold map_err, of_result. destruct (slice_load_reference cs) as [[c s']|] eqn:E; [|by apply not_fuel].
      by apply load_reference_part in E as [Hc _].
    - intros [c s'] Hc. yield. by intros ? [= <-]. }
  intros next Hnext.
  apply (yields_bind (fun r => Forall (fun i => exists c, inc = false /\ c ∈ slice_references cs /\ slice i = new_allow_exotic c) r.2)).
  { destruct next as [c|]; [|by yield].
    eapply yields_bind; [apply yields_add_cont|]. intros [i|id] Hi; yield; [|constructor].
    apply Forall_singleton. exists c. destruct (Hnext c eq_refl). split; [done|]. split; [done | by apply Hi]. }
  intros [t pushed] Hp. cbn [snd] in Hp. apply (yields_bind anything).
  { unfold save_block. yield. case_bool_decide; by yield. }
  intros _ _. apply (yields_bind anything); [destruct (save_to item); [apply yields_update_table | by yield]|].
  intros _ _. by yield.
Qed.

(** ** The stack *)

Definition finished {A} (res : result DisasmError A * Resources) : Prop :=
  match res.1 with Ok _ => True | Err e => ~ out_of_fuel e end.

Section Stack.
Context (cp : DumpTable (S := DumpState)) (cp_reads : reads (dispatch_dump cp)).

(** From some fuel on the loop gives one result, which is not that the fuel is spent. *)
Definition ends (stack : list DumpStackItem) : Prop :=
  forall st r, clean st -> exists fuel res, finished res /\ forall f, (fuel <= f)%nat -> outer cp f stack st r = res.
Definition item_ends item : Prop := forall stack, ends stack -> ends (item :: stack).

Lemma ends_nil : ends [].
Proof. intros st r _. exists 0%nat, (Ok tt, r). split; [done|]. by intros [|f]. Qed.
Lemma ends_app new stack : Forall item_ends new -> ends stack -> ends (new ++ stack).
Proof. intros Hn Hs. induction Hn as [|i new Hi _ IH]; [exact Hs | by apply Hi]. Qed.

(** One turn of the loop: it fails, or goes on with items that end. *)
Lemma ends_step item stack :
  (forall st new item', clean st -> ended (slice item) (NewConts item' st new) -> ends (new ++ item' :: stack)) ->
  (forall pushed, Forall (fun i => exists c, c ∈ slice_references (slice item) /\ slice i = new_allow_exotic c) pushed ->
     ends (pushed ++ stack)) ->
  ends (item :: stack).
Proof.
  intros Hnew Hnext st r Hst.
  assert (forall st' r' stack',
    clean st' -> ends stack' -> (forall f, outer cp (S f) (item :: stack) st r = outer cp f stack' st' r') ->
    exists fuel res, finished res /\ forall f, (fuel <= f)%nat -> outer cp f (item :: stack) st r = res) as Hgo.
  { intros st' r' stack' Hc Hs Hf. destruct (Hs st' r' Hc) as (fuel & res & Hfin & Hres).
    exists (S fuel), res. split; [done|]. intros [|f] Hle; [lia|]. rewrite Hf. apply Hres. lia. }
  assert (forall res, finished res -> (forall f, outer cp (S f) (item :: stack) st r = res) ->
    exists fuel res, finished res /\ forall f, (fuel <= f)%nat -> outer cp f (item :: stack) st r = res) as Hstop.
  { intros res Hfin Hf. exists 1%nat, res. split; [done|]. intros [|f] Hle; [lia | apply Hf]. }
  destruct (range_apply (range (slice item)) (cell (slice item))) as [cs|e] eqn:Ea.
  2: { apply (Hstop (Err (CodeError e), r)); [by apply not_fuel|]. intros f. cbn [outer]. unfold map_err, of_result, bind.
       by rewrite Ea. }
  pose proof (range_apply_slice _ _ _ Ea) as Hcs.
  assert (cs = slice item) as Hcs' by (rewrite Hcs; by destruct (slice item)). clear Hcs. subst cs.
  pose proof (yields_inner cp (Z.to_nat (slice_bits (slice item))) item (slice item)
    (set_root (cell (slice item)) st) cp_reads Hst eq_refl eq_refl ltac:(lia) r) as Hin.
  destruct (inner _ _ _ _ _ r) as [[e|e] r'] eqn:Ei.
  2: { apply (Hstop (Err e, r')); [done|]. intros f. cbn [outer]. unfold map_err, of_result, bind. by rewrite Ea, Ei. }
  destruct e as [item' st' new|item' cs st' inc].
  { destruct Hin as [Hc Hb]. apply (Hgo st' r' (new ++ item' :: stack)); [done | by eapply Hnew|].
    intros f. cbn [outer]. unfold map_err, of_result, bind. by rewrite Ea, Ei. }
  destruct Hin as [Hc Hp]. pose proof (yields_finish item' cs inc r') as Hfi.
  destruct (finish_item item' cs inc r') as [[pushed|e] r''] eqn:Ef.
  2: { apply (Hstop (Err e, r'')); [done|]. intros f. cbn [outer]. unfold map_err, of_result, bind. by rewrite Ea, Ei, Ef. }
  apply (Hgo st' r'' (pushed ++ stack)); [done| |].
  - apply Hnext. eapply Forall_impl; [exact Hfi|]. cbn beta. intros i (c & Hi & Hin & Hs). exists c. split; [|done].
    by apply (Hp Hi).
  - intros f. cbn [outer]. unfold map_err, of_result, bind. by rewrite Ea, Ei, Ef.
Qed.

(** A slice with references less deep than [n] and at most [m] bits. *)
Definition measured (n m : nat) x : Prop :=
  (forall c, c ∈ slice_references x -> repr_depth c < Z.of_nat n) /\ slice_bits x <= Z.of_nat m.

Lemma measured_cell c : measured (Z.to_nat (repr_depth c)) (Z.to_nat (slice_bits (new_allow_exotic c))) (new_allow_exotic c).
Proof. split; [|lia]. intros d Hd. apply full_depth in Hd. pose proof (depth_nonneg c). lia. Qed.

Lemma measured_ends n m item : measured n m (slice item) -> item_ends item.
Proof.
  revert m item. induction (lt_wf n) as [n _ IHn]. intros m. induction (lt_wf m) as [m _ IHm]. intros item [Hd Hb] stack Hs.
  assert (forall i c, c ∈ slice_references (slice item) -> slice i = new_allow_exotic c -> item_ends i) as Hcell.
  { intros i c Hc Hi. pose proof (Hd c Hc). pose proof (depth_nonneg c).
    eapply (IHn (Z.to_nat (repr_depth c))); [lia|]. rewrite Hi. apply measured_cell. }
  apply ends_step.
  - intros st new item' _ (_ & base & Hp & Hlt & Hp' & Hnew). pose proof (size_bits_nonneg (range base)) as H0.
    unfold slice_bits in Hlt, Hb at 1.
    assert (forall i, part base (slice i) -> item_ends i) as Hbase.
    { intros i [[Hle Hr] _]. unfold slice_bits in Hle. apply (IHm (m - 1)%nat); [lia|]. split; [|unfold slice_bits; lia].
      intros c Hc. apply Hd. by apply (proj1 Hp), Hr. }
    apply ends_app; [|by apply Hbase].
    eapply Forall_impl; [exact Hnew|]. cbn beta. intros i [(c & Hc & Hi) | [Hi | (c & k & x & Hc & Hi)]].
    + eapply Hcell; [|exact Hi]. by apply (proj1 Hp).
    + by apply Hbase.
    + apply (proj1 Hp) in Hc. pose proof (Hd c Hc). pose proof (depth_nonneg c).
      apply (IHn (Z.to_nat (repr_depth c)) ltac:(lia) (Z.to_nat (slice_bits (slice i)))). split; [|lia].
      intros d Hc'. pose proof (entry_depth _ _ _ _ _ Hi Hc'). lia.
  - intros pushed Hp. apply ends_app; [|done]. eapply Forall_impl; [exact Hp|]. cbn beta.
    intros i (c & Hc & Hi). by eapply Hcell.
Qed.
End Stack.

(** C17: disassembly ends.  Whatever the code and the answers of the dictionaries, from some fuel
    on the disassembler gives one result, a structured code or an error, and the error is
    not that the fuel of one of its loops is spent. *)
Theorem disasm_ends (code : Cell) : exists fuel res,
  (forall f, (fuel <= f)%nat -> disasm_structured f code = res) /\
  match res with Ok _ => True | Err e => ~ out_of_fuel e end.
Proof.
  unfold disasm_structured. destruct dump_codepage0 as [cp|] eqn:Hcp.
  2: { exists 0%nat, (Err DisasmPanic). split; [done | by apply not_fuel]. }
  apply dispatch_reads in Hcp. unfold disasm_run.
  pose proof (yields_add_cont code resources_default) as Hr.
  destruct (add_cont code resources_default) as [[i|e] r] eqn:Ea.
  2: { exists 0%nat, (Err e). split; [|done]. intros f _. unfold bind. by rewrite Ea. }
  assert (exists root stack, (let (root, stack) := match i with inl item => (item_id item, [item]) | inr id => (id, []) end
    in (root, stack)) = (root, stack) /\ ends cp stack) as (root & stack & Hi & Hs).
  { destruct i as [item|id].
    - exists (item_id item), [item]. split; [done|]. eapply measured_ends; [done | |apply ends_nil].
      rewrite (Hr item eq_refl). apply measured_cell.
    - exists id, []. split; [done | apply ends_nil]. }
  destruct (Hs dump_default r ltac:(done)) as (fuel & res & Hfin & Hres).
  exists fuel, (match res with (Ok _, r) => Ok (mkCode root (res_items r)) | (Err e, _) => Err e end).
  split; [|by destruct res as [[]]].
  intros f Hf. unfold bind at 1. rewrite Ea. destruct i as [item|id]; injection Hi as <- <-;
    unfold bind, gets; rewrite (Hres f Hf); by destruct res as [[]].
Qed.
End Loops.
