(* ===== verification/DisasmLinks.v ===== *)
(** * The items of a disassembled code

    Ids are positions in the list of items, and an item is a stub until its code is read.
    Each id has a kind from when it is given, which its item keeps; so the links of the
    result are to items that are there, of the right kind, and read. *)

From Stdlib Require Import Ascii String.
From S2P Require Import Prelude External Cells Values VmStack VmGas VmRegs VmState Dispatch.
From S2P Require Import Serial Tokenizer Codepage Dump DumpOps Disasm.

Import Tokenizer Disasm.
Open Scope vm_scope.

(** ** Kinds *)

Inductive ItemKind := KCell | KSlice | KCont | KContSlice | KEntry | KTable | KLibrary.

(** What becomes a block of code, and whether in place. *)
Definition code_kind (k : ItemKind) : option bool :=
  match k with KCont => Some false | KContSlice | KEntry => Some true | _ => None end.

Section Kinds.
Context `{DL : DisasmLib}.
#[local] Abbreviation Kinds := (list ItemKind).
Implicit Types (K : Kinds) (r : Resources) (pend : list nat).

Definition has K (id : ItemId) (k : ItemKind) : Prop := K !! Z.to_nat id = Some k.

(** The kinds a cell and a slice argument and a tail may have. *)
Definition cell_kind K (id : ItemId) : Prop := has K id KCell \/ has K id KCont \/ has K id KLibrary.
Definition slice_kind K (id : ItemId) : Prop := has K id KSlice \/ has K id KContSlice \/ has K id KTable.
Definition link_kind K (id : ItemId) : Prop := cell_kind K id \/ slice_kind K id.
Definition next_kind K (id : ItemId) : Prop := has K id KCont \/ has K id KLibrary.

Definition arg_fits K (a : OpcodeArg) : Prop :=
  match a with ArgCell id => cell_kind K id | ArgSlice id => slice_kind K id | _ => True end.
Definition block_fits K (b : CodeBlock) : Prop :=
  (forall op a, op ∈ opcodes b -> a ∈ op_args op -> arg_fits K a) /\
  match tail b with Some (Child id) => next_kind K id | _ => True end.
Definition table_fits K (t : JumpTable) : Prop :=
  is_full_code t = true /\ forall e, e ∈ items t -> has K e.2 KEntry.

Definition fits K (k : ItemKind) (item : Item) : Prop :=
  match item with
  | ItemJumpTable t => k = KTable /\ table_fits K t
  | ItemCode b => code_kind k = Some (is_inline b) /\ block_fits K b
  | ItemData (DataCell _) => k = KCell \/ k = KCont \/ k = KEntry
  | ItemData (DataSlice _) => k = KSlice \/ k = KContSlice
  | ItemLibrary _ => k = KLibrary
  end.

(** Kinds are only added. *)
Lemma has_prefix K K' id k : K `prefix_of` K' -> has K id k -> has K' id k.
Proof. intros Hp H. by eapply prefix_lookup_Some. Qed.
Lemma arg_fits_prefix K K' a : K `prefix_of` K' -> arg_fits K a -> arg_fits K' a.
Proof. intros Hp. destruct a; cbn; unfold cell_kind, slice_kind; try done; intros [H|[H|H]]; eauto using has_prefix. Qed.
Lemma next_prefix K K' id : K `prefix_of` K' -> next_kind K id -> next_kind K' id.
Proof. intros Hp [H|H]; [left | right]; by eapply has_prefix. Qed.
Lemma block_fits_prefix K K' b : K `prefix_of` K' -> block_fits K b -> block_fits K' b.
Proof.
  intros Hp [Ho Ht]. split; [intros op a H1 H2; eapply arg_fits_prefix, Ho; eauto|].
  destruct (tail b) as [[|id]|]; try done. by eapply next_prefix.
Qed.
Lemma fits_prefix K K' k item : K `prefix_of` K' -> fits K k item -> fits K' k item.
Proof.
  intros Hp. destruct item as [t|b|[s|c]|h]; cbn; try done.
  - intros [-> [Hf Ht]]. split; [done|]. split; [done|]. intros e He. eapply has_prefix, Ht; eauto.
  - intros [Hk Hb]. split; [done|]. by eapply block_fits_prefix.
Qed.

(** ** The invariant *)

Definition is_code (item : Item) : bool := match item with ItemCode _ => true | _ => false end.
Definition map_fits {A} K (k : ItemKind) (m : list (A * ItemId)) : Prop := Forall (fun e => has K e.2 k) m.

(** The items fit their kinds, the maps give ids of their kinds, and what is to become code
    is code or one of [pend]. *)
Record Inv K pend r : Prop := mkInv {
  inv_items : Forall2 (fits K) K (res_items r);
  inv_cont : map_fits K KCont (cont_to_id r);
  inv_cont_slice : map_fits K KContSlice (cont_slice_to_id r);
  inv_cell : map_fits K KCell (cell_to_id r);
  inv_slice : map_fits K KSlice (slice_to_id r);
  inv_lib : map_fits K KLibrary (lib_to_id r);
  inv_dict : map_fits K KTable (dict_to_id r);
  inv_pend : forall i k item, K !! i = Some k -> is_Some (code_kind k) -> res_items r !! i = Some item ->
    is_code item = true \/ i ∈ pend
}.

Lemma map_fits_prefix {A} K K' k (m : list (A * ItemId)) : K `prefix_of` K' -> map_fits K k m -> map_fits K' k m.
Proof. intros Hp Hm. eapply Forall_impl; [exact Hm|]. intros e. by apply has_prefix. Qed.
Lemma hm_get_fits {A} `{EqDecision A} K k (key : A) (m : list (A * ItemId)) id :
  map_fits K k m -> hm_get key m = Some id -> has K id k.
Proof.
  intros Hm. induction Hm as [|[k' v] m Hv _ IH]; cbn; [done|]. case_bool_decide; [by intros [= <-] | exact IH].
Qed.

Lemma inv_pend_mono K pend pend' r : Inv K pend r -> (forall i, i ∈ pend -> i ∈ pend') -> Inv K pend' r.
Proof.
  intros [H1 H2 H3 H4 H5 H6 H7 H8] Hp. split; try done. intros i k item Hk Hc Hi.
  destruct (H8 i k item Hk Hc Hi); auto.
Qed.

(** The id of a new item. *)
Definition new_id r : ItemId := wrap_u 32 (Z.of_nat (length (res_items r))).
Definition small r : Prop := Z.of_nat (length (res_items r)) <= 2 ^ 32.

(** Adding an item of kind [k]. *)
Lemma inv_add K pend r k item : Inv K pend r -> fits (K ++ [k]) k item ->
  let r' := set_items (res_items r ++ [item]) r in
  small r' ->
  K `prefix_of` K ++ [k] /\ has (K ++ [k]) (new_id r) k /\
  Inv (K ++ [k]) (match code_kind k with Some _ => Z.to_nat (new_id r) :: pend | None => pend end) r'.
Proof.
  intros [H1 H2 H3 H4 H5 H6 H7 H8] Hf r' Hs.
  assert (K `prefix_of` K ++ [k]) as Hp by by exists [k].
  assert (length K = length (res_items r)) as HL by by eapply Forall2_length.
  assert (Z.to_nat (new_id r) = length K) as Hn.
  { unfold new_id, small, r' in *. cbn in Hs. rewrite length_app in Hs. cbn in Hs. unfold wrap_u. rewrite Z.mod_small; lia. }
  split; [done|]. split; [unfold has; rewrite Hn; by apply list_lookup_middle|].
  split; try (by eapply map_fits_prefix).
  - apply Forall2_app; [|by repeat constructor]. eapply Forall2_impl; [exact H1|]. intros. by eapply fits_prefix.
  - cbn. intros i k' item' Hk Hc Hi. rewrite Hn. apply lookup_app_Some in Hi as [Hi|[Hge Hi]].
    + rewrite lookup_app_l in Hk by (apply lookup_lt_Some in Hi; lia).
      destruct (H8 i k' item' Hk Hc Hi); [by left|]. right. by destruct (code_kind k); [right|].
    + apply list_lookup_singleton_Some in Hi as [Hi <-]. assert (i = length K) as -> by lia.
      rewrite list_lookup_middle in Hk by done. injection Hk as ->. right. destruct Hc as [b ->]. by left.
Qed.

(** ** Specifications *)

(** Items are only added; and while their number fits the ids, [m] keeps the invariant from
    kinds in [P]: it adds kinds, leaves [new] to become code, and its value is in [Q]. *)
Definition spec {A} (P : Kinds -> Prop) (Q : A -> Kinds -> list nat -> Prop) (m : ResM A) : Prop :=
  forall r, match m r with
  | (Ok a, r') => (length (res_items r) <= length (res_items r'))%nat /\
      (small r' -> forall K pend, Inv K pend r -> P K ->
        exists K' new, K `prefix_of` K' /\ Inv K' (new ++ pend) r' /\ Q a K' new)
  | (Err _, _) => True
  end.

Lemma spec_ok {A} P (Q : A -> Kinds -> list nat -> Prop) m r a r' : spec P Q m -> m r = (Ok a, r') ->
  (length (res_items r) <= length (res_items r'))%nat /\
  (small r' -> forall K pend, Inv K pend r -> P K ->
     exists K' new, K `prefix_of` K' /\ Inv K' (new ++ pend) r' /\ Q a K' new).
Proof. intros Hm E. pose proof (Hm r) as H. by rewrite E in H. Qed.
Lemma small_le r r' : (length (res_items r) <= length (res_items r'))%nat -> small r' -> small r.
Proof. unfold small. lia. Qed.

Lemma spec_bind {A B} (P : Kinds -> Prop) (Q : A -> Kinds -> list nat -> Prop) (Q' : B -> Kinds -> list nat -> Prop) m k :
  spec P Q m ->
  (forall a new, spec (fun K' => exists K, P K /\ K `prefix_of` K' /\ Q a K' new) (fun b K'' new' => Q' b K'' (new' ++ new)) (k a)) ->
  spec P Q' (bind m k).
Proof.
  intros Hm Hk r. pose proof (Hm r) as H1. unfold bind. destruct (m r) as [[a|e] r1]; [|done].
  destruct H1 as [Hl1 H1]. pose proof (fun new => Hk a new r1) as H2. destruct (k a r1) as [[b|e] r2]; [|done].
  destruct (H2 []) as [Hl2 _]. split; [lia|]. intros Hs K pend HI HP.
  destruct (H1 (small_le _ _ Hl2 Hs) K pend HI HP) as (K1 & new1 & Hp1 & HI1 & HQ1).
  destruct (H2 new1) as [_ H3].
  destruct (H3 Hs K1 (new1 ++ pend) HI1 (ex_intro _ K (conj HP (conj Hp1 HQ1)))) as (K2 & new2 & Hp2 & HI2 & HQ2).
  exists K2, (new2 ++ new1). split; [by etrans|]. split; [by rewrite <- app_assoc | done].
Qed.
Lemma spec_ret {A} (P : Kinds -> Prop) (Q : A -> Kinds -> list nat -> Prop) a : (forall K, P K -> Q a K []) -> spec P Q (ret a).
Proof. intros H r. split; [done|]. intros _ K pend HI HP. exists K, []. split; [done|]. by split; [|apply H]. Qed.
Lemma spec_raise {A} P (Q : A -> Kinds -> list nat -> Prop) e : spec P Q (raise e).
Proof. by intros r. Qed.
Lemma spec_impl {A} (P P' : Kinds -> Prop) (Q Q' : A -> Kinds -> list nat -> Prop) m :
  (forall K, P' K -> P K) -> (forall a K K' new, P' K -> K `prefix_of` K' -> Q a K' new -> Q' a K' new) ->
  spec P Q m -> spec P' Q' m.
Proof.
  intros HP HQ Hm r. pose proof (Hm r) as H. destruct (m r) as [[a|e] r']; [|done]. destruct H as [Hl H].
  split; [done|]. intros Hs K pend HI HP'. destruct (H Hs K pend HI (HP K HP')) as (K' & new & H1 & H2 & H3).
  exists K', new. eauto.
Qed.
Lemma spec_weaken {A} (P P' : Kinds -> Prop) (Q : A -> Kinds -> list nat -> Prop) m :
  (forall K, P' K -> P K) -> spec P Q m -> spec P' Q m.
Proof. intros HP. by apply spec_impl. Qed.
(** Reading the state. *)
Lemma spec_gets {A B} P (Q : B -> Kinds -> list nat -> Prop) (f : Resources -> A) (k : A -> ResM B) :
  (forall a, spec (fun K => P K /\ exists pend r, Inv K pend r /\ f r = a) Q (k a)) -> spec P Q (bind (gets f) k).
Proof.
  intros Hk r. unfold bind, gets. pose proof (Hk (f r) r) as H. destruct (k (f r) r) as [[b|e] r']; [|done].
  destruct H as [Hl H]. split; [done|]. intros Hs K pend HI HP. apply H; [done|done|]. split; [done|]. by exists pend, r.
Qed.
Lemma spec_of_result {A} (P : Kinds -> Prop) (Q : A -> Kinds -> list nat -> Prop) res :
  (forall a K, res = Ok a -> P K -> Q a K []) -> spec P Q (of_result res).
Proof. intros H. destruct res as [a|e]; [|done]. apply (spec_ret P Q a). auto. Qed.

(** A first computation without stubs. *)
Definition mono (P : Kinds -> Prop) : Prop := forall K K', K `prefix_of` K' -> P K -> P K'.
Lemma spec_seq {A B} (P : Kinds -> Prop) (Q : A -> Kinds -> Prop) (Q' : B -> Kinds -> list nat -> Prop) m k :
  mono P -> spec P (fun a K new => Q a K /\ new = []) m ->
  (forall a, spec (fun K => P K /\ Q a K) Q' (k a)) -> spec P Q' (bind m k).
Proof.
  intros HP Hm Hk. eapply spec_bind; [exact Hm|]. intros a new. eapply spec_impl; [| |apply (Hk a)].
  - intros K (K0 & H0 & Hp & HQ & _). split; [by eapply HP | done].
  - intros b K K' new' (K0 & _ & _ & _ & ->) _ H. by rewrite app_nil_r.
Qed.

(** ** Adding items *)

Definition stub (k : ItemKind) (id : ItemId) : list nat :=
  match code_kind k with Some _ => [Z.to_nat id] | None => [] end.

Lemma spec_add_item P k item : (forall K, P K -> fits (K ++ [k]) k item) ->
  spec P (fun id K' new => exists K, P K /\ K' = K ++ [k] /\ has K' id k /\ new = stub k id) (add_item item).
Proof.
  intros Hf r. unfold add_item, bind, gets, modify, ret. fold (new_id r).
  cbn [res_items set_items]. split; [rewrite length_app; lia|]. intros Hs K pend HI HP.
  destruct (inv_add K pend r k item HI (Hf K HP) Hs) as (Hp & Hh & HI'). exists (K ++ [k]), (stub k (new_id r)).
  split; [done|]. split; [unfold stub; by destruct (code_kind k) | by exists K].
Qed.
Lemma spec_modify P f : (forall K pend r, P K -> Inv K pend r -> Inv K pend (f r)) ->
  (forall r, res_items (f r) = res_items r) -> spec P (fun _ K new => P K /\ new = []) (modify f).
Proof.
  intros Hf Hr r. cbn. rewrite Hr. split; [done|]. intros _ K pend HI HP. exists K, []. split; [done|].
  split; [by apply Hf | done].
Qed.

(** An item and its entry in a map. *)
Lemma spec_add {A} P (Q : A -> Kinds -> list nat -> Prop) k item insert (a : ItemId -> A) :
  (forall K, P K -> fits (K ++ [k]) k item) ->
  (forall K id pend r, has K id k -> Inv K pend r -> Inv K pend (insert id r)) ->
  (forall id r, res_items (insert id r) = res_items r) ->
  (forall K id, P K -> has (K ++ [k]) id k -> Q (a id) (K ++ [k]) (stub k id)) ->
  spec P Q (let* id := add_item item in modify (insert id) ;; ret (a id)).
Proof.
  intros Hf Hins Hkeep HQ. eapply spec_bind; [by apply spec_add_item|]. intros id new.
  eapply spec_bind; [apply spec_modify; [|done]|].
  - intros K pend r (K0 & _ & _ & K1 & _ & -> & Hh & _). by apply Hins.
  - intros [] new'. apply spec_ret. intros K (K0 & _ & _ & (K1 & _ & _ & K2 & HP & -> & Hh & ->) & ->). by apply HQ.
Qed.

(** The maps. *)
Lemma inv_set_cont K id pend r h : has K id KCont -> Inv K pend r -> Inv K pend (set_cont h id r).
Proof. intros Hh []. split; try done. by constructor. Qed.
Lemma inv_set_cont_slice K id pend r h : has K id KContSlice -> Inv K pend r -> Inv K pend (set_cont_slice h id r).
Proof. intros Hh []. split; try done. by constructor. Qed.
Lemma inv_set_cell K id pend r h : has K id KCell -> Inv K pend r -> Inv K pend (set_cell h id r).
Proof. intros Hh []. split; try done. by constructor. Qed.
Lemma inv_set_slice K id pend r h : has K id KSlice -> Inv K pend r -> Inv K pend (set_slice h id r).
Proof. intros Hh []. split; try done. by constructor. Qed.
Lemma inv_set_lib K id pend r h : has K id KLibrary -> Inv K pend r -> Inv K pend (set_lib h id r).
Proof. intros Hh []. split; try done. by constructor. Qed.
Lemma inv_set_dict K id pend r h : has K id KTable -> Inv K pend r -> Inv K pend (set_dict h id r).
Proof. intros Hh []. split; try done. by constructor. Qed.

Lemma spec_or_insert k found insert item :
  code_kind k = None -> (forall K, fits K k item) ->
  (forall K pend r id, Inv K pend r -> found r = Some id -> has K id k) ->
  (forall K id pend r, has K id k -> Inv K pend r -> Inv K pend (insert id r)) ->
  (forall id r, res_items (insert id r) = res_items r) ->
  spec (fun _ => True) (fun id K new => has K id k /\ new = []) (or_insert found insert item).
Proof.
  intros Hk Hf Hfound Hins Hkeep. unfold or_insert. apply spec_gets. intros [id|].
  - apply spec_ret. intros K [_ (pend & r & HI & E)]. split; [by eapply Hfound | done].
  - apply (spec_add _ _ k); try done. intros K id _ Hh. unfold stub. by rewrite Hk.
Qed.

Lemma spec_add_library c : spec (fun _ => True) (fun id K new => has K id KLibrary /\ new = []) (add_library c).
Proof.
  apply spec_or_insert; try done; [|intros; by apply inv_set_lib].
  intros K pend r id HI. apply hm_get_fits, (inv_lib _ _ _ HI).
Qed.
Lemma spec_add_cell c : spec (fun _ => True) (fun id K new => has K id KCell /\ new = []) (add_cell c).
Proof.
  apply spec_or_insert; try done; [by left| |intros; by apply inv_set_cell].
  intros K pend r id HI. apply hm_get_fits, (inv_cell _ _ _ HI).
Qed.
Lemma spec_add_slice x : spec (fun _ => True) (fun id K new => has K id KSlice /\ new = []) (add_slice x).
Proof.
  apply spec_or_insert; try done; [by left| |intros; by apply inv_set_slice].
  intros K pend r id HI. apply hm_get_fits, (inv_slice _ _ _ HI).
Qed.

(** What is on the stack. *)
Definition item_fits K (i : DumpStackItem) : Prop :=
  exists k, has K (item_id i) k /\ code_kind k = Some (is_inline (block i)) /\ block_fits K (block i) /\
    match save_to i with Some s => k = KEntry /\ has K (jump_table_id s) KTable | None => True end.
Definition ids (l : list DumpStackItem) : list nat := (fun i => Z.to_nat (item_id i)) <$> l.

Lemma item_fits_prefix K K' i : K `prefix_of` K' -> item_fits K i -> item_fits K' i.
Proof.
  intros Hp (k & H1 & H2 & H3 & H4). exists k. split; [by eapply has_prefix|]. split; [done|].
  split; [by eapply block_fits_prefix|]. destruct (save_to i); [|done]. destruct H4. split; [done | by eapply has_prefix].
Qed.
Lemma stack_item_fits K k id x inline save : has K id k -> code_kind k = Some inline ->
  match save with Some s => k = KEntry /\ has K (jump_table_id s) KTable | None => True end ->
  item_fits K (stack_item id x inline save).
Proof.
  intros H1 H2 H3. exists k. split; [done|]. split; [done|]. split; [|done].
  split; [intros op a []%not_elem_of_nil | done].
Qed.

(** An id for a link and the continuations that are new. *)
Definition linked (P : Kinds -> ItemId -> Prop) (x : ItemId * list DumpStackItem) K new : Prop :=
  P K x.1 /\ Forall (item_fits K) x.2 /\ new ⊆ ids x.2.
Definition entered (P : Kinds -> ItemId -> Prop) (x : DumpStackItem + ItemId) K new : Prop :=
  match x with
  | inl i => P K (item_id i) /\ item_fits K i /\ new = [Z.to_nat (item_id i)]
  | inr id => P K id /\ new = []
  end.

Lemma spec_add_cont c : spec (fun _ => True) (entered next_kind) (add_cont c).
Proof.
  unfold add_cont. destruct (is_library c).
  - eapply spec_bind; [apply spec_add_library|]. intros id new. apply spec_ret.
    intros K (? & _ & _ & Hh & ->). split; [by right | done].
  - apply spec_gets. intros [id|].
    + apply spec_ret. intros K [_ (pend & r & HI & E)]. split; [|done]. left. by eapply hm_get_fits, E; apply HI.
    + apply (spec_add _ _ KCont); try done; [by right; left | intros; by apply inv_set_cont |].
      intros K id _ Hh. split; [by left|]. split; [by eapply stack_item_fits | done].
Qed.
Lemma spec_add_cont_slice x : spec (fun _ => True) (entered (fun K id => has K id KContSlice)) (add_cont_slice x).
Proof.
  unfold add_cont_slice. apply spec_gets. intros [id|].
  - apply spec_ret. intros K [_ (pend & r & HI & E)]. split; [|done]. by eapply hm_get_fits, E; apply HI.
  - apply (spec_add _ _ KContSlice); try done; [by right | intros; by apply inv_set_cont_slice |].
    intros K id _ Hh. split; [done|]. split; [by eapply stack_item_fits | done].
Qed.

(** ** Changing items *)

(** An item replaced by one that fits, and is code if it was. *)
Lemma inv_replace K pend pend' r i k item old : Inv K pend r -> K !! i = Some k -> fits K k item ->
  res_items r !! i = Some old -> (is_code old = true -> is_code item = true) ->
  (forall j, j ∈ pend -> j ∈ pend' \/ j = i /\ is_code item = true) ->
  Inv K pend' (set_items (<[i := item]> (res_items r)) r).
Proof.
  intros [H1 H2 H3 H4 H5 H6 H7 H8] Hk Hf Ho Hc Hp. split; try done.
  - cbn. pose proof (Forall2_insert (fits K) K (res_items r) k item i H1 Hf) as H. by rewrite list_insert_id in H.
  - cbn. intros j k' item' Hk' Hc' Hj. destruct (decide (i = j)) as [<-|Hne].
    + rewrite list_lookup_insert_eq in Hj by exact (lookup_lt_Some _ _ _ Ho). injection Hj as <-.
      destruct (H8 i k' old Hk' Hc' Ho) as [Hcode|Hin]; [left; auto|]. destruct (Hp i Hin) as [|[_ ?]]; auto.
    + rewrite list_lookup_insert_ne in Hj by done. destruct (H8 j k' item' Hk' Hc' Hj) as [|Hin]; [by left|].
      destruct (Hp j Hin) as [|[-> _]]; [by right | done].
Qed.

Lemma inv_lookup K pend r i item : Inv K pend r -> res_items r !! i = Some item ->
  exists k, K !! i = Some k /\ fits K k item.
Proof. intros HI Hi. destruct (Forall2_lookup_r _ _ _ _ _ (inv_items _ _ _ HI) Hi) as (k & Hk & Hf). by exists k. Qed.

Lemma update_table_inv K pend r id f r' :
  Inv K pend r -> (forall t, table_fits K t -> table_fits K (f t)) -> update_table id f r = (Ok tt, r') ->
  Inv K pend r'.
Proof.
  intros HI Hf. unfold update_table, bind, gets. destruct (res_items r !! Z.to_nat id) as [[t| | |]|] eqn:Hi; try done.
  intros [= <-]. destruct (inv_lookup _ _ _ _ _ HI Hi) as (k & Hk & -> & Ht).
  eapply inv_replace; [done|exact Hk| |exact Hi|done|by left]. split; [done | by apply Hf].
Qed.
Lemma update_table_length r id f r' : update_table id f r = (Ok tt, r') -> length (res_items r') = length (res_items r).
Proof.
  unfold update_table, bind, gets. destruct (res_items r !! Z.to_nat id) as [[t| | |]|]; try done.
  intros [= <-]. apply length_insert.
Qed.
Lemma spec_update_table P id f :
  (forall K, P K -> forall t, table_fits K t -> table_fits K (f t)) ->
  spec P (fun _ K new => P K /\ new = []) (update_table id f).
Proof.
  intros HP r. destruct (update_table id f r) as [[[]|e] r'] eqn:E; [|done].
  split; [by rewrite (update_table_length _ _ _ _ E)|]. intros _ K pend HI HK. exists K, [].
  split; [done|]. split; [|done]. eapply update_table_inv; [exact HI | by apply HP | exact E].
Qed.

(** ** Jump tables *)

Lemma ids_app l l' : ids (l ++ l') = ids l ++ ids l'.
Proof. apply fmap_app. Qed.

Lemma spec_jump_entries table n entries to_parse :
  spec (fun K => has K table KTable /\ Forall (item_fits K) to_parse)
    (fun x K new => has K table KTable /\ Forall (item_fits K) x.2 /\ new ⊆ ids x.2 /\ ids to_parse ⊆ ids x.2)
    (jump_entries table n entries to_parse).
Proof.
  revert to_parse. induction entries as [|[[k v]|e] entries IH]; intros l; cbn [jump_entries];
    [apply spec_ret; intros K []; set_solver| | apply spec_ret; intros K []; set_solver].
  destruct (load_bigint _ _ _ _) as [[z ?]|]; [|apply spec_ret; intros K []; set_solver].
  eapply spec_bind; [apply (spec_add_item _ KEntry); right; by right|]. intros id new.
  eapply spec_impl; [| |apply IH].
  - intros K' (K & [Ht Hl] & Hp & K0 & _ & _ & Hh & _). split; [by eapply has_prefix|]. apply Forall_app. split.
    + eapply Forall_impl; [exact Hl|]. intros i. by apply item_fits_prefix.
    + apply Forall_singleton. eapply stack_item_fits; [exact Hh | done |]. split; [done | by eapply has_prefix].
  - intros x K K' new' (K0 & _ & _ & K1 & _ & _ & _ & ->) _ (Ht & Hx & Hn & Hl). rewrite ids_app in Hl.
    split; [done|]. split; [done|]. unfold stub. cbn in *. set_solver.
Qed.

Definition table_entered (x : (ItemId * list DumpStackItem) + ItemId) K new : Prop :=
  match x with
  | inl (id, l) => has K id KTable /\ Forall (item_fits K) l /\ new ⊆ ids l
  | inr id => has K id KTable /\ new = []
  end.

Lemma spec_add_jump_table n root : spec (fun _ => True) table_entered (add_jump_table n root).
Proof.
  unfold add_jump_table. apply spec_gets. intros [id|].
  { apply spec_ret. intros K [_ (pend & r & HI & E)]. split; [|done]. by eapply hm_get_fits, E; apply HI. }
  apply (spec_weaken (fun _ => True)); [done|].
  apply (spec_seq _ (fun id K => has K id KTable)); [done| |intros id].
  { eapply spec_impl; [| |apply (spec_add_item (fun _ => True) KTable)].
    - done.
    - intros id K K' new _ _ (K0 & _ & _ & Hh & ->). done.
    - intros K _. split; [done|]. split; [done | intros e []%not_elem_of_nil]. }
  apply (spec_seq _ (fun _ K => has K id KTable)).
  { intros K K' Hp [_ Hh]. split; [done | by eapply has_prefix]. }
  { eapply spec_impl; [| |apply (spec_modify (fun K => has K id KTable)); [|done]].
    - by intros K [].
    - by intros [] K K' new _ _ [].
    - intros K pend r. apply inv_set_dict. }
  intros []. eapply spec_bind.
  { eapply spec_weaken; [|apply spec_jump_entries]. intros K [_ Hh]. split; [exact Hh | constructor]. }
  intros [ok l] new. cbn [snd]. apply (spec_weaken (fun K => has K id KTable /\ Forall (item_fits K) l /\ new ⊆ ids l)).
  { intros K (K0 & _ & _ & Hh & Hl & Hn & _). done. }
  apply (spec_seq _ (fun _ _ => True)).
  { intros K K' Hp (Hh & Hl & Hn). split; [by eapply has_prefix|]. split; [|done].
    eapply Forall_impl; [exact Hl|]. intros i. by apply item_fits_prefix. }
  { destruct ok; [|by apply spec_ret]. eapply spec_impl; [| |apply (spec_update_table (fun _ => True))].
    - done.
    - by intros [] K K' new' _ _ [_ ->].
    - intros K _ t [_ Ht]. by split. }
  intros []. by apply spec_ret; intros K [? _].
Qed.

(** ** The links of an opcode *)

Lemma link_prefix K K' id : K `prefix_of` K' -> link_kind K id -> link_kind K' id.
Proof. intros Hp [H|H]; [left; by apply (arg_fits_prefix K K' (ArgCell id)) | right; by apply (arg_fits_prefix K K' (ArgSlice id))]. Qed.
Lemma links_prefix K K' l : K `prefix_of` K' -> Forall (link_kind K) l -> Forall (link_kind K') l.
Proof. intros Hp Hl. eapply Forall_impl; [exact Hl|]. intros id. by apply link_prefix. Qed.
Lemma items_prefix K K' l : K `prefix_of` K' -> Forall (item_fits K) l -> Forall (item_fits K') l.
Proof. intros Hp Hl. eapply Forall_impl; [exact Hl|]. intros i. by apply item_fits_prefix. Qed.

(** The ids and the new continuations of a list. *)
Definition all_linked (x : list ItemId * list DumpStackItem) K new : Prop :=
  Forall (link_kind K) x.1 /\ Forall (item_fits K) x.2 /\ new ⊆ ids x.2.

Lemma all_linked_nil K : all_linked ([], []) K [].
Proof. split; [constructor|]. split; [constructor | done]. Qed.
Lemma all_linked_app K K' ls ls' ns ns' new new' : K `prefix_of` K' ->
  all_linked (ls, ns) K new -> all_linked (ls', ns') K' new' -> all_linked (ls ++ ls', ns ++ ns') K' (new' ++ new).
Proof.
  intros Hp (H1 & H2 & H3) (H4 & H5 & H6). cbn [fst snd] in *. split; [|split]; cbn [fst snd].
  - apply Forall_app. split; [by eapply links_prefix | done].
  - apply Forall_app. split; [by eapply items_prefix | done].
  - rewrite ids_app. set_solver.
Qed.

Lemma spec_link_all {A} (add : A -> ResM (ItemId * list DumpStackItem)) (xs : list A) :
  (forall x : A, spec (fun _ => True) (linked link_kind) (add x)) ->
  spec (fun _ => True) all_linked (link_all add xs).
Proof.
  intros Hadd. induction xs as [|x xs IH]; cbn [link_all]; [apply spec_ret; intros; apply all_linked_nil|].
  eapply spec_bind; [apply Hadd|]. intros [id l] new.
  eapply spec_bind; [eapply spec_weaken; [|exact IH]; done|]. intros [links rest] new'. apply spec_ret.
  intros K (K1 & (K0 & _ & _ & H1 & H2 & H3) & Hp & H).
  apply (all_linked_app K1 K [id] links l rest new new' Hp); [|exact H]. split; [by apply Forall_singleton | done].
Qed.

Lemma spec_link_data {A} (add : A -> ResM ItemId) (xs : list A) :
  (forall x : A, spec (fun _ => True) (fun id K new => link_kind K id /\ new = []) (add x)) ->
  spec (fun _ => True) (fun x K new => Forall (link_kind K) x.1 /\ new = []) (link_all (fun x => no_conts (add x)) xs).
Proof.
  intros Hadd. induction xs as [|x xs IH]; cbn [link_all]; [apply spec_ret; intros; split; constructor|].
  unfold no_conts at 1.
  apply (spec_seq _ (fun x K => link_kind K x.1)); [done| |].
  { apply (spec_seq _ (fun id K => link_kind K id)); [done|apply Hadd|]. intros id. apply spec_ret. intros K [_ H]. split; [exact H | done]. }
  intros [id l]. apply (spec_seq _ (fun x K => Forall (link_kind K) x.1)).
  { intros K K' Hp [_ Hl]. split; [done | by eapply link_prefix]. }
  { by eapply spec_weaken, IH. }
  intros [links rest]. apply spec_ret. intros K [[_ H1] H2]. split; [by constructor | done].
Qed.
Lemma spec_one_cont m P : (forall K id, P K id -> link_kind K id) -> spec (fun _ => True) (entered P) m ->
  spec (fun _ => True) (linked link_kind) (one_cont m).
Proof.
  intros HP Hm. eapply spec_bind; [exact Hm|]. intros [i|id] new; apply spec_ret; intros K (K0 & _ & _ & He).
  - destruct He as (Hk & Hf & ->). split; [by apply HP|]. split; [by apply Forall_singleton | done].
  - destruct He as [Hk ->]. split; [by apply HP | done].
Qed.
Lemma spec_table_conts m : spec (fun _ => True) table_entered m -> spec (fun _ => True) (linked link_kind) (table_conts m).
Proof.
  intros Hm. eapply spec_bind; [exact Hm|]. intros [[id l]|id] new; apply spec_ret; intros K (K0 & _ & _ & He).
  - destruct He as (Hk & Hf & Hn). split; [right; right; by right | done].
  - destruct He as [Hk ->]. split; [right; right; by right | done].
Qed.

Lemma spec_collect st : spec (fun _ => True) all_linked (collect st).
Proof.
  unfold collect. apply (spec_seq _ (fun x K => Forall (link_kind K) x.1)); [done| |intros [l1 n1]].
  { apply spec_link_data. intros c. eapply spec_impl; [| |apply spec_add_cell]; [done|].
    intros id K K' new _ _ [Hh ->]. split; [|done]. left. by left. }
  apply (spec_seq _ (fun x K => Forall (link_kind K) x.1)); [| |intros [l2 n2]].
  { intros K K' Hp [_ Hl]. split; [done | by eapply links_prefix]. }
  { eapply spec_weaken; [|apply spec_link_data]; [done|]. intros c. eapply spec_impl; [| |apply spec_add_slice]; [done|].
    intros id K K' new _ _ [Hh ->]. split; [|done]. right. by left. }
  cbn [fst]. set (P K := (True /\ Forall (link_kind K) l1) /\ Forall (link_kind K) l2).
  eapply spec_bind; [eapply spec_weaken; [|apply spec_link_all]; [done|]; intros c; eapply spec_one_cont; [|apply spec_add_cont]|].
  { intros K id [H|H]; left; right; [by left | by right]. }
  intros [l3 n3] new3.
  eapply spec_bind; [eapply spec_weaken; [|apply spec_link_all]; [done|]; intros c; eapply spec_one_cont; [|apply spec_add_cont_slice]|].
  { intros K id H. right; right; by left. }
  intros [l4 n4] new4.
  eapply spec_bind; [eapply spec_weaken; [|apply spec_link_all]; [done|]; intros d; apply spec_table_conts, spec_add_jump_table|].
  intros [l5 n5] new5. apply spec_ret.
  intros K (K5 & (K4 & (K3 & [[_ H1] H2] & Hp3 & H3) & Hp4 & H4) & Hp5 & H5).
  pose proof (all_linked_app _ _ _ _ _ _ _ _ Hp4 H3 H4) as H34.
  pose proof (all_linked_app _ _ _ _ _ _ _ _ Hp5 H34 H5) as (H6 & H7 & H8). cbn [fst snd] in *.
  split; [|split]; cbn [fst snd].
  - assert (K3 `prefix_of` K) as Hp by (etrans; [exact Hp3|]; by etrans).
    rewrite <- app_assoc in H6. apply Forall_app. split; [by eapply links_prefix|]. apply Forall_app.
    split; [by eapply links_prefix | exact H6].
  - by rewrite <- app_assoc in H7.
  - rewrite !ids_app in *. set_solver.
Qed.

(** What was checked of a link, with what the id may be, tells its kind. *)
Lemma cell_link_kind K l id : Forall2 (fits K) K l -> link_kind K id -> cell_link l id = Ok tt -> cell_kind K id.
Proof.
  intros Hl Hk. unfold cell_link. destruct (l !! Z.to_nat id) as [item|] eqn:Hi; [|done].
  destruct (Forall2_lookup_r _ _ _ _ _ Hl Hi) as (k & HK & Hf).
  destruct Hk as [Hk|[Hh|[Hh|Hh]]]; [done|..]; unfold has in Hh; rewrite HK in Hh; injection Hh as ->;
    destruct item as [t|b|[x|c]|h]; cbn in Hf; try done; try (destruct Hf as [Hf _]; done); try naive_solver.
  all: destruct (is_inline b); [done|]; destruct Hf as [Hf _]; cbn in Hf; naive_solver.
Qed.
Lemma slice_link_kind K l id : Forall2 (fits K) K l -> link_kind K id -> slice_link l id = Ok tt -> slice_kind K id.
Proof.
  intros Hl Hk. unfold slice_link. destruct (l !! Z.to_nat id) as [item|] eqn:Hi; [|done].
  destruct (Forall2_lookup_r _ _ _ _ _ Hl Hi) as (k & HK & Hf).
  destruct Hk as [[Hh|[Hh|Hh]]|Hk]; [..|done]; unfold has in Hh; rewrite HK in Hh; injection Hh as ->;
    destruct item as [t|b|[x|c]|h]; cbn in Hf; try done; try (destruct Hf as [Hf _]; done); try naive_solver.
  all: destruct (is_inline b); [|done]; destruct Hf as [Hf _]; cbn in Hf; naive_solver.
Qed.

Lemma link_args_fit K l args links res : Forall2 (fits K) K l -> Forall (link_kind K) links ->
  link_args l args links = Ok res -> Forall (arg_fits K) res.
Proof.
  intros Hl. revert links res. induction args as [|a args IH]; intros links res Hk; cbn [link_args].
  { destruct links; [|done]. intros [= <-]. constructor. }
  assert (forall a' links', arg_fits K a' -> Forall (link_kind K) links' ->
    (let? args' := link_args l args links' in Ok (a' :: args')) = Ok res -> Forall (arg_fits K) res) as Hcons.
  { intros a' links' Ha' Hk'. destruct (link_args l args links') as [args'|] eqn:E; [|done]. intros [= <-].
    constructor; [done | by eapply IH]. }
  destruct a as [z|z|z| |].
  1-3: by apply Hcons.
  all: destruct links as [|id links]; [done|]; apply Forall_cons in Hk as [Hid Hk].
  - destruct (cell_link l id) as [[]|] eqn:E; [|done]. apply Hcons; [|done]. by eapply cell_link_kind.
  - destruct (slice_link l id) as [[]|] eqn:E; [|done]. apply Hcons; [|done]. by eapply slice_link_kind.
Qed.

Lemma spec_tokenize text links :
  spec (fun K => Forall (link_kind K) links) (fun x K new => Forall (arg_fits K) x.2 /\ new = []) (tokenize_links text links).
Proof.
  unfold tokenize_links. intros r. unfold bind, map_err, of_result, gets.
  destruct (tokenize text) as [tokens|e]; [|done].
  destruct (link_args (res_items r) (args tokens) links) as [res|e] eqn:E; [|done]. split; [done|].
  intros _ K pend HI HP. exists K, []. split; [done|]. split; [done|]. split; [|done].
  eapply link_args_fit; [apply HI | exact HP | exact E].
Qed.

(** ** Reading an item *)

Definition inner_fits (id : ItemId) (e : InnerEnd) K new : Prop :=
  match e with
  | NewConts item _ l => item_id item = id /\ item_fits K item /\ Forall (item_fits K) l /\ new ⊆ ids l
  | Parsed item _ _ _ => item_id item = id /\ item_fits K item /\ new = []
  end.

Lemma push_opcode_fits K item op : item_fits K item -> Forall (arg_fits K) (op_args op) -> item_fits K (push_opcode op item).
Proof.
  intros (k & H1 & H2 & [H3 H3'] & H4) Ha. exists k. do 2 (split; [done|]). split; [|done]. split; [|done].
  cbn. intros o a [Ho | ->%list_elem_of_singleton]%elem_of_app; [by apply H3|]. by apply Forall_forall.
Qed.

Lemma spec_inner cp fuel item cs st :
  spec (fun K => item_fits K item) (inner_fits (item_id item)) (inner cp fuel item cs st).
Proof.
  revert item cs st. induction fuel as [|fuel IH]; intros item cs st; cbn [inner];
    (destruct (is_data_empty (range cs)); [apply spec_ret; by intros K HK | ]); [apply spec_raise|].
  destruct (dispatch_dump cp (cs, st)) as [[[]|e] [cs' st']].
  2: { destruct e; try apply spec_raise. apply spec_ret. by intros K HK. }
  eapply spec_bind; [eapply spec_weaken; [|apply spec_collect]; done|]. intros [links new0] new.
  apply (spec_weaken (fun K => item_fits K item /\ all_linked (links, new0) K new)).
  { intros K (K0 & H0 & Hp & H1). split; [by eapply item_fits_prefix | done]. }
  apply (spec_seq _ (fun x K => Forall (arg_fits K) x.2)).
  { intros K K' Hp [H0 (H1 & H2 & H3)]. split; [by eapply item_fits_prefix|].
    split; [by eapply links_prefix|]. split; [by eapply items_prefix | done]. }
  { eapply spec_weaken; [|apply spec_tokenize]. by intros K [_ [H _]]. }
  intros [name l]. cbn zeta. cbn [snd].
  set (item' := push_opcode _ _).
  assert (forall K, (item_fits K item /\ all_linked (links, new0) K new) /\ Forall (arg_fits K) l -> item_fits K item') as Hfits.
  { intros K [[(k & H1 & H2 & H3 & H4) _] Ha]. apply push_opcode_fits; [by exists k | done]. }
  destruct new0 as [|n0 new0].
  - eapply spec_impl; [| |apply (IH item')].
    + exact Hfits.
    + intros e K K' new' [[_ (_ & _ & Hn)] _] _ H. cbn in Hn. assert (new = []) as ->.
      { destruct new as [|n new]; [done|]. exfalso. apply (not_elem_of_nil n), Hn. by left. }
      by rewrite app_nil_r.
  - apply spec_ret. intros K H. split; [done|]. split; [by apply Hfits|]. destruct H as [[_ (_ & H2 & H3)] _]. done.
Qed.

(** ** The end of an item *)

(** The tail and the continuation of the code in the next cell. *)
Definition tail_fits (x : option CodeBlockTail * list DumpStackItem) K new : Prop :=
  match x.1 with Some (Child id) => next_kind K id | _ => True end /\ Forall (item_fits K) x.2 /\ new ⊆ ids x.2.

Lemma spec_tail next incomplete :
  spec (fun _ => True) tail_fits
    (match next with
     | Some next =>
         let* x := add_cont next in
         match x with
         | inl next_item => ret (Some (Child (item_id next_item)), [next_item])
         | inr next_id => ret (Some (Child next_id), [])
         end
     | None => ret (if incomplete : bool then Some Incomplete else None, [])
     end).
Proof.
  destruct next as [c|]; [|apply spec_ret; intros K _; destruct incomplete; by repeat constructor].
  eapply spec_bind; [apply spec_add_cont|]. intros [i|id] new; apply spec_ret; intros K (K0 & _ & _ & He).
  - destruct He as (H1 & H2 & ->). split; [done|]. split; [by apply Forall_singleton | done].
  - destruct He as [H1 ->]. split; [done|]. by split.
Qed.

(** A read block takes the place of its stub, which is no longer awaited. *)
Lemma save_block_inv K pend r r' item t : Inv K (Z.to_nat (item_id item) :: pend) r ->
  item_fits K item -> match t with Some (Child id) => next_kind K id | _ => True end ->
  save_block (item_id item) (set_tail t (block item)) r = (Ok tt, r') ->
  Inv K pend r' /\ length (res_items r') = length (res_items r).
Proof.
  intros HI (k & H1 & H2 & [H3 _] & H4) Ht. unfold save_block, bind, gets. case_bool_decide as Hlt; [|done].
  intros [= <-]. split; [|apply length_insert].
  destruct (lookup_lt_is_Some_2 _ _ Hlt) as [old Hold].
  eapply inv_replace; [exact HI | exact H1 | | exact Hold | done |].
  - split; [done|]. split; [exact H3 | exact Ht].
  - intros j [->|Hj]%elem_of_cons; [by right | by left].
Qed.
Lemma save_block_length r r' id b : save_block id b r = (Ok tt, r') -> length (res_items r') = length (res_items r).
Proof. unfold save_block, bind, gets. case_bool_decide; [|done]. intros [= <-]. apply length_insert. Qed.

Lemma finish_inv item cs incomplete r pushed r' : finish_item item cs incomplete r = (Ok pushed, r') ->
  (length (res_items r) <= length (res_items r'))%nat /\
  (small r' -> forall K pend, Inv K (Z.to_nat (item_id item) :: pend) r -> item_fits K item ->
     exists K', K `prefix_of` K' /\ Inv K' (ids pushed ++ pend) r' /\ Forall (item_fits K') pushed).
Proof.
  unfold finish_item. intros E. apply bind_inv in E as (next & r0 & E0 & E).
  assert (r0 = r) as ->.
  { destruct (_ && _); [|by injection E0 as _ <-]. unfold map_err, of_result, bind in E0.
    destruct (slice_load_reference cs) as [[c s]|]; [by injection E0 as _ <- | done]. }
  apply bind_inv in E as ([t l] & r1 & E1 & E). destruct (spec_ok _ _ _ _ _ _ (spec_tail next incomplete) E1) as [Hl1 Ht].
  apply bind_inv in E as ([] & r2 & Es & E).
  pose proof (save_block_length _ _ _ _ Es) as Hl2. apply bind_inv in E as ([] & r3 & Eu & E). injection E as <- <-.
  assert (length (res_items r3) = length (res_items r2)) as Hl3.
  { destruct (save_to item); [by eapply update_table_length | by injection Eu as <-]. }
  split; [lia|]. intros Hs K pend HI Hf.
  assert (small r1) as Hs1 by (unfold small in *; lia).
  destruct (Ht Hs1 K _ HI I) as (K1 & new & Hp & HI1 & Ht1 & Hl & Hn). cbn [fst snd] in *.
  apply (item_fits_prefix _ _ _ Hp) in Hf. exists K1. split; [done|]. split; [|done].
  apply (inv_pend_mono _ _ (Z.to_nat (item_id item) :: ids l ++ pend)) in HI1.
  2: { intros i [Hi|[->|Hi]%elem_of_cons]%elem_of_app; [|by left|].
       - right. apply elem_of_app. left. by apply Hn.
       - right. apply elem_of_app. by right. }
  destruct (save_block_inv _ _ _ _ _ _ HI1 Hf Ht1 Es) as [HI2 _].
  destruct (save_to item) as [save|] eqn:Ev; [|by injection Eu as <-].
  eapply update_table_inv; [exact HI2 | | exact Eu].
  intros tbl [Hfull Hit]. split; [done|]. cbn. intros e [He | ->%list_elem_of_singleton]%elem_of_app; [by apply Hit|].
  destruct Hf as (k & Hk & _ & _ & Hs'). rewrite Ev in Hs'. by destruct Hs' as [-> _].
Qed.

(** ** The stack *)

Lemma outer_inv cp fuel stack st r r' : outer cp fuel stack st r = (Ok tt, r') ->
  (length (res_items r) <= length (res_items r'))%nat /\
  (small r' -> forall K, Inv K (ids stack) r -> Forall (item_fits K) stack ->
     exists K', K `prefix_of` K' /\ Inv K' [] r').
Proof.
  revert stack st r. induction fuel as [|fuel IH]; intros [|item stack] st r; cbn [outer]; try done;
    try (intros [= <-]; split; [done|]; intros _ K HI _; by exists K).
  unfold map_err, of_result, bind. destruct (range_apply _ _) as [cs|]; [|done].
  pose proof (spec_inner cp (Z.to_nat (slice_bits cs)) item cs (set_root (cell (slice item)) st) r) as Hi.
  destruct (inner _ _ _ _ _ r) as [[e|e] r1]; [|done]. destruct Hi as [Hl1 Hi].
  destruct e as [item' st' new|item' cs' st' inc].
  - intros Ho. destruct (IH _ _ _ Ho) as [Hl2 H2]. split; [lia|]. intros Hs K HI Hf.
    apply Forall_cons in Hf as [Hf Hstack].
    destruct (Hi (small_le _ _ Hl2 Hs) K _ HI Hf) as (K1 & n & Hp & HI1 & Hid & Hf' & Hnew & Hn).
    destruct (H2 Hs K1) as (K2 & Hp2 & HI2).
    + eapply inv_pend_mono; [exact HI1|]. intros i. rewrite ids_app. cbn. rewrite Hid, !elem_of_app.
      intros [Hi'|Hi']; [left; by apply Hn | by right].
    + apply Forall_app. split; [done|]. constructor; [done | by eapply items_prefix].
    + exists K2. split; [by etrans | done].
  - destruct (finish_item item' cs' inc r1) as [[pushed|e] r2] eqn:Ef; [|done]. intros Ho.
    destruct (finish_inv _ _ _ _ _ _ Ef) as [Hl2 H2]. destruct (IH _ _ _ Ho) as [Hl3 H3]. split; [lia|].
    intros Hs K HI Hf. apply Forall_cons in Hf as [Hf Hstack].
    assert (small r2) as Hs2 by (unfold small in *; lia). assert (small r1) as Hs1 by (unfold small in *; lia).
    destruct (Hi Hs1 K _ HI Hf) as (K1 & n & Hp & HI1 & Hid & Hf' & ->).
    cbn [app] in HI1. change (ids (item :: stack)) with (Z.to_nat (item_id item) :: ids stack) in HI1. rewrite <- Hid in HI1.
    destruct (H2 Hs2 K1 _ HI1 Hf') as (K2 & Hp2 & HI2 & Hpushed).
    destruct (H3 Hs K2) as (K3 & Hp3 & HI3).
    + by rewrite ids_app.
    + apply Forall_app. split; [done|]. eapply items_prefix; [|exact Hstack]. by etrans.
    + exists K3. split; [etrans; [exact Hp|]; by etrans | done].
Qed.

(** ** The result *)

Definition item_at (c : Code) (id : ItemId) : option Item := code_items c !! Z.to_nat id.
(** The code of a cell, or a reference to a library; code within another block. *)
Definition is_program (item : option Item) : Prop :=
  match item with Some (ItemCode b) => is_inline b = false | Some (ItemLibrary _) => True | _ => False end.
Definition is_inline_code (item : option Item) : Prop :=
  match item with Some (ItemCode b) => is_inline b = true | _ => False end.

Definition arg_ok (c : Code) (a : OpcodeArg) : Prop :=
  match a with
  | ArgCell id => is_program (item_at c id) \/ exists d, item_at c id = Some (ItemData (DataCell d))
  | ArgSlice id => is_inline_code (item_at c id) \/ (exists d, item_at c id = Some (ItemData (DataSlice d))) \/
      exists t, item_at c id = Some (ItemJumpTable t)
  | _ => True
  end.
Definition item_ok (c : Code) (item : Item) : Prop :=
  match item with
  | ItemCode b =>
      (forall op a, op ∈ opcodes b -> a ∈ op_args op -> arg_ok c a) /\
      match tail b with Some (Child id) => is_program (item_at c id) | _ => True end
  | ItemJumpTable t => is_full_code t = true /\ forall e, e ∈ items t -> is_inline_code (item_at c e.2)
  | _ => True
  end.

(** With nothing awaited, kinds are what the items are. *)
Lemma has_item K r id k : Inv K [] r -> has K id k ->
  exists item, item_at (mkCode id (res_items r)) id = Some item /\ fits K k item /\
    (is_Some (code_kind k) -> is_code item = true).
Proof.
  intros HI Hh. destruct (Forall2_lookup_l _ _ _ _ _ (inv_items _ _ _ HI) Hh) as (item & Hi & Hf).
  exists item. split; [done|]. split; [done|]. intros Hc.
  destruct (inv_pend _ _ _ HI _ _ _ Hh Hc Hi) as [|[]%not_elem_of_nil]; done.
Qed.
Lemma has_code K r id k inline : Inv K [] r -> has K id k -> code_kind k = Some inline ->
  exists b, item_at (mkCode id (res_items r)) id = Some (ItemCode b) /\ is_inline b = inline.
Proof.
  intros HI Hh Hk. destruct (has_item _ _ _ _ HI Hh) as (item & Hi & Hf & Hc).
  destruct item as [t|b|[x|d]|h]; try (discriminate Hc; by eexists). exists b. split; [done|].
  destruct Hf as [Hf _]. congruence.
Qed.

Lemma next_is_program K r id : Inv K [] r -> next_kind K id -> is_program (item_at (mkCode id (res_items r)) id).
Proof.
  intros HI [Hh|Hh].
  - destruct (has_code _ _ _ _ false HI Hh eq_refl) as (b & -> & Hb). done.
  - destruct (has_item _ _ _ _ HI Hh) as (item & -> & Hf & _). destruct item as [t|b|[x|d]|h]; try done; naive_solver.
Qed.
Lemma arg_is_ok K r root a : Inv K [] r -> arg_fits K a -> arg_ok (mkCode root (res_items r)) a.
Proof.
  intros HI. destruct a as [z|z|z|id|id]; cbn; try done.
  - intros [Hh|Hn]; [|left; by eapply next_is_program]. right.
    destruct (has_item _ _ _ _ HI Hh) as (item & Hi & Hf & _).
    destruct item as [t|b|[x|d]|h]; try (by exists d); naive_solver.
  - intros [Hh|[Hh|Hh]].
    + right; left. destruct (has_item _ _ _ _ HI Hh) as (item & Hi & Hf & _).
      destruct item as [t|b|[x|d]|h]; try (by exists x); naive_solver.
    + left. destruct (has_code _ _ _ _ true HI Hh eq_refl) as (b & Hi & Hb). unfold item_at in *. cbn in *. by rewrite Hi.
    + right; right. destruct (has_item _ _ _ _ HI Hh) as (item & Hi & Hf & _).
      destruct item as [t|b|[x|d]|h]; try (by exists t); naive_solver.
Qed.
Lemma items_are_ok K r root : Inv K [] r -> Forall (item_ok (mkCode root (res_items r))) (res_items r).
Proof.
  intros HI. apply Forall_forall. intros item [i Hi]%list_elem_of_lookup_1.
  destruct (inv_lookup _ _ _ _ _ HI Hi) as (k & _ & Hf). destruct item as [t|b|[x|d]|h]; try done.
  - destruct Hf as (_ & Hfull & He). split; [done|]. intros e Hin.
    destruct (has_code _ _ _ _ true HI (He e Hin) eq_refl) as (b & Hb & Hinl). unfold item_at in *. cbn in *. by rewrite Hb.
  - destruct Hf as (_ & Ho & Ht). split; [intros op a H1 H2; by eapply arg_is_ok, Ho|].
    destruct (tail b) as [[|id]|]; try done. by eapply (next_is_program K r id).
Qed.

(** C16: the links of a disassembled code are valid.  Whenever the disassembler gives a code of at
    most 2^32 items, each link is to an item that is there, has the kind the link asks for,
    and was read: the root and the tail of a block are to the code of a cell or a library; a
    cell argument to those or to a data cell; a slice argument to data, to inline code or to
    a jump table; an entry of a jump table to inline code.  And every jump table is marked
    as full code, whether its dictionary was read to the end or not. *)
Theorem disasm_links_valid (fuel : nat) (code : Cell) (c : Code) :
  disasm_structured fuel code = Ok c -> Z.of_nat (length (code_items c)) <= 2 ^ 32 ->
  is_program (item_at c (root c)) /\ Forall (item_ok c) (code_items c).
Proof.
  unfold disasm_structured. destruct dump_codepage0 as [cp|]; [|done]. unfold disasm_run. intros H Hs.
  match type of H with (?m resources_default).1 = _ => destruct (m resources_default) as [x r'] eqn:E end. cbn in H. subst x.
  apply bind_inv in E as (x & r0 & E0 & E). destruct (spec_ok _ _ _ _ _ _ (spec_add_cont code) E0) as [Hl0 H0].
  assert (exists stack st, (let* _ := outer cp fuel stack st in let* l := gets res_items in
    ret (mkCode match x with inl i => item_id i | inr id => id end l)) r0 = (Ok c, r') /\
    stack = match x with inl i => [i] | inr _ => [] end) as (stack & st & E1 & Hst).
  { destruct x as [i|id]; by eexists _, _. }
  clear E. apply bind_inv in E1 as ([] & r1 & E1 & E2). injection E2 as <- <-. cbn [code_items root] in *.
  destruct (outer_inv _ _ _ _ _ _ E1) as [Hl1 H1].
  assert (Inv [] [] resources_default) as HI by (split; try constructor; done).
  destruct (H0 (small_le _ _ Hl1 Hs) [] [] HI I) as (K0 & new & _ & HI0 & Hx).
  destruct (H1 Hs K0) as (K1 & Hp & HI1).
  { eapply inv_pend_mono; [exact HI0|]. intros i. rewrite app_nil_r. subst stack. destruct x as [it|id].
    - by destruct Hx as (_ & _ & ->).
    - by destruct Hx as [_ ->]. }
  { subst stack. destruct x as [it|id]; [|constructor]. apply Forall_singleton, Hx. }
  split; [|by eapply items_are_ok].
  eapply (next_is_program K1 r1); [done|]. eapply next_prefix; [exact Hp|].
  destruct x as [it|id]; apply Hx.
Qed.
End Kinds.
