(* ===== verification/TreeSerial.v ===== *)
(** * Serialization over bit trees

    [SerialLib] over the cells of External.v, with the binary trie of TreeModels.v for the
    dictionary of control registers, and the laws of SerialSpec.v for it. *)

From Stdlib Require Import Ascii String.
From S2P Require Import Prelude External Cells Bits Values Dicts RandOps TreeModels Serial.
From S2P Require Import SerialSpec SerialEnds Tokenizer Codepage Dump DumpOps Disasm DisasmSpec.

Import TreeCells TreeSlices TreeModels TreeDicts Serial.
Open Scope vm_scope.

Module TreeSerial.
#[local] Abbreviation CP := (CellProg (SL := tree_slices)).
#[local] Abbreviation full := (new_allow_exotic (CL := tree_cells)).
#[local] Abbreviation run := (in_empty_context (SL := tree_slices)).

(** The entries below a cell of the trie, by the rest of their keys. *)
Fixpoint trie (n : nat) (c : tcell) : list (list bool * slice) :=
  match n with
  | O => [([], full c)]
  | S n =>
      let side b := match child b c with Some c => trie n c | None => [] end in
      let under b := map (fun e => (b :: e.1, e.2)) (side b) in
      under false ++ under true
  end.
Definition trie_opt (n : nat) (root : option tcell) : list (list bool * slice) :=
  match root with Some c => trie n c | None => [] end.

Definition put_reg (root : option tcell) (k : Z) (st : tbuilder -> CP tbuilder) : CP (option tcell) :=
  put_prog (to_bits 4 k) root (fun b f => prog_bind (st b) f) (fun c => ProgDone (Ok (Some c))).

#[export] Instance tree_serial : SerialLib (SL := tree_slices) := {|
  offset_bits := bstart;
  dict_set_ext := put_reg;
  dict_iter := fun root => map (fun e => Ok (bits_val e.1, e.2)) (trie_opt 4 root)
|}.

(** ** The trie *)

Definition under (b : bool) (l : list (list bool * slice)) : list (list bool * slice) :=
  map (fun e => (b :: e.1, e.2)) l.

Lemma trie_S n c : trie (S n) c = under false (trie_opt n (child false c)) ++ under true (trie_opt n (child true c)).
Proof. reflexivity. Qed.

Lemma child_fork b l r : child b (t_full (fork l r)) = if b then r else l.
Proof. by destruct b, l, r. Qed.

Definition root_child (b : bool) (root : option tcell) : option tcell :=
  match root with Some c => child b c | None => None end.

(** What putting [leaf] under a key makes of the trie. *)
Fixpoint is_put (key : list bool) (root : option tcell) (leaf c : tcell) : Prop :=
  match key with
  | [] => c = leaf
  | b :: key =>
      exists c', is_put key (root_child b root) leaf c' /\
        c = t_full (if b : bool then fork (root_child false root) (Some c') else fork (Some c') (root_child true root))
  end.

Lemma put_runs {A} key root st (k : tcell -> CP A) a :
  run (put_prog key root (fun b f => prog_bind (st b) f) k) = Ok a ->
  exists b c leaf, run (st (mkTBuilder [] [] false)) = Ok b /\ t_build b = Ok leaf /\
    is_put key root leaf c /\ run (k c) = Ok a.
Proof.
  revert root k. induction key as [|b key IH]; intros root k; cbn [put_prog].
  - rewrite empty_bind. destruct (run (st _)) as [x|]; [|done]. cbn.
    destruct (t_build x) as [c|] eqn:Ec; [|done]. intros E. by exists x, c, c.
  - intros E. assert (run (put_prog key (root_child b root) (fun b f => prog_bind (st b) f) (fun c =>
      ProgMake (SL := tree_slices) (if b then fork (root_child false root) (Some c) else fork (Some c) (root_child true root)) k))
      = Ok a) as E' by (destruct root, b; exact E).
    destruct (IH _ _ E') as (x & c & leaf & Ex & El & Hp & Ek). cbn in Ek.
    exists x, (t_full (if b then fork (root_child false root) (Some c) else fork (Some c) (root_child true root))), leaf.
    split; [done|]. split; [done|]. split; [by exists c|]. by destruct b.
Qed.

Lemma bits_val_cons b l : bits_val (b :: l) = (if b : bool then 2 ^ Z.of_nat (length l) else 0) + bits_val l.
Proof. change (b :: l) with ([b] ++ l). rewrite bits_val_app. destruct b; cbn [bits_val fold_left]; lia. Qed.

Lemma trie_keys n root e : e ∈ trie_opt n root -> length e.1 = n.
Proof.
  revert root e. induction n as [|n IH]; intros [c|] e; cbn; try (by intros []%not_elem_of_nil).
  - intros ->%list_elem_of_singleton. done.
  - intros [H|H]%elem_of_app; apply list_elem_of_fmap in H as (x & -> & Hx); cbn; f_equal;
      eapply (IH (child _ c)); exact Hx.
Qed.

Lemma trie_put key n root leaf c : length key = n ->
  (forall e, e ∈ trie_opt n root -> bits_val e.1 < bits_val key) -> is_put key root leaf c ->
  trie n c = trie_opt n root ++ [(key, full leaf)].
Proof.
  intros <-. revert root c. induction key as [|b key IH]; intros root c Hlt Hp.
  - cbn in Hp. subst c. destruct root as [r|]; [|done]. exfalso.
    specialize (Hlt ([], full r) ltac:(by apply list_elem_of_singleton)). cbn in Hlt. lia.
  - destruct Hp as (c' & Hp & ->). cbn [length].
    assert (trie_opt (S (length key)) root =
      under false (trie_opt (length key) (root_child false root)) ++
      under true (trie_opt (length key) (root_child true root))) as Eo by (by destruct root).
    cbn [length] in Hlt. rewrite Eo in Hlt |- *. rewrite trie_S.
    assert (forall x e, e ∈ trie_opt (length key) (root_child x root) ->
      bits_val (x :: e.1) < bits_val (b :: key)) as Hx.
    { intros x e He. apply (Hlt (x :: e.1, e.2)). apply elem_of_app.
      destruct x; [right|left]; apply list_elem_of_fmap; by exists e. }
    assert (forall e, e ∈ trie_opt (length key) (root_child b root) -> bits_val e.1 < bits_val key) as Hb.
    { intros e He. pose proof (Hx b e He) as H. rewrite !bits_val_cons, (trie_keys _ _ _ He) in H. lia. }
    specialize (IH _ _ Hb Hp). unfold under. destruct b; rewrite !child_fork; cbn [trie_opt].
    + rewrite IH, map_app, app_assoc. done.
    + assert (trie_opt (length key) (root_child true root) = []) as E0.
      { destruct (trie_opt _ (root_child true root)) as [|e l] eqn:E; [done|].
        assert (e ∈ trie_opt (length key) (root_child true root)) as He by (rewrite E; by apply elem_of_cons; left).
        specialize (Hx true e He). rewrite !bits_val_cons, (trie_keys _ _ _ He) in Hx.
        pose proof (bits_val_range key _ eq_refl). pose proof (bits_val_range e.1 _ (trie_keys _ _ _ He)). lia. }
      rewrite IH, map_app, E0. cbn [map]. by rewrite !app_nil_r.
Qed.

(** ** The laws *)

Lemma store_bits_appends b l rs b' : t_store_bits b l rs = Ok b' -> appended (SL := tree_slices) b l rs b'.
Proof.
  intros E. destruct (t_capacity b (Z.of_nat (length l)) (Z.of_nat (length rs))) eqn:Hc.
  - destruct (store_bits_ok b l rs Hc) as (b1 & E1 & A). rewrite E in E1. by injection E1 as ->.
  - unfold t_store_bits in E. by rewrite Hc in E.
Qed.

#[export] Instance tree_serial_laws : SerialLaws (SeL := tree_serial).
Proof.
  split.
  - intros b v n b' _ _ E. by apply store_bits_appends.
  - intros b n b' _ E. by apply store_bits_appends.
  - intros b z n b' Hz Hn E.
    change ((if t_bitsize true z <=? n then t_store_bits b (to_bits (Z.to_nat n) z) [] else Err IntOverflow) = Ok b') in E.
    destruct (Z.leb_spec (t_bitsize true z) n) as [Hb|]; [|done].
    split; [by apply (bitsize_signed (BigIntLaws := tree_bigint_laws) n z Hz Hn) | by apply store_bits_appends].
  - intros b c b' E. by apply store_bits_appends.
  - intros b s b' E. rewrite tree_slice_data. by apply store_bits_appends.
  - intros b [c|] b' E; by apply store_bits_appends.
  - intros b b' Hp Hp'. unfold plain, builder_data, builder_refs in *. cbn in *.
    rewrite !tree_slice_data, !full_data, !full_refs. destruct b, b'. injection Hp as <-. injection Hp' as <-. cbn. congruence.
  - done.
  - intros s n Hn H64. unfold slice_bits in Hn. cbn in *. case_bool; [|lia]. f_equal. rewrite tree_slice_data.
    unfold t_data, sub_bits. rewrite take_map_seq by (unfold t_size; lia).
    rewrite Z.add_0_r. apply Z.mod_small. rewrite <- (Z2Nat.id n) at 3 by lia. apply bits_val_range.
    by rewrite length_map, length_seq.
  - intros s n Hs H64. unfold slice_bits in Hs. cbn in *. unfold t_load_uint. cbn. case_bool; [lia|done].
  - intros s b data refs Hd. unfold t_load_opt. split; [intros c -> Hc ->|intros -> ->].
    + destruct (tree_load_uint s 1 1 data ltac:(lia) ltac:(done) Hd) as (s1 & E1 & Hd1 & Hr1). cbn. unfold t_load_opt.
      rewrite E1. destruct (slice_references (SliceLib := tree_slices) s) as [|c0 rs] eqn:Er; [done|]. injection Hc as ->.
      destruct (tree_load_ref s1 c rs Hr1) as (s2 & -> & Hd2 & Hr2). exists s2.
      split; [done|]. split; [congruence|]. cbn in *. by rewrite Hr2, Er.
    + destruct (tree_load_uint s 1 0 data ltac:(lia) ltac:(done) Hd) as (s1 & E1 & Hd1 & Hr1). cbn. unfold t_load_opt.
      rewrite E1. by exists s1.
  - done.
  - split; [done|]. split; [|done]. rewrite tree_slice_data. done.
  - intros c. cbn. lia.
  - intros c a n i k r r' Ha Hn Hi Hk Hb Hf E1 E2. cbn in *. rewrite length_take in Hf.
    assert (forall (x : bool) (y z : trange) (e : Error), (if x then Ok y else Err e) = Ok z -> x = true /\ z = y) as Hif
      by (intros []; naive_solver).
    apply Hif in E1 as [Hc1 ->]. apply Hif in E2 as [Hc2 ->]. cbn in *.
    unfold t_prefix, t_nrefs. cbn. zify_bool. lia.
  - done.
  - intros root l k st data refs root' Hd Hk Hlt W E. cbn [dict_set_ext tree_serial] in E. unfold put_reg in E.
    destruct (put_runs _ _ _ _ _ E) as (b & c & leaf & Eb & El & Hp & Ec). cbn in Ec. injection Ec as <-.
    destruct (W (mkTBuilder [] [] false) b Eb) as (Ed & Er & Epl). specialize (Epl eq_refl).
    unfold builder_data, builder_refs in Ed, Er. rewrite !tree_slice_data in Ed. cbn in Ed, Er.
    rewrite !full_data in Ed. rewrite !full_refs in Er.
    change (bits_of (t_full b) = [] ++ data) in Ed. change (refs_of (t_full b) = [] ++ refs) in Er.
    assert (leaf = t_full b) as ->.
    { unfold t_build in El. destruct b as [bits rs e]. unfold plain in Epl. cbn in Epl. injection Epl as <-. cbn in El. congruence. }
    unfold dict_holds in *. cbn [dict_iter tree_serial] in *. change (trie_opt 4 (Some c)) with (trie 4 c).
    assert (bits_val (to_bits 4 k) = k) as Ek by (rewrite bits_val_to_bits; apply Z.mod_small; cbn; lia).
    rewrite (trie_put (to_bits 4 k) 4 root (t_full b) c); [|done| |done].
    + rewrite map_app. apply Forall2_app; [done|]. cbn [map fst snd]. rewrite Ek. constructor; [|done].
      exists (full (t_full b)). split; [done|]. rewrite tree_slice_data, full_data, Ed. split; [done|].
      change (t_refs (full (t_full b)) = refs). by rewrite full_refs.
    + intros e He. rewrite Ek. apply (list_elem_of_fmap_2 (fun e => Ok (bits_val e.1, e.2) : result Error _)) in He.
      apply list_elem_of_lookup_1 in He as [i He]. destruct (Forall2_lookup_l _ _ _ _ _ Hd He) as (x & Hx & s & Es & _).
      injection Es as -> _. rewrite Forall_forall in Hlt. apply Hlt. by eapply list_elem_of_lookup_2.
Qed.

(** ** What loading leaves *)

Lemma depth_child c d : d ∈ refs_of c -> depth_of d < depth_of c.
Proof.
  destruct c as [ty bits rs]. cbn [refs_of depth_of]. intros Hd. destruct rs as [|r0 rs]; [by apply not_elem_of_nil in Hd|].
  cut (depth_of d <= fold_right Z.max 0 (map depth_of (r0 :: rs))); [lia|].
  revert Hd. generalize (r0 :: rs). intros l. induction l as [|x l IH]; intros Hd; [by apply not_elem_of_nil in Hd|].
  apply elem_of_cons in Hd as [->|Hd]; cbn; [lia|]. specialize (IH Hd). lia.
Qed.

Lemma child_refs b c d : child b c = Some d -> d ∈ refs_of c.
Proof.
  destruct c as [ty [|l [|r [|]]] rs]; try done. cbn. intros H.
  destruct b, l, r; try done; destruct rs as [|x rs]; try done; cbn in H.
  all: try (injection H as ->; by apply elem_of_cons; left).
  all: apply last_Some in H as [rs' ->]; cbn; apply elem_of_app; right; by apply list_elem_of_singleton.
Qed.

Lemma trie_depth n c e : e ∈ trie n c -> exists d, e.2 = full d /\ depth_of d <= depth_of c.
Proof.
  revert c e. induction n as [|n IH]; intros c e; [intros ->%list_elem_of_singleton; exists c; split; [done|lia]|].
  rewrite trie_S. intros [H|H]%elem_of_app; apply list_elem_of_fmap in H as (x & -> & Hx); cbn [snd];
    (destruct (child _ c) as [d|] eqn:Ec; [|by apply not_elem_of_nil in Hx]);
    apply child_refs, depth_child in Ec; destruct (IH d x Hx) as (d' & Ed & Hd); exists d'; (split; [exact Ed | lia]).
Qed.

#[local] Abbreviation srefs := (slice_references (SliceLib := tree_slices)).

Lemma t_skip_inv s b n s' : t_skip s b n = Ok s' ->
  b <= slice_bits s /\ n <= Z.of_nat (length (srefs s)) /\ slice_bits s' = Z.max 0 (bend (range s) - bstart (range s) - b).
Proof.
  unfold t_skip. cbn. match goal with |- context [if ?c then _ else _] => destruct c eqn:Hc end; [|done].
  intros [= <-]. unfold slice_bits. cbn. rewrite t_refs_length. unfold t_nrefs. zify_bool. lia.
Qed.

Lemma t_skip_within s b n s' : 0 <= b -> 0 <= n -> t_skip s b n = Ok s' ->
  within (SL := tree_slices) s s' /\ slice_bits s' = slice_bits s - b.
Proof.
  intros Hb Hn E. destruct (t_skip_inv s b n s' E) as (H1 & H2 & H3).
  assert (slice_bits s' = slice_bits s - b) as H4 by (rewrite H3; unfold slice_bits in *; cbn in *; lia).
  split; [|done]. split; [lia|]. intros c Hc.
  destruct (skip_first_spec (SliceLaws := tree_slice_laws) s b n) as (s1 & E1 & _ & Er); [lia..|].
  assert (slice_skip_first (CL := tree_cells) s b n = t_skip s b n) as Es.
  { unfold slice_skip_first, with_range, t_skip. by destruct (skip_first (range s) b n). }
  rewrite Es, E in E1. injection E1 as <-. rewrite Er in Hc.
  apply list_elem_of_lookup_1 in Hc as [i Hi]. rewrite lookup_drop in Hi. by eapply list_elem_of_lookup_2.
Qed.

#[export] Instance tree_load_laws : LoadLaws (SeL := tree_serial).
Proof.
  assert (forall s n v s', 0 <= n -> t_load_uint s n = Ok (v, s') ->
    within (SL := tree_slices) s s' /\ slice_bits s' = slice_bits s - n) as Hu.
  { intros s n v s' Hn E. unfold t_load_uint in E. destruct (get_uint _ _ _ _); [|done].
    destruct (t_skip s n 0) as [x|] eqn:Es; [|done]. injection E as _ <-. by apply t_skip_within in Es. }
  assert (forall s c s', t_load_ref s = Ok (c, s') -> c ∈ srefs s /\ within (SL := tree_slices) s s') as Hr.
  { intros s c s' E. unfold t_load_ref in E. cbn. destruct (t_refs s) as [|c0 rs] eqn:Er; [done|].
    destruct (t_skip s 0 1) as [x|] eqn:Es; [|done]. injection E as <- <-. apply t_skip_within in Es as [Hw _]; [|lia..].
    split; [by apply elem_of_cons; left | exact Hw]. }
  split.
  - exact Hu.
  - intros s n s' Hn E. apply (t_skip_within s n 0 s'); [done|done|]. unfold slice_skip_first, with_range in E.
    unfold t_skip. by destruct (skip_first (range s) n 0).
  - intros s n z r Hn E. apply (t_skip_within s n 0); [done|done|]. unfold t_skip. cbn in *.
    destruct (n <=? _) eqn:H1; [|done]. injection E as _ <-. destruct (0 <=? _) eqn:H2; [|zify_bool; unfold t_nrefs in *; lia].
    cbn. by rewrite Z.add_0_r.
  - exact Hr.
  - intros s o s' E. cbn in E. unfold t_load_opt in E.
    destruct (t_load_uint s 1) as [[b s1]|] eqn:Eu; [|done].
    assert (within (SL := tree_slices) s s1) as Hw1 by (apply (Hu s 1 b s1 ltac:(lia) Eu)).
    assert (forall r, match t_load_ref s1 with Ok (c, s) => Ok (Some c, s) | Err e => Err e end = Ok r ->
      exists c s2, r = (Some c, s2) /\ t_load_ref s1 = Ok (c, s2)) as Ho
      by (intros r; destruct (t_load_ref s1) as [[c s2]|]; [intros [= <-]; eauto | done]).
    destruct b as [|p|p]; [injection E as <- <-; by split| |].
    all: apply Ho in E as (c & s2 & [= -> ->] & E2); apply (Hr s1 c s2) in E2 as [Hc Hw2]; split; [|by etrans].
    all: intros c' [= <-]; by apply Hw1.
  - intros c s [= <-]. done.
  - intros c. apply depth_nonneg.
  - intros c s d Hs Hd. split; [apply depth_nonneg|]. cbn. destruct Hs as [->|[i Hi]].
    + cbn in Hd. rewrite full_refs in Hd. by apply depth_child.
    + cbn in Hi. apply list_elem_of_fmap in Hi as ([k y] & [= _ ->] & He).
      destruct (trie_depth 4 c _ He) as (x & Ex & Hx). cbn [snd] in Ex. subst y.
      change (d ∈ t_refs (full x)) in Hd. rewrite full_refs in Hd. apply depth_child in Hd. lia.
  - done.
Qed.
End TreeSerial.

(** * Disassembly over bit trees

    [DisplayLib] and [DisasmLib] over the cells of External.v and the tries of
    TreeSerial.v. *)

Import TreeCells TreeSlices TreeDicts TreeSerial.

Module TreeDisasm.

(** A hexadecimal digit, [upper] or lower case. *)
Definition hex_digit (upper : bool) (d : Z) : ascii :=
  if d <? 10 then digit_char d else ascii_of_N (Z.to_N ((if upper then 65 else 97) + (d - 10))).

(** The 256 bits of a hash. *)
Definition show_hash (h : Z) : Text :=
  map (fun i => hex_digit false (Z.land (Z.shiftr h (4 * (63 - Z.of_nat i))) 15)) (seq 0 64).

(** Bits as hexadecimal digits; an incomplete one is completed with a tag bit and zeros and
    marked with an underscore. *)
Fixpoint show_bits (fuel : nat) (l : list bool) : Text :=
  match fuel with
  | O => []
  | S fuel =>
      match l with
      | [] => []
      | a :: b :: c :: d :: l => hex_digit true (bits_val [a; b; c; d]) :: show_bits fuel l
      | l => [hex_digit true (bits_val (take 4 (l ++ [true; false; false]))); "_"%char]
      end
  end.

#[export] Instance tree_display : DisplayLib (SL := tree_slices) := {|
  display_hash := show_hash;
  display_data := fun s => show_bits (length (t_data s)) (t_data s)
|}.

#[export] Instance trange_eq_dec : EqDecision trange.
Proof. solve_decision. Defined.

(** The key is the slice over its bits. *)
#[export] Instance tree_disasm : DisasmLib (SeL := tree_serial) (DisL := tree_display) := {|
  range_eq_dec := trange_eq_dec;
  raw_iter := fun root n =>
    map (fun e => Ok (new_allow_exotic (CL := tree_cells) (TCell Ordinary e.1 []), e.2))
      (trie (Z.to_nat n) root)
|}.

(** ** The laws *)

Lemma t_prefix_within (s : slice) b n : 0 <= b -> 0 <= n ->
  within (SL := tree_slices) s (mkSlice (CL := tree_cells) (t_prefix (range s) b n) (cell s)).
Proof.
  intros Hb Hn. split; [unfold slice_bits; cbn; lia|]. cbn. intros c Hc.
  apply list_elem_of_fmap in Hc as (i & -> & Hi). apply elem_of_seq in Hi. unfold t_nrefs in Hi. cbn in *.
  apply (list_elem_of_fmap_2 (fun i => default (TCell Ordinary [] []) (refs_of (cell s) !! Z.to_nat (rstart (range s) + Z.of_nat i)))).
  apply elem_of_seq. unfold t_nrefs. lia.
Qed.

Lemma t_skip_cell s b n s' : t_skip s b n = Ok s' -> cell s' = cell s.
Proof. unfold t_skip. destruct (skip_first _ _ _); [|done]. by intros [= <-]. Qed.

#[export] Instance tree_disasm_laws : DisasmLaws (DL := tree_disasm).
Proof.
  split.
  - intros s b n s' Hb Hn E. refine (t_skip_within s b n s' Hb Hn _). unfold slice_skip_first, with_range in E.
    unfold t_skip. by destruct (skip_first (range s) b n).
  - intros s b n s' Hb Hn E. unfold with_range in E. cbn in E. destruct (_ && _); [|done]. injection E as <-.
    by apply t_prefix_within.
  - intros s c s' E. pose proof (load_reference_within (LoadLaws := tree_load_laws) _ _ _ E) as [Hc Hw].
    split; [done|]. split; [done|]. cbn in E. unfold t_load_ref in E. destruct (t_refs s); [done|].
    destruct (t_skip s 0 1) eqn:Es; [|done]. injection E as _ <-. by eapply t_skip_cell.
  - intros s b n q s' Hb Hn E. cbn in E. unfold t_load_prefix in E. destruct (t_skip s b n) as [x|] eqn:Es; [|done].
    injection E as <- <-. split; (split; [|done || by eapply t_skip_cell]); [by apply t_prefix_within|].
    by apply t_skip_within in Es as [Hw _].
  - intros s n v s' Hn E. pose proof (load_uint_within (LoadLaws := tree_load_laws) _ _ _ _ Hn E) as [Hw _].
    split; [done|]. cbn in E. unfold t_load_uint in E. destruct (get_uint _ _ _ _); [|done].
    destruct (t_skip s n 0) eqn:Es; [|done]. injection E as _ <-. by eapply t_skip_cell.
  - intros s n z r Hn E. split; [|done]. by apply (load_bigint_within (LoadLaws := tree_load_laws) s n z).
  - by intros r c s [= <-].
  - intros c. apply depth_nonneg.
  - intros c d Hd. cbn in Hd. rewrite full_refs in Hd. by apply depth_child.
  - intros c n k v d Hi Hd. cbn in Hi. apply list_elem_of_fmap in Hi as ([ks y] & [= _ ->] & He).
    destruct (trie_depth (Z.to_nat n) c _ He) as (x & Ex & Hx). cbn [snd] in Ex. subst y.
    change (d ∈ t_refs (new_allow_exotic (CL := tree_cells) x)) in Hd. rewrite full_refs in Hd. apply depth_child in Hd. cbn. lia.
Qed.
End TreeDisasm.
