(* ===== verification/ContSpec.v ===== *)
(** * What calls, loops and exceptions do

    Entering an ordinary continuation, a call and the return from it, the loops as
    repeated runs of their body, and the throwing of exceptions with and without TRY. *)

From S2P Require Import Prelude External Values VmStack VmGas VmRegs VmState GasLaws.
From S2P Require Import ArithOps ContOps Tracking RegTracking GasSpec.

Open Scope vm_scope.

Section Jumps.
Context `{CL : CellLib}.
Implicit Types (s : VmState) (c k : cont) (data : ControlData).

#[local] Abbreviation len l := (Z.of_nat (length l)).

(** [s] about to run [code], with the saved registers restored. *)
Definition entered data (code : OwnedCellSlice) s : VmState :=
  set_cp 0 (set_code_field code (set_cr (Regs.merge (cr s) (save data)) s)).

Lemma jump_loop_ord fuel data code n e s : cd_cp data = Some 0 ->
  jump_loop (S fuel) (OrdCont data code) n e s = (Ok (Some e), entered data code s).
Proof.
  intros Hcp. cbn [jump_loop cont_jump]. rewrite Hcp.
  by unfold adjust_cr, set_code, force_cp, bind, modify, of_option, ret; cbn.
Qed.

Lemma do_jump_ord data code s : cd_cp data = Some 0 ->
  do_jump_to (OrdCont data code) s = (Ok 0, entered data code s).
Proof.
  intros Hcp. unfold do_jump_to. by rewrite (bind_ok _ _ _ _ _ (jump_loop_ord _ _ _ 0 0 s Hcp)).
Qed.

Lemma jump_ord data code s : cd_cp data = Some 0 -> needs_adjust data = false ->
  jump (OrdCont data code) s = (Ok 0, entered data code s).
Proof. intros Hcp Ha. unfold jump. cbn [get_control_data]. rewrite Ha. by apply do_jump_ord. Qed.

(** ** Gas for a stack *)

Definition depth_fee (n : Z) : Z := Z.max 0 (n - 32).
Definition fee_charged (n : Z) s : VmState := set_gas (charged n (gas s)) s.

Lemma stack_depth_gas n s : gas_wf (gas s) -> depth_fee n <= Gas.gas_remaining (gas s) ->
  on_gas (Gas.try_consume_stack_depth_gas n) s = (Ok tt, fee_charged (depth_fee n) s).
Proof.
  intros W Hf. unfold on_gas, zoom, map_err, Gas.try_consume_stack_depth_gas.
  unfold Gas.FREE_STACK_DEPTH, Gas.STACK_VALUE_GAS_PRICE, depth_fee, fee_charged in *.
  replace ((Z.max n 32 - 32) * 1) with (Z.max 0 (n - 32)) by lia.
  rewrite consume_charged by (done || lia). done.
Qed.

Lemma stack_gas st s : gas_wf (gas s) -> depth_fee (len st) <= Gas.gas_remaining (gas s) ->
  on_gas (Gas.try_consume_stack_gas (Some st)) s = (Ok tt, fee_charged (depth_fee (len st)) s).
Proof. apply stack_depth_gas. Qed.

(** The top [n] values of a stack and what is below them. *)
Definition top (n : Z) (st : list value) : list value := drop (Z.to_nat (len st - n)) st.
Definition below (n : Z) (st : list value) : list value := take (Z.to_nat (len st - n)) st.

Lemma top_length n st : 0 <= n <= len st -> len (top n st) = n.
Proof. intros. unfold top. rewrite length_drop. lia. Qed.

Lemma below_length n st : 0 <= n <= len st -> len (below n st) = len st - n.
Proof. intros. unfold below. rewrite length_take. lia. Qed.

Lemma below_top n st : below n st ++ top n st = st.
Proof. apply take_drop. Qed.

(** ** Call and return *)

(** The return continuation of a call. *)
Definition return_cont (r : option N) (saved : option (list value)) (k : option cont)
    (code : OwnedCellSlice) : cont :=
  OrdCont (mkData r saved (Regs.put_c 0 k regs_default) (Some 0)) code.

(** A call with [p] arguments: the callee sees them alone. *)
Lemma call_args_ok (p : N) (r : option N) body k s :
  cp s = 0 -> c0 (cr s) = Some k -> Z.of_N p <= len (stack s) -> gas_wf (gas s) ->
  depth_fee (Z.of_N p) <= Gas.gas_remaining (gas s) ->
  call_ext (simple body 0) (Some p) r s =
    (Ok 0, set_cp 0 (set_code_field body (set_stack (top (Z.of_N p) (stack s))
       (set_cr (Regs.put_c 0 (Some (return_cont r (Some (below (Z.of_N p) (stack s))) (Some k) (code s)))
                  (cr s))
          (fee_charged (depth_fee (Z.of_N p)) s))))).
Proof.
  intros Hcp Hk Hp W Hg. set (n := Z.of_N p) in *.
  assert (0 <= n) as Hn by lia.
  unfold call_ext, simple. cbn [get_control_data save c0 regs_default nargs cd_stack copy_skip].
  rewrite (bind_ok _ _ s (len (stack s)) s) by done.
  unfold check_args. cbn [or_zero nargs default]. unfold or_zero; cbn [default].
  change (Z.of_N (id p)) with n.
  rewrite (bind_ok _ _ s tt s).
  2:{ unfold bind. rewrite ensure_true by (apply andb_true_iff; rewrite !Z.leb_le; lia).
      unfold ret. by rewrite ensure_true by (apply Z.leb_le; lia). }
  rewrite (bind_ok _ _ s (Some k) s) by (unfold get_reg, gets; cbn; by rewrite Hk).
  set (s1 := set_cr (Regs.put_c 0 None (cr s)) s).
  rewrite (bind_ok _ _ s tt s1) by done.
  rewrite (bind_ok _ _ s1 tt s1) by (unfold preclear_cr, modify; by rewrite preclear_default_r).
  set (s2 := set_stack (below n (stack s)) s1).
  rewrite (bind_ok _ _ s1 (top n (stack s)) (fee_charged (depth_fee n) s2)).
  2:{ rewrite (bind_ok _ _ s1 (top n (stack s)) s2).
      2:{ unfold on_stack, zoom, Stack.split_top_ext, bind, gets, of_option, modify.
          change (stack s1) with (stack s). unfold Stack.depth.
          rewrite checked_sub_u_Some by lia. cbn [ret]. unfold ret.
          change (Z.of_N p) with n. rewrite Z.add_0_r, Z.add_0_r. done. }
      pose proof (top_length n (stack s) ltac:(lia)) as Ht.
      rewrite (bind_ok _ _ s2 tt (fee_charged (depth_fee n) s2)); [done|].
      rewrite <- Ht at 2. apply stack_gas; [done | by rewrite Ht]. }
  unfold take_code, take_stack, bind, gets, modify, ret, put_reg; cbn -[do_jump_to].
  rewrite do_jump_ord by done. unfold entered; cbn. rewrite merge_default_r. by rewrite Hcp.
Qed.

(** What a return pays for the stack it leaves. *)
Definition return_fee (saved : list value) (r depth : Z) : Z :=
  match saved with
  | [] => if r <? depth then depth_fee r else 0
  | _ => depth_fee (len saved + r)
  end.

Lemma adjust_stack_ok saved r s : 0 <= r <= len (stack s) -> gas_wf (gas s) ->
  return_fee saved r (len (stack s)) <= Gas.gas_remaining (gas s) ->
  adjust_stack (Some saved) r (len (stack s)) s =
    (Ok tt, set_stack (saved ++ top r (stack s))
              (fee_charged (return_fee saved r (len (stack s))) s)).
Proof.
  intros Hr W Hf. unfold adjust_stack, return_fee in *. destruct saved as [|v saved].
  - destruct (Z.ltb_spec r (len (stack s))).
    + set (s1 := set_stack (top r (stack s)) s).
      rewrite (bind_ok _ _ s tt s1).
      2:{ unfold on_stack, zoom, Stack.drop_bottom, bind, gets, modify, Stack.depth.
          by rewrite ensure_true by (apply Z.leb_le; lia). }
      rewrite stack_depth_gas by done. done.
    + assert (top r (stack s) = stack s) as ->.
      { unfold top. by replace (len (stack s) - r) with 0 by lia. }
      unfold fee_charged. rewrite charged_0. by destruct s.
  - set (st := (v :: saved) ++ top r (stack s)).
    set (s1 := set_stack (below r (stack s)) s).
    rewrite (bind_ok _ _ s st s1).
    2:{ unfold move_args, Stack.move_from_stack, Stack.depth. by rewrite checked_sub_u_Some by lia. }
    assert (len st = len (v :: saved) + r) as Hl.
    { unfold st. rewrite length_app, Nat2Z.inj_add, top_length by lia. done. }
    rewrite (bind_ok _ _ s1 tt (fee_charged (depth_fee (len (v :: saved) + r)) s1)); [done|].
    rewrite <- Hl. apply stack_gas; [done | by rewrite Hl].
Qed.

(** The return to a continuation that kept [saved] and takes [r] values back (all of them
    without [r]), in terms of what becomes of the stack. *)
Lemma return_with (r : option N) saved (sv : ControlRegs) k code s st g :
  let n := match r with Some r => Z.of_N r | None => len (stack s) end in
  c0 sv = Some k -> c0 (cr s) = Some (OrdCont (mkData r (Some saved) sv (Some 0)) code) ->
  n <= len (stack s) ->
  (forall s', stack s' = stack s -> gas s' = gas s ->
     adjust_stack (Some saved) n (len (stack s)) s' = (Ok tt, set_stack st (set_gas g s'))) ->
  ret_ s = (Ok 0, set_cp 0 (set_code_field code (set_stack st
             (set_cr (Regs.merge (cr s) sv) (set_gas g s))))).
Proof.
  intros n Hsv Hc0 Hn Hadj. unfold ret_, take_c0, get_reg, put_reg in *.
  set (data := mkData r (Some saved) sv (Some 0)) in *.
  set (s1 := set_cr (Regs.put_c 0 (Some (quit0 s)) (cr s)) s).
  rewrite (bind_ok _ _ s (OrdCont data code) s1).
  2:{ unfold bind, gets, modify, of_option, ret. cbn. by rewrite Hc0. }
  unfold jump. cbn [get_control_data]. replace (needs_adjust data) with true by (by destruct r).
  unfold jump_ext, adjust_jump_cont.
  set (s2 := set_cr (Regs.preclear (cr s1) (save data)) s1).
  rewrite (bind_ok _ _ s1 (OrdCont data code) (set_stack st (set_gas g s2))).
  - rewrite do_jump_ord by done. unfold entered, s2, s1; cbn. rewrite merge_preclear.
    unfold Regs.merge. cbn. by rewrite Hsv.
  - rewrite (bind_ok _ _ s1 (len (stack s)) s1) by done. cbn [get_control_data].
    rewrite (bind_ok _ _ s1 tt s1).
    2:{ unfold check_args, bind, or_zero. rewrite ensure_true; [done|].
        apply andb_true_iff. rewrite !Z.leb_le. unfold data, n in *; cbn. destruct r; cbn; lia. }
    rewrite (bind_ok _ _ s1 tt s2) by done. cbv zeta.
    replace (match nargs data with Some n => Z.of_N n | None => len (stack s) end) with n by done.
    by rewrite (bind_ok _ _ _ _ _ (Hadj s2 eq_refl eq_refl)).
Qed.

Lemma return_ok (r : option N) saved k code s :
  let n := match r with Some r => Z.of_N r | None => len (stack s) end in
  c0 (cr s) = Some (return_cont r (Some saved) (Some k) code) -> n <= len (stack s) ->
  gas_wf (gas s) -> return_fee saved n (len (stack s)) <= Gas.gas_remaining (gas s) ->
  ret_ s = (Ok 0, set_cp 0 (set_code_field code (set_stack (saved ++ top n (stack s))
             (set_cr (Regs.put_c 0 (Some k) (cr s))
                (fee_charged (return_fee saved n (len (stack s))) s))))).
Proof.
  intros n Hc0 Hn W Hf. apply (return_with r saved (Regs.put_c 0 (Some k) regs_default) k code s _ _ eq_refl Hc0 Hn).
  intros s' Hs' Hg'. fold n. rewrite <- Hs', <- Hg' in *.
  by apply adjust_stack_ok; [unfold n in *; destruct r; lia|..].
Qed.

Lemma return_underflow (r : N) saved k code s :
  c0 (cr s) = Some (return_cont (Some r) (Some saved) (Some k) code) ->
  len (stack s) < Z.of_N r -> exists s', ret_ s = (Err (StackUnderflow (Z.of_N r)), s').
Proof.
  intros Hc0 Hn. unfold ret_, take_c0, get_reg, put_reg, return_cont in *.
  set (data := mkData (Some r) (Some saved) (Regs.put_c 0 (Some k) regs_default) (Some 0)) in *.
  set (s1 := set_cr (Regs.put_c 0 (Some (quit0 s)) (cr s)) s).
  rewrite (bind_ok _ _ s (OrdCont data code) s1).
  2:{ unfold bind, gets, modify, of_option, ret. cbn. by rewrite Hc0. }
  unfold jump. cbn [get_control_data]. replace (needs_adjust data) with true by done.
  unfold jump_ext, adjust_jump_cont, bind at 1. unfold bind at 1, gets at 1.
  cbn [get_control_data]. unfold bind at 1, check_args, bind at 1, or_zero.
  rewrite ensure_false; [|apply andb_false_iff; right; apply Z.leb_gt; exact Hn].
  eexists. cbn. f_equal. f_equal. f_equal. lia.
Qed.

(** C12: a call with arguments and its return.  The callee of CALLXARGS runs with exactly the top
    [p] values, the values below are kept for the return.  When it returns, however it
    got there, the caller's code, code page and [c0] are back and the top [r] values of
    the callee are put on the values kept; every other register is as the callee left it.
    A callee with fewer than [r] values fails with a stack underflow.  Each stack that is
    built is paid for by its depth above 32. *)
Theorem call_and_return (p r : N) (body : OwnedCellSlice) (k : cont) (s : VmState)
    (Hcp : cp s = 0) (Hk : c0 (cr s) = Some k) (Hp : Z.of_N p <= len (stack s))
    (Hg : gas_wf (gas s)) (Hf : depth_fee (Z.of_N p) <= Gas.gas_remaining (gas s)) :
  exists s1, call_ext (simple body 0) (Some p) (Some r) s = (Ok 0, s1) /\
    code s1 = body /\ cp s1 = 0 /\ stack s1 = top (Z.of_N p) (stack s) /\
    gas s1 = charged (depth_fee (Z.of_N p)) (gas s) /\
    (forall i, i <> 0 -> Regs.get_as_stack_value i (cr s1) = Regs.get_as_stack_value i (cr s)) /\
    forall s2, c0 (cr s2) = c0 (cr s1) -> gas_wf (gas s2) ->
      let depth := len (stack s2) in
      let fee := return_fee (below (Z.of_N p) (stack s)) (Z.of_N r) depth in
      fee <= Gas.gas_remaining (gas s2) ->
      if depth <? Z.of_N r then exists s3, ret_ s2 = (Err (StackUnderflow (Z.of_N r)), s3)
      else ret_ s2 = (Ok 0, set_cp (cp s) (set_code_field (code s)
             (set_stack (below (Z.of_N p) (stack s) ++ top (Z.of_N r) (stack s2))
             (set_cr (Regs.put_c 0 (Some k) (cr s2)) (set_gas (charged fee (gas s2)) s2))))).
Proof.
  eexists. split; [by apply call_args_ok|]. cbn. repeat (split; [done|]). split.
  - intros i Hi. unfold Regs.get_as_stack_value.
    destruct (i <? Regs.CONT_REG_COUNT); [|done].
    destruct i as [|[[]|[]|]|[]]; try done.
  - intros s2 Hc0 W fee. destruct (Z.ltb_spec (len (stack s2)) (Z.of_N r)).
    + by eapply return_underflow.
    + rewrite Hcp. by apply (return_ok (Some r)).
Qed.
End Jumps.

(** ** Loops *)

Section Loops.
Context `{CL : CellLib}.
Implicit Types (s : VmState) (c k : cont) (data : ControlData).

Lemma adjust_same c p s c' s' : adjust_jump_cont c p s = (Ok c', s') -> c' = c.
Proof.
  unfold adjust_jump_cont, bind, gets, ret. intros H.
  repeat (case_match; simplify_eq; try done).
Qed.

(** The rest of the loop does not depend on the turns made before an ordinary
    continuation. *)
Lemma jump_loop_ord_any fuel data code n s :
  jump_loop (S fuel) (OrdCont data code) n 0 s = jump_loop 1 (OrdCont data code) 0 0 s.
Proof.
  assert (exists r s', cont_jump (OrdCont data code) 0 s = (r, s') /\
    (r = Ok (None, 0) \/ exists e, r = Err e)) as (r & s' & Hj & Hr).
  { cbn [cont_jump]. unfold adjust_cr, set_code, force_cp, bind, modify, of_option, ret, raise.
    repeat case_match; simplify_eq; do 2 eexists; (split; [reflexivity|]); eauto. }
  cbn [jump_loop]. destruct Hr as [-> | [e ->]].
  - by rewrite !(bind_ok _ _ _ _ _ Hj).
  - by rewrite !(bind_err _ _ _ _ _ Hj).
Qed.

(** A continuation that only prepares the entry of an ordinary one. *)
Lemma jump_through c data code s s' : get_control_data c = None ->
  cont_jump c 0 s = (Ok (Some (OrdCont data code), 0), s') ->
  jump c s = jump (OrdCont data code) s'.
Proof.
  intros Hc Hj. unfold jump at 1. rewrite Hc. unfold do_jump_to.
  pose proof (cont_jump_depth _ _ _ _ _ _ Hj) as Hd.
  destruct (cont_depth c) as [|n] eqn:En; [lia|]. remember (S n) as m eqn:Em.
  cbn [jump_loop]. unfold bind at 1. rewrite (bind_ok _ _ _ _ _ Hj). cbn [get_control_data].
  rewrite (bind_ok _ _ s' tt s') by done. subst m.
  unfold jump, jump_ext, do_jump_to. cbn [get_control_data]. destruct (needs_adjust data).
  - unfold bind. destruct (adjust_jump_cont (OrdCont data code) None s') as [[c'|e] s''] eqn:Ha; [|done].
    apply adjust_same in Ha as ->. cbn [cont_depth]. by rewrite jump_loop_ord_any.
  - unfold bind, ret. by rewrite !jump_loop_ord_any.
Qed.

Definition with_c0 c s : VmState := set_cr (Regs.put_c 0 (Some c) (cr s)) s.
Definition at_code (code : OwnedCellSlice) s : VmState := set_cp 0 (set_code_field code s).

Lemma jump_simple code s : jump (simple code 0) s = (Ok 0, at_code code s).
Proof. unfold simple. rewrite jump_ord by done. unfold entered; cbn. by rewrite merge_default_r; destruct s. Qed.

(** Returning is jumping to [c0], with [quit0] in its place. *)
Lemma ret_to c s : ret_ (with_c0 c s) = jump c (with_c0 (quit0 s) s).
Proof. unfold ret_, take_c0, get_reg, put_reg, bind, gets, modify, of_option, ret. by cbn. Qed.

(** The continuation of the code after an instruction, and the return to it. *)
Definition rest_cont k s : cont := return_cont None (Some []) (Some k) (code s).

Lemma extract_rest k s : c0 (cr s) = Some k -> cp s = 0 ->
  extract_cc SAVE_C0 None None s =
    (Ok (rest_cont k s), set_code_field slice_default (with_c0 (quit0 s) s)).
Proof.
  intros Hk Hcp. unfold extract_cc, take_stack, take_code, get_reg, put_reg, bind, gets, modify, ret.
  change (save_contains SAVE_C0 SAVE_C0) with true.
  change (save_contains SAVE_C0 SAVE_C1) with false.
  change (save_contains SAVE_C0 SAVE_C2) with false.
  cbn. rewrite Hk, Hcp. by destruct s.
Qed.

Lemma return_rest k s0 s :
  ret_ (with_c0 (rest_cont k s0) s) = (Ok 0, at_code (code s0) (with_c0 k s)).
Proof.
  rewrite (return_with None [] (Regs.put_c 0 (Some k) regs_default) k (code s0)
    (with_c0 (rest_cont k s0) s) (stack s) (gas s) eq_refl eq_refl); [by destruct s|lia|].
  intros s' Hs Hg. unfold adjust_stack. rewrite Z.ltb_irrefl. unfold ret.
  cbn in Hs, Hg. rewrite <- Hs, <- Hg. by destruct s'.
Qed.

(** [m] run [n] times. *)
Fixpoint times (n : nat) (m : VM Z) : VM Z :=
  match n with O => ret 0 | S n => m ;; times n m end.

(** A loop body, seen from outside: the code [code0] changes the VM by [F] and returns.
    It does not look at [c0], where the loop keeps itself. *)
Context (code0 : OwnedCellSlice) (F : VmState -> VmState).
Definition blind_to_c0 : Prop :=
  (forall c s, F (with_c0 c s) = with_c0 c (F s)) /\ forall s, quit0 (F s) = quit0 s.
Definition body : cont := simple code0 0.
Definition pass s : VmState := F (at_code code0 s).
Definition runs_body : VM Z := modify F ;; ret_.

Context (HF : blind_to_c0).

Lemma pass_c0 c s : pass (with_c0 c s) = with_c0 c (pass s).
Proof. unfold pass. destruct HF as [<- _]. done. Qed.

Lemma passes_c0 n c s : Nat.iter n pass (with_c0 c s) = with_c0 c (Nat.iter n pass s).
Proof. induction n as [|n IH]; [done|]. by rewrite !Nat.iter_succ, IH, pass_c0. Qed.

Lemma with_c0_c0 c c' s : with_c0 c (with_c0 c' s) = with_c0 c s.
Proof. done. Qed.

(** One pass: the body runs and returns to what its [c0] holds. *)
Lemma body_runs c s : runs_body (at_code code0 (with_c0 c s)) = jump c (with_c0 (quit0 s) (pass s)).
Proof.
  unfold runs_body. rewrite (bind_ok _ _ _ tt (with_c0 c (pass s))).
  - rewrite ret_to. unfold pass. by rewrite (proj2 HF).
  - unfold modify. change (at_code code0 (with_c0 c s)) with (with_c0 c (at_code code0 s)).
    by rewrite (proj1 HF).
Qed.

Lemma repeat_enter n after s : n <> 0 ->
  jump (RepeatCont n body after) s = (Ok 0, at_code code0 (with_c0 (RepeatCont (n - 1) body after) s)).
Proof.
  intros Hn. rewrite (jump_through _ (mkData None None regs_default (Some 0)) code0 s
    (with_c0 (RepeatCont (n - 1) body after) s)).
  - apply jump_simple.
  - done.
  - cbn [cont_jump]. rewrite (proj2 (Z.eqb_neq n 0) Hn). done.
Qed.

Lemma repeat_loop (n : nat) data code s :
  (jump (RepeatCont (Z.of_nat (S n)) body (OrdCont data code)) ;; times (S n) runs_body) s
  = (jump (OrdCont data code) ;; ret 0) (with_c0 (quit0 s) (Nat.iter (S n) pass s)).
Proof.
  revert s. induction n as [|n IH]; intros s.
  - rewrite (bind_ok _ _ _ _ _ (repeat_enter 1 (OrdCont data code) s ltac:(done))).
    cbn [times]. unfold bind at 1. rewrite body_runs.
    by rewrite (jump_through _ data code _ (with_c0 (quit0 s) (pass s))).
  - assert (Z.of_nat (S (S n)) <> 0) as Hn by lia.
    rewrite (bind_ok _ _ _ _ _ (repeat_enter _ (OrdCont data code) s Hn)).
    remember (S n) as m eqn:Em. cbn [times]. unfold bind at 1. rewrite body_runs.
    replace (Z.of_nat (S m) - 1) with (Z.of_nat m) by lia.
    specialize (IH (with_c0 (quit0 s) (pass s))). unfold bind at 1 in IH.
    rewrite IH, Nat.iter_succ_r, passes_c0, with_c0_c0. f_equal. f_equal.
    cbn. unfold pass. by rewrite (proj2 HF).
Qed.

(** [s] going on after the current instruction, with [c0] as it was. *)
Definition resumed k s0 s : VmState := at_code (code s0) (with_c0 k s).

Lemma jump_rest k s0 s q : quit0 s = q ->
  jump (rest_cont k s0) (with_c0 q s) = (Ok 0, resumed k s0 s).
Proof. intros <-. by rewrite <- ret_to, return_rest. Qed.

Lemma passes_quit0 n s : quit0 (Nat.iter n pass s) = quit0 s.
Proof. induction n as [|n IH]; [done|]. rewrite Nat.iter_succ. unfold pass at 1. by rewrite (proj2 HF). Qed.

(** C26: REPEAT runs its body exactly as often as asked: not at all for a count that is zero
    or negative; otherwise the body runs that many times, each run starting where the
    last one returned, and then the code after the instruction goes on, with its [c0]
    back and no other trace of the loop. *)
Theorem repeat_runs_body (n : Z) (k : cont) (l : list value) s
    (Hs : stack s = of_view (VCont body :: VInt n :: l)) (Hn : I32_MIN <= n <= I32_MAX)
    (Hk : c0 (cr s) = Some k) (Hcp : cp s = 0) :
  let s0 := set_stack (of_view l) s in
  (exec_repeat false ;; times (Z.to_nat n) runs_body) s =
    if n <=? 0 then (Ok 0, s0) else (Ok 0, resumed k s0 (Nat.iter (Z.to_nat n) pass
      (set_code_field slice_default (with_c0 (quit0 s) s0)))).
Proof.
  intros s0. unfold exec_repeat.
  assert (pop_cont s = (Ok body, set_stack (of_view (VInt n :: l)) s)) as Hp1.
  { unfold pop_cont, on_stack, zoom. by rewrite Hs, pop_cont_ok. }
  unfold bind at 1. rewrite (bind_ok _ _ _ _ _ Hp1).
  assert (pop_signed I32_MIN I32_MAX (set_stack (of_view (VInt n :: l)) s) = (Ok n, s0)) as Hp2.
  { unfold pop_signed, on_stack, zoom. cbn [stack set_stack].
    unfold Stack.pop_smallint_signed_range. rewrite pop_range_ok; [done|by apply to_range_Some|done]. }
  rewrite (bind_ok _ _ _ _ _ Hp2). destruct (Z.leb_spec n 0).
  { replace (Z.to_nat n) with 0%nat by lia. done. }
  rewrite (bind_ok _ _ _ _ _ (extract_rest k s0 Hk Hcp)). cbn [c1_envelope_if].
  set (s1 := set_code_field slice_default (with_c0 (quit0 s0) s0)).
  rewrite (bind_ok _ _ s1 (rest_cont k s0) s1) by done.
  unfold repeat. rewrite (proj2 (Z.eqb_neq n 0)) by lia.
  destruct (Z.to_nat n) as [|m] eqn:Em; [lia|].
  replace n with (Z.of_nat (S m)) by lia.
  pose proof (repeat_loop m (mkData None (Some []) (Regs.put_c 0 (Some k) regs_default) (Some 0))
    (code s0) s1) as Hl. etransitivity; [exact Hl|].
  unfold bind. by rewrite (jump_rest k s0) by (by rewrite passes_quit0).
Qed.
End Loops.

(** ** WHILE *)

Section While.
Context `{CL : CellLib}.
Implicit Types (s : VmState) (c k : cont) (data : ControlData).

Context (codeC codeB : OwnedCellSlice) (C B : VmState -> VmState).
Context (HC : blind_to_c0 C) (HB : blind_to_c0 B).

(** The condition leaves an integer on the stack, non-zero to go on. *)
Context (flag : VmState -> Z) (rest : VmState -> list value).
Context (Hflag : forall s, stack (C s) = of_view (VInt (flag s) :: rest s)).

Definition go s : bool := negb (flag (at_code codeC s) =? 0).
(** After the condition and after a whole turn. *)
Definition tested s : VmState := set_stack (of_view (rest (at_code codeC s))) (pass codeC C s).
Definition turned s : VmState := pass codeB B (tested s).

Context (flag_c0 : forall c s, flag (with_c0 c s) = flag s).
Context (rest_c0 : forall c s, rest (with_c0 c s) = rest s).

Lemma tested_c0 c s : tested (with_c0 c s) = with_c0 c (tested s).
Proof.
  unfold tested. rewrite pass_c0 by done. change (at_code codeC (with_c0 c s)) with (with_c0 c (at_code codeC s)).
  by rewrite rest_c0.
Qed.

Lemma turned_c0 c s : turned (with_c0 c s) = with_c0 c (turned s).
Proof. unfold turned. by rewrite tested_c0, pass_c0. Qed.

Lemma go_c0 c s : go (with_c0 c s) = go s.
Proof.
  unfold go. change (at_code codeC (with_c0 c s)) with (with_c0 c (at_code codeC s)).
  by rewrite flag_c0.
Qed.

Lemma pass_quit0 code F s : blind_to_c0 F -> quit0 (pass code F s) = quit0 s.
Proof. intros [_ H]. unfold pass. by rewrite H. Qed.

Lemma turned_quit0 s : quit0 (turned s) = quit0 s.
Proof. unfold turned. rewrite pass_quit0 by done. unfold tested. cbn. by rewrite pass_quit0. Qed.

#[local] Abbreviation cond := (body codeC).
#[local] Abbreviation bodyB := (body codeB).

(** Entering the body when the condition holds, the rest when it does not. *)
Lemma while_test data code s :
  jump (WhileCont true cond bodyB (OrdCont data code)) (with_c0 (quit0 s) (pass codeC C s)) =
  if go s then
    (Ok 0, at_code codeB (with_c0 (WhileCont false cond bodyB (OrdCont data code)) (tested s)))
  else jump (OrdCont data code) (with_c0 (quit0 s) (tested s)).
Proof.
  assert (on_stack Stack.pop_bool (with_c0 (quit0 s) (pass codeC C s))
    = (Ok (go s), with_c0 (quit0 s) (tested s))) as Hp.
  { unfold on_stack, zoom, pass. change (stack (with_c0 (quit0 s) (C (at_code codeC s))))
      with (stack (C (at_code codeC s))).
    rewrite Hflag, pop_bool_ok. done. }
  destruct (go s) eqn:Hg.
  - rewrite (jump_through _ (mkData None None regs_default (Some 0)) codeB _
      (with_c0 (WhileCont false cond bodyB (OrdCont data code)) (tested s))); [apply jump_simple|done|].
    cbn [cont_jump]. unfold bind at 1. rewrite (bind_ok _ _ _ _ _ Hp). done.
  - rewrite (jump_through _ data code _ (with_c0 (quit0 s) (tested s))); [done|done|].
    cbn [cont_jump]. unfold bind at 1. rewrite (bind_ok _ _ _ _ _ Hp). done.
Qed.

Lemma while_again after s :
  jump (WhileCont false cond bodyB after) s =
  (Ok 0, at_code codeC (with_c0 (WhileCont true cond bodyB after) s)).
Proof.
  rewrite (jump_through _ (mkData None None regs_default (Some 0)) codeC s
    (with_c0 (WhileCont true cond bodyB after) s)); [apply jump_simple|done|done].
Qed.

Definition runs_turn : VM Z := runs_body C ;; runs_body B.

(** [n] turns from the entry of the condition, and the last test. *)
Lemma while_loop (n : nat) data code s :
  (forall i, (i < n)%nat -> go (Nat.iter i turned s) = true) ->
  go (Nat.iter n turned s) = false ->
  (times n runs_turn ;; runs_body C)
    (at_code codeC (with_c0 (WhileCont true cond bodyB (OrdCont data code)) s))
  = jump (OrdCont data code) (with_c0 (quit0 s) (tested (Nat.iter n turned s))).
Proof.
  revert s. induction n as [|n IH]; intros s Hgo Hend.
  - cbn [times]. unfold bind, ret. rewrite body_runs, while_test by done.
    cbn in Hend. by rewrite Hend.
  - pose proof (Hgo 0%nat ltac:(lia)) as H0. cbn in H0.
    set (w := WhileCont true cond bodyB (OrdCont data code)).
    assert (runs_turn (at_code codeC (with_c0 w s)) =
      (Ok 0, at_code codeC (with_c0 w (with_c0 (quit0 s) (turned s))))) as Ht.
    { unfold runs_turn. rewrite (bind_ok _ _ _ 0
        (at_code codeB (with_c0 (WhileCont false cond bodyB (OrdCont data code)) (tested s)))).
      - rewrite body_runs by done.
        assert (quit0 (tested s) = quit0 s) as -> by (unfold tested; cbn; by rewrite pass_quit0).
        apply while_again.
      - rewrite body_runs by done. unfold w. rewrite while_test, H0. done. }
    cbn [times]. unfold bind at 1. rewrite (bind_ok _ _ _ _ _ Ht).
    specialize (IH (with_c0 (quit0 s) (turned s))). unfold bind at 1 in IH. fold w in IH.
    assert (forall m c x, Nat.iter m turned (with_c0 c x) = with_c0 c (Nat.iter m turned x)) as Hi.
    { intros m c x. induction m as [|m IHm]; [done|]. by rewrite !Nat.iter_succ, IHm, turned_c0. }
    rewrite IH.
    + rewrite Hi, tested_c0, with_c0_c0, <- Nat.iter_succ_r. cbn [quit0 with_c0 set_cr].
      by rewrite turned_quit0.
    + intros i Hlt. rewrite Hi, go_c0, <- Nat.iter_succ_r. apply Hgo. lia.
    + by rewrite Hi, go_c0, <- Nat.iter_succ_r.
Qed.

(** C25: WHILE tests its condition before every turn.  If the condition holds the first [n]
    times and then fails, the instruction runs condition and body [n] times in turn, the
    condition once more, and the code after the instruction goes on, with its [c0] back
    and the tested values gone from the stack. *)
Theorem while_runs_body (n : nat) (k : cont) (l : list value) s
    (Hs : stack s = of_view (VCont bodyB :: VCont cond :: l))
    (Hk : c0 (cr s) = Some k) (Hcp : cp s = 0) :
  let s0 := set_stack (of_view l) s in
  let s1 := set_code_field slice_default (with_c0 (quit0 s) s0) in
  (forall i, (i < n)%nat -> go (Nat.iter i turned s1) = true) ->
  go (Nat.iter n turned s1) = false ->
  (exec_while false ;; times n runs_turn ;; runs_body C) s =
    (Ok 0, resumed k s0 (tested (Nat.iter n turned s1))).
Proof.
  intros s0 s1 Hgo Hend. unfold exec_while.
  assert (pop_cont s = (Ok bodyB, set_stack (of_view (VCont cond :: l)) s)) as Hp1.
  { unfold pop_cont, on_stack, zoom. by rewrite Hs, pop_cont_ok. }
  assert (pop_cont (set_stack (of_view (VCont cond :: l)) s) = (Ok cond, s0)) as Hp2.
  { unfold pop_cont, on_stack, zoom. cbn [stack set_stack]. by rewrite pop_cont_ok. }
  unfold bind at 1. rewrite (bind_ok _ _ _ _ _ Hp1), (bind_ok _ _ _ _ _ Hp2).
  rewrite (bind_ok _ _ _ _ _ (extract_rest k s0 Hk Hcp)). cbn [c1_envelope_if].
  fold s1. rewrite (bind_ok _ _ s1 (rest_cont k s0) s1) by done.
  unfold loop_while. change (has_c0 cond) with false. cbn [negb].
  set (w := WhileCont true cond bodyB (rest_cont k s0)).
  rewrite (bind_ok _ _ s1 tt (with_c0 w s1)) by done.
  change cond with (simple codeC 0). rewrite jump_simple. fold cond.
  pose proof (while_loop n (mkData None (Some []) (Regs.put_c 0 (Some k) regs_default) (Some 0))
    (code s0) s1 Hgo Hend) as Hl.
  etransitivity; [exact Hl|]. apply (jump_rest k s0).
  unfold tested. cbn. rewrite pass_quit0 by done. clear -HC HB. induction n as [|n IH]; [done|].
  by rewrite Nat.iter_succ, turned_quit0.
Qed.
End While.

(** ** Exceptions *)

Section Exceptions.
Context `{CL : CellLib}.
Implicit Types (s : VmState) (c k : cont) (data : ControlData).

(** Going on with [code], with the registers saved in [sv] restored. *)
Definition back_to (sv : ControlRegs) (code : OwnedCellSlice) s : VmState :=
  at_code code (set_cr (Regs.merge (cr s) sv) s).

Lemma return_all (sv : ControlRegs) k code s : c0 sv = Some k ->
  c0 (cr s) = Some (OrdCont (mkData None (Some []) sv (Some 0)) code) ->
  ret_ s = (Ok 0, back_to sv code s).
Proof.
  intros Hk Hc0. rewrite (return_with None [] sv k code _ (stack s) (gas s) Hk Hc0); [by destruct s|lia|].
  intros s' Hs Hg. unfold adjust_stack. rewrite Z.ltb_irrefl. unfold ret.
  rewrite <- Hs, <- Hg. by destruct s'.
Qed.

(** The registers TRY saves. *)
Definition saved_regs k k1 k2 : ControlRegs := mkRegs (Some k) (Some k1) (Some k2) None None None None.

Lemma extract_full k k1 k2 s :
  c0 (cr s) = Some k -> c1 (cr s) = Some k1 -> c2 (cr s) = Some k2 -> cp s = 0 ->
  extract_cc SAVE_FULL None None s =
    (Ok (OrdCont (mkData None (Some []) (saved_regs k k1 k2) (Some 0)) (code s)),
     set_code_field slice_default (set_cr (Regs.put_c 2 None (Regs.put_c 1 (Some (quit1 s))
       (Regs.put_c 0 (Some (quit0 s)) (cr s)))) s)).
Proof.
  intros Hk H1 H2 Hcp. unfold extract_cc, take_stack, take_code, get_reg, put_reg, bind, gets, modify, ret.
  change (save_contains SAVE_FULL SAVE_C0) with true.
  change (save_contains SAVE_FULL SAVE_C1) with true.
  change (save_contains SAVE_FULL SAVE_C2) with true.
  cbn. rewrite Hk, H1, H2, Hcp. by destruct s.
Qed.

Lemma throw_to n arg data handler s : gas_wf (gas s) -> 50 <= Gas.gas_remaining (gas s) ->
  c2 (cr s) = Some (OrdCont data handler) -> cd_cp data = Some 0 -> needs_adjust data = false ->
  throw_exception_with_arg n arg s =
    (Ok 0, back_to (save data) handler (set_stack (of_view [VInt n; arg]) (fee_charged 50 s))).
Proof.
  intros W Hg H2 Hcp Hadj. unfold throw_exception_with_arg.
  set (s1 := set_code_field slice_default (set_stack [arg; VInt n] s)).
  rewrite (bind_ok _ _ s tt (set_stack [arg; VInt n] s)) by done.
  rewrite (bind_ok _ _ _ tt s1) by done.
  assert (on_gas Gas.try_consume_exception_gas s1 = (Ok tt, fee_charged 50 s1)) as Hx.
  { unfold on_gas, zoom, map_err, Gas.try_consume_exception_gas, Gas.EXCEPTION_GAS_PRICE, fee_charged.
    by rewrite consume_charged. }
  rewrite (bind_ok _ _ _ _ _ Hx).
  rewrite (bind_ok _ _ _ (Some (OrdCont data handler)) (fee_charged 50 s1))
    by (unfold get_reg, gets; cbn; by rewrite H2).
  rewrite (bind_ok _ _ _ (OrdCont data handler) (fee_charged 50 s1)) by done.
  rewrite jump_ord by done. done.
Qed.

(** C13: TRY.  It runs the body with the handler in [c2].  When the body returns, whatever it
    did to the stack, the code after the instruction goes on with [c0], [c1] and [c2] as
    they were.  When anything throws while the handler is in [c2], the handler runs with
    the argument and the exception code alone on the stack, pays 50 gas, and has the
    outer handler in [c2]; when it returns, the code after the instruction goes on in
    the same way. *)
Theorem try_protects (b h : OwnedCellSlice) (k k1 k2 : cont) (l : list value) s
    (Hs : stack s = of_view (VCont (simple h 0) :: VCont (simple b 0) :: l))
    (Hc0 : c0 (cr s) = Some k) (Hc1 : c1 (cr s) = Some k1) (Hc2 : c2 (cr s) = Some k2)
    (Hcp : cp s = 0) :
  exists s1, exec_try s = (Ok 0, s1) /\
    code s1 = b /\ stack s1 = of_view l /\ gas s1 = gas s /\ c1 (cr s1) = Some (quit1 s) /\
    (forall s2, c0 (cr s2) = c0 (cr s1) ->
       ret_ s2 = (Ok 0, back_to (saved_regs k k1 k2) (code s) s2)) /\
    (forall s2 n arg, c2 (cr s2) = c2 (cr s1) -> gas_wf (gas s2) -> 50 <= Gas.gas_remaining (gas s2) ->
       exists s3, throw_exception_with_arg n arg s2 = (Ok 0, s3) /\
         code s3 = h /\ stack s3 = of_view [VInt n; arg] /\ gas s3 = charged 50 (gas s2) /\
         c0 (cr s3) = c0 (cr s1) /\ c2 (cr s3) = Some k2).
Proof.
  unfold exec_try, exec_try_common.
  assert (pop_cont s = (Ok (simple h 0), set_stack (of_view (VCont (simple b 0) :: l)) s)) as Hp1.
  { unfold pop_cont, on_stack, zoom. by rewrite Hs, pop_cont_ok. }
  set (s0 := set_stack (of_view l) s).
  assert (pop_cont (set_stack (of_view (VCont (simple b 0) :: l)) s) = (Ok (simple b 0), s0)) as Hp2.
  { unfold pop_cont, on_stack, zoom. cbn [stack set_stack]. by rewrite pop_cont_ok. }
  eexists. split.
  { rewrite (bind_ok _ _ _ _ _ Hp1), (bind_ok _ _ _ _ _ Hp2).
    rewrite (bind_ok _ _ s0 (Some k2) s0) by (unfold get_reg, gets; cbn; by rewrite Hc2).
    cbn [option_map]. rewrite (bind_ok _ _ _ _ _ (extract_full k k1 k2 s0 Hc0 Hc1 Hc2 Hcp)).
    unfold bind at 1, put_reg at 1, modify at 1. unfold bind at 1, put_reg at 1, modify at 1.
    apply jump_simple. }
  cbn. repeat (split; [done|]). split.
  - intros s2 H. by apply (return_all _ k).
  - intros s2 n arg H W Hg. eexists. split; [by apply (throw_to n arg _ h s2 W Hg H)|]. done.
Qed.
End Exceptions.
