(* ===== verification/Witnesses.v ===== *)
(** * A sample VM

    A VM over the concrete cells of External.v and the code page over the concrete
    libraries, run on small programs.  The programs are byte strings as they would be stored in a
    cell. *)

From Stdlib Require Import Ascii String.
From stdpp Require Import relations.
From S2P Require Import Prelude External Cells Values VmStack VmGas VmRegs VmState GasLaws.
From S2P Require Import ArithOps ContOps Dispatch VmProc Codepage Tracking Instructions Metering.
From S2P Require Import Run Termination CodepageLaws RegTracking Reach ArithSpec Models Dicts RandOps.
From S2P Require Import TreeModels CmpOps LogicOps StackOps TupleOps GasOps DispatchLaws.
From S2P Require Import StackSpec GasSpec ContSpec CellOps CellSpec.

Import TreeCells TreeSlices TreeModels TreeDicts.
Open Scope vm_scope.

Section Samples.
(** A cell of the given bytes and references. *)
Definition byte_cell (bytes : list Z) (refs : list Cell) : Cell :=
  TCell Ordinary (concat (map (to_bits 8) bytes)) refs.

Definition sample_gas : GasParams := mkGasParams 1000 1000 0 1.

(** A VM that runs [c] on the values [l], the top first. *)
Definition sample_builder (c : Cell) (l : list value) : VmStateBuilder :=
  mkBuilder (Some (new_allow_exotic c)) None (of_view l) None None sample_gas NoSelector None
    (mkModifiers false false None).

Definition sample_vm (l : list value) : VmState := Run.build (sample_builder (byte_cell [] []) l).

(** The code page over the concrete libraries. *)
Definition page : Opcodes := default [] (codepage0 (CL := tree_cells)).

Lemma page_eq : codepage0 (CL := tree_cells) = Some page.
Proof.
  destruct (codepage0_builds (CL := tree_cells)) as [t Ht]. unfold page. by rewrite Ht.
Qed.

(** PUSHINT 7; PUSHINT 8; ADD. *)
Definition sum_vm : VmState := Run.build (sample_builder (byte_cell [119; 120; 160] []) []).

Example run_sum :
  let '(r, s) := run page 100 100 sum_vm in
  (r, stack s, Gas.gas_remaining (gas s), steps s)
  = (Ok (Some (-1)), [VInt 15], 1000 - 18 - 18 - 18 - 5, 4).
Proof. vm_compute. reflexivity. Qed.
End Samples.

(** ** Integers beyond 257 bits *)

Section PushInt.
(** PUSHINT with the length 30, 3 + 32 * 8 = 259 bits, of [2^257]. *)
Definition wide_int_vm : VmState :=
  Run.build (sample_builder (TCell Ordinary (to_bits 8 0x82 ++ to_bits 5 30 ++ to_bits 259 (2 ^ 257)) []) []).

(** PUSHINT pushes integers that no other instruction would let through: a program of one
    PUSHINT with the greatest length it accepts leaves an integer of 259 bits, outside
    the 257-bit range, on the stack and ends normally. *)
Theorem pushint_exceeds_257_bits :
  let '(r, s) := run page 100 100 wide_int_vm in
  r = Ok (Some (-1)) /\ stack s = [VInt (2 ^ 257)] /\ in_257 (2 ^ 257) = false.
Proof. vm_compute. repeat split. Qed.
End PushInt.

(** * The properties at concrete inputs

    Every property with hypotheses applied to the sample VM and its code page. *)

(** ** The machine *)

Section Machine.
Lemma run_gives {A B} (p : A * B) a : p.1 = a -> p = (a, p.2).
Proof. intros <-. apply surjective_pairing. Qed.

(** The state after [n] turns, and the results of the turns. *)
Fixpoint after (n : nat) (s : VmState) : VmState :=
  match n with O => s | S n => after n (turn page s).2 end.



Lemma run_terminates_witness :
  exists res s', run page 3000 3000 sum_vm = (Ok (Some res), s') /\ parent s' = None.
Proof.
  apply (run_terminates page (sample_builder (byte_cell [119; 120; 160] []) []) 3000 page_eq); vm_compute; discriminate.
Defined.

Lemma sample_sane l : sane (gas (sample_vm l)).
Proof.
  apply (with_libraries_sane sample_gas Gas.NoLibraries); vm_compute; discriminate.
Qed.

Lemma turns_cost_gas_witness :
  let s' := after 1 sum_vm in
  parent s' = None /\ used (gas sum_vm) < used (gas s').
Proof.
  destruct (turns_cost_gas page sum_vm (after 1 sum_vm) page_eq)
    as [_ [[Hp Hu]|(p & Hp & _)]].
  - exact (sample_sane []).
  - apply run_gives. vm_compute. reflexivity.
  - split; [rewrite Hp; reflexivity | exact Hu].
  - exfalso. assert (parent (after 1 sum_vm) = None) as H by (vm_compute; reflexivity).
    rewrite H in Hp. discriminate Hp.
Defined.

Lemma run_refines_witness :
  exists r s', rtc (vm_step page) (Turn sum_vm) (Halted r s') /\ r = -1.
Proof.
  exists (-1), (run page 100 100 sum_vm).2. split; [|reflexivity].
  apply (run_refines page sum_vm); [reflexivity | reflexivity |].
  exists 100%nat, 100%nat. apply run_gives. vm_compute. reflexivity.
Defined.
End Machine.

(** ** Instructions *)

Section Instructions.
Definition ints (l : list Z) : list value := map VInt l.

Lemma sample_wf l : gas_wf (gas (sample_vm l)).
Proof. apply sample_sane. Qed.

Lemma unary_instructions_witness :
  exec_negate false (sample_vm (ints [5])) = (Ok 0, set_stack [VInt (-5)] (sample_vm (ints [5]))) /\
  exec_negate false (sample_vm (ints [- 2 ^ 256])) = (Err IntegerOverflow, set_stack [] (sample_vm (ints [- 2 ^ 256]))).
Proof.
  destruct (unary_instructions false 5 3 ltac:(lia) ltac:(lia)) as [H _].
  split; (etransitivity; [apply H; [reflexivity | discriminate | repeat constructor]|]); reflexivity.
Defined.

Lemma binary_instructions_witness :
  exec_sub true (sample_vm (ints [2 ^ 255; - 2 ^ 256]))
  = (Ok 0, set_stack [VNaN] (sample_vm (ints [2 ^ 255; - 2 ^ 256]))).
Proof.
  destruct (binary_instructions true) as (_ & H & _).
  etransitivity; [apply H; [reflexivity | discriminate | repeat constructor]|]. reflexivity.
Defined.

Lemma and_or_instructions_witness :
  exec_and false (sample_vm (VNaN :: ints [0])) = (Ok 0, set_stack [VInt 0] (sample_vm (VNaN :: ints [0]))).
Proof.
  destruct (and_or_instructions false) as [H _].
  etransitivity; [apply H; [reflexivity | discriminate | repeat constructor]|]. reflexivity.
Defined.

Lemma division_correct_witness : int_divmod (-7) 2 Nearest = (-3, -1).
Proof.
  destruct (division_correct Nearest (-7) 2 ltac:(lia)) as [H _].
  apply H. vm_compute. repeat split; discriminate.
Defined.

Lemma division_instructions_witness :
  exec_divmod 12 false (sample_vm (ints [2; -7]))
  = (Ok 0, set_stack (of_view (ints [1; -4])) (sample_vm (ints [2; -7]))).
Proof.
  destruct (division_instructions 12 false false) as [H _].
  etransitivity; [apply H; [reflexivity | vm_compute; reflexivity | repeat constructor]|].
  reflexivity.
Defined.

Lemma comparison_instructions_witness :
  exec_cmp MODE_LESS false (sample_vm (ints [3; 2]))
  = (Ok 0, set_stack [VInt (-1)] (sample_vm (ints [3; 2]))).
Proof.
  destruct (comparison_instructions false) as [[H _] _].
  etransitivity; [apply H; [reflexivity | discriminate | repeat constructor]|]. reflexivity.
Defined.

Lemma fits_instructions_witness :
  exec_fits_tinyint8 8 true true (sample_vm (ints [128]))
  = (Ok 0, set_stack [VNaN] (sample_vm (ints [128]))).
Proof.
  etransitivity; [apply (fits_instructions true true 8); [lia | reflexivity | discriminate | repeat constructor]|].
  reflexivity.
Defined.

Lemma blkswap_exchanges_witness :
  exec_blkswap 2 1 (sample_vm (ints [1; 2; 3; 4]))
  = (Ok 0, set_stack (of_view (ints [2; 3; 1; 4])) (sample_vm (ints [1; 2; 3; 4]))).
Proof.
  apply (blkswap_exchanges _ 2 1 (ints [1; 2; 3; 4])); [lia | lia | reflexivity | discriminate].
Defined.

Lemma roll_instructions_witness :
  (exec_roll (sample_vm (ints [2; 1; 2; 3]))).2
  = set_stack (of_view (ints [3; 1; 2])) (sample_vm (ints [2; 1; 2; 3])).
Proof.
  destruct (roll_instructions (sample_vm (ints [2; 1; 2; 3])) (ints [1; 2]) (VInt 3) [])
    as [H _]; [reflexivity | discriminate | apply sample_wf | vm_compute; discriminate |].
  rewrite (H eq_refl). reflexivity.
Defined.

Lemma tuple_round_trip_witness :
  stack ((exec_mktuple 2 ;; exec_untuple 2) (sample_vm (ints [1; 2; 3]))).2 = of_view (ints [1; 2; 3]).
Proof.
  destruct (tuple_round_trip (sample_vm (ints [1; 2; 3])) 2 (ints [1; 2; 3])) as [_ H];
    [reflexivity | lia | vm_compute; discriminate | vm_compute; reflexivity | apply sample_wf
    | vm_compute; discriminate |].
  rewrite H. reflexivity.
Defined.

Definition sample_record : list field :=
  [IntField true 9 (-200); RefField (byte_cell [7] []); IntField false 100 (2 ^ 70); IntField true 130 (-5)].

Lemma record_round_trip_witness :
  stack ((exec_new_builder ;; run_all (map store_field sample_record) ;; exec_builder_to_cell ;;
          exec_cell_to_slice ;; run_all (map load_field sample_record) ;; exec_slice_chk_empty)
         (sample_vm (map field_value sample_record))).2 =
    of_view [VInt (-5); VInt (2 ^ 70); VCell (byte_cell [7] []); VInt (-200)].
Proof.
  destruct (record_round_trip sample_record [] (sample_vm (map field_value sample_record))) as (c & _ & H).
  - unfold sample_record. repeat apply Forall_cons_2; [..|apply Forall_nil_2]; cbn; lia.
  - vm_compute. discriminate.
  - vm_compute. discriminate.
  - by rewrite app_nil_r.
  - vm_compute. reflexivity.
  - apply sample_wf.
  - vm_compute. discriminate.
  - rewrite H. reflexivity.
Defined.


Lemma set_index_quiet_spec_witness :
  set_index_quiet (Some [VInt 1]) 2 (VInt 5) = (3, Some [VInt 1; VNull; VInt 5]) /\
  item (set_index_quiet (Some [VInt 1]) 2 (VInt 5)).2 1 = VNull.
Proof.
  split; [reflexivity|].
  destruct (set_index_quiet_spec (Some [VInt 1]) 2 (VInt 5) ltac:(lia)) as [H _].
  apply (H 1). lia.
Defined.
End Instructions.

(** ** The opcode table *)

Section Table.
Definition two_ops : Opcodes := [(0, SimpleOpcode (ret 0) 0 256 16); (512, DummyOpcode 512 1024)].

Lemma registration_refuses_overlaps_witness :
  (exists t', add_opcode (SimpleOpcode (ret 0) 256 512 16) two_ops = Some t') /\
  exists e, e ∈ two_ops /\ overlaps op_range (SimpleOpcode (ret 0) 255 300 16) e.
Proof.
  split.
  - eexists. split; reflexivity.
  - apply (registration_refuses_overlaps two_ops (SimpleOpcode (ret 0) 255 300 16));
      vm_compute; repeat split; discriminate.
Defined.


Lemma ifbitjmpref_operands_ignored_witness :
  exists min max, lookup page 0xe3d500 = Some (ExtOpcode exec_if_bit_jmpref min max 10).
Proof.
  apply (ifbitjmpref_operands_ignored page 0xe3d500 page_eq). lia.
Defined.
End Table.

(** ** Gas *)

Section Gas.
Definition sample_consumer : Gas.GasConsumer := gas (sample_vm []).

Lemma sample_consumer_wf : gas_wf sample_consumer.
Proof. apply sample_wf. Qed.

Lemma consuming_gas_witness : (Gas.try_consume 1001 sample_consumer).1 = Err Cancelled.
Proof.
  destruct (consuming_gas 1001 sample_consumer sample_consumer_wf) as [H _];
    [split; discriminate|]. rewrite H. reflexivity.
Defined.

Lemma cell_loads_are_charged_witness :
  exists g, Gas.load_cell_impl (byte_cell [1] []) LoadMode_Full sample_consumer = (Ok (byte_cell [1] []), g) /\
    Gas.gas_remaining g = 900 /\ load_fee (Gas.loaded_cells g) (byte_cell [1] []) = 25.
Proof.
  destruct (cell_loads_are_charged (byte_cell [1] []) sample_consumer sample_consumer_wf) as (H & _ & H25);
    [vm_compute; discriminate|].
  exists (loaded_once (byte_cell [1] []) sample_consumer).
  split; [exact H|]. split; [reflexivity | exact H25].
Defined.

Definition rich_consumer : Gas.GasConsumer := Gas.with_libraries (mkGasParams 1000000 1000000 0 1) Gas.NoLibraries.

Lemma rich_consumer_wf : gas_wf rich_consumer.
Proof. apply (with_libraries_sane (mkGasParams 1000000 1000000 0 1)); vm_compute; discriminate. Qed.

Lemma signature_checks_charged_witness :
  (repeat_gm 12 Gas.try_consume_check_signature_gas rich_consumer).2
  = set_checks 12 40000 (charged 8000 rich_consumer).
Proof.
  rewrite (signature_checks_charged 12 rich_consumer rich_consumer_wf eq_refl eq_refl);
    [reflexivity | vm_compute; discriminate].
Defined.

Lemma limited_consumer_budget_witness :
  (charge_all [150; 100; 25] (Gas.mkLimited rich_consumer 200)).2
  = Gas.mkLimited (set_free 75 (charged 200 rich_consumer)) 0.
Proof.
  rewrite (limited_consumer_budget [150; 100; 25] 200 rich_consumer rich_consumer_wf);
    [reflexivity | repeat constructor; lia | split; discriminate | vm_compute; discriminate].
Defined.

Lemma set_gas_limit_instruction_witness :
  exec_set_gas_limit (sample_vm [VInt 400])
  = (Ok 0, set_gas (Gas.set_limit 400 sample_consumer) (sample_vm [])).
Proof.
  pose proof (set_gas_limit_instruction (sample_vm [VInt 400]) 400 [] eq_refl (sample_sane _) eq_refl) as H.
  cbv zeta in H. change (asked_limit 400 <? used (gas (sample_vm [VInt 400]))) with false in H.
  exact (proj1 H).
Defined.

End Gas.

(** ** Control flow *)

Section Control.
(** The sample VM somewhere in its code. *)
Definition in_code (l : list value) : VmState := set_code_field (new_allow_exotic (byte_cell [165] [])) (sample_vm l).
Definition other_code : OwnedCellSlice := new_allow_exotic (byte_cell [160] []).

Lemma call_and_return_witness :
  exists s1, call_ext (simple other_code 0) (Some 2%N) (Some 1%N) (in_code (ints [1; 2; 3])) = (Ok 0, s1) /\
    stack s1 = of_view (ints [1; 2]) /\
    let s2 := set_stack (of_view (ints [7; 8])) s1 in
    exists s3, ret_ s2 = (Ok 0, s3) /\ stack s3 = of_view (ints [7; 3]) /\
      code s3 = code (in_code (ints [1; 2; 3])).
Proof.
  destruct (call_and_return 2 1 other_code QUIT0 (in_code (ints [1; 2; 3]))) as (s1 & Hc & _ & _ & Hs & Hg & _ & H);
    [reflexivity | reflexivity | vm_compute; discriminate | apply sample_wf | vm_compute; discriminate |].
  exists s1. split; [exact Hc|]. split; [exact Hs|].
  eexists. split; [apply (H (set_stack (of_view (ints [7; 8])) s1)); [reflexivity | | ]|].
  - cbn [gas set_stack]. rewrite Hg. apply charged_wf; [apply sample_wf | vm_compute; split; discriminate].
  - cbn [gas set_stack]. rewrite Hg. vm_compute. discriminate.
  - split; reflexivity.
Defined.

(** A loop body that pushes a one, a condition that tests whether the top is positive. *)
Definition push_one (s : VmState) : VmState := set_stack (stack s ++ [VInt 1]) s.

Lemma push_one_blind : blind_to_c0 push_one.
Proof. split; reflexivity. Qed.

Lemma repeat_runs_body_witness :
  (exec_repeat false ;; times 3 (runs_body push_one)) (in_code [VCont (body other_code); VInt 3])
  = (Ok 0, resumed QUIT0 (in_code []) (set_stack (of_view (ints [1; 1; 1]))
       (set_code_field other_code (in_code [])))).
Proof.
  etransitivity; [apply (repeat_runs_body other_code push_one push_one_blind 3 QUIT0 []);
    [reflexivity | split; vm_compute; discriminate | reflexivity | reflexivity] | reflexivity].
Defined.

(** The condition "the stack holds fewer than two values". *)
Definition short (s : VmState) : VmState :=
  set_stack (stack s ++ [VInt (if bool_decide (length (stack s) < 2)%nat then -1 else 0)]) s.

Lemma short_blind : blind_to_c0 short.
Proof. split; reflexivity. Qed.

Lemma while_runs_body_witness :
  let s := in_code [VCont (body other_code); VCont (body other_code)] in
  stack ((exec_while false ;; times 2 (runs_turn short push_one) ;; runs_body short) s).2
  = of_view (ints [1; 1]).
Proof.
  assert (forall s, stack (short s) = of_view (VInt (if bool_decide (length (stack s) < 2)%nat then -1 else 0)
    :: rev (stack s))) as Hflag.
  { intros s. unfold short, of_view. cbn [stack set_stack]. unfold reverse.
    rewrite rev_append_rev, app_nil_r. cbn. by rewrite rev_involutive. }
  pose proof (while_runs_body other_code other_code short push_one short_blind push_one_blind
    (fun s => if bool_decide (length (stack s) < 2)%nat then -1 else 0) (fun s => rev (stack s))
    Hflag (fun _ _ => eq_refl) (fun _ _ => eq_refl) 2 QUIT0 []
    (in_code [VCont (body other_code); VCont (body other_code)]) eq_refl eq_refl eq_refl) as H.
  cbv zeta in H |- *. rewrite H; [reflexivity | | reflexivity].
  intros [|[|i]] Hi; [reflexivity | reflexivity | lia].
Defined.

Lemma try_protects_witness :
  exists s1, exec_try (in_code [VCont (simple other_code 0); VCont (simple other_code 0)]) = (Ok 0, s1) /\
    exists s3, throw_exception_with_arg 42 (VInt 5) s1 = (Ok 0, s3) /\
      stack s3 = of_view [VInt 42; VInt 5] /\ c2 (cr s3) = Some EXC_QUIT.
Proof.
  destruct (try_protects other_code other_code QUIT0 QUIT1 EXC_QUIT []
    (in_code [VCont (simple other_code 0); VCont (simple other_code 0)]))
    as (s1 & Ht & _ & _ & Hg & _ & _ & H); [reflexivity..|].
  exists s1. split; [exact Ht|].
  destruct (H s1 42 (VInt 5) eq_refl) as (s3 & H3 & _ & Hs & _ & _ & H2).
  - rewrite Hg. exact (sample_wf _).
  - rewrite Hg. vm_compute. discriminate.
  - exists s3. split; [exact H3 | split; [exact Hs | exact H2]].
Defined.
End Control.
