(* ===== verification/ExecConfig.v ===== *)
(** * The configuration of the executor (config.rs)

    [ParsedConfig] with its parser, the prices it selects, the storage fees of an
    account and the gas a balance buys.  Prices are [u64], amounts of storage
    [VarUint56] and the sums [u128]: saturating where the source saturates, truncated to
    128 bits where it shifts. *)

From S2P Require Import Prelude External Values VmGas Cells Models SmcInfo.

Open Scope vm_scope.

(** [shift_ceil_price] of util.rs: from fixed point, rounded up. *)
Definition shift_ceil_price (value : Z) : Z :=
  let r := negb (Z.land value 0xffff =? 0) in
  Z.shiftr value 16 + Z.b2z r.

Section Config.
Context `{ML : ModelLib}.

Record ParsedConfig := mkConfig {
  blackhole_addr : option HashBytes;
  mc_gas_prices : GasLimitsPrices;
  cfg_gas_prices : GasLimitsPrices;
  mc_fwd_prices : MsgForwardPrices;
  cfg_fwd_prices : MsgForwardPrices;
  size_limits : SizeLimitsConfig;
  storage_prices : list StoragePrices;
  global_id : Z;
  global : GlobalVersion;
  workchains : gmap Z WorkchainDescription;
  special_accounts : gset HashBytes;
  raw : BlockchainConfig;
  unpacked : UnpackedConfig
}.

(** ** Parsing *)

Record ParsedStoragePrices := mkParsedPrices {
  pp_latest : option OwnedCellSlice; pp_prices : list StoragePrices
}.

(** The loop of [parse_storage_prices]: [latest] is the last value not after [now]. *)
Fixpoint collect_prices (now : Z) (values : list (result Error OwnedCellSlice))
    (acc : ParsedStoragePrices) : result Error ParsedStoragePrices :=
  match values with
  | [] => Ok acc
  | value :: values =>
      let? value := value in
      let? prices := load_storage_prices value in
      collect_prices now values
        (mkParsedPrices (if utime_since prices <=? now then Some value else pp_latest acc)
           (pp_prices acc ++ [prices]))
  end.

Definition parse_storage_prices (params : BlockchainConfigParams) (now : Z)
    : result Error ParsedStoragePrices :=
  let? dict := config_get params 18 in
  collect_prices now (values_owned dict) (mkParsedPrices None []).

(** A required parameter of the configuration. *)
Definition required (params : BlockchainConfigParams) (id : Z) : result Error Cell :=
  let? c := config_get params id in
  match c with None => Err CellUnderflow | Some c => Ok c end.

(** A loop that collects the entries of an iterator until an error. *)
Fixpoint collect_ok {A} (l : list (result Error A)) : result Error (list A) :=
  match l with
  | [] => Ok []
  | a :: l => let? a := a in let? l := collect_ok l in Ok (a :: l)
  end.

(** [ParsedConfig::parse]. *)
Definition parse (config : BlockchainConfig) (now : Z) : result Error ParsedConfig :=
  let params := cfg_params config in
  let? burning_cell := config_get params 5 in
  let? blackhole :=
    match burning_cell with Some c => parse_burning c | None => Ok None end in
  let? mc_gas_prices_raw := required params 20 in
  let? gas_prices_raw := required params 21 in
  let? mc_fwd_prices_raw := required params 24 in
  let? fwd_prices_raw := required params 25 in
  let? prices := parse_storage_prices params now in
  let? entries := get_workchains params in
  let? workchains := collect_ok entries in
  let? global_id_raw := config_get params 19 in
  let? global := get_global_version params in
  let? size_limits_raw := required params 43 in
  let? addrs := get_fundamental_addresses params in
  let? special_accounts := collect_ok addrs in
  let? mc_gas := parse_gas_prices mc_gas_prices_raw in
  let? gas := parse_gas_prices gas_prices_raw in
  let? mc_fwd := parse_fwd_prices mc_fwd_prices_raw in
  let? fwd := parse_fwd_prices fwd_prices_raw in
  let? limits := parse_size_limits size_limits_raw in
  let? id := match global_id_raw with None => Ok 0 | Some param => parse_i32 param end in
  Ok (mkConfig blackhole mc_gas gas mc_fwd fwd limits (pp_prices prices) id global
        (foldl (fun m '(k, v) => <[k := v]> m) ∅ workchains)
        (list_to_set special_accounts) config
        (mkUnpacked (pp_latest prices) global_id_raw (Some mc_gas_prices_raw)
           (Some gas_prices_raw) (Some mc_fwd_prices_raw) (Some fwd_prices_raw)
           (Some size_limits_raw))).

(** [update_storage_prices]. *)
Definition update_storage_prices (c : ParsedConfig) (now : Z) : result Error ParsedConfig :=
  let? prices := parse_storage_prices (cfg_params (raw c)) now in
  let u := unpacked c in
  Ok (mkConfig (blackhole_addr c) (mc_gas_prices c) (cfg_gas_prices c) (mc_fwd_prices c)
        (cfg_fwd_prices c) (size_limits c) (pp_prices prices) (global_id c) (global c)
        (workchains c) (special_accounts c) (raw c)
        (mkUnpacked (pp_latest prices) (up_global_id u) (up_mc_gas_prices u)
           (up_gas_prices u) (up_mc_fwd_prices u) (up_fwd_prices u)
           (up_size_limits_config u))).

(** ** Queries *)

Definition is_blackhole (c : ParsedConfig) (addr : StdAddr) : bool :=
  match blackhole_addr c with
  | Some h => is_masterchain addr && bool_decide (std_address addr = h)
  | None => false
  end.

Definition is_special (c : ParsedConfig) (addr : StdAddr) : bool :=
  is_masterchain addr &&
  (bool_decide (std_address addr ∈ special_accounts c)
   || bool_decide (std_address addr = cfg_address (raw c))).

Definition fwd_prices (c : ParsedConfig) (masterchain : bool) : MsgForwardPrices :=
  if masterchain then mc_fwd_prices c else cfg_fwd_prices c.

Definition gas_prices (c : ParsedConfig) (masterchain : bool) : GasLimitsPrices :=
  if masterchain then mc_gas_prices c else cfg_gas_prices c.

(** ** Storage fees *)

Definition get_prices (masterchain : bool) (p : StoragePrices) : Z * Z :=
  if masterchain then (mc_bit_price_ps p, mc_cell_price_ps p)
  else (bit_price_ps p, cell_price_ps p).

(** The fee of a segment that was active for [delta] seconds. *)
Definition segment_fee (masterchain : bool) (used : StorageUsed) (p : StoragePrices)
    (delta : Z) : Z :=
  let '(bit_price, cell_price) := get_prices masterchain p in
  sat_mul_u128
    (sat_add_u128 (bit_price * used_bits used) (cell_price * used_cells used)) delta.

(** The loop over the segments, newest first. *)
Fixpoint segments_loop (masterchain : bool) (used : StorageUsed) (last_paid : Z)
    (segments : list StoragePrices) (upto total : Z) : Z :=
  match segments with
  | [] => total
  | p :: segments =>
      if upto <? utime_since p then
        segments_loop masterchain used last_paid segments upto total
      else
        let delta := upto - Z.max (utime_since p) last_paid in
        let total := sat_add_u128 total (segment_fee masterchain used p delta) in
        let upto := utime_since p in
        if upto <=? last_paid then total
        else segments_loop masterchain used last_paid segments upto total
  end.

Definition compute_storage_fees (c : ParsedConfig) (stat : StorageInfo) (now : Z)
    (special masterchain : bool) : Z :=
  if (now <=? last_paid stat) || (last_paid stat =? 0) || special then 0
  else match storage_prices c with
  | [] => 0
  | oldest_prices :: _ =>
      if now <=? utime_since oldest_prices then 0
      else shift_ceil_price
             (segments_loop masterchain (storage_used stat) (last_paid stat)
                (rev (storage_prices c)) now 0)
  end.

(** ** Gas bought for a balance *)

Definition gas_bought_for (p : GasLimitsPrices) (balance : Z) : Z :=
  if (balance =? 0) || (balance <? gp_flat_gas_price p) then 0
  else
    let max_gas_threshold :=
      if gp_flat_gas_limit p <? gp_gas_limit p then
        sat_add_u128
          (shift_ceil_price (gp_gas_price p * (gp_gas_limit p - gp_flat_gas_limit p)))
          (gp_flat_gas_price p)
      else gp_flat_gas_price p in
    if (max_gas_threshold <=? balance) || (gp_gas_price p =? 0) then gp_gas_limit p
    else
      let res :=
        wrap_u 128 (Z.shiftl (balance - gp_flat_gas_price p) 16) / gp_gas_price p in
      let res := sat_add_u128 res (gp_flat_gas_limit p) in
      if res <=? U64_MAX then res else U64_MAX.

Definition compute_gas_params (c : ParsedConfig) (account_balance msg_balance_remaining : Z)
    (special masterchain is_tx_ordinary is_in_msg_external : bool) : GasParams :=
  let prices := gas_prices c masterchain in
  let gas_max :=
    if special then gp_special_gas_limit prices else gas_bought_for prices account_balance in
  let gas_limit :=
    if negb is_tx_ordinary || special then gas_max
    else Z.min (gas_bought_for prices msg_balance_remaining) gas_max in
  let gas_credit :=
    if is_tx_ordinary && is_in_msg_external then Z.min (gp_gas_credit prices) gas_max
    else 0 in
  mkGasParams gas_max gas_limit gas_credit (gp_gas_price prices).
End Config.
