(* ===== verification/ExecUtil.v ===== *)
(** * Helpers of the executor (util.rs)

    The statistics of cell trees within limits ([ExtStorageStat]), the truncating
    integers, the checks of message addresses and the size limits of account states.

    The statistics walk a cell tree; the recursion has the depth of the cell as fuel,
    and running out of it is a result of its own, never reached (ConfigSpec.v). *)

From S2P Require Import Prelude External Cells Models ExecConfig.

Open Scope vm_scope.

Section Util.
Context `{ML : ModelLib}.

(** ** Statistics of cell trees *)

Record StorageStatLimits := mkLimits { lim_bit_count : Z; lim_cell_count : Z }.
Definition UNLIMITED : StorageStatLimits := mkLimits U32_MAX U32_MAX.

Record ExtStorageStat := mkStat {
  visited : gmap HashBytes Z; limits : StorageStatLimits; cells : Z; bits : Z
}.

Definition MAX_ALLOWED_MERKLE_DEPTH : Z := 2.

Definition with_limits (l : StorageStatLimits) : ExtStorageStat := mkStat ∅ l 0 0.

(** [stats]. *)
Definition stats (st : ExtStorageStat) : CellTreeStats := mkStats (bits st) (cells st).

(** The [None] of the source and fuel exhausted. *)
Inductive StatError := Exceeded | OutOfFuel.
Definition StatM := MS ExtStorageStat StatError.

(** [checked_add] on [u32]. *)
Definition checked_add_u32 (a b : Z) : option Z := to_u32 (a + b).

Definition set_cells (n : Z) (st : ExtStorageStat) := mkStat (visited st) (limits st) n (bits st).
Definition set_bits (n : Z) (st : ExtStorageStat) := mkStat (visited st) (limits st) (cells st) n.
Definition set_visited (h : HashBytes) (d : Z) (st : ExtStorageStat) :=
  mkStat (<[h := d]> (visited st)) (limits st) (cells st) (bits st).

(** The loop over the references: the greatest Merkle depth of them. *)
Fixpoint add_children (rec : Cell -> StatM Z) (l : list Cell) (max_merkle_depth : Z) : StatM Z :=
  match l with
  | [] => ret max_merkle_depth
  | c :: l =>
      let* d := rec c in
      add_children rec l (Z.max d max_merkle_depth)
  end.

Definition within_limits (st : ExtStorageStat) : bool :=
  negb ((lim_cell_count (limits st) <? cells st) || (lim_bit_count (limits st) <? bits st)).

Fixpoint add_cell_impl (fuel : nat) (c : Cell) : StatM Z :=
  match fuel with
  | O => raise OutOfFuel
  | S fuel =>
      let* seen := gets (fun st => visited st !! repr_hash c) in
      match seen with
      | Some merkle_depth => ret merkle_depth
      | None =>
          let* n := gets cells in
          let* n := of_option Exceeded (checked_add_u32 n 1) in
          modify (set_cells n) ;;
          let* b := gets bits in
          let* b := of_option Exceeded (checked_add_u32 b (bit_len c)) in
          modify (set_bits b) ;;
          let* fits := gets within_limits in
          ensure fits Exceeded ;;
          let* d := add_children (add_cell_impl fuel) (references c) 0 in
          let d := Z.min 255 (d + Z.b2z (is_merkle (cell_type c))) in
          modify (set_visited (repr_hash c) d) ;;
          ensure (d <=? MAX_ALLOWED_MERKLE_DEPTH) Exceeded ;;
          ret d
      end
  end.

Definition cell_fuel (c : Cell) : nat := S (Z.to_nat (repr_depth c)).

(** [add_cell]: whether the cell fits. *)
Definition add_cell (c : Cell) (st : ExtStorageStat) : bool * ExtStorageStat :=
  match add_cell_impl (cell_fuel c) c st with
  | (Ok _, st) => (true, st)
  | (Err _, st) => (false, st)
  end.

(** Cells added in turn until one does not fit. *)
Fixpoint add_cells (l : list Cell) (st : ExtStorageStat) : bool * ExtStorageStat :=
  match l with
  | [] => (true, st)
  | c :: l =>
      match add_cell c st with
      | (true, st) => add_cells l st
      | (false, st) => (false, st)
      end
  end.

(** [compute_for_slice]: the root is counted, but not checked. *)
Definition compute_for_slice (cs : OwnedCellSlice) (l : StorageStatLimits) : option CellTreeStats :=
  match add_cells (slice_references cs) (mkStat ∅ l 1 (slice_bits cs)) with
  | (true, st) => Some (stats st)
  | (false, _) => None
  end.

(** [OwnedExtStorageStat]: a visited cell always fits. *)
Definition owned_add_cell (c : Cell) (st : ExtStorageStat) : bool * ExtStorageStat :=
  if bool_decide (is_Some (visited st !! repr_hash c)) then (true, st) else add_cell c st.

Definition set_unlimited (st : ExtStorageStat) : ExtStorageStat :=
  mkStat (visited st) UNLIMITED (cells st) (bits st).

(** [clear]. *)
Definition clear (st : ExtStorageStat) : ExtStorageStat := mkStat ∅ (limits st) 0 0.

(** ** Truncated integers *)

Definition VARUINT24_MAX : Z := 2 ^ 24 - 1.
Definition VARUINT56_MAX : Z := 2 ^ 56 - 1.
Definition new_varuint24_truncate (value : Z) : Z := Z.min value VARUINT24_MAX.
Definition new_varuint56_truncate (value : Z) : Z := Z.min value VARUINT56_MAX.

(** ** Addresses *)

(** [check_rewrite_src_addr]: the verdict and the rewritten address. *)
Definition check_rewrite_src_addr (my_addr : StdAddr) (addr : option IntAddr)
    : bool * option IntAddr :=
  match addr with
  | None => (true, Some (AddrStd my_addr))
  | Some (AddrStd a) => (bool_decide (a = my_addr), addr)
  | Some (AddrVar _) => (false, addr)
  end.

Definition STD_ADDR_LEN : Z := 256.
Definition in_std_workchains (w : Z) : bool := (-128 <=? w) && (w <? 128).

(** The first 32 bytes of the address, padded with zeros. *)
Definition std_bytes (address : list Z) : list Z :=
  take 32 address ++ replicate (32 - length address) 0.

(** The parts of [check_rewrite_dst_addr]: the workchain and whether the address can be
    rewritten; whether the workchain takes the address; the rewriting. *)
Definition dst_workchain (addr : IntAddr) : option (Z * bool) :=
  match addr with
  | AddrStd a => if std_anycast a then None else Some (std_workchain a, false)
  | AddrVar a =>
      if var_anycast a then None
      else Some (var_workchain a,
                 (var_address_len a =? STD_ADDR_LEN) && in_std_workchains (var_workchain a))
  end.

Definition workchain_takes (w : WorkchainDescription) (can_rewrite : bool) (addr : IntAddr) : bool :=
  accept_msgs w &&
  match wc_format w, addr with
  | FormatBasic, AddrStd _ => true
  | FormatBasic, AddrVar _ => can_rewrite
  | FormatExtended f, AddrStd _ => check_addr_len f STD_ADDR_LEN
  | FormatExtended f, AddrVar a => check_addr_len f (var_address_len a)
  end.

Definition rewrite_addr (can_rewrite : bool) (addr : IntAddr) : IntAddr :=
  match addr with
  | AddrVar var =>
      if can_rewrite then
        AddrStd (mkStdAddr None (wrap_s 8 (var_workchain var))
                   (hash_of_bytes (std_bytes (var_address var))))
      else addr
  | AddrStd _ => addr
  end.

Definition check_rewrite_dst_addr (wcs : gmap Z WorkchainDescription) (addr : IntAddr)
    : bool * IntAddr :=
  match dst_workchain addr with
  | None => (false, addr)
  | Some (workchain, can_rewrite) =>
      let ok :=
        (workchain =? -1) ||
        match wcs !! workchain with
        | Some w => workchain_takes w can_rewrite addr
        | None => false
        end in
      if ok then (true, rewrite_addr can_rewrite addr) else (false, addr)
  end.

(** ** Limits of account states *)

Inductive StateLimitsResult := Unchanged | Exceeds | Fits.

(** The loop over the libraries of a masterchain account; counting is exact, [usize]
    does not overflow. *)
Fixpoint public_libs_fit (values : list (result Error SimpleLib)) (count max : Z) : bool :=
  match values with
  | [] => true
  | Err _ :: _ => false
  | Ok lib :: values =>
      let count := count + Z.b2z (lib_public lib) in
      if max <? count then false else public_libs_fit values count max
  end.

Definition opt_cells (l : list (option Cell)) : list Cell := omap id l.

Fixpoint owned_add_cells (l : list Cell) (st : ExtStorageStat) : bool * ExtStorageStat :=
  match l with
  | [] => (true, st)
  | c :: l =>
      match owned_add_cell c st with
      | (true, st) => owned_add_cells l st
      | (false, st) => (false, st)
      end
  end.

(** [check_state_limits]: the verdict and the cache afterwards. *)
Definition check_state_limits (code data : option Cell) (libs : StateLibs)
    (lim : SizeLimitsConfig) (check_public_libs : bool) (cache : option ExtStorageStat)
    : StateLimitsResult * option ExtStorageStat :=
  let st := with_limits (mkLimits (max_acc_state_bits lim) (max_acc_state_cells lim)) in
  match owned_add_cells (opt_cells [code; data; libs_root libs]) st with
  | (false, _) => (Exceeds, cache)
  | (true, st) =>
      if check_public_libs
         && negb (public_libs_fit (libs_values libs) 0 (max_acc_public_libraries lim))
      then (Exceeds, cache)
      else (Fits, Some st)
  end.

Definition check_state_limits_diff (old_state new_state : StateInit) (lim : SizeLimitsConfig)
    (masterchain : bool) (cache : option ExtStorageStat)
    : StateLimitsResult * option ExtStorageStat :=
  let libs_changed := negb (bool_decide (si_libraries old_state = si_libraries new_state)) in
  if bool_decide (si_code old_state = si_code new_state)
     && bool_decide (si_data old_state = si_data new_state) && negb libs_changed
  then (Unchanged, cache)
  else
    check_state_limits (si_code new_state) (si_data new_state) (si_libraries new_state) lim
      (masterchain && libs_changed) cache.
End Util.
