(* ===== verification/ExecState.v ===== *)
(** * The state of the executor (lib.rs)

    [ExecutorState], which the phases of a transaction share, the phases' reports, the
    start of a transaction ([begin]) and its end: the account state that is written
    ([build_account_state]), the storage statistics of the account
    ([compute_storage_used]), the committed output and the transaction record. *)

From S2P Require Import Prelude External Values VmGas VmState Cells Models SmcInfo.
From S2P Require Import ExecConfig ExecUtil.

Open Scope vm_scope.

(** The errors of the executor: the messages of [bail!] and [ensure!], the errors of
    [everscale_types], the panic of an [unwrap], and the fuel of the model running out. *)
Inductive ExecError :=
| TypesError (e : Error)
| AccountAddressMismatch | AnycastNotSupported | MessageDestinationMismatch
| AddrVarNotSupported | InboundLimitsExceeded | CannotPayForImport | UnexpectedExtOut
| StateInitNotOrdinary | StateInitExtraData | MessageExtraData
| UnixtimeBeforeLastPaid | BounceOnlyInternal | BounceInvalidDestination
| UnexpectedInboundMessage | UnwrapPanic | NoFuel.

(** [TxError]. *)
Inductive TxError := Skipped | Fatal (e : ExecError).

(** ** Reports of the phases *)

Section Phases.
Context `{ML : ModelLib}.

Record StoragePhase := mkStoragePhase {
  storage_fees_collected : Z; storage_fees_due : option Z; sp_status_change : AccountStatusChange
}.

Record CreditPhase := mkCreditPhase {
  due_fees_collected : option Z; cp_credit : CurrencyCollection
}.

Record ExecutedComputePhase := mkExecuted {
  ec_success : bool; msg_state_used : bool; account_activated : bool; ec_gas_fees : Z;
  gas_used : Z; ec_gas_limit : Z; ec_gas_credit : option Z; ec_exit_code : Z;
  exit_arg : option Z; vm_steps : Z
}.

Inductive ComputePhase :=
| ComputeSkipped (reason : ComputePhaseSkipReason)
| ComputeExecuted (phase : ExecutedComputePhase).

Record ActionPhase := mkActionPhase {
  ap_success : bool; valid : bool; no_funds : bool; ap_status_change : AccountStatusChange;
  total_fwd_fees : option Z; total_action_fees : option Z; result_code : Z;
  result_arg : option Z; total_actions : Z; special_actions : Z; skipped_actions : Z;
  messages_created : Z; action_list_hash : HashBytes; total_message_size : StorageUsedShort
}.

Inductive BouncePhase :=
| BounceNoFunds (msg_size : StorageUsedShort) (req_fwd_fees : Z)
| BounceExecuted (msg_size : StorageUsedShort) (msg_fees fwd_fees : Z).

Record OrdinaryTxInfo := mkOrdinary {
  credit_first : bool; o_storage_phase : option StoragePhase;
  o_credit_phase : option CreditPhase; o_compute_phase : ComputePhase;
  o_action_phase : option ActionPhase; o_aborted : bool;
  o_bounce_phase : option BouncePhase; o_destroyed : bool
}.

Record TickTockTxInfo := mkTickTock {
  tt_kind : TickTock; tt_storage_phase : StoragePhase; tt_compute_phase : ComputePhase;
  tt_action_phase : option ActionPhase; tt_aborted : bool; tt_destroyed : bool
}.

Inductive TxInfo := InfoOrdinary (i : OrdinaryTxInfo) | InfoTickTock (i : TickTockTxInfo).

(** A message of [out_msgs]: the cell, with the header it was built from. *)
Inductive OutHeader :=
| HeaderRelaxed (info : RelaxedMsgInfo)
| HeaderBounced (info : IntMsgInfo).
Record OutMsg := mkOutMsg { om_header : OutHeader; om_cell : Cell }.

(** ** The state *)

Record ExecutorParams := mkParams {
  p_libraries : Gas.LibraryProvider;
  p_rand_seed : HashBytes;
  block_unixtime : Z;
  p_block_lt : Z;
  vm_modifiers : BehaviourModifiers;
  disable_delete_frozen_accounts : bool;
  charge_action_fees_on_fail : bool;
  full_body_in_bounced : bool;
  strict_extra_currency : bool
}.

(** The references to the parameters and the configuration, which never change, are
    arguments of the phases. *)
Record ExecutorState := mkExec {
  special_account : bool;
  address : StdAddr;
  storage_stat : StorageInfo;
  balance : CurrencyCollection;
  acct : AccountState;
  orig_status : AccountStatus;
  end_status : AccountStatus;
  start_lt : Z;
  end_lt : Z;
  out_msgs : list OutMsg;
  total_fees : Z;
  burned : Z;
  cached_storage_stat : option ExtStorageStat
}.

Definition ExM := MS ExecutorState ExecError.

Definition set_storage_stat (x : StorageInfo) (s : ExecutorState) : ExecutorState :=
  mkExec (special_account s) (address s) x (balance s) (acct s) (orig_status s) (end_status s)
    (start_lt s) (end_lt s) (out_msgs s) (total_fees s) (burned s) (cached_storage_stat s).
Definition set_balance (x : CurrencyCollection) (s : ExecutorState) : ExecutorState :=
  mkExec (special_account s) (address s) (storage_stat s) x (acct s) (orig_status s)
    (end_status s) (start_lt s) (end_lt s) (out_msgs s) (total_fees s) (burned s)
    (cached_storage_stat s).
Definition set_acct (x : AccountState) (s : ExecutorState) : ExecutorState :=
  mkExec (special_account s) (address s) (storage_stat s) (balance s) x (orig_status s)
    (end_status s) (start_lt s) (end_lt s) (out_msgs s) (total_fees s) (burned s)
    (cached_storage_stat s).
Definition set_end_status (x : AccountStatus) (s : ExecutorState) : ExecutorState :=
  mkExec (special_account s) (address s) (storage_stat s) (balance s) (acct s) (orig_status s)
    x (start_lt s) (end_lt s) (out_msgs s) (total_fees s) (burned s) (cached_storage_stat s).
Definition set_lts (x y : Z) (s : ExecutorState) : ExecutorState :=
  mkExec (special_account s) (address s) (storage_stat s) (balance s) (acct s) (orig_status s)
    (end_status s) x y (out_msgs s) (total_fees s) (burned s) (cached_storage_stat s).
Definition set_out_msgs (x : list OutMsg) (s : ExecutorState) : ExecutorState :=
  mkExec (special_account s) (address s) (storage_stat s) (balance s) (acct s) (orig_status s)
    (end_status s) (start_lt s) (end_lt s) x (total_fees s) (burned s) (cached_storage_stat s).
Definition set_total_fees (x : Z) (s : ExecutorState) : ExecutorState :=
  mkExec (special_account s) (address s) (storage_stat s) (balance s) (acct s) (orig_status s)
    (end_status s) (start_lt s) (end_lt s) (out_msgs s) x (burned s) (cached_storage_stat s).
Definition set_burned (x : Z) (s : ExecutorState) : ExecutorState :=
  mkExec (special_account s) (address s) (storage_stat s) (balance s) (acct s) (orig_status s)
    (end_status s) (start_lt s) (end_lt s) (out_msgs s) (total_fees s) x (cached_storage_stat s).
Definition set_cached (x : option ExtStorageStat) (s : ExecutorState) : ExecutorState :=
  mkExec (special_account s) (address s) (storage_stat s) (balance s) (acct s) (orig_status s)
    (end_status s) (start_lt s) (end_lt s) (out_msgs s) (total_fees s) (burned s) x.

(** The [?] operator on a result of [everscale_types]. *)
Definition types {A} (r : result Error A) : ExM A := map_err TypesError (of_result r).

(** [self.total_fees.try_add_assign(fees)?] and the like for the balance. *)
Definition add_fees (fees : Z) : ExM unit :=
  let* t := gets total_fees in
  let* t := types (tokens_try_add t fees) in
  modify (set_total_fees t).

(** ** The start of a transaction *)

Definition STORAGE_USED_ZERO : StorageUsed := mkUsed 0 0 0.
Definition storage_info_new : StorageInfo := mkStorage STORAGE_USED_ZERO 0 None.

(** [Executor::begin]; [min_lt] and [override_special] are fields of the executor. *)
Definition begin (config : ParsedConfig) (min_lt : Z) (override_special : option bool)
    (addr : StdAddr) (account : option Account) : result ExecError ExecutorState :=
  let special := default (is_special config addr) override_special in
  match account with
  | Some acc =>
      match acc_address acc with
      | AddrStd acc_addr =>
          if bool_decide (acc_addr = addr) then
            let start := Z.max min_lt (acc_last_trans_lt acc) in
            Ok (mkExec special acc_addr (acc_storage_stat acc) (acc_balance acc) (acc_state acc)
                  (status (acc_state acc)) (status (acc_state acc)) start (wrap_u 64 (start + 1))
                  [] 0 0 None)
          else Err AccountAddressMismatch
      | AddrVar _ => Err AccountAddressMismatch
      end
  | None =>
      Ok (mkExec special addr storage_info_new cc_zero AccUninit StNotExists StUninit min_lt
            (wrap_u 64 (min_lt + 1)) [] 0 0 None)
  end.

(** ** The end of a transaction *)

(** [build_account_state]. *)
Definition frozen_hash (s : ExecutorState) : result Error HashBytes :=
  match acct s with
  | AccUninit => Ok (std_address (address s))
  | AccActive state_init =>
      let? c := build_from_state_init state_init in Ok (repr_hash c)
  | AccFrozen h => Ok h
  end.

Definition build_account_state (s : ExecutorState) : result Error (option AccountState) :=
  match end_status s with
  | StNotExists => Ok None
  | StUninit => if cc_is_zero (balance s) then Ok None else Ok (Some AccUninit)
  | StActive => Ok (Some (acct s))
  | StFrozen =>
      let? h := frozen_hash s in
      Ok (Some (if bool_decide (h = std_address (address s)) then AccUninit else AccFrozen h))
  end.

(** [compute_storage_used]: [skip_extra] drops the reference to the extra currencies. *)
Definition skip_extra (slice : OwnedCellSlice) : result Error OwnedCellSlice :=
  let? cs := slice_skip_first slice 64 0 in
  let? (balance, _) := load_currency cs in
  if extra_is_empty (other balance) then Ok slice else slice_skip_first slice 0 1.

Definition skip_extra_if (without : bool) (slice : OwnedCellSlice) : result Error OwnedCellSlice :=
  if without then skip_extra slice else Ok slice.

(** The reuse of the previous statistics when no child cell changed. *)
Definition reuse_stats (prev_used : StorageUsed) (prev_storage new_storage : OwnedCellSlice)
    : option StorageUsed :=
  if (used_cells prev_used =? 0) || (used_bits prev_used <? slice_bits prev_storage) then None
  else if negb (slice_size_refs prev_storage =? slice_size_refs new_storage) then None
  else if negb (forallb (fun '(p, n) => bool_decide (p = n))
                  (combine (slice_references prev_storage) (slice_references new_storage)))
  then None
  else Some (mkUsed (used_cells prev_used)
               (new_varuint56_truncate
                  (sat_add_u64 (used_bits prev_used - slice_bits prev_storage)
                     (slice_bits new_storage)))
               (used_public_cells prev_used)).

(** The loop over the children ignores whether a cell fits. *)
Fixpoint owned_add_all (l : list Cell) (st : ExtStorageStat) : ExtStorageStat :=
  match l with
  | [] => st
  | c :: l => owned_add_all l (owned_add_cell c st).2
  end.

Definition compute_storage_used (prev : option (StorageUsed * OwnedCellSlice))
    (new_storage : OwnedCellSlice) (cache : option ExtStorageStat)
    (without_extra_currencies : bool) : result Error (StorageUsed * option ExtStorageStat) :=
  let? prev :=
    match prev with
    | None => Ok None
    | Some (used, slice) =>
        let? slice := skip_extra_if without_extra_currencies slice in Ok (Some (used, slice))
    end in
  let? new_storage := skip_extra_if without_extra_currencies new_storage in
  match (match prev with
         | Some (used, slice) => reuse_stats used slice new_storage
         | None => None
         end) with
  | Some used => Ok (used, cache)
  | None =>
      let st := set_unlimited (default (with_limits UNLIMITED) cache) in
      let st := owned_add_all (slice_references new_storage) st in
      Ok (mkUsed (new_varuint56_truncate (sat_add_u64 (cells st) 1))
            (new_varuint56_truncate (sat_add_u64 (bits st) (slice_bits new_storage))) 0,
          Some st)
  end.
End Phases.
