(* ===== verification/Phases.v ===== *)
(** * The phases around the execution of a contract

    Receiving the inbound message (phase/receive.rs), the credit phase
    (phase/credit.rs), the storage phase (phase/storage.rs) and the bounce phase
    (phase/bounce.rs). *)

From S2P Require Import Prelude External Values VmGas VmState Cells Models SmcInfo.
From S2P Require Import ExecConfig ExecUtil ExecState.

Open Scope vm_scope.

Section Phases.
Context `{ML : ModelLib} (params : ExecutorParams) (config : ParsedConfig).

(** ** The inbound message *)

Record MsgStateInit := mkMsgInit { mi_root : Cell; mi_parsed : StateInit }.

Record ReceivedMessage := mkReceived {
  root : Cell;
  init : option MsgStateInit;
  body : OwnedCellSlice;
  is_external : bool;
  bounce_enabled : bool;
  balance_remaining : CurrencyCollection
}.

Definition set_remaining_balance (b : CurrencyCollection) (m : ReceivedMessage) : ReceivedMessage :=
  mkReceived (root m) (init m) (body m) (is_external m) (bounce_enabled m) b.

Definition check_message_dst (dst : IntAddr) : ExM unit :=
  match dst with
  | AddrStd dst =>
      ensure (negb (bool_decide (is_Some (std_anycast dst)))) AnycastNotSupported ;;
      let* addr := gets address in
      ensure (bool_decide (dst = addr)) MessageDestinationMismatch
  | AddrVar _ => raise AddrVarNotSupported
  end.

(** The header of an internal message: the message balance, after adjusting the range
    of logical times. *)
Definition receive_internal (info : IntMsgInfo) : ExM CurrencyCollection :=
  check_message_dst (im_dst info) ;;
  let* msg_balance_remaining := types (cc_add_tokens (im_value info) (im_ihr_fee info)) in
  let* s_lt := gets start_lt in
  (if s_lt <=? im_created_lt info then
     let s_lt := wrap_u 64 (im_created_lt info + 1) in
     modify (set_lts s_lt (wrap_u 64 (s_lt + 1)))
   else ret tt) ;;
  ret msg_balance_remaining.

(** The header of an external message: the fee of importing [slice], the rest of it. *)
Definition import_fee (slice : OwnedCellSlice) (special masterchain : bool) : result ExecError Z :=
  let lim := size_limits config in
  match compute_for_slice slice (mkLimits (max_msg_bits lim) (max_msg_cells lim)) with
  | None => Err InboundLimitsExceeded
  | Some st =>
      let st := mkStats (bit_count st - slice_bits slice) (cell_count st - 1) in
      Ok (if special then 0 else compute_fwd_fee (fwd_prices config masterchain) st)
  end.

Definition receive_external (info : ExtInMsgInfo) (slice : OwnedCellSlice) : ExM CurrencyCollection :=
  check_message_dst (ein_dst info) ;;
  let* addr := gets address in
  let* special := gets special_account in
  let* fwd_fee := of_result (import_fee slice special (is_masterchain addr)) in
  let* b := gets balance in
  ensure (fwd_fee <=? tokens b) CannotPayForImport ;;
  modify (set_balance (set_tokens (tokens_sub (tokens b) fwd_fee) b)) ;;
  add_fees fwd_fee ;;
  ret cc_zero.

(** The state init of the message and the rest of the slice. *)
Definition receive_init (slice : OwnedCellSlice) : ExM (option MsgStateInit * OwnedCellSlice) :=
  let* (some, slice) := types (load_bit slice) in
  if some then
    let* (as_ref, slice) := types (load_bit slice) in
    if as_ref then
      let* (state_root, slice) := types (slice_load_reference slice) in
      ensure (negb (is_exotic state_root)) StateInitNotOrdinary ;;
      let* (parsed, rest) := types (load_state_init (new_allow_exotic state_root)) in
      ensure (slice_is_empty rest) StateInitExtraData ;;
      ret (Some (mkMsgInit state_root parsed), slice)
    else
      let* (parsed, rest) := types (load_state_init slice) in
      let* state_init_cs := types (slice_skip_last slice (slice_bits rest) (slice_size_refs rest)) in
      let* state_root := types (build_from_slice state_init_cs) in
      ret (Some (mkMsgInit state_root parsed), rest)
  else ret (None, slice).

(** The body. *)
Definition receive_body (msg_root : Cell) (slice : OwnedCellSlice) : ExM OwnedCellSlice :=
  let* (as_ref, slice) := types (load_bit slice) in
  if as_ref then
    let* (body_cell, slice) := types (slice_load_reference slice) in
    ensure (slice_is_empty slice) MessageExtraData ;;
    ret (new_allow_exotic body_cell)
  else ret (mkSlice (range slice) msg_root).

Definition receive_in_msg (msg_root : Cell) : ExM ReceivedMessage :=
  let* (info, slice) := types (load_msg_info (new_allow_exotic msg_root)) in
  let* (external, bounce, remaining) :=
    match info with
    | MsgInt info =>
        let* remaining := receive_internal info in
        ret (false, im_bounce info, remaining)
    | MsgExtIn info =>
        let* remaining := receive_external info slice in
        ret (true, false, remaining)
    | MsgExtOut _ => raise UnexpectedExtOut
    end in
  let* (msg_init, slice) := receive_init slice in
  let* msg_body := receive_body msg_root slice in
  let* addr := gets address in
  let* remaining :=
    (if is_blackhole config addr then
       modify (set_burned (tokens remaining)) ;;
       ret (set_tokens 0 remaining)
     else ret remaining) in
  ret (mkReceived msg_root msg_init msg_body external bounce remaining).

(** ** Credit *)

Definition credit_phase (received : ReceivedMessage) : ExM CreditPhase :=
  let* b := gets balance in
  let* b := types (cc_checked_add b (balance_remaining received)) in
  modify (set_balance b) ;;
  ret (mkCreditPhase None (balance_remaining received)).

(** ** Storage *)

Definition is_uninit (a : AccountState) : bool := match a with AccUninit => true | _ => false end.
Definition is_active (a : AccountState) : bool := match a with AccActive _ => true | _ => false end.

(** The status change of an account that cannot pay. *)
Definition due_status_change (prices : GasLimitsPrices) (s : ExecutorState) (fees_due : Z)
    : AccountStatusChange :=
  if special_account s then ScUnchanged
  else if is_active (acct s) then
    if gp_freeze_due_limit prices <? fees_due then ScFrozen else ScUnchanged
  else if (is_uninit (acct s) || negb (disable_delete_frozen_accounts params))
          && (gp_delete_due_limit prices <? fees_due)
          && negb (extra_is_empty (other (balance s)))
  then ScDeleted
  else ScUnchanged.

Definition set_due (due : option Z) (st : StorageInfo) : StorageInfo :=
  mkStorage (storage_used st) (last_paid st) due.

(** Charging the fees: what is collected, what stays due and the status change. *)
Definition charge_storage (prices : GasLimitsPrices) (to_pay : Z)
    : ExM (Z * option Z * AccountStatusChange) :=
  let* b := gets balance in
  if to_pay =? 0 then ret (0, None, ScUnchanged)
  else match tokens_checked_sub (tokens b) to_pay with
  | Some new_balance =>
      modify (set_balance (set_tokens new_balance b)) ;;
      modify (fun s => set_storage_stat (set_due None (storage_stat s)) s) ;;
      ret (to_pay, None, ScUnchanged)
  | None =>
      let fees_due := tokens_sub to_pay (tokens b) in
      let due := if fees_due =? 0 then None else Some fees_due in
      modify (set_balance (set_tokens 0 b)) ;;
      let* change := gets (fun s => due_status_change prices s fees_due) in
      modify (fun s => if special_account s then s
                       else set_storage_stat (set_due due (storage_stat s)) s) ;;
      ret (tokens b, due, change)
  end.

Definition apply_status_change (c : AccountStatusChange) : ExM unit :=
  match c with
  | ScUnchanged => ret tt
  | ScFrozen => modify (set_end_status StFrozen)
  | ScDeleted => modify (set_end_status StNotExists)
  end.

(** [adjust_msg_balance]. *)
Definition adjust_msg (adjust : bool) (b : CurrencyCollection) (m : ReceivedMessage)
    : ReceivedMessage :=
  if adjust && (tokens b <? tokens (balance_remaining m))
  then set_remaining_balance (set_tokens (tokens b) (balance_remaining m)) m
  else m.

(** What the account has to pay now, the unpaid fees of the past included. *)
Definition storage_to_pay (s : ExecutorState) : Z :=
  let fees := compute_storage_fees config (storage_stat s) (block_unixtime params)
                (special_account s) (is_masterchain (address s)) in
  match due_payment (storage_stat s) with
  | Some due => tokens_saturating_add fees due
  | None => fees
  end.

(** [storage_phase]; the received message is passed in and out. *)
Definition storage_phase (adjust : bool) (received : option ReceivedMessage)
    : ExM (StoragePhase * option ReceivedMessage) :=
  let* st := gets storage_stat in
  ensure (last_paid st <=? block_unixtime params) UnixtimeBeforeLastPaid ;;
  let* prices := gets (fun s => gas_prices config (is_masterchain (address s))) in
  let* to_pay := gets storage_to_pay in
  modify (fun s => set_storage_stat
    (mkStorage (storage_used st) (if special_account s then 0 else block_unixtime params)
       (due_payment st)) s) ;;
  let* (collected, due, change) := charge_storage prices to_pay in
  apply_status_change change ;;
  let* b := gets balance in
  let received := option_map (adjust_msg adjust b) received in
  add_fees collected ;;
  ret (mkStoragePhase collected due change, received).

(** ** Bounce *)

Definition ROOT_BODY_BITS : Z := 256.
Definition BOUNCE_SELECTOR : Z := U32_MAX.
(** [Tokens::MAX], the fee asked for when the message cannot fit. *)
Definition INFINITE_FEES : Z := TOKENS_MAX.

Definition short_stats (st : CellTreeStats) : StorageUsedShort :=
  mkUsedShort (new_varuint56_truncate (cell_count st)) (new_varuint56_truncate (bit_count st)).

Definition with_ref (b : CellBuilder) (c : option Cell) : result Error CellBuilder :=
  match c with Some c => store_reference b c | None => Ok b end.

(** The full body attached to a bounced message. *)
Definition bounced_full_body (m : ReceivedMessage) : result Error (option Cell) :=
  if full_body_in_bounced params then
    if range_is_full (range (body m)) (cell (body m)) then Ok (Some (cell (body m)))
    else let? c := build_from_slice (body m) in Ok (Some c)
  else Ok None.

(** The cell of the bounced message: the body prefix inline if it fits, in a child
    cell otherwise. *)
Definition store_bounced_body (b : CellBuilder) (prefix : OwnedCellSlice) (full_body : option Cell)
    : result Error CellBuilder :=
  let? b := store_uint b BOUNCE_SELECTOR 32 in
  let? b := store_slice_data b prefix in
  with_ref b full_body.

Definition build_bounced (info : IntMsgInfo) (m : ReceivedMessage) (full_body : option Cell)
    : result Error Cell :=
  let body_prefix := slice_get_prefix (body m) ROOT_BODY_BITS 0 in
  let? b := store_msg_info builder_new (MsgInt info) in
  let? b := store_uint b 0 1 in
  let? b :=
    if has_capacity b (slice_bits body_prefix + 33) 0 then
      let? b := store_uint b 0 1 in
      store_bounced_body b body_prefix full_body
    else
      let? child := store_bounced_body builder_new body_prefix full_body in
      let? child := builder_build child in
      let? b := store_uint b 1 1 in
      store_reference b child in
  builder_build b.

(** The fields of the bounced header. *)
Definition bounced_info (info : IntMsgInfo) (src dst : IntAddr) (value : CurrencyCollection)
    (fees lt at_ : Z) : IntMsgInfo :=
  mkIntMsg true false true src dst value 0 fees lt at_.

(** [msg_value.tokens] after the fees of the failed phases. *)
Definition bounce_balance (t gas_fees action_fine : Z) : option Z :=
  match tokens_checked_sub t gas_fees with
  | Some t => tokens_checked_sub t action_fine
  | None => None
  end.

(** The message is sent back with what is left of its value. *)
Definition send_bounced (m : ReceivedMessage) (info : IntMsgInfo) (src dst : IntAddr)
    (full_body : option Cell) (prices : MsgForwardPrices) (msg_size : StorageUsedShort)
    (msg_value : CurrencyCollection) (fees : Z) : ExM BouncePhase :=
  let* b := gets balance in
  let* b := types (cc_checked_sub b msg_value) in
  modify (set_balance b) ;;
  let msg_value := set_tokens (tokens_sub (tokens msg_value) fees) msg_value in
  let msg_fees := get_first_part prices fees in
  let fees := tokens_sub fees msg_fees in
  add_fees msg_fees ;;
  let* lt := gets end_lt in
  let info := bounced_info info src dst msg_value fees lt (block_unixtime params) in
  let* msg := types (build_bounced info m full_body) in
  modify (fun s => set_out_msgs (out_msgs s ++ [mkOutMsg (HeaderBounced info) msg]) s) ;;
  modify (fun s => set_lts (start_lt s) (wrap_u 64 (end_lt s + 1)) s) ;;
  ret (BounceExecuted msg_size msg_fees fees).

Definition bounce_phase (gas_fees action_fine : Z) (m : ReceivedMessage) : ExM BouncePhase :=
  let* info := types (parse_msg_info (root m)) in
  match info with
  | MsgInt info =>
      let '(ok, dst) := check_rewrite_dst_addr (workchains config) (im_src info) in
      let src := im_dst info in
      ensure ok BounceInvalidDestination ;;
      let* full_body := types (bounced_full_body m) in
      let msg_value := balance_remaining m in
      let lim := size_limits config in
      let '(fits, st) :=
        add_cells (opt_cells [extra_root (other msg_value); full_body])
          (with_limits (mkLimits (max_msg_bits lim) (max_msg_cells lim))) in
      let msg_size := short_stats (stats st) in
      if negb fits then ret (BounceNoFunds msg_size INFINITE_FEES)
      else
        let* my := gets address in
        let prices := fwd_prices config (is_masterchain my || int_is_masterchain dst) in
        let fees := compute_fwd_fee prices (stats st) in
        let msg_balance := bounce_balance (tokens msg_value) gas_fees action_fine in
        match msg_balance with
        | Some b =>
            if fees <=? b then
              send_bounced m info src dst full_body prices msg_size (set_tokens b msg_value) fees
            else ret (BounceNoFunds msg_size (tokens_sub fees b))
        | None => ret (BounceNoFunds msg_size (tokens_sub fees 0))
        end
  | _ => raise BounceOnlyInternal
  end.
End Phases.
