(* ===== verification/Compute.v ===== *)
(** * The compute phase (phase/compute.rs)

    The account state the contract runs with, the context, stack and libraries of the
    virtual machine, the run of the machine of Run.v, and the fees for the gas used. *)

From S2P Require Import Prelude External Values VmStack VmGas VmState Dispatch Run Cells Models SmcInfo.
From S2P Require Import ExecConfig ExecUtil ExecState Phases.

Open Scope vm_scope.

(** [IntoCode for Cell] and [LibraryProvider for Dict<HashBytes, SimpleLib>]. *)
Section Glue.
Context `{ML : ModelLib}.

Definition into_code (c : Cell) : option OwnedCellSlice :=
  match cell_type c with
  | Ordinary => Some (new_allow_exotic c)
  | LibraryReference =>
      match store_reference builder_new c with
      | Ok b => match builder_build b with Ok c => Some (new_allow_exotic c) | Err _ => None end
      | Err _ => None
      end
  | _ => None
  end.

Definition DictLibraries (libs : StateLibs) : Gas.LibraryProvider :=
  fun h => let? lib := libs_get libs h in Ok (option_map lib_root lib).
End Glue.

Section Compute.
Context `{ML : ModelLib} (params : ExecutorParams) (config : ParsedConfig).
(** The opcode table of the virtual machine and the fuel of its loops. *)
Context (table : Opcodes) (fuel : nat).

Inductive TransactionInput := InputOrdinary (msg : ReceivedMessage) | InputTickTock (kind : TickTock).

Definition is_ordinary (i : TransactionInput) : bool :=
  match i with InputOrdinary _ => true | InputTickTock _ => false end.
Definition input_msg (i : TransactionInput) : option ReceivedMessage :=
  match i with InputOrdinary m => Some m | InputTickTock _ => None end.
Definition in_msg_init (i : TransactionInput) : option MsgStateInit :=
  match i with InputOrdinary m => init m | InputTickTock _ => None end.

Record ComputePhaseFull := mkComputeFull {
  cf_phase : ComputePhase; accepted : bool; original_balance : CurrencyCollection;
  new_state : StateInit; actions : Cell
}.

Definition skipped (r : ComputePhaseSkipReason) (f : ComputePhaseFull) : ComputePhaseFull :=
  mkComputeFull (ComputeSkipped r) (accepted f) (original_balance f) (new_state f) (actions f).

(** What the state of the account and the message give to run. *)
Record Runnable := mkRunnable {
  state_libs : option StateLibs; msg_libs : option StateLibs; run_msg_state : bool;
  run_state : StateInit
}.

(** Deploying or unfreezing with the state of a message. *)
Definition use_msg_state (from_msg : MsgStateInit) (state : StateInit)
    : ExM (result ComputePhaseSkipReason Runnable) :=
  let* s := gets id in
  let target_hash :=
    match acct s with AccFrozen old_hash => old_hash | _ => std_address (address s) end in
  if negb (bool_decide (repr_hash (mi_root from_msg) = target_hash))
     || bool_decide (is_Some (split_depth (mi_parsed from_msg)))
  then ret (Err SkipBadState)
  else
    let masterchain := is_masterchain (address s) in
    let lim := size_limits config in
    let lim :=
      if masterchain && is_uninit (acct s) then
        mkSizeLimits (max_msg_bits lim) (max_msg_cells lim) (max_library_cells lim)
          (max_acc_state_cells lim) (max_acc_state_bits lim) 0
      else lim in
    let '(res, cache) :=
      check_state_limits_diff state (mi_parsed from_msg) lim masterchain (cached_storage_stat s) in
    modify (set_cached cache) ;;
    match res with
    | Exceeds => ret (Err SkipBadState)
    | _ =>
        modify (set_acct (AccActive (mi_parsed from_msg))) ;;
        ret (Ok (mkRunnable None (Some (si_libraries (mi_parsed from_msg))) true (mi_parsed from_msg)))
    end.

(** The cases of the account state and the state init of the message. *)
Definition choose_state (input : TransactionInput) (external : bool) (state : StateInit)
    : ExM (result ComputePhaseSkipReason Runnable) :=
  let* s := gets id in
  match in_msg_init input, acct s with
  | None, AccUninit => ret (Err SkipNoState)
  | None, AccFrozen _ => ret (Err SkipBadState)
  | None, AccActive current => ret (Ok (mkRunnable (Some (si_libraries current)) None false state))
  | Some from_msg, AccActive current =>
      if external
         && negb (bool_decide (repr_hash (mi_root from_msg) = std_address (address s)))
      then ret (Err SkipBadState)
      else ret (Ok (mkRunnable (Some (si_libraries current))
                      (Some (si_libraries (mi_parsed from_msg))) false state))
  | Some from_msg, _ => use_msg_state from_msg state
  end.

(** [prepare_vm_stack]. *)
Definition prepare_vm_stack (input : TransactionInput) (s : ExecutorState) : list value :=
  match input with
  | InputOrdinary msg =>
      [VInt (tokens (balance s)); VInt (tokens (balance_remaining msg)); VCell (root msg);
       VSlice (body msg); VInt (if is_external msg then -1 else 0)]
  | InputTickTock kind =>
      [VInt (tokens (balance s)); VInt (hash_to_Z (std_address (address s)));
       VInt (match kind with Tick => 0 | Tock => -1 end); VInt (-2)]
  end.

(** [ReceivedMessage::make_tuple]. *)
Definition make_tuple (m : ReceivedMessage) : result Error (option Tuple) :=
  let? cs := as_slice (root m) in
  let? (ty, cs) := load_msg_type cs in
  match ty with
  | TypeInt =>
      let? addr_slice := slice_skip_first cs 3 0 in
      let? (_, rest) := load_int_addr addr_slice in
      let? src := slice_skip_last addr_slice (slice_bits rest) (slice_size_refs rest) in
      let? (info, _) := load_int_msg_info cs in
      Ok (Some (into_msg_tuple
        (mkInMsgInfo (im_bounce info) (im_bounced info) (mkSlice (range src) (root m))
           (im_fwd_fee info) (im_created_lt info) (im_created_at info)
           (tokens (im_value info)) (balance_remaining m) (option_map mi_root (init m)))))
  | _ => Ok None
  end.

(** The context of the contract. *)
Definition smc_info (s : ExecutorState) (code : option Cell) (msg_balance : CurrencyCollection)
    (storage_fee : Z) (in_msg_tuple : option Tuple) : SmcInfoTonV11 :=
  let base :=
    mkSmcBase (block_unixtime params) (p_block_lt params) (start_lt s)
      (mixed_rand_seed (p_rand_seed params) (std_address (address s)))
      (balance s) (AddrStd (address s)) (Some (cfg_params (raw config))) in
  let v4 := mkSmcV4 base (Some (default empty_cell code)) msg_balance storage_fee None in
  mkSmcV11 (mkSmcV6 v4 (Some (into_config_tuple (unpacked config))) 0) in_msg_tuple.

Definition vm_builder (r : Runnable) (c7 : Tuple) (stack : list value) (gas : GasParams)
    : VmStateBuilder :=
  let code := si_code (run_state r) in
  mkBuilder (mbind into_code code) (Some (default empty_cell (si_data (run_state r)))) stack
    (Some (Gas.TripleLibraries (Gas.OptionLibraries (option_map DictLibraries (msg_libs r)))
             (Gas.OptionLibraries (option_map DictLibraries (state_libs r)))
             (p_libraries params)))
    (Some c7) gas (UseCode false) (Some (Ton 11)) (vm_modifiers params).

(** [vm.run()]: the exit code and the machine when it stopped. *)
Definition run_vm (b : VmStateBuilder) : ExM (Z * VmState) :=
  match run table fuel fuel (build b) with
  | (Ok (Some res), vm) => ret (res, vm)
  | _ => raise NoFuel
  end.

(** [stack.get_exit_arg().filter(|x| *x != 0)]. *)
Definition get_exit_arg (stack : list value) : option Z :=
  match last stack with
  | Some v => match as_int v with Some z => to_i32 z | None => None end
  | None => None
  end.
Definition nonzero (o : option Z) : option Z :=
  match o with Some z => if z =? 0 then None else Some z | None => None end.

(** The fees for the gas the machine used. *)
Definition vm_gas_used (vm : VmState) : Z :=
  Z.min (Gas.consumed (gas vm)) (Gas.gas_limit (gas vm)).
Definition vm_gas_fees (s : ExecutorState) (accepted : bool) (vm : VmState) : Z :=
  if accepted && negb (special_account s)
  then compute_gas_fee (gas_prices config (is_masterchain (address s))) (vm_gas_used vm)
  else 0.

Definition executed (success accepted activated : bool) (r : Runnable) (gas : GasParams)
    (fees exit_code : Z) (vm : VmState) : ExecutedComputePhase :=
  mkExecuted success (run_msg_state r) activated fees
    (new_varuint56_truncate (vm_gas_used vm)) (new_varuint56_truncate (limit gas))
    (if credit gas =? 0 then None else Some (new_varuint24_truncate (credit gas)))
    exit_code (if success then None else nonzero (get_exit_arg (stack vm)))
    (Z.min (steps vm) U32_MAX).

(** The new state and the actions of a committed run. *)
Definition committed_state_of (accepted : bool) (f : ComputePhaseFull) (r : Runnable)
    (vm : VmState) (phase : ComputePhase) : ComputePhaseFull :=
  match committed_state vm with
  | Some c =>
      if accepted then
        let st := run_state r in
        mkComputeFull phase accepted (original_balance f)
          (mkStateInit (split_depth st) (special st) (si_code st) (Some (c4 c)) (si_libraries st))
          (c5 c)
      else mkComputeFull phase accepted (original_balance f) (run_state r) (actions f)
  | None => mkComputeFull phase accepted (original_balance f) (run_state r) (actions f)
  end.

(** The part after the machine has stopped with [res]. *)
Definition settle (force_accept : bool) (f : ComputePhaseFull) (r : Runnable) (gas_params : GasParams)
    (res : Z) (vm : VmState) : ExM ComputePhaseFull :=
  let exit_code := Z.lnot res in
  let accepted := force_accept || (Gas.gas_credit (gas vm) =? 0) in
  let success := accepted && bool_decide (is_Some (committed_state vm)) in
  let* gas_fees := gets (fun s => vm_gas_fees s accepted vm) in
  let* activated := gets (fun s => accepted && run_msg_state r &&
                                   negb (bool_decide (orig_status s = StActive))) in
  (if accepted && run_msg_state r then modify (set_end_status StActive) else ret tt) ;;
  let* b := gets balance in
  let* b := types (cc_sub_tokens b gas_fees) in
  modify (set_balance b) ;;
  add_fees gas_fees ;;
  ret (committed_state_of accepted f r vm
         (ComputeExecuted (executed success accepted activated r gas_params gas_fees exit_code vm))).

(** The part that runs the machine. *)
Definition execute (force_accept : bool) (input : TransactionInput) (storage_fee : Z)
    (f : ComputePhaseFull) (r : Runnable) (msg_balance : CurrencyCollection)
    (gas_params : GasParams) : ExM ComputePhaseFull :=
  let* unpacked_in_msg :=
    types (match input_msg input with Some msg => make_tuple msg | None => Ok None end) in
  let* s := gets id in
  let* c7 := types (build_c7 (smc_info s (si_code (run_state r)) msg_balance storage_fee
                                unpacked_in_msg)) in
  let* (res, vm) := run_vm (vm_builder r c7 (prepare_vm_stack input s) gas_params) in
  settle force_accept f r gas_params res vm.

(** [original_balance]: the balance without what the message brought. *)
Definition balance_before (input : TransactionInput) : ExM CurrencyCollection :=
  let* b := gets balance in
  match input_msg input with
  | Some msg => types (cc_checked_sub b (balance_remaining msg))
  | None => ret b
  end.

Definition phase_gas (force_accept : bool) (input : TransactionInput) (s : ExecutorState) : GasParams :=
  let '(msg_balance, external) :=
    match input_msg input with
    | Some msg => (tokens (balance_remaining msg), is_external msg)
    | None => (0, false)
    end in
  if force_accept then Gas.getter
  else compute_gas_params config (tokens (balance s)) msg_balance (special_account s)
         (is_masterchain (address s)) (is_ordinary input) external.

Definition compute_phase (force_accept : bool) (input : TransactionInput) (storage_fee : Z)
    : ExM ComputePhaseFull :=
  let* original := balance_before input in
  let* s := gets id in
  let state := match acct s with AccActive current => current | _ => state_init_default end in
  let f := mkComputeFull (ComputeSkipped SkipNoGas) false original state empty_cell in
  if tokens (balance s) =? 0 then ret f
  else
    let gas_params := phase_gas force_accept input s in
    if (limit gas_params =? 0) && (credit gas_params =? 0) then ret f
    else
      let '(msg_balance, external) :=
        match input_msg input with
        | Some msg => (balance_remaining msg, is_external msg)
        | None => (cc_zero, false)
        end in
      let* chosen := choose_state input external state in
      match chosen with
      | Err reason => ret (skipped reason f)
      | Ok r => execute force_accept input storage_fee f r msg_balance gas_params
      end.
End Compute.
