(* ===== verification/Action.v ===== *)
(** * The context of the action phase and its messages (phase/action.rs)

    [ActionContext], the state the actions share, and the action [SendMsg]: unpacking
    and rewriting the message, the fine per visited cell, the fees and the value taken
    from the remaining balance. *)

From S2P Require Import Prelude External Values VmGas VmState Cells Models SmcInfo.
From S2P Require Import ExecConfig ExecUtil ExecState Phases.

Open Scope vm_scope.

(** [ResultCode]. *)
Definition ActionListInvalid : Z := 32.
Definition TooManyActions : Z := 33.
Definition ActionInvalid : Z := 34.
Definition InvalidSrcAddr : Z := 35.
Definition InvalidDstAddr : Z := 36.
Definition NotEnoughBalance : Z := 37.
Definition NotEnoughExtraBalance : Z := 38.
Definition FailedToFitMessage : Z := 39.
Definition MessageOutOfLimits : Z := 40.
Definition NoLibCode : Z := 41.
Definition InvalidLibrariesDict : Z := 42.
Definition LibOutOfLimits : Z := 43.
Definition TooManyExtraCurrencies : Z := 44.
Definition StateOutOfLimits : Z := 50.

Definition MAX_MSG_EXTRA_CURRENCIES : Z := 2.

(** [SendMsgFlags], the documented values of the flags. *)
Definition PAY_FEE_SEPARATELY : Z := 1.
Definition IGNORE_ERROR : Z := 2.
Definition BOUNCE_ON_ERROR : Z := 16.
Definition DELETE_IF_EMPTY : Z := 32.
Definition WITH_REMAINING_BALANCE : Z := 64.
Definition ALL_BALANCE : Z := 128.
Definition ALL_SEND_FLAGS : Z := 243.

(** [contains], and whether bits outside of a mask are set. *)
Definition contains (mode flags : Z) : bool := Z.land mode flags =? flags.
Definition outside (mode mask : Z) : bool := negb (Z.land mode (Z.lxor mask 255) =? 0).

Definition INVALID_MASK : Z := Z.lor ALL_BALANCE WITH_REMAINING_BALANCE.
Definition EXT_MSG_MASK : Z := Z.lor (Z.lor PAY_FEE_SEPARATELY IGNORE_ERROR) BOUNCE_ON_ERROR.
Definition DELETE_MASK : Z := Z.lor ALL_BALANCE DELETE_IF_EMPTY.

(** [ActionFailed], and the panic of an [unwrap]. *)
Inductive ActionError := ActionFailed | ActionPanic.

Inductive MessageRewrite := StateInitToCell | BodyToCell.
Inductive SendMsgResult := Sent | Rewrite (r : MessageRewrite).

(** [MessageRewrite::next]. *)
Definition next_rewrite (r : option MessageRewrite) : option MessageRewrite :=
  match r with
  | None => Some StateInitToCell
  | Some StateInitToCell => Some BodyToCell
  | Some BodyToCell => None
  end.

Section Action.
Context `{ML : ModelLib} (params : ExecutorParams) (config : ParsedConfig).

Inductive PublicLibraryChange := LibAdd (c : Cell) | LibRemove (h : HashBytes).

Record ActionContext := mkAct {
  need_bounce_on_fail : bool;
  received_message : option ReceivedMessage;
  remaining_balance : CurrencyCollection;
  reserved_balance : CurrencyCollection;
  action_fine : Z;
  ctx_state : StateInit;
  ctx_end_lt : Z;
  ctx_out_msgs : list OutMsg;
  delete_account : bool;
  public_libs_diff : option (list PublicLibraryChange);
  action_phase : ActionPhase
}.

Definition ActM := MS ActionContext ActionError.

Definition set_need_bounce (x : bool) (c : ActionContext) : ActionContext :=
  mkAct x (received_message c) (remaining_balance c) (reserved_balance c) (action_fine c)
    (ctx_state c) (ctx_end_lt c) (ctx_out_msgs c) (delete_account c) (public_libs_diff c)
    (action_phase c).
Definition set_received (x : option ReceivedMessage) (c : ActionContext) : ActionContext :=
  mkAct (need_bounce_on_fail c) x (remaining_balance c) (reserved_balance c) (action_fine c)
    (ctx_state c) (ctx_end_lt c) (ctx_out_msgs c) (delete_account c) (public_libs_diff c)
    (action_phase c).
Definition set_remaining (x : CurrencyCollection) (c : ActionContext) : ActionContext :=
  mkAct (need_bounce_on_fail c) (received_message c) x (reserved_balance c) (action_fine c)
    (ctx_state c) (ctx_end_lt c) (ctx_out_msgs c) (delete_account c) (public_libs_diff c)
    (action_phase c).
Definition set_reserved (x : CurrencyCollection) (c : ActionContext) : ActionContext :=
  mkAct (need_bounce_on_fail c) (received_message c) (remaining_balance c) x (action_fine c)
    (ctx_state c) (ctx_end_lt c) (ctx_out_msgs c) (delete_account c) (public_libs_diff c)
    (action_phase c).
Definition set_fine (x : Z) (c : ActionContext) : ActionContext :=
  mkAct (need_bounce_on_fail c) (received_message c) (remaining_balance c) (reserved_balance c) x
    (ctx_state c) (ctx_end_lt c) (ctx_out_msgs c) (delete_account c) (public_libs_diff c)
    (action_phase c).
Definition set_ctx_state (x : StateInit) (c : ActionContext) : ActionContext :=
  mkAct (need_bounce_on_fail c) (received_message c) (remaining_balance c) (reserved_balance c)
    (action_fine c) x (ctx_end_lt c) (ctx_out_msgs c) (delete_account c) (public_libs_diff c)
    (action_phase c).
Definition push_message (m : OutMsg) (c : ActionContext) : ActionContext :=
  mkAct (need_bounce_on_fail c) (received_message c) (remaining_balance c) (reserved_balance c)
    (action_fine c) (ctx_state c) (wrap_u 64 (ctx_end_lt c + 1)) (ctx_out_msgs c ++ [m])
    (delete_account c) (public_libs_diff c) (action_phase c).
Definition set_delete (x : bool) (c : ActionContext) : ActionContext :=
  mkAct (need_bounce_on_fail c) (received_message c) (remaining_balance c) (reserved_balance c)
    (action_fine c) (ctx_state c) (ctx_end_lt c) (ctx_out_msgs c) x (public_libs_diff c)
    (action_phase c).
Definition push_diff (x : PublicLibraryChange) (c : ActionContext) : ActionContext :=
  mkAct (need_bounce_on_fail c) (received_message c) (remaining_balance c) (reserved_balance c)
    (action_fine c) (ctx_state c) (ctx_end_lt c) (ctx_out_msgs c) (delete_account c)
    (option_map (fun l => l ++ [x]) (public_libs_diff c)) (action_phase c).
Definition on_phase (f : ActionPhase -> ActionPhase) (c : ActionContext) : ActionContext :=
  mkAct (need_bounce_on_fail c) (received_message c) (remaining_balance c) (reserved_balance c)
    (action_fine c) (ctx_state c) (ctx_end_lt c) (ctx_out_msgs c) (delete_account c)
    (public_libs_diff c) (f (action_phase c)).

(** Updates of the report of the phase. *)
Definition set_result (code : Z) (arg : option Z) (p : ActionPhase) : ActionPhase :=
  mkActionPhase (ap_success p) (valid p) (no_funds p) (ap_status_change p) (total_fwd_fees p)
    (total_action_fees p) code arg (total_actions p) (special_actions p) (skipped_actions p)
    (messages_created p) (action_list_hash p) (total_message_size p).
Definition set_code (code : Z) (p : ActionPhase) : ActionPhase := set_result code (result_arg p) p.
Definition set_no_funds (p : ActionPhase) : ActionPhase :=
  mkActionPhase (ap_success p) (valid p) true (ap_status_change p) (total_fwd_fees p)
    (total_action_fees p) (result_code p) (result_arg p) (total_actions p) (special_actions p)
    (skipped_actions p) (messages_created p) (action_list_hash p) (total_message_size p).
Definition set_fees (fwd act : option Z) (p : ActionPhase) : ActionPhase :=
  mkActionPhase (ap_success p) (valid p) (no_funds p) (ap_status_change p) fwd act
    (result_code p) (result_arg p) (total_actions p) (special_actions p) (skipped_actions p)
    (messages_created p) (action_list_hash p) (total_message_size p).
Definition count_actions (special skipped created : Z) (p : ActionPhase) : ActionPhase :=
  mkActionPhase (ap_success p) (valid p) (no_funds p) (ap_status_change p) (total_fwd_fees p)
    (total_action_fees p) (result_code p) (result_arg p) (total_actions p)
    (special_actions p + special) (skipped_actions p + skipped) (messages_created p + created)
    (action_list_hash p) (total_message_size p).
Definition set_message_size (x : StorageUsedShort) (p : ActionPhase) : ActionPhase :=
  mkActionPhase (ap_success p) (valid p) (no_funds p) (ap_status_change p) (total_fwd_fees p)
    (total_action_fees p) (result_code p) (result_arg p) (total_actions p) (special_actions p)
    (skipped_actions p) (messages_created p) (action_list_hash p) x.

(** [ctx.action_phase.result_code = code; return Err(ActionFailed)]. *)
Definition fail_with {A} (code : Z) : ActM A :=
  modify (on_phase (set_code code)) ;; raise ActionFailed.

(** The [?] operator: every error becomes [ActionFailed]. *)
Definition try_types {A} (r : result Error A) : ActM A :=
  map_err (fun _ => ActionFailed) (of_result r).
(** [unwrap]. *)
Definition unwrap {A} (r : result Error A) : ActM A :=
  map_err (fun _ => ActionPanic) (of_result r).

(** ** Unpacking and rewriting messages *)

Definition load_state_init_as_slice (cs : OwnedCellSlice)
    : result Error (OwnedCellSlice * OwnedCellSlice) :=
  let? (some, rest) := load_bit cs in
  let? rest :=
    if some then
      let? (as_ref, rest) := load_bit rest in
      if as_ref then
        let? (state_root, rest) := slice_load_reference rest in
        if is_exotic state_root then Err InvalidData
        else
          let? (_, extra) := load_state_init (new_allow_exotic state_root) in
          if slice_is_empty extra then Ok rest else Err CellOverflow
      else let? (_, rest) := load_state_init rest in Ok rest
    else Ok rest in
  let? res := slice_skip_last cs (slice_bits rest) (slice_size_refs rest) in
  Ok (res, rest).

Definition load_body_as_slice (cs : OwnedCellSlice)
    : result Error (OwnedCellSlice * OwnedCellSlice) :=
  let? (as_ref, rest) := load_bit cs in
  let? rest := if as_ref then slice_skip_first rest 0 1 else Ok (slice_end rest) in
  Ok (cs, rest).

Definition rewrite_state_init_to_cell (cs : OwnedCellSlice) : result Error CellBuilder :=
  let? (_, cs) := slice_load_uint cs 2 in
  let? c := build_from_slice cs in
  let? b := store_uint builder_new 3 2 in
  store_reference b c.

Definition rewrite_body_to_cell (cs : OwnedCellSlice) : result Error CellBuilder :=
  let? (_, cs) := load_bit cs in
  let? c := build_from_slice cs in
  let? b := store_uint builder_new 1 1 in
  store_reference b c.

Definition build_message (info : RelaxedMsgInfo) (state_init_cs body_cs : OwnedCellSlice)
    : result Error Cell :=
  let? b := store_relaxed_msg_info builder_new info in
  let? b := store_slice b state_init_cs in
  let? b := store_slice b body_cs in
  builder_build b.

(** The three parts of the outbound message; nothing may follow them. *)
Definition unpack_message (out_msg : Cell)
    : result Error (RelaxedMsgInfo * OwnedCellSlice * OwnedCellSlice * bool) :=
  let? (info, cs) := load_relaxed_msg_info (new_allow_exotic out_msg) in
  let? (state_init_cs, cs) := load_state_init_as_slice cs in
  let? (body_cs, cs) := load_body_as_slice cs in
  Ok (info, state_init_cs, body_cs, slice_is_empty cs).

(** Moving the state init or the body to a cell of its own. *)
Definition apply_rewrite (rewrite : option MessageRewrite) (state_init_cs body_cs : OwnedCellSlice)
    : result Error (option MessageRewrite * OwnedCellSlice * OwnedCellSlice) :=
  let? (rewrite, state_init_cs) :=
    match rewrite with
    | Some StateInitToCell =>
        if 2 <=? slice_size_refs state_init_cs then
          let? b := rewrite_state_init_to_cell state_init_cs in Ok (rewrite, as_full_slice b)
        else Ok (Some BodyToCell, state_init_cs)
    | _ => Ok (rewrite, state_init_cs)
    end in
  let? body_cs :=
    match rewrite with
    | Some BodyToCell =>
        if 1 <? slice_bits body_cs then
          let? (bit, _) := load_bit body_cs in
          if bit then Ok body_cs
          else let? b := rewrite_body_to_cell body_cs in Ok (as_full_slice b)
        else Ok body_cs
    | _ => Ok body_cs
    end in
  Ok (rewrite, state_init_cs, body_cs).

(** ** Extra currencies *)

(** [i > limit] for the index [i] of an entry. *)
Fixpoint check_extra_entries (entries : list (result Error (Z * Z))) (i limit : Z) : bool :=
  match entries with
  | [] => true
  | entry :: entries =>
      if (limit <? i) || match entry with Err _ => true | Ok _ => false end then false
      else check_extra_entries entries (i + 1) limit
  end.
Definition check_extra_balance (value : Extra) (limit : Z) : bool :=
  check_extra_entries (extra_iter value) 0 limit.

Inductive BalanceExtraError := OutOfLimit | InvalidDict.

Fixpoint normalize_entries (entries : list (result Error (Z * Z))) (i limit : Z) (res : Extra)
    : result BalanceExtraError Extra :=
  match entries with
  | [] => Ok res
  | entry :: entries =>
      if limit <? i then Err OutOfLimit
      else match entry with
      | Err _ => Err InvalidDict
      | Ok (currency_id, amount) =>
          if amount =? 0 then
            match extra_remove res currency_id with
            | Ok res => normalize_entries entries (i + 1) limit res
            | Err _ => Err InvalidDict
            end
          else normalize_entries entries (i + 1) limit res
      end
  end.
Definition normalize_extra_balance (value : Extra) (limit : Z) : result BalanceExtraError Extra :=
  normalize_entries (extra_iter value) 0 limit value.

(** ** Errors that a message may ignore *)

Definition check_skip_invalid (mode code : Z) : ActM SendMsgResult :=
  if contains mode IGNORE_ERROR then
    modify (on_phase (count_actions 0 1 0)) ;; ret Sent
  else fail_with code.

(** ** Message info *)

Definition with_value (v : CurrencyCollection) (i : RelaxedIntMsgInfo) : RelaxedIntMsgInfo :=
  mkIntMsg (ihr_disabled i) (im_bounce i) (im_bounced i) (im_src i) (im_dst i) v (im_ihr_fee i)
    (im_fwd_fee i) (im_created_lt i) (im_created_at i).
Definition with_fwd_fee (f : Z) (i : RelaxedIntMsgInfo) : RelaxedIntMsgInfo :=
  mkIntMsg (ihr_disabled i) (im_bounce i) (im_bounced i) (im_src i) (im_dst i) (im_value i)
    (im_ihr_fee i) f (im_created_lt i) (im_created_at i).

(** The checked header and whether masterchain prices apply; an error code that may be
    skipped; or a failure with a code. *)
Inductive InfoCheck :=
| InfoOk (info : RelaxedMsgInfo) (use_mc_prices : bool)
| InfoSkip (code : Z)
| InfoFail (code : Z).

Definition check_int_info (my : StdAddr) (lt : Z) (i : RelaxedIntMsgInfo) : InfoCheck :=
  let '(src_ok, src) := check_rewrite_src_addr my (im_src i) in
  if negb src_ok then InfoFail InvalidSrcAddr
  else
    let '(dst_ok, dst) := check_rewrite_dst_addr (workchains config) (im_dst i) in
    if negb dst_ok then InfoSkip InvalidDstAddr
    else
      match (if strict_extra_currency params
             then normalize_extra_balance (other (im_value i)) MAX_MSG_EXTRA_CURRENCIES
             else Ok (other (im_value i))) with
      | Err InvalidDict => InfoSkip NotEnoughBalance
      | Err OutOfLimit => InfoSkip TooManyExtraCurrencies
      | Ok extra =>
          InfoOk (RelaxedInt (mkIntMsg true (im_bounce i) false src dst
                    (set_other extra (im_value i)) 0 0 lt (block_unixtime params)))
            (is_masterchain my || int_is_masterchain dst)
      end.

(** A failure without a code of its own keeps the code -1. *)
Definition check_ext_info (mode : Z) (my : StdAddr) (lt : Z) (i : RelaxedExtOutMsgInfo) : InfoCheck :=
  if outside mode EXT_MSG_MASK then InfoFail (-1)
  else
    let '(src_ok, src) := check_rewrite_src_addr my (eo_src i) in
    if negb src_ok then InfoFail InvalidSrcAddr
    else InfoOk (RelaxedExtOut (mkExtOut src (eo_dst i) lt (block_unixtime params)))
           (is_masterchain my).

Definition check_info (mode : Z) (my : StdAddr) (lt : Z) (info : RelaxedMsgInfo) : InfoCheck :=
  match info with
  | RelaxedInt i => check_int_info my lt i
  | RelaxedExtOut i => check_ext_info mode my lt i
  end.

(** ** Fines *)

Definition fine_per_cell (special : bool) (prices : MsgForwardPrices) : Z :=
  if special then 0 else Z.shiftr (fp_cell_price prices) 16 / 4.

(** The funds that may pay for visited cells; [None] if the value of the message
    cannot be computed. *)
Definition message_funds (mode gas_fees : Z) (info : RelaxedMsgInfo) (c : ActionContext) : option Z :=
  let funds := tokens (remaining_balance c) in
  match info with
  | RelaxedInt i =>
      if contains mode ALL_BALANCE || contains mode PAY_FEE_SEPARATELY then Some funds
      else
        let new_funds := tokens (im_value i) in
        if contains mode WITH_REMAINING_BALANCE then
          let msg_balance :=
            match received_message c with
            | Some m => tokens (balance_remaining m)
            | None => 0
            end in
          match tokens_checked_add new_funds msg_balance with
          | None => None
          | Some f =>
              match tokens_checked_sub f gas_fees with
              | None => None
              | Some f =>
                  match tokens_checked_sub f (action_fine c) with
                  | None => None
                  | Some f => Some (Z.min funds f)
                  end
              end
          end
        else Some (Z.min funds new_funds)
  | RelaxedExtOut _ => Some funds
  end.

(** The number of cells the funds can pay for. *)
Definition affordable_cells (max_cell_count per_cell funds : Z) : Z :=
  if funds <? max_cell_count * per_cell then
    let n := funds / per_cell in if n <=? U32_MAX then n else U32_MAX
  else max_cell_count.

Definition collect_fine (per_cell max_cell_count cells : Z) : ActM unit :=
  let* rem := gets remaining_balance in
  let fine := Z.min U64_MAX (per_cell * Z.min max_cell_count cells) in
  let fine := Z.min fine (tokens rem) in
  let* f := gets action_fine in
  let* f := try_types (tokens_try_add f fine) in
  modify (set_fine f) ;;
  let* rem := try_types (cc_sub_tokens rem fine) in
  modify (set_remaining rem).

(** ** The value of a message *)

(** [rewrite_message_value]: the value in the message and what is withdrawn. *)
Definition rewrite_message_value (value : CurrencyCollection) (mode fees_total gas_fees : Z)
    (c : ActionContext) : result Error (CurrencyCollection * Z) :=
  let strict := strict_extra_currency params in
  let? (value, separate) :=
    if contains mode ALL_BALANCE then
      Ok (if strict then set_tokens (tokens (remaining_balance c)) value
          else remaining_balance c, false)
    else if contains mode WITH_REMAINING_BALANCE then
      let? value :=
        match received_message c with
        | Some m =>
            if strict then cc_add_tokens value (tokens (balance_remaining m))
            else cc_checked_add value (balance_remaining m)
        | None => Ok value
        end in
      let separate := contains mode PAY_FEE_SEPARATELY in
      let? value :=
        if separate then Ok value
        else
          let? value := cc_sub_tokens value (action_fine c) in
          cc_sub_tokens value gas_fees in
      Ok (value, separate)
    else Ok (value, contains mode PAY_FEE_SEPARATELY) in
  if separate then
    let? total := tokens_try_add (tokens value) fees_total in
    Ok (value, total)
  else
    let? t := tokens_try_sub (tokens value) fees_total in
    Ok (set_tokens t value, tokens value).

(** ** Finishing a message *)

Definition update_total_msg_stat (total : StorageUsedShort) (st : CellTreeStats) (root_bits : Z)
    : StorageUsedShort :=
  mkUsedShort
    (varuint56_saturating_add (short_cells total) (sat_add_u64 (cell_count st) 1))
    (varuint56_saturating_add (short_bits total) (sat_add_u64 (bit_count st) root_bits)).

(** [*fees.get_or_insert_default() += x]. *)
Definition add_opt (o : option Z) (x : Z) : option Z := Some (tokens_add (default 0 o) x).

(** The message balance is used up by a message that carries it. *)
Definition clear_message_balance (mode : Z) (c : ActionContext) : ActionContext :=
  match received_message c with
  | Some m =>
      if contains mode ALL_BALANCE || contains mode WITH_REMAINING_BALANCE then
        set_received
          (Some (set_remaining_balance
             (if strict_extra_currency params then set_tokens 0 (balance_remaining m) else cc_zero) m)) c
      else c
  | None => c
  end.

(** Whether the account is deleted after this message. *)
Definition deletes (mode : Z) (c : ActionContext) : bool :=
  if contains mode DELETE_MASK then
    if strict_extra_currency params then tokens (reserved_balance c) =? 0
    else cc_is_zero (reserved_balance c)
  else delete_account c.

(** The bookkeeping of a sent message. *)
Definition message_sent (mode : Z) (m : OutMsg) (st : CellTreeStats) (fees_collected fees : Z)
    : ActM SendMsgResult :=
  modify (on_phase (fun p => set_message_size
    (update_total_msg_stat (total_message_size p) st (bit_len (om_cell m))) p)) ;;
  modify (on_phase (count_actions 0 0 1)) ;;
  modify (push_message m) ;;
  modify (on_phase (fun p => set_fees (add_opt (total_fwd_fees p) fees)
                               (add_opt (total_action_fees p) fees_collected) p)) ;;
  modify (fun c => set_delete (deletes mode c) c) ;;
  ret Sent.

(** What finishing a message needs to know. *)
Record Outgoing := mkOutgoing {
  og_mode : Z; og_rewrite : option MessageRewrite; og_prices : MsgForwardPrices;
  og_stats : CellTreeStats; og_fee : Z; og_state_init : OwnedCellSlice; og_body : OwnedCellSlice;
  og_per_cell : Z; og_max_cells : Z
}.

(** [check_skip_invalid] that collects the fine first. *)
Definition skip_with_fine (o : Outgoing) (code : Z) : ActM SendMsgResult :=
  collect_fine (og_per_cell o) (og_max_cells o) (cell_count (og_stats o)) ;;
  check_skip_invalid (og_mode o) code.

(** The message that cannot be built is rewritten, if it can be. *)
Definition rewrite_or_skip (o : Outgoing) : ActM SendMsgResult :=
  match next_rewrite (og_rewrite o) with
  | Some r => ret (Rewrite r)
  | None => skip_with_fine o FailedToFitMessage
  end.

Definition finish_internal (o : Outgoing) (gas_fees : Z) (i : RelaxedIntMsgInfo) : ActM SendMsgResult :=
  let* c := gets id in
  match rewrite_message_value (im_value i) (og_mode o) (og_fee o) gas_fees c with
  | Err _ => skip_with_fine o NotEnoughBalance
  | Ok (value, value_to_pay) =>
      if tokens (remaining_balance c) <? value_to_pay then skip_with_fine o NotEnoughBalance
      else if strict_extra_currency params
              && negb (check_extra_balance (other value) MAX_MSG_EXTRA_CURRENCIES)
      then skip_with_fine o TooManyExtraCurrencies
      else match extra_checked_sub (other (remaining_balance c)) (other value) with
      | Err _ => skip_with_fine o NotEnoughExtraBalance
      | Ok rest =>
          let fees_collected := get_first_part (og_prices o) (og_fee o) in
          let info :=
            RelaxedInt (with_fwd_fee (tokens_sub (og_fee o) fees_collected) (with_value value i)) in
          match build_message info (og_state_init o) (og_body o) with
          | Err _ => rewrite_or_skip o
          | Ok msg =>
              modify (clear_message_balance (og_mode o)) ;;
              modify (set_remaining
                (mkCurrency (tokens_sub (tokens (remaining_balance c)) value_to_pay) rest)) ;;
              message_sent (og_mode o) (mkOutMsg (HeaderRelaxed info) msg) (og_stats o)
                fees_collected (og_fee o)
          end
      end
  end.

Definition finish_external (o : Outgoing) (i : RelaxedExtOutMsgInfo) : ActM SendMsgResult :=
  let* c := gets id in
  if tokens (remaining_balance c) <? og_fee o then skip_with_fine o NotEnoughBalance
  else match build_message (RelaxedExtOut i) (og_state_init o) (og_body o) with
  | Err _ => rewrite_or_skip o
  | Ok msg =>
      modify (set_remaining
        (set_tokens (tokens_sub (tokens (remaining_balance c)) (og_fee o)) (remaining_balance c))) ;;
      message_sent (og_mode o) (mkOutMsg (HeaderRelaxed (RelaxedExtOut i)) msg) (og_stats o)
        (og_fee o) (og_fee o)
  end.

(** The cells that count for the size of the message. *)
Definition message_cells (info : RelaxedMsgInfo) (state_init_cs body_cs : OwnedCellSlice) : list Cell :=
  slice_references state_init_cs ++ slice_references body_cs ++
  (if strict_extra_currency params then []
   else match info with
        | RelaxedInt i => opt_cells [extra_root (other (im_value i))]
        | RelaxedExtOut _ => []
        end).

(** The size of the message within the limits, then its end. *)
Definition measure_and_finish (special : bool) (mode gas_fees : Z) (rewrite : option MessageRewrite)
    (info : RelaxedMsgInfo) (prices : MsgForwardPrices) (state_init_cs body_cs : OwnedCellSlice)
    (per_cell max_cells : Z) : ActM SendMsgResult :=
  let lim := mkLimits (max_msg_bits (size_limits config)) max_cells in
  let '(fits, st) := add_cells (message_cells info state_init_cs body_cs) (with_limits lim) in
  if negb fits then
    collect_fine per_cell max_cells (cells st) ;;
    check_skip_invalid mode MessageOutOfLimits
  else
    let st := stats st in
    let fees := if special then 0 else compute_fwd_fee prices st in
    let o := mkOutgoing mode rewrite prices st fees state_init_cs body_cs per_cell max_cells in
    match info with
    | RelaxedInt i => finish_internal o gas_fees i
    | RelaxedExtOut i => finish_external o i
    end.

(** The header, the funds and the limits of the message. *)
Definition price_message (my : StdAddr) (special : bool) (mode gas_fees : Z)
    (rewrite : option MessageRewrite) (info : RelaxedMsgInfo)
    (state_init_cs body_cs : OwnedCellSlice) : ActM SendMsgResult :=
  let* c := gets id in
  match check_info mode my (ctx_end_lt c) info with
  | InfoFail code => fail_with code
  | InfoSkip code => check_skip_invalid mode code
  | InfoOk info use_mc_prices =>
      let prices := fwd_prices config use_mc_prices in
      let per_cell := fine_per_cell special prices in
      let max_cells := max_msg_cells (size_limits config) in
      if special then
        measure_and_finish special mode gas_fees rewrite info prices state_init_cs body_cs 0 max_cells
      else match message_funds mode gas_fees info c with
      | None => check_skip_invalid mode NotEnoughBalance
      | Some funds =>
          measure_and_finish special mode gas_fees rewrite info prices state_init_cs body_cs per_cell
            (affordable_cells max_cells per_cell funds)
      end
  end.

(** [do_send_message]. *)
Definition do_send_message (my : StdAddr) (special : bool) (gas_fees mode : Z) (out_msg : Cell)
    (rewrite : option MessageRewrite) : ActM SendMsgResult :=
  (if contains mode BOUNCE_ON_ERROR then modify (set_need_bounce true) else ret tt) ;;
  ensure (negb (outside mode ALL_SEND_FLAGS || contains mode INVALID_MASK)) ActionFailed ;;
  ensure (negb (is_exotic out_msg)) ActionFailed ;;
  let* (info, state_init_cs, body_cs, complete) := try_types (unpack_message out_msg) in
  ensure complete ActionFailed ;;
  let* (rewrite, state_init_cs, body_cs) := unwrap (apply_rewrite rewrite state_init_cs body_cs) in
  price_message my special mode gas_fees rewrite info state_init_cs body_cs.

(** The loop over the rewrites of a message; three turns are enough
    ([send_loop_ends]). *)
Fixpoint send_loop (fuel : nat) (my : StdAddr) (special : bool) (gas_fees mode : Z) (out_msg : Cell)
    (rewrite : option MessageRewrite) : ActM unit :=
  match fuel with
  | O => raise ActionPanic
  | S fuel =>
      let* res := do_send_message my special gas_fees mode out_msg rewrite in
      match res with
      | Sent => ret tt
      | Rewrite r => send_loop fuel my special gas_fees mode out_msg (Some r)
      end
  end.
End Action.
