(* ===== verification/ActionPhase.v ===== *)
(** * The action phase (phase/action.rs)

    The other actions ([SetCode], [ReserveCurrency], [ChangeLibrary]), the list of
    actions, and the phase itself: parsing the list, running the actions in turn, the
    fine of a failed phase and the effects of a successful one. *)

From S2P Require Import Prelude External Values VmGas VmState Cells Models SmcInfo.
From S2P Require Import ExecConfig ExecUtil ExecState Phases Action.

Open Scope vm_scope.

(** [ReserveCurrencyFlags] and [ChangeLibraryMode], the documented values. *)
Definition RESERVE_ALL_BUT : Z := 1.
Definition RESERVE_IGNORE_ERROR : Z := 2.
Definition RESERVE_WITH_ORIGINAL_BALANCE : Z := 4.
Definition RESERVE_REVERSE : Z := 8.
Definition RESERVE_BOUNCE_ON_ERROR : Z := 16.
Definition ALL_RESERVE_FLAGS : Z := 31.
Definition LIB_ADD_PRIVATE : Z := 1.
Definition LIB_ADD_PUBLIC : Z := 2.
Definition LIB_BOUNCE_ON_ERROR : Z := 16.
Definition LIB_INVALID_MODE : Z := Z.lor LIB_ADD_PRIVATE LIB_ADD_PUBLIC.

(** [OutAction::TAG_SEND_MSG], the tag of the crate. *)
Definition TAG_SEND_MSG : Z := 0x0ec3c86d.
Definition MAX_ACTIONS : Z := 255.

Section ActionPhase.
Context `{ML : ModelLib} (params : ExecutorParams) (config : ParsedConfig).

#[local] Abbreviation strict := (strict_extra_currency params).

(** One more special action. *)
Definition count_special : ActM unit := modify (on_phase (count_actions 1 0 0)).

(** ** [SetCode] *)

Definition with_code (code : option Cell) (s : StateInit) : StateInit :=
  mkStateInit (split_depth s) (special s) code (si_data s) (si_libraries s).
Definition with_libs (libs : StateLibs) (s : StateInit) : StateInit :=
  mkStateInit (split_depth s) (special s) (si_code s) (si_data s) libs.

Definition do_set_code (new_code : Cell) : ActM unit :=
  modify (fun c => set_ctx_state (with_code (Some new_code) (ctx_state c)) c) ;;
  count_special.

(** ** [ReserveCurrency] *)

(** The amount asked for, from the original balance if the mode says so. *)
Definition requested_reserve (mode : Z) (reserve original : CurrencyCollection)
    : result Error CurrencyCollection :=
  if contains mode RESERVE_WITH_ORIGINAL_BALANCE then
    if contains mode RESERVE_REVERSE then
      if strict then
        let? t := tokens_try_sub (tokens original) (tokens reserve) in
        Ok (set_tokens t reserve)
      else cc_checked_sub original reserve
    else if strict then cc_add_tokens reserve (tokens original)
    else cc_checked_add reserve original
  else if contains mode RESERVE_REVERSE then Err InvalidData
  else Ok reserve.

(** The balance without the reserve, or the code of the failure. *)
Definition without_reserve (remaining reserve : CurrencyCollection) : result Z CurrencyCollection :=
  match tokens_checked_sub (tokens remaining) (tokens reserve) with
  | None => Err NotEnoughBalance
  | Some t =>
      match extra_checked_sub (other remaining) (other reserve) with
      | Err _ => Err NotEnoughExtraBalance
      | Ok o => Ok (mkCurrency t o)
      end
  end.

(** [ALL_BUT] exchanges the reserve and the rest. *)
Definition swap_all_but (mode : Z) (new_balance reserve : CurrencyCollection)
    : CurrencyCollection * CurrencyCollection :=
  if contains mode RESERVE_ALL_BUT then
    if strict then
      (set_tokens (tokens reserve) new_balance, set_tokens (tokens new_balance) reserve)
    else (reserve, new_balance)
  else (new_balance, reserve).

Definition do_reserve_currency (original : CurrencyCollection) (mode : Z)
    (reserve : CurrencyCollection) : ActM unit :=
  (if contains mode RESERVE_BOUNCE_ON_ERROR then modify (set_need_bounce true) else ret tt) ;;
  ensure (negb (outside mode ALL_RESERVE_FLAGS)) ActionFailed ;;
  ensure (negb (strict && negb (extra_is_empty (other reserve)))) ActionFailed ;;
  let* reserve := try_types (requested_reserve mode reserve original) in
  let* rem := gets remaining_balance in
  let* reserve :=
    (if contains mode RESERVE_IGNORE_ERROR then try_types (cc_checked_clamp reserve rem)
     else ret reserve) in
  match without_reserve rem reserve with
  | Err code => fail_with code
  | Ok new_balance =>
      let* extra := try_types (extra_normalize (other reserve)) in
      let '(new_balance, reserve) := swap_all_but mode new_balance (set_other extra reserve) in
      modify (set_remaining new_balance) ;;
      let* reserved := gets reserved_balance in
      let* reserved := try_types (cc_checked_add reserved reserve) in
      modify (set_reserved reserved) ;;
      count_special
  end.

(** ** [ChangeLibrary] *)

Definition lib_hash (lib : LibRef) : HashBytes :=
  match lib with LibCell c => repr_hash c | LibHash h => h end.

(** The change of the public libraries, for the inspector. *)
Definition track_added (masterchain : bool) (was_public : option bool) (add_public : bool)
    (lib_root : Cell) : ActM unit :=
  if masterchain then
    match was_public, add_public with
    | None, true | Some false, true => modify (push_diff (LibAdd lib_root))
    | Some true, false => modify (push_diff (LibRemove (repr_hash lib_root)))
    | _, _ => ret tt
    end
  else ret tt.

Definition add_library (masterchain add_public : bool) (was_public : option bool) (lib : LibRef)
    : ActM unit :=
  match lib with
  | LibHash _ => fail_with NoLibCode
  | LibCell lib_root =>
      let lim := mkLimits U32_MAX (max_library_cells (size_limits config)) in
      if negb (add_cell lib_root (with_limits lim)).1 then fail_with LibOutOfLimits
      else
        let* st := gets ctx_state in
        match libs_set (si_libraries st) (repr_hash lib_root) (mkLib add_public lib_root) with
        | Err _ => fail_with InvalidLibrariesDict
        | Ok libs =>
            modify (set_ctx_state (with_libs libs st)) ;;
            track_added masterchain was_public add_public lib_root
        end
  end.

Definition remove_library (masterchain : bool) (hash : HashBytes) : ActM unit :=
  let* st := gets ctx_state in
  match libs_remove (si_libraries st) hash with
  | Err _ => fail_with InvalidLibrariesDict
  | Ok (libs, removed) =>
      modify (set_ctx_state (with_libs libs st)) ;;
      match removed with
      | Some lib => if masterchain && lib_public lib then modify (push_diff (LibRemove hash)) else ret tt
      | None => ret tt
      end
  end.

Definition do_change_library (masterchain : bool) (mode : Z) (lib : LibRef) : ActM unit :=
  (if contains mode LIB_BOUNCE_ON_ERROR then modify (set_need_bounce true) else ret tt) ;;
  ensure (negb (contains mode LIB_INVALID_MODE)) ActionFailed ;;
  let hash := lib_hash lib in
  let add_public := contains mode LIB_ADD_PUBLIC in
  let* libs := gets (fun c => si_libraries (ctx_state c)) in
  if add_public || contains mode LIB_ADD_PRIVATE then
    match libs_get libs hash with
    | Ok (Some prev) =>
        if eqb (lib_public prev) add_public then count_special
        else
          add_library masterchain add_public (Some (lib_public prev)) (LibCell (lib_root prev)) ;;
          count_special
    | _ => add_library masterchain add_public None lib ;; count_special
    end
  else remove_library masterchain hash ;; count_special.

(** ** The list of actions *)

(** The cells of the list, newest action first, or the code and position of the
    failure.  The bound on the number of actions is the fuel. *)
Fixpoint unpack_list (fuel : nat) (actions : Cell) (action_idx : Z) (list : list Cell)
    : result (Z * Z) (Datatypes.list Cell * Z) :=
  if is_exotic actions then Err (ActionListInvalid, action_idx)
  else
    let cs := new_allow_exotic actions in
    if slice_is_empty cs then Ok (list, action_idx)
    else
      match slice_load_reference cs with
      | Err _ => Err (ActionListInvalid, action_idx)
      | Ok (child, _) =>
          let action_idx' := action_idx + 1 in
          match fuel with
          | O => Err (TooManyActions, action_idx')
          | S fuel => unpack_list fuel child action_idx' (list ++ [actions])
          end
      end.

(** One item: a parsed action, an ignored one, or a failure and whether it bounces. *)
Inductive ParsedAction := ParsedOk (a : OutAction) | ParsedSkip | ParsedFail (bounce : bool).

Definition parse_action (item : Cell) : result Error ParsedAction :=
  let cs := new_allow_exotic item in
  let cs := match slice_load_reference cs with Ok (_, cs) => cs | Err _ => cs end in
  let parsed :=
    match load_out_action cs with
    | Ok (a, rest) => if slice_is_empty rest then Some a else None
    | Err _ => None
    end in
  match parsed with
  | Some a => Ok (ParsedOk a)
  | None =>
      if 40 <=? slice_bits cs then
        let? (tag, cs) := slice_load_uint cs 32 in
        if tag =? TAG_SEND_MSG then
          let? (mode, _) := slice_load_uint cs 8 in
          Ok (if contains mode IGNORE_ERROR then ParsedSkip
              else ParsedFail (contains mode BOUNCE_ON_ERROR))
        else Ok (ParsedFail false)
      else Ok (ParsedFail false)
  end.

(** All items in the order of execution: the actions and the number skipped, or the
    position of the failure, whether it bounces and the number skipped before it. *)
Fixpoint parse_actions (items : list Cell) (action_idx skipped : Z) (acc : list (option OutAction))
    : result Error (result (Z * bool * Z) (list (option OutAction) * Z)) :=
  match items with
  | [] => Ok (Ok (acc, skipped))
  | item :: items =>
      let? p := parse_action item in
      match p with
      | ParsedOk a => parse_actions items (action_idx + 1) skipped (acc ++ [Some a])
      | ParsedSkip => parse_actions items (action_idx + 1) (skipped + 1) (acc ++ [None])
      | ParsedFail bounce => Ok (Err (action_idx, bounce, skipped))
      end
  end.

(** ** The phase *)

Record ActionPhaseFull := mkActionFull {
  af_phase : ActionPhase; af_fine : Z; state_exceeds_limits : bool; af_bounce : bool
}.

Definition phase_start (actions : Cell) : ActionPhase :=
  mkActionPhase false false false ScUnchanged None None (-1) None 0 0 0 0 (repr_hash actions)
    (mkUsedShort 0 0).

Definition set_totals (valid : bool) (total skipped : Z) (p : ActionPhase) : ActionPhase :=
  mkActionPhase (ap_success p) valid (no_funds p) (ap_status_change p) (total_fwd_fees p)
    (total_action_fees p) (result_code p) (result_arg p) total (special_actions p) skipped
    (messages_created p) (action_list_hash p) (total_message_size p).

Definition set_success (change : AccountStatusChange) (p : ActionPhase) : ActionPhase :=
  mkActionPhase true (valid p) (no_funds p) change (total_fwd_fees p) (total_action_fees p) 0 None
    (total_actions p) (special_actions p) (skipped_actions p) (messages_created p)
    (action_list_hash p) (total_message_size p).

(** The flags of the account the actions need, and the original balance. *)
Record ActionEnv := mkEnv {
  env_address : StdAddr; env_special : bool; env_original : CurrencyCollection; env_gas_fees : Z
}.

Definition run_action (env : ActionEnv) (a : OutAction) : ActM unit :=
  match a with
  | SendMsg mode out_msg =>
      send_loop params config 3 (env_address env) (env_special env) (env_gas_fees env) mode out_msg None
  | SetCode new_code => do_set_code new_code
  | ReserveCurrency mode value => do_reserve_currency (env_original env) mode value
  | ChangeLibrary mode lib => do_change_library (is_masterchain (env_address env)) mode lib
  end.

(** The actions in turn, until one fails. *)
Fixpoint run_actions (env : ActionEnv) (l : list (option OutAction)) (action_idx : Z) : ActM unit :=
  match l with
  | [] => ret tt
  | None :: l => run_actions env l (action_idx + 1)
  | Some a :: l =>
      modify (set_need_bounce false) ;;
      modify (on_phase (set_result (-1) (Some action_idx))) ;;
      run_action env a ;;
      run_actions env l (action_idx + 1)
  end.

(** The report of a failed action. *)
Definition report_failure (c : ActionContext) : ActionContext :=
  let code := result_code (action_phase c) in
  let code := if code =? -1 then ActionInvalid else code in
  let c := on_phase (set_code code) c in
  if (code =? NotEnoughBalance) || (code =? NotEnoughExtraBalance)
  then on_phase set_no_funds c else c.

(** [apply_fine_on_error]: the context afterwards; the account is charged. *)
Definition apply_fine_on_error (c : ActionContext) : ExM ActionContext :=
  let fees := default 0 (total_action_fees (action_phase c)) in
  let* fine :=
    (if charge_action_fees_on_fail params then types (tokens_try_add (action_fine c) fees)
     else ret (action_fine c)) in
  let c := set_fine fine (on_phase (set_fees None (if fine =? 0 then None else Some fine)) c) in
  let* b := gets balance in
  let* t := types (tokens_try_sub (tokens b) fine) in
  modify (set_balance (set_tokens t b)) ;;
  add_fees fine ;;
  ret c.

(** The size check of the new state. *)
Definition check_new_state (c : ActionContext) : ExM bool :=
  let* s := gets id in
  if special_account s then ret true
  else
    let lim := size_limits config in
    let masterchain := is_masterchain (address s) in
    let st := ctx_state c in
    let '(res, cache) :=
      match acct s with
      | AccActive current => check_state_limits_diff current st lim masterchain (cached_storage_stat s)
      | _ => check_state_limits (si_code st) (si_data st) (si_libraries st) lim masterchain
               (cached_storage_stat s)
      end in
    modify (set_cached cache) ;;
    ret (match res with Exceeds => false | _ => true end).

(** Deletion of the account by a message that took all of the balance. *)
Definition finish_deletion (c : ActionContext) (remaining : CurrencyCollection) : ExM AccountStatusChange :=
  if delete_account c then
    modify (set_end_status (if cc_is_zero remaining then StNotExists else StUninit)) ;;
    modify (set_cached None) ;;
    ret ScDeleted
  else ret ScUnchanged.

(** The effects of a successful phase. *)
Definition finish_actions (c : ActionContext) : ExM ActionContext :=
  let* c :=
    (if action_fine c =? 0 then ret c
     else
       let p := action_phase c in
       let* fees := types (tokens_try_add (default 0 (total_action_fees p)) (action_fine c)) in
       ret (on_phase (set_fees (total_fwd_fees p) (Some fees)) c)) in
  let* remaining := types (cc_checked_add (remaining_balance c) (reserved_balance c)) in
  let* change := finish_deletion c remaining in
  let c := on_phase (set_success change) c in
  (match total_action_fees (action_phase c) with
   | Some fees => add_fees fees
   | None => ret tt
   end) ;;
  modify (set_balance remaining) ;;
  modify (set_out_msgs (ctx_out_msgs c)) ;;
  modify (fun s => set_lts (start_lt s) (ctx_end_lt c) s) ;;
  modify (set_acct (AccActive (ctx_state c))) ;;
  ret c.

Definition context_start (s : ExecutorState) (received : option ReceivedMessage) (state : StateInit)
    (inspect : bool) (p : ActionPhase) : ActionContext :=
  mkAct false received (balance s) cc_zero 0 state (end_lt s) [] false
    (if inspect then Some [] else None) p.

(** What the phase hands back: the report, the received message and the changes of the
    public libraries if an inspector is there. *)
Definition ActionResult : Type :=
  ActionPhaseFull * option ReceivedMessage * option (list PublicLibraryChange).

(** The phase once the list is parsed. *)
Definition run_parsed (env : ActionEnv) (received : option ReceivedMessage) (state : StateInit)
    (inspect bounce : bool) (p : ActionPhase) (l : list (option OutAction)) : ExM ActionResult :=
  let* s := gets id in
  match run_actions env l 0 (context_start s received state inspect p) with
  | (Err ActionPanic, _) => raise UnwrapPanic
  | (Err ActionFailed, c) =>
      let* c := apply_fine_on_error (report_failure c) in
      ret (mkActionFull (action_phase c) (action_fine c) false (bounce || need_bounce_on_fail c),
           received_message c, None)
  | (Ok _, c) =>
      let* fits := check_new_state c in
      if fits then
        let* c := finish_actions c in
        ret (mkActionFull (action_phase c) (action_fine c) false bounce, received_message c,
             public_libs_diff c)
      else
        let* c := apply_fine_on_error c in
        let c := on_phase (set_code StateOutOfLimits) c in
        ret (mkActionFull (action_phase c) (action_fine c) true (bounce || need_bounce_on_fail c),
             received_message c, None)
  end.

Definition action_phase_ (received : option ReceivedMessage) (original : CurrencyCollection)
    (state : StateInit) (actions : Cell) (gas_fees : Z) (inspect : bool) : ExM ActionResult :=
  let* s := gets id in
  let env := mkEnv (address s) (special_account s) original gas_fees in
  let p := phase_start actions in
  match unpack_list (Z.to_nat MAX_ACTIONS) actions 0 [] with
  | Err (code, arg) =>
      ret (mkActionFull (set_result code (Some arg) p) 0 false false, received, None)
  | Ok (list, total) =>
      let* parsed := types (parse_actions (rev list) 0 0 []) in
      match parsed with
      | Err (idx, bounce, skipped) =>
          let p := set_result ActionInvalid (Some idx) (set_totals false total skipped p) in
          ret (mkActionFull p 0 false bounce, received, None)
      | Ok (l, skipped) =>
          run_parsed env received state inspect false (set_totals true total skipped p) l
      end
  end.
End ActionPhase.
