(* ===== verification/Transaction.v ===== *)
(** * Transactions (tx/ordinary.rs, tx/ticktock.rs, lib.rs)

    The composition of the phases into ordinary and tick-tock transactions, their entry
    points, and the committed result. *)

From S2P Require Import Prelude External Values VmGas VmState Dispatch Cells Models SmcInfo.
From S2P Require Import ExecConfig ExecUtil ExecState Phases Compute Action ActionPhase.

Open Scope vm_scope.

Section Transaction.
Context `{ML : ModelLib} (params : ExecutorParams) (config : ParsedConfig).
Context (table : Opcodes) (fuel : nat).

(** A transaction is skipped or fails for good. *)
Definition TxM := MS ExecutorState TxError.
Definition fatal {A} (m : ExM A) : TxM A := map_err Fatal m.

(** [match self.receive_in_msg(..) { Ok(..) => .., Err(..) => .. }]. *)
Definition attempt {A} (m : ExM A) : TxM (result ExecError A) :=
  fun s => match m s with (r, s) => (Ok r, s) end.

(** ** Ordinary transactions *)

(** Receiving the message: an invalid external message is skipped. *)
Definition receive_tx (external : bool) (msg_root : Cell) : TxM ReceivedMessage :=
  let* received := attempt (receive_in_msg config msg_root) in
  match received with
  | Ok msg =>
      if eqb (is_external msg) external then ret msg
      else raise (Fatal UnexpectedInboundMessage)
  | Err e => if external then raise Skipped else raise (Fatal e)
  end.

Definition credit_if_internal (external : bool) (msg : ReceivedMessage) : TxM (option CreditPhase) :=
  if external then ret None
  else let* p := fatal (credit_phase msg) in ret (Some p).

Definition storage_tx (adjust : bool) (msg : ReceivedMessage) : TxM (StoragePhase * ReceivedMessage) :=
  let* (p, msg') := fatal (storage_phase params config adjust (Some msg)) in
  ret (p, default msg msg').

(** The storage and credit phases, in the order the bounce flag asks for. *)
Definition fund_phases (external : bool) (msg : ReceivedMessage)
    : TxM (StoragePhase * option CreditPhase * ReceivedMessage) :=
  if bounce_enabled msg then
    let* (sp, msg) := storage_tx false msg in
    let* cp := credit_if_internal external msg in
    ret (sp, cp, msg)
  else
    let* cp := credit_if_internal external msg in
    let* (sp, msg) := storage_tx true msg in
    ret (sp, cp, msg).

(** The results of the action phase that the rest of the transaction uses. *)
Record ActionOutcome := mkOutcome {
  out_phase : option ActionPhase; out_aborted : bool; out_exceeds : bool; out_bounce : bool;
  out_fine : Z; out_destroyed : bool
}.

Definition no_action : ActionOutcome := mkOutcome None true false false 0 false.

(** The action phase, only after a successful compute phase. *)
Definition action_tx (received : option ReceivedMessage) (f : ComputePhaseFull) (inspect : bool)
    : TxM (ActionOutcome * option ReceivedMessage) :=
  match cf_phase f with
  | ComputeExecuted p =>
      if ec_success p then
        let* (res, received, _) :=
          fatal (action_phase_ params config received (original_balance f) (new_state f) (actions f)
                   (ec_gas_fees p) inspect) in
        let* destroyed := gets (fun s => bool_decide (end_status s = StNotExists)) in
        ret (mkOutcome (Some (af_phase res)) (negb (ap_success (af_phase res)))
               (state_exceeds_limits res) (af_bounce res) (af_fine res) destroyed, received)
      else ret (no_action, received)
  | ComputeSkipped _ => ret (no_action, received)
  end.

Definition compute_success (c : ComputePhase) : bool :=
  match c with ComputeExecuted p => ec_success p | ComputeSkipped _ => false end.
Definition compute_fees (c : ComputePhase) : Z :=
  match c with ComputeExecuted p => ec_gas_fees p | ComputeSkipped _ => 0 end.

(** The bounce phase of an internal message if something failed. *)
Definition bounce_tx (msg : ReceivedMessage) (c : ComputePhase) (o : ActionOutcome)
    : TxM (option BouncePhase) :=
  if bounce_enabled msg && (negb (compute_success c) || out_exceeds o || out_bounce o) then
    let* p := fatal (bounce_phase params config (compute_fees c) (out_fine o) msg) in
    ret (Some p)
  else ret None.

Definition run_ordinary_transaction (external : bool) (msg_root : Cell) (inspect : bool)
    : TxM OrdinaryTxInfo :=
  let* msg := receive_tx external msg_root in
  let* (sp, cp, msg) := fund_phases external msg in
  let* f := fatal (compute_phase params config table fuel false (InputOrdinary msg)
                     (storage_fees_collected sp)) in
  if external && negb (accepted f) then raise Skipped
  else
    let* (o, msg') := action_tx (Some msg) f inspect in
    let msg := default msg msg' in
    let* bp := bounce_tx msg (cf_phase f) o in
    ret (mkOrdinary (negb (bounce_enabled msg)) (Some sp) cp (cf_phase f) (out_phase o)
           (out_aborted o) bp (out_destroyed o)).

(** ** Tick-tock transactions *)

Definition run_tick_tock_transaction (kind : TickTock) (inspect : bool) : TxM TickTockTxInfo :=
  let* s := gets id in
  if negb (bool_decide (status (acct s) = StActive)) then raise Skipped
  else
    let* (sp, _) := fatal (storage_phase params config false None) in
    let* f := fatal (compute_phase params config table fuel false (InputTickTock kind)
                       (storage_fees_collected sp)) in
    let* (o, _) := action_tx None f inspect in
    ret (mkTickTock kind sp (cf_phase f) (out_phase o) (out_aborted o) (out_destroyed o)).

(** ** The entry points *)

Record ShardAccount := mkShard {
  sh_account : option Account; sh_cell : Cell; last_trans_hash : HashBytes; last_trans_lt : Z
}.

Record UncommittedTransaction := mkUncommitted {
  exec : ExecutorState; tx_in_msg : option Cell; tx_info : TxInfo; tx_gas_used : Z
}.

(** [UncommittedTransaction::with_info]. *)
Definition with_info (s : ExecutorState) (in_msg : option Cell) (info : TxInfo)
    : UncommittedTransaction :=
  let phase :=
    match info with
    | InfoOrdinary i => o_compute_phase i
    | InfoTickTock i => tt_compute_phase i
    end in
  mkUncommitted s in_msg info
    (match phase with ComputeExecuted p => gas_used p | ComputeSkipped _ => 0 end).

(** [begin_ordinary_ext] and [begin_tick_tock_ext]. *)
Definition begin_ordinary (min_lt : Z) (override_special : option bool) (addr : StdAddr)
    (external : bool) (msg_root : Cell) (state : ShardAccount) (inspect : bool)
    : result TxError UncommittedTransaction :=
  match begin config min_lt override_special addr (sh_account state) with
  | Err e => Err (Fatal e)
  | Ok s =>
      match run_ordinary_transaction external msg_root inspect s with
      | (Ok info, s) => Ok (with_info s (Some msg_root) (InfoOrdinary info))
      | (Err e, _) => Err e
      end
  end.

Definition begin_tick_tock (min_lt : Z) (override_special : option bool) (addr : StdAddr)
    (kind : TickTock) (state : ShardAccount) (inspect : bool)
    : result TxError UncommittedTransaction :=
  match begin config min_lt override_special addr (sh_account state) with
  | Err e => Err (Fatal e)
  | Ok s =>
      match run_tick_tock_transaction kind inspect s with
      | (Ok info, s) => Ok (with_info s None (InfoTickTock info))
      | (Err e, _) => Err e
      end
  end.

(** ** Commit *)

(** [Transaction]; the outbound messages are kept as the list. *)
Record TransactionRecord := mkTransaction {
  t_account : HashBytes; t_lt : Z; t_prev_trans_hash : HashBytes; t_prev_trans_lt : Z; t_now : Z;
  t_out_msg_count : Z; t_orig_status : AccountStatus; t_end_status : AccountStatus;
  t_in_msg : option Cell; t_out_msgs : list Cell; t_total_fees : Z;
  t_state_update : HashBytes * HashBytes; t_info : TxInfo
}.

Record AccountMeta := mkMeta { m_balance : CurrencyCollection; m_libraries : StateLibs; m_exists : bool }.
Record TransactionMeta := mkTxMeta {
  tm_total_fees : Z; next_lt : Z; tm_out_msgs : list OutMsg; tm_gas_used : Z
}.
Record ExecutorOutput := mkOutput {
  new_account : Cell; new_trans_lt : Z; new_state_meta : AccountMeta;
  out_transaction : TransactionRecord; transaction_meta : TransactionMeta; out_burned : Z
}.

(** [build_transaction]. *)
Definition build_transaction (original : ShardAccount) (u : UncommittedTransaction)
    (end_st : AccountStatus) (state_update : HashBytes * HashBytes) : TransactionRecord :=
  let s := exec u in
  mkTransaction (std_address (address s)) (start_lt s) (last_trans_hash original)
    (last_trans_lt original) (block_unixtime params) (Z.of_nat (length (out_msgs s)))
    (orig_status s) end_st (tx_in_msg u) (map om_cell (out_msgs s)) (total_fees s) state_update
    (tx_info u).

(** [build_uncommitted]: a stub state update. *)
Definition build_uncommitted (original : ShardAccount) (u : UncommittedTransaction) : TransactionRecord :=
  build_transaction original u (end_status (exec u)) (hash_zero, hash_zero).

(** The previous storage of the account, skipping the address. *)
Definition prev_account_storage (original : ShardAccount)
    : result Error (option (StorageUsed * OwnedCellSlice)) :=
  let? (exists_, cs) := load_bit (new_allow_exotic (sh_cell original)) in
  if exists_ then
    let? (_, cs) := load_int_addr cs in
    let? (info, cs) := load_storage_info cs in
    Ok (Some (storage_used info, cs))
  else Ok None.

(** The part of the account that counts for the statistics. *)
Definition account_storage (s : ExecutorState) (state : AccountState) : result Error CellBuilder :=
  let? b := store_uint builder_new (end_lt s) 64 in
  let? b := store_currency b (balance s) in
  store_account_state b state.

Definition account_cell (s : ExecutorState) (storage : OwnedCellSlice) : result Error Cell :=
  let? b := store_uint builder_new 1 1 in
  let? b := store_int_addr b (AddrStd (address s)) in
  let? b := store_storage_info b (storage_stat s) in
  let? b := store_slice b storage in
  builder_build b.

Definition no_account_cell : result Error Cell :=
  let? b := store_uint builder_new 0 1 in builder_build b.

(** The new account: its cell, the brief description and the final status. *)
Definition commit_account (original : ShardAccount) (s : ExecutorState)
    : result Error (Cell * AccountMeta * AccountStatus) :=
  let? state := build_account_state s in
  match state with
  | None =>
      let? c := no_account_cell in
      Ok (c, mkMeta cc_zero libs_new false, StNotExists)
  | Some state =>
      let? prev := prev_account_storage original in
      let? storage := account_storage s state in
      let storage := as_full_slice storage in
      let? (used, _) := compute_storage_used prev storage (cached_storage_stat s)
                          (strict_extra_currency params) in
      let st := storage_stat s in
      let s := set_storage_stat (mkStorage used (last_paid st) (due_payment st)) s in
      let? c := account_cell s storage in
      let libs := match state with AccActive st => si_libraries st | _ => libs_new end in
      Ok (c, mkMeta (balance s) libs true, status state)
  end.

Definition commit (original : ShardAccount) (u : UncommittedTransaction) : result Error ExecutorOutput :=
  let s := exec u in
  let? (account, meta, end_st) := commit_account original s in
  let tx := build_transaction original u end_st (repr_hash (sh_cell original), repr_hash account) in
  Ok (mkOutput account (start_lt s) meta tx
        (mkTxMeta (total_fees s) (end_lt s) (out_msgs s) (tx_gas_used u)) (burned s)).
End Transaction.
