(* ===== verification/ConfigSpec.v ===== *)
(** * Gas and storage prices

    The gas a balance buys is the greatest amount it pays for; the storage fees are the
    sum of the prices in force at each second; and the gas parameters of a transaction
    stay within what the account can pay. *)

From S2P Require Import Prelude External Values VmGas Cells Models SmcInfo ExecConfig ExecUtil.

Open Scope vm_scope.

#[local] Ltac Zify.zify_post_hook ::= Z.to_euclidean_division_equations.

Lemma shift_ceil_price_spec v : 0 <= v -> shift_ceil_price v = (v + 65535) / 65536.
Proof.
  intros Hv. unfold shift_ceil_price.
  change (Z.land v 0xffff) with (Z.land v (Z.ones 16)). rewrite Z.land_ones, Z.shiftr_div_pow2 by lia.
  change (2 ^ 16) with 65536. destruct (Z.eqb_spec (v mod 65536) 0); cbn [negb Z.b2z]; lia.
Qed.

Lemma shift_ceil_price_bound v : 0 <= v <= U128_MAX -> 0 <= shift_ceil_price v <= TOKENS_MAX.
Proof. intros Hv. rewrite shift_ceil_price_spec by lia. unfold TOKENS_MAX. unfold_widths. lia. Qed.

Lemma shift_ceil_price_lt v x : 0 <= v -> x < shift_ceil_price v <-> x * 65536 < v.
Proof. intros Hv. rewrite shift_ceil_price_spec by done. lia. Qed.

Lemma shift_ceil_price_le v x : 0 <= v -> shift_ceil_price v <= x <-> v <= x * 65536.
Proof. intros Hv. pose proof (shift_ceil_price_lt v x Hv). lia. Qed.

(** ** Gas bought *)

(** Prices are [u64]. *)
Record prices_ok (p : GasLimitsPrices) : Prop := {
  ok_gas_price : 0 <= gp_gas_price p <= U64_MAX;
  ok_gas_limit : 0 <= gp_gas_limit p <= U64_MAX;
  ok_special_limit : 0 <= gp_special_gas_limit p <= U64_MAX;
  ok_gas_credit : 0 <= gp_gas_credit p <= U64_MAX;
  ok_flat_limit : 0 <= gp_flat_gas_limit p <= U64_MAX;
  ok_flat_price : 0 <= gp_flat_gas_price p <= U64_MAX
}.

Section Gas.
Implicit Types (p : GasLimitsPrices).

(** What [gas_bought_for] computes when nothing overflows: the threshold is the fee of
    the whole limit, and the bought gas the inverse of the fee below it. *)
Lemma fee_beyond p g : prices_ok p -> gp_flat_gas_limit p <= g <= U64_MAX ->
  gas_fee_spec p g
  = gp_flat_gas_price p + shift_ceil_price (gp_gas_price p * (g - gp_flat_gas_limit p)).
Proof.
  intros [] Hg. unfold gas_fee_spec. case_bool; [lia|]. by rewrite shift_ceil_price_spec by nia.
Qed.

Lemma fee_flat p g : g <= gp_flat_gas_limit p -> gas_fee_spec p g = gp_flat_gas_price p.
Proof.
  intros Hg. unfold gas_fee_spec. case_bool; [done|].
  replace (g - gp_flat_gas_limit p) with 0 by lia. rewrite Z.mul_0_r. cbn. lia.
Qed.

Lemma fee_lower p g : prices_ok p -> 0 <= g -> gp_flat_gas_price p <= gas_fee_spec p g.
Proof.
  intros [] Hg. unfold gas_fee_spec. case_bool; [lia|].
  assert (0 <= gp_gas_price p * (g - gp_flat_gas_limit p)) by nia. lia.
Qed.

(** The product of two [u64] fits in [u128]. *)
Lemma product_bound a b : 0 <= a <= U64_MAX -> 0 <= b <= U64_MAX -> 0 <= a * b < 2 ^ 128 - 2 ^ 64.
Proof. unfold_widths. nia. Qed.

(** The gas above the flat limit that [x] pays for. *)
Lemma pays_for price x g : 0 < price -> 0 <= x -> 0 <= g ->
  shift_ceil_price (price * g) <= x <-> g <= x * 65536 / price.
Proof.
  intros Hp Hx Hg. rewrite shift_ceil_price_le by nia. split; intros H.
  - apply Z.div_le_lower_bound; lia.
  - pose proof (Z.mul_div_le (x * 65536) price Hp). nia.
Qed.

(** Below the threshold the [u128] arithmetic is exact. *)
Lemma below_threshold p b : prices_ok p -> gp_flat_gas_price p <= b ->
  gp_flat_gas_limit p < gp_gas_limit p -> gp_gas_price p <> 0 ->
  b < sat_add_u128 (shift_ceil_price (gp_gas_price p * (gp_gas_limit p - gp_flat_gas_limit p)))
        (gp_flat_gas_price p) ->
  let n := (b - gp_flat_gas_price p) * 65536 / gp_gas_price p in
  wrap_u 128 (Z.shiftl (b - gp_flat_gas_price p) 16) / gp_gas_price p = n /\
  0 <= n < gp_gas_limit p - gp_flat_gas_limit p.
Proof.
  intros [] Hb Hl Hp H n.
  set (d := gp_gas_limit p - gp_flat_gas_limit p) in *.
  pose proof (product_bound (gp_gas_price p) d ltac:(lia) ltac:(unfold d; lia)) as Hd.
  assert ((b - gp_flat_gas_price p) * 65536 < gp_gas_price p * d) as Hlt.
  { apply shift_ceil_price_lt; [lia|]. unfold sat_add_u128 in H. lia. }
  rewrite Z.shiftl_mul_pow2 by lia. change (2 ^ 16) with 65536.
  unfold wrap_u. rewrite Z.mod_small by lia. split; [done|]. split; [apply Z.div_pos; lia|].
  apply Z.div_lt_upper_bound; lia.
Qed.

(** The gas bought, in mathematical integers. *)
Definition bought_spec p (b : Z) : Z :=
  if b <? gp_flat_gas_price p then 0
  else if (gp_gas_limit p <=? gp_flat_gas_limit p) || (gp_gas_price p =? 0) then gp_gas_limit p
  else Z.min (gp_gas_limit p)
         (gp_flat_gas_limit p + (b - gp_flat_gas_price p) * 65536 / gp_gas_price p).

Lemma gas_bought_for_spec p b : prices_ok p -> 0 < b <= TOKENS_MAX ->
  gas_bought_for p b = bought_spec p b.
Proof.
  intros Hp Hb. pose proof Hp as []. unfold gas_bought_for, bought_spec.
  destruct (Z.eqb_spec b 0); [lia|]. destruct (Z.ltb_spec b (gp_flat_gas_price p)); [done|].
  cbn [orb].
  destruct (Z.ltb_spec (gp_flat_gas_limit p) (gp_gas_limit p)) as [Hl|Hl].
  2:{ destruct (Z.leb_spec (gp_gas_limit p) (gp_flat_gas_limit p)); [|lia].
      by destruct (Z.leb_spec (gp_flat_gas_price p) b); [|lia]. }
  destruct (Z.leb_spec (gp_gas_limit p) (gp_flat_gas_limit p)); [lia|]. cbn [orb].
  destruct (Z.eqb_spec (gp_gas_price p) 0) as [E|Hp0]; [by rewrite orb_true_r|]. rewrite orb_false_r.
  match goal with |- context [?t <=? b] => destruct (Z.leb_spec t b) as [Ht|Ht] end.
  - set (d := gp_gas_limit p - gp_flat_gas_limit p) in *.
    pose proof (product_bound (gp_gas_price p) d ltac:(lia) ltac:(unfold d; lia)) as Hd.
    assert (shift_ceil_price (gp_gas_price p * d) <= b - gp_flat_gas_price p) as Hle.
    { assert (shift_ceil_price (gp_gas_price p * d) <= 2 ^ 112) by (apply shift_ceil_price_le; lia).
      unfold sat_add_u128 in Ht. unfold_widths. lia. }
    rewrite pays_for in Hle by (unfold d; lia). fold d in Hle. unfold d in *. lia.
  - destruct (below_threshold p b Hp ltac:(lia) Hl Hp0 Ht) as [-> Hn].
    unfold sat_add_u128. unfold_widths. rewrite Z.min_r by lia.
    case_bool; lia.
Qed.

(** The bought gas is what the balance pays for. *)
Lemma bought_spec_range p b : prices_ok p -> 0 <= bought_spec p b <= gp_gas_limit p.
Proof.
  intros []. unfold bought_spec. destruct (Z.ltb_spec b (gp_flat_gas_price p)); [lia|].
  destruct (_ || _) eqn:E; [lia|]. zify_bool.
  pose proof (Z.div_pos ((b - gp_flat_gas_price p) * 65536) (gp_gas_price p) ltac:(lia) ltac:(lia)). lia.
Qed.

Lemma bought_pays p b g : prices_ok p -> gp_flat_gas_price p <= b -> 0 <= g <= gp_gas_limit p ->
  gas_fee_spec p g <= b <-> g <= bought_spec p b.
Proof.
  intros Hp Hb Hg. pose proof Hp as []. unfold bought_spec.
  destruct (Z.ltb_spec b (gp_flat_gas_price p)); [lia|].
  destruct (Z.leb_spec (gp_gas_limit p) (gp_flat_gas_limit p)); cbn [orb].
  { rewrite fee_flat by lia. lia. }
  destruct (Z.leb_spec g (gp_flat_gas_limit p)).
  { rewrite fee_flat by lia. destruct (Z.eqb_spec (gp_gas_price p) 0); [lia|].
    pose proof (Z.div_pos ((b - gp_flat_gas_price p) * 65536) (gp_gas_price p) ltac:(lia) ltac:(lia)).
    lia. }
  rewrite fee_beyond by (done || lia).
  destruct (Z.eqb_spec (gp_gas_price p) 0) as [E|Hp0].
  { rewrite E, Z.mul_0_l. change (shift_ceil_price 0) with 0. lia. }
  pose proof (pays_for (gp_gas_price p) (b - gp_flat_gas_price p) (g - gp_flat_gas_limit p)
    ltac:(lia) ltac:(lia) ltac:(lia)). lia.
Qed.
End Gas.

(** ** Storage fees *)

(** A sum over the seconds [from], [from + 1], .., [from + n - 1]. *)
Fixpoint sum_seconds (f : Z -> Z) (from : Z) (n : nat) : Z :=
  match n with O => 0 | S n => f from + sum_seconds f (from + 1) n end.

Definition sum_between (f : Z -> Z) (from upto : Z) : Z := sum_seconds f from (Z.to_nat (upto - from)).

Lemma sum_between_empty f from upto : upto <= from -> sum_between f from upto = 0.
Proof. intros H. unfold sum_between. by replace (Z.to_nat (upto - from)) with O by lia. Qed.

Lemma sum_seconds_app f from m n :
  sum_seconds f from (m + n) = sum_seconds f from m + sum_seconds f (from + Z.of_nat m) n.
Proof.
  revert from. induction m as [|m IH]; intros from; cbn [sum_seconds Nat.add].
  - by rewrite Z.add_0_r.
  - rewrite IH. replace (from + 1 + Z.of_nat m) with (from + Z.of_nat (S m)) by lia. lia.
Qed.

Lemma sum_between_split f a b c : a <= b <= c ->
  sum_between f a c = sum_between f a b + sum_between f b c.
Proof.
  intros H. unfold sum_between.
  replace (Z.to_nat (c - a)) with (Z.to_nat (b - a) + Z.to_nat (c - b))%nat by lia.
  rewrite sum_seconds_app. by replace (a + Z.of_nat (Z.to_nat (b - a))) with b by lia.
Qed.

Lemma sum_between_ext f g a b : (forall t, a <= t < b -> f t = g t) ->
  sum_between f a b = sum_between g a b.
Proof.
  unfold sum_between. intros H. remember (Z.to_nat (b - a)) as n eqn:En.
  assert (forall t, a <= t < a + Z.of_nat n -> f t = g t) as H' by (intros; apply H; lia).
  clear En H. revert a H'. induction n as [|n IH]; intros a H; cbn; [done|].
  rewrite H by lia. by rewrite IH by (intros; apply H; lia).
Qed.

Lemma sum_between_const k a b : a <= b -> sum_between (fun _ => k) a b = k * (b - a).
Proof.
  unfold sum_between. intros H. remember (Z.to_nat (b - a)) as n eqn:En.
  assert (b - a = Z.of_nat n) as -> by lia. clear En H.
  revert a. induction n as [|n IH]; intros a; cbn [sum_seconds]; [lia|]. rewrite IH. lia.
Qed.

Lemma sum_between_nonneg f a b : (forall t, 0 <= f t) -> 0 <= sum_between f a b.
Proof.
  intros Hf. unfold sum_between. generalize (Z.to_nat (b - a)). intros n. revert a.
  induction n as [|n IH]; intros a; cbn; [lia|]. pose proof (Hf a). specialize (IH (a + 1)). lia.
Qed.

(** What a segment costs per second. *)
Definition rate (mc : bool) (used : StorageUsed) (p : StoragePrices) : Z :=
  (get_prices mc p).1 * used_bits used + (get_prices mc p).2 * used_cells used.

(** The price of the second [t]: of the last segment that has begun. *)
Definition rate_at (mc : bool) (used : StorageUsed) (segments : list StoragePrices) (t : Z) : Z :=
  foldl (fun r p => if utime_since p <=? t then rate mc used p else r) 0 segments.

(** The same, from the newest segment. *)
Fixpoint rate_desc (mc : bool) (used : StorageUsed) (segments : list StoragePrices) (t : Z) : Z :=
  match segments with
  | [] => 0
  | p :: l => if utime_since p <=? t then rate mc used p else rate_desc mc used l t
  end.

Lemma rate_desc_rev mc used l t : rate_desc mc used (rev l) t = rate_at mc used l t.
Proof.
  unfold rate_at. induction l as [|p l IH] using rev_ind; [done|].
  rewrite rev_app_distr, foldl_app. cbn. by rewrite IH.
Qed.

(** Storage of less than [2^56] bits and cells at [u64] prices. *)
Record segment_ok (p : StoragePrices) : Prop := {
  seg_bit : 0 <= bit_price_ps p <= U64_MAX;
  seg_cell : 0 <= cell_price_ps p <= U64_MAX;
  seg_mc_bit : 0 <= mc_bit_price_ps p <= U64_MAX;
  seg_mc_cell : 0 <= mc_cell_price_ps p <= U64_MAX
}.
Record used_ok (u : StorageUsed) : Prop := {
  used_bits_ok : 0 <= used_bits u < 2 ^ 56;
  used_cells_ok : 0 <= used_cells u < 2 ^ 56
}.

Lemma rate_bound mc used p : segment_ok p -> used_ok used -> 0 <= rate mc used p <= U128_MAX.
Proof. intros [] []. unfold rate, get_prices. unfold_widths. destruct mc; cbn; nia. Qed.

Lemma segment_fee_spec mc used p delta : segment_ok p -> used_ok used -> 0 <= delta ->
  segment_fee mc used p delta = Z.min U128_MAX (rate mc used p * delta).
Proof.
  intros Hp Hu Hd. pose proof (rate_bound mc used p Hp Hu) as Hr.
  unfold segment_fee, sat_mul_u128, sat_add_u128, rate in *.
  destruct (get_prices mc p) as [b c]; cbn in *. by rewrite (Z.min_r U128_MAX (_ + _)) by lia.
Qed.

Lemma rate_desc_nonneg mc used l t : Forall segment_ok l -> used_ok used ->
  0 <= rate_desc mc used l t.
Proof.
  intros Hl Hu. induction Hl as [|p l Hp Hl IH]; cbn; [done|].
  case_bool; [|done]. by pose proof (rate_bound mc used p Hp Hu); lia.
Qed.

(** The loop adds the sum over the seconds still unpaid. *)
Lemma segments_loop_spec mc used lp l upto total : Forall segment_ok l -> used_ok used ->
  lp <= upto -> 0 <= total <= U128_MAX ->
  segments_loop mc used lp l upto total
  = Z.min U128_MAX (total + sum_between (rate_desc mc used l) lp upto).
Proof.
  intros Hl Hu. revert upto total. induction Hl as [|p l Hp Hl IH]; intros upto total Hlp Ht.
  - change (rate_desc mc used []) with (fun _ : Z => 0).
    rewrite sum_between_const by done. cbn [segments_loop]. lia.
  - cbn [segments_loop]. destruct (Z.ltb_spec upto (utime_since p)) as [Hs|Hs].
    + rewrite IH by done. do 2 f_equal. apply sum_between_ext. intros t Hr. cbn. case_bool; [lia|done].
    + set (m := Z.max (utime_since p) lp).
      rewrite (segment_fee_spec _ _ _ _ Hp Hu) by (unfold m; lia).
      pose proof (rate_bound mc used p Hp Hu) as Hr.
      assert (sum_between (rate_desc mc used (p :: l)) lp upto
              = sum_between (rate_desc mc used l) lp m + rate mc used p * (upto - m)) as ->.
      { rewrite (sum_between_split _ lp m upto) by (unfold m; lia). f_equal.
        - destruct (Z.le_gt_cases (utime_since p) lp).
          + rewrite !sum_between_empty by (unfold m; lia). done.
          + apply sum_between_ext. intros t Hrt. cbn. case_bool; [unfold m in *; lia | done].
        - rewrite <- sum_between_const by (unfold m; lia). apply sum_between_ext.
          intros t Hrt. cbn. case_bool; [done | unfold m in *; lia]. }
      assert (0 <= rate mc used p * (upto - m)) as Hfee by (unfold m in *; nia).
      unfold sat_add_u128.
      destruct (Z.leb_spec (utime_since p) lp) as [Hstop|Hgo].
      * rewrite (sum_between_empty _ lp m) by (unfold m; lia). lia.
      * rewrite IH by (unfold_widths; lia). replace m with (utime_since p) by (unfold m; lia).
        pose proof (sum_between_nonneg (rate_desc mc used l) lp (utime_since p)
          ltac:(intros; by apply rate_desc_nonneg)). lia.
Qed.

Section Theorems.
Context `{ML : ModelLib}.

(** C21: The gas a positive balance buys is the greatest amount, up to the gas limit, whose
    fee the balance can pay; a balance below the flat price buys none.  The 128-bit
    shift in the code loses no bits. *)
Theorem gas_bought_is_greatest `{Laws : !ModelLaws} (p : GasLimitsPrices) (b : Z)
    (Hp : prices_ok p) (Hb : 0 < b <= TOKENS_MAX) :
  let g := gas_bought_for p b in
  0 <= g <= gp_gas_limit p /\
  (b < gp_flat_gas_price p -> g = 0) /\
  (gp_flat_gas_price p <= b ->
     compute_gas_fee p g <= b /\
     forall g', 0 <= g' <= gp_gas_limit p -> compute_gas_fee p g' <= b -> g' <= g).
Proof.
  cbn zeta. rewrite gas_bought_for_spec by done. pose proof (bought_spec_range p b Hp) as Hr.
  assert (forall g, 0 <= g <= gp_gas_limit p -> compute_gas_fee p g = gas_fee_spec p g) as Hfee
    by (intros; destruct Hp; apply gas_fee_ok; lia).
  split; [done|]. split.
  { intros H. unfold bought_spec. by destruct (Z.ltb_spec b (gp_flat_gas_price p)); [|lia]. }
  intros H. split; [rewrite Hfee by done; by apply bought_pays|].
  intros g' Hg'. rewrite Hfee by done. by apply bought_pays.
Qed.

(** C22: The storage fee is the sum, over every second since the account last paid, of the
    price in force at that second (the last segment that had begun), saturated to 128
    bits and rounded up from fixed point; special and new accounts pay nothing. *)
Theorem storage_fees_sum_seconds (c : ParsedConfig) (stat : StorageInfo) (now : Z) (mc : bool)
    (Hseg : Forall segment_ok (storage_prices c))
    (Hfirst : match storage_prices c with
              | [] => True
              | p :: l => Forall (fun q => utime_since p <= utime_since q) l
              end)
    (Hused : used_ok (storage_used stat)) :
  compute_storage_fees c stat now true mc = 0 /\
  compute_storage_fees c stat now false mc =
    (if last_paid stat =? 0 then 0
     else shift_ceil_price (Z.min U128_MAX
            (sum_between (rate_at mc (storage_used stat) (storage_prices c)) (last_paid stat) now))).
Proof.
  unfold compute_storage_fees. split; [by rewrite orb_true_r|]. rewrite orb_false_r.
  destruct (Z.eqb_spec (last_paid stat) 0); [by rewrite orb_true_r|]. rewrite orb_false_r.
  set (f := rate_at _ _ _).
  assert (sum_between f (last_paid stat) now
          = sum_between (rate_desc mc (storage_used stat) (rev (storage_prices c))) (last_paid stat) now)
    as Hf by (apply sum_between_ext; intros; by rewrite rate_desc_rev).
  destruct (Z.leb_spec now (last_paid stat)); [by rewrite sum_between_empty|].
  destruct (storage_prices c) as [|p l] eqn:Ep.
  { rewrite Hf. change (rate_desc _ _ (rev [])) with (fun _ : Z => 0).
    rewrite sum_between_const by lia. done. }
  destruct (Z.leb_spec now (utime_since p)) as [Hold|Hold].
  - assert (sum_between f (last_paid stat) now = 0) as ->; [|done].
    rewrite (sum_between_ext f (fun _ => 0)), sum_between_const; [lia|lia|].
    intros t Ht. unfold f, rate_at. change (foldl ?g 0 (p :: l)) with (foldl g (g 0 p) l).
    cbn beta. destruct (Z.leb_spec (utime_since p) t); [lia|].
    clear - Hfirst Ht Hold. induction Hfirst as [|q l Hq _ IH]; cbn; [done|].
    destruct (Z.leb_spec (utime_since q) t); [lia | done].
  - rewrite segments_loop_spec, Z.add_0_l, Hf; [done| |done|lia|unfold_widths; lia].
    by apply Forall_rev.
Qed.
End Theorems.

(** * Statistics of cell trees

    [add_cell] visits every distinct cell of a tree once: the recursion never runs out of
    fuel, the counters are the number and the bits of the distinct cells, and it refuses
    exactly what exceeds the limits. *)

Section Stat.
Context `{Laws : ModelLaws}.
Implicit Types (c d : Cell) (u p : list Cell) (st : ExtStorageStat).

(** [d] is [c] or a cell below it. *)
Definition child c d : Prop := d ∈ references c.
Definition below : relation Cell := rtc child.

Lemma below_depth c d : below c d -> d = c \/ repr_depth d < repr_depth c.
Proof.
  induction 1 as [c|c c' d Hc _ IH]; [by left|]. right.
  pose proof (references_depth _ _ Hc). destruct IH as [->|]; lia.
Qed.

Definition total_bits (l : list Cell) : Z := foldr (fun c n => bit_len c + n) 0 l.

Lemma total_bits_app l l' : total_bits (l ++ l') = total_bits l + total_bits l'.
Proof. unfold total_bits. induction l as [|c l IH]; cbn; [done|]. rewrite IH. lia. Qed.

Lemma total_bits_nonneg l : 0 <= total_bits l.
Proof.
  unfold total_bits. induction l as [|c l IH]; cbn; [done|]. pose proof (bit_len_nonneg c). lia.
Qed.

Lemma total_bits_perm l l' : l ≡ₚ l' -> total_bits l = total_bits l'.
Proof. unfold total_bits. induction 1; cbn; lia. Qed.

(** The cells the statistics are about: [repr_hash] tells them apart, and they have no
    Merkle proofs. *)
Context (world : Cell -> Prop).
Hypothesis world_child : forall c d, world c -> child c d -> world d.
Hypothesis world_hash : forall c d, world c -> world d -> repr_hash c = repr_hash d -> c = d.
Hypothesis world_merkle : forall c, world c -> is_merkle (cell_type c) = false.

Lemma world_below c d : world c -> below c d -> world d.
Proof. intros Hc. induction 1; eauto. Qed.

(** The cells [u] are done and the cells [p] are being visited. *)
Record counted st u p : Prop := {
  ct_nodup : NoDup (u ++ p);
  ct_world : Forall world (u ++ p);
  ct_visited : forall h, visited st !! h = if bool_decide (h ∈ map repr_hash u) then Some 0 else None;
  ct_closed : forall c d, c ∈ u -> child c d -> d ∈ u;
  ct_cells : cells st = Z.of_nat (length (u ++ p));
  ct_bits : bits st = total_bits (u ++ p);
  ct_fits : within_limits st = true
}.

(** A set of distinct cells below [roots], or done before, that exceeds the limits. *)
Definition too_big (lim : StorageStatLimits) (roots u p : list Cell) : Prop :=
  exists l, NoDup l /\ (forall d, d ∈ l -> d ∈ u ++ p \/ exists c, c ∈ roots /\ below c d) /\
    (lim_cell_count lim < Z.of_nat (length l) \/ lim_bit_count lim < total_bits l).

Definition limits_ok (lim : StorageStatLimits) : Prop :=
  0 <= lim_cell_count lim <= U32_MAX /\ 0 <= lim_bit_count lim <= U32_MAX.

(** The outcome of visiting [roots]. *)
Definition visits (roots : list Cell) u p st (r : result StatError Z * ExtStorageStat) : Prop :=
  limits r.2 = limits st /\
  match r.1 with
  | Ok d => d = 0 /\ exists n, counted r.2 (u ++ n) p /\
      (forall c, c ∈ roots -> c ∈ u ++ n) /\ (forall d, d ∈ n -> exists c, c ∈ roots /\ below c d)
  | Err Exceeded => too_big (limits st) roots u p
  | Err OutOfFuel => False
  end.

Lemma too_big_weaken lim roots roots' u u' p p' :
  (forall d, d ∈ u ++ p -> d ∈ u' ++ p' \/ exists c, c ∈ roots' /\ below c d) ->
  (forall c, c ∈ roots -> exists c', c' ∈ roots' /\ below c' c) ->
  too_big lim roots u p -> too_big lim roots' u' p'.
Proof.
  intros Hu Hr (l & Hn & Hl & Hb). exists l. split; [done|]. split; [|done].
  intros d Hd. destruct (Hl d Hd) as [H|(c & Hc & Hcd)]; [by apply Hu|].
  right. destruct (Hr c Hc) as (c' & Hc' & H). exists c'. split; [done|]. by etrans.
Qed.

(** A new cell is counted before its children. *)
Definition pushed st c : ExtStorageStat :=
  set_bits (bits st + bit_len c) (set_cells (cells st + 1) st).

Lemma counted_push st u p c : counted st u p -> world c -> c ∉ u ++ p ->
  within_limits (pushed st c) = true -> counted (pushed st c) u (p ++ [c]).
Proof.
  intros [Hn Hw Hv Hc Hce Hb _] Hwc Hnew Hf. rewrite elem_of_app in Hnew.
  split; cbn; rewrite ?app_assoc; try done.
  - apply NoDup_app. split; [done|]. split; [|apply NoDup_singleton].
    intros x Hx ->%list_elem_of_singleton. apply Hnew. by apply elem_of_app.
  - apply Forall_app. split; [done|]. by apply Forall_singleton.
  - rewrite Hce, (length_app (u ++ p)). cbn. lia.
  - rewrite Hb, (total_bits_app (u ++ p)). cbn. lia.
Qed.

(** A visited cell moves to the cells done. *)
Lemma counted_done st u p c : counted st u (p ++ [c]) -> (forall d, child c d -> d ∈ u) ->
  counted (set_visited (repr_hash c) 0 st) (u ++ [c]) p.
Proof.
  intros [Hn Hw Hv Hc Hce Hb Hf] Hch.
  assert (u ++ p ++ [c] ≡ₚ (u ++ [c]) ++ p) as HP.
  { rewrite <- app_assoc. apply Permutation_app_head, Permutation_app_comm. }
  split; cbn.
  - by rewrite <- HP.
  - by rewrite <- HP.
  - intros h. rewrite map_app, lookup_insert, Hv. cbn.
    repeat case_decide; repeat case_bool_decide; try done; set_solver.
  - intros a d. rewrite !elem_of_app, list_elem_of_singleton. intros [Ha| ->] Hd; left; eauto.
  - by rewrite Hce, HP.
  - rewrite Hb. by apply total_bits_perm.
  - exact Hf.
Qed.

Lemma seen_cell st u p c : counted st u p -> world c ->
  visited st !! repr_hash c = if bool_decide (c ∈ u) then Some 0 else None.
Proof.
  intros [_ Hw Hv _ _ _ _] Hc. rewrite Hv.
  assert (repr_hash c ∈ map repr_hash u <-> c ∈ u) as E.
  { rewrite list_elem_of_fmap. split; [|eauto]. intros (d & Hh & Hd).
    assert (c = d) as ->; [|done]. apply world_hash; [done| |done].
    apply Forall_app in Hw as [Hw _]. by eapply Forall_forall in Hw. }
  by rewrite (bool_decide_ext _ _ E).
Qed.

(** The loop over the children. *)
Lemma visits_children (rec : Cell -> StatM Z) cs u p st :
  (forall c u st, c ∈ cs -> world c -> counted st u p -> limits_ok (limits st) ->
    visits [c] u p st (rec c st)) ->
  limits_ok (limits st) -> Forall world cs -> counted st u p ->
  visits cs u p st (add_children rec cs 0 st).
Proof.
  revert u st. induction cs as [|c cs IH]; intros u st Hrec Hlim Hw K; cbn [add_children].
  - split; [done|]. cbn. split; [done|]. exists []. rewrite app_nil_r. split; [done|]. set_solver.
  - inversion Hw as [|? ? Hwc Hwcs]; subst.
    pose proof (Hrec c u st ltac:(set_solver) Hwc K Hlim) as [Hl H]. unfold bind.
    destruct (rec c st) as [[d|[]] st1]; cbn [fst snd] in *; [|split; [done|]|done].
    2:{ revert H. apply too_big_weaken; [by left|]. intros x ->%list_elem_of_singleton.
        exists c. split; [set_solver | reflexivity]. }
    destruct H as (-> & n & K1 & Hin & Hn). rewrite Z.max_id.
    destruct (IH (u ++ n) st1) as [Hl2 H2]; [|by rewrite Hl|done|done|].
    { intros x u' st' Hx. apply Hrec. set_solver. }
    split; [congruence|]. destruct (add_children rec cs 0 st1) as [[d|[]] st2]; cbn [fst snd] in *; [| |done].
    + destruct H2 as (-> & n2 & K2 & Hin2 & Hn2). split; [done|]. exists (n ++ n2).
      rewrite app_assoc. split; [done|]. split.
      * intros x [->|Hx]%elem_of_cons; [|by apply Hin2].
        specialize (Hin c ltac:(set_solver)). set_solver.
      * intros x [Hx|Hx]%elem_of_app.
        -- destruct (Hn x Hx) as (y & ->%list_elem_of_singleton & Hy). exists c. split; [set_solver | done].
        -- destruct (Hn2 x Hx) as (y & Hy & ?). exists y. split; [set_solver | done].
    + rewrite Hl in H2. revert H2. apply too_big_weaken.
      * intros x. rewrite !elem_of_app. intros [[Hx|Hx]|Hx]; [by left; left| |by left; right].
        right. destruct (Hn x Hx) as (y & ->%list_elem_of_singleton & Hy).
        exists c. split; [set_solver | done].
      * intros x Hx. exists x. split; [set_solver | reflexivity].
Qed.

(** A cell that does not fit. *)
Lemma too_big_push st u p c : counted st u p -> c ∉ u ++ p -> limits_ok (limits st) ->
  lim_cell_count (limits st) < cells st + 1 \/ lim_bit_count (limits st) < bits st + bit_len c ->
  too_big (limits st) [c] u p.
Proof.
  intros K Hnew Hl H. exists (u ++ p ++ [c]). rewrite !app_assoc. split.
  { apply NoDup_app. split; [apply K|]. split; [|apply NoDup_singleton].
    by intros x Hx ->%list_elem_of_singleton. }
  split.
  - intros d. rewrite (elem_of_app (u ++ p)), list_elem_of_singleton.
    intros [Hd| ->]; [by left|]. right. exists c. split; [set_solver | reflexivity].
  - rewrite (length_app (u ++ p)), (total_bits_app (u ++ p)), <- (ct_bits _ _ _ K).
    rewrite Nat2Z.inj_add, <- (ct_cells _ _ _ K). cbn. lia.
Qed.

(** A new cell is counted if it fits. *)
Lemma add_new_cell n c st : visited st !! repr_hash c = None -> limits_ok (limits st) ->
  0 <= cells st -> 0 <= bits st -> is_merkle (cell_type c) = false ->
  (exists st', limits st' = limits st /\ add_cell_impl (S n) c st = (Err Exceeded, st') /\
    (lim_cell_count (limits st) < cells st + 1 \/ lim_bit_count (limits st) < bits st + bit_len c)) \/
  (within_limits (pushed st c) = true /\
   add_cell_impl (S n) c st = bind (add_children (add_cell_impl n) (references c) 0) (fun k : Z =>
     let k := Z.min 255 (k + 0) in
     modify (set_visited (repr_hash c) k) ;; ensure (k <=? MAX_ALLOWED_MERKLE_DEPTH) Exceeded ;;
     ret k) (pushed st c)).
Proof.
  intros Hv [Hlc Hlb] Hc Hb Hm. pose proof (bit_len_nonneg c) as Hl.
  cbn [add_cell_impl]. rewrite (bind_ok _ _ st (visited st !! repr_hash c) st), Hv by done.
  rewrite (bind_ok _ _ st (cells st) st) by done. unfold checked_add_u32, to_u32, to_range.
  destruct ((0 <=? cells st + 1) && (cells st + 1 <=? U32_MAX)) eqn:H1.
  2:{ left. eexists. split; [|split; [reflexivity|]]; [done|]. zify_bool. lia. }
  rewrite (bind_ok _ _ st (cells st + 1) st), (bind_ok _ _ st tt (set_cells (cells st + 1) st)) by done.
  erewrite (bind_ok (gets bits)) by reflexivity. cbn [bits set_cells].
  destruct ((0 <=? bits st + bit_len c) && (bits st + bit_len c <=? U32_MAX)) eqn:H2.
  2:{ left. eexists. split; [|split; [reflexivity|]]; [done|]. zify_bool. lia. }
  erewrite bind_ok by reflexivity. rewrite (bind_ok _ _ _ tt (pushed st c)) by done.
  rewrite (bind_ok _ _ _ (within_limits (pushed st c)) (pushed st c)) by done.
  destruct (within_limits (pushed st c)) eqn:Hf.
  - right. split; [done|]. rewrite (bind_ok _ _ _ tt (pushed st c)) by done. by rewrite Hm.
  - left. exists (pushed st c). split; [done|]. split; [done|].
    unfold within_limits, pushed in Hf. cbn in Hf. zify_bool. lia.
Qed.

(** One cell: the recursion visits what is below it. *)
Lemma visits_cell n c u p st : (Z.to_nat (repr_depth c) < n)%nat -> world c -> counted st u p ->
  limits_ok (limits st) -> (forall q, q ∈ p -> repr_depth c < repr_depth q) ->
  visits [c] u p st (add_cell_impl n c st).
Proof.
  revert c u p st. induction n as [|n IH]; intros c u p st Hn Hwc K Hlim Hdeep; [lia|].
  case (bool_decide_reflect (c ∈ u)) as [Hin|Hin].
  { cbn [add_cell_impl]. rewrite (bind_ok _ _ st (visited st !! repr_hash c) st) by done.
    rewrite (seen_cell st u p c K Hwc), bool_decide_true by done.
    split; [done|]. split; [done|]. exists []. rewrite app_nil_r. split; [done|]. split; set_solver. }
  assert (c ∉ u ++ p) as Hnew.
  { rewrite elem_of_app. intros [H|H]; [done|]. specialize (Hdeep c H). lia. }
  destruct (add_new_cell n c st) as [(st' & Hl & -> & Hbig)|[Hf ->]]; [|done|..].
  { by rewrite (seen_cell st u p c K Hwc), bool_decide_false. }
  { rewrite (ct_cells _ _ _ K). lia. }
  { rewrite (ct_bits _ _ _ K). apply total_bits_nonneg. }
  { by apply world_merkle. }
  { split; [done|]. by apply (too_big_push st u p c). }
  pose proof (counted_push st u p c K Hwc Hnew Hf) as K1.
  destruct (visits_children (add_cell_impl n) (references c) u (p ++ [c]) (pushed st c)) as [Hl H];
    [ |exact Hlim| |exact K1|].
  { intros d u' st' Hd Hwd K' Hlim'. pose proof (references_depth _ _ Hd). apply IH; [lia|done..|].
    intros q [Hq| ->%list_elem_of_singleton]%elem_of_app; [|lia]. specialize (Hdeep q Hq). lia. }
  { apply Forall_forall. intros d Hd. by apply (world_child c). }
  unfold bind at 1. destruct (add_children _ _ _ _) as [[d|[]] st1]; cbn [fst snd] in *; [| |done].
  - destruct H as (-> & ns & K2 & Hch & Hns).
    apply counted_done in K2; [|intros d Hd; by apply Hch].
    rewrite <- app_assoc in K2. split; [done|]. split; [done|]. exists (ns ++ [c]). split; [done|].
    split; [set_solver|]. intros d [Hd| ->%list_elem_of_singleton]%elem_of_app.
    + destruct (Hns d Hd) as (a & Ha & ?). exists c. split; [set_solver|]. by eapply rtc_l.
    + exists c. split; [set_solver | reflexivity].
  - split; [done|]. revert H. apply too_big_weaken.
    + intros x. rewrite !elem_of_app, list_elem_of_singleton. intros [Hx|[Hx| ->]]; [by left; left|by left; right|].
      right. exists c. split; [set_solver | reflexivity].
    + intros x Hx. exists c. split; [set_solver | by apply rtc_once].
Qed.

(** [add_cell] and [add_cells]: a verdict instead of a result. *)
Definition visited_all (roots : list Cell) u st (fits : bool) st' : Prop :=
  if fits then
    exists n, counted st' (u ++ n) [] /\ (forall c, c ∈ roots -> c ∈ u ++ n) /\
      (forall d, d ∈ n -> exists c, c ∈ roots /\ below c d)
  else too_big (limits st) roots u [].

Lemma add_cell_visits c u st : world c -> counted st u [] -> limits_ok (limits st) ->
  let '(fits, st') := add_cell c st in
  limits st' = limits st /\ visited_all [c] u st fits st'.
Proof.
  intros Hwc K Hlim. unfold add_cell.
  pose proof (visits_cell (cell_fuel c) c u [] st) as [Hl H]; [unfold cell_fuel; lia|done..|set_solver|].
  destruct (add_cell_impl _ c st) as [[d|[]] st']; cbn [fst snd] in *; [| |done].
  - split; [done|]. destruct H as (_ & n & H). by exists n.
  - by split.
Qed.

Lemma add_cells_visits roots u st : Forall world roots -> counted st u [] -> limits_ok (limits st) ->
  let '(fits, st') := add_cells roots st in
  limits st' = limits st /\ visited_all roots u st fits st'.
Proof.
  revert u st. induction roots as [|c roots IH]; intros u st Hw K Hlim; cbn [add_cells].
  { split; [done|]. exists []. rewrite app_nil_r. split; [done|]. set_solver. }
  inversion Hw as [|? ? Hwc Hwcs]; subst.
  pose proof (add_cell_visits c u st Hwc K Hlim) as H. destruct (add_cell c st) as [[] st1];
    destruct H as [Hl H]; cbn in H.
  - destruct H as (n & K1 & Hin & Hn). specialize (IH (u ++ n) st1 Hwcs K1 ltac:(by rewrite Hl)).
    destruct (add_cells roots st1) as [[] st2]; destruct IH as [Hl2 H2]; cbn in H2;
      (split; [congruence|]); cbn.
    + destruct H2 as (n2 & K2 & Hin2 & Hn2). exists (n ++ n2). rewrite app_assoc. split; [done|].
      split.
      * intros x [->|Hx]%elem_of_cons; [|by apply Hin2]. specialize (Hin c ltac:(set_solver)). set_solver.
      * intros x [Hx|Hx]%elem_of_app.
        -- destruct (Hn x Hx) as (y & ->%list_elem_of_singleton & Hy). exists c. split; [set_solver | done].
        -- destruct (Hn2 x Hx) as (y & Hy & ?). exists y. split; [set_solver | done].
    + rewrite Hl in H2. revert H2. apply too_big_weaken.
      * intros x. rewrite app_nil_r, elem_of_app. intros [Hx|Hx]; [left; set_solver|].
        right. destruct (Hn x Hx) as (y & ->%list_elem_of_singleton & Hy).
        exists c. split; [set_solver | done].
      * intros x Hx. exists x. split; [set_solver | reflexivity].
  - split; [done|]. cbn. revert H. apply too_big_weaken; [by left|].
    intros x ->%list_elem_of_singleton. exists c. split; [set_solver | reflexivity].
Qed.

(** What is below cells that are done is done. *)
Lemma counted_below st u c d : counted st u [] -> c ∈ u -> below c d -> d ∈ u.
Proof. intros K Hc. induction 1 as [|a b d Hab _ IH]; [done|]. apply IH. by apply (ct_closed _ _ _ K a). Qed.

Lemma counted_start lim : limits_ok lim -> counted (with_limits lim) [] [].
Proof.
  intros [H1 H2]. split; cbn; try done; [by constructor | intros c d []%not_elem_of_nil |].
  unfold within_limits. cbn. zify_bool. lia.
Qed.
End Stat.

(** ** The properties *)

Section StatTheorems.
Context `{Laws : ModelLaws}.

(** The cells of the trees with the given roots. *)
Definition reached (roots : list Cell) (d : Cell) : Prop := exists c, c ∈ roots /\ below c d.

(** C20: the statistics of cell trees count every distinct cell once.  For trees without
    Merkle cells whose representation hashes tell their cells apart, adding the roots
    never runs out of fuel, and either fits, the counters then being the number and the
    bits of the distinct cells, which are within the limits; or does not, and then there
    are distinct cells in the trees that exceed the limits. *)
Theorem add_cells_counts_distinct (roots : list Cell) (lim : StorageStatLimits)
    (Hlim : limits_ok lim)
    (Hmerkle : forall d, reached roots d -> is_merkle (cell_type d) = false)
    (Hhash : forall d e, reached roots d -> reached roots e -> repr_hash d = repr_hash e -> d = e) :
  let '(fits, st) := add_cells roots (with_limits lim) in
  if fits then
    exists l, NoDup l /\ (forall d, d ∈ l <-> reached roots d) /\
      stats st = mkStats (total_bits l) (Z.of_nat (length l)) /\
      Z.of_nat (length l) <= lim_cell_count lim /\ total_bits l <= lim_bit_count lim
  else
    exists l, NoDup l /\ (forall d, d ∈ l -> reached roots d) /\
      (lim_cell_count lim < Z.of_nat (length l) \/ lim_bit_count lim < total_bits l).
Proof.
  pose proof (add_cells_visits (reached roots)) as H.
  specialize (H ltac:(intros c d (r & Hr & Hc) Hd; exists r; split; [done|]; etrans; [done|by apply rtc_once])
    Hhash Hmerkle roots [] (with_limits lim)).
  assert (Forall (reached roots) roots) as Hr.
  { apply Forall_forall. intros c Hc. exists c. split; [done | reflexivity]. }
  specialize (H Hr (counted_start _ lim Hlim) Hlim).
  destruct (add_cells _ _) as [fits st]. destruct H as [Hl H].
  destruct fits.
  - destruct H as (l & K & Hin & Hn). cbn [app] in *. exists l. pose proof K as [Hd _ _ _ Hce Hb Hf].
    rewrite app_nil_r in Hd, Hce, Hb. split; [done|]. split.
    { intros d. split; [by apply Hn|]. intros (c & Hc & Hcd). eapply counted_below; eauto. }
    unfold stats. rewrite Hce, Hb. split; [done|].
    unfold within_limits in Hf. rewrite Hl, Hce, Hb in Hf. cbn in Hf. zify_bool. lia.
  - destruct H as (l & Hd & Hin & Hb). exists l. split; [done|]. split; [|done].
    intros d Hd'. destruct (Hin d Hd') as [Hx|Hx]; [set_solver | done].
Qed.
End StatTheorems.
