(* ===== verification/FundFlow.v ===== *)
(** * Laws of the executor's computations

    Inversion of computations that succeed, the laws of amounts in range, and the value
    an executor state holds. *)

From S2P Require Import Prelude External Values VmGas VmState Cells Models SmcInfo ExecConfig.
From S2P Require Import ExecUtil ExecState Phases ConfigSpec.

Open Scope vm_scope.

(** ** Successful computations *)

Ltac inv_pair H :=
  first [ injection H as <- <- <- <- <- | injection H as <- <- <- <- | injection H as <- <- <-
        | injection H as <- <- | injection H; clear H; intros; subst ].

(** Invert a primitive computation that succeeded. *)
Ltac inv_prim H :=
  lazymatch type of H with
  | ret _ _ = _ => inv_pair H
  | gets _ _ = _ => inv_pair H
  | modify _ _ = _ => inv_pair H
  | ensure _ _ _ = _ => apply ensure_inv in H; destruct H as [H ->]
  | of_result _ _ = _ => apply of_result_inv in H; destruct H as [H ->]
  | types _ _ = _ => apply map_err_inv, of_result_inv in H; destruct H as [H ->]
  | raise _ _ = _ => discriminate H
  | _ => idtac
  end.

(** Invert [bind m k s = (Ok b, s'')] into the result [a] and state [s'] of [m]. *)
Tactic Notation "inv_bind" hyp(H) "as" simple_intropattern(a) simple_intropattern(s)
    simple_intropattern(H1) :=
  apply bind_inv in H as (a & s & H1 & H).

(** ** Amounts *)

Section Amounts.
Context `{Laws : ModelLaws}.

Lemma tokens_ok_0 : tokens_ok 0.
Proof. unfold tokens_ok, TOKENS_MAX. lia. Qed.

Lemma try_add_inv a b c : tokens_ok a -> tokens_ok b -> tokens_try_add a b = Ok c ->
  c = a + b /\ tokens_ok c.
Proof.
  intros Ha Hb. unfold tokens_try_add. rewrite checked_add_spec by done.
  destruct (Z.leb_spec (a + b) TOKENS_MAX); [|discriminate]. intros [= <-].
  unfold tokens_ok in *. lia.
Qed.

Lemma checked_sub_inv a b c : tokens_ok a -> tokens_ok b -> tokens_checked_sub a b = Some c ->
  c = a - b /\ tokens_ok c.
Proof.
  intros Ha Hb. rewrite checked_sub_spec by done. destruct (Z.leb_spec b a); [|discriminate].
  intros [= <-]. unfold tokens_ok in *. lia.
Qed.

Lemma checked_add_inv a b c : tokens_ok a -> tokens_ok b -> tokens_checked_add a b = Some c ->
  c = a + b /\ tokens_ok c.
Proof.
  intros Ha Hb H. apply try_add_inv; [done..|]. unfold tokens_try_add. by rewrite H.
Qed.

Lemma try_sub_inv a b c : tokens_ok a -> tokens_ok b -> tokens_try_sub a b = Ok c ->
  c = a - b /\ tokens_ok c.
Proof.
  intros Ha Hb. unfold tokens_try_sub. destruct (tokens_checked_sub a b) eqn:H; [|discriminate].
  intros [= <-]. by apply checked_sub_inv.
Qed.

Lemma sub_ok a b : tokens_ok a -> tokens_ok b -> b <= a ->
  tokens_sub a b = a - b /\ tokens_ok (tokens_sub a b).
Proof.
  intros Ha Hb H. rewrite tokens_sub_spec by done. split; [done|]. unfold tokens_ok in *. lia.
Qed.

Implicit Types (c d : CurrencyCollection).

Lemma cc_add_inv c d e : tokens_ok (tokens c) -> tokens_ok (tokens d) ->
  cc_checked_add c d = Ok e -> tokens e = tokens c + tokens d /\ tokens_ok (tokens e).
Proof. intros Hc Hd H. apply cc_add_tokens_spec in H. by apply checked_add_inv in H. Qed.

Lemma cc_sub_inv c d e : tokens_ok (tokens c) -> tokens_ok (tokens d) ->
  cc_checked_sub c d = Ok e -> tokens e = tokens c - tokens d /\ tokens_ok (tokens e).
Proof. intros Hc Hd H. apply cc_sub_tokens_spec in H. by apply checked_sub_inv in H. Qed.

Lemma cc_add_tokens_inv c t e : tokens_ok (tokens c) -> tokens_ok t ->
  cc_add_tokens c t = Ok e -> tokens e = tokens c + t /\ tokens_ok (tokens e).
Proof.
  intros Hc Ht. unfold cc_add_tokens. destruct (tokens_try_add _ _) eqn:H; [|discriminate].
  intros [= <-]. by apply try_add_inv in H.
Qed.

Lemma cc_sub_tokens_inv c t e : tokens_ok (tokens c) -> tokens_ok t ->
  cc_sub_tokens c t = Ok e -> tokens e = tokens c - t /\ tokens_ok (tokens e).
Proof.
  intros Hc Ht. unfold cc_sub_tokens. destruct (tokens_try_sub _ _) eqn:H; [|discriminate].
  intros [= <-]. by apply try_sub_inv in H.
Qed.

Lemma cc_clamp_inv c d e : tokens_ok (tokens c) -> tokens_ok (tokens d) ->
  cc_checked_clamp c d = Ok e -> tokens e = Z.min (tokens c) (tokens d) /\ tokens_ok (tokens e).
Proof.
  intros Hc Hd H. apply cc_clamp_tokens_spec in H. rewrite H. split; [done|].
  unfold tokens_ok in *. lia.
Qed.
End Amounts.

(** ** The value an executor state holds *)

Section Held.
Context `{ML : ModelLib}.

(** What a message carries away: its value and the forwarding fee left in it. *)
Definition header_value (h : OutHeader) : Z :=
  match h with
  | HeaderRelaxed (RelaxedInt i) => tokens (im_value i) + im_fwd_fee i
  | HeaderRelaxed (RelaxedExtOut _) => 0
  | HeaderBounced i => tokens (im_value i) + im_fwd_fee i
  end.

Definition header_lt (h : OutHeader) : Z :=
  match h with
  | HeaderRelaxed (RelaxedInt i) => im_created_lt i
  | HeaderRelaxed (RelaxedExtOut i) => eo_created_lt i
  | HeaderBounced i => im_created_lt i
  end.

Definition out_value (l : list OutMsg) : Z := foldr (fun m v => header_value (om_header m) + v) 0 l.

#[global] Arguments out_value : simpl never.

Lemma out_value_app l l' : out_value (l ++ l') = out_value l + out_value l'.
Proof. unfold out_value. induction l as [|m l IH]; cbn; [done|]. rewrite IH. lia. Qed.

(** The balance, the collected fees, the outbound messages and what was burned. *)
Definition held (s : ExecutorState) : Z :=
  tokens (balance s) + total_fees s + out_value (out_msgs s) + burned s.

Definition opt_ok (o : option Z) : Prop := match o with Some t => tokens_ok t | None => True end.

(** A state with amounts in range. *)
Record exec_ok (s : ExecutorState) : Prop := {
  ok_balance : tokens_ok (tokens (balance s));
  ok_fees : tokens_ok (total_fees s);
  ok_due : opt_ok (due_payment (storage_stat s));
  ok_used : used_ok (storage_used (storage_stat s));
  ok_paid : 0 <= last_paid (storage_stat s)
}.

(** A configuration with parameters in range: the oldest segment of storage prices
    comes first. *)
Record config_ok (c : ParsedConfig) : Prop := {
  ok_segments : Forall segment_ok (storage_prices c);
  ok_mc_gas : prices_ok (mc_gas_prices c);
  ok_gas : prices_ok (cfg_gas_prices c);
  ok_cell_price : forall mc, 0 <= fp_cell_price (fwd_prices c mc);
  ok_msg_cells : 0 <= max_msg_cells (size_limits c)
}.

Lemma gas_prices_ok c mc : config_ok c -> prices_ok (gas_prices c mc).
Proof. intros []. by destruct mc. Qed.

(** The numbers of a message list: consecutive logical times from [start]. *)
Definition lts_from (start : Z) (n : nat) : list Z :=
  map (fun i => wrap_u 64 (start + Z.of_nat i)) (seq 0 n).

Lemma lts_from_S start n : lts_from start (S n) = lts_from start n ++ [wrap_u 64 (start + Z.of_nat n)].
Proof. unfold lts_from. by rewrite seq_S, map_app. Qed.

Lemma wrap_next z : wrap_u 64 (wrap_u 64 z + 1) = wrap_u 64 (z + 1).
Proof. unfold wrap_u. by rewrite Zplus_mod_idemp_l. Qed.

(** The messages of [l] were created at consecutive times from [start], and [next] is
    the time after the last one. *)
Definition numbered (start next : Z) (l : list OutMsg) : Prop :=
  map (fun m => header_lt (om_header m)) l = lts_from start (length l) /\
  next = wrap_u 64 (start + Z.of_nat (length l)).

Lemma numbered_push start next l m : numbered start next l -> header_lt (om_header m) = next ->
  numbered start (wrap_u 64 (next + 1)) (l ++ [m]).
Proof.
  intros [Hl Hn] Hm. unfold numbered. rewrite length_app, map_app, Hl. cbn [length map].
  rewrite Nat.add_1_r, lts_from_S, Hm, Hn, wrap_next. split; [done|]. f_equal. lia.
Qed.

Lemma numbered_nil start : start = wrap_u 64 start -> numbered start start [].
Proof. intros H. split; [done|]. cbn. by rewrite Z.add_0_r. Qed.
End Held.

(** * Value and time through the phases around the execution

    Receiving, crediting, paying for storage and bouncing keep the invariant of the
    executor state and move value only between the balance, the fees, the outbound
    messages and the value of the inbound message. *)

Section Flow.
Context `{ML : ModelLib}.

(** The statuses agree with the account state: an active account has a state, and an
    account without one is never frozen. *)
Record status_ok (s : ExecutorState) : Prop := {
  st_active : end_status s = StActive -> is_active (acct s) = true;
  st_frozen : end_status s = StFrozen -> is_uninit (acct s) = false
}.

(** The invariant of the executor state during a transaction: amounts are in range, the
    messages have consecutive logical times and the statuses agree. *)
Record tx_ok (s : ExecutorState) : Prop := {
  tx_exec : exec_ok s;
  tx_times : numbered (wrap_u 64 (start_lt s + 1)) (end_lt s) (out_msgs s);
  tx_status : status_ok s
}.

(** What an inbound message brings. *)
Definition inbound (msg_root : Cell) : Z :=
  match load_msg_info (new_allow_exotic msg_root) with
  | Ok (MsgInt i, _) => tokens (im_value i) + im_ihr_fee i
  | _ => 0
  end.

(** The parts of the state a phase leaves alone. *)
Record same_account (s s' : ExecutorState) : Prop := {
  same_special : special_account s' = special_account s;
  same_address : address s' = address s;
  same_acct : acct s' = acct s;
  same_orig : orig_status s' = orig_status s
}.

#[global] Instance same_account_preorder : PreOrder same_account.
Proof.
  split; [by split|]. intros s1 s2 s3 [] []. split; congruence.
Qed.
End Flow.

Section Receive.
Context `{Laws : ModelLaws}.
Context (params : ExecutorParams) (config : ParsedConfig).
Implicit Types (s : ExecutorState).

Lemma add_fees_inv f s u s' : add_fees f s = (Ok u, s') -> tokens_ok (total_fees s) -> tokens_ok f ->
  s' = set_total_fees (total_fees s + f) s /\ tokens_ok (total_fees s + f).
Proof.
  intros H Hs Hf. unfold add_fees in H.
  inv_bind H as t s1 H1. inv_prim H1. inv_bind H as t s2 H2. inv_prim H2.
  apply try_add_inv in H2 as [-> Ht]; [|done..]. inv_prim H. done.
Qed.

Lemma check_message_dst_inv dst s u s' : check_message_dst dst s = (Ok u, s') -> s' = s.
Proof.
  destruct dst as [d|d]; cbn [check_message_dst]; intros H; [|discriminate].
  inv_bind H as x s1 H1. inv_prim H1. inv_bind H as a s2 H2. inv_prim H2. by inv_prim H.
Qed.

Lemma receive_init_inv slice s x s' : receive_init slice s = (Ok x, s') -> s' = s.
Proof.
  unfold receive_init. intros H. inv_bind H as [b sl] s1 H1. inv_prim H1.
  destruct b; [|by inv_prim H]. inv_bind H as [b sl2] s2 H2. inv_prim H2. destruct b.
  - inv_bind H as [c sl3] s3 H3. inv_prim H3. inv_bind H as y s4 H4. inv_prim H4.
    inv_bind H as [p r] s5 H5. inv_prim H5. inv_bind H as y2 s6 H6. inv_prim H6. by inv_prim H.
  - inv_bind H as [p r] s3 H3. inv_prim H3. inv_bind H as y s4 H4. inv_prim H4.
    inv_bind H as z s5 H5. inv_prim H5. by inv_prim H.
Qed.

Lemma receive_body_inv c slice s x s' : receive_body c slice s = (Ok x, s') -> s' = s.
Proof.
  unfold receive_body. intros H. inv_bind H as [b sl] s1 H1. inv_prim H1.
  destruct b; [|by inv_prim H]. inv_bind H as [b sl2] s2 H2. inv_prim H2.
  inv_bind H as y s3 H3. inv_prim H3. by inv_prim H.
Qed.

(** The state after the header: its value is kept, apart from what the message brings. *)
Record header_read s s' (b : CurrencyCollection) (brought : Z) : Prop := {
  hr_ok : tx_ok s';
  hr_held : held s' = held s;
  hr_burned : burned s' = burned s;
  hr_out : out_msgs s' = [];
  hr_same : same_account s s';
  hr_status : end_status s' = end_status s;
  hr_tokens : tokens b = brought;
  hr_range : tokens_ok (tokens b)
}.

Lemma receive_internal_flow i s b s' :
  tx_ok s -> out_msgs s = [] -> tokens_ok (tokens (im_value i)) -> tokens_ok (im_ihr_fee i) ->
  receive_internal i s = (Ok b, s') -> header_read s s' b (tokens (im_value i) + im_ihr_fee i).
Proof.
  intros [E T S] Ho Hv Hi H. unfold receive_internal in H.
  inv_bind H as x s1 H1. apply check_message_dst_inv in H1 as ->.
  inv_bind H as c s1 H1. inv_prim H1. apply cc_add_tokens_inv in H1 as [Hc Hc']; [|done..].
  inv_bind H as l s2 H2. inv_prim H2.
  inv_bind H as y s3 H3. inv_prim H.
  destruct (start_lt s <=? im_created_lt i); inv_prim H3; split; try done.
  - split; [destruct E; by split | | destruct S; by split].
    cbn. rewrite Ho. apply numbered_nil. unfold wrap_u. by rewrite Z.mod_mod.
Qed.

Lemma receive_external_flow i slice s b s' :
  tx_ok s -> out_msgs s = [] -> receive_external config i slice s = (Ok b, s') ->
  header_read s s' b 0.
Proof.
  intros [E T S] Ho H. unfold receive_external in H.
  inv_bind H as x s1 H1. apply check_message_dst_inv in H1 as ->.
  inv_bind H as a s1 H1. inv_prim H1. inv_bind H as sp s1 H1. inv_prim H1.
  inv_bind H as fee s1 H1. inv_prim H1. inv_bind H as c s1 H2. inv_prim H2.
  inv_bind H as y s1 H2. inv_prim H2. apply Z.leb_le in H2.
  inv_bind H as z s1 H3. inv_prim H3. inv_bind H as w s1 H3. inv_prim H.
  assert (tokens_ok fee) as Hf.
  { unfold import_fee in H1. destruct (compute_for_slice _ _); [|discriminate].
    injection H1 as <-. destruct (special_account s); [apply tokens_ok_0 | apply fwd_fee_ok]. }
  pose proof E as []. destruct (sub_ok (tokens (balance s)) fee) as [Hs Hs']; [done..|].
  apply add_fees_inv in H3 as [-> Ht]; [|done..]. cbn in Ht. split; try done.
  - split; [by split | exact T | destruct S; by split].
  - unfold held. cbn. rewrite Hs. lia.
Qed.

(** Receiving a message: what it brings becomes the remaining value of the message, or
    is burned. *)
Lemma receive_flow root_cell s m s' :
  tx_ok s -> out_msgs s = [] -> burned s = 0 -> receive_in_msg config root_cell s = (Ok m, s') ->
  tx_ok s' /\ tokens_ok (tokens (balance_remaining m)) /\ out_msgs s' = [] /\
  held s' + tokens (balance_remaining m) = held s + inbound root_cell /\
  same_account s s' /\ end_status s' = end_status s /\ root m = root_cell /\
  (is_external m = true -> tokens (balance_remaining m) = 0 /\ bounce_enabled m = false).
Proof.
  intros T Ho Hb H. unfold receive_in_msg in H.
  inv_bind H as [info sl] s1 H1. inv_prim H1.
  inv_bind H as [[ext bnc] rem] s2 H2.
  assert (header_read s s2 rem (inbound root_cell) /\
          (ext = true -> tokens rem = 0 /\ bnc = false)) as [R Hext].
  { unfold inbound. rewrite H1. destruct info as [i|i|i]; [| |discriminate].
    - inv_bind H2 as r s3 H3. inv_prim H2.
      destruct (parsed_msg_ok _ _ _ H1). split; [|discriminate]. by eapply receive_internal_flow.
    - inv_bind H2 as r s3 H3. inv_prim H2. pose proof (receive_external_flow _ _ _ _ _ T Ho H3) as R.
      split; [done|]. intros _. split; [apply R | done]. }
  inv_bind H as [mi sl2] s3 H3. apply receive_init_inv in H3 as ->.
  inv_bind H as bd s3 H3. apply receive_body_inv in H3 as ->.
  inv_bind H as a s3 H3. inv_prim H3. inv_bind H as rem' s3 H3. inv_prim H. cbn.
  destruct R as [K Hh Hbu Hou Hs Hst Ht Hr]. destruct (is_blackhole config (address s2)).
  - inv_bind H3 as u s4 H4. inv_prim H4. inv_prim H3. cbn. split; [|split; [apply tokens_ok_0|]].
    { destruct K as [K1 K2 K3]. split; [destruct K1; by split | exact K2 | destruct K3; by split]. }
    split; [done|]. split; [unfold held in *; cbn; rewrite Hbu in Hh; lia|].
    split; [by destruct Hs|]. split; [done|]. split; [done|]. intros He. by destruct (Hext He).
  - inv_prim H3. split; [done|]. split; [done|]. split; [done|]. split; [lia|].
    split; [exact Hs|]. split; [exact Hst|]. split; [done | exact Hext].
Qed.

(** Crediting. *)
Lemma credit_flow m s p s' :
  tx_ok s -> tokens_ok (tokens (balance_remaining m)) -> credit_phase m s = (Ok p, s') ->
  tx_ok s' /\ held s' = held s + tokens (balance_remaining m) /\
  tokens (balance s') = tokens (balance s) + tokens (balance_remaining m) /\
  same_account s s' /\ out_msgs s' = out_msgs s /\ end_status s' = end_status s.
Proof.
  intros [E T S] Hm H. unfold credit_phase in H.
  inv_bind H as b s1 H1. inv_prim H1. inv_bind H as b s2 H2. inv_prim H2.
  pose proof E as []. apply cc_add_inv in H2 as [Hb Hb']; [|done..].
  inv_bind H as u s3 H3. inv_prim H3. inv_prim H. split.
  { split; [by split | exact T | destruct S; by split]. }
  unfold held. cbn. rewrite Hb. repeat split; lia.
Qed.
End Receive.

(** ** Storage *)

Section Storage.
Context `{Laws : ModelLaws}.
Context (params : ExecutorParams) (config : ParsedConfig) (Hconf : config_ok config).
Implicit Types (s : ExecutorState).

Lemma storage_fees_range st now special mc : used_ok (storage_used st) ->
  tokens_ok (compute_storage_fees config st now special mc).
Proof.
  intros Hu. unfold compute_storage_fees.
  destruct (Z.leb_spec now (last_paid st)); [apply tokens_ok_0|]. cbn [orb].
  destruct (_ || _); [apply tokens_ok_0|].
  destruct (storage_prices config) as [|p l] eqn:Ep; [apply tokens_ok_0|].
  destruct (_ <=? _); [apply tokens_ok_0|]. destruct Hconf as [Hs _ _ _ _]. rewrite Ep in Hs.
  apply shift_ceil_price_bound.
  rewrite segments_loop_spec; [|by apply Forall_rev|done|lia|unfold_widths; lia].
  pose proof (sum_between_nonneg (rate_desc mc (storage_used st) (rev (p :: l))) (last_paid st) now
    ltac:(intros; apply rate_desc_nonneg; [by apply Forall_rev|done])).
  unfold_widths. lia.
Qed.

Lemma to_pay_range s : exec_ok s -> tokens_ok (storage_to_pay params config s).
Proof.
  intros []. unfold storage_to_pay.
  pose proof (storage_fees_range (storage_stat s) (block_unixtime params) (special_account s)
    (is_masterchain (address s)) ok_used0) as H.
  destruct (due_payment (storage_stat s)) as [d|]; [|done]. cbn in ok_due0.
  rewrite saturating_add_spec by done. unfold tokens_ok in *. lia.
Qed.

(** What a storage phase collects, leaves due and decides. *)
Definition collected_of (to_pay bal : Z) : Z := Z.min to_pay bal.
Definition due_of (to_pay bal : Z) : option Z := if to_pay <=? bal then None else Some (to_pay - bal).

Definition charged_due (special : bool) (to_pay bal : Z) (due : option Z) : option Z :=
  if to_pay =? 0 then due
  else if (bal <? to_pay) && special then due else due_of to_pay bal.

Definition charged_change (prices : GasLimitsPrices) (to_pay : Z) s : AccountStatusChange :=
  if to_pay <=? tokens (balance s) then ScUnchanged
  else due_status_change params prices s (to_pay - tokens (balance s)).

Definition charged (to_pay : Z) s : ExecutorState :=
  let bal := tokens (balance s) in
  set_storage_stat (set_due (charged_due (special_account s) to_pay bal (due_payment (storage_stat s)))
                      (storage_stat s))
    (set_balance (set_tokens (bal - collected_of to_pay bal) (balance s)) s).

Lemma set_due_id st : set_due (due_payment st) st = st.
Proof. by destruct st. Qed.

Lemma charge_storage_spec prices to_pay s : exec_ok s -> tokens_ok to_pay ->
  charge_storage params prices to_pay s
  = (Ok (collected_of to_pay (tokens (balance s)), due_of to_pay (tokens (balance s)),
         charged_change prices to_pay s),
     charged to_pay s).
Proof.
  intros [Hb _ _ _ _] Hp. unfold charge_storage, charged, charged_change, collected_of, charged_due.
  unfold due_of.
  rewrite (bind_ok _ _ s (balance s) s) by done. set (b := tokens (balance s)) in *.
  destruct (Z.eqb_spec to_pay 0) as [->|Hne].
  { destruct (Z.leb_spec 0 b); [|unfold tokens_ok in *; lia]. rewrite Z.min_l, Z.sub_0_r by lia.
    rewrite set_due_id. unfold ret. do 2 f_equal. unfold b. destruct s as [? ? ? []]; done. }
  rewrite checked_sub_spec by done.
  destruct (Z.leb_spec to_pay b) as [Hle|Hlt].
  - rewrite Z.min_l by lia. destruct (Z.ltb_spec b to_pay); [lia|]. reflexivity.
  - rewrite Z.min_r, Z.sub_diag by lia. destruct (sub_ok to_pay b) as [-> _]; [done|done|lia|].
    destruct (Z.eqb_spec (to_pay - b) 0); [lia|]. destruct (Z.ltb_spec b to_pay); [|lia]. cbn [andb].
    unfold bind, modify, gets, ret. cbn. destruct (special_account s) eqn:Es; cbn; rewrite ?Es; [|done].
    rewrite set_due_id. destruct s; cbn in *; subst; done.
Qed.

(** The end status after a change. *)
Definition changed_status (c : AccountStatusChange) (st : AccountStatus) : AccountStatus :=
  match c with ScUnchanged => st | ScFrozen => StFrozen | ScDeleted => StNotExists end.

Lemma apply_status_change_eq c s :
  apply_status_change c s = (Ok tt, set_end_status (changed_status c (end_status s)) s).
Proof. destruct c; [|done|done]. by destruct s. Qed.

(** The state after the time of the last payment was set. *)
Definition paid_now s : ExecutorState :=
  set_storage_stat (mkStorage (storage_used (storage_stat s))
    (if special_account s then 0 else block_unixtime params) (due_payment (storage_stat s))) s.

(** The whole phase. *)
Lemma storage_phase_spec adjust rcv s : exec_ok s -> last_paid (storage_stat s) <= block_unixtime params ->
  let to_pay := storage_to_pay params config s in
  let prices := gas_prices config (is_masterchain (address s)) in
  let bal := tokens (balance s) in
  let change := charged_change prices to_pay s in
  let s1 := set_end_status (changed_status change (end_status s)) (charged to_pay (paid_now s)) in
  storage_phase params config adjust rcv s =
  bind (add_fees (collected_of to_pay bal)) (fun _ =>
    ret (mkStoragePhase (collected_of to_pay bal) (due_of to_pay bal) change,
         option_map (adjust_msg adjust (balance s1)) rcv)) s1.
Proof.
  intros E Ht. cbn zeta. unfold storage_phase.
  rewrite (bind_ok _ _ s (storage_stat s) s) by done.
  rewrite (bind_ok _ _ s tt s) by (by apply ensure_true, Z.leb_le).
  rewrite (bind_ok _ _ s (gas_prices config (is_masterchain (address s))) s) by done.
  rewrite (bind_ok _ _ s (storage_to_pay params config s) s) by done.
  rewrite (bind_ok _ _ s tt (paid_now s)) by done.
  assert (exec_ok (paid_now s)) as E1.
  { destruct E. split; try done. cbn. destruct (special_account s); lia. }
  rewrite (bind_ok _ _ _ _ _ (charge_storage_spec _ _ _ E1 (to_pay_range s E))).
  rewrite (bind_ok _ _ _ _ _ (apply_status_change_eq _ _)).
  by erewrite (bind_ok (gets balance)) by reflexivity.
Qed.

(** An account that changes status has the state for it. *)
Lemma change_status_ok prices to_pay s : status_ok s ->
  status_ok (set_end_status (changed_status (charged_change prices to_pay s) (end_status s))
               (charged to_pay (paid_now s))).
Proof.
  intros [Ha Hf]. unfold charged_change, due_status_change.
  destruct (_ <=? _); [by split|]. destruct (special_account s); [by split|].
  destruct (is_active (acct s)) eqn:Hact.
  - destruct (_ <? _); [|by split]. split; cbn; [discriminate|]. intros _. by destruct (acct s).
  - destruct (_ && _); [|split; cbn; [intros H; by specialize (Ha H) | exact Hf]]. by split.
Qed.

Lemma charged_due_ok special to_pay bal due : opt_ok due -> tokens_ok to_pay -> tokens_ok bal ->
  opt_ok (charged_due special to_pay bal due).
Proof.
  intros Hd Hp Hb. unfold charged_due, due_of. repeat case_match; try done. zify_bool.
  cbn. unfold tokens_ok in *. lia.
Qed.

(** Storage fees move from the balance to the fees. *)
Lemma storage_flow adjust rcv s p rcv' s' :
  tx_ok s -> 0 <= block_unixtime params -> storage_phase params config adjust rcv s = (Ok (p, rcv'), s') ->
  tx_ok s' /\ held s' = held s /\ same_account s s' /\ out_msgs s' = out_msgs s /\
  tokens_ok (storage_fees_collected p) /\
  tokens (balance s') = tokens (balance s) - storage_fees_collected p /\
  rcv' = option_map (adjust_msg adjust (balance s')) rcv /\
  (acct s' = acct s /\ end_status s' = changed_status (sp_status_change p) (end_status s)).
Proof.
  intros [E T S] Hnow H.
  assert (last_paid (storage_stat s) <= block_unixtime params) as Ht.
  { unfold storage_phase in H. inv_bind H as x s1 H1. inv_prim H1. inv_bind H as y s1 H1.
    inv_prim H1. by apply Z.leb_le in H1. }
  rewrite storage_phase_spec in H by done. inv_bind H as u s1 H1. inv_prim H.
  pose proof (to_pay_range s E) as Hp. pose proof E as [].
  assert (tokens_ok (collected_of (storage_to_pay params config s) (tokens (balance s)))) as Hc
    by (unfold collected_of, tokens_ok in *; lia).
  apply add_fees_inv in H1 as [-> Hf]; [|done..]. cbn [storage_fees_collected].
  split; [split|].
  - split; cbn; try done.
    + unfold collected_of, tokens_ok in *. lia.
    + by apply charged_due_ok.
    + destruct (special_account s); lia.
  - exact T.
  - destruct (change_status_ok (gas_prices config (is_masterchain (address s)))
      (storage_to_pay params config s) s S) as [Q1 Q2]. by split.
  - split; [unfold held; cbn; lia|]. split; [by split|]. split; [done|]. split; [done|].
    split; [done|]. split; [done|]. by split.
Qed.
End Storage.

(** ** Bounce *)

Section Bounce.
Context `{Laws : ModelLaws}.
Context (params : ExecutorParams) (config : ParsedConfig).
Implicit Types (s : ExecutorState).

Lemma send_bounced_flow m i src dst full prices size v fees s p s' :
  tx_ok s -> tokens_ok (tokens v) -> tokens_ok fees -> fees <= tokens v ->
  send_bounced params m i src dst full prices size v fees s = (Ok p, s') ->
  tx_ok s' /\ held s' = held s /\ same_account s s' /\ end_status s' = end_status s /\
  tokens (balance s') = tokens (balance s) - tokens v /\
  length (out_msgs s') = S (length (out_msgs s)).
Proof.
  intros [E T S] Hv Hf Hle H. unfold send_bounced in H. pose proof E as [].
  inv_bind H as b s1 H1. inv_prim H1. inv_bind H as b s1 H1. inv_prim H1.
  apply cc_sub_inv in H1 as [Hb Hb']; [|done..]. inv_bind H as u s1 H1. inv_prim H1.
  pose proof (first_part_ok prices fees Hf) as Hfp. set (part := get_first_part prices fees) in *.
  assert (tokens_ok part) as Hpart by (unfold tokens_ok in *; lia).
  destruct (sub_ok fees part) as [Hrest _]; [done|done|lia|].
  destruct (sub_ok (tokens v) fees) as [Hval _]; [done..|].
  inv_bind H as u2 s1 H1. apply add_fees_inv in H1 as [-> Hfees]; [|done..].
  inv_bind H as l s2 H2. inv_prim H2. inv_bind H as c s2 H2. inv_prim H2.
  inv_bind H as u3 s2 H3. inv_prim H3. inv_bind H as u4 s2 H3. inv_prim H3. inv_prim H.
  cbn in *. split; [split|].
  - by split.
  - cbn. by apply numbered_push.
  - destruct S. by split.
  - split; [|split; [by split|]].
    + unfold held. cbn. rewrite out_value_app. unfold out_value at 2. cbn. rewrite Hval, Hrest, Hb. lia.
    + split; [done|]. split; [done|]. rewrite length_app. cbn. lia.
Qed.

(** Bouncing takes the value sent back, and the fees, from the balance. *)
Lemma bounce_flow gas_fees fine m s p s' :
  tx_ok s -> tokens_ok gas_fees -> tokens_ok fine -> tokens_ok (tokens (balance_remaining m)) ->
  bounce_phase params config gas_fees fine m s = (Ok p, s') ->
  tx_ok s' /\ held s' = held s /\ same_account s s' /\ end_status s' = end_status s.
Proof.
  intros Tx Hg Hfi Hm H. unfold bounce_phase in H.
  inv_bind H as info s1 H1. inv_prim H1. destruct info as [i| |]; [|discriminate..].
  destruct (check_rewrite_dst_addr _ _) as [ok dst].
  inv_bind H as u s1 H2. inv_prim H2. inv_bind H as full s1 H3. inv_prim H3.
  destruct (add_cells _ _) as [fits st]. destruct fits; cbn [negb] in H.
  2:{ inv_prim H. split; [exact Tx|]. by repeat split. }
  inv_bind H as my s1 H4. inv_prim H4.
  set (prices := fwd_prices config _) in *. set (fees := compute_fwd_fee prices (stats st)) in *.
  assert (tokens_ok fees) as Hfees by apply fwd_fee_ok.
  unfold bounce_balance in H.
  destruct (tokens_checked_sub (tokens (balance_remaining m)) gas_fees) as [t|] eqn:H5.
  2:{ inv_prim H. split; [exact Tx|]. by repeat split. }
  apply checked_sub_inv in H5 as [Ht Ht']; [|done..].
  destruct (tokens_checked_sub t fine) as [t2|] eqn:H6.
  2:{ inv_prim H. split; [exact Tx|]. by repeat split. }
  apply checked_sub_inv in H6 as [Ht2 Ht2']; [|done..].
  destruct (Z.leb_spec fees t2).
  2:{ inv_prim H. split; [exact Tx|]. by repeat split. }
  apply send_bounced_flow in H as (A & B & C & D & _); [|done..]. done.
Qed.
End Bounce.
