(* ===== verification/SizeSpec.v ===== *)
(** * What CDATASIZE and SDATASIZE count

    The walk over a tree visits every distinct cell once: it ends within its fuel, its
    counters are the number, the bits and the references of the distinct cells, and it is
    charged 100 for each of them, or 25 for one loaded before.  It stops at the bound of
    the instruction, or when the gas is gone. *)

From S2P Require Import Prelude External Cells Values VmStack VmGas VmState GasLaws GasSpec.
From S2P Require Import ArithOps CellOps CellSpec SizeOps Models ConfigSpec.

Open Scope vm_scope.

(** ** Loops with a measure *)

Section Loops.
Context {S E A B : Type} (body : A -> MS S E (A + B)).
Context (I : A -> S -> Prop) (measure : A -> S -> Z) (Q : result E B -> S -> Prop).

Definition turn_ok (fuel : Z) (a : A) (s : S) (r : result E (A + B) * S) : Prop :=
  match r with
  | (Ok (inl a'), s') => I a' s' /\ 0 <= measure a' s' <= measure a s - fuel
  | (Ok (inr b), s') => Q (Ok b) s'
  | (Err e, s') => Q (Err e) s'
  end.

Hypothesis body_ok : forall a s, I a s -> turn_ok 1 a s (body a s).

Lemma iter_pos_turns p a s : I a s -> turn_ok (Z.pos p) a s (iter_pos p body a s).
Proof.
  revert a s. induction p as [p IH|p IH|]; intros a s HI; cbn [iter_pos]; [| |by apply body_ok].
  - unfold bind at 1. pose proof (body_ok a s HI) as H1.
    destruct (body a s) as [[[a1|b]|e] s1]; cbn in H1 |- *; [|done..].
    unfold bind. pose proof (IH a1 s1 (proj1 H1)) as H2.
    destruct (iter_pos p body a1 s1) as [[[a2|b]|e] s2]; cbn in H2 |- *; [|done..].
    pose proof (IH a2 s2 (proj1 H2)) as H3.
    destruct (iter_pos p body a2 s2) as [[[a3|b]|e] s3]; cbn in H3 |- *; [|done..].
    split; [apply H3 | lia].
  - unfold bind. pose proof (IH a s HI) as H2.
    destruct (iter_pos p body a s) as [[[a2|b]|e] s2]; cbn in H2 |- *; [|done..].
    pose proof (IH a2 s2 (proj1 H2)) as H3.
    destruct (iter_pos p body a2 s2) as [[[a3|b]|e] s3]; cbn in H3 |- *; [|done..].
    split; [apply H3 | lia].
Qed.

(** With more fuel than the measure the loop ends by itself. *)
Lemma iter_pos_ends p a s : I a s -> measure a s < Z.pos p ->
  match iter_pos p body a s with
  | (Ok (inl _), _) => False
  | (Ok (inr b), s') => Q (Ok b) s'
  | (Err e, s') => Q (Err e) s'
  end.
Proof.
  intros HI Hp. pose proof (iter_pos_turns p a s HI) as H.
  destruct (iter_pos p body a s) as [[[a'|b]|e] s']; cbn in H; [lia | done..].
Qed.
End Loops.

(** ** Cells and their price *)

Section Size.
Context `{SL : SliceLib} `{CLaws : !CellLaws} `{SLaws : !SliceLaws}.
Import Gas.
Implicit Types (c d : Cell) (u : list Cell) (g : GasConsumer) (st : StorageStatExt).

Definition total_refs (l : list Cell) : Z := foldr (fun c n => ref_count c + n) 0 l.
(** The price of loading the distinct cells [l]. *)
Definition fees (loaded : gset HashBytes) (l : list Cell) : Z :=
  foldr (fun c n => load_fee loaded c + n) 0 l.
Definition hashes (l : list Cell) : gset HashBytes := list_to_set (map repr_hash l).

(** [g] after loading the distinct cells [l]. *)
Definition paid (l : list Cell) g : GasConsumer :=
  charged (fees (loaded_cells g) l) (set_loaded (hashes l ∪ loaded_cells g) g).

Lemma fees_range loaded l : 25 * Z.of_nat (length l) <= fees loaded l <= 100 * Z.of_nat (length l).
Proof.
  induction l as [|c l IH]; cbn [fees foldr length]; [lia|]. fold (fees loaded l).
  pose proof (load_fee_range loaded c). lia.
Qed.

Lemma fees_perm loaded l l' : l ≡ₚ l' -> fees loaded l = fees loaded l'.
Proof. unfold fees. induction 1; cbn; lia. Qed.
Lemma total_refs_perm l l' : l ≡ₚ l' -> total_refs l = total_refs l'.
Proof. unfold total_refs. induction 1; cbn; lia. Qed.
Lemma fees_submseteq loaded l l' : l ⊆+ l' -> fees loaded l <= fees loaded l'.
Proof.
  intros [k HP]%submseteq_Permutation. rewrite (fees_perm _ _ _ HP).
  assert (forall x y, fees loaded (x ++ y) = fees loaded x + fees loaded y) as Happ.
  { unfold fees. intros x y. induction x as [|a x IH]; cbn; [done | lia]. }
  rewrite Happ. pose proof (fees_range loaded k). lia.
Qed.

Lemma paid_perm l l' g : l ≡ₚ l' -> paid l g = paid l' g.
Proof.
  intros HP. unfold paid. rewrite (fees_perm _ _ _ HP). do 3 f_equal.
  apply leibniz_equiv. unfold hashes. intros h. rewrite !elem_of_list_to_set. by rewrite HP.
Qed.

Lemma paid_nil g : paid [] g = g.
Proof.
  unfold paid, hashes. cbn [map list_to_set fees foldr]. rewrite union_empty_l_L.
  rewrite charged_0. by destruct g.
Qed.

Lemma paid_wf l g : gas_wf g -> fees (loaded_cells g) l <= gas_remaining g -> gas_wf (paid l g).
Proof.
  intros W Hf. unfold paid. apply charged_wf; [by destruct W|]. cbn.
  pose proof (fees_range (loaded_cells g) l). lia.
Qed.

(** Loading one more cell. *)
Lemma load_new l c g : gas_wf g -> repr_hash c ∉ hashes l ->
  fees (loaded_cells g) l <= gas_remaining g ->
  match load_cell_impl c LoadMode_UseGas (paid l g) with
  | (Ok c', g') => c' = c /\ g' = paid (c :: l) g /\ fees (loaded_cells g) (c :: l) <= gas_remaining g
  | (Err e, _) => e = Cancelled /\ gas_remaining g < fees (loaded_cells g) (c :: l)
  end.
Proof.
  intros W Hn Hf. pose proof (paid_wf l g W Hf) as W'.
  pose proof (load_fee_range (loaded_cells g) c) as Hr.
  unfold load_cell_impl, load_cell_turn, LoadMode_UseGas. cbn [use_gas resolve negb].
  set (g1 := set_loaded ({[repr_hash c]} ∪ loaded_cells (paid l g)) (paid l g)).
  assert (gas_wf g1) as W1 by (by destruct W').
  assert ((if bool_decide (repr_hash c ∉ loaded_cells (paid l g)) then NEW_CELL_GAS else OLD_CELL_GAS)
          = load_fee (loaded_cells g) c) as E.
  { unfold load_fee. change (loaded_cells (paid l g)) with (hashes l ∪ loaded_cells g).
    repeat case_bool_decide; set_solver. }
  assert (gas_remaining g1 = gas_remaining g - fees (loaded_cells g) l) as Er by reflexivity.
  assert (fees (loaded_cells g) (c :: l) = load_fee (loaded_cells g) c + fees (loaded_cells g) l) as Ef by reflexivity.
  unfold bind, gets, modify, ret. fold g1. rewrite E.
  destruct (Z.leb_spec (load_fee (loaded_cells g) c) (gas_remaining g1)) as [Hle|Hlt].
  - rewrite (consume_charged _ g1 W1) by lia. split; [done|]. split; [|lia].
    unfold paid. cbn [hashes map list_to_set fees foldr]. fold (fees (loaded_cells g) l).
    rewrite <- union_assoc_L. unfold charged, set_remaining, g1, paid; cbn. f_equal. lia.
  - destruct (try_consume_err (load_fee (loaded_cells g) c) g1 W1) as (g2 & -> & _); [lia| |split; [done|lia]].
    rewrite truncate_gas_id; [done|]. unfold_widths. lia.
Qed.

(** ** The walk *)

Context (roots : list Cell) (limit base_bits base_refs : Z) (g0 : GasConsumer).
Hypothesis Hlimit : 0 <= limit.
Hypothesis Hg : gas_wf g0.
Hypothesis Hr : 0 <= gas_remaining g0.
Hypothesis Hhash : forall d e, reached roots d -> reached roots e -> repr_hash d = repr_hash e -> d = e.

(** The cells [u] are counted and paid for; what is left of the iterators leads to the rest. *)
Record walked u st g : Prop := {
  wk_nodup : NoDup u;
  wk_reached : forall d, d ∈ u \/ d ∈ concat (ext_stack st) -> reached roots d;
  wk_visited : ext_visited st = hashes u;
  wk_closed : forall c d, c ∈ u -> child c d -> d ∈ u \/ d ∈ concat (ext_stack st);
  wk_roots : forall c, c ∈ roots -> c ∈ u \/ c ∈ concat (ext_stack st);
  wk_cells : ext_cells st = Z.of_nat (length u);
  wk_bits : ext_bits st = base_bits + total_bits u;
  wk_refs : ext_refs st = base_refs + total_refs u;
  wk_limit : ext_limit st = limit;
  wk_fits : Z.of_nat (length u) <= limit;
  wk_gas : g = paid u g0;
  wk_paid : fees (loaded_cells g0) u <= gas_remaining g0
}.

(** The outcome: all cells counted, more cells than the limit, or no gas for the next. *)
Definition counted_all (r : result Error (bool * StorageStatExt)) g : Prop :=
  match r with
  | Ok (true, st) => exists l, NoDup l /\ (forall d, d ∈ l <-> reached roots d) /\
      Z.of_nat (length l) <= limit /\ fees (loaded_cells g0) l <= gas_remaining g0 /\
      ext_cells st = Z.of_nat (length l) /\ ext_bits st = base_bits + total_bits l /\
      ext_refs st = base_refs + total_refs l /\ g = paid l g0
  | Ok (false, st) => exists c l, NoDup (c :: l) /\ (forall d, d ∈ c :: l -> reached roots d) /\
      limit <= Z.of_nat (length l) /\ fees (loaded_cells g0) l <= gas_remaining g0
  | Err e => e = Cancelled /\ exists l, NoDup l /\ (forall d, d ∈ l -> reached roots d) /\
      Z.of_nat (length l) <= limit /\ gas_remaining g0 < fees (loaded_cells g0) l
  end.

Lemma walked_done u st g : walked u st g -> ext_stack st = [] -> counted_all (Ok (true, st)) g.
Proof.
  intros [] Hs. exists u. rewrite Hs in *. repeat (split; [done|]). split; [|done].
  intros d. split; [intros; apply wk_reached0; by left|]. intros (c & Hc & Hd).
  assert (c ∈ u) as Hcu by (destruct (wk_roots0 c Hc); [done | set_solver]).
  clear Hc. induction Hd as [|c c' d Hcd _ IH]; [done|]. apply IH.
  destruct (wk_closed0 c c' Hcu Hcd); [done | set_solver].
Qed.

Lemma seen_hash u c st g : walked u st g -> reached roots c -> repr_hash c ∈ ext_visited st -> c ∈ u.
Proof.
  intros [] Hc. rewrite wk_visited0. unfold hashes. rewrite elem_of_list_to_set, list_elem_of_fmap.
  intros (d & Hd & Hu). rewrite (Hhash c d); [done|done| |done]. apply wk_reached0. by left.
Qed.

Lemma gas_left u st g : walked u st g -> gas_remaining g = gas_remaining g0 - fees (loaded_cells g0) u /\ 0 <= gas_remaining g.
Proof.
  intros K. rewrite (wk_gas _ _ _ K). pose proof (wk_paid _ _ _ K).
  change (gas_remaining (paid u g0)) with (gas_remaining g0 - fees (loaded_cells g0) u). lia.
Qed.

Definition measure st g : Z :=
  Z.of_nat (length (concat (ext_stack st)) + length (ext_stack st)) + gas_remaining g.

(** Popping an iterator, or a cell seen before. *)
Lemma walked_pop u st g l : walked u st g ->
  (forall c, c ∈ concat (ext_stack st) -> c ∈ u \/ c ∈ concat l) ->
  (forall c, c ∈ concat l -> c ∈ concat (ext_stack st)) -> walked u (set_iters l st) g.
Proof.
  intros [] Hl Hl'. split; cbn; try done.
  - intros d [Hd|Hd]; apply wk_reached0; [by left | right; auto].
  - intros c d Hc Hd. destruct (wk_closed0 c d Hc Hd) as [H|H]; [by left | auto].
  - intros c Hc. destruct (wk_roots0 c Hc) as [H|H]; [by left | auto].
Qed.

(** A new cell counted. *)
Lemma walked_count u st g c l : walked u st g -> reached roots c -> c ∉ u ->
  Z.of_nat (length u) < limit -> fees (loaded_cells g0) (c :: u) <= gas_remaining g0 ->
  (forall d, d ∈ concat (ext_stack st) -> d = c \/ d ∈ concat l) ->
  (forall d, d ∈ concat l -> d ∈ concat (ext_stack st) \/ child c d) ->
  (forall d, child c d -> d ∈ concat l) ->
  walked (c :: u) (set_iters l (add_stats (bit_len c) (ref_count c) 1 (add_visited c st)))
    (paid (c :: u) g0).
Proof.
  intros [] Hc Hnew Hlt Hpay Hs Hl Hch. split; cbn; try done.
  - by apply NoDup_cons.
  - intros d [[->|Hd]%elem_of_cons|Hd]; [done|apply wk_reached0; by left|].
    destruct (Hl d Hd) as [H|H]; [apply wk_reached0; by right|].
    destruct Hc as (r & Hrr & Hrc). exists r. split; [done|]. etrans; [done|by apply rtc_once].
  - rewrite wk_visited0. by unfold hashes.
  - intros x d [->|Hx]%elem_of_cons Hd; [by right; apply Hch|].
    destruct (wk_closed0 x d Hx Hd) as [H|H]; [left; by apply elem_of_cons; right|].
    destruct (Hs d H) as [->|H']; [left; by apply elem_of_cons; left | by right].
  - intros x Hx. destruct (wk_roots0 x Hx) as [H|H]; [left; by apply elem_of_cons; right|].
    destruct (Hs x H) as [->|H']; [left; by apply elem_of_cons; left | by right].
  - lia.
  - fold (total_bits u). lia.
  - fold (total_refs u). lia.
  - lia.
Qed.

(** The first new cell that is not counted: [c] exceeds the limit or cannot be paid. *)
Lemma walked_over u st g c : walked u st g -> reached roots c -> c ∉ u ->
  NoDup (c :: u) /\ (forall d, d ∈ c :: u -> reached roots d).
Proof.
  intros [] Hc Hnew. split; [by apply NoDup_cons|].
  intros d [->|Hd]%elem_of_cons; [done|]. apply wk_reached0. by left.
Qed.

Lemma new_hash u c st g : walked u st g -> reached roots c -> repr_hash c ∉ ext_visited st ->
  c ∉ u /\ repr_hash c ∉ hashes u.
Proof.
  intros [] Hc. rewrite wk_visited0. intros Hn. split; [|done]. intros Hu. apply Hn.
  unfold hashes. apply elem_of_list_to_set, list_elem_of_fmap. eauto.
Qed.

Lemma reduce_turn_walks st g : (exists u, walked u st g) ->
  turn_ok (fun st g => exists u, walked u st g) measure counted_all 1 st g (reduce_turn st g).
Proof.
  intros [u K]. unfold reduce_turn. destruct (ext_stack st) as [|[|c item] rest] eqn:Es.
  - cbn. by eapply walked_done.
  - cbn. split; [exists u; apply walked_pop; [done|rewrite Es; set_solver..]|].
    unfold measure; rewrite Es; cbn. pose proof (gas_left u st g K). lia.
  - assert (reached roots c) as Hc by (apply (wk_reached _ _ _ K); rewrite Es; right; set_solver).
    case_bool_decide as Hv; cbn [ext_visited set_iters] in Hv.
    { cbn. pose proof (seen_hash u c st g K Hc Hv) as Hcu. split.
      - exists u. apply walked_pop; [done|rewrite Es; set_solver..].
      - unfold measure; rewrite Es; cbn. pose proof (gas_left u st g K). lia. }
    destruct (new_hash u c st g K Hc Hv) as [Hnew Hh].
    destruct (walked_over u st g c K Hc Hnew) as [Hnd Hre].
    change (ext_limit (add_visited c (set_iters (item :: rest) st))) with (ext_limit st).
    change (ext_cells (add_visited c (set_iters (item :: rest) st))) with (ext_cells st).
    rewrite (wk_limit _ _ _ K), (wk_cells _ _ _ K).
    destruct (Z.leb_spec limit (Z.of_nat (length u))) as [Hle|Hlt].
    { cbn. exists c, u. split; [done|]. split; [done|]. split; [done | apply K]. }
    unfold bind. pose proof (load_new u c g0 Hg Hh (wk_paid _ _ _ K)) as HL.
    rewrite <- (wk_gas _ _ _ K) in HL.
    destruct (load_cell_impl c LoadMode_UseGas g) as [[c'|e] g'] eqn:El.
    + destruct HL as (-> & -> & Hp).
      pose proof (references_length c) as H4.
      pose proof (load_fee_range (loaded_cells g0) c) as Hfr.
      assert (gas_remaining (paid (c :: u) g0) + load_fee (loaded_cells g0) c = gas_remaining g) as Hgr.
      { destruct (gas_left u st g K) as [-> _].
        change (gas_remaining (paid (c :: u) g0)) with
          (gas_remaining g0 - (load_fee (loaded_cells g0) c + fees (loaded_cells g0) u)). lia. }
      assert (0 <= gas_remaining (paid (c :: u) g0)) as Hp0.
      { change (gas_remaining (paid (c :: u) g0)) with
          (gas_remaining g0 - fees (loaded_cells g0) (c :: u)). lia. }
      set (l := if 0 <? ref_count c then references c :: item :: rest else item :: rest).
      assert (concat l = references c ++ item ++ concat rest /\ (length l <= S (S (length rest)))%nat) as [El' Hll].
      { unfold l, ref_count. case_bool; [split; cbn; [done|lia]|].
        destruct (references c); cbn in *; [split; [done|lia] | lia]. }
      match goal with |- context [inl ?X] => replace X with
        (set_iters l (add_stats (bit_len c) (ref_count c) 1 (add_visited c st)))
        by (unfold l; by destruct (0 <? ref_count c)) end.
      cbn [ret turn_ok].
      split.
      * exists (c :: u). apply (walked_count u st g c l); try done; rewrite ?Es, ?El'; unfold child; set_solver.
      * unfold measure. cbn [ext_stack set_iters]. rewrite Es, El'. cbn [concat length app].
        rewrite !length_app. lia.
    + destruct HL as [-> Hp]. cbn. split; [done|]. exists (c :: u). split; [done|]. split; [done|].
      cbn. cbn in Hp. split; lia.
Qed.

Lemma reduce_stack_walks u st g : walked u st g -> gas_remaining g <= I64_MAX ->
  counted_all (reduce_stack st g).1 (reduce_stack st g).2.
Proof.
  intros K Hmax. unfold reduce_stack, bind.
  pose proof (iter_pos_ends reduce_turn _ measure counted_all reduce_turn_walks (reduce_fuel st) st g) as H.
  assert (measure st g < Z.pos (reduce_fuel st)) as Hf.
  { unfold measure, reduce_fuel. unfold_widths. rewrite Z2Pos.id; lia. }
  specialize (H (ex_intro _ u K) Hf).
  by destruct (iter_pos _ _ _ _) as [[[a|b]|e] s'].
Qed.

Lemma walked_start st : ext_visited st = ∅ -> ext_cells st = 0 -> ext_bits st = base_bits ->
  ext_refs st = base_refs -> ext_limit st = limit -> concat (ext_stack st) = roots ->
  walked [] st g0.
Proof.
  intros Hv Hc Hb Hrf Hl Hs.
  split; rewrite ?Hv, ?Hc, ?Hb, ?Hrf, ?Hl, ?Hs, ?paid_nil; cbn; try done; try lia; try set_solver.
  apply NoDup_nil_2.
Qed.

Lemma ext_add_slice_counts cs : roots = slice_references cs -> base_bits = slice_bits cs ->
  base_refs = Z.of_nat (length (slice_references cs)) ->
  counted_all (ext_add_slice cs (ext_with_limit limit) g0).1 (ext_add_slice cs (ext_with_limit limit) g0).2.
Proof.
  intros Er Eb Ef. apply (reduce_stack_walks []).
  - apply walked_start; cbn; by rewrite ?Eb, ?Ef, ?Er, ?app_nil_r.
  - destruct (wf_base g0 Hg), (wf_remaining g0 Hg). lia.
Qed.

Lemma ext_add_cell_counts c : roots = [c] -> base_bits = 0 -> base_refs = 0 ->
  counted_all (ext_add_cell c (ext_with_limit limit) g0).1 (ext_add_cell c (ext_with_limit limit) g0).2.
Proof.
  intros Er Eb Ef. unfold ext_add_cell. rewrite bool_decide_false by (cbn; set_solver).
  assert (reached roots c) as Hc.
  { exists c. rewrite Er. split; [by apply list_elem_of_singleton | reflexivity]. }
  pose proof (walked_start (set_iters [[c]] (ext_with_limit limit))) as K.
  specialize (K eq_refl eq_refl (eq_sym Eb) (eq_sym Ef) eq_refl (eq_sym Er)).
  destruct (walked_over _ _ _ c K Hc) as [Hnd Hre]; [set_solver|].
  cbn [ext_limit ext_cells ext_with_limit add_visited].
  destruct (Z.leb_spec limit 0) as [Hle|Hlt].
  { cbn. exists c, []. split; [done|]. split; [done|]. cbn. lia. }
  unfold bind. pose proof (load_new [] c g0 Hg) as HL. rewrite paid_nil in HL.
  specialize (HL ltac:(unfold hashes; set_solver) ltac:(cbn; lia)).
  destruct (load_cell_impl c LoadMode_UseGas g0) as [[c'|e] g'].
  - destruct HL as (-> & -> & Hp).
    apply (reduce_stack_walks [c]).
    + apply (walked_count [] _ g0 c [references c] K); cbn; try done; unfold child; set_solver.
    + destruct (wf_base g0 Hg), (wf_remaining g0 Hg).
      change (gas_remaining (paid [c] g0)) with (gas_remaining g0 - fees (loaded_cells g0) [c]).
      pose proof (fees_range (loaded_cells g0) [c]). lia.
  - destruct HL as [-> Hp]. cbn. split; [done|]. exists [c]. split; [done|]. split; [done|].
    cbn in *. split; lia.
Qed.
End Size.

(** ** The instructions *)

Section Instructions.
Context `{SL : SliceLib} `{CLaws : !CellLaws} `{SLaws : !SliceLaws}.
Import Gas.

(** The roots of the trees, with the bits and references of the slice itself. *)
Definition measured (is_slice : bool) (v : value) : option (list Cell * Z * Z) :=
  match is_slice, v with
  | true, VSlice cs => Some (slice_references cs, slice_bits cs, Z.of_nat (length (slice_references cs)))
  | false, VCell c => Some ([c], 0, 0)
  | _, _ => None
  end.

Definition walk_of (is_slice : bool) (v : value) (limit : Z) : GM (bool * StorageStatExt) :=
  match is_slice, v with
  | true, VSlice cs => ext_add_slice cs (ext_with_limit limit)
  | false, VCell c => ext_add_cell c (ext_with_limit limit)
  | _, _ => raise OtherError
  end.

Lemma walk_counts is_slice v limit roots bits refs g : 0 <= limit -> gas_wf g -> 0 <= gas_remaining g ->
  measured is_slice v = Some (roots, bits, refs) ->
  (forall d e, reached roots d -> reached roots e -> repr_hash d = repr_hash e -> d = e) ->
  counted_all roots limit bits refs g (walk_of is_slice v limit g).1 (walk_of is_slice v limit g).2.
Proof.
  intros Hl Hg Hr Hm Hh. destruct is_slice, v; try discriminate; injection Hm as <- <- <-.
  - by apply ext_add_slice_counts.
  - by apply ext_add_cell_counts.
Qed.

Definition bound_limit (bound : Z) : Z := default U64_MAX (to_u64 bound).

Lemma data_size_walk is_slice q v bound l s roots bits refs :
  stack s = of_view (VInt bound :: v :: l) -> 0 <= bound ->
  measured is_slice v = Some (roots, bits, refs) ->
  exec_compute_data_size is_slice q s =
  match walk_of is_slice v (bound_limit bound) (gas s) with
  | (Ok (ok, st), g) => on_stack (push_size ok q st) (set_gas g (set_stack (of_view l) s))
  | (Err e, g) => (Err (CellError e), set_gas g (set_stack (of_view l) s))
  end.
Proof.
  intros Hs Hb Hm. unfold exec_compute_data_size.
  rewrite (bind_ok _ _ s (Some bound) (set_stack (of_view (v :: l)) s))
    by (by apply (on_stack_ok _ _ _ _ _ Hs), pop_int_or_nan_int).
  destruct is_slice, v; try discriminate; cbn [walk_of].
  - erewrite bind_ok.
    2:{ erewrite bind_ok; [done|]. apply (on_stack_ok _ _ (VSlice s0 :: l)); [done|]. by apply pop_cs_ok. }
    erewrite bind_ok.
    2:{ erewrite bind_ok; [done|]. by apply ensure_true, Z.leb_le. }
    unfold bind at 1, on_gas, zoom, map_err. cbn [gas set_stack]. fold (bound_limit bound).
    by destruct (ext_add_slice _ _ _) as [[[ok st]|e] g].
  - erewrite bind_ok.
    2:{ erewrite bind_ok; [done|]. apply (on_stack_ok _ _ (VCell c :: l)); [done|]. by apply pop_cell_ok. }
    erewrite bind_ok.
    2:{ erewrite bind_ok; [done|]. by apply ensure_true, Z.leb_le. }
    unfold bind at 1, on_gas, zoom, map_err. cbn [gas set_stack]. fold (bound_limit bound).
    by destruct (ext_add_cell _ _ _) as [[[ok st]|e] g].
Qed.

(** What is pushed for counted cells. *)
Definition size_values (q : bool) (cells bits refs : Z) (l : list value) : list value :=
  (if q then [VInt (-1)] else []) ++ VInt refs :: VInt bits :: VInt cells :: l.

Lemma push_size_counted q st l s : stack s = of_view l -> Z.of_nat (length l) + 4 <= Stack.MAX_DEPTH ->
  on_stack (push_size true q st) s
  = (Ok 0, set_stack (of_view (size_values q (ext_cells st) (ext_bits st) (ext_refs st) l)) s).
Proof.
  intros Hs Hl. apply (on_stack_ok _ _ _ _ _ Hs). unfold push_size, Stack.push_int.
  rewrite (bind_ok _ _ _ tt (of_view (VInt (ext_refs st) :: VInt (ext_bits st) :: VInt (ext_cells st) :: l))).
  2:{ rewrite (bind_ok _ _ _ tt (of_view (VInt (ext_cells st) :: l))) by (apply push_raw_ok; lia).
      rewrite (bind_ok _ _ _ tt (of_view (VInt (ext_bits st) :: VInt (ext_cells st) :: l)))
        by (apply push_raw_ok; cbn [length]; lia).
      apply push_raw_ok. cbn [length]. lia. }
  destruct q; [|done].
  rewrite (bind_ok _ _ _ tt (of_view (size_values true (ext_cells st) (ext_bits st) (ext_refs st) l))); [done|].
  unfold Stack.push_bool. apply push_raw_ok. cbn [length]. lia.
Qed.

Lemma push_size_over q st l s : stack s = of_view l -> Z.of_nat (length l) + 4 <= Stack.MAX_DEPTH ->
  on_stack (push_size false q st) s
  = (if q then Ok 0 else Err (CellError CellOverflow),
     set_stack (of_view (if q then VInt 0 :: l else l)) s).
Proof.
  intros Hs Hl. unfold push_size. destruct q.
  - apply (on_stack_ok _ _ _ _ _ Hs). rewrite (bind_ok _ _ _ tt (of_view l)) by done.
    rewrite (bind_ok _ _ _ tt (of_view (VInt 0 :: l))); [done|]. apply push_raw_ok. lia.
  - unfold on_stack, zoom. by rewrite Hs.
Qed.

(** C23: CDATASIZE and SDATASIZE count every distinct cell once and pay for it.  For the trees
    of a cell or of a slice, whose distinct cells are [all], told apart by their hashes:
    when there are no more than the bound and the gas pays 100 for each of them (25 for a
    cell loaded before), the instruction pushes their number, their bits and their
    references (with those of the slice itself) and has paid exactly that; when there are
    more than the bound and gas for the bound, it fails, or pushes 0 if quiet; and when
    the gas does not pay for them, it runs out of gas.  The walk always ends. *)
Theorem data_size_counts (is_slice q : bool) (v : value) (bound : Z) (l : list value) (s : VmState)
    (roots : list Cell) (bits refs : Z) (all : list Cell)
    (Hs : stack s = of_view (VInt bound :: v :: l))
    (Hl : Z.of_nat (length l) + 4 <= Stack.MAX_DEPTH) (Hb : 0 <= bound)
    (Hm : measured is_slice v = Some (roots, bits, refs))
    (Hg : gas_wf (gas s)) (Hr : 0 <= gas_remaining (gas s))
    (Hall : NoDup all) (Hreach : forall d, d ∈ all <-> reached roots d)
    (Hhash : forall d e, reached roots d -> reached roots e -> repr_hash d = repr_hash e -> d = e) :
  let n := Z.of_nat (length all) in
  let price := fees (loaded_cells (gas s)) all in
  (n <= bound -> price <= gas_remaining (gas s) ->
   exec_compute_data_size is_slice q s =
   (Ok 0, set_gas (paid all (gas s))
            (set_stack (of_view (size_values q n (bits + total_bits all) (refs + total_refs all) l)) s))) /\
  (bound < n -> 100 * bound <= gas_remaining (gas s) ->
   exists g, exec_compute_data_size is_slice q s =
   (if q then Ok 0 else Err (CellError CellOverflow),
    set_gas g (set_stack (of_view (if q then VInt 0 :: l else l)) s))) /\
  (n <= bound -> gas_remaining (gas s) < price ->
   exists s', exec_compute_data_size is_slice q s = (Err (CellError Cancelled), s')).
Proof.
  cbn zeta. rewrite (data_size_walk is_slice q v bound l s roots bits refs Hs Hb Hm).
  assert (0 <= bound_limit bound /\ (bound_limit bound = bound \/ bound_limit bound = U64_MAX /\ U64_MAX < bound))
    as [Hlim Hlb].
  { unfold bound_limit, to_u64, to_range. unfold_widths.
    destruct (Z.leb_spec 0 bound), (Z.leb_spec bound (2 ^ 64 - 1)); cbn; lia. }
  pose proof (walk_counts is_slice v (bound_limit bound) roots bits refs (gas s) Hlim Hg Hr Hm Hhash) as H.
  assert (gas_remaining (gas s) <= I64_MAX) as Hmax by (destruct (wf_base _ Hg), (wf_remaining _ Hg); lia).
  assert (forall x, NoDup x -> (forall d, d ∈ x -> reached roots d) ->
    (length x <= length all)%nat /\ fees (loaded_cells (gas s)) x <= fees (loaded_cells (gas s)) all) as Hsub.
  { intros x Hx Hin. assert (x ⊆+ all) as Hsx.
    { apply NoDup_submseteq; [done|]. intros d Hd. by apply Hreach, Hin. }
    split; [by apply submseteq_length | by apply fees_submseteq]. }
  pose proof (fees_range (loaded_cells (gas s)) all) as Hfa.
  destruct (walk_of is_slice v (bound_limit bound) (gas s)) as [[[[] st]|e] g]; cbn [fst snd counted_all] in H.
  - destruct H as (x & Hx & Hin & Hn & Hp & Ec & Eb & Ef & ->).
    assert (all ≡ₚ x) as HP by (apply NoDup_Permutation; [done..|]; intros d; by rewrite Hreach, Hin).
    rewrite <- (fees_perm _ _ _ HP) in Hp. rewrite <- (Permutation_length HP) in *.
    split; [|split].
    + intros _ _. rewrite push_size_counted with (l := l) by done.
      rewrite Ec, Eb, Ef. by rewrite (total_bits_perm _ _ HP), (total_refs_perm _ _ HP), (paid_perm _ _ _ HP).
    + intros. unfold_widths. lia.
    + lia.
  - destruct H as (c & x & Hx & Hin & Hn & Hp). destruct (Hsub _ Hx Hin) as [Hlen Hfee]. cbn [length] in Hlen.
    pose proof (fees_range (loaded_cells (gas s)) x) as Hfx.
    split; [|split].
    + intros. unfold_widths. lia.
    + intros _ _. exists g. rewrite push_size_over with (l := l) by done. by destruct q.
    + intros. unfold_widths. lia.
  - destruct H as (-> & x & Hx & Hin & Hn & Hp). destruct (Hsub _ Hx Hin) as [Hlen Hfee].
    pose proof (fees_range (loaded_cells (gas s)) x) as Hfx.
    split; [|split].
    + intros. unfold_widths. lia.
    + intros. unfold_widths. lia.
    + intros _ _. eexists. reflexivity.
Qed.
End Instructions.
