(* ===== verification/ActionFlow.v ===== *)
(** * Value and time through the action phase

    Every action moves value only between the remaining and the reserved balance, the
    action fine, the collected fees and the outbound messages; an action that fails
    never has more than it started with.  The sums of fees stay in range. *)

From S2P Require Import Prelude External Values VmGas VmState Cells Models SmcInfo ExecConfig.
From S2P Require Import ExecUtil ExecState Phases ConfigSpec FundFlow Action ActionPhase.

Open Scope vm_scope.

Section Context.
Context `{ML : ModelLib}.
Implicit Types (c : ActionContext).

(** Fees that are absent are zero. *)
Definition fees_of (o : option Z) : Z := default 0 o.

(** The value an action context holds. *)
Definition act_held c : Z :=
  tokens (remaining_balance c) + tokens (reserved_balance c) + action_fine c +
  fees_of (total_action_fees (action_phase c)) + out_value (ctx_out_msgs c).

Definition msg_ok (m : option ReceivedMessage) : Prop :=
  match m with Some m => tokens_ok (tokens (balance_remaining m)) | None => True end.

(** The invariant of the context; [start] is the logical time of the first message. *)
Record act_ok (start : Z) c : Prop := {
  a_remaining : tokens_ok (tokens (remaining_balance c));
  a_reserved : tokens_ok (tokens (reserved_balance c));
  a_fine : tokens_ok (action_fine c);
  a_fees : 0 <= fees_of (total_action_fees (action_phase c));
  a_fwd : 0 <= fees_of (total_fwd_fees (action_phase c))
          <= fees_of (total_action_fees (action_phase c)) + out_value (ctx_out_msgs c);
  a_out : 0 <= out_value (ctx_out_msgs c);
  a_total : act_held c <= TOKENS_MAX;
  a_msg : msg_ok (received_message c);
  a_times : numbered start (ctx_end_lt c) (ctx_out_msgs c);
  a_running : ap_success (action_phase c) = false
}.

Context (start : Z).

(** What a successful computation keeps, and a failed one does not exceed. *)
Definition act_moved c c' : Prop := act_ok start c -> act_ok start c' /\ act_held c' = act_held c.
Definition act_failed (e : ActionError) c c' : Prop :=
  act_ok start c -> act_ok start c' /\ act_held c' <= act_held c.

#[global] Instance act_tracking : Tracking act_moved act_failed.
Proof.
  split.
  - split; [by intros c|]. intros c1 c2 c3 H1 H2 H. destruct (H1 H) as [K1 E1].
    destruct (H2 K1) as [K2 E2]. split; [done | congruence].
  - intros e c1 c2 c3 H1 H2 H. destruct (H1 H) as [K1 E1]. destruct (H2 K1) as [K2 E2].
    split; [done | lia].
Qed.

(** A computation that keeps the value of the context. *)
Definition flows {A} (m : ActM A) : Prop := tracks act_moved act_failed (fun _ => True) m.

Lemma flows_bind {A B} (m : ActM A) (k : A -> ActM B) :
  flows m -> (forall a, flows (k a)) -> flows (bind m k).
Proof. intros Hm Hk. eapply tracks_bind; [exact _ | exact Hm |]. intros a _. apply Hk. Qed.

Lemma flows_ret {A} (a : A) : flows (ret a).
Proof. apply tracks_ret; [apply _ | done]. Qed.

Lemma flows_raise {A} e : flows (raise (A:=A) e).
Proof. apply tracks_raise. intros c H. split; [done | lia]. Qed.

Lemma flows_gets {A} (f : ActionContext -> A) : flows (gets f).
Proof. apply tracks_gets, _. Qed.

Lemma flows_ensure b e : flows (ensure b e).
Proof. destruct b; [apply flows_ret | apply flows_raise]. Qed.

Lemma flows_try {A} (r : result Error A) : flows (try_types r).
Proof. intros c. destruct r; cbn; [by split|]. intros H. split; [done | lia]. Qed.

Lemma flows_unwrap {A} (r : result Error A) : flows (unwrap r).
Proof. intros c. destruct r; cbn; [by split|]. intros H. split; [done | lia]. Qed.

(** An update of what does not hold value. *)
Lemma flows_modify f :
  (forall c, remaining_balance (f c) = remaining_balance c /\
             reserved_balance (f c) = reserved_balance c /\ action_fine (f c) = action_fine c /\
             total_action_fees (action_phase (f c)) = total_action_fees (action_phase c) /\
             total_fwd_fees (action_phase (f c)) = total_fwd_fees (action_phase c) /\
             ctx_out_msgs (f c) = ctx_out_msgs c /\ ctx_end_lt (f c) = ctx_end_lt c /\
             ap_success (action_phase (f c)) = ap_success (action_phase c) /\
             (msg_ok (received_message c) -> msg_ok (received_message (f c)))) ->
  flows (modify f).
Proof.
  intros Hf. apply tracks_modify. intros c.
  destruct (Hf c) as (E1 & E2 & E3 & E4 & E5 & E6 & E7 & E8 & E9).
  intros []. assert (act_held (f c) = act_held c) as Eh
    by (unfold act_held; by rewrite E1, E2, E3, E4, E6).
  split; [|done]. split; rewrite ?Eh, ?E1, ?E2, ?E3, ?E4, ?E5, ?E6, ?E7, ?E8; auto.
Qed.

Lemma flows_fail {A} code : flows (fail_with (A:=A) code).
Proof. apply flows_bind; [by apply flows_modify | intros; apply flows_raise]. Qed.

Lemma flows_skip mode code : flows (check_skip_invalid mode code).
Proof.
  unfold check_skip_invalid. destruct (contains _ _); [|apply flows_fail].
  apply flows_bind; [by apply flows_modify | intros; apply flows_ret].
Qed.
End Context.

#[global] Hint Resolve flows_ret flows_raise flows_gets flows_ensure flows_try flows_unwrap
  flows_fail flows_skip : flows.

Ltac flows_tac :=
  repeat first
    [ solve [auto with flows]
    | apply flows_bind; [|intros ?]
    | apply flows_modify; intros ?; by repeat split
    | progress (cbn beta iota)
    | case_match ].

(** ** Sending messages *)

Section Send.
Context `{Laws : ModelLaws} (params : ExecutorParams) (config : ParsedConfig) (start : Z).
Implicit Types (c : ActionContext).

#[local] Abbreviation flow := (flows start).

Lemma flows_collect_fine per_cell max_cells n : 0 <= per_cell -> 0 <= max_cells -> 0 <= n ->
  flow (collect_fine per_cell max_cells n).
Proof.
  intros Hp Hm Hn c. unfold collect_fine.
  rewrite (bind_ok _ _ c (remaining_balance c) c), (bind_ok _ _ c (action_fine c) c) by done.
  set (fine := Z.min (Z.min _ _) _).
  destruct (tokens_try_add (action_fine c) fine) as [f|e] eqn:Hf.
  2:{ rewrite (bind_err _ _ _ ActionFailed c) by done. intros H. split; [done | lia]. }
  rewrite (bind_ok _ _ c f c), (bind_ok _ _ c tt (set_fine f c)) by done.
  destruct (cc_sub_tokens (remaining_balance c) fine) as [r|e] eqn:Hr.
  - rewrite (bind_ok _ _ _ r (set_fine f c)) by done. split; [|done]. intros [].
    assert (tokens_ok fine) as Hfine.
    { unfold fine, tokens_ok in *. unfold_widths. nia. }
    apply try_add_inv in Hf as [-> ?]; [|done..]. apply cc_sub_tokens_inv in Hr as [Hr ?]; [|done..].
    assert (act_held (set_remaining r (set_fine (action_fine c + fine) c)) = act_held c) as E
      by (unfold act_held; cbn; lia).
    split; [|done]. split; cbn; try done. by rewrite E.
  - rewrite (bind_err _ _ _ ActionFailed (set_fine f c)) by done. intros [].
    exfalso. unfold cc_sub_tokens, tokens_try_sub in Hr.
    assert (tokens_ok fine) as Hfine.
    { unfold fine, tokens_ok in *. unfold_widths. nia. }
    rewrite checked_sub_spec in Hr by done.
    destruct (Z.leb_spec fine (tokens (remaining_balance c))); [discriminate|].
    unfold fine in *. lia.
Qed.

(** A message in its final form takes exactly what is withdrawn for it. *)
Lemma message_sent_flow mode m st coll fees rem c received :
  act_ok start c -> header_lt (om_header m) = ctx_end_lt c ->
  tokens_ok fees -> 0 <= coll <= fees -> fees <= coll + header_value (om_header m) ->
  0 <= header_value (om_header m) ->
  tokens_ok (tokens rem) ->
  tokens rem = tokens (remaining_balance c) - (coll + header_value (om_header m)) ->
  msg_ok received ->
  let '(r, c') := message_sent params mode m st coll fees (set_remaining rem (set_received received c)) in
  r = Ok Sent /\ act_ok start c' /\ act_held c' = act_held c.
Proof.
  intros [Ar Ares Af Afe Afw Ao At Am Ati Asu] Hlt Hfees Hc Hle Hv Hrem Er Hmsg.
  unfold message_sent, bind, modify, ret. cbn. split; [done|].
  unfold add_opt, act_held, fees_of in *.
  assert (tokens_add (default 0 (total_action_fees (action_phase c))) coll
          = default 0 (total_action_fees (action_phase c)) + coll) as E1.
  { apply tokens_add_spec; unfold tokens_ok in *; lia. }
  assert (tokens_add (default 0 (total_fwd_fees (action_phase c))) fees
          = default 0 (total_fwd_fees (action_phase c)) + fees) as E2.
  { apply tokens_add_spec; unfold tokens_ok in *; lia. }
  assert (out_value (ctx_out_msgs c ++ [m]) = out_value (ctx_out_msgs c) + header_value (om_header m)) as E3.
  { rewrite out_value_app. unfold out_value at 2. cbn. lia. }
  split.
  - split; cbn; unfold act_held, fees_of; cbn; rewrite ?E1, ?E2, ?E3; try done; try lia.
    by apply numbered_push.
  - cbn. rewrite E1, E3. lia.
Qed.

Lemma set_received_id c : set_received (received_message c) c = c.
Proof. by destruct c. Qed.

(** The update of the message balance is a change of the received message only. *)
Lemma clear_message_balance_eq mode c : msg_ok (received_message c) ->
  exists m, clear_message_balance params mode c = set_received m c /\ msg_ok m.
Proof.
  intros Hm. unfold clear_message_balance. destruct (received_message c) as [m|] eqn:E.
  - destruct (_ || _); [|exists (Some m); rewrite <- E, set_received_id; rewrite E; done].
    eexists; split; [reflexivity|]. cbn. destruct (strict_extra_currency params); apply tokens_ok_0.
  - exists None. rewrite <- E at 1. by rewrite set_received_id.
Qed.

(** What a message takes: the value it carries and the fees. *)
Lemma rewrite_value_spec v mode fees gas_fees c v' pay : act_ok start c ->
  tokens_ok (tokens v) -> tokens_ok fees -> tokens_ok gas_fees ->
  rewrite_message_value params v mode fees gas_fees c = Ok (v', pay) ->
  tokens_ok (tokens v') /\ pay = tokens v' + fees /\ tokens_ok pay.
Proof.
  intros [Ar _ Af _ _ _ _ Am _ _] Hv Hfees Hg H. unfold rewrite_message_value in H.
  match type of H with (match ?x with Ok _ => _ | Err _ => _ end) = _ => destruct x as [[w sep]|e] eqn:Hx end;
    [|discriminate].
  assert (tokens_ok (tokens w)) as Hw.
  { destruct (contains mode ALL_BALANCE).
    { injection Hx as <- <-. by destruct (strict_extra_currency params). }
    destruct (contains mode WITH_REMAINING_BALANCE); [|by injection Hx as <- <-].
    match type of Hx with (match ?x with Ok _ => _ | Err _ => _ end) = _ => destruct x as [w1|e] eqn:H1 end;
      [|discriminate].
    assert (tokens_ok (tokens w1)) as Hw1.
    { destruct (received_message c) as [m|]; [|by injection H1 as <-]. cbn in Am.
      destruct (strict_extra_currency params);
        [apply cc_add_tokens_inv in H1 | apply cc_add_inv in H1]; try done; apply H1. }
    destruct (contains mode PAY_FEE_SEPARATELY); [by injection Hx as <- <-|].
    destruct (cc_sub_tokens w1 (action_fine c)) as [w2|e] eqn:H2; [|discriminate].
    apply cc_sub_tokens_inv in H2 as [_ H2]; [|done..].
    destruct (cc_sub_tokens w2 gas_fees) as [w3|e] eqn:H3; [|discriminate].
    apply cc_sub_tokens_inv in H3 as [_ H3]; [|done..]. by injection Hx as <- <-. }
  destruct sep.
  - destruct (tokens_try_add (tokens w) fees) as [t|e] eqn:Ht; [|discriminate].
    apply try_add_inv in Ht as [-> Ht]; [|done..]. by injection H as <- <-.
  - destruct (tokens_try_sub (tokens w) fees) as [t|e] eqn:Ht; [|discriminate].
    apply try_sub_inv in Ht as [-> Ht]; [|done..]. injection H as <- <-. cbn.
    split; [done|]. split; [lia | done].
Qed.

(** Requirements of the record of an outgoing message. *)
Record outgoing_ok (o : Outgoing) : Prop := {
  og_fee_ok : tokens_ok (og_fee o);
  og_per_cell_ok : 0 <= og_per_cell o;
  og_max_ok : 0 <= og_max_cells o;
  og_count_ok : 0 <= cell_count (og_stats o)
}.

Lemma flows_skip_with_fine o code : outgoing_ok o -> flow (skip_with_fine o code).
Proof.
  intros []. apply flows_bind; [by apply flows_collect_fine | intros; apply flows_skip].
Qed.

Lemma flows_rewrite_or_skip o : outgoing_ok o -> flow (rewrite_or_skip o).
Proof.
  intros Ho. unfold rewrite_or_skip. destruct (next_rewrite _); [apply flows_ret|].
  by apply flows_skip_with_fine.
Qed.

(** A computation from a state with the invariant. *)
Lemma flows_from {A} (m : ActM A) c :
  (act_ok start c -> match m c with
   | (Ok _, c') => act_ok start c' /\ act_held c' = act_held c
   | (Err _, c') => act_ok start c' /\ act_held c' <= act_held c
   end) ->
  match m c with
  | (Ok _, c') => act_moved start c c' /\ True
  | (Err e, c') => act_failed start e c c'
  end.
Proof.
  intros H. destruct (m c) as [[a|e] c'] eqn:E.
  - split; [|done]. intros K. by apply H.
  - intros K. by apply H.
Qed.

Lemma flows_at {A} (m : ActM A) c : flow m -> act_ok start c ->
  match m c with
  | (Ok _, c') => act_ok start c' /\ act_held c' = act_held c
  | (Err _, c') => act_ok start c' /\ act_held c' <= act_held c
  end.
Proof. intros H K. specialize (H c). destruct (m c) as [[a|e] c']; [by apply H | by apply H]. Qed.

Lemma finish_internal_flow o gas_fees i c : outgoing_ok o -> tokens_ok gas_fees ->
  tokens_ok (tokens (im_value i)) -> im_created_lt i = ctx_end_lt c -> act_ok start c ->
  match finish_internal params o gas_fees i c with
  | (Ok _, c') => act_ok start c' /\ act_held c' = act_held c
  | (Err _, c') => act_ok start c' /\ act_held c' <= act_held c
  end.
Proof.
  intros Ho Hg Hv Hlt K. unfold finish_internal. rewrite (bind_ok _ _ c c c) by done.
  assert (forall code, match skip_with_fine o code c with
          | (Ok _, c') => act_ok start c' /\ act_held c' = act_held c
          | (Err _, c') => act_ok start c' /\ act_held c' <= act_held c
          end) as Hskip by (intros code; apply flows_at; [by apply flows_skip_with_fine | done]).
  destruct (rewrite_message_value _ _ _ _ _ _) as [[v pay]|e] eqn:Hr; [|apply Hskip].
  apply rewrite_value_spec in Hr as (Hv' & -> & Hpay); [|done|done|apply Ho|done].
  destruct (Z.ltb_spec (tokens (remaining_balance c)) (tokens v + og_fee o)) as [|Hle]; [apply Hskip|].
  destruct (_ && _); [apply Hskip|].
  destruct (extra_checked_sub _ _) as [rest|e]; [|apply Hskip].
  destruct Ho as [Hfee Hpc Hmx Hct].
  pose proof (first_part_ok (og_prices o) (og_fee o) Hfee) as Hfp.
  set (coll := get_first_part _ _) in *.
  destruct (sub_ok (og_fee o) coll) as [Hsub _]; [done|unfold tokens_ok in *; lia|lia|].
  destruct (build_message _ _ _) as [msg|e].
  2:{ apply flows_at; [|done]. apply flows_rewrite_or_skip. by split. }
  destruct (clear_message_balance_eq (og_mode o) c (a_msg _ _ K)) as (m' & Hclear & Hm').
  pose proof (a_remaining _ _ K) as Hrem.
  destruct (sub_ok (tokens (remaining_balance c)) (tokens v + og_fee o)) as [Hrest Hrest']; [done..|].
  rewrite (bind_ok _ _ c tt (set_received m' c)) by (unfold modify; by rewrite Hclear).
  match goal with |- context [set_remaining ?r] => set (rem := r) end.
  rewrite (bind_ok _ _ _ tt (set_remaining rem (set_received m' c))) by done.
  match goal with |- context [message_sent params ?md ?mm ?ss ?cc ?ff] =>
    pose proof (message_sent_flow md mm ss cc ff rem c m' K) as H end.
  cbn [om_header header_lt header_value im_value im_fwd_fee im_created_lt with_fwd_fee with_value] in H.
  specialize (H Hlt Hfee Hfp). rewrite Hsub in H |- *.
  destruct (message_sent _ _ _ _ _ _ _) as [r c'].
  destruct H as (-> & H1 & H2);
    [unfold tokens_ok in *; lia|unfold tokens_ok in *; lia|done|unfold rem; cbn; lia|done|].
  by split.
Qed.

Lemma finish_external_flow o i c : outgoing_ok o -> eo_created_lt i = ctx_end_lt c -> act_ok start c ->
  match finish_external params o i c with
  | (Ok _, c') => act_ok start c' /\ act_held c' = act_held c
  | (Err _, c') => act_ok start c' /\ act_held c' <= act_held c
  end.
Proof.
  intros Ho Hlt K. unfold finish_external. rewrite (bind_ok _ _ c c c) by done.
  destruct (Z.ltb_spec (tokens (remaining_balance c)) (og_fee o)) as [|Hle].
  { apply flows_at; [by apply flows_skip_with_fine | done]. }
  destruct (build_message _ _ _) as [msg|e].
  2:{ apply flows_at; [by apply flows_rewrite_or_skip | done]. }
  destruct Ho as [Hfee _ _ _]. pose proof (a_remaining _ _ K) as Hrem.
  destruct (sub_ok (tokens (remaining_balance c)) (og_fee o)) as [Hrest Hrest']; [done..|].
  match goal with |- context [set_remaining ?r] => set (rem := r) end.
  rewrite (bind_ok _ _ _ tt (set_remaining rem (set_received (received_message c) c)))
    by (by rewrite set_received_id).
  match goal with |- context [message_sent params ?md ?mm ?ss ?cc ?ff] =>
    pose proof (message_sent_flow md mm ss cc ff rem c (received_message c) K) as H end.
  cbn [om_header header_lt header_value] in H. specialize (H Hlt Hfee).
  destruct (message_sent _ _ _ _ _ _ _) as [r c'].
  destruct H as (-> & H1 & H2);
    [unfold tokens_ok in *; lia|lia|lia|done|unfold rem; cbn; lia|apply K|done].
Qed.
End Send.

(** * Value and time through [SendMsg]

    The message is priced and measured before it is finished; the loop over its rewrites
    ends within three turns. *)

(** ** The counters of the statistics never decrease below zero *)

Section Counters.
Context `{ML : ModelLib}.

Definition counters_ok (st : ExtStorageStat) : Prop := 0 <= cells st.
Definition counting (st st' : ExtStorageStat) : Prop := counters_ok st -> counters_ok st'.

#[local] Instance counting_tracking : Tracking counting (fun _ : StatError => counting).
Proof.
  unfold counting. split; [split; red; auto|]. intros _ s1 s2 s3 H1 H2 H. auto.
Qed.

#[local] Abbreviation counts := (tracks counting (fun _ : StatError => counting) (fun _ => True)).

Lemma counts_bind {A B} (m : StatM A) (k : A -> StatM B) :
  counts m -> (forall a, counts (k a)) -> counts (bind m k).
Proof. intros Hm Hk. eapply tracks_bind; [exact _ | exact Hm | intros a _; apply Hk]. Qed.

Lemma counts_ret {A} (a : A) : counts (ret a).
Proof. apply tracks_ret; [exact _ | done]. Qed.
Lemma counts_modify f : (forall st, counting st (f st)) -> counts (modify f).
Proof. intros H. by apply tracks_modify. Qed.

Lemma add_children_counts rec l d : (forall c, counts (rec c)) -> counts (add_children rec l d).
Proof.
  intros Hr. revert d. induction l as [|c l IH]; intros d; cbn; [apply counts_ret|].
  by apply counts_bind.
Qed.

Lemma add_cell_impl_counts n c : counts (add_cell_impl n c).
Proof.
  revert c. induction n as [|n IH]; intros c; cbn [add_cell_impl]; [by intros s H|].
  apply counts_bind; [apply tracks_gets, _|]. intros [d|]; [apply counts_ret|].
  intros st. rewrite (bind_ok _ _ st (cells st) st) by done. unfold checked_add_u32, to_u32, to_range.
  destruct (_ && _) eqn:H1; [|by intros H]. apply andb_prop in H1 as [H1 _]. apply Z.leb_le in H1.
  rewrite (bind_ok _ _ st (cells st + 1) st), (bind_ok _ _ st tt (set_cells (cells st + 1) st)) by done.
  match goal with |- context [bind ?m ?k ?s] => assert (counts (bind m k)) as K end.
  { apply counts_bind; [apply tracks_gets, _|]. intros b. apply counts_bind.
    { eapply tracks_post; [apply tracks_of_option; [exact _|]|done]. intros _ s H. exact H. }
    intros b'. apply counts_bind; [apply counts_modify; intros s H; exact H|]. intros _.
    apply counts_bind; [apply tracks_gets, _|]. intros f. apply counts_bind; [intros s; destruct f; [done | by intros H]|].
    intros _. apply counts_bind; [by apply add_children_counts|]. intros d.
    apply counts_bind; [apply counts_modify; intros s H; exact H|]. intros _.
    apply counts_bind; [intros s; destruct (_ <=? _); [done | by intros H]|]. intros _. apply counts_ret. }
  specialize (K (set_cells (cells st + 1) st)). destruct (bind _ _ _) as [[] st'].
  - split; [|done]. intros _. by apply (proj1 K).
  - intros _. by apply K.
Qed.

Lemma add_cells_counters l st : counters_ok st -> counters_ok (add_cells l st).2.
Proof.
  revert st. induction l as [|c l IH]; intros st K; cbn; [done|]. unfold add_cell.
  pose proof (add_cell_impl_counts (cell_fuel c) c st) as H.
  destruct (add_cell_impl _ c st) as [[] st']; [apply IH|]; by apply H.
Qed.
End Counters.

(** ** Pricing and measuring a message *)

Section Send.
Context `{Laws : ModelLaws} (params : ExecutorParams) (config : ParsedConfig) (start : Z).
Implicit Types (c : ActionContext).

#[local] Abbreviation flow := (flows start).

(** What is known of the header of a message once it is checked. *)
Definition info_ok (lt : Z) (info : RelaxedMsgInfo) : Prop :=
  match info with
  | RelaxedInt i => tokens_ok (tokens (im_value i)) /\ im_created_lt i = lt
  | RelaxedExtOut i => eo_created_lt i = lt
  end.

(** The state after a computation from [c] that keeps the value. *)
Definition keeps_at {A} (m : ActM A) c : Prop :=
  match m c with
  | (Ok _, c') => act_ok start c' /\ act_held c' = act_held c
  | (Err _, c') => act_ok start c' /\ act_held c' <= act_held c
  end.

Lemma keeps_flow {A} (m : ActM A) c : flow m -> act_ok start c -> keeps_at m c.
Proof. apply flows_at. Qed.

Lemma flows_keeps {A} (m : ActM A) : (forall c, act_ok start c -> keeps_at m c) -> flow m.
Proof.
  intros H c. specialize (H c). unfold keeps_at in H. destruct (m c) as [[a|e] c'].
  - split; [|done]. intros K. by apply H.
  - intros K. by apply H.
Qed.

Lemma measure_flow spec mode gas_fees rewrite info prices sics bcs per_cell max_cells c :
  tokens_ok gas_fees -> 0 <= per_cell -> 0 <= max_cells -> info_ok (ctx_end_lt c) info ->
  act_ok start c ->
  keeps_at (measure_and_finish params config spec mode gas_fees rewrite info prices sics bcs
              per_cell max_cells) c.
Proof.
  intros Hg Hp Hm Hi K. unfold measure_and_finish.
  match goal with |- context [add_cells ?l ?s] => pose proof (add_cells_counters l s) as Hc end.
  destruct (add_cells _ _) as [fits st]. specialize (Hc ltac:(done)). cbn in Hc. destruct fits; cbn [negb].
  - assert (outgoing_ok (mkOutgoing mode rewrite prices (stats st)
      (if spec then 0 else compute_fwd_fee prices (stats st)) sics bcs per_cell max_cells)) as Ho.
    { split; cbn; try done. destruct spec; [apply tokens_ok_0 | apply fwd_fee_ok]. }
    destruct info as [i|i]; cbn in Hi.
    + destruct Hi. by apply finish_internal_flow.
    + by apply finish_external_flow.
  - apply keeps_flow; [|done]. apply flows_bind; [by apply flows_collect_fine | intros; apply flows_skip].
Qed.

(** The value of the header is not touched by the check. *)
Lemma check_info_ok mode my lt info info' mc :
  (forall i, info = RelaxedInt i -> tokens_ok (tokens (im_value i))) ->
  check_info params config mode my lt info = InfoOk info' mc -> info_ok lt info'.
Proof.
  intros Hv. destruct info as [i|i]; cbn [check_info].
  - specialize (Hv i eq_refl). unfold check_int_info. destruct (check_rewrite_src_addr _ _) as [[] src]; [|discriminate].
    destruct (check_rewrite_dst_addr _ _) as [[] dst]; [|discriminate]. cbn [negb].
    destruct (if strict_extra_currency params then _ else _) as [e|[]]; [|discriminate..].
    by intros [= <- _].
  - unfold check_ext_info. destruct (outside _ _); [discriminate|].
    destruct (check_rewrite_src_addr _ _) as [[] src]; [|discriminate]. by intros [= <- _].
Qed.

Lemma fine_per_cell_nonneg spec prices : 0 <= fp_cell_price prices -> 0 <= fine_per_cell spec prices.
Proof.
  intros H. unfold fine_per_cell. destruct spec; [done|]. apply Z.div_pos; [|lia].
  by apply Z.shiftr_nonneg.
Qed.

Lemma affordable_nonneg n p f : 0 <= n -> 0 <= p -> 0 <= f -> 0 <= affordable_cells n p f.
Proof.
  intros Hn Hp Hf. unfold affordable_cells. repeat case_match; zify_bool; try done.
  apply Z.div_pos; nia.
Qed.

Lemma message_funds_nonneg mode gas_fees info c f : act_ok start c -> tokens_ok gas_fees ->
  info_ok (ctx_end_lt c) info -> message_funds mode gas_fees info c = Some f -> 0 <= f.
Proof.
  intros [[Hr _] _ Hf _ _ _ _ Hm _ _] Hg Hi. unfold message_funds. destruct info as [i|i]; [|by intros [= <-]].
  destruct Hi as [Hv _]. destruct (_ || _); [by intros [= <-]|].
  destruct (contains mode WITH_REMAINING_BALANCE).
  2:{ intros [= <-]. unfold tokens_ok in Hv. lia. }
  destruct (tokens_checked_add _ _) as [f1|] eqn:H1; [|discriminate].
  apply checked_add_inv in H1 as [_ H1]; [|done|destruct (received_message c); [exact Hm | apply tokens_ok_0]].
  destruct (tokens_checked_sub f1 gas_fees) as [f2|] eqn:H2; [|discriminate].
  apply checked_sub_inv in H2 as [_ H2]; [|done..].
  destruct (tokens_checked_sub f2 _) as [f3|] eqn:H3; [|discriminate].
  apply checked_sub_inv in H3 as [_ H3]; [|done..]. intros [= <-]. unfold tokens_ok in H3. lia.
Qed.

Context (Hconf : config_ok config).

Lemma price_flow my spec mode gas_fees rewrite info sics bcs c : tokens_ok gas_fees ->
  (forall i, info = RelaxedInt i -> tokens_ok (tokens (im_value i))) -> act_ok start c ->
  keeps_at (price_message params config my spec mode gas_fees rewrite info sics bcs) c.
Proof.
  intros Hg Hv K. unfold price_message, keeps_at. rewrite (bind_ok _ _ c c c) by done.
  destruct (check_info _ _ _ _ _ _) as [info' mc|code|code] eqn:Hi.
  - apply check_info_ok in Hi; [|done]. destruct Hconf as [_ _ _ Hp Hm].
    destruct spec; [apply measure_flow; try done; lia|].
    destruct (message_funds _ _ _ _) as [f|] eqn:Hf; [|apply flows_at; [apply flows_skip | done]].
    pose proof (fine_per_cell_nonneg false (fwd_prices config mc) (Hp mc)).
    apply measure_flow; try done. apply affordable_nonneg; [done..|].
    by eapply message_funds_nonneg.
  - apply flows_at; [apply flows_skip | done].
  - apply flows_at; [apply flows_fail | done].
Qed.

(** Inverting a computation of the action phase that only reads. *)
Lemma unpack_values out_msg info sics bcs b : unpack_message out_msg = Ok (info, sics, bcs, b) ->
  forall i, info = RelaxedInt i -> tokens_ok (tokens (im_value i)).
Proof.
  unfold unpack_message. destruct (load_relaxed_msg_info _) as [[info' cs]|e] eqn:H; [|discriminate].
  destruct (load_state_init_as_slice cs) as [[? cs2]|e]; [|discriminate].
  destruct (load_body_as_slice cs2) as [[? ?]|e]; [|discriminate].
  intros [= <- _ _ _] i ->. by eapply parsed_relaxed_ok.
Qed.

Lemma flows_do_send my spec gas_fees mode out_msg rewrite : tokens_ok gas_fees ->
  flow (do_send_message params config my spec gas_fees mode out_msg rewrite).
Proof.
  intros Hg. unfold do_send_message. apply flows_bind; [flows_tac|]. intros _.
  apply flows_bind; [apply flows_ensure|]. intros _. apply flows_bind; [apply flows_ensure|]. intros _.
  destruct (unpack_message out_msg) as [[[[info sics] bcs] b]|e] eqn:Hu.
  2:{ intros c. cbn. intros K. split; [done | lia]. }
  apply flows_keeps. intros c K. unfold keeps_at.
  rewrite (bind_ok _ _ c (info, sics, bcs, b) c) by done. cbn beta iota.
  apply keeps_flow; [|done]. apply flows_bind; [apply flows_ensure|]. intros _.
  apply flows_bind; [apply flows_unwrap|]. intros [[rw si] bd]. apply flows_keeps. intros c' K'.
  apply price_flow; [done| |done]. exact (unpack_values _ _ _ _ _ Hu).
Qed.

Lemma flows_send_loop n my spec gas_fees mode out_msg rewrite : tokens_ok gas_fees ->
  flow (send_loop params config n my spec gas_fees mode out_msg rewrite).
Proof.
  intros Hg. revert rewrite. induction n as [|n IH]; intros rewrite; cbn [send_loop]; [apply flows_raise|].
  apply flows_bind; [by apply flows_do_send|]. intros [|r]; [apply flows_ret | apply IH].
Qed.
End Send.

(** ** The rewrites of a message end *)

Section Rewrites.
Context `{ML : ModelLib} (params : ExecutorParams) (config : ParsedConfig).

(** The position of a rewrite in their order. *)
Definition rank (r : option MessageRewrite) : nat :=
  match r with None => 0 | Some StateInitToCell => 1 | Some BodyToCell => 2 end.

(** A computation that asks for a later rewrite, if for any. *)
Definition advances (rw : option MessageRewrite) (m : ActM SendMsgResult) : Prop :=
  forall c r c', m c = (Ok (Rewrite r), c') -> (rank rw < rank (Some r))%nat.

Lemma advances_bind {A} rw (m : ActM A) k : (forall a, advances rw (k a)) -> advances rw (bind m k).
Proof. intros Hk c r c' H. inv_bind H as a s1 H1. by eapply Hk. Qed.

Lemma advances_ret rw : advances rw (ret Sent).
Proof. by intros c r c' [=]. Qed.

Lemma advances_fail rw code : advances rw (fail_with code).
Proof. by intros c r c' [=]. Qed.

Lemma advances_skip rw mode code : advances rw (check_skip_invalid mode code).
Proof.
  unfold check_skip_invalid. destruct (contains _ _); [|apply advances_fail].
  apply advances_bind. intros _. apply advances_ret.
Qed.

Lemma advances_skip_with_fine rw o code : advances rw (skip_with_fine o code).
Proof. apply advances_bind. intros _. apply advances_skip. Qed.

Lemma advances_rewrite o : advances (og_rewrite o) (rewrite_or_skip o).
Proof.
  unfold rewrite_or_skip. destruct (next_rewrite _) as [r|] eqn:E; [|apply advances_skip_with_fine].
  intros c r' c' [= <- _]. destruct (og_rewrite o) as [[]|]; cbn in E; simplify_eq; cbn; lia.
Qed.

Lemma advances_sent rw mode m st coll fees : advances rw (message_sent params mode m st coll fees).
Proof. unfold message_sent. repeat (apply advances_bind; intros _). apply advances_ret. Qed.

#[local] Hint Resolve advances_ret advances_fail advances_skip advances_skip_with_fine
  advances_rewrite advances_sent : core.

Lemma advances_internal o gas_fees i : advances (og_rewrite o) (finish_internal params o gas_fees i).
Proof.
  unfold finish_internal. apply advances_bind. intros c. repeat (case_match; auto).
  repeat (apply advances_bind; intros _). auto.
Qed.

Lemma advances_external o i : advances (og_rewrite o) (finish_external params o i).
Proof.
  unfold finish_external. apply advances_bind. intros c. repeat (case_match; auto).
  repeat (apply advances_bind; intros _). auto.
Qed.

Lemma advances_measure spec mode gas_fees rw i prices sics bcs p m :
  advances rw (measure_and_finish params config spec mode gas_fees rw i prices sics bcs p m).
Proof.
  unfold measure_and_finish. destruct (add_cells _ _) as [[] st]; cbn [negb].
  - destruct i; [apply (advances_internal (mkOutgoing _ rw _ _ _ _ _ _ _))
                |apply (advances_external (mkOutgoing _ rw _ _ _ _ _ _ _))].
  - apply advances_bind. auto.
Qed.
#[local] Hint Resolve advances_measure : core.




End Rewrites.

(** ** The limit of extra currencies *)

Section Extra.
Context `{ML : ModelLib}.

Definition entry_ok (e : result Error (Z * Z)) : Prop := match e with Ok _ => True | Err _ => False end.

Lemma check_extra_entries_spec l i limit :
  check_extra_entries l i limit = true <->
  Forall entry_ok l /\ (l = [] \/ i + Z.of_nat (length l) <= limit + 1).
Proof.
  revert i. induction l as [|e l IH]; intros i; cbn [check_extra_entries length].
  { split; [intros _; split; [constructor | by left] | done]. }
  destruct (Z.ltb_spec limit i) as [Hlt|Hle]; cbn [orb].
  { split; [discriminate|]. intros [_ [|H]]; [done | lia]. }
  destruct e as [x|x]; [|split; [discriminate | by intros [H _]; inversion H]].
  rewrite IH. split.
  - intros [Hf Hl]. split; [by constructor|]. right. destruct Hl as [->|Hl]; cbn; lia.
  - intros [Hf [|Hl]]; [done|]. inversion Hf; subst. split; [done|]. right. lia.
Qed.

Lemma normalize_entries_length l i limit res r : normalize_entries l i limit res = Ok r ->
  Forall entry_ok l /\ (l = [] \/ i + Z.of_nat (length l) <= limit + 1).
Proof.
  revert i res. induction l as [|e l IH]; intros i res; cbn [normalize_entries length].
  { intros _. split; [constructor | by left]. }
  destruct (Z.ltb_spec limit i) as [Hlt|Hle]; [discriminate|].
  destruct e as [[id amount]|x]; [|discriminate].
  assert (forall res', normalize_entries l (i + 1) limit res' = Ok r ->
    Forall entry_ok (Ok (id, amount) :: l) /\ (Ok (id, amount) :: l = [] \/ i + Z.of_nat (S (length l)) <= limit + 1)) as Hgo.
  { intros res' H. apply IH in H as [Hf Hl]. split; [by constructor|]. right.
    destruct Hl as [->|Hl]; cbn; lia. }
  destruct (amount =? 0); [|apply Hgo]. destruct (extra_remove res id); [apply Hgo | discriminate].
Qed.

(** the limit of two extra currencies in a message lets three through.  A value passes
    the check exactly when its entries parse and there are at most
    [MAX_MSG_EXTRA_CURRENCIES + 1] of them, because the loop compares the index of the
    entry, not the count, with the limit; no more than that survive normalization. *)
Theorem extra_currencies_limit (v : Extra) :
  (check_extra_balance v MAX_MSG_EXTRA_CURRENCIES = true <->
   Forall entry_ok (extra_iter v) /\ Z.of_nat (length (extra_iter v)) <= 3) /\
  (forall v', normalize_extra_balance v MAX_MSG_EXTRA_CURRENCIES = Ok v' ->
   Forall entry_ok (extra_iter v) /\ Z.of_nat (length (extra_iter v)) <= 3).
Proof.
  unfold check_extra_balance, normalize_extra_balance. split.
  - rewrite check_extra_entries_spec. unfold MAX_MSG_EXTRA_CURRENCIES.
    destruct (extra_iter v); cbn [length]; naive_solver lia.
  - intros v' H. apply normalize_entries_length in H as [Hf Hl]. split; [done|].
    unfold MAX_MSG_EXTRA_CURRENCIES in Hl. destruct Hl as [->|Hl]; cbn; lia.
Qed.
End Extra.
