(* ===== verification/ActionSpec.v ===== *)
(** * Value and time through the action phase

    The other actions, the list of actions, and the phase: a successful phase moves the
    value of the context to the executor state; a failed one only charges the fine. *)

From S2P Require Import Prelude External Values VmGas VmState Cells Models SmcInfo.
From S2P Require Import ExecConfig ExecUtil ExecState Phases ConfigSpec FundFlow.
From S2P Require Import Action ActionPhase ActionFlow.

Open Scope vm_scope.

Section Actions.
Context `{Laws : ModelLaws} (params : ExecutorParams) (config : ParsedConfig).
Context (Hconf : config_ok config) (start : Z).
Implicit Types (c : ActionContext).

#[local] Abbreviation flow := (flows start).

(** ** Single actions *)

Lemma flows_count_special : flow count_special.
Proof. by apply flows_modify. Qed.

Lemma flows_set_ctx_state st : flow (modify (set_ctx_state st)).
Proof. by apply flows_modify. Qed.

Lemma flows_set_code code : flow (do_set_code code).
Proof. apply flows_bind; [by apply flows_modify | intros; apply flows_count_special]. Qed.

#[local] Hint Resolve flows_count_special flows_set_ctx_state flows_set_code : flows.

Lemma flows_change_library mc mode lib : flow (do_change_library config mc mode lib).
Proof.
  assert (forall d, flow (modify (push_diff d))) as Hd by (intros; by apply flows_modify).
  assert (forall a w l, flow (add_library config mc a w l)) as Ha.
  { intros a w l. unfold add_library, track_added. flows_tac. }
  assert (forall h, flow (remove_library mc h)) as Hr by (intros h; unfold remove_library; flows_tac).
  unfold do_change_library. flows_tac.
Qed.

Lemma requested_ok mode v original r : tokens_ok (tokens v) -> tokens_ok (tokens original) ->
  requested_reserve params mode v original = Ok r -> tokens_ok (tokens r).
Proof.
  intros Hv Ho. unfold requested_reserve.
  destruct (contains mode RESERVE_WITH_ORIGINAL_BALANCE), (contains mode RESERVE_REVERSE),
    (strict_extra_currency params); intros H; try discriminate H; try (by injection H as <-).
  - destruct (tokens_try_sub _ _) eqn:E; [|discriminate]. injection H as <-.
    by apply try_sub_inv in E as [_ E].
  - by apply cc_sub_inv in H as [_ H].
  - by apply cc_add_tokens_inv in H as [_ H].
  - by apply cc_add_inv in H as [_ H].
Qed.

(** Without the reserve, the rest remains. *)
Lemma without_reserve_inv rem v b : tokens_ok (tokens rem) -> tokens_ok (tokens v) ->
  without_reserve rem v = Ok b ->
  tokens b = tokens rem - tokens v /\ tokens_ok (tokens b).
Proof.
  intros Hr Hv. unfold without_reserve.
  destruct (tokens_checked_sub _ _) as [t|] eqn:E; [|discriminate].
  apply checked_sub_inv in E as [-> Ht]; [|done..].
  destruct (extra_checked_sub _ _); [|discriminate]. by intros [= <-].
Qed.

Lemma swap_sum mode b v b' v' : swap_all_but params mode b v = (b', v') ->
  tokens_ok (tokens b) -> tokens_ok (tokens v) ->
  tokens b' + tokens v' = tokens b + tokens v /\ tokens_ok (tokens b') /\ tokens_ok (tokens v').
Proof.
  unfold swap_all_but. intros H Hb Hv.
  destruct (contains _ _); [destruct (strict_extra_currency params)|]; injection H as <- <-; cbn;
    (split; [lia | by split]).
Qed.

Lemma flows_reserve original mode v : tokens_ok (tokens v) -> tokens_ok (tokens original) ->
  flow (do_reserve_currency params original mode v).
Proof.
  intros Hv Ho. unfold do_reserve_currency. apply flows_bind; [flows_tac|]. intros _.
  apply flows_bind; [apply flows_ensure|]. intros _. apply flows_bind; [apply flows_ensure|]. intros _.
  apply flows_keeps. intros c K. unfold keeps_at.
  destruct (requested_reserve params mode v original) as [r|e] eqn:Hr.
  2:{ cbn. split; [done | lia]. }
  apply requested_ok in Hr; [|done..].
  rewrite (bind_ok _ _ c r c), (bind_ok _ _ c (remaining_balance c) c) by done.
  pose proof (a_remaining _ _ K) as Hrem.
  destruct (if contains mode RESERVE_IGNORE_ERROR then cc_checked_clamp r (remaining_balance c) else Ok r)
    as [r'|e] eqn:Hr'.
  2:{ destruct (contains mode RESERVE_IGNORE_ERROR); [|discriminate].
      rewrite Hr'. cbn. split; [done | lia]. }
  assert (tokens_ok (tokens r')) as Hok'.
  { destruct (contains mode RESERVE_IGNORE_ERROR); [|by injection Hr' as <-]. by apply cc_clamp_inv in Hr' as [_ Hr']. }
  rewrite (bind_ok _ _ c r' c).
  2:{ destruct (contains mode RESERVE_IGNORE_ERROR); [by rewrite Hr' | by injection Hr' as <-]. }
  destruct (without_reserve _ r') as [b|code] eqn:Hb; [|by apply keeps_flow; [apply flows_fail|]].
  apply without_reserve_inv in Hb as [Eb Hb]; [|done..].
  destruct (extra_normalize (other r')) as [x|e]; [|cbn; split; [done | lia]].
  rewrite (bind_ok _ _ c x c) by done.
  destruct (swap_all_but params mode b (set_other x r')) as [b' v'] eqn:Hs.
  apply swap_sum in Hs as (Es & Hb' & Hv'); [|done..].
  rewrite (bind_ok _ _ c tt (set_remaining b' c)) by done.
  rewrite (bind_ok _ _ _ (reserved_balance c) (set_remaining b' c)) by done.
  destruct K as [Ar Ares Af Afe Afw Ao At Am Ati Asu]. unfold act_held in *.
  pose proof (proj1 Hv') as Hv0. cbn in Es.
  destruct (cc_checked_add (reserved_balance c) v') as [w|e] eqn:Hw.
  - apply cc_add_inv in Hw as [Ew Hw]; [|done..].
    rewrite (bind_ok _ _ _ w (set_remaining b' c)) by done.
    assert (act_ok start (set_reserved w (set_remaining b' c)) /\
            act_held (set_reserved w (set_remaining b' c)) = act_held c) as [K' E'].
    { split; [split; try done; unfold act_held; cbn; lia | unfold act_held; cbn; lia]. }
    rewrite (bind_ok _ _ _ tt (set_reserved w (set_remaining b' c))) by done.
    pose proof (flows_at start count_special _ flows_count_special K') as H.
    destruct (count_special _) as [[] c'] in H |- *; rewrite E' in H; exact H.
  - cbn. unfold act_held. split; [split; try done; unfold act_held; cbn; lia | cbn; lia].
Qed.

(** ** The list of actions *)

Definition action_ok (a : OutAction) : Prop :=
  match a with ReserveCurrency _ v => tokens_ok (tokens v) | _ => True end.
Definition item_ok (o : option OutAction) : Prop :=
  match o with Some a => action_ok a | None => True end.

Lemma flows_action env a : tokens_ok (env_gas_fees env) -> tokens_ok (tokens (env_original env)) ->
  action_ok a -> flow (run_action params config env a).
Proof.
  intros Hg Ho Ha. destruct a; cbn [run_action].
  - by apply flows_send_loop.
  - apply flows_set_code.
  - by apply flows_reserve.
  - apply flows_change_library.
Qed.

Lemma flows_actions env l i : tokens_ok (env_gas_fees env) -> tokens_ok (tokens (env_original env)) ->
  Forall item_ok l -> flow (run_actions params config env l i).
Proof.
  intros Hg Ho. revert i. induction l as [|[a|] l IH]; intros i Hl; cbn [run_actions];
    [apply flows_ret| |apply IH; by inversion Hl].
  inversion Hl; subst. apply flows_bind; [by apply flows_modify|]. intros _.
  apply flows_bind; [by apply flows_modify|]. intros _.
  apply flows_bind; [by apply flows_action|]. intros _. by apply IH.
Qed.

Lemma parse_actions_ok items i skipped acc l n : Forall item_ok acc ->
  parse_actions items i skipped acc = Ok (Ok (l, n)) -> Forall item_ok l.
Proof.
  revert i skipped acc. induction items as [|item items IH]; intros i skipped acc Hacc; cbn [parse_actions].
  { by intros [= <- _]. }
  destruct (parse_action item) as [[a| |b]|e] eqn:Hp; [| |discriminate..].
  - apply IH. apply Forall_app. split; [done|]. apply Forall_singleton.
    unfold parse_action in Hp. set (cs := match slice_load_reference _ with Ok _ => _ | Err _ => _ end) in Hp.
    destruct (load_out_action cs) as [[a' rest]|e] eqn:Ha.
    + destruct (slice_is_empty rest); [injection Hp as <-|].
      * destruct a'; try done. by eapply parsed_action_ok.
      * repeat case_match; discriminate.
    + repeat case_match; discriminate.
  - apply IH. apply Forall_app. split; [done|]. by apply Forall_singleton.
Qed.
End Actions.

(** ** The phase *)

Section Phase.
Context `{Laws : ModelLaws} (params : ExecutorParams) (config : ParsedConfig).
Context (Hconf : config_ok config).
Implicit Types (c : ActionContext) (s : ExecutorState).

(** A context of the phase that started in [s]: it holds the balance of [s]. *)
Definition context_of s c : Prop :=
  act_ok (wrap_u 64 (start_lt s + 1)) c /\ act_held c <= tokens (balance s).

Lemma context_start_ok s received state inspect p : tx_ok s -> out_msgs s = [] -> msg_ok received ->
  total_action_fees p = None -> total_fwd_fees p = None -> ap_success p = false ->
  act_ok (wrap_u 64 (start_lt s + 1)) (context_start s received state inspect p) /\
  act_held (context_start s received state inspect p) = tokens (balance s).
Proof.
  intros [[] T _] Ho Hm Hf Hw Hsu. rewrite Ho in T.
  assert (act_held (context_start s received state inspect p) = tokens (balance s)) as E.
  { unfold act_held, fees_of, out_value. cbn. rewrite Hf. cbn. lia. }
  split; [|done]. split; unfold fees_of; cbn; rewrite ?Hf, ?Hw; cbn; try done; try apply tokens_ok_0;
    try (unfold out_value; cbn; lia).
  rewrite E. apply ok_balance.
Qed.

(** Failures report only. *)
Lemma report_failure_held start c : act_ok start c ->
  act_ok start (report_failure c) /\ act_held (report_failure c) = act_held c /\
  received_message (report_failure c) = received_message c.
Proof.
  intros []. unfold report_failure. case_match; (split; [by split | done]).
Qed.

Definition fine_charged c : Z :=
  if charge_action_fees_on_fail params then action_fine c + fees_of (total_action_fees (action_phase c))
  else action_fine c.

(** The fine of a failed phase never exceeds the balance. *)
Lemma apply_fine_spec s c : tx_ok s -> context_of s c ->
  tokens_ok (total_fees s + fine_charged c) ->
  apply_fine_on_error params c s
  = (Ok (set_fine (fine_charged c)
      (on_phase (set_fees None (if fine_charged c =? 0 then None else Some (fine_charged c))) c)),
     set_total_fees (total_fees s + fine_charged c)
       (set_balance (set_tokens (tokens (balance s) - fine_charged c) (balance s)) s)) /\
  0 <= fine_charged c <= tokens (balance s).
Proof.
  intros [E T S] [[Ar Ares Af Afe Afw Ao At Am Ati Asu] Hh] Ht. pose proof E as [Eb Ef _ _ _].
  unfold act_held, fees_of in *.
  assert (0 <= fine_charged c <= tokens (balance s)) as Hc.
  { unfold fine_charged, fees_of, tokens_ok in *. destruct (charge_action_fees_on_fail params); lia. }
  split; [|done]. unfold apply_fine_on_error.
  assert (tokens_ok (fine_charged c)) as Hok by (unfold tokens_ok in *; lia).
  rewrite (bind_ok _ _ s (fine_charged c) s).
  2:{ unfold fine_charged, fees_of in *. destruct (charge_action_fees_on_fail params); [|done].
      unfold tokens_try_add. rewrite checked_add_spec by (unfold tokens_ok in *; lia).
      destruct (Z.leb_spec (action_fine c + default 0 (total_action_fees (action_phase c))) TOKENS_MAX);
        [done | unfold tokens_ok in *; lia]. }
  rewrite (bind_ok _ _ s (balance s) s) by done. unfold tokens_try_sub.
  rewrite checked_sub_spec by done. destruct (Z.leb_spec (fine_charged c) (tokens (balance s))); [|lia].
  erewrite bind_ok by reflexivity. erewrite bind_ok by reflexivity.
  unfold add_fees, tokens_try_add. erewrite (bind_ok (bind _ _)).
  2:{ erewrite bind_ok by reflexivity. cbn. rewrite checked_add_spec by done.
      destruct (Z.leb_spec (total_fees s + fine_charged c) TOKENS_MAX); [|unfold tokens_ok in *; lia].
      reflexivity. }
  reflexivity.
Qed.

(** The state after a fine. *)
Definition fined (f : Z) s : ExecutorState :=
  set_total_fees (total_fees s + f) (set_balance (set_tokens (tokens (balance s) - f) (balance s)) s).

Lemma fined_flow f s : tx_ok s -> 0 <= f <= tokens (balance s) -> tokens_ok (total_fees s + f) ->
  tx_ok (fined f s) /\ held (fined f s) = held s.
Proof.
  intros [[Eb Ef Ed Eu Ep] T S] Hf Ht. split; [|unfold held; cbn; lia]. split; [|exact T|by destruct S].
  split; try done. cbn. unfold tokens_ok in *. lia.
Qed.

Lemma apply_fine_inv s c c' s' : tx_ok s -> context_of s c -> apply_fine_on_error params c s = (Ok c', s') ->
  s' = fined (fine_charged c) s /\ tokens_ok (total_fees s + fine_charged c) /\
  action_fine c' = fine_charged c /\ received_message c' = received_message c.
Proof.
  intros T C H. assert (tokens_ok (total_fees s + fine_charged c)) as Hok.
  { pose proof T as [[Eb Ef _ _ _] _ _]. destruct C as [[Ar Ares Af Afe Afw Ao At Am Ati Asu] Hh].
    unfold apply_fine_on_error in H. inv_bind H as f s1 H1.
    assert (f = fine_charged c /\ s1 = s /\ tokens_ok f) as (-> & -> & Hf).
    { unfold fine_charged. destruct (charge_action_fees_on_fail params); inv_prim H1; [|done].
      apply try_add_inv in H1 as [-> Hsum]; [done|done|].
      unfold act_held, fees_of, tokens_ok in *. lia. }
    inv_bind H as b s2 H2. inv_prim H2. inv_bind H as t s3 H3. inv_prim H3.
    inv_bind H as u s3 H4. inv_prim H4. inv_bind H as u' s3 H4. inv_prim H.
    by apply add_fees_inv in H4 as [_ H4]. }
  destruct (apply_fine_spec s c T C Hok) as [E _]. rewrite E in H. by injection H as <- <-.
Qed.

Lemma check_new_state_inv c s b s' : check_new_state config c s = (Ok b, s') ->
  exists x, s' = set_cached x s.
Proof.
  unfold check_new_state. intros H. inv_bind H as s0 s1 H1. inv_prim H1. cbn [id] in H.
  destruct (special_account s); [inv_prim H; exists (cached_storage_stat s); by destruct s|].
  match type of H with (let '(_, _) := ?x in _) _ = _ => destruct x as [res cache] end.
  inv_bind H as u s1 H1. inv_prim H1. inv_prim H. by eexists.
Qed.

Lemma cached_flow x s : tx_ok s -> tx_ok (set_cached x s) /\ held (set_cached x s) = held s.
Proof. intros [[] T []]. split; [|done]. split; [by split|exact T|by split]. Qed.

(** A phase that ends well: what the context holds becomes the balance, the fees and the
    outbound messages. *)
Lemma finish_actions_flow c s c' s' : tx_ok s -> out_msgs s = [] -> context_of s c ->
  act_held c = tokens (balance s) -> finish_actions c s = (Ok c', s') ->
  tx_ok s' /\ held s' = held s /\ action_fine c' = action_fine c /\
  received_message c' = received_message c /\ burned s' = burned s /\
  (special_account s' = special_account s /\ address s' = address s /\ orig_status s' = orig_status s).
Proof.
  intros [[Eb Ef Ed Eu Ep] T S] Ho [[Ar Ares Af Afe Afw Ao At Am Ati Asu] _] Eh H. unfold finish_actions in H.
  assert (0 <= fees_of (total_action_fees (action_phase c)) + action_fine c <= TOKENS_MAX) as Hfees
    by (unfold act_held, tokens_ok in *; lia).
  inv_bind H as c1 s1 H1.
  assert (s1 = s /\ exists p, c1 = on_phase (fun _ => p) c /\
    fees_of (total_action_fees p) = fees_of (total_action_fees (action_phase c)) + action_fine c) as [-> (p & -> & Efees)].
  { destruct (Z.eqb_spec (action_fine c) 0) as [E0|_].
    - inv_prim H1. split; [done|]. exists (action_phase c). split; [by destruct c | lia].
    - inv_bind H1 as f s2 H2. inv_prim H2. inv_prim H1. split; [done|]. eexists. split; [reflexivity|].
      cbn. apply try_add_inv in H2 as [-> _]; [done| |done]. unfold fees_of, tokens_ok in *. lia. }
  clear H1. inv_bind H as rem s1 H1. inv_prim H1. cbn in H1. apply cc_add_inv in H1 as [Er Hr]; [|done..].
  inv_bind H as change s2 H2.
  assert (exists st x, s2 = set_cached x (set_end_status st s) /\
    (st = end_status s \/ st = StNotExists \/ st = StUninit)) as (st & x & -> & Hst).
  { unfold finish_deletion in H2. destruct (delete_account _).
    - inv_bind H2 as u s3 H3. inv_prim H3. inv_bind H2 as u s3 H3. inv_prim H3. inv_prim H2.
      eexists _, _. split; [reflexivity|]. right. destruct (cc_is_zero rem); auto.
    - inv_prim H2. exists (end_status s), (cached_storage_stat s). split; [by destruct s | by left]. }
  inv_bind H as u s3 H3.
  assert (s3 = set_total_fees (total_fees s + fees_of (total_action_fees p)) (set_cached x (set_end_status st s)) /\
    tokens_ok (total_fees s + fees_of (total_action_fees p))) as [-> Hf].
  { cbn [action_phase on_phase total_action_fees set_success] in H3. unfold fees_of in *.
    destruct (total_action_fees p) as [f|]; cbn [default from_option id] in *.
    - apply add_fees_inv in H3 as [-> Hok]; [done|done|]. unfold tokens_ok. lia.
    - inv_prim H3. rewrite Z.add_0_r. split; [by destruct s | done]. }
  clear H3. inv_bind H as u1 s3 H4. inv_prim H4. inv_bind H as u2 s3 H4. inv_prim H4.
  inv_bind H as u3 s3 H4. inv_prim H4. inv_bind H as u4 s3 H4. inv_prim H4. inv_prim H.
  split; [split|].
  - by split.
  - exact Ati.
  - split; cbn; [done|]. intros ->. destruct S as [_ Hfr]. done.
  - split; [|done]. unfold held, act_held in *. cbn. rewrite Ho. unfold out_value at 2. cbn. lia.
Qed.


(** What a transaction keeps of the account while its state changes. *)
Record same_party s s' : Prop := {
  party_special : special_account s' = special_account s;
  party_address : address s' = address s;
  party_orig : orig_status s' = orig_status s
}.

(** The context after the actions of a phase that started in [s]. *)
Lemma run_actions_context env l s received state inspect p : tx_ok s -> out_msgs s = [] ->
  msg_ok received -> tokens_ok (env_gas_fees env) -> tokens_ok (tokens (env_original env)) ->
  Forall item_ok l -> total_action_fees p = None -> total_fwd_fees p = None -> ap_success p = false ->
  match run_actions params config env l 0 (context_start s received state inspect p) with
  | (Ok _, c) => context_of s c /\ act_held c = tokens (balance s)
  | (Err _, c) => context_of s c
  end.
Proof.
  intros T Ho Hm Hg Hor Hl Hf Hw Hsu.
  destruct (context_start_ok s received state inspect p T Ho Hm Hf Hw Hsu) as [K E].
  pose proof (flows_at (wrap_u 64 (start_lt s + 1)) (run_actions params config env l 0) _
    (flows_actions params config Hconf _ env l 0 Hg Hor Hl) K) as H.
  destruct (run_actions _ _ _ _ _ _) as [[u|e] c]; rewrite E in H.
  - destruct H as [H1 H2]. split; [|done]. split; [done | lia].
  - exact H.
Qed.

Lemma run_parsed_flow env received state inspect bounce p l s res received' diff s' :
  tx_ok s -> out_msgs s = [] -> msg_ok received -> tokens_ok (env_gas_fees env) ->
  tokens_ok (tokens (env_original env)) -> Forall item_ok l ->
  total_action_fees p = None -> total_fwd_fees p = None -> ap_success p = false ->
  run_parsed params config env received state inspect bounce p l s = (Ok (res, received', diff), s') ->
  tx_ok s' /\ held s' = held s /\ same_party s s' /\ msg_ok received' /\ tokens_ok (af_fine res).
Proof.
  intros T Ho Hm Hg Hor Hl Hf Hw Hsu H. unfold run_parsed in H. inv_bind H as s0 s1 H1. inv_prim H1.
  cbn [id] in H. pose proof (run_actions_context env l s received state inspect p T Ho Hm Hg Hor Hl Hf Hw Hsu) as C.
  destruct (run_actions _ _ _ _ _ _) as [[u|[]] c]; [| |discriminate].
  - destruct C as [C E]. inv_bind H as fits s1 H1.
    apply check_new_state_inv in H1 as [x ->]. destruct (cached_flow x s T) as [T1 Eh].
    destruct fits.
    + inv_bind H as c' s1 H1. inv_prim H.
      apply finish_actions_flow in H1 as (T2 & Eh2 & Ef & Er & _ & S1 & S2 & S3); [|done..].
      split; [exact T2|]. split; [lia|]. split; [by split|]. cbn. rewrite Er, Ef. split; apply C.
    + inv_bind H as c' s1 H1. inv_prim H.
      pose proof (apply_fine_spec (set_cached x s) c T1 C) as Hsp.
      apply apply_fine_inv in H1 as (-> & Hok & Ef & Er); [|done..]. specialize (Hsp Hok) as [_ Hle].
      destruct (fined_flow (fine_charged c) (set_cached x s) T1 Hle Hok) as [T2 Eh2].
      split; [exact T2|]. split; [lia|]. split; [by split|]. cbn. rewrite Er, Ef. split; [apply C|].
      pose proof T as [[Hb _ _ _ _] _ _]. cbn in Hle. unfold tokens_ok in *. lia.
  - inv_bind H as c' s1 H1. inv_prim H.
    destruct C as [K Hle']. destruct (report_failure_held _ _ K) as (K' & Eh & Erm).
    assert (context_of s (report_failure c)) as C' by (split; [done | lia]).
    pose proof (apply_fine_spec s _ T C') as Hsp.
    apply apply_fine_inv in H1 as (-> & Hok & Ef & Er); [|done..]. specialize (Hsp Hok) as [_ Hle].
    destruct (fined_flow _ s T Hle Hok) as [T2 Eh2].
    split; [exact T2|]. split; [lia|]. split; [by split|]. cbn. rewrite Er, Ef. split; [apply C'|].
    pose proof T as [[Hb _ _ _ _] _ _]. unfold tokens_ok in *. lia.
Qed.

(** The whole phase. *)
Lemma action_phase_flow received original state actions gas_fees inspect s res received' diff s' :
  tx_ok s -> out_msgs s = [] -> msg_ok received -> tokens_ok gas_fees -> tokens_ok (tokens original) ->
  action_phase_ params config received original state actions gas_fees inspect s
    = (Ok (res, received', diff), s') ->
  tx_ok s' /\ held s' = held s /\ same_party s s' /\ msg_ok received' /\ tokens_ok (af_fine res).
Proof.
  intros T Ho Hm Hg Hor H. unfold action_phase_ in H. inv_bind H as s0 s1 H1. inv_prim H1. cbn [id] in H.
  assert (forall p b, tx_ok s /\ held s = held s /\ same_party s s /\ msg_ok received /\
    tokens_ok (af_fine (mkActionFull p 0 false b))) as Hnothing.
  { intros p b. split; [exact T|]. split; [done|]. split; [by split|]. split; [done|]. apply tokens_ok_0. }
  destruct (unpack_list _ _ _ _) as [[items total]|[code arg]]; [|inv_prim H; apply Hnothing].
  inv_bind H as parsed s1 H1. inv_prim H1.
  destruct parsed as [[l skipped]|[[idx bounce] skipped]]; [|inv_prim H; apply Hnothing].
  apply parse_actions_ok in H1; [|constructor].
  eapply (run_parsed_flow (mkEnv (address s) (special_account s) original gas_fees)); [..|exact H]; done.
Qed.

End Phase.
