(* ===== verification/ActionList.v ===== *)
(** * From the contract's requests to the actions of the transaction

    The message instructions of a contract put its actions in the register c5, each in a
    cell over the cell of the one before; the action phase takes the list apart and runs
    it from the first action on.  Here the two ends meet: what was asked for is what the
    phase runs, in the same order. *)

From S2P Require Import Prelude External Cells Values VmStack VmGas VmRegs VmState GasLaws.
From S2P Require Import GasSpec ArithOps CellOps CellSpec Models MessageOps RandOps ExecConfig.
From S2P Require Import ExecUtil ExecState Action ActionPhase.

Open Scope vm_scope.

Section ActionList.
Context `{ML : ModelLib} `{CLaws : !CellLaws} `{SLaws : !SliceLaws} `{ALaws : !ActionLaws}.
Implicit Types (a : OutAction) (c prev head : Cell) (s : VmState) (l : list value).

(** ** The list in c5 *)

(** [head] is the cell of [a], over the list [prev]. *)
Record list_item head prev a : Prop := {
  li_ordinary : is_exotic head = false;
  li_nonempty : slice_is_empty (new_allow_exotic head) = false;
  li_prev : exists cs, slice_load_reference (new_allow_exotic head) = Ok (prev, cs);
  li_action : parse_action head = Ok (ParsedOk a)
}.

(** The list, newest action first; it ends with an empty cell. *)
Inductive action_list : Cell -> list OutAction -> Prop :=
| action_list_nil c : is_exotic c = false -> slice_is_empty (new_allow_exotic c) = true ->
    action_list c []
| action_list_cons head prev a actions : list_item head prev a -> action_list prev actions ->
    action_list head (a :: actions).

(** An action that can be stored, with its cells. *)
Definition storable a : Prop :=
  action_mode_ok a /\
  exists b0, store_out_action builder_new a = Ok b0 /\
    Forall (fun c => repr_depth c < 256) (builder_refs b0).

Lemma built_item a prev b0 b1 b head :
  action_mode_ok a -> store_out_action builder_new a = Ok b0 ->
  store_reference builder_new prev = Ok b1 -> appended builder_new [] [prev] b1 ->
  store_out_action b1 a = Ok b -> appended b1 (builder_data b0) (builder_refs b0) b ->
  builder_build b = Ok head -> list_item head prev a.
Proof.
  destruct builder_new_spec as (Hd0 & Hr0 & Hp0).
  intros Hm H0 H1 (Hd1 & Hr1 & Hp1) H2 (Hd2 & Hr2 & Hp2) Hb. specialize (Hp2 (Hp1 Hp0)).
  destruct (builder_build_spec b head Hb Hp2) as (Ct & Cd & Cr).
  rewrite Hd2, Hd1, Hd0 in Cd. rewrite Hr2, Hr1, Hr0 in Cr. cbn [app] in Cd, Cr.
  destruct (load_reference_value _ _ _ Cr) as (cs & El & _ & Ed & Er).
  split; [by unfold is_exotic; rewrite Ct| |by exists cs|].
  - unfold slice_is_empty. apply andb_false_iff. right.
    destruct (is_refs_empty _) eqn:E; [|done]. apply is_refs_empty_spec in E.
    pose proof (size_refs_spec (new_allow_exotic head)) as HS. unfold slice_size_refs in HS.
    rewrite E, Cr in HS. cbn [length] in HS. lia.
  - unfold parse_action. rewrite El. rewrite Cd in Ed.
    destruct (load_action_spec a b0 cs Hm H0 Ed Er) as (rest & -> & ->). done.
Qed.

(** One instruction's action on top of the list. *)
Lemma add_action_ok a s c5 : storable a -> Regs.get_d ACTIONS_REG_IDX (cr s) = Some c5 ->
  repr_depth c5 < 512 -> gas_wf (gas s) -> 500 <= Gas.gas_remaining (gas s) ->
  exists head, list_item head c5 a /\ repr_depth head <= Z.max (repr_depth c5 + 1) 256 /\
    add_action a s = (Ok 0, set_cr (Regs.set_d ACTIONS_REG_IDX head (cr s)).2
                              (set_gas (charged 500 (gas s)) s)).
Proof.
  intros (Hm & b0 & H0 & Hsh) Hc5 Hdep Hw Hg. destruct builder_new_spec as (Hd0 & Hr0 & Hp0).
  destruct (store_reference_spec builder_new c5) as (b1 & E1 & A1).
  { apply has_capacity_spec; [lia..|]. rewrite Hd0, Hr0. cbn. lia. }
  pose proof A1 as (Hd1 & Hr1 & Hp1). rewrite Hd0 in Hd1. rewrite Hr0 in Hr1. cbn [app] in Hd1, Hr1.
  destruct (store_action_spec b1 b0 a Hd1) as (b & E2 & A2); [by rewrite Hr1 | done | done |].
  pose proof A2 as (Hd2 & Hr2 & Hp2). rewrite Hr1 in Hr2. cbn [app] in Hr2.
  assert (Forall (fun c => repr_depth c < Z.max (repr_depth c5 + 1) 256) (builder_refs b)) as Hmax.
  { rewrite Hr2. apply Forall_cons. split; [lia|]. eapply Forall_impl; [exact Hsh|]. cbn. lia. }
  destruct (builder_build_shallow b (Hp2 (Hp1 Hp0))) as [head Eb].
  { eapply Forall_impl; [exact Hmax|]. cbn. lia. }
  exists head. split; [by eapply built_item|]. split.
  { apply (builder_build_depth b head _ Eb (Hp2 (Hp1 Hp0))); [lia | exact Hmax]. }
  unfold add_action. rewrite (bind_ok _ _ s (cr s) s) by done. rewrite Hc5.
  rewrite (bind_ok _ _ s c5 s) by done.
  assert (build_action c5 a (gas s) = (Ok head, charged 500 (gas s))) as E.
  { unfold build_action. rewrite E1, (bind_ok _ _ _ b1 (gas s)) by done.
    rewrite E2, (bind_ok _ _ _ b (gas s)) by done. by apply build_ext_ok. }
  rewrite (bind_ok _ _ _ head (set_gas (charged 500 (gas s)) s)); [done|].
  unfold on_gas, zoom, map_err. by rewrite E.
Qed.

(** ** The phase's side *)

Lemma unpack_actions c actions fuel idx acc : action_list c actions ->
  if bool_decide (length actions <= fuel)%nat then
    exists items, unpack_list fuel c idx acc = Ok (acc ++ items, idx + Z.of_nat (length actions)) /\
      Forall2 (fun item a => parse_action item = Ok (ParsedOk a)) items actions
  else unpack_list fuel c idx acc = Err (TooManyActions, idx + Z.of_nat fuel + 1).
Proof.
  intros H. revert fuel idx acc. induction H as [c He Hn|head prev a actions Hi _ IH]; intros fuel idx acc.
  - rewrite bool_decide_true by (cbn; lia). exists []. rewrite app_nil_r.
    split; [|constructor]. destruct fuel; cbn [unpack_list]; rewrite He, Hn; cbn [length]; by rewrite Z.add_0_r.
  - destruct Hi as [Hx Hn [cs Hp] Ha]. destruct fuel as [|fuel].
    { rewrite bool_decide_false by (cbn; lia). cbn [unpack_list]. rewrite Hx, Hn, Hp. do 2 f_equal. lia. }
    specialize (IH fuel (idx + 1) (acc ++ [head])).
    destruct (decide (length actions <= fuel)%nat) as [Hl|Hl].
    + rewrite bool_decide_true in IH by done. rewrite bool_decide_true by (cbn; lia). destruct IH as (items & E & HF).
      exists (head :: items). split; [|by constructor]. cbn [unpack_list]. rewrite Hx, Hn, Hp, E.
      rewrite <- app_assoc. cbn [app length]. do 2 f_equal. lia.
    + rewrite bool_decide_false in IH by done. rewrite bool_decide_false by (cbn; lia). cbn [unpack_list]. rewrite Hx, Hn, Hp, IH.
      do 2 f_equal. lia.
Qed.

Lemma parse_items items actions idx skipped acc :
  Forall2 (fun item a => parse_action item = Ok (ParsedOk a)) items actions ->
  parse_actions items idx skipped acc = Ok (Ok (acc ++ map Some actions, skipped)).
Proof.
  intros H. revert idx acc. induction H as [|item a items actions Ha _ IH]; intros idx acc; cbn [parse_actions map].
  - by rewrite app_nil_r.
  - rewrite Ha, IH. by rewrite <- app_assoc.
Qed.

(** ** The contract's side *)

(** What a contract asks for, its operands (the top first) and the instruction. *)
Inductive request :=
| ReqSend (mode : Z) (msg : Cell)
| ReqReserve (mode amount : Z) (extra : option Cell)
| ReqSetCode (code : Cell)
| ReqSetLib (mode : Z) (lib : Cell)
| ReqChangeLib (mode hash : Z).

Definition operands (r : request) : list value :=
  match r with
  | ReqSend mode msg => [VInt mode; VCell msg]
  | ReqReserve mode amount extra => [VInt mode; match extra with Some c => VCell c | None => VNull end; VInt amount]
  | ReqSetCode code => [VCell code]
  | ReqSetLib mode lib => [VInt mode; VCell lib]
  | ReqChangeLib mode hash => [VInt mode; VInt hash]
  end.
(** SENDRAWMSG, RAWRESERVEX, SETCODE, SETLIBCODE, CHANGELIB. *)
Definition instruction (r : request) : VM Z :=
  match r with
  | ReqSend _ _ => exec_send_message_raw
  | ReqReserve _ _ _ => exec_reserve_raw true
  | ReqSetCode _ => exec_set_code
  | ReqSetLib _ _ => exec_set_lib_code
  | ReqChangeLib _ _ => exec_change_lib
  end.
Definition requested (r : request) : OutAction :=
  match r with
  | ReqSend mode msg => SendMsg mode msg
  | ReqReserve mode amount extra => ReserveCurrency mode (mkCurrency amount (extra_from_root extra))
  | ReqSetCode code => SetCode code
  | ReqSetLib mode lib => ChangeLibrary mode (LibCell lib)
  | ReqChangeLib mode hash => ChangeLibrary mode (LibHash (hash_of_bytes (pad_32 (magnitude_bytes_be hash))))
  end.

(** The operands the instructions accept. *)
Definition accepted (r : request) : Prop :=
  match r with
  | ReqSend mode msg => 0 <= mode <= 255 /\ lazy_from_raw msg = Ok msg
  | ReqReserve mode amount _ => 0 <= mode <= 31 /\ 0 <= amount <= TOKENS_MAX
  | ReqSetCode _ => True
  | ReqSetLib mode _ => 0 <= mode <= 31 /\ Z.land mode 15 <= 2
  | ReqChangeLib mode hash => 0 <= mode <= 31 /\ Z.land mode 15 <= 2 /\ 0 <= hash
  end.

Lemma pop_mode_ok s mode l : is_ton (version s) 4 = true -> 0 <= mode <= 31 -> Z.land mode 15 <= 2 ->
  stack s = of_view (VInt mode :: l) ->
  on_stack (pop_change_library_mode (version s)) s = (Ok mode, set_stack (of_view l) s).
Proof.
  intros Hv Hm Hl Hs. apply (on_stack_ok _ _ _ _ _ Hs). unfold pop_change_library_mode. rewrite Hv.
  rewrite (bind_ok _ _ _ _ _ (pop_smallint_range_ok 0 31 mode l ltac:(lia) ltac:(unfold_widths; lia) Hm)).
  by rewrite (bind_ok _ _ _ tt (of_view l)) by (by apply ensure_true, Z.leb_le).
Qed.

Lemma pop_opt_cell_ok extra l :
  Stack.pop_cell_opt (of_view (match extra with Some c => VCell c | None => VNull end :: l)) = (Ok extra, of_view l).
Proof. unfold Stack.pop_cell_opt. rewrite bind_pop_ok. by destruct extra. Qed.

(** Each instruction takes its operands and adds its action. *)
Lemma instruction_adds r s l : accepted r -> is_ton (version s) 4 = true ->
  stack s = of_view (operands r ++ l) ->
  instruction r s = add_action (requested r) (set_stack (of_view l) s).
Proof.
  intros Ha Hv Hs. destruct r as [mode msg|mode amount extra|code|mode lib|mode hash];
    cbn [accepted operands instruction requested app] in *.
  - destruct Ha as [Hm Hlz]. unfold exec_send_message_raw.
    rewrite (bind_ok _ _ _ _ _ (on_stack_ok _ _ _ _ _ Hs (pop_smallint_range_ok 0 255 mode (VCell msg :: l)
      ltac:(lia) ltac:(unfold_widths; lia) Hm))).
    rewrite (bind_ok _ _ _ _ _ (on_stack_ok _ (set_stack (of_view (VCell msg :: l)) s) _ _ _ eq_refl (pop_cell_ok msg l))).
    unfold send_raw. rewrite Hlz. by rewrite (bind_ok _ _ _ msg (set_stack (of_view l) s)).
  - destruct Ha as [Hm Hamount]. unfold exec_reserve_raw. rewrite (bind_ok _ _ s (version s) s) by done. rewrite Hv.
    rewrite (bind_ok _ _ _ _ _ (on_stack_ok _ _ _ _ _ Hs (pop_smallint_range_ok 0 31 mode _
      ltac:(lia) ltac:(unfold_widths; lia) Hm))).
    rewrite (bind_ok _ _ _ _ _ (on_stack_ok _ (set_stack _ s) _ _ _ eq_refl (pop_opt_cell_ok extra (VInt amount :: l)))).
    rewrite (bind_ok _ _ _ _ _ (on_stack_ok _ (set_stack (of_view (VInt amount :: l)) s) _ _ _ eq_refl (pop_int_ok amount l))).
    unfold bigint_to_tokens. destruct (_ && _) eqn:E; [|exfalso; zify_bool; lia].
    by rewrite (bind_ok _ _ _ amount (set_stack (of_view l) s)).
  - unfold exec_set_code. by rewrite (bind_ok _ _ _ _ _ (on_stack_ok _ _ _ _ _ Hs (pop_cell_ok code l))).
  - destruct Ha as [Hm Hl]. unfold exec_set_lib_code. rewrite (bind_ok _ _ s (version s) s) by done.
    rewrite (bind_ok _ _ _ _ _ (pop_mode_ok s mode _ Hv Hm Hl Hs)).
    by rewrite (bind_ok _ _ _ _ _ (on_stack_ok _ (set_stack (of_view (VCell lib :: l)) s) _ _ _ eq_refl (pop_cell_ok lib l))).
  - destruct Ha as (Hm & Hl & Hh). unfold exec_change_lib. rewrite (bind_ok _ _ s (version s) s) by done.
    rewrite (bind_ok _ _ _ _ _ (pop_mode_ok s mode _ Hv Hm Hl Hs)).
    rewrite (bind_ok _ _ _ _ _ (on_stack_ok _ (set_stack (of_view (VInt hash :: l)) s) _ _ _ eq_refl (pop_int_ok hash l))).
    by rewrite (bind_ok _ _ _ tt (set_stack (of_view l) s)) by (by apply ensure_true, Z.leb_le).
Qed.

Lemma set_get_c5 head r : Regs.get_d ACTIONS_REG_IDX (Regs.set_d ACTIONS_REG_IDX head r).2 = Some head.
Proof. reflexivity. Qed.

(** The requests in turn; [actions] are in c5 already, [d] bounds the depth of the list. *)
Lemma requests_add rs l s c5 actions d :
  Forall (fun r => accepted r /\ storable (requested r)) rs -> is_ton (version s) 4 = true ->
  stack s = of_view (flat_map operands rs ++ l) ->
  Regs.get_d ACTIONS_REG_IDX (cr s) = Some c5 -> action_list c5 actions ->
  repr_depth c5 <= d -> 256 <= d -> d + Z.of_nat (length rs) <= 512 ->
  gas_wf (gas s) -> 500 * Z.of_nat (length rs) <= Gas.gas_remaining (gas s) ->
  exists head s', run_all (map instruction rs) s = (Ok 0, s') /\ stack s' = of_view l /\
    Regs.get_d ACTIONS_REG_IDX (cr s') = Some head /\
    gas s' = charged (500 * Z.of_nat (length rs)) (gas s) /\
    action_list head (rev (map requested rs) ++ actions).
Proof.
  intros Hrs. revert s c5 actions d. induction Hrs as [|r rs [Ha Hst] _ IH];
    intros s c5 actions d Hv Hs Hc5 Hal Hd H256 Hsum Hw Hg; cbn [map flat_map length rev] in *.
  { exists c5, s. cbn. change (500 * Z.of_nat 0) with 0. by rewrite charged_0. }
  rewrite <- app_assoc in Hs. pose proof (instruction_adds r s _ Ha Hv Hs) as E1.
  set (s1 := set_stack (of_view (flat_map operands rs ++ l)) s) in *.
  destruct (add_action_ok (requested r) s1 c5 Hst Hc5 ltac:(lia) Hw ltac:(cbn; lia)) as (head & Hi & Hdh & E2).
  rewrite E2 in E1. set (s2 := set_cr _ _) in E1.
  pose proof (charged_wf 500 (gas s) Hw ltac:(lia)) as Hw2.
  destruct (IH s2 head (requested r :: actions) (d + 1) Hv eq_refl (set_get_c5 head (cr s1))
    ltac:(by apply action_list_cons with (prev := c5)) ltac:(lia) ltac:(lia) ltac:(lia) Hw2 ltac:(cbn; lia))
    as (head' & s' & E & Hs' & Hc' & Hg' & Hal').
  exists head', s'. cbn [run_all]. rewrite (bind_ok _ _ _ _ _ E1), E.
  split; [done|]. split; [done|]. split; [done|]. split.
  - rewrite Hg'. change (gas s2) with (charged 500 (gas s)). rewrite charged_add. f_equal. lia.
  - by rewrite <- app_assoc.
Qed.

(** C9: What a contract asks for is what the action phase runs.  Up to 256 instructions that
    send messages, reserve currency, set the code or change libraries, with operands they
    accept, run from an empty list in c5: they succeed for 500 gas each and leave a list
    from which the action phase, with whatever parameters, takes exactly these actions in
    the order they were asked for; the 256th action makes it fail as a whole with
    [TooManyActions], whatever the actions are. *)
Theorem actions_arrive (rs : list request) (l : list value) (s : VmState) (c5 : Cell)
    (Hrs : Forall (fun r => accepted r /\ storable (requested r)) rs)
    (Hlen : (length rs <= 256)%nat)
    (Hv : is_ton (version s) 4 = true)
    (Hs : stack s = of_view (flat_map operands rs ++ l))
    (Hc5 : Regs.get_d ACTIONS_REG_IDX (cr s) = Some c5)
    (Hempty : is_exotic c5 = false /\ slice_is_empty (new_allow_exotic c5) = true)
    (Hdep : repr_depth c5 <= 256)
    (Hw : gas_wf (gas s)) (Hg : 500 * Z.of_nat (length rs) <= Gas.gas_remaining (gas s)) :
  exists head s', run_all (map instruction rs) s = (Ok 0, s') /\ stack s' = of_view l /\
    Regs.get_d ACTIONS_REG_IDX (cr s') = Some head /\
    gas s' = charged (500 * Z.of_nat (length rs)) (gas s) /\
    forall params config received original state gas_fees inspect e,
      action_phase_ params config received original state head gas_fees inspect e =
      if bool_decide (length rs <= 255)%nat then
        run_parsed params config (mkEnv (address e) (special_account e) original gas_fees) received state
          inspect false (set_totals true (Z.of_nat (length rs)) 0 (phase_start head))
          (map (fun r => Some (requested r)) rs) e
      else
        (Ok (mkActionFull (set_result TooManyActions (Some 256) (phase_start head)) 0 false false,
             received, None), e).
Proof.
  destruct Hempty as [Hx He].
  destruct (requests_add rs l s c5 [] 256 Hrs Hv Hs Hc5 ltac:(by constructor) Hdep ltac:(lia) ltac:(lia) Hw Hg)
    as (head & s' & E & Hs' & Hc' & Hg' & Hal).
  exists head, s'. split; [done|]. split; [done|]. split; [done|]. split; [done|].
  intros params config received original state gas_fees inspect e. rewrite app_nil_r in Hal.
  pose proof (unpack_actions head _ (Z.to_nat MAX_ACTIONS) 0 [] Hal) as HU.
  rewrite length_rev, length_map in HU. change (Z.to_nat MAX_ACTIONS) with 255%nat in HU.
  unfold action_phase_. rewrite (bind_ok _ _ e e e) by done.
  change (Z.to_nat MAX_ACTIONS) with 255%nat.
  destruct (decide (length rs <= 255)%nat) as [Hl|Hl].
  - rewrite bool_decide_true in HU |- * by done. destruct HU as (items & -> & HF).
    assert (Forall2 (fun item a => parse_action item = Ok (ParsedOk a)) (rev items) (map requested rs)) as HR.
    { rewrite <- (rev_involutive (map requested rs)), (rev_alt items), (rev_alt (rev _)).
      by apply Forall2_reverse. }
    cbn [app]. rewrite (parse_items _ _ 0 0 [] HR). cbn [app].
    rewrite (bind_ok _ _ e (Ok (map Some (map requested rs), 0)) e) by done. by rewrite map_map, Z.add_0_l.
  - rewrite bool_decide_false in HU |- * by done. by rewrite HU.
Qed.
End ActionList.
