(* ===== verification/ComputeSpec.v ===== *)
(** * The compute phase

    The gas an account can use is the gas its balance pays for, so the phase never fails
    on the fees; the virtual machine stops before its fuel is used up; and internal
    messages are always accepted. *)

From S2P Require Import Prelude External Values VmGas VmState Dispatch Codepage Run GasLaws Metering.
From S2P Require Import Instructions Termination DispatchLaws CodepageLaws Reach.
From S2P Require Import Cells Models Dicts RandOps SmcInfo ExecConfig ExecUtil ExecState Phases.
From S2P Require Import ConfigSpec FundFlow Compute Action ActionPhase ActionSpec Transaction.

Open Scope vm_scope.

(** ** Gas parameters *)

Section Params.
Context `{Laws : ModelLaws} (config : ParsedConfig) (Hconf : config_ok config).

(** The greatest gas limit of the configuration. *)
Definition top_gas (mc : bool) : Z :=
  Z.max (gp_gas_limit (gas_prices config mc)) (gp_special_gas_limit (gas_prices config mc)).

Lemma bought_range mc b : tokens_ok b ->
  0 <= gas_bought_for (gas_prices config mc) b <= gp_gas_limit (gas_prices config mc).
Proof.
  intros Hb. pose proof (gas_prices_ok config mc Hconf) as Hp.
  destruct (Z.eq_dec b 0) as [->|]; [destruct Hp; cbn; lia|].
  rewrite gas_bought_for_spec by (done || unfold tokens_ok in *; lia). by apply bought_spec_range.
Qed.

(** The parameters are in range; only special accounts may use more than the balance
    buys, and only external messages have a credit. *)
Record gas_in_range (g : GasParams) (special mc external : bool) (b : Z) : Prop := {
  gr_max : 0 <= max g <= top_gas mc;
  gr_limit : 0 <= limit g <= max g;
  gr_credit : 0 <= credit g <= max g;
  gr_price : 0 <= price g;
  gr_bought : special = false -> max g = gas_bought_for (gas_prices config mc) b;
  gr_internal : external = false -> credit g = 0;
  gr_external : external = true -> special = false -> limit g = 0
}.

Lemma gas_params_range b m special mc ordinary external : tokens_ok b -> tokens_ok m ->
  (external = true -> ordinary = true /\ m = 0) ->
  gas_in_range (compute_gas_params config b m special mc ordinary external) special mc external b.
Proof.
  intros Hb Hm He. pose proof (gas_prices_ok config mc Hconf) as []. unfold compute_gas_params.
  pose proof (bought_range mc b Hb) as H1. pose proof (bought_range mc m Hm) as H2.
  set (gas_max := if special then _ else _).
  assert (0 <= gas_max <= top_gas mc) as Hmax by (unfold gas_max, top_gas; destruct special; lia).
  split; cbn; try lia.
  - destruct (negb ordinary || special); lia.
  - destruct (ordinary && external); lia.
  - intros ->. done.
  - intros ->. by rewrite andb_false_r.
  - intros -> ->. destruct He as [-> ->]; [done|]. cbn. lia.
Qed.

(** What is within the bought gas can be paid. *)
Lemma fee_affordable mc b g : tokens_ok b -> 0 <= g <= gas_bought_for (gas_prices config mc) b ->
  0 < gas_bought_for (gas_prices config mc) b ->
  0 <= compute_gas_fee (gas_prices config mc) g <= b.
Proof.
  intros Hb Hg Hpos. pose proof (bought_range mc b Hb) as Hr.
  pose proof (gas_prices_ok config mc Hconf) as Hp. set (p := gas_prices config mc) in *.
  assert (b <> 0) by (intros ->; cbn in Hpos; lia).
  rewrite gas_bought_for_spec in * by (done || unfold tokens_ok in *; lia).
  assert (gp_flat_gas_price p <= b) as Hflat.
  { unfold bought_spec in Hpos. destruct (Z.ltb_spec b (gp_flat_gas_price p)); lia. }
  assert (compute_gas_fee p g = gas_fee_spec p g) as -> by (destruct Hp; apply gas_fee_ok; lia).
  split; [|apply bought_pays; [done|done|lia|lia]].
  pose proof (fee_lower p g Hp ltac:(lia)). destruct Hp. lia.
Qed.
End Params.

(** ** The phase *)

Section Phase.
Context `{Laws : ModelLaws} (params : ExecutorParams) (config : ParsedConfig).
Context (Hconf : config_ok config) (table : Opcodes) (fuel : nat).
Context (Htable : table_metered table).
(** The fuel covers the gas of any run. *)
Context (Hfuel : forall mc, 4 * top_gas config mc + 3 <= Z.of_nat fuel).
Implicit Types (s : ExecutorState).

(** What the machine leaves behind when it stops. *)
Record stopped_ok (g : GasParams) (vm : VmState) : Prop := {
  so_used : 0 <= vm_gas_used vm;
  so_limit : vm_gas_used vm <= limit g + credit g \/ vm_gas_used vm <= max g;
  so_credit : Gas.gas_credit (gas vm) = Gas.truncate_gas (credit g) \/ Gas.gas_credit (gas vm) = 0
}.

(** The machine always stops. *)
Lemma run_vm_ends r c7 stack g special mc external b s :
  gas_in_range config g special mc external b ->
  exists res vm, run_vm table fuel (vm_builder params r c7 stack g) s = (Ok (res, vm), s) /\ stopped_ok g vm.
Proof.
  intros [Hmax Hlimit Hcredit Hprice _ _ _]. unfold run_vm.
  destruct (run_ends table (vm_builder params r c7 stack g) fuel Htable)
    as (res & vm & Hr & _ & Hwf & Hl & Hc); cbn [vm_builder b_gas] in *; try lia.
  { specialize (Hfuel mc). unfold gas_bound, b_gas. lia. }
  rewrite Hr. exists res, vm. split; [done|]. destruct Hwf. unfold gas_bound in Hl.
  assert (0 <= Gas.consumed (gas vm)) as Hused by (apply Z.mod_pos_bound; lia).
  split; [unfold vm_gas_used; lia | unfold vm_gas_used; lia | done].
Qed.

(** The input: what it brings is in range, and external messages bring nothing. *)
Definition input_ok (i : TransactionInput) : Prop :=
  match input_msg i with
  | Some m => tokens_ok (tokens (balance_remaining m)) /\
              (is_external m = true -> tokens (balance_remaining m) = 0)
  | None => True
  end.
Definition input_external (i : TransactionInput) : bool :=
  match input_msg i with Some m => is_external m | None => false end.

Lemma phase_gas_range i s : tx_ok s -> input_ok i ->
  gas_in_range config (phase_gas config false i s) (special_account s) (is_masterchain (address s))
    (input_external i) (tokens (balance s)).
Proof.
  intros [[Hb _ _ _ _] _ _] Hi. unfold phase_gas, input_external, input_ok in *.
  destruct i as [m|k]; cbn in *.
  - destruct Hi as [Hm He]. apply gas_params_range; [done..|]. intros H. by split; [|apply He].
  - apply gas_params_range; [done|done|apply tokens_ok_0|discriminate].
Qed.

(** The fees never exceed the balance. *)
Lemma vm_fees_affordable g external s accepted vm :
  gas_in_range config g (special_account s) (is_masterchain (address s)) external (tokens (balance s)) ->
  limit g <> 0 \/ credit g <> 0 -> stopped_ok g vm -> tokens_ok (tokens (balance s)) ->
  0 <= vm_gas_fees config s accepted vm <= tokens (balance s).
Proof.
  intros [Hmax Hlimit Hcredit _ Hb Hi He] Hg [Hu Hl _] Hbal. unfold vm_gas_fees.
  destruct (special_account s); [rewrite andb_false_r; destruct Hbal; lia|].
  destruct accepted; cbn [andb negb]; [|destruct Hbal; lia]. specialize (Hb eq_refl).
  assert (vm_gas_used vm <= max g).
  { destruct external; [specialize (He eq_refl eq_refl) | specialize (Hi eq_refl)]; lia. }
  apply fee_affordable; [done|done|lia|lia].
Qed.

(** The state after the fees for gas. *)
Definition settled (accepted : bool) (fees : Z) (r : Runnable) s : ExecutorState :=
  set_total_fees (total_fees s + fees) (set_balance (set_tokens (tokens (balance s) - fees) (balance s))
    (if accepted && run_msg_state r then set_end_status StActive s else s)).

Definition vm_accepted (vm : VmState) : bool := Gas.gas_credit (gas vm) =? 0.

(** The report of a run. *)
Definition report (f : ComputePhaseFull) (r : Runnable) (g : GasParams) (res : Z) (vm : VmState) s
    : ComputePhaseFull :=
  let accepted := vm_accepted vm in
  let success := accepted && bool_decide (is_Some (committed_state vm)) in
  let activated := accepted && run_msg_state r && negb (bool_decide (orig_status s = StActive)) in
  committed_state_of accepted f r vm
    (ComputeExecuted (executed success accepted activated r g (vm_gas_fees config s accepted vm)
                        (Z.lnot res) vm)).

Lemma settle_spec f r g res vm s : exec_ok s ->
  let fees := vm_gas_fees config s (vm_accepted vm) vm in
  0 <= fees <= tokens (balance s) -> total_fees s + fees <= TOKENS_MAX ->
  settle config false f r g res vm s
  = (Ok (report f r g res vm s), settled (vm_accepted vm) fees r s).
Proof.
  intros [Hb Hf _ _ _] fees Hle Ht. unfold settle. cbn zeta. cbn [orb].
  fold (vm_accepted vm). erewrite (bind_ok (gets _)) by reflexivity. cbn beta. fold fees.
  erewrite (bind_ok (gets _)) by reflexivity. unfold settled.
  set (s1 := if vm_accepted vm && run_msg_state r then set_end_status StActive s else s).
  rewrite (bind_ok _ _ s tt s1) by (unfold s1; by destruct (_ && _)).
  rewrite (bind_ok _ _ s1 (balance s1) s1) by done.
  assert (balance s1 = balance s /\ total_fees s1 = total_fees s) as [Eb Ef]
    by (unfold s1; by destruct (_ && _)).
  assert (tokens_ok fees) as Hok by (unfold tokens_ok in *; lia).
  unfold cc_sub_tokens, tokens_try_sub. rewrite Eb, checked_sub_spec by done.
  destruct (Z.leb_spec fees (tokens (balance s))); [|lia].
  erewrite bind_ok by reflexivity. erewrite bind_ok by reflexivity.
  rewrite (bind_ok _ _ _ tt (settled (vm_accepted vm) fees r s)); [reflexivity|].
  unfold add_fees, tokens_try_add, settled. fold s1. erewrite bind_ok by reflexivity. cbn [total_fees set_balance].
  rewrite Ef, checked_add_spec by done. destruct (Z.leb_spec (total_fees s + fees) TOKENS_MAX); [|lia].
  reflexivity.
Qed.

Lemma settle_inv f r g res vm s f' s' : exec_ok s ->
  let fees := vm_gas_fees config s (vm_accepted vm) vm in
  0 <= fees <= tokens (balance s) ->
  settle config false f r g res vm s = (Ok f', s') ->
  f' = report f r g res vm s /\ s' = settled (vm_accepted vm) fees r s /\ tokens_ok (total_fees s + fees).
Proof.
  intros E fees Hle H. assert (tokens_ok (total_fees s + fees)) as Ht.
  { destruct E as [Hb Hf _ _ _]. unfold settle in H. cbn zeta in H. cbn [orb] in H.
    fold (vm_accepted vm) in H. inv_bind H as x s1 H1. inv_prim H1. fold fees in H.
    inv_bind H as y s1 H1. inv_prim H1. inv_bind H as u s1 H1.
    assert (total_fees s1 = total_fees s) as Ef by (destruct (_ && _) in H1; by inv_prim H1).
    inv_bind H as b s2 H2. inv_prim H2. inv_bind H as b s2 H2. inv_prim H2. inv_bind H as u2 s2 H3. inv_prim H3.
    inv_bind H as u3 s3 H4. apply add_fees_inv in H4 as [_ H4]; cbn in *; [by rewrite <- Ef | by rewrite Ef|].
    unfold tokens_ok in *. lia. }
  rewrite settle_spec in H by (done || apply Ht). injection H as <- <-. done.
Qed.

(** Choosing the state to run: only the account state and the cache change. *)
Record chosen s s1 (x : result ComputePhaseSkipReason Runnable) : Prop := {
  ch_ok : tx_ok s1;
  ch_balance : balance s1 = balance s;
  ch_fees : total_fees s1 = total_fees s;
  ch_out : out_msgs s1 = out_msgs s;
  ch_burned : burned s1 = burned s;
  ch_party : same_party s s1;
  ch_active : forall r, x = Ok r -> run_msg_state r = true -> is_active (acct s1) = true
}.

Lemma chosen_same s x : tx_ok s -> (forall r, x = Ok r -> run_msg_state r = false) -> chosen s s x.
Proof.
  intros T Hx. split; try done. intros r Hr Hm. specialize (Hx r Hr). congruence.
Qed.

Lemma choose_state_spec i ext st s : tx_ok s ->
  exists x s1, choose_state config i ext st s = (Ok x, s1) /\ chosen s s1 x.
Proof.
  intros T. unfold choose_state. rewrite (bind_ok _ _ s s s) by done.
  assert (forall m, exists x s1, use_msg_state config m st s = (Ok x, s1) /\ chosen s s1 x) as Hm.
  { intros m. unfold use_msg_state. rewrite (bind_ok _ _ s s s) by done.
    destruct (_ || _); [exists (Err SkipBadState), s; split; [done|]; by apply chosen_same|].
    destruct (check_state_limits_diff _ _ _ _ _) as [res cache].
    rewrite (bind_ok _ _ s tt (set_cached cache s)) by done.
    destruct (cached_flow cache s T) as [T1 _]. pose proof T1 as [E1 N1 S1].
    destruct res; (do 2 eexists; split; [reflexivity|]); split; try done.
    all: try (split; [by destruct E1 | exact N1 | split; cbn; [done|]]; intros; done). }
  destruct (in_msg_init i) as [m|], (acct s); try apply Hm.
  - destruct (_ && _); (do 2 eexists; split; [reflexivity|]); apply chosen_same; [done|done|done|].
    by intros r [= <-].
  - do 2 eexists. split; [reflexivity|]. by apply chosen_same.
  - do 2 eexists. split; [reflexivity|]. apply chosen_same; [done|]. by intros r [= <-].
  - do 2 eexists. split; [reflexivity|]. by apply chosen_same.
Qed.

Lemma report_spec f r g res vm s :
  compute_fees (cf_phase (report f r g res vm s)) = vm_gas_fees config s (vm_accepted vm) vm /\
  accepted (report f r g res vm s) = vm_accepted vm /\
  original_balance (report f r g res vm s) = original_balance f.
Proof.
  unfold report, committed_state_of. destruct (committed_state vm), (vm_accepted vm); done.
Qed.

Lemma settled_flow a fees r s : tx_ok s -> 0 <= fees <= tokens (balance s) -> tokens_ok (total_fees s + fees) ->
  (run_msg_state r = true -> is_active (acct s) = true) ->
  tx_ok (settled a fees r s) /\ held (settled a fees r s) = held s.
Proof.
  intros [[Hb Hf Hd Hu Hp] T [Sa Sf]] Hle Ht Ha. unfold settled. destruct (a && run_msg_state r) eqn:E.
  - apply andb_prop in E as [_ E]. specialize (Ha E). split; [|unfold held; cbn; lia]. split.
    + split; try done. cbn. unfold tokens_ok in *. lia.
    + exact T.
    + split; cbn; done.
  - split; [|unfold held; cbn; lia]. split; [|exact T|by split]. split; try done. cbn.
    unfold tokens_ok in *. lia.
Qed.

(** Running: building the context may fail, the machine does not. *)
Definition context_fails (i : TransactionInput) (e : Error) : Prop :=
  (exists m, input_msg i = Some m /\ make_tuple m = Err e) \/ (exists info, build_c7 info = Err e).

Lemma execute_outcome i sf f r mb g special mc external b s : gas_in_range config g special mc external b ->
  (exists e, execute params config table fuel false i sf f r mb g s = (Err (TypesError e), s) /\
     context_fails i e) \/
  (exists res vm, stopped_ok g vm /\
     execute params config table fuel false i sf f r mb g s = settle config false f r g res vm s).
Proof.
  intros Hg. unfold execute.
  destruct (match input_msg i with Some msg => make_tuple msg | None => Ok None end) as [t|e] eqn:Ht.
  2:{ left. exists e. split; [done|]. left. destruct (input_msg i) as [m|]; [by exists m | done]. }
  erewrite bind_ok by reflexivity. rewrite (bind_ok _ _ s s s) by done.
  destruct (build_c7 _) as [c7|e] eqn:Hc7.
  2:{ left. exists e. split; [done|]. right. by eexists. }
  erewrite bind_ok by reflexivity. right.
  destruct (run_vm_ends r c7 (prepare_vm_stack i s) g special mc external b s Hg) as (res & vm & Hr & Hs).
  exists res, vm. split; [done|]. by rewrite (bind_ok _ _ _ _ _ Hr).
Qed.

(** ** The whole phase *)

Definition msg_value (i : TransactionInput) : CurrencyCollection :=
  match input_msg i with Some m => balance_remaining m | None => cc_zero end.

Definition account_state_init s : StateInit :=
  match acct s with AccActive current => current | _ => state_init_default end.

(** The phase is skipped, or fails to build the context, or runs the machine. *)
Lemma compute_outcome i sf original s : tx_ok s -> input_ok i -> balance_before i s = (Ok original, s) ->
  let f := mkComputeFull (ComputeSkipped SkipNoGas) false original (account_state_init s) empty_cell in
  let g := phase_gas config false i s in
  (exists reason s1, compute_phase params config table fuel false i sf s = (Ok (skipped reason f), s1) /\
     chosen s s1 (Err reason)) \/
  (exists e s1, compute_phase params config table fuel false i sf s = (Err (TypesError e), s1) /\
     context_fails i e) \/
  (exists r res vm s1, compute_phase params config table fuel false i sf s
     = settle config false f r g res vm s1 /\
     chosen s s1 (Ok r) /\ stopped_ok g vm /\ (limit g <> 0 \/ credit g <> 0)).
Proof.
  intros T Hi Hb f g. unfold compute_phase. rewrite (bind_ok _ _ _ _ _ Hb), (bind_ok _ _ s s s) by done.
  fold (account_state_init s). fold f. fold g.
  destruct (Z.eqb_spec (tokens (balance s)) 0).
  { left. exists SkipNoGas, s. split; [done|]. by apply chosen_same. }
  destruct ((limit g =? 0) && (credit g =? 0)) eqn:Hg.
  { left. exists SkipNoGas, s. split; [done|]. by apply chosen_same. }
  apply andb_false_iff in Hg. rewrite !Z.eqb_neq in Hg.
  match goal with |- context [let '(_, _) := ?x in _] => destruct x as [mb ext] end.
  destruct (choose_state_spec i ext (account_state_init s) s T) as (x & s1 & Hc & C).
  rewrite (bind_ok _ _ _ _ _ Hc). destruct x as [r|reason].
  2:{ left. by exists reason, s1. }
  right. destruct (execute_outcome i sf f r mb g _ _ _ _ s1 (phase_gas_range i s T Hi))
    as [(e & E & Hf)|(res & vm & Hs & E)].
  - left. by exists e, s1.
  - right. by exists r, res, vm, s1.
Qed.

(** A run moves the fees from the balance. *)
Lemma settle_flow i r vm s s1 : tx_ok s -> input_ok i -> chosen s s1 (Ok r) ->
  let g := phase_gas config false i s in
  limit g <> 0 \/ credit g <> 0 -> stopped_ok g vm ->
  0 <= vm_gas_fees config s1 (vm_accepted vm) vm <= tokens (balance s).
Proof.
  intros T Hi [T1 Eb Ef _ _ [Hsp Had _] _] g Hg Hs.
  pose proof (phase_gas_range i s T Hi) as R. fold g in R. rewrite <- Hsp, <- Had, <- Eb in R.
  rewrite <- Eb. eapply vm_fees_affordable; [exact R | done | done | apply T1].
Qed.

Lemma compute_flow i sf s f s' : tx_ok s -> input_ok i ->
  compute_phase params config table fuel false i sf s = (Ok f, s') ->
  tx_ok s' /\ held s' = held s /\ same_party s s' /\ out_msgs s' = out_msgs s /\
  tokens_ok (tokens (original_balance f)) /\ tokens_ok (compute_fees (cf_phase f)).
Proof.
  intros T Hi H.
  assert (exists original, balance_before i s = (Ok original, s) /\ tokens_ok (tokens original)) as (o & Hb & Ho).
  { unfold compute_phase in H. inv_bind H as o s1 H1. unfold balance_before in H1 |- *. clear H.
    inv_bind H1 as b s2 H2. inv_prim H2. pose proof T as [[Hb _ _ _ _] _ _]. unfold input_ok in Hi.
    destruct (input_msg i) as [m|]; inv_prim H1.
    - exists o. rewrite (bind_ok _ _ s (balance s) s) by done. rewrite H1. split; [done|].
      destruct Hi. by apply cc_sub_inv in H1 as [_ H1].
    - by exists (balance s). }
  destruct (compute_outcome i sf o s T Hi Hb) as [(x & s1 & E & C)|[(e & s1 & E & _)|(r & res & vm & s1 & E & C & Hs & Hg)]];
    rewrite E in H; [|discriminate|].
  - injection H as <- <-. pose proof C as [T1 Eb Ef Eo Ebu P _]. split; [exact T1|].
    split; [unfold held; congruence|]. split; [exact P|]. split; [done|]. split; [done|]. apply tokens_ok_0.
  - pose proof (settle_flow i r vm s s1 T Hi C Hg Hs) as Hle.
    pose proof C as [T1 Eb Ef Eo Ebu P Ha]. rewrite <- Eb in Hle.
    apply settle_inv in H as (-> & -> & Ht); [|apply T1|exact Hle].
    destruct (report_spec (mkComputeFull (ComputeSkipped SkipNoGas) false o (account_state_init s) empty_cell)
      r (phase_gas config false i s) res vm s1) as (Rf & _ & Ro).
    destruct (settled_flow (vm_accepted vm) _ r s1 T1 Hle Ht (Ha r eq_refl)) as [T2 Eh].
    split; [exact T2|]. split; [rewrite Eh; unfold held; congruence|].
    split; [destruct P; unfold settled; by destruct (_ && _)|].
    split; [rewrite <- Eo; unfold settled; by destruct (_ && _)|]. rewrite Ro, Rf. split; [done|].
    pose proof T1 as [[Hb1 _ _ _ _] _ _]. unfold tokens_ok in *. lia.
Qed.
End Phase.

(** ** The property *)

Section Theorems.
Context `{Laws : ModelLaws} `{CLaws : !CellLaws} `{SLaws : !SliceLaws}.
Context {DL : DictLib} `{CrL : CryptoLib}.

(** C3: the compute phase ends, and the account can pay for it.  With the code page of
    the instruction modules and fuel for the gas of the configuration, the phase on a well-formed
    state is skipped or runs the machine to its end, unless the context of the contract
    cannot be built; the fees it collects for gas never exceed the balance; and a run for
    an internal message or a tick-tock is always accepted. *)
Theorem compute_phase_ends (params : ExecutorParams) (config : ParsedConfig)
    (table : Opcodes) (fuel : nat) (input : TransactionInput) (storage_fee : Z)
    (s : ExecutorState) (original : CurrencyCollection)
    (Ht : codepage0 = Some table)
    (Hconf : config_ok config) (Hfuel : forall mc, 4 * top_gas config mc + 3 <= Z.of_nat fuel)
    (T : tx_ok s) (Hi : input_ok input) (Hb : balance_before input s = (Ok original, s))
    (Htotal : total_fees s + tokens (balance s) <= TOKENS_MAX) :
  match compute_phase params config table fuel false input storage_fee s with
  | (Ok f, s') =>
      0 <= compute_fees (cf_phase f) <= tokens (balance s) /\
      tokens (balance s') = tokens (balance s) - compute_fees (cf_phase f) /\
      total_fees s' = total_fees s + compute_fees (cf_phase f) /\
      match cf_phase f with
      | ComputeSkipped _ => True
      | ComputeExecuted _ => input_external input = false -> accepted f = true
      end
  | (Err e, _) => exists e', e = TypesError e' /\ context_fails input e'
  end.
Proof.
  pose proof (code_page_metered table Ht) as Hm. clear Ht.
  destruct (compute_outcome params config Hconf table fuel Hm Hfuel input storage_fee original s T Hi Hb)
    as [(x & s1 & -> & C)|[(e & s1 & -> & Hf)|(r & res & vm & s1 & -> & C & Hs & Hg)]].
  - pose proof C as [[[Hb1 _ _ _ _] _ _] Eb Ef _ _ _ _]. cbn. rewrite Eb, Ef in *. unfold tokens_ok in *.
    repeat split; lia.
  - by exists e.
  - set (f := mkComputeFull _ _ _ _ _).
    pose proof (settle_flow config Hconf input r vm s s1 T Hi C Hg Hs) as Hle.
    pose proof C as [T1 Eb Ef _ _ _ _]. rewrite <- Eb in Hle.
    rewrite settle_spec; [|apply T1|exact Hle|rewrite Ef, Eb in *; lia].
    destruct (report_spec config f r (phase_gas config false input s) res vm s1) as (-> & -> & _).
    rewrite Eb in *. split; [exact Hle|].
    split; [unfold settled; destruct (_ && _); cbn; rewrite Eb; lia|].
    split; [unfold settled; destruct (_ && _); cbn; rewrite Ef; lia|].
    destruct (cf_phase _); [done|]. intros Hext. unfold vm_accepted.
    pose proof (gr_internal _ _ _ _ _ _ (phase_gas_range config Hconf input s T Hi) Hext) as Hc0.
    destruct Hs as [_ _ [Hc|Hc]]; rewrite Hc; [|done]. by rewrite Hc0.
Qed.
End Theorems.
