(* ===== verification/TransactionSpec.v ===== *)
(** * Transactions

    The phases put together: a transaction conserves value, gives its messages
    consecutive logical times, and leaves a well-formed account. *)

From S2P Require Import Prelude External Values VmGas VmState Dispatch Codepage GasLaws Metering.
From S2P Require Import Instructions Termination DispatchLaws CodepageLaws Reach.
From S2P Require Import Cells Models Dicts RandOps SmcInfo ExecConfig ExecUtil ExecState Phases Compute Action ActionPhase.
From S2P Require Import Transaction ConfigSpec FundFlow ActionFlow ActionSpec ComputeSpec.

Open Scope vm_scope.

Section Flow.
Context `{Laws : ModelLaws} (params : ExecutorParams) (config : ParsedConfig).
Context (Hconf : config_ok config) (table : Opcodes) (fuel : nat).
Context (Htable : table_metered table).
Context (Hfuel : forall mc, 4 * top_gas config mc + 3 <= Z.of_nat fuel).
Context (Hnow : 0 <= block_unixtime params).
Implicit Types (s : ExecutorState).

(** ** Party *)

Lemma same_account_party s s' : same_account s s' -> same_party s s'.
Proof. by intros []. Qed.

#[global] Instance same_party_preorder : PreOrder same_party.
Proof. split; [by split|]. intros s1 s2 s3 [] []. split; congruence. Qed.

(** A part of a transaction on a well-formed state: it keeps the invariant, and [brought]
    is the value that enters the account. *)
Record part s s' (brought : Z) : Prop := {
  part_ok : tx_ok s';
  part_held : held s' = held s + brought;
  part_party : same_party s s'
}.

Lemma part_trans s1 s2 s3 a b : part s1 s2 a -> part s2 s3 b -> part s1 s3 (a + b).
Proof. intros [_ H1 P1] [O2 H2 P2]. split; [done|lia|by etrans]. Qed.

(** ** Receiving, storage and credit *)

Lemma receive_tx_inv external msg_root s m s' : receive_tx config external msg_root s = (Ok m, s') ->
  receive_in_msg config msg_root s = (Ok m, s') /\ is_external m = external.
Proof.
  unfold receive_tx. intros H. inv_bind H as r s1 H1. unfold attempt in H1.
  destruct (receive_in_msg config msg_root s) as [r' s2] eqn:E. injection H1 as <- <-.
  destruct r' as [m'|e]; [|by destruct external].
  destruct (eqb (is_external m') external) eqn:Eb; [|discriminate]. inv_prim H.
  split; [done|]. by apply eqb_prop in Eb.
Qed.

Lemma fatal_inv {A} (m : ExM A) s a s' : fatal m s = (Ok a, s') -> m s = (Ok a, s').
Proof. apply map_err_inv. Qed.

(** What the message leaves for the rest of the transaction. *)
Definition message_ok (m : ReceivedMessage) : Prop :=
  tokens_ok (tokens (balance_remaining m)) /\
  (is_external m = true -> tokens (balance_remaining m) = 0 /\ bounce_enabled m = false).

Lemma adjust_message_ok adjust b m : message_ok m -> tokens_ok (tokens b) ->
  message_ok (adjust_msg adjust b m) /\ is_external (adjust_msg adjust b m) = is_external m /\
  bounce_enabled (adjust_msg adjust b m) = bounce_enabled m.
Proof.
  intros [Hm He] Hb. unfold adjust_msg.
  destruct (adjust && _) eqn:E; [|split; [split; [exact Hm | exact He] | by split]]. apply andb_prop in E as [_ E].
  apply Z.ltb_lt in E. cbn. split; [split; cbn; [done|]|by split].
  intros Hx. specialize (He Hx) as [H0 ?]. split; [|done]. unfold tokens_ok in *. lia.
Qed.

Lemma credit_tx_flow external m s x s' : tx_ok s -> message_ok m -> is_external m = external ->
  credit_if_internal external m s = (Ok x, s') ->
  part s s' (tokens (balance_remaining m)) /\ out_msgs s' = out_msgs s.
Proof.
  intros T [Hm He] <- H. unfold credit_if_internal in H. destruct (is_external m).
  - inv_prim H. destruct (He eq_refl) as [-> _]. split; [|done]. split; [done|lia|by split].
  - inv_bind H as p s1 H1. inv_prim H. apply fatal_inv in H1.
    apply credit_flow in H1 as (T1 & Eh & _ & Sa & Eo & _); [|done..].
    split; [|done]. split; [done|done|by apply same_account_party].
Qed.

Lemma storage_tx_flow adjust m s p m' s' : tx_ok s -> message_ok m ->
  storage_tx params config adjust m s = (Ok (p, m'), s') ->
  part s s' 0 /\ out_msgs s' = out_msgs s /\ message_ok m' /\ is_external m' = is_external m /\
  bounce_enabled m' = bounce_enabled m /\
  (adjust = false -> balance_remaining m' = balance_remaining m).
Proof.
  intros T Hm H. unfold storage_tx in H. inv_bind H as [p1 r1] s1 H1. inv_prim H. apply fatal_inv in H1.
  apply storage_flow in H1 as (T1 & Eh & Sa & Eo & _ & _ & -> & _); [|done..]. cbn.
  pose proof T1 as [[Hb _ _ _ _] _ _].
  destruct (adjust_message_ok adjust (balance s1) m Hm Hb) as (A & B & C).
  split; [split; [done|lia|by apply same_account_party]|]. split; [done|]. split; [exact A|].
  split; [exact B|]. split; [exact C|]. intros ->. done.
Qed.

Lemma fund_flow external m s sp cp m' s' : tx_ok s -> message_ok m -> is_external m = external ->
  fund_phases params config external m s = (Ok (sp, cp, m'), s') ->
  part s s' (tokens (balance_remaining m)) /\ out_msgs s' = out_msgs s /\ message_ok m' /\
  is_external m' = external.
Proof.
  intros T Hm He H. unfold fund_phases in H. destruct (bounce_enabled m).
  - inv_bind H as [sp1 m1] s1 H1. inv_bind H as cp1 s2 H2. inv_prim H.
    apply storage_tx_flow in H1 as (P1 & O1 & Hm1 & He1 & _ & Hr); [|done..].
    apply credit_tx_flow in H2 as [P2 O2]; [|apply P1|done|congruence].
    pose proof (part_trans _ _ _ _ _ P1 P2) as P. rewrite (Hr eq_refl) in P. 
    split; [exact P|]. split; [congruence|]. split; [done | congruence].
  - inv_bind H as cp1 s1 H1. inv_bind H as [sp1 m1] s2 H2. inv_prim H.
    apply credit_tx_flow in H1 as [P1 O1]; [|done..].
    apply storage_tx_flow in H2 as (P2 & O2 & Hm1 & He1 & _ & _); [|apply P1|done].
    pose proof (part_trans _ _ _ _ _ P1 P2) as P. rewrite Z.add_0_r in P.
    split; [exact P|]. split; [congruence|]. split; [done | congruence].
Qed.

(** ** Computing, acting and bouncing *)

Lemma action_tx_flow received f inspect s o received' s' : tx_ok s -> out_msgs s = [] -> msg_ok received ->
  tokens_ok (tokens (original_balance f)) -> tokens_ok (compute_fees (cf_phase f)) ->
  action_tx params config received f inspect s = (Ok (o, received'), s') ->
  part s s' 0 /\ msg_ok received' /\ tokens_ok (out_fine o).
Proof.
  intros T Ho Hm Hor Hf H. unfold action_tx in H.
  assert (part s s 0) as Hid by (split; [done|lia|by split]).
  destruct (cf_phase f) as [r|p]; [inv_prim H; split; [done|]; split; [done | apply tokens_ok_0]|].
  destruct (ec_success p); [|inv_prim H; split; [done|]; split; [done | apply tokens_ok_0]].
  inv_bind H as [[res rcv] diff] s1 H1. apply fatal_inv in H1.
  inv_bind H as d s2 H2. inv_prim H2. inv_prim H.
  apply action_phase_flow in H1 as (T1 & Eh & P & Hm' & Hfi); [|done..].
  split; [split; [done|lia|done]|]. by split.
Qed.

Lemma bounce_tx_flow m c o s b s' : tx_ok s -> tokens_ok (compute_fees c) -> tokens_ok (out_fine o) ->
  tokens_ok (tokens (balance_remaining m)) ->
  bounce_tx params config m c o s = (Ok b, s') -> part s s' 0.
Proof.
  intros T Hc Hf Hm H. unfold bounce_tx in H. destruct (_ && _).
  - inv_bind H as p s1 H1. inv_prim H. apply fatal_inv in H1.
    apply bounce_flow in H1 as (T1 & Eh & Sa & _); [|done..].
    split; [done|lia|by apply same_account_party].
  - inv_prim H. split; [done|lia|by split].
Qed.

(** ** Whole transactions *)

(** A state at the start of a transaction. *)
Record starting s : Prop := {
  start_ok : tx_ok s;
  start_out : out_msgs s = [];
  start_burned : burned s = 0
}.

Lemma message_input_ok m : message_ok m -> input_ok (InputOrdinary m).
Proof. intros [Hm He]. split; [done|]. intros H. by apply He. Qed.

Lemma run_ordinary_flow external msg_root inspect s info s' : starting s ->
  run_ordinary_transaction params config table fuel external msg_root inspect s = (Ok info, s') ->
  part s s' (inbound msg_root).
Proof.
  intros [T Ho Hb] H. unfold run_ordinary_transaction in H.
  inv_bind H as m s1 H1. apply receive_tx_inv in H1 as [H1 He].
  apply receive_flow in H1 as (T1 & Hm & O1 & Eh & Sa & _ & _ & Hex); [|done..].
  assert (message_ok m) as Hmok by (split; [done | exact Hex]).
  inv_bind H as [[sp cp] m2] s2 H2.
  apply fund_flow in H2 as (P2 & O2 & Hm2 & He2); [|done..].
  inv_bind H as f s3 H3. apply fatal_inv in H3.
  apply compute_flow in H3 as (T3 & Eh3 & P3 & O3 & Hor & Hf);
    [|done..|apply P2|by apply message_input_ok].
  destruct (external && negb (accepted f)); [discriminate|].
  inv_bind H as [o m3] s4 H4.
  apply action_tx_flow in H4 as (P4 & Hm3 & Hfi); [|done|congruence|apply Hm2|done|done].
  inv_bind H as bp s5 H5. inv_prim H.
  apply bounce_tx_flow in H5; [|apply P4|done|done|].
  2:{ destruct m3 as [m3|]; [exact Hm3 | apply Hm2]. }
  apply same_account_party in Sa. destruct P2 as [_ Eh2 Pa2], P4 as [_ Eh4 Pa4], H5 as [T5 Eh5 Pa5].
  split; [done | lia |]. by do 4 (etrans; [eassumption|]).
Qed.

Lemma run_tick_tock_flow kind inspect s info s' : starting s ->
  run_tick_tock_transaction params config table fuel kind inspect s = (Ok info, s') -> part s s' 0.
Proof.
  intros [T Ho _] H. unfold run_tick_tock_transaction in H. inv_bind H as s0 s1 H1. inv_prim H1.
  cbn [id] in H. destruct (negb _); [discriminate|].
  inv_bind H as [sp x] s1 H1. apply fatal_inv in H1.
  apply storage_flow in H1 as (T1 & Eh1 & Sa & O1 & _); [|done..].
  inv_bind H as f s2 H2. apply fatal_inv in H2.
  apply compute_flow in H2 as (T2 & Eh2 & P2 & O2 & Hor & Hf); [|done..].
  inv_bind H as [o m3] s4 H4. inv_prim H.
  apply action_tx_flow in H4 as (P4 & _ & _); [|done|congruence|done..].
  apply same_account_party in Sa. destruct P4 as [T4 Eh4 Pa4].
  split; [done | lia |]. by do 2 (etrans; [eassumption|]).
Qed.
End Flow.

(** ** The start and the end *)

Section Ends.
Context `{Laws : ModelLaws}.
Implicit Types (s : ExecutorState).

(** An account with amounts in range. *)
Record account_ok (a : Account) : Prop := {
  acc_balance_ok : tokens_ok (tokens (acc_balance a));
  acc_due_ok : opt_ok (due_payment (acc_storage_stat a));
  acc_used_ok : used_ok (storage_used (acc_storage_stat a));
  acc_paid_ok : 0 <= last_paid (acc_storage_stat a)
}.

Definition shard_ok (sh : ShardAccount) : Prop :=
  match sh_account sh with Some a => account_ok a | None => True end.

(** The value of an account before a transaction. *)
Definition shard_value (sh : ShardAccount) : Z :=
  match sh_account sh with Some a => tokens (acc_balance a) | None => 0 end.

Lemma begin_starting config min_lt ovr addr sh s : shard_ok sh ->
  begin config min_lt ovr addr (sh_account sh) = Ok s -> starting s /\ held s = shard_value sh.
Proof.
  unfold shard_ok, shard_value, begin. destruct (sh_account sh) as [a|].
  - intros [Hb Hd Hu Hp]. destruct (acc_address a) as [d|]; [|discriminate].
    case_bool_decide; [|discriminate]. intros [= <-]. split; [|unfold held, out_value; cbn; lia].
    split; [split|done|done]; cbn.
    + split; cbn; done || apply tokens_ok_0.
    + apply numbered_nil. unfold wrap_u. by rewrite Z.mod_mod.
    + split; cbn; by destruct (acc_state a).
  - intros _ [= <-]. split; [|done]. split; [split|done|done]; cbn.
    + split; cbn; done || apply tokens_ok_0.
    + apply numbered_nil. unfold wrap_u. by rewrite Z.mod_mod.
    + by split.
Qed.
End Ends.

(** ** The properties *)

Section Theorems.
Context `{Laws : ModelLaws} `{CLaws : !CellLaws} `{SLaws : !SliceLaws}.
Context {DL : DictLib} `{CrL : CryptoLib}.
Context (params : ExecutorParams) (config : ParsedConfig) (table : Opcodes) (fuel : nat).

(** The configuration and the machine of an executor. *)
Record executor_ok : Prop := {
  eo_table : codepage0 = Some table;
  eo_config : config_ok config;
  eo_fuel : forall mc, 4 * top_gas config mc + 3 <= Z.of_nat fuel;
  eo_now : 0 <= block_unixtime params
}.

(** A transaction of the account [sh], and the value of its inbound message. *)
Definition transaction_of (sh : ShardAccount) (u : UncommittedTransaction) (brought : Z) : Prop :=
  (exists min_lt ovr addr external msg_root inspect,
     begin_ordinary params config table fuel min_lt ovr addr external msg_root sh inspect = Ok u /\
     brought = inbound msg_root) \/
  (exists min_lt ovr addr kind inspect,
     begin_tick_tock params config table fuel min_lt ovr addr kind sh inspect = Ok u /\ brought = 0).

Lemma transaction_part sh u brought : executor_ok -> shard_ok sh -> transaction_of sh u brought ->
  exists s, starting s /\ held s = shard_value sh /\ part s (exec u) brought.
Proof.
  intros [Ht Hc Hf Hn] Hsh H. pose proof (code_page_metered table Ht) as Hm. clear Ht.
  destruct H as [(min_lt & ovr & addr & ext & root & insp & H1 & ->)|(min_lt & ovr & addr & kind & insp & H1 & ->)].
  - unfold begin_ordinary in H1. destruct (begin _ _ _ _ _) as [s|e] eqn:Hb; [|discriminate].
    apply begin_starting in Hb as [St Eh]; [|done]. exists s.
    destruct (run_ordinary_transaction _ _ _ _ _ _ _ s) as [[info|e] s'] eqn:Hr; [|discriminate].
    injection H1 as <-. split; [done|]. split; [done|]. by eapply run_ordinary_flow.
  - unfold begin_tick_tock in H1. destruct (begin _ _ _ _ _) as [s|e] eqn:Hb; [|discriminate].
    apply begin_starting in Hb as [St Eh]; [|done]. exists s.
    destruct (run_tick_tock_transaction _ _ _ _ _ _ s) as [[info|e] s'] eqn:Hr; [|discriminate].
    injection H1 as <-. split; [done|]. split; [done|]. by eapply run_tick_tock_flow.
Qed.

(** C1: a transaction neither creates nor destroys value.  Whatever the phases do, the
    balance of the account and the value of the inbound message before the transaction
    are the balance, the collected fees, the values and forwarding fees of the outbound
    messages and the burned value after it. *)
Theorem transaction_conserves_value (sh : ShardAccount) (u : UncommittedTransaction) (brought : Z)
    (He : executor_ok) (Hsh : shard_ok sh) (Hu : transaction_of sh u brought) :
  let s := exec u in
  tokens (balance s) + total_fees s + out_value (out_msgs s) + burned s
  = shard_value sh + brought /\
  tokens_ok (tokens (balance s)) /\ tokens_ok (total_fees s).
Proof.
  destruct (transaction_part sh u brought He Hsh Hu) as (s & _ & Eh & [[[] _ _] Ep _]).
  cbn zeta. unfold held in Ep at 1. rewrite Ep, Eh. done.
Qed.

(** C2: the outbound messages of a transaction have consecutive logical times, starting
    one after that of the transaction, in the order they were sent, and the logical time
    at its end is one after that of the last message. *)
Theorem transaction_numbers_messages (sh : ShardAccount) (u : UncommittedTransaction) (brought : Z)
    (He : executor_ok) (Hsh : shard_ok sh) (Hu : transaction_of sh u brought) :
  let s := exec u in
  let n := length (out_msgs s) in
  end_lt s = wrap_u 64 (start_lt s + 1 + Z.of_nat n) /\
  forall i m, out_msgs s !! i = Some m ->
    header_lt (om_header m) = wrap_u 64 (start_lt s + 1 + Z.of_nat i).
Proof.
  destruct (transaction_part sh u brought He Hsh Hu) as (s & _ & _ & [[_ [Hl He'] _] _ _]). cbn zeta.
  assert (forall z k, wrap_u 64 (wrap_u 64 z + k) = wrap_u 64 (z + k)) as Hw
    by (intros z k; unfold wrap_u; by rewrite Zplus_mod_idemp_l).
  split; [by rewrite He', Hw|]. intros i m Hi.
  assert (map (fun m => header_lt (om_header m)) (out_msgs (exec u)) !! i = Some (header_lt (om_header m))) as E
    by (rewrite list_lookup_fmap, Hi; done).
  rewrite Hl in E. unfold lts_from in E. rewrite list_lookup_fmap in E.
  apply lookup_lt_Some in Hi. rewrite (proj2 (lookup_seq _ _ _ _)) in E by done.
  injection E as <-. by rewrite Hw.
Qed.

(** C4: the state an account is committed with has the status the phases left.  An
    account is gone when it was deleted, or is uninitialized without a balance; an active
    account has an active state; only a frozen account whose hash is its own address is
    stored as uninitialized. *)
Theorem committed_state_has_status (sh : ShardAccount) (u : UncommittedTransaction) (brought : Z)
    (r : option AccountState)
    (He : executor_ok) (Hsh : shard_ok sh) (Hu : transaction_of sh u brought)
    (Hr : build_account_state (exec u) = Ok r) :
  let s := exec u in
  match r with
  | None => end_status s = StNotExists \/ end_status s = StUninit /\ cc_is_zero (balance s) = true
  | Some st =>
      status st = end_status s \/
      end_status s = StFrozen /\ st = AccUninit /\ frozen_hash s = Ok (std_address (address s))
  end.
Proof.
  destruct (transaction_part sh u brought He Hsh Hu) as (s & _ & _ & [[_ _ [Ha Hf]] _ _]). cbn zeta.
  unfold build_account_state in Hr. destruct (end_status (exec u)) eqn:E.
  - destruct (cc_is_zero (balance (exec u))); injection Hr as <-; auto.
  - destruct (frozen_hash (exec u)) as [h|e]; [|discriminate]. injection Hr as <-.
    case_bool_decide as Eh; [|by left]. right. by rewrite Eh.
  - injection Hr as <-. left. specialize (Ha eq_refl). by destruct (acct (exec u)).
  - injection Hr as <-. by left.
Qed.

(** the storage phase deletes only accounts that still hold extra currencies, which
    are then lost: the committed account is gone while its balance is not empty. *)
Theorem storage_deletes_only_with_extra (adjust : bool) (rcv rcv' : option ReceivedMessage)
    (s s' : ExecutorState) (p : StoragePhase)
    (Hc : config_ok config) (Hn : 0 <= block_unixtime params) (T : tx_ok s)
    (H : storage_phase params config adjust rcv s = (Ok (p, rcv'), s'))
    (Hdel : sp_status_change p = ScDeleted) :
  extra_is_empty (other (balance s)) = false /\ other (balance s') = other (balance s) /\
  tokens (balance s') = 0 /\ end_status s' = StNotExists /\ build_account_state s' = Ok None.
Proof.
  pose proof (storage_flow params config Hc adjust rcv s p rcv' s' T Hn H)
    as (_ & _ & _ & _ & _ & Eb & _ & _ & Es). rewrite Hdel in Es. cbn in Es.
  assert (last_paid (storage_stat s) <= block_unixtime params) as Ht.
  { unfold storage_phase in H. inv_bind H as x s1 H1. inv_prim H1. inv_bind H as y s1 H1.
    inv_prim H1. by apply Z.leb_le in H1. }
  pose proof T as [E _ _]. pose proof (to_pay_range params config Hc s E) as Hp.
  rewrite storage_phase_spec in H by done. inv_bind H as u s1 H1. inv_prim H. cbn in Hdel, Eb.
  unfold charged_change, due_status_change in Hdel.
  destruct (Z.leb_spec (storage_to_pay params config s) (tokens (balance s))); [discriminate|].
  apply add_fees_inv in H1 as [-> _]; [|apply E|unfold collected_of, tokens_ok in *; destruct E as [[] _ _ _ _]; lia].
  split; [|split; [done|split; [rewrite Eb; unfold collected_of; lia|split; [done|]]]].
  - destruct (special_account s); [discriminate|]. destruct (is_active (acct s)).
    + by destruct (_ <? _).
    + destruct (extra_is_empty (other (balance s))); [|done]. by rewrite andb_false_r in Hdel.
  - unfold build_account_state. by rewrite Es.
Qed.
End Theorems.
