(* ===== verification/ExecWitnesses.v ===== *)
(** * A sample executor

    A configuration, an account and a message over the concrete models of TreeModels.v,
    on which the transactions are evaluated. *)

From stdpp Require Import relations.
From S2P Require Import Prelude External Cells Values VmStack VmGas VmRegs VmState Dispatch GasLaws.
From S2P Require Import GasSpec ArithOps CellOps CellSpec MessageOps RandOps SizeOps CodepageLaws Reach.
From S2P Require Import ActionList Witnesses Dicts Models SmcInfo ExecConfig ExecUtil ExecState Phases Compute.
From S2P Require Import Action ActionPhase Transaction ConfigSpec FundFlow ActionFlow ActionSpec.
From S2P Require Import ComputeSpec TransactionSpec SizeSpec HashSpec TreeModels.
From S2P Require Import Serial SerialSpec SerialEnds TreeSerial.

Import TreeCells TreeSlices TreeModels TreeDicts.
Open Scope vm_scope.

(** ** The configuration *)

Definition x_gas : GasLimitsPrices := mkGasPrices 655360 1000 2000 100 1000 10000 100 50.
Definition x_fwd : t_fwd := mkFwd 1000 (65536 * 400) 32768.
Definition x_limits : SizeLimitsConfig := mkSizeLimits 100000 100 1000 1000 100000 256.
Definition x_segments : list StoragePrices :=
  [mkStoragePrices 10 65536 0 0 0; mkStoragePrices 20 131072 0 0 0].

Definition x_config : ParsedConfig :=
  mkConfig None x_gas x_gas x_fwd x_fwd x_limits x_segments 0 tt
    {[0 := mkWorkchain true FormatBasic]} ∅ (mkBlockchainConfig 5 tt)
    (mkUnpacked None None None None None None None).

Definition x_params : ExecutorParams :=
  mkParams Gas.NoLibraries 0 1000 0 (mkModifiers false false None) false true false true.

Lemma x_gas_ok : prices_ok x_gas.
Proof. split; vm_compute; split; discriminate. Qed.

Lemma x_config_ok : config_ok x_config.
Proof.
  split; try apply x_gas_ok.
  - repeat constructor; vm_compute; discriminate.
  - intros []; vm_compute; discriminate.
Qed.

(** ** The account and the message *)

Definition x_addr : StdAddr := mkStdAddr None 0 7.
Definition x_other : StdAddr := mkStdAddr None 0 8.
Definition x_code : Cell := TCell Ordinary [] [].
Definition x_state : StateInit := mkStateInit None None (Some x_code) None [].
Definition x_storage : StorageInfo := mkStorage (mkUsed 1 3 0) 900 None.

Definition x_account : Account :=
  mkAccount (AddrStd x_addr) x_storage 40 (mkCurrency 1000000 []) (AccActive x_state).

Definition x_shard : ShardAccount :=
  mkShard (Some x_account) (TCell Ordinary [false] []) 0 40.

(** A message cell: the header, no state init, the body in a reference. *)
Definition msg_cell (header : result Error builder) (body : Cell) : Cell :=
  match header with
  | Ok b =>
      match t_store_all b [(0, 1); (1, 1)] with
      | Ok b => match t_store_ref b body with Ok b => t_full b | Err _ => empty_cell end
      | Err _ => empty_cell
      end
  | Err _ => empty_cell
  end.

Definition x_body : Cell := TCell Ordinary (to_bits 32 1) [].

Definition x_msg : Cell :=
  msg_cell (t_store_msg (mkTBuilder [] [] false)
    (MsgInt (mkIntMsg true true false (AddrStd x_other) (AddrStd x_addr) (mkCurrency 50000 [])
               0 10 30 900))) x_body.

Definition x_fuel : nat := 8100.

Definition x_tx : result TxError UncommittedTransaction :=
  begin_ordinary x_params x_config page x_fuel 0 None x_addr false x_msg x_shard false.

(** The transaction runs: the account gets the value of the message and pays for storage
    and gas. *)
Example x_tx_runs :
  match x_tx with
  | Ok u => (tokens (balance (exec u)), total_fees (exec u), start_lt (exec u), end_lt (exec u))
  | Err _ => (0, 0, 0, 0)
  end = (1049350, 650, 40, 41).
Proof. vm_compute. reflexivity. Qed.

(** * Witnesses of the executor's theorems

    Each theorem with hypotheses applied to the sample executor of ExecWitnesses.v. *)

Lemma x_executor_ok : executor_ok x_params x_config page x_fuel.
Proof.
  split; [apply page_eq | apply x_config_ok | | done].
  intros []; vm_compute; discriminate.
Qed.

Lemma x_shard_ok : shard_ok x_shard.
Proof. split; [done | done | split; cbn; lia | done]. Qed.

(** ** Transactions *)

Lemma x_inbound : inbound x_msg = 50000.
Proof. vm_compute. reflexivity. Qed.

Lemma x_tx_transaction u : x_tx = Ok u ->
  transaction_of x_params x_config page x_fuel x_shard u (inbound x_msg).
Proof.
  unfold x_tx. intros E. left. exists 0, None, x_addr, false, x_msg, false. split; [exact E|]. reflexivity.
Qed.

Lemma transaction_conserves_value_witness :
  exists u, x_tx = Ok u /\
    tokens (balance (exec u)) + total_fees (exec u) + out_value (out_msgs (exec u)) + burned (exec u)
    = 1000000 + 50000.
Proof.
  pose proof x_tx_runs as R. destruct x_tx as [u|e] eqn:E; [|discriminate R]. clear R.
  exists u. split; [reflexivity|].
  destruct (transaction_conserves_value x_params x_config page x_fuel x_shard u (inbound x_msg)
    x_executor_ok x_shard_ok (x_tx_transaction u E)) as [H _].
  rewrite x_inbound in H. exact H.
Defined.

Lemma transaction_numbers_messages_witness :
  exists u, x_tx = Ok u /\
    end_lt (exec u) = wrap_u 64 (start_lt (exec u) + 1 + Z.of_nat (length (out_msgs (exec u)))).
Proof.
  pose proof x_tx_runs as R. destruct x_tx as [u|e] eqn:E; [|discriminate R]. clear R.
  exists u. split; [reflexivity|].
  exact (proj1 (transaction_numbers_messages x_params x_config page x_fuel x_shard u
    (inbound x_msg) x_executor_ok x_shard_ok (x_tx_transaction u E))).
Defined.

Definition x_active (r : result TxError UncommittedTransaction) : bool :=
  match r with
  | Ok u => match build_account_state (exec u) with Ok (Some (AccActive _)) => true | _ => false end
  | Err _ => false
  end.

Lemma x_tx_active : x_active x_tx = true.
Proof. vm_compute. reflexivity. Qed.

Lemma committed_state_has_status_witness :
  exists u st, x_tx = Ok u /\ build_account_state (exec u) = Ok (Some (AccActive st)) /\
    (StActive = end_status (exec u) \/
     end_status (exec u) = StFrozen /\ (AccActive st : AccountState) = AccUninit /\
     frozen_hash (exec u) = Ok (std_address (address (exec u)))).
Proof.
  pose proof x_tx_active as R. destruct x_tx as [u|e] eqn:E; [|discriminate R]. cbn [x_active] in R.
  destruct (build_account_state (exec u)) as [[[|st|h]|]|e] eqn:Es; try discriminate R. clear R.
  exists u, st. split; [reflexivity|]. split; [exact Es|].
  exact (committed_state_has_status x_params x_config page x_fuel x_shard u (inbound x_msg)
    (Some (AccActive st)) x_executor_ok x_shard_ok (x_tx_transaction u E) Es).
Defined.

(** ** The compute phase *)

(** The account before the compute phase, and the message that was credited. *)
Definition x_exec : ExecutorState :=
  mkExec false x_addr x_storage (mkCurrency 1050000 []) (AccActive x_state) StActive StActive 40 41
    [] 0 0 None.

Definition x_received : ReceivedMessage :=
  mkReceived x_msg None (new_allow_exotic x_body) false true (mkCurrency 50000 []).

Lemma x_exec_ok : tx_ok x_exec.
Proof.
  split; [split; try done; split; cbn; lia| |by split].
  vm_compute. by split.
Qed.

Lemma compute_phase_ends_witness :
  exists r, compute_phase x_params x_config page x_fuel false (InputOrdinary x_received) 0 x_exec = r /\
    match r with
    | (Ok f, s') =>
        0 <= compute_fees (cf_phase f) <= 1050000 /\
        tokens (balance s') = 1050000 - compute_fees (cf_phase f) /\
        total_fees s' = 0 + compute_fees (cf_phase f) /\
        match cf_phase f with
        | ComputeSkipped _ => True
        | ComputeExecuted _ => false = false -> accepted f = true
        end
    | (Err e, _) => exists e', e = TypesError e' /\ context_fails (InputOrdinary x_received) e'
    end.
Proof.
  eexists. split; [reflexivity|].
  refine (compute_phase_ends x_params x_config page x_fuel (InputOrdinary x_received) 0 x_exec
    (mkCurrency 1000000 []) page_eq x_config_ok _ x_exec_ok _ eq_refl _).
  - apply x_executor_ok.
  - split; [done | discriminate].
  - vm_compute. discriminate.
Defined.

(** ** The action phase *)

(** A message of more than the balance, with a body of one cell. *)
Definition x_out_msg : Cell :=
  msg_cell (t_store_relaxed (mkTBuilder [] [] false)
    (RelaxedInt (mkIntMsg true false false None (AddrStd x_other) (mkCurrency 2000000 []) 0 0 0 0))) x_body.






(** ** Storage and gas *)

(** An uninitialized account with a debt and some extra currency. *)
Definition x_debtor : ExecutorState :=
  mkExec false x_addr (mkStorage (mkUsed 1 3 0) 900 (Some 1000000)) (mkCurrency 100 [(1, 5)]) AccUninit
    StUninit StUninit 40 41 [] 0 0 None.

Lemma x_debtor_ok : tx_ok x_debtor.
Proof.
  split; [split; try done; split; cbn; lia| |by split].
  vm_compute. by split.
Qed.

Definition x_deleted : result ExecError (StoragePhase * option ReceivedMessage) * ExecutorState :=
  storage_phase x_params x_config false None x_debtor.

Lemma x_deletes :
  match x_deleted with (Ok (p, _), _) => bool_decide (sp_status_change p = ScDeleted) | _ => false end = true.
Proof. vm_compute. reflexivity. Qed.

Lemma storage_deletes_only_with_extra_witness :
  exists p r s', x_deleted = (Ok (p, r), s') /\ sp_status_change p = ScDeleted /\
    other (balance s') = [(1, 5)] /\ build_account_state s' = Ok None.
Proof.
  pose proof x_deletes as R. destruct x_deleted as [[[p r]|e] s'] eqn:E; [|discriminate R].
  apply bool_decide_eq_true in R.
  destruct (storage_deletes_only_with_extra x_params x_config false None r x_debtor s' p x_config_ok
    ltac:(done) x_debtor_ok E R) as (_ & Ho & _ & _ & Hb).
  exists p, r, s'. split; [reflexivity|]. split; [exact R|]. split; [exact Ho | exact Hb].
Defined.

Lemma gas_bought_is_greatest_witness :
  0 < 1050 <= TOKENS_MAX /\ gas_bought_for x_gas 1050 = 200 /\ compute_gas_fee x_gas 200 <= 1050 /\
  forall g, 0 <= g <= 1000 -> compute_gas_fee x_gas g <= 1050 -> g <= 200.
Proof.
  assert (0 < 1050 <= TOKENS_MAX) as Hb by (vm_compute; split; [reflexivity | discriminate]).
  assert (gas_bought_for x_gas 1050 = 200) as Hg by (vm_compute; reflexivity).
  destruct (gas_bought_is_greatest x_gas 1050 x_gas_ok Hb) as (_ & _ & H). rewrite Hg in H.
  split; [exact Hb|]. split; [exact Hg|]. apply H. vm_compute. discriminate.
Defined.

Lemma storage_fees_sum_seconds_witness :
  compute_storage_fees x_config (mkStorage (mkUsed 1 3 0) 15 None) 30 false false
  = 3 * (5 * 1) + 3 * (10 * 2).
Proof.
  assert (Forall (fun q => utime_since (nth 0 x_segments (mkStoragePrices 0 0 0 0 0)) <= utime_since q)
    (tail x_segments)) as Hfirst by (apply Forall_singleton; vm_compute; discriminate).
  assert (used_ok (mkUsed 1 3 0)) as Hused by (split; cbn; lia).
  destruct (storage_fees_sum_seconds x_config (mkStorage (mkUsed 1 3 0) 15 None) 30 false
    (ok_segments _ x_config_ok) Hfirst Hused) as [_ H].
  etrans; [exact H|]. vm_compute. reflexivity.
Defined.

(** ** Statistics *)

(** A tree with a shared leaf. *)
Definition x_leaf : Cell := TCell Ordinary [true] [].
Definition x_tree : Cell := TCell Ordinary [true; false] [x_leaf; x_leaf].

Lemma x_reached d : reached [x_tree] d -> d = x_tree \/ d = x_leaf.
Proof.
  intros (c & Hc & H). apply list_elem_of_singleton in Hc as ->.
  inversion H as [|? y ? Hy Hr]; subst; [by left|].
  assert (y = x_leaf) as -> by (red in Hy; cbn in Hy; set_solver).
  inversion Hr as [|? z ? Hz _]; subst; [by right|]. red in Hz. cbn in Hz. set_solver.
Qed.

Lemma add_cells_counts_distinct_witness :
  exists l, NoDup l /\ (forall d, d ∈ l <-> reached [x_tree] d) /\
    stats (add_cells [x_tree] (with_limits (mkLimits 100 100))).2
    = mkStats (total_bits l) (Z.of_nat (length l)).
Proof.
  pose proof (add_cells_counts_distinct [x_tree] (mkLimits 100 100)) as H.
  assert ((add_cells [x_tree] (with_limits (mkLimits 100 100))).1 = true) as Hf by (vm_compute; reflexivity).
  destruct (add_cells _ _) as [fits st]. cbn in Hf. subst fits.
  destruct H as (l & H1 & H2 & H3 & _).
  - split; vm_compute; split; discriminate.
  - intros d Hd. by destruct (x_reached d Hd) as [-> | ->].
  - intros d e Hd He. destruct (x_reached d Hd) as [-> | ->], (x_reached e He) as [-> | ->]; done.
  - exists l. split; [exact H1|]. split; [exact H2 | exact H3].
Defined.

(** * Witnesses of the library instructions

    The theorems on the instructions that measure trees, add actions and hash applied to
    the sample VM of Witnesses.v, and those on the serialization of stacks to a stack. *)

Import TreeCells TreeSlices TreeModels TreeDicts TreeSerial Serial.
Import VmState GasSpec ActionList HashSpec.

(** ** Trees *)

Definition x_measured : VmState := sample_vm [VInt 10; VCell x_tree].

(** Two distinct cells with three bits and two references. *)
Lemma data_size_counts_witness :
  SizeOps.exec_compute_data_size false false x_measured =
  (Ok 0, set_gas (paid [x_tree; x_leaf] (gas x_measured))
           (set_stack (of_view [VInt 2; VInt 3; VInt 2]) x_measured)).
Proof.
  assert (stack x_measured = of_view [VInt 10; VCell x_tree]) as Hs by (vm_compute; reflexivity).
  destruct (data_size_counts false false (VCell x_tree) 10 [] x_measured [x_tree] 0 0 [x_tree; x_leaf]) as [H _].
  - exact Hs.
  - vm_compute. discriminate.
  - lia.
  - reflexivity.
  - apply sample_wf.
  - vm_compute. discriminate.
  - apply NoDup_cons; split; [|apply NoDup_singleton]. rewrite list_elem_of_singleton. discriminate.
  - intros d. rewrite elem_of_cons, list_elem_of_singleton. split; [|apply x_reached].
    intros Hd. exists x_tree. split; [by apply list_elem_of_singleton|]. destruct Hd as [-> | ->]; [done|].
    apply rtc_once. red. cbn. by apply elem_of_cons; left.
  - intros d e Hd He. destruct (x_reached d Hd) as [-> | ->], (x_reached e He) as [-> | ->]; done.
  - refine (eq_trans (H _ _) _); [cbn; lia | vm_compute; discriminate | reflexivity].
Defined.

(** ** Actions *)

(** A message asked for, then the code. *)
Definition x_requests : list request := [ReqSend 3 x_out_msg; ReqSetCode x_tree].
Definition x_asking : VmState :=
  (fun s => set_cr (Regs.set_d ACTIONS_REG_IDX (TCell Ordinary [] []) (cr s)).2 s)
    (sample_vm (flat_map operands x_requests)).

Lemma x_storable : Forall (fun r => accepted r /\ storable (requested r)) x_requests.
Proof.
  apply Forall_cons; split; [|apply Forall_singleton].
  - split; [split; [lia | done]|]. split; [cbn; lia|]. eexists. split; [vm_compute; reflexivity|].
    apply Forall_singleton. vm_compute. reflexivity.
  - split; [done|]. split; [done|]. eexists. split; [vm_compute; reflexivity|].
    apply Forall_singleton. vm_compute. reflexivity.
Qed.

Lemma actions_arrive_witness :
  exists head s', run_all (map instruction x_requests) x_asking = (Ok 0, s') /\ stack s' = of_view [] /\
    Regs.get_d ACTIONS_REG_IDX (cr s') = Some head /\
    Gas.gas_remaining (gas s') = 0 /\
    forall params config received original state gas_fees inspect e,
      action_phase_ params config received original state head gas_fees inspect e =
      run_parsed params config (mkEnv (address e) (special_account e) original gas_fees) received state
        inspect false (set_totals true 2 0 (phase_start head))
        [Some (SendMsg 3 x_out_msg); Some (SetCode x_tree)] e.
Proof.
  assert (stack x_asking = of_view (flat_map operands x_requests ++ [])) as Hs by reflexivity.
  destruct (actions_arrive x_requests [] x_asking (TCell Ordinary [] []) x_storable)
    as (head & s' & E & Hs' & Hc & Hg & H).
  - cbn. lia.
  - reflexivity.
  - exact Hs.
  - reflexivity.
  - split; reflexivity.
  - vm_compute. discriminate.
  - exact (sample_wf _).
  - vm_compute. discriminate.
  - exists head, s'. split; [exact E|]. split; [exact Hs'|]. split; [exact Hc|]. split; [|exact H].
    rewrite Hg. reflexivity.
Defined.

(** ** Hashing *)

(** Two slices of four bits, the lower one first, as one byte. *)
Definition x_slice (n : Z) : OwnedCellSlice := new_allow_exotic (TCell Ordinary (to_bits 4 n) [] : Cell).
Definition x_nibble (n : Z) : value := VSlice (x_slice n).
Definition x_hashing : VmState := sample_vm [VInt 2; x_nibble 5; x_nibble 10].

Lemma hash_ext_hashes_concatenation_witness :
  exists bytes, bytes_bits bytes = to_bits 8 165 /\
    CryptOps.exec_hash_ext false false 0 x_hashing =
    (Ok 0, set_stack (of_view [hash_value (sha256 bytes)]) (set_gas (charged 2 (gas x_hashing)) x_hashing)).
Proof.
  assert (stack x_hashing = of_view (VInt 2 :: [x_nibble 5; x_nibble 10] ++ [])) as Hs by reflexivity.
  destruct (hash_ext_hashes_concatenation false false 0 33 sha256 [x_nibble 5; x_nibble 10] []
    [x_slice 10; x_slice 5]
    x_hashing) as [H _].
  - reflexivity.
  - reflexivity.
  - exact Hs.
  - vm_compute. reflexivity.
  - reflexivity.
  - vm_compute. reflexivity.
  - apply sample_wf.
  - vm_compute. discriminate.
  - vm_compute. discriminate.
  - destruct H as (bytes & l' & Eb & _ & Hl & E); [vm_compute; discriminate | vm_compute; reflexivity |].
    exists bytes. split; [exact Eb|]. cbn [hashed] in Hl. rewrite Hl in E. exact E.
Defined.

(** ** Serialization *)

(** A continuation with a stack, an exit in c0 and a tuple in c7. *)
Definition x_ord : cont :=
  OrdCont (mkData (Some 3%N) (Some [VInt 7; VNull])
             (mkRegs (Some ExcQuitCont) None None None None (Some x_leaf) (Some [VTuple []])) (Some 0))
    (x_slice 9).
Definition x_values : list value :=
  [VInt (- 2 ^ 200); VTuple [VNaN; VInt 3; VCell x_tree]; VCont x_ord; VSlice (x_slice 4)].

Lemma x_slice_part n : part_of_cell (SL := tree_slices) (x_slice n).
Proof.
  exists 0, 4, 0, 0. eexists. split; [lia|]. split; [lia|]. split; [lia|]. split; [lia|].
  split; [vm_compute; discriminate|]. split; [vm_compute; discriminate|]. split; reflexivity.
Qed.

Lemma x_small z : Z.abs z < 2 ^ 201 -> small_int z.
Proof. intros Hz. unfold small_int. etrans; [exact Hz|]. apply Z.pow_lt_mono_r; lia. Qed.

Lemma x_values_round : Forall (round_value (SL := tree_slices) 3) x_values.
Proof.
  assert (forall n, Forall (round_value (SL := tree_slices) (S n)) [VInt 7; VNull]) as H7
    by (intros n; rewrite !Forall_cons, Forall_nil; split; [by apply x_small | done]).
  assert (Forall (round_value (SL := tree_slices) 2) [VNaN; VInt 3; VCell x_tree]) as Ht
    by (rewrite !Forall_cons, Forall_nil; repeat split; by apply x_small).
  assert (round_value (SL := tree_slices) 3 (VCont x_ord)) as Ho.
  { split; [apply x_slice_part|]. split; [apply H7|]. split; [|by intros ? [= <-]].
    change (Forall (fun kv => round_value (SL := tree_slices) 2 kv.2)
      [(0, VCont ExcQuitCont); (5, VCell x_leaf); (7, VTuple [VTuple []])]).
    rewrite !Forall_cons, Forall_nil. split; [done|]. split; [done|]. split; [|done].
    change (Forall (round_value (SL := tree_slices) 1) [VTuple []]). rewrite Forall_singleton. apply Forall_nil_2. }
  unfold x_values. rewrite !Forall_cons, Forall_nil.
  split; [by apply x_small|]. split; [exact Ht|]. split; [exact Ho|]. split; [apply x_slice_part | done].
Qed.

Lemma stack_round_trip_witness :
  exists b c, run_to (store_stack store_as_stack_value x_values builder_new) b /\ builder_build b = Ok c /\
    (load_stack (load_stack_value 6) (new_allow_exotic c)).1 = Ok x_values.
Proof.
  destruct (stack_round_trip 3 6 x_values x_values_round ltac:(lia)) as [H _].
  eexists _, _. split; [vm_compute; reflexivity|]. split; [vm_compute; reflexivity|].
  eapply H; vm_compute; reflexivity.
Defined.

(** An endless loop over the exit. *)
Lemma loops_do_not_load_witness :
  exists b c, run_to (store_cont (AgainCont ExcQuitCont) builder_new) b /\ builder_build b = Ok c /\
    (load_cont 2 (new_allow_exotic c)).1 = Err (Some CellUnderflow).
Proof.
  eexists _, _. split; [vm_compute; reflexivity|]. split; [vm_compute; reflexivity|].
  eapply (loops_do_not_load (AgainCont ExcQuitCont)); [exact I | lia | vm_compute; reflexivity | vm_compute; reflexivity].
Defined.

Lemma loading_ends_witness :
  exists F, forall f, (F <= f)%nat -> (load_stack_value f (x_slice 5)).1 <> Err None.
Proof.
  destruct (loading_ends (x_slice 5)) as [F HF]. exists F. intros f Hf. exact (proj1 (HF f Hf)).
Defined.
