(* ===== verification/DisasmWitnesses.v ===== *)
(** * A sample disassembly

    A code with a continuation in a cell, one in place, a jump table and a next cell, over
    the concrete models of TreeSerial.v, and the theorems of the disassembler on it. *)

From Stdlib Require Import Ascii String.
From S2P Require Import Prelude External Cells Values VmStack VmGas VmRegs VmState Dispatch TreeModels.
From S2P Require Import Serial VmProc Tokenizer TokenizerSpec Codepage Dump DumpOps DumpSpec Disasm DisasmSpec DisasmLinks.
From S2P Require Import TreeSerial.

Import TreeCells TreeSlices TreeModels TreeDicts TreeSerial TreeDisasm Tokenizer Disasm.
Open Scope vm_scope.

(** A cell of [n] bits and references. *)
Definition d_cell (n : nat) (z : Z) (refs : list tcell) : tcell := TreeCells.TCell Ordinary (to_bits n z) refs.

(** PUSHINT 0; PUSHREFCONT (RET); PUSHCONT (PUSHINT 0; PUSHINT 1); DICTPUSHCONST 1, with an
    entry of PUSHINT 2 and one of PUSHINT 3; and NOP in the next cell. *)
Definition d_code : tcell :=
  d_cell 64 0x708a927071f4a401
    [d_cell 16 0xdb30 []; t_full (fork (Some (d_cell 8 0x72 [])) (Some (d_cell 8 0x73 []))); d_cell 8 0x00 []].

(** The length of each block and each table, and what it links to. *)
Definition d_shape (item : Item) : nat * option Z * list Z :=
  match item with
  | ItemCode b => (length (opcodes b), match tail b with Some (Child id) => Some id | _ => None end,
                   flat_map (fun op => flat_map (fun a => match a with ArgCell id | ArgSlice id => [id] | _ => [] end) (op_args op)) (opcodes b))
  | ItemJumpTable t => (length (items t), None, map snd (items t))
  | _ => (0%nat, None, [])
  end.

Example d_code_disassembled :
  match disasm_structured 10 d_code with
  | Ok c => root c = 0 /\ map d_shape (code_items c) =
      [(4%nat, Some 6, [1; 2; 3]); (1%nat, None, []); (2%nat, None, []); (2%nat, None, [4; 5]);
       (1%nat, None, []); (1%nat, None, []); (1%nat, None, [])]
  | Err _ => False
  end.
Proof. vm_compute. by split. Qed.

(** STREFCONST of a cell: the cell is recorded, but the text has no argument for it, and the
    disassembly of the whole code fails. *)
Example stref_const_not_disassembled :
  disasm_structured 10 (d_cell 16 0xcf20 [d_cell 8 0x00 []]) = Err UnusedLinks.
Proof. vm_compute. reflexivity. Qed.

(** PUSH c12 is printed with the register 12 and read as the register 1 and an integer. *)
Example push_ctr_misread :
  tokenize (show (str "PUSH c" ++ [PNum 12])) = Ok (mkTokens (lit "PUSH") [TReg 1; TInt 2]).
Proof. vm_compute. reflexivity. Qed.

Lemma disasm_ends_witness : exists fuel res,
  (forall f, (fuel <= f)%nat -> disasm_structured f d_code = res) /\
  match res with Ok _ => True | Err e => ~ out_of_fuel e end.
Proof. exact (disasm_ends (CLaws := tree_cell_laws) (DLaws := tree_disasm_laws) d_code). Defined.

Lemma disasm_links_valid_witness :
  match disasm_structured 10 d_code with
  | Ok c => is_program (item_at c (root c)) /\ Forall (item_ok c) (code_items c)
  | Err _ => False
  end.
Proof.
  assert (match disasm_structured 10 d_code with Ok c => Z.of_nat (length (code_items c)) <=? 2 ^ 32 | Err _ => false end = true)
    as H by (vm_compute; reflexivity).
  destruct (disasm_structured (DL := tree_disasm) 10 d_code) as [c|e] eqn:E; [|discriminate H].
  apply (disasm_links_valid (DL := tree_disasm) 10 d_code c E). by apply Z.leb_le.
Defined.


Lemma tokenizer_accepts_grammar_witness :
  sentence (trim (lit "IFREFELSE s1, -5  c4")) (mkTokens (lit "IFREFELSE") [TStack 1; TInt (-5); TReg 4]).
Proof. apply (tokenizer_accepts_grammar (lit "IFREFELSE s1, -5  c4")). vm_compute. reflexivity. Defined.

